(* ===== verification/_CoqProject ===== *)
-Q . S2P
Prelude.v
PyStr.v
PyDict.v
PyVal.v
Json.v
Graph.v
Contracts.v
DedupeStore.v
SqliteDedupe.v
EventLog.v
SqliteLog.v
SchemaMigration.v
Projection.v
Snapshot.v
DispatchPolicy.v
TurnEngine.v
TurnSafety.v
TurnProperties.v
Compensation.v
Recovery.v
RunContext.v
SqlTable.v
RunQueue.v
RunQueueSpec.v
Idempotency.v
IdempotencyHttp.v
IdempotencySpec.v
Admission.v
Outbox.v
TaskRegistry.v
TaskRegistrySpec.v
TaskRestart.v
TaskDag.v
TaskDagSpec.v
TaskDagExec.v
StageGraph.v
RunState.v
RunStore.v
EventStore.v
RunManager.v
RunManagerSpec.v
RunManagerProps.v
RunManagerCreate.v
RunActor.v
MinimalRuntime.v
RunActorProps.v
AgentCore.v
Facade.v
FacadeRebuild.v
FacadeProps.v
FacadeCalls.v
Failover.v
Permission.v
