(* ===== verification/Prelude.v ===== *)
(** * hi-agent: verification library

    The repository is an agent platform in Python.  Its core is
    [agent_kernel/kernel]: the code that turns a decision into at most one
    external effect and records what happened.  Around it, [hi_agent] queues and
    supervises runs and [agent_server] puts an HTTP service in front.  This library
    models the core, the server's run manager with its durable state, and the task
    manager, and proves what callers rely on.

    ** Parts of the program and how they interact

    A run is a sequence of turns.  [TurnEngine.run_turn] (turn_engine.py) takes
    an action, freezes its capabilities in a snapshot (capability_snapshot.py),
    asks the admission service, applies the dispatch policy
    (remote_service_policy.py and the host-kind helpers), claims the dispatch
    key (idempotency_key_policy.py) in the dedupe store (dedupe_store.py, or
    persistence/sqlite_dedupe_store.py) and only then calls the executor; the
    outcome is written back to the dedupe store.  Commits of events go to the
    runtime event log, and the decision projection replays the log, through
    the schema migrator (persistence/event_schema_migration.py), into the state
    the next decision is made on (all three in minimal_runtime.py).  When a
    turn fails, the recovery gate (recovery/gate.py) turns the planner's plan
    into one decision, and the compensation registry undoes effects under keys
    of its own in the same dedupe store.

    A run is driven by the run actor (substrate/temporal/run_actor_workflow.py): it turns
    signals into commits, reads the projection, decides once per commit, has the engine
    run the action of a commit and records the outcome and the decision of the recovery
    gate in the log.  The log and the ledger also live in SQLite, each on a connection of
    its own (persistence/sqlite_event_log.py) or together
    (persistence/sqlite_colocated_bundle.py), and a reconciler compares them
    (persistence/consistency.py, dispatch_outbox_reconciler.py).  Admission is the
    static service of minimal_runtime.py or the snapshot-driven one (kernel/admission).
    The platform enters through the kernel facade (adapters/facade/kernel_facade.py), which
    passes calls to the workflow gateway, keeps the branches, stages and human gates of runs,
    records them in the log and rebuilds them from it.

    Before the kernel, a request to the server passes the idempotency middleware
    (agent_server/api/middleware/idempotency.py), which reserves its key through
    the facade in the idempotency table (hi_agent/server/idempotency.py), so that
    a retry is answered from the record of the first answer.  The run manager
    (hi_agent/server/run_manager.py) creates the run under a reservation of the key,
    records it in the run store (server/run_store.py), publishes its events to the
    event store (server/event_store.py) and puts it into its queue in memory or into
    the durable queue (server/run_queue.py), from which workers claim it under a
    lease; expired leases are released or adopted, and a run that keeps failing ends
    in the dead-letter table.  A semaphore bounds the threads that execute runs; the
    states of runs change along the graph of server/run_state_transitions.py.  A run
    follows a graph of stages (trajectory/stage_graph.py) and may plan a DAG of tasks
    (task_decomposition).  Tasks above runs are kept by the task
    registry (kernel/task_manager), whose watchdog finds stalled ones, and the
    restart engine (hi_agent/task_mgmt/restart_policy.py) decides what follows a
    failed attempt.  Calls to models go through a chain that changes between credentials
    (hi_agent/llm/failover.py), calls to tools may pass a gate of rules
    (hi_agent/runtime/harness/permission_rules.py).

    ** Files

    - [Prelude]: Python exceptions, [outcome] (value or exception), [PyM]
      (state passing in which the state survives an exception), [try]/[except],
      [contextlib.suppress], weakest preconditions [wp] and their rules.
    - [PyStr], [PyDict], [PyVal]: Python text, insertion-ordered dictionaries,
      JSON values with [json.dumps(sort_keys=True)] and its injectivity.
    - [Contracts]: the enumerations and dataclasses of contracts.py in use.
    - [DedupeStore]: the port as a class [DedupeStorePort], the abstract ledger
      [LedgerSpec], the laws [DedupeStoreLaws] of a faithful store, and the
      in-memory store ([Module InMemory]) as an instance.
    - [SqliteDedupe]: the SQLite store ([Module SQLite]) over a committed and a
      working table with a schedule of statement faults; an instance too.
    - [EventLog], [SchemaMigration], [Projection]: the log, the migrator, the
      projection service ([project] is the loop both [catch_up] and [get] run).
    - [SqliteLog]: the log in SQLite ([Module Log], with commits of other connections in
      between) and the log and ledger on one connection ([Module Colocated], a
      [DedupeStorePort] with its laws too).
    - [Snapshot]: the snapshot builder and the key policy.
    - [DispatchPolicy]: remote policy, host resolution of the engine
      ([Module Engine]) and of admission ([Module Admission]), failure evidence.
    - [TurnEngine]: the context, the ports, the six phases [_phase_*], the loop
      [run_phases] and [run_turn].
    - [TurnSafety]: one lemma [wp_phase_*] per phase, composed in [wp_run_turn];
      proved against the laws of the dedupe store, so for both stores.
    - [TurnProperties]: the theorems about turns and sequences of turns.
    - [Compensation]: the compensation registry and its execution under the
      dispatch ledger; a client of [DedupeStoreLaws] like the engine.
    - [Recovery]: planner, mode registry and recovery gate
      ([decide_recovery] is [PlannedRecoveryGateService.decide]); the gate's
      world holds the one of [Compensation].
    - [Admission]: policy resolution, the five rules and the rate windows.  [Outbox]: the
      consistency check, the repairs over any lawful ledger and the periodic sweep.
    - [RunActor]: the run actor over the kernel's log, projection service and deduper;
      the engine, the gate and the other services are ports over a world of their own
      ([actor_ports]).  [MinimalRuntime]: static admission, executors, static gate and
      outcome store, the services of the default configuration.  [RunActorProps]: what
      the actor records, and what happens once.
    - [AgentCore]: the adapters between the platform and the facade.  [Facade]: the facade,
      over the log in memory and ports ([facade_ports]).  [FacadeRebuild]: replaying its
      events ([Module Cells]: registries of any views).  [FacadeProps]: the facade against
      its log.  [FacadeCalls]: approvals, bounds, draining, children, however calls end.
    - [Json]: [json.loads] and the printers of [json.dumps] in use, with their
      round trips.  [SqlTable]: SELECT, UPDATE and DELETE on a table in rowid
      order, and the lemmas on tables with a primary key.
    - [RunQueue]: the two tables of the run queue and every method ([Module
      RunQueue]), [posture] with its tenant scope, calls as [queue_call]; a machine
      per run as specification.  [RunQueueSpec]: the theorems about it.
    - [Idempotency] (table, store, facade), [IdempotencyHttp] (the middleware, split
      at the call of the handler, and interleaved requests), [IdempotencySpec].
    - [TaskRegistry]: task contracts, registry and event log, calls as [task_op];
      [TaskRegistrySpec]: its theorems.  [TaskRestart]: the watchdog, and the restart
      engine against the interface [TaskStore], which the registry and the
      dictionaries of the runtime builder implement.
    - [Graph]: the loops the graph classes share (breadth-first collection, colouring,
      elimination by in-degree) over a successor function.  [TaskDag]: the task DAG and
      its executor; [TaskDagSpec] and [TaskDagExec]: what they promise.  [StageGraph]:
      the stage graph and its validations.
    - [RunContext]: posture, tenant and execution contexts.  [RunState]: the transition
      function of the server, [StateMachine] and its six instances.  [RunStore],
      [EventStore]: two tables of the server.
    - [RunManager]: the run manager, its threads and its worker as a step function over
      a pool of threads.  [RunManagerSpec]: what its blocks keep (accounts of slots and
      of calls owed, the evolution of runs).  [RunManagerProps], [RunManagerCreate]: its
      theorems over every sequence of steps, and those about [create_run].
    - [Failover]: the credential pool, the retry policy and the chain, whole and streamed,
      over ports for the gateway, the clock and the random numbers.  [Permission]: the
      rules for tools, the counter of denials and the gate.

    Names are the source's.  A method of a mutable object is a function in
    [PyM] over the record of its fields; a field assignment on the phase
    context is a [set_*] function.  [async] methods are the same functions: a
    coroutine is atomic between awaits.  In the turn engine every awaited port may change
    the environment, raise any exception, and be cancelled ([CancelledError], which [except
    Exception] does not catch; [wait_for] turns it into [TimeoutError] when the timer
    did it).  The restart engine's [handle_failure] sleeps, launches and reflects: it is
    the whole method for a call nothing overlaps, and [failure_begin] and [failure_end] its two
    parts around that wait ([handle_failure_split]), which [engine_run] interleaves for any
    number of calls.  In the run queue, [claim_next] and [fail] read before they write:
    both have a form in which other connections act in between ([fail_overtaken]).  The
    run actor and the facade await too and are taken as atomic there (below).

    ** What is proved

    - Ledger: each store implements the abstract ledger or is unavailable with
      nothing changed, under every schedule of faults; records are never lost
      and their state only moves forward; a key is granted once.
    - Turns: a turn follows the state machine [turn_path]; calls the executor at
      most once, under a key it was granted (or, with the ledger down, for an
      idempotent write); leaves the key acknowledged or unknown-effect as its
      outcome says (unless others marked it); its exceptions come from ports.
      All this whatever other turns and processes do to the ledger between two
      operations of the turn.  No key is granted twice, by any sequence of turns
      or to others; with the ledger up no action id runs twice at an offset in a
      sequence of turns (it can when two turns race through the check of the
      historical key).  The code's own assertions and safety net are unreachable.
    - Log and projection: contiguous offsets, what a commit does, incremental
      catch-up equals full replay, precedence of operational signals, terminal
      states absorb, exactly when readiness holds.
    - Migration: the search terminates with a shortest chain.
    - Identity: snapshot hashes and dispatch keys determine what they name,
      unless the hash function collides (SHA-256 is a parameter; theorems give
      the two colliding texts instead of assuming injectivity).
    - Durable log: whatever statements fail and other connections do, a commit is stored
      as a whole or not at all, offsets are given once, and the SQLite log answers every
      [load] as the log in memory; a dispatch record claims its key and appends its
      commit together or does neither.
    - Reconciliation: a pass is an abstract repair of the records no event carries; it
      also overtakes dispatches in flight, since no event carries a dispatch key.
    - Run actor: a decision calls one turn at most, and no retry of a commit calls it
      again; what a turn did and what the gate decided is in the log, in order; a signal
      is recorded once, and signals buffered before the start are handled as if they
      came after it, up to the first that raises.  A run
      the gate aborts is aborted in the log, but the actor does not learn it.
    - Facade: a facade and a new one with its log agree on branches, stages and gates, and
      replaying its own log changes nothing; an approval is forwarded once; what is kept is
      bounded by the tracked runs.  A verdict is not rebuilt, so a rejected run is reported
      approved by others; an approval whose signal fails is lost.  A snapshot id resumes the
      run and offset it was made of.
    - Admission: no minute holds more admissions than its policies allow; the static
      service admits exactly the actions no rule speaks against.
    - Policy: guaranteed idempotency is claimed only with a contract; the two
      host gates agree but for two host kinds; evidence priority.
    - Recovery: the planner's table, the three ways the gate decides and what
      each does to the circuit breaker, the backoff bounds; a compensation
      handler runs in one execution only, with bounded retries.
    - Run queue: every call acts on each run as a step of a small machine; a live
      lease cannot be taken away; the claimed run is the most urgent; a run that
      fails each time is attempted three times and dead-lettered; requeueing undoes
      dead-lettering; tenants do not see or change each other's runs.
    - Idempotent requests: over any interleaving the handler of a key is run to
      success at most once a day, and a retry gets the recorded answer.
    - Tasks: replaying the event log rebuilds the registry; tasks are not lost
      before they are over; sessions list their tasks; what the engine does after
      a failure on each branch, and that sleeps are bounded and attempts too, by the
      policy and the retries of the task in flight at once.
    - Calls to models and tools: a credential refused for good is never called again, the
      number of calls is bounded, and a single credential is not retried at all; the gate
      escalates exactly at the given number of refusals in a row.
    - Run manager: whatever clients, threads, executors and the worker do, slots are
      accounted for, at most [max_concurrent] executors run, an executor is called at
      most as often as its run was started, a thread ends after sixteen blocks with the
      end recorded, runs keep their identity and terminal states; a key gives one run
      while its reservation lasts; new runs belong to the authenticated workspace.  Two
      faults are theorems too: a run that is over before it begins keeps its slot, and
      under a strict posture with a run store nothing is executed.
    - States and graphs: transitions end after three changes, histories are paths of
      their machine; a built DAG is acyclic, its run ends and, when callbacks succeed,
      completes every node; validation and traversal of stages are exact.
    - Run store: what each call changes, and for whom.
    - Divergences found on the way are theorems as well: the log drops the
      schema version of events; offsets restart after a cleanup; the two stores
      count a run's keys differently; admission does not know two host kinds; a
      cancelled executor leaves its key dispatched; historical keys collide; a
      failed compensation is reported as done afterwards; the gate never runs a
      compensation and checks handlers by the text of the reason; a late failure
      report revives a dead-lettered run; a tenant can replace the dead-letter
      record of another; a cancelled handler blocks its key; two processes can
      both be told to create the run of an expired key; the default policy
      [reflect] never retries.

    ** Bounds and fuel

    [SchemaMigration.search] has fuel the number of registered steps plus one
    and [walk_back] the number of discovered versions plus one;
    [resolve_path_shortest] shows they are enough.  All else is structural.
    [Compensation.attempts] recurs on the rounds left of the code's [while].
    [Json.json_loads] has fuel twice the length of its text plus one;
    [json_loads_fuel] shows that it never runs out.
    The rounds of the searches in [Graph] are bounded by the number of nodes, which
    their lemmas show to be enough; a run of the DAG executor takes at most one step
    per node and retry; [depth] of [TaskDag] is Python's recursion limit, an input.
    The manager steps one block at a time, so it needs no fuel; the actor's loops are over
    lists of signals.
    Integers are Python's, unbounded; clock readings are integers (microseconds).
    [OutsideModel] is raised where a value is of a type the model does not
    represent (a non-string element of a declared binding list).  Text is bytes;
    case folding, stripping and [str.isdigit] are ASCII, and [int] reads texts of any
    length (Python refuses more than 4300 digits), so the readers of snapshot ids and of
    JSON agree with the code on texts within these limits.

    ** What is not modelled

    Of the turns and processes that run beside a turn only what they do to the
    ledger is modelled (any commands, [pt_others], before each operation of the
    turn); their own calls to executors are not counted unless they are turns of
    the sequence.  Log lines, metrics and latencies are left out.  Of SQLite the
    model has tables, statements and commits, not files, migrations and VACUUM; a
    ROLLBACK of an open transaction succeeds.
    The run manager's trace files, metrics, taps and post-mortem engine are left out;
    its stores are used by this process alone, and waits have no duration (a wait may
    end at any step).  A handler of the run actor is atomic: an await at which another
    handler of the same workflow could run is not split, and the resolution of its
    dependencies is left out.  A call of the kernel facade is atomic too: while it awaits the
    gateway the log may change, but no other call of the same facade runs.  The other SQLite stores write one row per call and follow
    the patterns of the ledger and the log; HTTP routing translates calls;
    gateways to models, PostgreSQL, Kafka and Temporal are external
    services; the stages, memory and skills of [hi_agent] process what models answer,
    which there is no definition for.  Their code is listed in the manifest and
    left out. *)

From stdpp Require Import base tactics option list strings.
From Stdlib Require Import Ascii.

(** Exceptions and effects ******************************************************)

(** The exception classes the modelled code raises or tells apart.  The two
    [*Error] classes of the kernel are subclasses of [ValueError];
    [CancelledError] is the only one that is not an [Exception].
    [OutsideModel] is not a Python class: a definition raises it on a value
    the model does not represent. *)
Inductive exn :=
  | DedupeStoreStateError (msg : string)
  | CapabilitySnapshotBuildError (msg : string)
  | ValueError (msg : string)
  | TypeError (msg : string)
  | KeyError (msg : string)
  | RuntimeError (msg : string)
  | SchemaMigrationError (msg : string)
  | OperationalError (msg : string)
  | IntegrityError (msg : string)
  | CompensationTimeoutError (msg : string)
  | TransientCompensationError (msg : string)
  | CompensationExhaustedError (msg : string)
  | TimeoutError
  | CancelledError
  | OtherError (cls msg : string)
  | OutsideModel (what : string).

(** [isinstance(e, ValueError)] *)
Definition is_value_error (e : exn) : bool :=
  match e with
  | DedupeStoreStateError _ | CapabilitySnapshotBuildError _ | ValueError _ => true
  | _ => false
  end.

(** [isinstance(e, Exception)] *)
Definition is_exception (e : exn) : bool :=
  match e with CancelledError => false | _ => true end.

(** [type(e).__name__] *)
Definition exn_type_name (e : exn) : string :=
  match e with
  | DedupeStoreStateError _ => "DedupeStoreStateError"
  | CapabilitySnapshotBuildError _ => "CapabilitySnapshotBuildError"
  | ValueError _ => "ValueError"
  | TypeError _ => "TypeError"
  | KeyError _ => "KeyError"
  | RuntimeError _ => "RuntimeError"
  | SchemaMigrationError _ => "SchemaMigrationError"
  | OperationalError _ => "OperationalError"
  | IntegrityError _ => "IntegrityError"
  | CompensationTimeoutError _ => "CompensationTimeoutError"
  | TransientCompensationError _ => "TransientCompensationError"
  | CompensationExhaustedError _ => "CompensationExhaustedError"
  | TimeoutError => "TimeoutError"
  | CancelledError => "CancelledError"
  | OtherError cls _ => cls
  | OutsideModel _ => "OutsideModel"
  end.

(** What evaluating a Python expression gives: a value or an exception. *)
Inductive outcome (A : Type) :=
  | Ret (a : A)
  | Raise (e : exn).
Arguments Ret {A} a.
Arguments Raise {A} e.

#[export] Instance outcome_ret : MRet outcome := fun _ => Ret.
#[export] Instance outcome_fmap : FMap outcome := fun _ _ f m =>
  match m with Ret a => Ret (f a) | Raise e => Raise e end.
#[export] Instance outcome_bind : MBind outcome := fun _ _ k m =>
  match m with Ret a => k a | Raise e => Raise e end.

(** Stateful Python code over a store [S]: the store survives an exception. *)
Definition PyM (S A : Type) : Type := S -> outcome A * S.

#[export] Instance PyM_ret S : MRet (PyM S) := fun _ a s => (Ret a, s).
#[export] Instance PyM_bind S : MBind (PyM S) := fun _ _ k m s =>
  match m s with
  | (Ret a, s') => k a s'
  | (Raise e, s') => (Raise e, s')
  end.

Definition py_raise {S A} (e : exn) : PyM S A := fun s => (Raise e, s).
Definition py_get {S} : PyM S S := fun s => (Ret s, s).
Definition py_put {S} (s' : S) : PyM S unit := fun _ => (Ret tt, s').
Definition py_modify {S} (f : S -> S) : PyM S unit := fun s => (Ret tt, f s).
Definition py_lift {S A} (m : outcome A) : PyM S A := fun s => (m, s).

(** [try: m  except <classes p>: h] *)
Definition py_except {S A} (p : exn -> bool) (m : PyM S A) (h : exn -> PyM S A) : PyM S A :=
  fun s => match m s with
           | (Raise e, s') => if p e then h e s' else (Raise e, s')
           | r => r
           end.

(** [try: m  except Exception as e], the exception as a value. *)
Definition py_catch {S A} (m : PyM S A) : PyM S (A + exn) :=
  fun s => match m s with
           | (Ret a, s') => (Ret (inl a), s')
           | (Raise e, s') => if is_exception e then (Ret (inr e), s') else (Raise e, s')
           end.

(** [with contextlib.suppress(Exception): m] *)
Definition py_suppress {S} (m : PyM S unit) : PyM S unit :=
  py_except is_exception m (fun _ => mret tt).

(** Run code over one component of a larger store. *)
Definition py_zoom {S T A} (get : S -> T) (set : T -> S -> S) (m : PyM T A) : PyM S A :=
  fun s => let '(r, t) := m (get s) in (r, set t s).

(** [x or y] on optional strings: [None] and the empty string are falsy. *)
Definition py_or (x y : option string) : option string :=
  match x with
  | Some s => if decide (s = "") then y else x
  | None => y
  end.

(** [bool(x)] of an optional string. *)
Definition truthy (x : option string) : bool :=
  match x with Some s => negb (bool_decide (s = "")) | None => false end.

(** Tactics ************************************************************************)

(** Case analysis on the scrutinees of the goal or of a hypothesis. *)
Ltac case_goal :=
  repeat (case_match; simplify_eq/=; try done).

(** Unfold the effect combinators and compute. *)
Ltac py_simpl :=
  unfold mbind, mret, PyM_bind, PyM_ret, outcome_bind, outcome_ret, py_raise, py_get,
    py_put, py_modify, py_lift, py_suppress, py_except, py_zoom in *; simpl in *.

(** A hypothesis that a sequence of calls returned, split at its first call. *)
Lemma bind_Ret_inv {S B C} (m : PyM S B) (k : B -> PyM S C) s c s'' : (m ≫= k) s = (Ret c, s'') ->
  exists b s', m s = (Ret b, s') /\ k b s' = (Ret c, s'').
Proof. unfold mbind, PyM_bind. destruct (m s) as [[b|e] s']; [eauto|done]. Qed.

Ltac bind_inv H x w Hx := apply bind_Ret_inv in H as (x & w & Hx & H).

(** Generic lemmas *****************************************************************)

#[export] Instance exn_eq_dec : EqDecision exn.
Proof. solve_decision. Defined.

#[export] Instance outcome_eq_dec `{EqDecision A} : EqDecision (outcome A).
Proof. solve_decision. Defined.

Lemma py_suppress_ret {S} (m : PyM S unit) s :
  (forall e s', m s = (Raise e, s') -> is_exception e = true) ->
  py_suppress m s = (Ret tt, (m s).2).
Proof.
  intros H. unfold py_suppress, py_except. destruct (m s) as [[[]|e] s'] eqn:E; [done|].
  by rewrite (H e s' eq_refl).
Qed.

Lemma py_or_Some_ne x y s : x = Some s -> s <> "" -> py_or x y = Some s.
Proof. intros -> ?. simpl. by rewrite decide_False. Qed.

Lemma py_or_None y : py_or None y = y.
Proof. done. Qed.

Lemma filter_none {A} (P : A -> Prop) `{!forall x, Decision (P x)} (l : list A) :
  (forall x, x ∈ l -> ~ P x) -> filter P l = [].
Proof.
  induction l as [|x l IH]; intros Hn; [done|]. rewrite filter_cons, decide_False.
  - apply IH. intros y Hy. apply Hn. by right.
  - apply Hn. by left.
Qed.

Lemma filter_all {A} (P : A -> Prop) `{!forall x, Decision (P x)} (l : list A) :
  (forall x, x ∈ l -> P x) -> filter P l = l.
Proof.
  induction l as [|x l IH]; intros Hn; [done|]. rewrite filter_cons, decide_True.
  - f_equal. apply IH. intros y Hy. apply Hn. by right.
  - apply Hn. by left.
Qed.

Lemma find_app {A} (p : A -> bool) (l l' : list A) :
  List.find p (l ++ l') = match List.find p l with Some x => Some x | None => List.find p l' end.
Proof. induction l as [|x l IH]; simpl; [done|]. by destruct (p x). Qed.

(** Weakest preconditions ******************************************************)

(** [m] run from [s] returns into [Q] or raises into [R]. *)
Definition wp {S A} (m : PyM S A) (Q : A -> S -> Prop) (R : exn -> S -> Prop) (s : S) : Prop :=
  match m s with
  | (Ret a, s') => Q a s'
  | (Raise e, s') => R e s'
  end.

Section wp.
Context {S : Type}.
Implicit Types s : S.

Lemma wp_ret {A} (a : A) Q R s : Q a s -> wp (mret a) Q R s.
Proof. done. Qed.

Lemma wp_raise {A} e (Q : A -> S -> Prop) R s : R e s -> wp (py_raise e) Q R s.
Proof. done. Qed.

Lemma wp_lift {A} (m : outcome A) Q R s :
  (forall a, m = Ret a -> Q a s) -> (forall e, m = Raise e -> R e s) -> wp (py_lift m) Q R s.
Proof. unfold wp, py_lift. destruct m; auto. Qed.

Lemma wp_bind {A B} (m : PyM S A) (k : A -> PyM S B) Q R s :
  wp m (fun a s' => wp (k a) Q R s') R s -> wp (m ≫= k) Q R s.
Proof. unfold wp, mbind, PyM_bind. by destruct (m s) as [[a|e] s']. Qed.

Lemma wp_except {A} (p : exn -> bool) (m : PyM S A) (h : exn -> PyM S A) Q R s :
  wp m Q (fun e s' => if p e then wp (h e) Q R s' else R e s') s -> wp (py_except p m h) Q R s.
Proof.
  unfold wp, py_except. destruct (m s) as [[a|e] s']; [done|]. by destruct (p e).
Qed.

Lemma wp_suppress (m : PyM S unit) (Q : unit -> S -> Prop) R s :
  wp m Q (fun e s' => if is_exception e then Q tt s' else R e s') s -> wp (py_suppress m) Q R s.
Proof. intros Hm. apply wp_except. exact Hm. Qed.

Lemma wp_mono {A} (m : PyM S A) (Q Q' : A -> S -> Prop) (R R' : exn -> S -> Prop) s :
  wp m Q R s -> (forall a s', Q a s' -> Q' a s') -> (forall e s', R e s' -> R' e s') -> wp m Q' R' s.
Proof. unfold wp. destruct (m s) as [[a|e] s']; auto. Qed.

Lemma wp_and {A} (m : PyM S A) (Q Q' : A -> S -> Prop) (R R' : exn -> S -> Prop) s :
  wp m Q R s -> wp m Q' R' s ->
  wp m (fun a s' => Q a s' /\ Q' a s') (fun e s' => R e s' /\ R' e s') s.
Proof. unfold wp. destruct (m s) as [[a|e] s']; auto. Qed.

Lemma wp_modify (f : S -> S) (Q : unit -> S -> Prop) R s : Q tt (f s) -> wp (py_modify f) Q R s.
Proof. done. Qed.

Lemma wp_zoom {T A} (get : S -> T) (set : T -> S -> S) (m : PyM T A) Q R s :
  wp m (fun a t => Q a (set t s)) (fun e t => R e (set t s)) (get s) -> wp (py_zoom get set m) Q R s.
Proof. unfold wp, py_zoom. by destruct (m (get s)) as [[a|e] t]. Qed.

Lemma wp_any {A} (m : PyM S A) (Q : A -> S -> Prop) (R : exn -> S -> Prop) s :
  (forall a s', m s = (Ret a, s') -> Q a s') -> (forall e s', m s = (Raise e, s') -> R e s') ->
  wp m Q R s.
Proof. unfold wp. destruct (m s) as [[a|e] s']; auto. Qed.

Lemma wp_catch {A} (m : PyM S A) (Q : A + exn -> S -> Prop) R s :
  wp m (fun a s' => Q (inl a) s') (fun e s' => if is_exception e then Q (inr e) s' else R e s') s ->
  wp (py_catch m) Q R s.
Proof.
  unfold wp, py_catch. destruct (m s) as [[a|e] s']; [done|]. by destruct (is_exception e).
Qed.

Lemma wp_run {A} (m : PyM S A) Q R s : wp m Q R s ->
  match (m s).1 with Ret a => Q a (m s).2 | Raise e => R e (m s).2 end.
Proof. unfold wp. by destruct (m s) as [[a|e] s']. Qed.
End wp.

Create HintDb kernel.
Create Rewrite HintDb kernel.
#[export] Hint Rewrite @py_or_None : kernel.

(** Code that keeps a relation between the state before and after, whatever it answers. *)
Definition keeps {S A} (R : S -> S -> Prop) (m : PyM S A) : Prop := forall s, R s (m s).2.

Section keeps.
Context {S : Type} (R : S -> S -> Prop) `{!PreOrder R}.

Lemma keeps_ret {A} (a : A) : keeps R (mret a).
Proof. intros s. reflexivity. Qed.
Lemma keeps_raise {A} e : keeps R (py_raise e : PyM S A).
Proof. intros s. reflexivity. Qed.
Lemma keeps_get : keeps R py_get.
Proof. intros s. reflexivity. Qed.
Lemma keeps_lift {A} (o : outcome A) : keeps R (py_lift o).
Proof. intros s. reflexivity. Qed.

Lemma keeps_bind {A B} (m : PyM S A) (k : A -> PyM S B) : keeps R m -> (forall a, keeps R (k a)) -> keeps R (m ≫= k).
Proof.
  intros Hm Hk s. unfold mbind, PyM_bind. specialize (Hm s). destruct (m s) as [[a|e] s']; [|done].
  etrans; [exact Hm|apply Hk].
Qed.

(** With what is known of the result. *)
Lemma keeps_bind_result {A B} (m : PyM S A) (k : A -> PyM S B) :
  keeps R m -> (forall a s s', m s = (Ret a, s') -> keeps R (k a)) -> keeps R (m ≫= k).
Proof.
  intros Hm Hk s. unfold mbind, PyM_bind. specialize (Hm s). destruct (m s) as [[a|e] s'] eqn:Hs; [|done].
  etrans; [exact Hm|]. by apply (Hk a s s').
Qed.

Lemma keeps_get_bind {A} (k : S -> PyM S A) : (forall s, R s (k s s).2) -> keeps R (py_get ≫= k).
Proof. intros Hk s. apply Hk. Qed.

Lemma keeps_impl {A} (R' : S -> S -> Prop) (m : PyM S A) : keeps R' m -> (forall s s', R' s s' -> R s s') -> keeps R m.
Proof. intros Hm Hi s. apply Hi, Hm. Qed.

Lemma keeps_except {A} p (m : PyM S A) h : keeps R m -> (forall e, keeps R (h e)) -> keeps R (py_except p m h).
Proof.
  intros Hm Hh s. unfold py_except. specialize (Hm s). destruct (m s) as [[a|e] s']; [done|].
  destruct (p e); [|done]. etrans; [exact Hm|apply Hh].
Qed.

Lemma keeps_suppress (m : PyM S unit) : keeps R m -> keeps R (py_suppress m).
Proof. intros Hm. apply keeps_except; [done|]. intros e. apply keeps_ret. Qed.
Lemma keeps_modify f : (forall s, R s (f s)) -> keeps R (py_modify f).
Proof. intros Hf s. apply Hf. Qed.
Lemma keeps_zoom {T A} get (set : T -> S -> S) (m : PyM T A) : (forall t s, R s (set t s)) -> keeps R (py_zoom get set m).
Proof. intros Hs s. unfold py_zoom. destruct (m (get s)) as [r t]. apply Hs. Qed.
End keeps.

Create HintDb keeps.
#[export] Hint Resolve keeps_ret keeps_raise keeps_get keeps_lift : keeps.

(** Apply the rules down to the primitive steps, which the database knows. *)
Ltac keeps_rule :=
  first [ solve [eauto with keeps typeclass_instances] | apply keeps_bind; [apply _| |intros ?]
        | apply keeps_except; [apply _| |intros ?] | apply keeps_suppress; [apply _|] | progress cbv zeta | case_match ].
Ltac keeps := repeat keeps_rule.
