(* ===== verification/PyStr.v ===== *)
(** * Python text

    Strings are byte strings; the operations below are Python's on ASCII text
    ([str.strip], [str.lower], [str.startswith], [str.removeprefix], [in],
    [str.split(sep)[0]]), with the facts the components use. *)

From stdpp Require Import base tactics option list strings sorting.
From Stdlib Require Import Ascii.
From S2P Require Import Prelude.

(** ASCII characters for which [str.isspace] holds: 9-13, 28-31 and 32. *)
Definition is_space (c : ascii) : bool :=
  let n := nat_of_ascii c in
  ((9 <=? n) && (n <=? 13)) || ((28 <=? n) && (n <=? 32)).

Fixpoint lstrip (s : string) : string :=
  match s with
  | EmptyString => EmptyString
  | String c s' => if is_space c then lstrip s' else s
  end.

(** Drops the trailing white space. *)
Fixpoint rstrip (s : string) : string :=
  match s with
  | EmptyString => EmptyString
  | String c s' =>
      match rstrip s' with
      | EmptyString => if is_space c then EmptyString else String c EmptyString
      | r => String c r
      end
  end.

Definition strip (s : string) : string := rstrip (lstrip s).

Definition lower_char (c : ascii) : ascii :=
  let n := nat_of_ascii c in
  if (65 <=? n) && (n <=? 90) then ascii_of_nat (n + 32) else c.

Fixpoint lower (s : string) : string :=
  match s with
  | EmptyString => EmptyString
  | String c s' => String (lower_char c) (lower s')
  end.

(** [s.startswith(p)] *)
Fixpoint startswith (s p : string) : bool :=
  match p, s with
  | EmptyString, _ => true
  | String a p', String b s' => if decide (a = b) then startswith s' p' else false
  | String _ _, EmptyString => false
  end.

(** [s[len(p):]] when [s] starts with [p], the string itself otherwise. *)
Fixpoint drop_chars (n : nat) (s : string) : string :=
  match n, s with
  | S n', String _ s' => drop_chars n' s'
  | _, _ => s
  end.

Definition removeprefix (s p : string) : string :=
  if startswith s p then drop_chars (String.length p) s else s.

(** [p in s] *)
Fixpoint contains (s p : string) : bool :=
  startswith s p ||
  match s with
  | EmptyString => false
  | String _ s' => contains s' p
  end.

(** [s.split(sep)[0]] for a one-character separator. *)
Fixpoint split_head (sep : ascii) (s : string) : string :=
  match s with
  | EmptyString => EmptyString
  | String c s' => if decide (c = sep) then EmptyString else String c (split_head sep s')
  end.

(** The characters of a string, as one-character strings (iterating a [str]). *)
Fixpoint chars (s : string) : list string :=
  match s with
  | EmptyString => []
  | String c s' => String c EmptyString :: chars s'
  end.

Fixpoint str_list (s : string) : list ascii :=
  match s with
  | EmptyString => []
  | String c s' => c :: str_list s'
  end.

(** [sep.join(l)] *)
Fixpoint join (sep : string) (l : list string) : string :=
  match l with
  | [] => ""
  | [s] => s
  | s :: l' => s +:+ sep +:+ join sep l'
  end.

(** [sorted(set(l))]: the distinct strings in code-point order. *)
Definition sorted_set (l : list string) : list string :=
  merge_sort String.le (remove_dups l).

(** Lemmas **************************************************************************)

#[local] Arguments String.append : simpl nomatch.

Lemma app_assoc_str (a b c : string) : (a +:+ b) +:+ c = a +:+ (b +:+ c).
Proof. induction a; simpl; congruence. Qed.

Lemma app_nil_r_str (s : string) : s +:+ "" = s.
Proof. induction s; simpl; congruence. Qed.

Lemma length_app_str (s t : string) :
  String.length (s +:+ t) = String.length s + String.length t.
Proof. induction s; simpl; congruence. Qed.

Lemma app_inj_len (a b s t : string) :
  String.length a = String.length b -> a +:+ s = b +:+ t -> a = b /\ s = t.
Proof.
  revert b. induction a as [|c a IH]; destruct b as [|d b]; simpl; intros Hl H; try lia.
  - done.
  - injection Hl as Hl. injection H as <- H. destruct (IH b Hl H). by subst.
Qed.

Lemma app_inj_len_r (a b s t : string) :
  String.length s = String.length t -> a +:+ s = b +:+ t -> a = b /\ s = t.
Proof.
  intros Hl H. apply app_inj_len; [|done].
  apply (f_equal String.length) in H. rewrite !length_app_str in H. lia.
Qed.

Lemma app_inj_l_str (s t u : string) : s +:+ t = s +:+ u -> t = u.
Proof. intros H. by apply app_inj_len in H as [_ ?]. Qed.

Lemma app_inj_r_str (s t u : string) : s +:+ u = t +:+ u -> s = t.
Proof.
  intros H. assert (String.length s = String.length t).
  { apply (f_equal String.length) in H. rewrite !length_app_str in H. lia. }
  by destruct (app_inj_len s t u u).
Qed.

Lemma startswith_app p s : startswith (p +:+ s) p = true.
Proof. induction p; simpl; [by destruct s | by rewrite decide_True]. Qed.

Lemma startswith_spec s p : startswith s p = true <-> exists t, s = p +:+ t.
Proof.
  split; [|intros [t ->]; apply startswith_app].
  revert s. induction p as [|a p IH]; intros s H; [by exists s|].
  destruct s as [|b s]; simpl in H; [done|].
  destruct (decide (a = b)) as [->|]; [|done].
  destruct (IH s H) as [t ->]. by exists t.
Qed.

Lemma startswith_cons_ne a b s p : a <> b -> startswith (String b s) (String a p) = false.
Proof. intros H. simpl. by rewrite decide_False. Qed.

Lemma drop_chars_app p s : drop_chars (String.length p) (p +:+ s) = s.
Proof. induction p; simpl; [by destruct s | done]. Qed.

Lemma removeprefix_app p s : removeprefix (p +:+ s) p = s.
Proof. unfold removeprefix. by rewrite startswith_app, drop_chars_app. Qed.

Lemma rstrip_no_space_last s c : is_space c = false -> rstrip (s +:+ String c "") = s +:+ String c "".
Proof.
  intros Hc. induction s as [|d s IH]; simpl; [by rewrite Hc|].
  rewrite IH. by destruct s.
Qed.

Lemma rstrip_idemp s : rstrip (rstrip s) = rstrip s.
Proof.
  induction s as [|c s IH]; [done|]. simpl.
  destruct (rstrip s) as [|d r] eqn:E.
  - destruct (is_space c) eqn:Hc; simpl; [done|]. by rewrite Hc.
  - simpl in *. destruct (rstrip r) eqn:E'.
    + destruct (is_space d); [done|]. by simplify_eq.
    + by simplify_eq.
Qed.

Lemma lstrip_head s : lstrip s = "" \/ exists c s', lstrip s = String c s' /\ is_space c = false.
Proof.
  induction s as [|c s IH]; simpl; [by left|].
  destruct (is_space c) eqn:Hc; [done|]. right. eauto.
Qed.

Lemma strip_idemp s : strip (strip s) = strip s.
Proof.
  unfold strip. destruct (lstrip_head s) as [->|(c & s' & -> & Hc)]; [done|].
  simpl. destruct (rstrip s') as [|d r] eqn:E.
  - rewrite Hc. simpl. rewrite Hc. simpl. by rewrite Hc.
  - simpl. rewrite Hc.
    pose proof (rstrip_idemp s') as Hi. rewrite E in Hi. simpl in *. by rewrite Hi.
Qed.

Lemma lower_char_idemp c : lower_char (lower_char c) = lower_char c.
Proof. destruct c as [[] [] [] [] [] [] [] []]; reflexivity. Qed.

Lemma lower_idemp s : lower (lower s) = lower s.
Proof. induction s; simpl; [done|]. by rewrite lower_char_idemp, IHs. Qed.

Lemma lower_char_space c : is_space (lower_char c) = is_space c.
Proof. destruct c as [[] [] [] [] [] [] [] []]; reflexivity. Qed.

Lemma lower_lstrip s : lstrip (lower s) = lower (lstrip s).
Proof.
  induction s as [|c s IH]; simpl; [done|]. rewrite lower_char_space. by destruct (is_space c).
Qed.

Lemma lower_rstrip s : rstrip (lower s) = lower (rstrip s).
Proof.
  induction s as [|c s IH]; simpl; [done|]. rewrite IH, lower_char_space.
  destruct (rstrip s); simpl; [by destruct (is_space c)|done].
Qed.

Lemma lower_strip s : strip (lower s) = lower (strip s).
Proof. unfold strip. by rewrite lower_lstrip, lower_rstrip. Qed.

(** [x.strip().lower()] is stable: normalising twice changes nothing. *)
Lemma strip_lower_idemp s : lower (strip (lower (strip s))) = lower (strip s).
Proof. by rewrite lower_strip, lower_idemp, strip_idemp. Qed.

Lemma elem_of_sorted_set x l : x ∈ sorted_set l <-> x ∈ l.
Proof. unfold sorted_set. rewrite merge_sort_Permutation. apply elem_of_remove_dups. Qed.

Lemma NoDup_sorted_set l : NoDup (sorted_set l).
Proof. unfold sorted_set. rewrite merge_sort_Permutation. apply NoDup_remove_dups. Qed.

Lemma StronglySorted_sorted_set l : StronglySorted String.le (sorted_set l).
Proof. unfold sorted_set. apply StronglySorted_merge_sort; apply _. Qed.

(** Two lists with the same members have the same sorted set. *)
Lemma sorted_set_ext l l' : (forall x, x ∈ l <-> x ∈ l') -> sorted_set l = sorted_set l'.
Proof.
  intros H. apply (StronglySorted_unique String.le); [apply StronglySorted_sorted_set..|].
  apply NoDup_Permutation; [apply NoDup_sorted_set..|].
  intros x. by rewrite !elem_of_sorted_set.
Qed.

Lemma sorted_set_idemp l : sorted_set (sorted_set l) = sorted_set l.
Proof. apply sorted_set_ext. intros x. apply elem_of_sorted_set. Qed.

#[export] Hint Rewrite strip_idemp lower_idemp strip_lower_idemp sorted_set_idemp : kernel.
#[export] Hint Resolve NoDup_sorted_set StronglySorted_sorted_set : kernel.
