(* ===== verification/PyDict.v ===== *)
(** * Python dictionaries

    A [dict] keeps its keys in insertion order, and assigning to a present key
    keeps its place.  The order is visible in the kernel: the event log evicts
    [next(iter(d))] and the schema migrator scans its edges in registration
    order. *)

From stdpp Require Import base tactics option list sets.
From S2P Require Import Prelude.

Abbreviation odict K V := (list (K * V)).

Section odict.
Context {K V : Type} `{EqDecision K}.
Implicit Types (d : odict K V) (k : K) (v : V).

(** [d.get(k)] *)
Fixpoint od_get k d : option V :=
  match d with
  | [] => None
  | (k', v) :: d' => if decide (k = k') then Some v else od_get k d'
  end.

(** [d[k] = v] *)
Fixpoint od_set k v d : odict K V :=
  match d with
  | [] => [(k, v)]
  | (k', v') :: d' => if decide (k = k') then (k, v) :: d' else (k', v') :: od_set k v d'
  end.

(** [d.pop(k, None)] *)
Fixpoint od_pop k d : odict K V :=
  match d with
  | [] => []
  | (k', v') :: d' => if decide (k = k') then d' else (k', v') :: od_pop k d'
  end.

(** [list(d)] *)
Definition od_keys d : list K := d.*1.

(** [k in d] *)
Definition od_mem k d : bool := match od_get k d with Some _ => true | None => false end.

(** The invariant every dictionary has: no key occurs twice. *)
Definition od_wf d : Prop := NoDup (od_keys d).

(** Lookup *)

Lemma od_get_set_eq k v d : od_get k (od_set k v d) = Some v.
Proof.
  induction d as [|[k' v'] d IH]; simpl; [by rewrite decide_True|].
  case_decide; simpl; [by rewrite decide_True|]. by rewrite decide_False.
Qed.

Lemma od_get_set_ne k k' v d : k <> k' -> od_get k' (od_set k v d) = od_get k' d.
Proof.
  intros Hne. induction d as [|[k0 v0] d IH]; simpl; [by rewrite decide_False|].
  case_decide; simplify_eq/=; [by rewrite !decide_False|]. by rewrite IH.
Qed.

Lemma od_get_pop_ne k k' d : k <> k' -> od_get k' (od_pop k d) = od_get k' d.
Proof.
  intros Hne. induction d as [|[k0 v0] d IH]; simpl; [done|].
  case_decide; simplify_eq/=; [by rewrite decide_False|]. by rewrite IH.
Qed.

Lemma od_get_Some k v d : od_get k d = Some v -> (k, v) ∈ d.
Proof.
  induction d as [|[k' v'] d IH]; simpl; [done|].
  case_decide; simplify_eq/=; set_solver.
Qed.

Lemma od_get_None k d : od_get k d = None <-> k ∉ od_keys d.
Proof.
  induction d as [|[k' v'] d IH]; simpl; [set_solver|].
  case_decide; [subst|]; rewrite elem_of_cons; naive_solver.
Qed.

Lemma od_get_is_Some k d : is_Some (od_get k d) <-> k ∈ od_keys d.
Proof.
  rewrite <-not_eq_None_Some, od_get_None. split; [|tauto].
  intros H. destruct (decide (k ∈ od_keys d)) as [?|?]; [done|by destruct H].
Qed.

Lemma od_mem_true k d : od_mem k d = true <-> k ∈ od_keys d.
Proof.
  rewrite <-od_get_is_Some. unfold od_mem. destruct (od_get k d); split; intros H;
    (done || by destruct H).
Qed.

Lemma od_get_elem k v d : od_wf d -> (k, v) ∈ d -> od_get k d = Some v.
Proof.
  intros Hwf. induction d as [|[k' v'] d IH]; simpl; [by intros ?%elem_of_nil|].
  apply NoDup_cons in Hwf as [Hk Hwf]. rewrite elem_of_cons. intros [?|Hin]; simplify_eq.
  - case_decide; [done|congruence].
  - rewrite decide_False; [by apply IH|]. intros ->. apply Hk.
    by apply (list_elem_of_fmap_2 fst) in Hin.
Qed.

(** Keys *)

Lemma od_keys_set k v d :
  od_keys (od_set k v d) = if decide (k ∈ od_keys d) then od_keys d else od_keys d ++ [k].
Proof.
  induction d as [|[k' v'] d IH]; simpl.
  - done.
  - destruct (decide (k = k')) as [->|Hne]; simpl.
    + rewrite decide_True; [done|]. apply elem_of_cons; by left.
    + rewrite IH. destruct (decide (k ∈ od_keys d)) as [Hin|Hnin].
      * rewrite decide_True; [done|]. apply elem_of_cons; by right.
      * rewrite decide_False; [done|]. unfold od_keys in *. set_solver.
Qed.

Lemma elem_of_keys_set k k' v d : k' ∈ od_keys (od_set k v d) <-> k' = k \/ k' ∈ od_keys d.
Proof.
  rewrite od_keys_set. case_decide; [naive_solver|]. rewrite elem_of_app. set_solver.
Qed.

Lemma od_wf_nil : od_wf [].
Proof. constructor. Qed.

Lemma od_wf_set k v d : od_wf d -> od_wf (od_set k v d).
Proof.
  unfold od_wf. rewrite od_keys_set. case_decide; [done|]. intros Hnd.
  apply NoDup_app. split; [done|]. split; [set_solver|]. apply NoDup_singleton.
Qed.

Lemma od_keys_pop_sub k k' d : k' ∈ od_keys (od_pop k d) -> k' ∈ od_keys d.
Proof.
  induction d as [|[k0 v0] d IH]; simpl; [done|].
  case_decide; simpl; unfold od_keys in *; set_solver.
Qed.

Lemma od_wf_pop k d : od_wf d -> od_wf (od_pop k d).
Proof.
  unfold od_wf. induction d as [|[k0 v0] d IH]; simpl; [done|].
  rewrite NoDup_cons. intros [Hk Hnd]. case_decide; [done|]. simpl.
  apply NoDup_cons. split; [|by apply IH]. intros Hin. by apply Hk, (od_keys_pop_sub k).
Qed.

Lemma od_get_pop_eq k d : od_wf d -> od_get k (od_pop k d) = None.
Proof.
  intros Hwf. induction d as [|[k0 v0] d IH]; simpl; [done|].
  apply NoDup_cons in Hwf as [Hk Hwf]. case_decide as Hc.
  - subst. by apply od_get_None.
  - simpl. rewrite decide_False by done. by apply IH.
Qed.

Lemma od_set_length k v d :
  length (od_set k v d) = if od_mem k d then length d else S (length d).
Proof.
  unfold od_mem. induction d as [|[k' v'] d IH]; simpl; [done|].
  case_decide; simpl; [done|]. rewrite IH. by destruct (od_get k d).
Qed.

Lemma od_pop_length k d :
  length (od_pop k d) = if od_mem k d then pred (length d) else length d.
Proof.
  unfold od_mem. induction d as [|[k' v'] d IH]; simpl; [done|].
  case_decide; simpl; [done|]. rewrite IH. destruct (od_get k d) eqn:E; [|done].
  destruct d; simpl in *; [done|lia].
Qed.

(** A new key goes to the end. *)
Lemma od_set_new k v d : k ∉ od_keys d -> od_set k v d = d ++ [(k, v)].
Proof.
  induction d as [|[k' v'] d IH]; simpl; [done|]. intros [Hne Hk]%not_elem_of_cons.
  rewrite decide_False by done. by rewrite IH.
Qed.

(** Setting twice keeps the last value. *)
Lemma od_set_set k v v' d : od_set k v (od_set k v' d) = od_set k v d.
Proof.
  induction d as [|[k0 v0] d IH]; simpl; [by rewrite decide_True|].
  case_decide; simpl; [by rewrite decide_True|]. by rewrite decide_False, IH.
Qed.

(** Extensionality of well-formed dictionaries with the same key order. *)
Lemma od_ext d d' :
  od_wf d -> od_keys d = od_keys d' -> (forall k, od_get k d = od_get k d') -> d = d'.
Proof.
  revert d'. induction d as [|[k v] d IH]; intros [|[k' v'] d'] Hwf Hk Hg; try done.
  simpl in Hk. injection Hk as <- Hk. apply NoDup_cons in Hwf as [Hnk Hwf].
  pose proof (Hg k) as Hgk. simpl in Hgk. rewrite !decide_True in Hgk by done. simplify_eq.
  f_equal. apply IH; [done..|]. intros k0. specialize (Hg k0). simpl in Hg.
  destruct (decide (k0 = k)) as [->|]; [|done].
  rewrite (proj2 (od_get_None k d)) by done.
  symmetry. apply od_get_None. fold (od_keys d') in Hk |- *. by rewrite <-Hk.
Qed.
End odict.

#[export] Hint Rewrite @od_get_set_eq @od_set_set : kernel.
#[export] Hint Resolve od_wf_nil od_wf_set od_wf_pop : kernel.
