(* ===== verification/PyVal.v ===== *)
(** * JSON-like Python values

    Payloads ([input_json], [payload_json], executor results, admission
    envelopes) are dictionaries from strings to JSON values.  A float is carried
    by the text of its [repr].  The file has the readers the kernel uses
    ([d.get(k)], [isinstance], truth value, [str], [repr]), the canonical
    serialiser [json.dumps(v, sort_keys=True, separators=(",", ":"))] and the
    proof that the serialisation determines the value. *)

From stdpp Require Import base tactics option list strings pretty sorting.
From Stdlib Require Import Ascii.
From S2P Require Import Prelude PyStr PyDict.
#[local] Arguments String.append : simpl nomatch.

Inductive pyval :=
  | PNone
  | PBool (b : bool)
  | PInt (z : Z)
  | PFloat (repr : string)
  | PStr (s : string)
  | PList (l : list pyval)
  | PDict (d : odict string pyval).

(** [d.get(k)] on a dictionary. *)
Definition pd_get (d : odict string pyval) (k : string) : pyval := default PNone (od_get k d).

(** The value as a dictionary, when [isinstance(v, dict)]. *)
Definition as_dict (v : pyval) : option (odict string pyval) :=
  match v with PDict d => Some d | _ => None end.

(** The value as a string, when [isinstance(v, str)]. *)
Definition as_str (v : pyval) : option string :=
  match v with PStr s => Some s | _ => None end.

Definition as_bool (v : pyval) : option bool :=
  match v with PBool b => Some b | _ => None end.

(** The value as an integer, when [isinstance(v, int)]: booleans are integers. *)
Definition as_int (v : pyval) : option Z :=
  match v with PInt z => Some z | PBool b => Some (if b then 1 else 0)%Z | _ => None end.

(** An optional value, or [None]. *)
Definition opt_val {A} (f : A -> pyval) (o : option A) : pyval := match o with Some a => f a | None => PNone end.

(** [bool(v)] *)
Definition py_bool (v : pyval) : bool :=
  match v with
  | PNone => false
  | PBool b => b
  | PInt z => negb (bool_decide (z = 0%Z))
  | PFloat r => negb (bool_decide (r = "0.0") || bool_decide (r = "-0.0"))
  | PStr s => negb (bool_decide (s = ""))
  | PList l => match l with [] => false | _ => true end
  | PDict d => match d with [] => false | _ => true end
  end.

(** [payload or {}] on an optional dictionary. *)
Definition or_empty (d : option (odict string pyval)) : odict string pyval := default [] d.

(** [repr] of a string ********************************************************)

Definition hex_digit (n : nat) : ascii :=
  ascii_of_nat (if n <? 10 then 48 + n else 87 + n).

Definition hex2 (n : nat) : string :=
  String (hex_digit (n / 16)) (String (hex_digit (n mod 16)) EmptyString).

Definition dq : ascii := "034".
Definition sq : ascii := "'".
Definition backslash : ascii := "092".
Definition colon : ascii := ":".

(** Escaping inside [repr(s)], for the quote character in use. *)
Definition repr_char (quote c : ascii) : string :=
  let n := nat_of_ascii c in
  if decide (c = quote) then String backslash (String c "")
  else if decide (c = backslash) then String backslash (String backslash "")
  else if n =? 10 then String backslash "n"
  else if n =? 13 then String backslash "r"
  else if n =? 9 then String backslash "t"
  else if (n <? 32) || (n =? 127) then String backslash ("x" +:+ hex2 n)
  else String c "".

Fixpoint flat_chars (f : ascii -> string) (s : string) : string :=
  match s with
  | EmptyString => EmptyString
  | String c s' => f c +:+ flat_chars f s'
  end.

Definition py_repr_str (s : string) : string :=
  let quote := if contains s (String sq "") && negb (contains s (String dq "")) then dq else sq in
  String quote (flat_chars (repr_char quote) s +:+ String quote "").

(** [str(exc)]: a [KeyError] shows the [repr] of its key. *)
Definition exn_text (e : exn) : string :=
  match e with
  | KeyError msg => py_repr_str msg
  | DedupeStoreStateError msg | CapabilitySnapshotBuildError msg | ValueError msg | TypeError msg | RuntimeError msg
  | SchemaMigrationError msg | OperationalError msg | IntegrityError msg | CompensationTimeoutError msg
  | TransientCompensationError msg | CompensationExhaustedError msg | OtherError _ msg | OutsideModel msg => msg
  | TimeoutError | CancelledError => ""
  end.

(** [repr(v)] *)
Fixpoint py_repr (v : pyval) : string :=
  match v with
  | PNone => "None"
  | PBool b => if b then "True" else "False"
  | PInt z => pretty z
  | PFloat r => r
  | PStr s => py_repr_str s
  | PList l => "[" +:+ join ", " (map py_repr l) +:+ "]"
  | PDict d =>
      "{" +:+ join ", " (map (fun kv => py_repr_str kv.1 +:+ ": " +:+ py_repr kv.2) d) +:+ "}"
  end.

(** [str(v)] *)
Definition py_str (v : pyval) : string :=
  match v with PStr s => s | _ => py_repr v end.

(** [json.dumps] **************************************************************)

(** Escaping of one character; [ascii] is [ensure_ascii]. *)
Definition json_char (ensure_ascii : bool) (c : ascii) : string :=
  let n := nat_of_ascii c in
  if n =? 34 then String backslash (String dq "")
  else if n =? 92 then String backslash (String backslash "")
  else if n =? 10 then String backslash "n"
  else if n =? 13 then String backslash "r"
  else if n =? 9 then String backslash "t"
  else if n =? 8 then String backslash "b"
  else if n =? 12 then String backslash "f"
  else if (n <? 32) || (ensure_ascii && (127 <=? n)) then String backslash ("u00" +:+ hex2 n)
  else String c "".

Definition json_str (ensure_ascii : bool) (s : string) : string :=
  String dq (flat_chars (json_char ensure_ascii) s +:+ String dq "").

Definition json_float (r : string) : string :=
  if decide (r = "inf") then "Infinity"
  else if decide (r = "-inf") then "-Infinity"
  else if decide (r = "nan") then "NaN"
  else r.

(** The items of a dictionary in the order of [sorted(d.items())]; the keys
    are distinct, so the order is that of the keys. *)
Definition key_le {V} (a b : string * V) : Prop := String.le a.1 b.1.

Definition sort_items {V} (d : odict string V) : odict string V := merge_sort key_le d.

(** The value with the keys of every dictionary in order. *)
Fixpoint json_canon (v : pyval) : pyval :=
  match v with
  | PList l => PList (map json_canon l)
  | PDict d => PDict (sort_items (map (fun kv => (kv.1, json_canon kv.2)) d))
  | _ => v
  end.

(** Serialisation with the dictionaries in the order they have. *)
Fixpoint json_render (ensure_ascii : bool) (v : pyval) : string :=
  match v with
  | PNone => "null"
  | PBool b => if b then "true" else "false"
  | PInt z => pretty z
  | PFloat r => json_float r
  | PStr s => json_str ensure_ascii s
  | PList l => "[" +:+ join "," (map (json_render ensure_ascii) l) +:+ "]"
  | PDict d =>
      "{" +:+
      join "," (map (fun kv =>
        json_str ensure_ascii kv.1 +:+ ":" +:+ json_render ensure_ascii kv.2) d) +:+ "}"
  end.

(** [json.dumps(v, ensure_ascii=..., sort_keys=True, separators=(",", ":"))] *)
Definition json_dumps (ensure_ascii : bool) (v : pyval) : string :=
  json_render ensure_ascii (json_canon v).

(** Values with no float: their serialisation is unambiguous. *)
Fixpoint float_free (v : pyval) : bool :=
  match v with
  | PFloat _ => false
  | PList l => forallb float_free l
  | PDict d => forallb (fun kv => float_free kv.2) d
  | _ => true
  end.

(** Lemmas *************************************************************************)

(** Induction over values, through lists and dictionaries. *)
Section pyval_ind.
Variable P : pyval -> Prop.
Hypothesis HNone : P PNone.
Hypothesis HBool : forall b, P (PBool b).
Hypothesis HInt : forall z, P (PInt z).
Hypothesis HFloat : forall r, P (PFloat r).
Hypothesis HStr : forall s, P (PStr s).
Hypothesis HList : forall l, Forall P l -> P (PList l).
Hypothesis HDict : forall d, Forall (fun kv => P kv.2) d -> P (PDict d).

Fixpoint pyval_nested_ind (v : pyval) : P v :=
  match v with
  | PNone => HNone
  | PBool b => HBool b
  | PInt z => HInt z
  | PFloat r => HFloat r
  | PStr s => HStr s
  | PList l => HList l
      ((fix go l : Forall P l :=
          match l with
          | [] => Forall_nil_2 P
          | x :: l' => Forall_cons_2 P x l' (pyval_nested_ind x) (go l')
          end) l)
  | PDict d => HDict d
      ((fix go (d : odict string pyval) : Forall (fun kv => P kv.2) d :=
          match d with
          | [] => Forall_nil_2 _
          | x :: d' => Forall_cons_2 (fun kv => P kv.2) x d' (pyval_nested_ind x.2) (go d')
          end) d)
  end.
End pyval_ind.

#[export] Instance key_le_dec {V} : RelDecision (@key_le V).
Proof. intros [a x] [b y]. unfold key_le. apply _. Defined.

#[export] Instance key_le_total {V} : Total (@key_le V).
Proof. intros [a x] [b y]. unfold key_le. apply (total String.le). Qed.

#[export] Instance key_le_trans {V} : Transitive (@key_le V).
Proof. intros [a x] [b y] [c z]. unfold key_le. simpl. by etrans. Qed.

Lemma sort_items_perm {V} (d : odict string V) : sort_items d ≡ₚ d.
Proof. apply merge_sort_Permutation. Qed.

(** Dictionaries with the same items in any order serialise alike: the sorted
    item lists agree when the keys are distinct. *)
Lemma sort_items_ext {V} (d d' : odict string V) :
  od_wf d -> d ≡ₚ d' -> sort_items d = sort_items d'.
Proof.
  intros Hwf Hp. apply (StronglySorted_unique_strong key_le).
  - intros [k v] [k' v'] Hin Hin' H1 H2. unfold key_le in H1, H2. simpl in *.
    assert (k' = k) as -> by by apply (anti_symm String.le).
    rewrite sort_items_perm in Hin. rewrite sort_items_perm, <-Hp in Hin'.
    pose proof (od_get_elem _ _ _ Hwf Hin). pose proof (od_get_elem _ _ _ Hwf Hin'). congruence.
  - apply StronglySorted_merge_sort; apply _.
  - apply StronglySorted_merge_sort; apply _.
  - by rewrite !sort_items_perm.
Qed.

(** *** The serialisation determines the value *)

Fixpoint all_chars (p : ascii -> bool) (s : string) : bool :=
  match s with EmptyString => true | String c s' => p c && all_chars p s' end.

Definition num_char (c : ascii) : bool :=
  let n := nat_of_ascii c in ((48 <=? n) && (n <=? 57)) || (n =? 45).

Lemma all_chars_app p s t : all_chars p (s +:+ t) = all_chars p s && all_chars p t.
Proof. induction s; simpl; [done|]. by rewrite IHs, andb_assoc. Qed.

Lemma pretty_N_go_num x s : all_chars num_char s = true -> all_chars num_char (pretty_N_go x s) = true.
Proof.
  revert s. induction (N.lt_wf_0 x) as [x _ IH]; intros s Hs.
  assert (x = 0 \/ 0 < x)%N as [->|?] by lia; [by rewrite pretty_N_go_0|].
  rewrite pretty_N_go_step by done. apply IH; [by apply N.div_lt|]. simpl.
  rewrite Hs, andb_true_r. unfold pretty_N_char. by repeat case_match.
Qed.

Lemma pretty_N_num (x : N) : all_chars num_char (pretty x) = true.
Proof. unfold pretty, pretty_N. case_decide; [done|]. by apply pretty_N_go_num. Qed.

Lemma pretty_Z_num (z : Z) : all_chars num_char (pretty z) = true.
Proof.
  unfold pretty, pretty_Z. destruct z; [done| |]; simpl; unfold pretty, pretty_positive;
    apply pretty_N_num.
Qed.

Lemma pretty_Z_ne (z : Z) : pretty z <> "".
Proof.
  intros H. destruct (decide (z = 0%Z)) as [->|Hz]; [done|].
  destruct z as [|p|p]; [done| |done].
  unfold pretty, pretty_Z, pretty, pretty_positive, pretty, pretty_N in H.
  case_decide; [done|].
  assert (Hl : forall x s, String.length s <= String.length (pretty_N_go x s)).
  { intros x. induction (N.lt_wf_0 x) as [x _ IH]; intros s.
    assert (x = 0 \/ 0 < x)%N as [->|?] by lia; [by rewrite pretty_N_go_0|].
    rewrite pretty_N_go_step by done. etrans; [|by apply IH, N.div_lt]. simpl. lia. }
  rewrite pretty_N_go_step in H by lia.
  pose proof (Hl (N.pos p `div` 10)%N (String (pretty_N_char (N.pos p `mod` 10)) "")) as Hlen.
  rewrite H in Hlen. simpl in Hlen. lia.
Qed.

(** A text after a value: at the end, or at a comma or a closing bracket. *)
Definition delim (s : string) : Prop :=
  match s with
  | EmptyString => True
  | String c _ => num_char c = false
  end.

Lemma num_prefix_inj a b s t :
  all_chars num_char a = true -> all_chars num_char b = true -> delim s -> delim t ->
  a +:+ s = b +:+ t -> a = b /\ s = t.
Proof.
  revert b. induction a as [|c a IH]; intros b Ha Hb Hs Ht H.
  - destruct b as [|d b]; [done|]. simpl in *. subst s. simpl in Hs.
    apply andb_true_iff in Hb as [Hd _]. congruence.
  - destruct b as [|d b]; simpl in *.
    + subst t. simpl in Ht. apply andb_true_iff in Ha as [Hc _]. congruence.
    + injection H as <- H. apply andb_true_iff in Ha as [_ Ha]. apply andb_true_iff in Hb as [_ Hb].
      destruct (IH b Ha Hb Hs Ht H). by subst.
Qed.

(** Reading back one escaped character. *)
Definition hex_val (c : ascii) : nat :=
  let n := nat_of_ascii c in if n <=? 57 then n - 48 else n - 87.

Definition json_unchar (s : string) : option (ascii * string) :=
  match s with
  | EmptyString => None
  | String c s' =>
      if decide (c = dq) then None
      else if decide (c = backslash) then
        match s' with
        | String d s'' =>
            if decide (d = dq) then Some (dq, s'')
            else if decide (d = backslash) then Some (backslash, s'')
            else if decide (d = "n"%char) then Some (ascii_of_nat 10, s'')
            else if decide (d = "r"%char) then Some (ascii_of_nat 13, s'')
            else if decide (d = "t"%char) then Some (ascii_of_nat 9, s'')
            else if decide (d = "b"%char) then Some (ascii_of_nat 8, s'')
            else if decide (d = "f"%char) then Some (ascii_of_nat 12, s'')
            else match s'' with
                 | String _ (String _ (String x (String y r))) =>
                     Some (ascii_of_nat (16 * hex_val x + hex_val y), r)
                 | _ => None
                 end
        | EmptyString => None
        end
      else Some (c, s')
  end.

Lemma json_unchar_char b c s : json_unchar (json_char b c +:+ s) = Some (c, s).
Proof. destruct b, c as [[] [] [] [] [] [] [] []]; reflexivity. Qed.

Lemma flat_json_inj b x y s t :
  flat_chars (json_char b) x +:+ String dq s = flat_chars (json_char b) y +:+ String dq t ->
  x = y /\ s = t.
Proof.
  revert y. induction x as [|c x IH]; intros [|d y] H; simpl in H.
  - by injection H.
  - apply (f_equal json_unchar) in H. by rewrite app_assoc_str, json_unchar_char in H.
  - apply (f_equal json_unchar) in H. by rewrite app_assoc_str, json_unchar_char in H.
  - apply (f_equal json_unchar) in H. rewrite !app_assoc_str, !json_unchar_char in H.
    injection H as -> H. by destruct (IH y H) as [-> ->].
Qed.

Lemma json_str_inj b x y s t : json_str b x +:+ s = json_str b y +:+ t -> x = y /\ s = t.
Proof.
  unfold json_str. simpl. intros H. injection H as H. rewrite !app_assoc_str in H.
  by apply flat_json_inj in H.
Qed.

(** The class of a value, read off the first character of its text. *)
Definition vclass (v : pyval) : nat :=
  match v with
  | PNone => 0 | PBool true => 1 | PBool false => 2 | PInt _ => 3 | PFloat _ => 7
  | PStr _ => 4 | PList _ => 5 | PDict _ => 6
  end.

Definition head_class (c : ascii) : nat :=
  if num_char c then 3
  else if decide (c = "n"%char) then 0 else if decide (c = "t"%char) then 1
  else if decide (c = "f"%char) then 2 else if decide (c = dq) then 4
  else if decide (c = "["%char) then 5 else if decide (c = "{"%char) then 6 else 7.

Lemma render_head b v : float_free v = true ->
  exists c r, json_render b v = String c r /\ head_class c = vclass v.
Proof.
  destruct v as [|[]|z|r|s|l|d]; intros Hf; simpl; eauto; [|done].
  pose proof (pretty_Z_num z) as Hn. destruct (pretty z) as [|c r] eqn:E.
  { by apply pretty_Z_ne in E. }
  exists c, r. split; [done|]. simpl in Hn. apply andb_true_iff in Hn as [Hc _].
  unfold head_class. by rewrite Hc.
Qed.

Lemma render_class b v w s t : float_free v = true -> float_free w = true ->
  json_render b v +:+ s = json_render b w +:+ t -> vclass v = vclass w.
Proof.
  intros Hv Hw H. destruct (render_head b v Hv) as (c & r & E & <-).
  destruct (render_head b w Hw) as (c' & r' & E' & <-). rewrite E, E' in H. by simplify_eq/=.
Qed.

(** The text after the first element of a comma-separated list. *)
Fixpoint jtail (l : list string) : string :=
  match l with [] => "" | x :: l' => "," +:+ x +:+ jtail l' end.

Lemma join_cons x l : join "," (x :: l) = x +:+ jtail l.
Proof.
  revert x. induction l as [|y l IH]; intros x; [simpl; by rewrite app_nil_r_str|].
  change (join "," (x :: y :: l)) with (x +:+ "," +:+ join "," (y :: l)).
  rewrite IH. done.
Qed.

(** [f] prints elements that can be read off the front of a text. *)
Definition readable {A} (P : A -> Prop) (f : A -> string) (x : A) : Prop :=
  forall y s t, P y -> delim s -> delim t -> f x +:+ s = f y +:+ t -> x = y /\ s = t.

Section seq_inj.
Context {A : Type} (P : A -> Prop) (f : A -> string) (close : ascii).
Hypothesis close_delim : num_char close = false.
Hypothesis close_comma : close <> ","%char.
Hypothesis close_head : forall x s, P x -> forall r, f x +:+ s <> String close r.

Lemma jtail_delim l s : delim (jtail (map f l) +:+ String close s).
Proof. destruct l; simpl; done. Qed.

Lemma jtail_inj l l' s t : Forall (readable P f) l -> Forall P l' ->
  jtail (map f l) +:+ String close s = jtail (map f l') +:+ String close t -> l = l' /\ s = t.
Proof.
  intros Hr. revert l'. induction Hr as [|x l Hx Hr IH]; intros [|y l'] HP H; simpl in H.
  - by injection H.
  - congruence.
  - congruence.
  - injection H as H. rewrite !app_assoc_str in H. apply Forall_cons in HP as [Hy HP].
    apply Hx in H as [-> H]; [|done|apply jtail_delim..].
    by destruct (IH l' HP H) as [-> ->].
Qed.

Lemma join_inj l l' s t : Forall (readable P f) l -> Forall P l -> Forall P l' ->
  join "," (map f l) +:+ String close s = join "," (map f l') +:+ String close t ->
  l = l' /\ s = t.
Proof.
  intros Hr HP HP' H. destruct l as [|x l], l' as [|y l'].
  - by injection H.
  - simpl map in H. rewrite join_cons, app_assoc_str in H. simpl in H.
    apply Forall_cons in HP' as [Hy _]. symmetry in H. by apply close_head in H.
  - simpl map in H. rewrite join_cons, app_assoc_str in H. simpl in H.
    apply Forall_cons in HP as [Hy _]. by apply close_head in H.
  - simpl map in H. rewrite !join_cons, !app_assoc_str in H.
    apply Forall_cons in HP' as [Hy HP']. apply Forall_cons in Hr as [Hx Hr].
    apply Hx in H as [-> H]; [|done|apply jtail_delim..].
    by destruct (jtail_inj l l' s t Hr HP' H) as [-> ->].
Qed.
End seq_inj.

Lemma forallb_Forall_true {A} (p : A -> bool) l : forallb p l = true -> Forall (fun x => p x = true) l.
Proof. rewrite forallb_forall, Forall_forall. intros H x ?%list_elem_of_In. auto. Qed.

Lemma Forall_impl_and {A} (P Q : A -> Prop) l :
  Forall P l -> Forall (fun x => P x -> Q x) l -> Forall Q l.
Proof. rewrite !Forall_forall. naive_solver. Qed.

Definition item_text (b : bool) (kv : string * pyval) : string :=
  json_str b kv.1 +:+ ":" +:+ json_render b kv.2.

Lemma render_readable b v :
  float_free v = true -> readable (fun w => float_free w = true) (json_render b) v.
Proof.
  induction v as [|b0|z|r|s0|l IH|d IH] using pyval_nested_ind;
    intros Hf w s t Hw Hs Ht H; pose proof (render_class b _ _ _ _ Hf Hw H) as Hc;
    destruct w as [|[]|z'|r'|s'|l'|d']; try done; simpl in H; try (repeat case_match; done);
    try (destruct b0; simplify_eq/=; done).
  - by simplify_eq/=.
  - apply num_prefix_inj in H as [->%(inj pretty) ->]; auto using pretty_Z_num.
  - by apply json_str_inj in H as [-> ->].
  - simplify_eq/=. rewrite !app_assoc_str in H. simpl in *.
    apply forallb_Forall_true in Hf, Hw.
    apply (join_inj (fun w => float_free w = true) (json_render b) "]"%char) in H as [-> ->]; try done.
    + intros x s' Hx r Heq. destruct (render_head b x Hx) as (c & q & E & Hcl).
      rewrite E in Heq. simplify_eq/=. by destruct x as [|[]| | | | |].
    + by eapply Forall_impl_and.
  - simplify_eq/=. rewrite !app_assoc_str in H. simpl in *.
    apply forallb_Forall_true in Hf, Hw.
    apply (join_inj (fun kv => float_free kv.2 = true) (item_text b) "}"%char) in H as [-> ->]; try done.
    eapply (Forall_impl_and (fun kv => float_free kv.2 = true)); [done|].
    eapply Forall_impl; [exact IH|]. intros [k x] Hx Hfx [k' y] s' t' Hy Hs' Ht' Heq.
    unfold item_text in Heq. rewrite !app_assoc_str in Heq. simpl in *.
    apply json_str_inj in Heq as [-> Heq]. simplify_eq/=.
    by destruct (Hx Hfx y s' t' Hy Hs' Ht' Heq) as [-> ->].
Qed.

Lemma float_free_canon v : float_free v = true -> float_free (json_canon v) = true.
Proof.
  induction v as [| | | | |l IH|d IH] using pyval_nested_ind; try done; simpl; intros Hf.
  - apply forallb_Forall_true in Hf. apply forallb_forall. intros x Hx.
    apply in_map_iff in Hx as (y & <- & Hy%list_elem_of_In).
    rewrite Forall_forall in IH, Hf. auto.
  - apply forallb_Forall_true in Hf. apply forallb_forall. intros x Hx.
    apply list_elem_of_In in Hx. unfold sort_items in Hx. rewrite merge_sort_Permutation in Hx.
    apply list_elem_of_In, in_map_iff in Hx as (y & <- & Hy%list_elem_of_In). simpl.
    rewrite Forall_forall in IH, Hf. auto.
Qed.

(** Two float-free values with the same canonical text are the same value up to
    the order of dictionary keys. *)
Lemma json_dumps_inj b v w :
  float_free v = true -> float_free w = true ->
  json_dumps b v = json_dumps b w -> json_canon v = json_canon w.
Proof.
  intros Hv Hw H. unfold json_dumps in H.
  apply (f_equal (fun s => s +:+ "")) in H.
  by apply (render_readable b _ (float_free_canon v Hv)) in H as [? _];
    [|apply float_free_canon|..].
Qed.

(** Reading a key out of canonical dictionaries. *)
Lemma od_get_perm {V} (d d' : odict string V) k :
  od_wf d -> od_wf d' -> d ≡ₚ d' -> od_get k d = od_get k d'.
Proof.
  intros Hwf Hwf' Hp. destruct (od_get k d) as [v|] eqn:Hk.
  - symmetry. apply od_get_elem; [done|]. rewrite <-Hp. by apply od_get_Some.
  - symmetry. apply od_get_None. apply od_get_None in Hk. unfold od_keys in *. by rewrite <-Hp.
Qed.

Lemma od_get_map {V W} (f : V -> W) (d : odict string V) k :
  od_get k (map (fun kv => (kv.1, f kv.2)) d) = f <$> od_get k d.
Proof. induction d as [|[k' v] d IH]; simpl; [done|]. case_decide; [done|exact IH]. Qed.

Lemma od_wf_map {V W} (f : V -> W) (d : odict string V) :
  od_wf d -> od_wf (map (fun kv => (kv.1, f kv.2)) d).
Proof. unfold od_wf, od_keys. by rewrite map_map. Qed.

Lemma json_canon_get d d' k : od_wf d -> od_wf d' ->
  json_canon (PDict d) = json_canon (PDict d') ->
  json_canon <$> od_get k d = json_canon <$> od_get k d'.
Proof.
  intros Hwf Hwf' H. simpl in H. injection H as H. rewrite <-!od_get_map.
  apply od_get_perm; [by apply od_wf_map..|].
  etrans; [symmetry; apply sort_items_perm|]. rewrite H. apply sort_items_perm.
Qed.

(** Lists of strings, optional strings. *)
Definition str_list_val (l : list string) : pyval := PList (map PStr l).
Definition opt_str_val (o : option string) : pyval := match o with Some s => PStr s | None => PNone end.

Lemma json_canon_str_list l : json_canon (str_list_val l) = str_list_val l.
Proof. unfold str_list_val. simpl. f_equal. rewrite map_map. by apply map_ext. Qed.

Lemma str_list_val_inj l l' : str_list_val l = str_list_val l' -> l = l'.
Proof.
  unfold str_list_val. intros [= H]. revert l' H.
  induction l as [|x l IH]; intros [|y l'] H; simplify_eq/=; [done|]. f_equal. by apply IH.
Qed.

Lemma opt_str_val_inj o o' : opt_str_val o = opt_str_val o' -> o = o'.
Proof. destruct o, o'; simpl; congruence. Qed.

Lemma json_canon_opt_str o : json_canon (opt_str_val o) = opt_str_val o.
Proof. by destruct o. Qed.

Lemma float_free_str_list l : float_free (str_list_val l) = true.
Proof. simpl. by induction l. Qed.

Lemma float_free_opt_str o : float_free (opt_str_val o) = true.
Proof. by destruct o. Qed.
