(* ===== verification/Json.v ===== *)
(** * Parsing JSON

    [json.loads], which several components apply to texts [json.dumps] wrote or a
    client sent, and [json.dumps] with its default separators.  The parser is the
    one of [json.decoder] and [json.scanner]; a text it rejects raises
    [JSONDecodeError] (message left out).  Strings of the development hold the
    characters U+0000 to U+00FF, so an escape beyond them raises [OutsideModel].
    The value of a number with a fraction or an exponent is what CPython's [float]
    and [repr] make of its text, a parameter. *)

From stdpp Require Import base tactics option list sorting strings pretty.
From Stdlib Require Import ZArith Ascii.
From S2P Require Import Prelude PyStr PyDict PyVal.
#[local] Arguments String.append : simpl nomatch.

Definition json_error : exn := OtherError "JSONDecodeError" "".

Definition is_json_error (e : exn) : bool := bool_decide (exn_type_name e = "JSONDecodeError").

Definition json_ws (c : ascii) : bool :=
  let n := nat_of_ascii c in (n =? 32) || (n =? 9) || (n =? 10) || (n =? 13).

Fixpoint skip_ws (s : string) : string :=
  match s with
  | String c s' => if json_ws c then skip_ws s' else s
  | EmptyString => s
  end.

(** The value of a hexadecimal digit. *)
Definition hex_digit_val (c : ascii) : option nat :=
  let n := nat_of_ascii c in
  if (48 <=? n) && (n <=? 57) then Some (n - 48)
  else if (97 <=? n) && (n <=? 102) then Some (n - 87)
  else if (65 <=? n) && (n <=? 70) then Some (n - 55)
  else None.

(** The character of [\uabcd]. *)
Definition unicode_escape (a b c d : ascii) : outcome ascii :=
  match hex_digit_val a, hex_digit_val b, hex_digit_val c, hex_digit_val d with
  | Some a, Some b, Some c, Some d =>
      if (a =? 0) && (b =? 0) then Ret (ascii_of_nat (16 * c + d))
      else Raise (OutsideModel "character beyond U+00FF")
  | _, _, _, _ => Raise json_error
  end.

(** The character of a one-letter escape. *)
Definition simple_escape (c : ascii) : option ascii :=
  let n := nat_of_ascii c in
  if (n =? 34) || (n =? 92) || (n =? 47) then Some c
  else if n =? 98 then Some (ascii_of_nat 8)
  else if n =? 102 then Some (ascii_of_nat 12)
  else if n =? 110 then Some (ascii_of_nat 10)
  else if n =? 114 then Some (ascii_of_nat 13)
  else if n =? 116 then Some (ascii_of_nat 9)
  else None.

(** [scanstring], after the opening quote: the string and the text after the
    closing one. *)
Fixpoint scan_str (s : string) : outcome (string * string) :=
  match s with
  | EmptyString => Raise json_error
  | String c s' =>
      if decide (c = dq) then Ret ("", s')
      else if decide (c = backslash) then
        match s' with
        | String e s2 =>
            if decide (e = "u"%char) then
              match s2 with
              | String h1 (String h2 (String h3 (String h4 s3))) =>
                  x ← unicode_escape h1 h2 h3 h4;
                  '(t, rest) ← scan_str s3;
                  mret (String x t, rest)
              | _ => Raise json_error
              end
            else
              match simple_escape e with
              | Some x => '(t, rest) ← scan_str s2; mret (String x t, rest)
              | None => Raise json_error
              end
        | EmptyString => Raise json_error
        end
      else if nat_of_ascii c <? 32 then Raise json_error
      else '(t, rest) ← scan_str s'; mret (String c t, rest)
  end.

Definition is_digit (c : ascii) : bool := let n := nat_of_ascii c in (48 <=? n) && (n <=? 57).

(** The digits a text begins with, and the rest. *)
Fixpoint take_digits (s : string) : string * string :=
  match s with
  | String c s' => if is_digit c then let '(d, r) := take_digits s' in (String c d, r) else ("", s)
  | EmptyString => ("", "")
  end.

(** The value of a string of digits, after [acc]. *)
Fixpoint digits_val (acc : N) (s : string) : N :=
  match s with
  | EmptyString => acc
  | String c s' => digits_val (10 * acc + N.of_nat (nat_of_ascii c - 48)) s'
  end.

(** The integer part of the number expression: a zero, or digits without a leading zero. *)
Definition take_int (s : string) : option (string * string) :=
  match s with
  | String c s' =>
      if decide (c = "0"%char) then Some ("0", s')
      else if is_digit c then Some (take_digits s)
      else None
  | EmptyString => None
  end.

(** Its optional fraction and exponent; the empty string when absent. *)
Definition take_frac (s : string) : string * string :=
  match s with
  | String "."%char s' =>
      let '(d, r) := take_digits s' in if decide (d = "") then ("", s) else (String "."%char d, r)
  | _ => ("", s)
  end.

Definition take_exp (s : string) : string * string :=
  match s with
  | String e s' =>
      if decide (e = "e"%char \/ e = "E"%char) then
        let '(sign, s'') := match s' with
          | String c s'' => if decide (c = "-"%char \/ c = "+"%char) then (String c "", s'') else ("", s')
          | EmptyString => ("", s')
          end in
        let '(d, r) := take_digits s'' in
        if decide (d = "") then ("", s) else (String e (sign +:+ d), r)
      else ("", s)
  | EmptyString => ("", s)
  end.

Section parser.
(** [repr(float(text))] *)
Context (float_repr : string -> string).

(** The number of the scanner; [neg] when a minus sign was read before. *)
Definition scan_unsigned (neg : bool) (s : string) : option (pyval * string) :=
  '(i, s1) ← take_int s;
  let '(f, s2) := take_frac s1 in
  let '(e, s3) := take_exp s2 in
  if decide (f = "" /\ e = "") then
    let z := Z.of_N (digits_val 0 i) in Some (PInt (if neg then - z else z)%Z, s1)
  else Some (PFloat (float_repr ((if neg then "-" else "") +:+ i +:+ f +:+ e)), s3).

Definition scan_number (s : string) : option (pyval * string) :=
  match s with
  | String "-"%char s' => scan_unsigned true s'
  | _ => scan_unsigned false s
  end.

(** Literals of the scanner. *)
Definition literals : list (string * pyval) :=
  [("null", PNone); ("true", PBool true); ("false", PBool false); ("NaN", PFloat "nan");
   ("Infinity", PFloat "inf"); ("-Infinity", PFloat "-inf")].

Fixpoint scan_literal (l : list (string * pyval)) (s : string) : option (pyval * string) :=
  match l with
  | [] => None
  | (w, v) :: l' => if startswith s w then Some (v, removeprefix s w) else scan_literal l' s
  end.

(** Scalars other than strings. *)
Definition scan_scalar (s : string) : outcome (pyval * string) :=
  match scan_literal literals s with
  | Some r => Ret r
  | None => match scan_number s with Some r => Ret r | None => Raise json_error end
  end.

(** [scan_once] and the loops of [JSONArray] and [JSONObject] (after the opening
    bracket and white space, at an element or member).  [n] bounds the depth of
    the recursion; [json_loads] gives enough for every text. *)
Fixpoint scan_once (n : nat) (s : string) : outcome (pyval * string) :=
  match n, s with
  | O, _ => Raise (OutsideModel "fuel")
  | S n, String c s' =>
      if decide (c = dq) then '(t, r) ← scan_str s'; mret (PStr t, r)
      else if decide (c = "["%char) then
        match skip_ws s' with
        | String "]"%char r => mret (PList [], r)
        | s1 => '(l, r) ← scan_elems n s1; mret (PList l, r)
        end
      else if decide (c = "{"%char) then
        match skip_ws s' with
        | String "}"%char r => mret (PDict [], r)
        | s1 => '(d, r) ← scan_members n s1 []; mret (PDict d, r)
        end
      else scan_scalar s
  | S n, EmptyString => Raise json_error
  end
with scan_elems (n : nat) (s : string) : outcome (list pyval * string) :=
  match n with
  | O => Raise (OutsideModel "fuel")
  | S n =>
      '(v, s1) ← scan_once n s;
      match skip_ws s1 with
      | String "]"%char r => mret ([v], r)
      | String ","%char s2 => '(l, r) ← scan_elems n (skip_ws s2); mret (v :: l, r)
      | _ => Raise json_error
      end
  end
with scan_members (n : nat) (s : string) (d : odict string pyval) : outcome (odict string pyval * string) :=
  match n with
  | O => Raise (OutsideModel "fuel")
  | S n =>
      match s with
      | String c s0 =>
          if decide (c = dq) then
            '(k, s1) ← scan_str s0;
            match skip_ws s1 with
            | String ":"%char s2 =>
                '(v, s3) ← scan_once n (skip_ws s2);
                match skip_ws s3 with
                | String "}"%char r => mret (od_set k v d, r)
                | String ","%char s4 => scan_members n (skip_ws s4) (od_set k v d)
                | _ => Raise json_error
                end
            | _ => Raise json_error
            end
          else Raise json_error
      | EmptyString => Raise json_error
      end
  end.

(** [json.loads(s)] *)
Definition json_loads (s : string) : outcome pyval :=
  let s0 := skip_ws s in
  '(v, r) ← scan_once (2 * String.length s0 + 1) s0;
  match skip_ws r with
  | EmptyString => mret v
  | _ => Raise json_error
  end.
End parser.

(** [json.dumps] with [sp] after the separators, dictionaries in their order. *)
Fixpoint json_text (sp : string) (ensure_ascii : bool) (v : pyval) : string :=
  match v with
  | PNone => "null"
  | PBool b => if b then "true" else "false"
  | PInt z => pretty z
  | PFloat r => json_float r
  | PStr s => json_str ensure_ascii s
  | PList l => "[" +:+ join ("," +:+ sp) (map (json_text sp ensure_ascii) l) +:+ "]"
  | PDict d =>
      "{" +:+
      join ("," +:+ sp) (map (fun kv =>
        json_str ensure_ascii kv.1 +:+ (":" +:+ sp) +:+ json_text sp ensure_ascii kv.2) d) +:+ "}"
  end.

(** With the default separators. *)
Definition json_spaced : bool -> pyval -> string := json_text " ".

(** [json.dumps(v, sort_keys=True, ensure_ascii=...)] *)
Definition json_dumps_sorted (ensure_ascii : bool) (v : pyval) : string :=
  json_spaced ensure_ascii (json_canon v).

(** Dictionaries with distinct keys, at every level. *)
Fixpoint dicts_wf (v : pyval) : Prop :=
  match v with
  | PList l => foldr (fun x P => dicts_wf x /\ P) True l
  | PDict d => od_wf d /\ foldr (fun kv P => dicts_wf kv.2 /\ P) True d
  | _ => True
  end.


(** Lemmas *************************************************************************)

(** Consumption: what is left is shorter, so the recursion of the parser ends. *)

Lemma skip_ws_le s : String.length (skip_ws s) <= String.length s.
Proof. induction s as [|c s IH]; simpl; [done|]. destruct (json_ws c); simpl; lia. Qed.

Lemma scan_str_lt s : forall t r, scan_str s = Ret (t, r) -> String.length r < String.length s.
Proof.
  remember (String.length s) as n eqn:Hn. revert s Hn. induction (lt_wf n) as [n _ IH]. intros s -> t r.
  destruct s as [|c s]; [done|]. simpl. case_decide; [intros [= <- <-]; lia|]. case_decide.
  - destruct s as [|e s2]; [done|]. case_decide.
    + destruct s2 as [|h1 [|h2 [|h3 [|h4 s3]]]]; try done. destruct (unicode_escape _ _ _ _); [|done]. simpl.
      destruct (scan_str s3) as [[t' r']|] eqn:E; [|done]. simpl. intros [= <- <-].
      specialize (IH (String.length s3) ltac:(simpl; lia) s3 eq_refl _ _ E). simpl. lia.
    + destruct (simple_escape e); [|done]. destruct (scan_str s2) as [[t' r']|] eqn:E; [|done]. simpl.
      intros [= <- <-]. specialize (IH (String.length s2) ltac:(simpl; lia) s2 eq_refl _ _ E). simpl. lia.
  - destruct (_ <? _); [done|]. destruct (scan_str s) as [[t' r']|] eqn:E; [|done]. simpl. intros [= <- <-].
    specialize (IH (String.length s) ltac:(simpl; lia) s eq_refl _ _ E). simpl. lia.
Qed.

Lemma take_digits_le s : String.length (take_digits s).2 <= String.length s.
Proof. induction s as [|c s IH]; simpl; [done|]. destruct (is_digit c); [|done]. destruct (take_digits s). simpl in *. lia. Qed.

Lemma take_int_lt s i r : take_int s = Some (i, r) -> String.length r < String.length s.
Proof.
  destruct s as [|c s]; [done|]. unfold take_int. case_decide; [intros [= <- <-]; simpl; lia|].
  destruct (is_digit c) eqn:Hc; [|done]. simpl. rewrite Hc. pose proof (take_digits_le s).
  destruct (take_digits s). simpl in *. intros [= <- <-]. lia.
Qed.

Lemma take_frac_le s : String.length (take_frac s).2 <= String.length s.
Proof.
  destruct s as [|c s]; [done|]. unfold take_frac. pose proof (take_digits_le s).
  destruct c as [[] [] [] [] [] [] [] []]; try done. destruct (take_digits s). case_decide; simpl in *; lia.
Qed.

Lemma take_exp_le s : String.length (take_exp s).2 <= String.length s.
Proof.
  destruct s as [|c s]; [done|]. unfold take_exp. case_decide; [|done].
  destruct s as [|c' s]; simpl; [done|]. case_decide.
  - pose proof (take_digits_le s). destruct (take_digits s). case_decide; simpl in *; lia.
  - pose proof (take_digits_le (String c' s)) as Hl. simpl in Hl. simpl. destruct (is_digit c'); [|by case_decide].
    destruct (take_digits s). simpl in *. lia.
Qed.

Section parser_facts.
Context (float_repr : string -> string).
Abbreviation once := (scan_once float_repr).
Abbreviation elems := (scan_elems float_repr).
Abbreviation members := (scan_members float_repr).

Lemma scan_unsigned_lt neg s v r : scan_unsigned float_repr neg s = Some (v, r) -> String.length r < String.length s.
Proof.
  unfold scan_unsigned. destruct (take_int s) as [[i s1]|] eqn:E; [|done]. apply take_int_lt in E. simpl.
  pose proof (take_frac_le s1). destruct (take_frac s1) as [f s2]. simpl in *.
  pose proof (take_exp_le s2). destruct (take_exp s2) as [e s3]. simpl in *.
  case_decide; intros [= <- <-]; lia.
Qed.

Lemma removeprefix_lt s w : startswith s w = true -> w <> "" -> String.length (removeprefix s w) < String.length s.
Proof.
  intros [t ->]%startswith_spec Hw. rewrite removeprefix_app, length_app_str. destruct w; [done|]. simpl. lia.
Qed.

Lemma scan_literal_lt l s v r : Forall (fun wv => wv.1 <> "") l -> scan_literal l s = Some (v, r) ->
  String.length r < String.length s.
Proof.
  induction l as [|[w x] l IH]; [done|]. intros [Hw Hl]%Forall_cons. simpl.
  destruct (startswith s w) eqn:E; [|by apply IH]. intros [= <- <-]. by apply removeprefix_lt.
Qed.

Lemma scan_scalar_lt s v r : scan_scalar float_repr s = Ret (v, r) -> String.length r < String.length s.
Proof.
  unfold scan_scalar. destruct (scan_literal literals s) as [[v' r']|] eqn:E.
  - intros [= <- <-]. apply (scan_literal_lt literals s v' r'); [by repeat constructor|done].
  - destruct (scan_number float_repr s) as [[v' r']|] eqn:E'; [|done]. intros [= <- <-]. unfold scan_number in E'.
    destruct s as [|c s]; [done|]. destruct c as [[] [] [] [] [] [] [] []]; try (by eapply scan_unsigned_lt).
    apply scan_unsigned_lt in E'. simpl. lia.
Qed.

Abbreviation no_fuel := (OutsideModel "fuel").

Lemma scan_str_fuel s : scan_str s <> Raise no_fuel.
Proof.
  remember (String.length s) as n eqn:Hn. revert s Hn. induction (lt_wf n) as [n _ IH]. intros s -> H.
  destruct s as [|c s]; [done|]. simpl in H. case_decide; [done|]. case_decide.
  - destruct s as [|e s2]; [done|]. case_decide.
    + destruct s2 as [|h1 [|h2 [|h3 [|h4 s3]]]]; try done. unfold unicode_escape in H.
      destruct (hex_digit_val h1), (hex_digit_val h2), (hex_digit_val h3), (hex_digit_val h4); try done.
      destruct (_ && _); [|done]. simpl in H. destruct (scan_str s3) as [[t' r']|] eqn:E; [done|].
      simpl in H. injection H as ->. by apply (IH (String.length s3) ltac:(simpl; lia) s3).
    + destruct (simple_escape e); [|done]. destruct (scan_str s2) as [[t' r']|] eqn:E; [done|].
      simpl in H. injection H as ->. by apply (IH (String.length s2) ltac:(simpl; lia) s2).
  - destruct (_ <? _); [done|]. destruct (scan_str s) as [[t' r']|] eqn:E; [done|].
    simpl in H. injection H as ->. by apply (IH (String.length s) ltac:(simpl; lia) s).
Qed.

Lemma scan_scalar_fuel s : scan_scalar float_repr s <> Raise no_fuel.
Proof. unfold scan_scalar. destruct (scan_literal literals s); [done|]. by destruct (scan_number float_repr s). Qed.

(** A scan from [s] with fuel [n] consumes text, and does not run out of fuel
    if there is [2 * length + k] of it. *)
Definition scans {A} (k n : nat) (s : string) (o : outcome (A * string)) : Prop :=
  (forall v r, o = Ret (v, r) -> String.length r < String.length s) /\
  (2 * String.length s + k <= n -> o <> Raise no_fuel).

Lemma scans_bind {A B} k k' n n' s s1 (o : outcome (A * string)) (f : A * string -> outcome (B * string)) :
  scans k n s1 o -> String.length s1 <= String.length s ->
  (2 * String.length s + k' <= n' -> 2 * String.length s1 + k <= n) ->
  (forall v r, String.length r < String.length s1 -> scans k' n' s (f (v, r))) ->
  scans k' n' s (o ≫= f).
Proof.
  intros [Hlt Hf] Hs Hk Hrec. destruct o as [[v r]|e]; simpl.
  - apply Hrec. by eapply Hlt.
  - split; [done|]. intros Hn [= ->]. by apply Hf; [apply Hk|].
Qed.

Lemma scans_ret {A} k n s (v : A) r : String.length r < String.length s -> scans k n s (Ret (v, r)).
Proof. intros Hr. split; [by intros ?? [= _ <-]|done]. Qed.

Lemma scans_error {A} k n s : scans (A:=A) k n s (Raise json_error).
Proof. by split. Qed.

Lemma scans_str k n s : scans k n s (scan_str s).
Proof. split; [by apply scan_str_lt|]. intros _. apply scan_str_fuel. Qed.

Lemma scans_scalar k n s : scans k n s (scan_scalar float_repr s).
Proof. split; [by apply scan_scalar_lt|]. intros _. apply scan_scalar_fuel. Qed.

(** Case on the first character after white space. *)
Ltac next_char :=
  match goal with
  | |- context [match skip_ws ?s with _ => _ end] =>
      pose proof (skip_ws_le s); destruct (skip_ws s) as [|[[] [] [] [] [] [] [] []] ?];
      try apply scans_error; simpl String.length in *
  end.

Lemma parser_scans n :
  (forall s, scans 1 n s (once n s)) /\ (forall s, scans 2 n s (elems n s)) /\
  (forall s d, scans 2 n s (members n s d)).
Proof.
  induction n as [|n (IHo & IHe & IHm)].
  { split_and!; intros s; try intros d; (split; [by destruct s|lia]). }
  split_and!.
  - intros [|c s]; [apply scans_error|]. simpl. case_decide.
    { eapply (scans_bind 0 _ (2 * String.length s)); [apply scans_str|simpl; lia..|]. intros v r Hr. apply scans_ret. simpl. lia. }
    case_decide; [next_char|case_decide; [next_char|apply scans_scalar]].
    all: try (apply scans_ret; simpl; lia).
    all: (eapply (scans_bind 2 _ n); [apply IHe || apply IHm|simpl; lia..|]); intros v r' Hr; apply scans_ret; simpl in *; lia.
  - intros s. simpl. eapply (scans_bind 1 _ n); [apply IHo|lia..|]. intros v s1 Hs1. next_char.
    + apply scans_ret. lia.
    + pose proof (skip_ws_le s0). eapply (scans_bind 2 _ n); [apply IHe|lia..|]. intros l r Hr. apply scans_ret. lia.
  - intros [|c s] d; [apply scans_error|]. simpl. case_decide; [|apply scans_error].
    eapply (scans_bind 0 _ (2 * String.length s)); [apply scans_str|simpl; lia..|]. intros k s1 Hs1. next_char.
    match goal with |- context [skip_ws ?x] => pose proof (skip_ws_le x) end.
    eapply (scans_bind 1 _ n); [apply IHo|simpl; lia..|]. intros v s3 Hs3. next_char.
    + apply scans_ret. simpl. lia.
    + match goal with |- scans _ _ _ (members _ (skip_ws ?x) _) => pose proof (skip_ws_le x); set (s4 := x) in * end.
      destruct (IHm (skip_ws s4) (od_set k v d)) as [Hlt Hf]. split.
      * intros d' r Hd. specialize (Hlt d' r Hd). simpl. lia.
      * intros Hn. apply Hf. simpl in Hn. lia.
Qed.

(** The fuel of [json_loads] is enough for every text. *)
Lemma json_loads_fuel s : json_loads float_repr s <> Raise no_fuel.
Proof.
  unfold json_loads. destruct (parser_scans (2 * String.length (skip_ws s) + 1)) as [Ho _].
  destruct (Ho (skip_ws s)) as [_ Hf]. specialize (Hf ltac:(lia)).
  destruct (once _ _) as [[v r]|e]; simpl; [by destruct (skip_ws r)|]. intros [= ->]. done.
Qed.
End parser_facts.

(** Round trip: parsing what [json.dumps] printed. *)

Lemma scan_json_char b c s :
  scan_str (json_char b c +:+ s) = '(t, r) ← scan_str s; mret (String c t, r).
Proof. destruct b, c as [[] [] [] [] [] [] [] []]; reflexivity. Qed.

Lemma scan_flat b x rest : scan_str (flat_chars (json_char b) x +:+ String dq rest) = Ret (x, rest).
Proof.
  induction x as [|c x IH]; [done|]. simpl flat_chars. rewrite app_assoc_str, scan_json_char, IH. done.
Qed.

(** Text that cannot continue an integer. *)
Definition num_end (s : string) : Prop :=
  match s with
  | EmptyString => True
  | String c _ => is_digit c = false /\ c <> "."%char /\ c <> "e"%char /\ c <> "E"%char
  end.

Lemma take_digits_app a s : all_chars is_digit a = true -> num_end s -> take_digits (a +:+ s) = (a, s).
Proof.
  intros Ha Hs. induction a as [|c a IH]; simpl in *.
  - destruct s as [|c s]; [done|]. simpl. by destruct Hs as [-> _].
  - apply andb_true_iff in Ha as [Hc Ha]. by rewrite Hc, IH.
Qed.

Lemma take_frac_none s : num_end s -> take_frac s = ("", s).
Proof. destruct s as [|c s]; [done|]. intros (_ & Hc & _). by destruct c as [[] [] [] [] [] [] [] []]. Qed.

Lemma take_exp_none s : num_end s -> take_exp s = ("", s).
Proof. destruct s as [|c s]; [done|]. intros (_ & _ & He & HE). simpl. rewrite decide_False; [done|]. by intros []. Qed.

(** The decimal digits of a number. *)
Lemma pretty_N_char_digit x : (x < 10)%N -> is_digit (pretty_N_char x) = true /\
  N.of_nat (nat_of_ascii (pretty_N_char x) - 48) = x /\ (x <> 0 -> pretty_N_char x <> "0"%char)%N.
Proof.
  intros Hx. assert (x = 0 \/ x = 1 \/ x = 2 \/ x = 3 \/ x = 4 \/ x = 5 \/ x = 6 \/ x = 7 \/ x = 8 \/ x = 9)%N as H by lia.
  repeat (destruct H as [->|H]; [done|]). by subst.
Qed.

Lemma pretty_N_go_digits x s : all_chars is_digit s = true -> all_chars is_digit (pretty_N_go x s) = true.
Proof.
  revert s. induction (N.lt_wf_0 x) as [x _ IH]; intros s Hs.
  assert (x = 0 \/ 0 < x)%N as [->|?] by lia; [by rewrite pretty_N_go_0|].
  rewrite pretty_N_go_step by done. apply IH; [by apply N.div_lt|]. simpl. rewrite Hs.
  destruct (pretty_N_char_digit (x mod 10)) as [-> _]; [by apply N.mod_lt|done].
Qed.

Lemma digits_val_go x s : digits_val 0 (pretty_N_go x s) = digits_val x s.
Proof.
  revert s. induction (N.lt_wf_0 x) as [x _ IH]; intros s.
  assert (x = 0 \/ 0 < x)%N as [->|?] by lia; [by rewrite pretty_N_go_0|].
  rewrite pretty_N_go_step by done. rewrite IH by by apply N.div_lt. cbn [digits_val].
  destruct (pretty_N_char_digit (x mod 10)) as (_ & -> & _); [by apply N.mod_lt|].
  rewrite <-N.div_mod by done. done.
Qed.

Lemma pretty_N_go_head x s : (0 < x)%N -> exists c s', pretty_N_go x s = String c s' /\ c <> "0"%char.
Proof.
  revert s. induction (N.lt_wf_0 x) as [x _ IH]; intros s Hx. rewrite pretty_N_go_step by done.
  destruct (decide (x / 10 = 0)%N) as [E|E].
  - rewrite E, pretty_N_go_0. eexists _, _. split; [done|].
    apply pretty_N_char_digit; [by apply N.mod_lt|]. pose proof (N.div_mod x 10 ltac:(done)). lia.
  - apply IH; [by apply N.div_lt|by apply N.neq_0_lt_0].
Qed.

Lemma take_int_pretty (x : N) s : num_end s -> take_int (pretty x +:+ s) = Some (pretty x, s).
Proof.
  intros Hs. unfold pretty, pretty_N. case_decide as Hx; [done|].
  assert (0 < x)%N as Hpos by lia. destruct (pretty_N_go_head x "" Hpos) as (c & s' & E & Hc).
  pose proof (pretty_N_go_digits x "" eq_refl) as Hd. rewrite E in *. simpl.
  rewrite decide_False by done. simpl in Hd. apply andb_true_iff in Hd as [Hcd Hd]. rewrite Hcd.
  by rewrite take_digits_app.
Qed.

Lemma digits_val_pretty (x : N) : digits_val 0 (pretty x) = x.
Proof. unfold pretty, pretty_N. case_decide as Hx; [by subst|]. apply digits_val_go. Qed.

Lemma take_int_num_head (x : N) : exists c s', (pretty x : string) = String c s' /\ is_digit c = true.
Proof.
  unfold pretty, pretty_N. case_decide as Hx; [by eexists _, _|]. assert (0 < x)%N as Hpos by lia.
  destruct (pretty_N_go_head x "" Hpos) as (c & s' & E & _). pose proof (pretty_N_go_digits x "" eq_refl) as Hd.
  rewrite E in *. apply andb_true_iff in Hd as [Hd _]. by eexists _, _.
Qed.

Section roundtrip.
Context (float_repr : string -> string).
Abbreviation once := (scan_once float_repr).

Lemma scan_unsigned_pretty neg (x : N) s : num_end s ->
  scan_unsigned float_repr neg (pretty x +:+ s) = Some (PInt (if neg then - Z.of_N x else Z.of_N x), s).
Proof.
  intros Hs. unfold scan_unsigned. rewrite take_int_pretty by done. simpl.
  rewrite take_frac_none, take_exp_none by done. rewrite decide_True by done. by rewrite digits_val_pretty.
Qed.

(** Scanning the text of an integer. *)
Lemma scan_scalar_int z s : num_end s -> scan_scalar float_repr (pretty z +:+ s) = Ret (PInt z, s).
Proof.
  intros Hs.
  assert (forall (x : N) neg, scan_literal literals ((if neg : bool then "-" else "") +:+ (pretty x : string) +:+ s) = None /\
    scan_number float_repr ((if neg then "-" else "") +:+ (pretty x : string) +:+ s) =
    scan_unsigned float_repr neg (pretty x +:+ s)) as Hnum.
  { intros x neg. destruct (take_int_num_head x) as (c & s' & E & Hc). rewrite E. simpl.
    destruct neg, c as [[] [] [] [] [] [] [] []]; done. }
  unfold scan_scalar. destruct z as [|p|p].
  - change (pretty 0%Z +:+ s) with ("" +:+ (pretty 0%N : string) +:+ s).
    destruct (Hnum 0%N false) as [-> ->]. by rewrite scan_unsigned_pretty.
  - change (pretty (Z.pos p) +:+ s) with ("" +:+ (pretty (N.pos p) : string) +:+ s).
    destruct (Hnum (N.pos p) false) as [-> ->]. by rewrite scan_unsigned_pretty.
  - change (pretty (Z.neg p)) with ("-" +:+ (pretty (N.pos p) : string)). rewrite app_assoc_str.
    destruct (Hnum (N.pos p) true) as [-> ->]. by rewrite scan_unsigned_pretty.
Qed.

Lemma scan_null s : scan_scalar float_repr ("null" +:+ s) = Ret (PNone, s).
Proof. unfold scan_scalar, literals. cbn [scan_literal]. by rewrite startswith_app, removeprefix_app. Qed.

Lemma scan_bool (x : bool) s : scan_scalar float_repr ((if x then "true" else "false") +:+ s) = Ret (PBool x, s).
Proof.
  unfold scan_scalar, literals. cbn [scan_literal]. destruct x.
  - rewrite (eq_refl : startswith ("true" +:+ s) "null" = false). by rewrite startswith_app, removeprefix_app.
  - rewrite (eq_refl : startswith ("false" +:+ s) "null" = false), (eq_refl : startswith ("false" +:+ s) "true" = false).
    by rewrite startswith_app, removeprefix_app.
Qed.

Section separators.
(** What follows a separator: nothing or a blank. *)
Context (sp : string) (Hsp : sp = "" \/ sp = " ").
#[local] Abbreviation text := (json_text sp).

Lemma skip_sp s : skip_ws (sp +:+ s) = skip_ws s.
Proof. by destruct Hsp as [-> | ->]. Qed.

(** The text of a value begins with neither white space nor a closing bracket. *)
Lemma spaced_head b v : float_free v = true ->
  exists c r, text b v = String c r /\ json_ws c = false /\ c <> "]"%char.
Proof.
  destruct v as [|[]|z|r|s|l|d]; intros Hf; try discriminate Hf; simpl; try (eexists _, _; split_and!; done).
  pose proof (pretty_Z_num z) as Hn. destruct (pretty z) as [|c r] eqn:E; [by apply pretty_Z_ne in E|].
  exists c, r. split; [done|]. simpl in Hn. apply andb_true_iff in Hn as [Hc _].
  by destruct c as [[] [] [] [] [] [] [] []].
Qed.

Lemma skip_ws_id c s : json_ws c = false -> skip_ws (String c s) = String c s.
Proof. intros Hc. simpl. by rewrite Hc. Qed.

Lemma join_cons2 sep x y l : join sep (x :: y :: l) = x +:+ sep +:+ join sep (y :: l).
Proof. done. Qed.

(** [v] is read off the front of any text that begins with its own. *)
Definition reads (b : bool) (v : pyval) : Prop := forall n rest, num_end rest ->
  2 * String.length (text b v) + 1 <= n -> once n (text b v +:+ rest) = Ret (v, rest).

(** One step of the loops. *)
Lemma scan_elems_last n s v r : once n s = Ret (v, String "]" r) -> scan_elems float_repr (S n) s = Ret ([v], r).
Proof. intros H. simpl. by rewrite H. Qed.

Lemma scan_elems_more n s v r l r' : once n s = Ret (v, String "," (sp +:+ r)) ->
  scan_elems float_repr n (skip_ws r) = Ret (l, r') -> scan_elems float_repr (S n) s = Ret (v :: l, r').
Proof. intros H H'. simpl. rewrite H. simpl. by rewrite skip_sp, H'. Qed.

Lemma scan_members_last n b k s d v r : once n (skip_ws s) = Ret (v, String "}" r) ->
  scan_members float_repr (S n) (json_str b k +:+ (":" +:+ sp) +:+ s) d = Ret (od_set k v d, r).
Proof. intros H. unfold json_str. simpl. rewrite app_assoc_str. simpl. rewrite scan_flat. simpl. by rewrite skip_sp, H. Qed.

Lemma scan_members_more n b k s d v r : once n (skip_ws s) = Ret (v, String "," (sp +:+ r)) ->
  scan_members float_repr (S n) (json_str b k +:+ (":" +:+ sp) +:+ s) d =
  scan_members float_repr n (skip_ws r) (od_set k v d).
Proof. intros H. unfold json_str. simpl. rewrite app_assoc_str. simpl. rewrite scan_flat. simpl. rewrite skip_sp, H. simpl. by rewrite skip_sp. Qed.

Lemma scan_elems_join b l : Forall (reads b) l -> Forall (fun v => float_free v = true) l -> l <> [] ->
  forall n rest, 2 * String.length (join ("," +:+ sp) (map (text b) l)) + 2 <= n ->
  scan_elems float_repr n (join ("," +:+ sp) (map (text b) l) +:+ String "]" rest) = Ret (l, rest).
Proof.
  intros Hr. induction Hr as [|x l Hx Hr IH]; [done|]. intros [Hfx Hf]%Forall_cons _ n rest Hn.
  destruct n as [|n]; [lia|]. destruct l as [|y l].
  - simpl map in *. simpl join in *. apply scan_elems_last, Hx; [done|lia].
  - simpl map in *. rewrite join_cons2, !length_app_str in Hn. rewrite join_cons2, !app_assoc_str.
    set (t := join ("," +:+ sp) (text b y :: map (text b) l)) in *.
    assert (skip_ws (t +:+ String "]" rest) = t +:+ String "]" rest) as Hskip.
    { apply Forall_cons in Hf as [Hfy _]. destruct (spaced_head b y Hfy) as (c & r & E & Hc & _).
      unfold t. destruct l; simpl map; [|rewrite join_cons2]; simpl join; rewrite E; by apply skip_ws_id. }
    apply scan_elems_more with (t +:+ String "]" rest); [apply Hx; [done|lia]|].
    rewrite Hskip. apply IH; [done|done|]. simpl in Hn. lia.
Qed.

Definition member_text (b : bool) (kv : string * pyval) : string :=
  json_str b kv.1 +:+ (":" +:+ sp) +:+ text b kv.2.

Lemma member_length b k v : String.length (member_text b (k, v)) = String.length (json_str b k) + (1 + String.length sp + String.length (text b v)).
Proof. unfold member_text. by rewrite !length_app_str. Qed.

Lemma member_app b k v s : member_text b (k, v) +:+ s = json_str b k +:+ (":" +:+ sp) +:+ text b v +:+ s.
Proof. unfold member_text. by rewrite !app_assoc_str. Qed.

Lemma skip_ws_spaced b v s : float_free v = true -> skip_ws (text b v +:+ s) = text b v +:+ s.
Proof. intros Hf. destruct (spaced_head b v Hf) as (c & r & -> & Hc & _). by apply skip_ws_id. Qed.

Lemma scan_members_join b items : Forall (fun kv => reads b kv.2) items ->
  Forall (fun kv => float_free kv.2 = true) items -> items <> [] ->
  forall d n rest, od_wf (d ++ items) -> 2 * String.length (join ("," +:+ sp) (map (member_text b) items)) + 2 <= n ->
  scan_members float_repr n (join ("," +:+ sp) (map (member_text b) items) +:+ String "}" rest) d = Ret (d ++ items, rest).
Proof.
  intros Hr. induction Hr as [|[k v] items Hv Hr IH]; [done|]. intros [Hfv Hf]%Forall_cons _ d n rest Hwf Hn.
  simpl in Hv, Hfv. destruct n as [|n]; [lia|].
  assert (od_set k v d = d ++ [(k, v)]) as Hset.
  { apply od_set_new. unfold od_wf, od_keys in Hwf. rewrite fmap_app in Hwf. apply NoDup_app in Hwf as (_ & Hwf & _).
    intros Hin. apply (Hwf k Hin). simpl. by left. }
  destruct items as [|kv' items].
  - simpl map in *. simpl join in *. rewrite member_length in Hn. rewrite member_app.
    rewrite <-Hset. apply scan_members_last. rewrite skip_ws_spaced by done. apply Hv; [done|lia].
  - simpl map in *. rewrite join_cons2, !length_app_str, member_length in Hn. rewrite join_cons2, !app_assoc_str, member_app.
    set (t := join ("," +:+ sp) (member_text b kv' :: map (member_text b) items)) in *.
    assert (skip_ws (t +:+ String "}" rest) = t +:+ String "}" rest) as Hskip.
    { unfold t. destruct items; simpl map; [|rewrite join_cons2]; simpl join; unfold member_text, json_str; simpl; done. }
    rewrite (scan_members_more _ _ _ _ _ v (t +:+ String "}" rest)).
    + rewrite Hskip, Hset, IH; [by rewrite <-app_assoc|done|done|by rewrite <-app_assoc|lia].
    + rewrite skip_ws_spaced by done. apply Hv; [done|lia].
Qed.

Lemma dicts_wf_list l : dicts_wf (PList l) -> Forall dicts_wf l.
Proof. simpl. induction l as [|x l IH]; simpl; [done|]. intros [Hx Hl]. constructor; [done|by apply IH]. Qed.

Lemma dicts_wf_dict d : dicts_wf (PDict d) -> od_wf d /\ Forall (fun kv => dicts_wf kv.2) d.
Proof.
  simpl. intros [Hwf Hd]. split; [done|]. clear Hwf. induction d as [|x l IH]; simpl in *; [done|].
  destruct Hd. constructor; [done|by apply IH].
Qed.

Lemma scan_array n c q l r : json_ws c = false -> c <> "]"%char ->
  scan_elems float_repr n (String c q) = Ret (l, r) -> once (S n) (String "[" (String c q)) = Ret (PList l, r).
Proof.
  intros Hc Hne H. simpl. rewrite Hc.
  destruct c as [[] [] [] [] [] [] [] []]; try done; rewrite H; done.
Qed.

Lemma scan_object n q d r : scan_members float_repr n (String dq q) [] = Ret (d, r) ->
  once (S n) (String "{" (String dq q)) = Ret (PDict d, r).
Proof. intros H. simpl. change (String "034" q) with (String dq q). by rewrite H. Qed.

Lemma reads_all b v : float_free v = true -> dicts_wf v -> reads b v.
Proof.
  induction v as [|b0|z|r|s|l IH|d IH] using pyval_nested_ind; intros Hf Hwf n rest Hrest Hn;
    (destruct n as [|n]; [lia|]); try done.
  - exact (scan_null rest).
  - pose proof (scan_bool b0 rest) as H. by destruct b0.
  - pose proof (scan_scalar_int z rest Hrest) as H.
    destruct (spaced_head b (PInt z) Hf) as (c & r & E & _). simpl text in *.
    pose proof (pretty_Z_num z) as Hnum. rewrite E in *. simpl in Hnum.
    apply andb_true_iff in Hnum as [Hnum _]. simpl in *.
    destruct (decide (c = dq)) as [->|]; [done|]. destruct (decide (c = "["%char)) as [->|]; [done|].
    destruct (decide (c = "{"%char)) as [->|]; done.
  - simpl. unfold json_str. simpl. rewrite app_assoc_str. simpl. by rewrite scan_flat.
  - simpl in Hf. apply forallb_Forall_true in Hf. apply dicts_wf_list in Hwf.
    destruct l as [|x l]; [done|].
    change (text b (PList (x :: l))) with ("[" +:+ join ("," +:+ sp) (map (text b) (x :: l)) +:+ "]") in Hn.
    rewrite !length_app_str in Hn.
    pose proof Hf as [Hfx _]%Forall_cons. destruct (spaced_head b x Hfx) as (c & r & E & Hc & Hne).
    assert (exists q, join ("," +:+ sp) (map (text b) (x :: l)) = String c q) as [q Hq].
    { simpl map. destruct l; simpl map; [|rewrite join_cons2]; simpl join; rewrite E; by eexists. }
    assert (Forall (reads b) (x :: l)) as Hreads.
    { eapply (Forall_impl_and (fun v => dicts_wf v)); [done|]. eapply (Forall_impl_and (fun v => float_free v = true)); [done|].
      eapply Forall_impl; [exact IH|]. naive_solver. }
    pose proof (scan_elems_join b (x :: l) Hreads Hf ltac:(done) n rest) as H.
    change (text b (PList (x :: l))) with ("[" +:+ join ("," +:+ sp) (map (text b) (x :: l)) +:+ "]").
    rewrite !app_assoc_str, Hq in *. specialize (H ltac:(simpl in *; lia)).
    apply (scan_array _ _ _ _ _ Hc Hne H).
  - simpl in Hf. apply forallb_Forall_true in Hf. apply dicts_wf_dict in Hwf as [Hwf Hd].
    destruct d as [|[k x] d]; [done|].
    change (text b (PDict ((k, x) :: d))) with ("{" +:+ join ("," +:+ sp) (map (member_text b) ((k, x) :: d)) +:+ "}") in Hn.
    rewrite !length_app_str in Hn.
    assert (Forall (fun kv => reads b kv.2) ((k, x) :: d)) as Hreads.
    { eapply (Forall_impl_and (fun kv => dicts_wf kv.2)); [done|].
      eapply (Forall_impl_and (fun kv => float_free kv.2 = true)); [done|].
      eapply Forall_impl; [exact IH|]. naive_solver. }
    pose proof (scan_members_join b ((k, x) :: d) Hreads Hf ltac:(done) [] n rest Hwf) as H.
    assert (exists q, join ("," +:+ sp) (map (member_text b) ((k, x) :: d)) = String dq q) as [q Hq].
    { simpl map. destruct d; simpl map; [|rewrite join_cons2]; simpl join; by eexists. }
    change (text b (PDict ((k, x) :: d))) with ("{" +:+ join ("," +:+ sp) (map (member_text b) ((k, x) :: d)) +:+ "}").
    rewrite !app_assoc_str, Hq in *. specialize (H ltac:(simpl in *; lia)). apply (scan_object _ _ _ _ H).
Qed.

(** [json.loads(json.dumps(v))] *)
Lemma json_loads_text b v : float_free v = true -> dicts_wf v -> json_loads float_repr (text b v) = Ret v.
Proof.
  intros Hf Hwf. unfold json_loads. pose proof (skip_ws_spaced b v "" Hf) as Hskip. rewrite app_nil_r_str in Hskip.
  rewrite Hskip. pose proof (reads_all b v Hf Hwf (2 * String.length (text b v) + 1) "" I ltac:(lia)) as H.
  rewrite app_nil_r_str in H. by rewrite H.
Qed.

End separators.

Lemma json_loads_spaced b v : float_free v = true -> dicts_wf v -> json_loads float_repr (json_spaced b v) = Ret v.
Proof. apply json_loads_text. by right. Qed.

Lemma json_canon_wf v : dicts_wf v -> dicts_wf (json_canon v).
Proof.
  induction v as [| | | | |l IH|d IH] using pyval_nested_ind; try done; intros Hwf.
  - apply dicts_wf_list in Hwf. simpl. induction IH as [|x l Hx IH IHl]; [done|].
    apply Forall_cons in Hwf as [? ?]. simpl. auto.
  - apply dicts_wf_dict in Hwf as [Hwf Hd]. simpl. split.
    + unfold od_wf, od_keys. rewrite sort_items_perm. by apply od_wf_map.
    + assert (Forall (fun kv => dicts_wf kv.2) (sort_items (map (fun kv => (kv.1, json_canon kv.2)) d))) as HF.
      { rewrite sort_items_perm. apply Forall_forall. intros [k x] Hin. apply list_elem_of_fmap in Hin as ([k' y] & [= -> ->] & Hin).
        rewrite Forall_forall in IH, Hd. simpl. apply (IH (k', y) Hin), (Hd (k', y) Hin). }
      induction HF as [|kv d' ? ? IHd]; [done|]. simpl. auto.
Qed.

Lemma json_loads_dumps b v : float_free v = true -> dicts_wf v ->
  json_loads float_repr (json_dumps_sorted b v) = Ret (json_canon v).
Proof. intros Hf Hwf. apply json_loads_spaced; [by apply float_free_canon|by apply json_canon_wf]. Qed.

Lemma json_render_text b v : json_render b v = json_text "" b v.
Proof.
  induction v as [| | | | |l IH|d IH] using pyval_nested_ind; try done; simpl; do 2 f_equal.
  - f_equal. apply map_ext_in. intros v Hin. rewrite Forall_forall in IH. by apply IH, list_elem_of_In.
  - f_equal. apply map_ext_in. intros kv Hin. rewrite Forall_forall in IH. by rewrite (IH kv) by (by apply list_elem_of_In).
Qed.

(** [json.loads(json.dumps(v, separators=(",", ":"), sort_keys=True))] *)
Lemma json_loads_compact b v : float_free v = true -> dicts_wf v -> json_loads float_repr (json_dumps b v) = Ret (json_canon v).
Proof.
  intros Hf Hwf. unfold json_dumps. rewrite json_render_text.
  apply json_loads_text; [by left|by apply float_free_canon|by apply json_canon_wf].
Qed.
End roundtrip.

(** A parsed value has distinct keys in every dictionary. *)
Section parsed.
Context (float_repr : string -> string).

Lemma dicts_wf_intro d : od_wf d -> Forall (fun kv => dicts_wf kv.2) d -> dicts_wf (PDict d).
Proof. intros Hwf Hd. simpl. split; [done|]. clear Hwf. by induction Hd. Qed.

Lemma dicts_wf_list_intro l : Forall dicts_wf l -> dicts_wf (PList l).
Proof. intros Hl. simpl. by induction Hl. Qed.

Lemma od_set_vals (P : pyval -> Prop) (k : string) v d : P v -> Forall (fun kv => P kv.2) d -> Forall (fun kv => P kv.2) (od_set k v d).
Proof.
  intros Hv Hd. induction Hd as [|[k' v'] d Hx Hd IH]; simpl; [by repeat constructor|].
  case_decide; constructor; done.
Qed.

Lemma scan_scalar_wf s v r : scan_scalar float_repr s = Ret (v, r) -> dicts_wf v.
Proof.
  unfold scan_scalar. destruct (scan_literal literals s) as [[v' r']|] eqn:E.
  - intros [= <- <-]. unfold literals in E. simpl in E. by repeat case_match; simplify_eq/=.
  - destruct (scan_number float_repr s) as [[v' r']|] eqn:E'; [|done]. intros [= <- <-].
    assert (forall neg s', scan_unsigned float_repr neg s' = Some (v', r') -> dicts_wf v') as Hu.
    { intros neg s'. unfold scan_unsigned. destruct (take_int s') as [[i s1]|]; [|done]. simpl.
      destruct (take_frac s1) as [f s2], (take_exp s2) as [e s3]. by case_decide; intros [= <- <-]. }
    unfold scan_number in E'. repeat case_match; eauto.
Qed.

(** Case on a bind that succeeded. *)
Ltac bind_ret H :=
  match type of H with
  | (?m ≫= _) = Ret _ => destruct m as [[? ?]|] eqn:?; [|done]; simpl in H
  end.

Lemma parser_wf n :
  (forall s v r, scan_once float_repr n s = Ret (v, r) -> dicts_wf v) /\
  (forall s l r, scan_elems float_repr n s = Ret (l, r) -> Forall dicts_wf l) /\
  (forall s d d' r, od_wf d -> Forall (fun kv => dicts_wf kv.2) d -> scan_members float_repr n s d = Ret (d', r) ->
     od_wf d' /\ Forall (fun kv => dicts_wf kv.2) d').
Proof.
  induction n as [|n (IHo & IHe & IHm)]; [split_and!; intros [] **; done|]. split_and!.
  - intros [|c s] v r; [done|]. simpl. case_decide.
    { intros Heq. bind_ret Heq. by injection Heq as <- <-. }
    case_decide; [|case_decide; [|by apply scan_scalar_wf]]; intros Heq; repeat case_match;
      try (injection Heq as <- <-; first [done|by split; [apply od_wf_nil|]]);
      bind_ret Heq; injection Heq as <- <-; try (by eapply dicts_wf_list_intro, IHe);
      (apply dicts_wf_intro; eapply IHm; [| |eassumption| | |eassumption]; first [apply od_wf_nil|by constructor]).
  - intros s l r Heq. simpl in Heq. bind_ret Heq. repeat case_match; try done.
    + injection Heq as <- <-. constructor; [by eapply IHo|done].
    + bind_ret Heq. injection Heq as <- <-. constructor; [by eapply IHo|by eapply IHe].
  - intros [|c s] d d' r Hwf Hd Heq; [done|]. simpl in Heq. case_decide; [|done]. bind_ret Heq.
    repeat case_match; try done. bind_ret Heq.
    assert (od_wf (od_set s0 p d) /\ Forall (fun kv => dicts_wf kv.2) (od_set s0 p d)) as [Hwf' Hd'].
    { split; [by apply od_wf_set|]. apply (od_set_vals dicts_wf); [by eapply IHo|done]. }
    repeat case_match; try done; [by injection Heq as <- <-|by eapply (IHm _ _ _ _ Hwf' Hd')].
Qed.

Lemma json_loads_wf s v : json_loads float_repr s = Ret v -> dicts_wf v.
Proof.
  unfold json_loads. intros H. bind_ret H. case_match; [|done]. injection H as <-.
  by eapply parser_wf.
Qed.
End parsed.
