(* ===== verification/Graph.v ===== *)
(** * Graph algorithms shared by the graph classes

    The loops that [hi_agent/task_decomposition/dag.py],
    [hi_agent/trajectory/stage_graph.py] and [hi_agent/trajectory/graph.py] share:
    breadth-first collection, depth-first colouring and Kahn's elimination by
    in-degree, over a successor function.  The source writes each of them out in
    every class; here each is one definition, with its correctness.  A Python set is
    iterated in an order of the interpreter's choice, so theorems hold for any
    successor lists. *)

From stdpp Require Import base tactics option list strings gmap sets relations sorting.
From Stdlib Require Import ZArith.
From S2P Require Import Prelude PyStr PyDict.

(** The order in which the interpreter iterates over a set of strings. *)
Class SetOrder := {
  set_iter : gset string -> list string;
  set_iter_perm s : set_iter s ≡ₚ elements s
}.

#[export] Instance elements_order : SetOrder := {| set_iter := elements; set_iter_perm s := Permutation_refl (elements s) |}.

(** Breadth-first collection: [next visited c] is what the loop appends to the queue
    after visiting [c]. *)
Fixpoint bfs (next : list string -> string -> list string) (fuel : nat) (visited queue : list string) : list string :=
  match fuel, queue with
  | S fuel, c :: queue =>
      if decide (c ∈ visited) then bfs next fuel visited queue
      else bfs next fuel (visited ++ [c]) (queue ++ next (visited ++ [c]) c)
  | _, _ => visited
  end.

(** Depth-first colouring; [depth] is the recursion limit of the interpreter. *)
Inductive Color := white | gray | black.

#[export] Instance Color_eq_dec : EqDecision Color.
Proof. solve_decision. Defined.

Definition RecursionError : exn := OtherError "RecursionError" "maximum recursion depth exceeded".

Abbreviation colors := (odict string Color).

(** The loop of [_dfs] over the successors, [visit] the recursive call. *)
Fixpoint scan (visit : string -> PyM colors bool) (tgts : list string) : PyM colors bool :=
  match tgts with
  | [] => mret false
  | tgt :: tgts =>
      color ← py_get;
      match od_get tgt color with
      | None => py_raise (KeyError tgt)
      | Some gray => mret true
      | Some white => r ← visit tgt; if (r : bool) then mret true else scan visit tgts
      | Some black => scan visit tgts
      end
  end.

Fixpoint dfs (succ : string -> list string) (depth : nat) (nid : string) : PyM colors bool :=
  match depth with
  | 0 => py_raise RecursionError
  | S depth =>
      _ ← py_modify (od_set nid gray);
      found ← scan (dfs succ depth) (succ nid);
      if (found : bool) then mret true else _ ← py_modify (od_set nid black); mret false
  end.

(** [any(color[nid] == white and _dfs(nid) for nid in nodes)] *)
Fixpoint dfs_any (succ : string -> list string) (depth : nat) (nids : list string) : PyM colors bool :=
  match nids with
  | [] => mret false
  | nid :: nids =>
      color ← py_get;
      match od_get nid color with
      | None => py_raise (KeyError nid)
      | Some white => r ← dfs succ depth nid; if (r : bool) then mret true else dfs_any succ depth nids
      | Some _ => dfs_any succ depth nids
      end
  end.

(** Kahn's elimination.  [count_in]: add one to the in-degree of each target. *)
Abbreviation degrees := (odict string Z).

Fixpoint count_in (tgts : list string) (in_degree : degrees) : outcome degrees :=
  match tgts with
  | [] => Ret in_degree
  | tgt :: tgts =>
      match od_get tgt in_degree with
      | None => Raise (KeyError tgt)
      | Some n => count_in tgts (od_set tgt (n + 1)%Z in_degree)
      end
  end.

(** Take one from the in-degree of each target; also the targets that reach zero. *)
Fixpoint release (tgts : list string) (in_degree : degrees) : outcome (degrees * list string) :=
  match tgts with
  | [] => Ret (in_degree, [])
  | tgt :: tgts =>
      match od_get tgt in_degree with
      | None => Raise (KeyError tgt)
      | Some n =>
          '(d, zeros) ← release tgts (od_set tgt (n - 1)%Z in_degree);
          Ret (d, if (n - 1 =? 0)%Z then tgt :: zeros else zeros)
      end
  end.

(** The in-degrees of [nodes], one for each occurrence among [targets]. *)
Definition in_degrees (nodes targets : list string) : outcome degrees :=
  count_in targets (map (fun n => (n, 0%Z)) nodes).

(** [[nid for nid, deg in in_degree.items() if deg == 0]] *)
Definition zero_nodes (in_degree : degrees) : list string :=
  fst <$> filter (fun kv : string * Z => kv.2 = 0%Z) in_degree.

(** [queue.sort()] *)
Definition sort_ids (l : list string) : list string := merge_sort String.le l.

(** The loop of [topological_sort]. *)
Fixpoint kahn (succ : string -> list string) (fuel : nat) (queue result : list string) (in_degree : degrees) :
    outcome (list string) :=
  match fuel, queue with
  | S fuel, current :: queue =>
      '(d, zeros) ← release (sort_ids (succ current)) in_degree;
      kahn succ fuel (sort_ids (queue ++ zeros)) (result ++ [current]) d
  | _, _ => Ret result
  end.

(** One level of [get_parallel_groups], and its loop. *)
Fixpoint release_level (succ : string -> list string) (level : list string) (in_degree : degrees) :
    outcome (degrees * list string) :=
  match level with
  | [] => Ret (in_degree, [])
  | nid :: level =>
      '(d, zeros) ← release (succ nid) in_degree;
      '(d', zeros') ← release_level succ level d;
      Ret (d', zeros ++ zeros')
  end.

Fixpoint levels (succ : string -> list string) (fuel : nat) (level : list string) (in_degree : degrees) :
    outcome (list (list string)) :=
  match fuel, level with
  | S fuel, _ :: _ =>
      '(d, zeros) ← release_level succ level in_degree;
      cons level <$> levels succ fuel (sorted_set zeros) d
  | _, _ => Ret []
  end.

(** Paths and cycles ***************************************************************)

Definition edge (succ : string -> list string) (u v : string) : Prop := v ∈ succ u.
Definition acyclic (succ : string -> list string) : Prop := forall x, ~ tc (edge succ) x x.

Lemma tc_first {A} (R : A -> A -> Prop) x z : tc R x z -> exists y, R x y /\ rtc R y z.
Proof. intros [a b Hab|a b c Hab Hbc]; exists b; (split; [done|]); [done|by apply tc_rtc]. Qed.

(** A finite set in which every node has a predecessor has a cycle. *)
Lemma no_source_cycle succ (X : list string) : X <> [] ->
  (forall v, v ∈ X -> exists u, u ∈ X /\ edge succ u v) -> exists x, tc (edge succ) x x.
Proof.
  intros Hne Hpred. destruct X as [|h0 X0] eqn:HX; [done|]. rewrite <-HX in *.
  assert (forall n h l, length X - length (h :: l) <= n -> NoDup (h :: l) -> h :: l ⊆ X ->
    (forall x, x ∈ l -> tc (edge succ) h x) -> exists x, tc (edge succ) x x) as Hgrow.
  { induction n as [|n IH]; intros h l Hn Hnd Hsub Htc;
      destruct (Hpred h) as (u & Hu & Huh); try (apply Hsub; by left);
      (assert (forall x, x ∈ h :: l -> tc (edge succ) u x) as Hall by
        (intros x [->|Hx]%elem_of_cons; [by apply tc_once|eapply tc_l; [done|by apply Htc]]));
      (destruct (decide (u ∈ h :: l)) as [Hin|Hin]; [exists u; by apply Hall|]);
      assert (NoDup (u :: h :: l)) as Hnd' by (by constructor);
      assert (u :: h :: l ⊆ X) as Hsub' by (intros x [->|Hx]%elem_of_cons; [done|by apply Hsub]);
      pose proof (submseteq_length _ _ (NoDup_submseteq _ _ Hnd' Hsub')) as Hlen; simpl in Hlen, Hn.
    - lia.
    - apply (IH u (h :: l)); [simpl; lia|done..]. }
  apply (Hgrow (length X) h0 []); [simpl; lia|apply NoDup_singleton| |].
  - intros x [->|Hx]%elem_of_cons; [rewrite HX; by left|by apply not_elem_of_nil in Hx].
  - intros x Hx. by apply not_elem_of_nil in Hx.
Qed.

(** Breadth-first collection *******************************************************)

(** The successors of the nodes of [U] that are not visited yet. *)
Fixpoint pending (succ : string -> list string) (visited U : list string) : nat :=
  match U with
  | [] => 0
  | u :: U => (if decide (u ∈ visited) then 0 else length (succ u)) + pending succ visited U
  end.

Section bfs.
Context (succ : string -> list string) (next : list string -> string -> list string).
Context (next_succ : forall v c x, x ∈ next v c -> x ∈ succ c).
Context (succ_next : forall v c x, x ∈ succ c -> x ∈ v \/ x ∈ next v c).
Context (next_length : forall v c, length (next v c) <= length (succ c)).

Lemma pending_le visited c U : pending succ (visited ++ [c]) U <= pending succ visited U.
Proof.
  induction U as [|u U IH]; simpl; [done|].
  destruct (decide (u ∈ visited)); [rewrite decide_True by (apply elem_of_app; by left); lia|].
  case_decide; lia.
Qed.

Lemma pending_visit visited c U : c ∉ visited -> c ∈ U ->
  pending succ (visited ++ [c]) U + length (succ c) <= pending succ visited U.
Proof.
  intros Hc. induction U as [|u U IH]; simpl; [by intros ?%not_elem_of_nil|].
  pose proof (pending_le visited c U) as Hle. intros [->|Hin]%elem_of_cons.
  - rewrite decide_True by (apply elem_of_app; right; by apply list_elem_of_singleton). rewrite decide_False by done. lia.
  - specialize (IH Hin). destruct (decide (u ∈ visited)); [rewrite decide_True by (apply elem_of_app; by left); lia|].
    case_decide; lia.
Qed.

(** What the loop keeps: all is reached from the roots, and the successors of visited
    nodes are visited or queued. *)
Definition bfs_inv (roots visited queue : list string) : Prop :=
  NoDup visited /\
  (forall x, x ∈ visited \/ x ∈ queue -> exists r, r ∈ roots /\ rtc (edge succ) r x) /\
  (forall r, r ∈ roots -> r ∈ visited \/ r ∈ queue) /\
  (forall c x, c ∈ visited -> x ∈ succ c -> x ∈ visited \/ x ∈ queue).

Lemma bfs_skip roots visited c queue : c ∈ visited -> bfs_inv roots visited (c :: queue) -> bfs_inv roots visited queue.
Proof.
  intros Hc (Hnd & Hr & Hroots & Hs). split; [done|]. split; [|split].
  - intros x [Hx|Hx]; apply Hr; [by left|right; by right].
  - intros r Hin. destruct (Hroots r Hin) as [|[->|]%elem_of_cons]; auto.
  - intros d x Hd Hx. destruct (Hs d x Hd Hx) as [|[->|]%elem_of_cons]; auto.
Qed.

Lemma bfs_visit roots visited c queue : c ∉ visited -> bfs_inv roots visited (c :: queue) ->
  bfs_inv roots (visited ++ [c]) (queue ++ next (visited ++ [c]) c).
Proof.
  intros Hc (Hnd & Hr & Hroots & Hs).
  assert (forall x, x ∈ visited \/ x ∈ c :: queue -> x ∈ visited ++ [c] \/ x ∈ queue ++ next (visited ++ [c]) c) as Hmove.
  { intros x [Hx|[->|Hx]%elem_of_cons]; [left; apply elem_of_app; by left|left; apply elem_of_app; right; by left|
      right; apply elem_of_app; by left]. }
  split; [|split; [|split]].
  - apply NoDup_app. split; [done|]. split; [|apply NoDup_singleton]. intros x Hx Hxc%list_elem_of_singleton. congruence.
  - destruct (Hr c) as (r & Hr1 & Hr2); [right; by left|]. intros x [Hx|Hx]; apply elem_of_app in Hx as [Hx|Hx].
    + apply Hr. by left.
    + apply list_elem_of_singleton in Hx as ->. by exists r.
    + apply Hr. right. by right.
    + exists r. split; [done|]. eapply rtc_r; [done|]. by eapply next_succ.
  - intros r Hin. by apply Hmove, Hroots.
  - intros d x [Hd|Hd%list_elem_of_singleton]%elem_of_app Hx; [by apply Hmove, (Hs d)|]. subst d.
    destruct (succ_next (visited ++ [c]) c x Hx); [by left|right; apply elem_of_app; by right].
Qed.

Lemma bfs_collects fuel : forall U roots visited queue,
  (forall c, c ∈ U \/ succ c = []) -> length queue + pending succ visited U <= fuel ->
  bfs_inv roots visited queue ->
  NoDup (bfs next fuel visited queue) /\
  forall x, x ∈ bfs next fuel visited queue <-> exists r, r ∈ roots /\ rtc (edge succ) r x.
Proof.
  assert (forall roots visited, bfs_inv roots visited [] ->
    NoDup visited /\ forall x, x ∈ visited <-> exists r, r ∈ roots /\ rtc (edge succ) r x) as Hend.
  { intros roots visited (Hnd & Hr & Hroots & Hs). split; [done|]. intros x. split; [intros Hx; apply Hr; by left|].
    intros (r & Hin & Hrx). destruct (Hroots r Hin) as [Hv|[]%not_elem_of_nil]. clear Hin.
    induction Hrx as [|a b c0 Hab Hbc IH]; [done|]. apply IH. destruct (Hs a b Hv Hab) as [|[]%not_elem_of_nil]. done. }
  induction fuel as [|fuel IH]; intros U roots visited queue HU Hfuel Hinv.
  { destruct queue; [by apply Hend|simpl in Hfuel; lia]. }
  destruct queue as [|c queue]; simpl; [by apply Hend|]. simpl in Hfuel. destruct (decide (c ∈ visited)) as [Hc|Hc].
  - apply (IH U); [done|lia|by eapply bfs_skip].
  - apply (IH U); [done| |by apply bfs_visit]. rewrite length_app.
    pose proof (next_length (visited ++ [c]) c) as Hl. pose proof (pending_le visited c U) as Hle.
    destruct (HU c) as [Hin|Hnil]; [pose proof (pending_visit visited c U Hc Hin); lia|]. rewrite Hnil in Hl. simpl in Hl. lia.
Qed.

(** From the roots, with fuel for each root and each successor list, the loop
    collects exactly what the roots reach, once each. *)
Lemma bfs_reach U roots fuel : (forall c, c ∈ U \/ succ c = []) -> length roots + pending succ [] U <= fuel ->
  NoDup (bfs next fuel [] roots) /\
  forall x, x ∈ bfs next fuel [] roots <-> exists r, r ∈ roots /\ rtc (edge succ) r x.
Proof.
  intros HU Hfuel. apply (bfs_collects fuel U); [done..|]. split; [apply NoDup_nil_2|]. split; [|split].
  - intros x [[]%not_elem_of_nil|Hx]. by exists x.
  - intros r Hr. by right.
  - intros c x []%not_elem_of_nil.
Qed.
End bfs.

(** Successors kept as sets: [edges.get(nid, set())]. *)
Section set_edges.
Context `{!SetOrder}.
Implicit Types (edges : odict string (gset string)).

Definition targets_of edges (nid : string) : gset string := default ∅ (od_get nid edges).
Definition succ_of edges (nid : string) : list string := set_iter (targets_of edges nid).

Lemma elem_of_set_iter (s : gset string) x : x ∈ set_iter s <-> x ∈ s.
Proof. rewrite set_iter_perm. apply elem_of_elements. Qed.

Lemma length_set_iter (s : gset string) : length (set_iter s) = size s.
Proof. by rewrite set_iter_perm. Qed.

Lemma set_iter_empty (s : gset string) : s = ∅ -> set_iter s = [].
Proof. intros ->. apply Permutation_nil_r. rewrite set_iter_perm. by rewrite elements_empty. Qed.

Lemma succ_of_outside edges u : u ∉ od_keys edges -> succ_of edges u = [].
Proof. intros Hu%od_get_None. apply set_iter_empty. unfold targets_of. by rewrite Hu. Qed.

Lemma pending_succ_of edges : od_wf edges ->
  pending (succ_of edges) [] (od_keys edges) = sum_list_with (fun kv : string * gset string => size kv.2) edges.
Proof.
  intros Hwf. unfold od_keys.
  assert (forall l : odict string (gset string), (forall k s, (k, s) ∈ l -> od_get k edges = Some s) ->
    pending (succ_of edges) [] l.*1 = sum_list_with (fun kv : string * gset string => size kv.2) l) as Hl.
  { induction l as [|[k s] l IH]; intros Hin; [done|]. rewrite fmap_cons. cbn [pending sum_list_with fst snd].
    rewrite decide_False by apply not_elem_of_nil. rewrite IH by (intros k' s' Hk; apply Hin; by right).
    unfold succ_of, targets_of. rewrite (Hin k s) by by left. by rewrite length_set_iter. }
  apply Hl. intros k s Hin. by apply od_get_elem.
Qed.
End set_edges.

(** Depth-first colouring **********************************************************)

Definition whites (c : colors) : nat := length (filter (fun kv : string * Color => kv.2 = white) c).

Lemma whites_set k v v' (c : colors) : od_get k c = Some v ->
  whites (od_set k v' c) + (if decide (v = white) then 1 else 0) = whites c + (if decide (v' = white) then 1 else 0).
Proof.
  unfold whites. induction c as [|[k' w] c IH]; simpl; [done|]. destruct (decide (k = k')) as [->|Hk].
  - intros [= ->]. rewrite !filter_cons. simpl. repeat case_decide; simpl; lia.
  - intros Hg. specialize (IH Hg). rewrite !filter_cons. simpl. destruct (decide (w = white)); simpl; lia.
Qed.

Section dfs.
Context (succ : string -> list string) (nodes : list string).
Context (succ_nodes : forall u v, u ∈ nodes -> v ∈ succ u -> v ∈ nodes).

(** The nodes have a colour; black nodes lead to black nodes only, and to no cycle. *)
Definition coloured (c : colors) : Prop :=
  (forall x, x ∈ nodes -> is_Some (od_get x c)) /\
  (forall x y, od_get x c = Some black -> y ∈ succ x -> od_get y c = Some black) /\
  (forall x, od_get x c = Some black -> ~ tc (edge succ) x x).

(** Colouring leaves grey nodes grey, black ones black, and no more white ones. *)
Definition darker (c c' : colors) : Prop :=
  (forall x, od_get x c' = Some gray <-> od_get x c = Some gray) /\
  (forall x, od_get x c = Some black -> od_get x c' = Some black) /\
  whites c' <= whites c.

Lemma darker_refl c : darker c c.
Proof. done. Qed.

Lemma darker_trans c1 c2 c3 : darker c1 c2 -> darker c2 c3 -> darker c1 c3.
Proof.
  intros (Hg & Hb & Hw) (Hg' & Hb' & Hw'). split; [|split; [auto|lia]]. intros x. by rewrite Hg', Hg.
Qed.

Lemma black_reach c x y : coloured c -> rtc (edge succ) x y -> od_get x c = Some black -> od_get y c = Some black.
Proof. intros (_ & Hb & _) Hxy. induction Hxy as [|a b z Hab Hbz IH]; [done|]. intros Ha. apply IH. by apply (Hb a). Qed.

(** What [_dfs] and its loop answer. *)
Definition dfs_post (c : colors) (blackened : list string) (res : outcome bool * colors) : Prop :=
  match res with
  | (Ret true, _) => exists x, tc (edge succ) x x
  | (Ret false, c') => coloured c' /\ darker c c' /\ (forall x, x ∈ blackened -> od_get x c' = Some black)
  | (Raise _, _) => False
  end.

Lemma coloured_gray nid c : coloured c -> od_get nid c = Some white -> coloured (od_set nid gray c).
Proof.
  intros (Hc & Hb & Ha) Hw. assert (forall x, od_get x (od_set nid gray c) = Some black <-> od_get x c = Some black) as Hblack.
  { intros x. destruct (decide (nid = x)) as [<-|Hne]; [rewrite od_get_set_eq, Hw; done|by rewrite od_get_set_ne]. }
  split; [|split].
  - intros x Hx. destruct (decide (nid = x)) as [<-|Hne]; [rewrite od_get_set_eq; done|rewrite od_get_set_ne by done; auto].
  - intros x y Hx%Hblack Hy. apply Hblack. by apply (Hb x).
  - intros x Hx%Hblack. by apply Ha.
Qed.

Lemma coloured_black nid c : coloured c -> od_get nid c = Some gray ->
  (forall x, x ∈ succ nid -> od_get x c = Some black) -> coloured (od_set nid black c).
Proof.
  intros Hcol Hg Hs. pose proof Hcol as (Hc & Hb & Ha). split; [|split].
  - intros x Hx. destruct (decide (nid = x)) as [<-|Hne]; [rewrite od_get_set_eq; done|rewrite od_get_set_ne by done; auto].
  - intros x y Hx Hy. destruct (decide (nid = y)) as [<-|Hny]; [by rewrite od_get_set_eq|]. rewrite od_get_set_ne by done.
    destruct (decide (nid = x)) as [<-|Hnx]; [by apply Hs|]. rewrite od_get_set_ne in Hx by done. by apply (Hb x).
  - intros x Hx. destruct (decide (nid = x)) as [<-|Hnx]; [|rewrite od_get_set_ne in Hx by done; by apply Ha].
    intros (y & Hy & Hyx)%tc_first.
    pose proof (black_reach c y nid Hcol Hyx (Hs y Hy)) as Hbl. congruence.
Qed.

(** The loop, given that the recursive call does its work. *)
Lemma scan_spec nid depth (visit : string -> PyM colors bool) :
  (forall tgt c, tgt ∈ nodes -> coloured c -> od_get tgt c = Some white ->
    (forall g, od_get g c = Some gray -> rtc (edge succ) g tgt) -> whites c <= depth -> dfs_post c [tgt] (visit tgt c)) ->
  forall tgts c, (forall x, x ∈ tgts -> x ∈ succ nid /\ x ∈ nodes) -> coloured c ->
    (forall g, od_get g c = Some gray -> rtc (edge succ) g nid) -> whites c <= depth ->
    dfs_post c tgts (scan visit tgts c).
Proof.
  intros Hvisit. induction tgts as [|tgt tgts IH]; intros c Htgts Hc Hg Hw.
  { split; [done|]. split; [apply darker_refl|]. by intros x ?%not_elem_of_nil. }
  destruct (Htgts tgt) as [Hsucc Hnode]; [by left|].
  assert (forall x, x ∈ tgts -> x ∈ succ nid /\ x ∈ nodes) as Htgts' by (intros x Hx; apply Htgts; by right).
  cbn [scan]. unfold mbind, PyM_bind, py_get. cbv beta iota. destruct Hc as (Hdom & Hrest). destruct (Hdom tgt Hnode) as [col Hcol].
  pose proof (conj Hdom Hrest : coloured c) as Hc. clear Hdom Hrest. rewrite Hcol. destruct col.
  - specialize (Hvisit tgt c Hnode Hc Hcol). unfold dfs_post in Hvisit at 1.
    assert (forall g, od_get g c = Some gray -> rtc (edge succ) g tgt) as Hgt by (intros g Hgr; eapply rtc_r; [by apply Hg|done]).
    specialize (Hvisit Hgt Hw). destruct (visit tgt c) as [[[]|e] c1]; [done| |done].
    destruct Hvisit as (Hc1 & Hd1 & Hb1). destruct Hd1 as (Hg1 & Hbm & Hw1).
    specialize (IH c1 Htgts' Hc1 (fun g Hgr => Hg g (proj1 (Hg1 g) Hgr)) ltac:(lia)). unfold dfs_post in IH |- *.
    destruct (scan visit tgts c1) as [[[]|e] c2]; [done| |done]. destruct IH as (Hc2 & Hd2 & Hb2).
    split; [done|]. split; [eapply darker_trans; [by split|done]|]. intros x [->|Hx]%elem_of_cons; [|by apply Hb2].
    apply Hd2, Hb1. by left.
  - exists tgt. eapply tc_rtc_l; [by apply Hg|]. by apply tc_once.
  - specialize (IH c Htgts' Hc Hg Hw). unfold dfs_post in IH |- *.
    destruct (scan visit tgts c) as [[[]|e] c2]; [done| |done]. destruct IH as (Hc2 & Hd2 & Hb2).
    split; [done|]. split; [done|]. intros x [->|Hx]%elem_of_cons; [|by apply Hb2]. by apply Hd2.
Qed.

Lemma dfs_spec depth : forall nid c, nid ∈ nodes -> coloured c -> od_get nid c = Some white ->
  (forall g, od_get g c = Some gray -> rtc (edge succ) g nid) -> whites c <= depth ->
  dfs_post c [nid] (dfs succ depth nid c).
Proof.
  induction depth as [|depth IH]; intros nid c Hnid Hc Hw Hg Hn.
  { pose proof (whites_set nid white gray c Hw) as Hws. rewrite decide_True, decide_False in Hws by done. lia. }
  cbn [dfs]. unfold mbind, PyM_bind, py_modify. cbv beta iota. set (c1 := od_set nid gray c).
  assert (od_get nid c1 = Some gray) as Hn1 by apply od_get_set_eq.
  assert (forall x, x <> nid -> od_get x c1 = od_get x c) as Hother by (intros x Hx; by apply od_get_set_ne).
  pose proof (whites_set nid white gray c Hw) as Hws. rewrite decide_True, decide_False in Hws by done. fold c1 in Hws.
  pose proof (scan_spec nid depth (dfs succ depth) IH (succ nid) c1) as Hscan.
  specialize (Hscan (fun x Hx => conj Hx (succ_nodes nid x Hnid Hx)) (coloured_gray nid c Hc Hw)).
  assert (forall g, od_get g c1 = Some gray -> rtc (edge succ) g nid) as Hg1.
  { intros g Hgr. destruct (decide (g = nid)) as [->|Hne]; [done|]. apply Hg. by rewrite <-Hother. }
  specialize (Hscan Hg1 ltac:(lia)). unfold dfs_post in Hscan.
  destruct (scan (dfs succ depth) (succ nid) c1) as [[[]|e] c2]; [done| |done].
  destruct Hscan as (Hc2 & (Hgr2 & Hbl2 & Hw2) & Hs2). cbn. unfold dfs_post. cbn.
  assert (od_get nid c2 = Some gray) as Hn2 by by apply Hgr2.
  split; [by apply coloured_black|]. split; [split; [|split]|].
  - intros x. destruct (decide (nid = x)) as [<-|Hne].
    + rewrite od_get_set_eq, Hw. by split.
    + rewrite od_get_set_ne by done. rewrite Hgr2. by rewrite Hother by congruence.
  - intros x Hx. assert (nid <> x) as Hne by (intros ->; congruence). rewrite od_get_set_ne by done. apply Hbl2.
    by rewrite Hother by congruence.
  - pose proof (whites_set nid gray black c2 Hn2) as Hws2. rewrite !decide_False in Hws2 by done. lia.
  - intros x ->%list_elem_of_singleton. apply od_get_set_eq.
Qed.

Lemma dfs_any_spec depth : forall nids c, nids ⊆ nodes -> coloured c -> (forall g, od_get g c <> Some gray) ->
  whites c <= depth -> dfs_post c nids (dfs_any succ depth nids c).
Proof.
  induction nids as [|nid nids IH]; intros c Hsub Hc Hg Hn.
  { split; [done|]. split; [apply darker_refl|]. by intros x ?%not_elem_of_nil. }
  assert (nids ⊆ nodes) as Hsub' by (intros x Hx; apply Hsub; by right).
  assert (nid ∈ nodes) as Hnid by (apply Hsub; by left). pose proof Hc as (Hdom & _). destruct (Hdom nid Hnid) as [col Hcol].
  cbn [dfs_any]. unfold mbind, PyM_bind, py_get. cbv beta iota. rewrite Hcol. destruct col; [|by destruct (Hg nid)|].
  - pose proof (dfs_spec depth nid c Hnid Hc Hcol (fun g Hgr => False_ind _ (Hg g Hgr)) Hn) as Hd. unfold dfs_post in Hd.
    destruct (dfs succ depth nid c) as [[[]|e] c1]; [done| |done]. destruct Hd as (Hc1 & Hd1 & Hb1).
    pose proof Hd1 as (Hg1 & Hbm & Hw1).
    assert (forall g, od_get g c1 <> Some gray) as Hng by (intros g Hgr%Hg1; by apply (Hg g)).
    specialize (IH c1 Hsub' Hc1 Hng ltac:(lia)). unfold dfs_post in IH |- *.
    destruct (dfs_any succ depth nids c1) as [[[]|e] c2]; [done| |done]. destruct IH as (Hc2 & Hd2 & Hb2).
    split; [done|]. split; [by eapply darker_trans|]. intros x [->|Hx]%elem_of_cons; [|by apply Hb2].
    apply Hd2, Hb1. by left.
  - specialize (IH c Hsub' Hc Hg Hn). unfold dfs_post in IH |- *.
    destruct (dfs_any succ depth nids c) as [[[]|e] c2]; [done| |done]. destruct IH as (Hc2 & Hd2 & Hb2).
    split; [done|]. split; [done|]. intros x [->|Hx]%elem_of_cons; [|by apply Hb2]. by apply Hd2.
Qed.
End dfs.

(** [dict.fromkeys(nodes, white)] *)
Definition all_white (nids : list string) : colors := map (fun n => (n, white)) nids.

Lemma get_fromkeys {V} (v : V) (nids : list string) x : od_get x (map (fun n => (n, v)) nids) = if decide (x ∈ nids) then Some v else None.
Proof.
  induction nids as [|n nids IH]; [done|]. simpl. destruct (decide (x = n)) as [->|Hne].
  - rewrite decide_True by by left. done.
  - rewrite IH. destruct (decide (x ∈ nids)); [by rewrite decide_True by by right|].
    rewrite decide_False; [done|]. by intros [|]%elem_of_cons.
Qed.

Lemma keys_fromkeys {V} (v : V) (nids : list string) : od_keys (map (fun n => (n, v)) nids) = nids.
Proof. unfold od_keys. induction nids as [|n nids IH]; [done|]. cbn [map]. rewrite fmap_cons. by f_equal. Qed.

(** With a recursion limit of the number of nodes the search answers, and answers
    whether there is a cycle. *)
Lemma dfs_any_cycle succ nodes depth : (forall u v, u ∈ nodes -> v ∈ succ u -> v ∈ nodes) ->
  (forall u, u ∉ nodes -> succ u = []) -> length nodes <= depth ->
  exists b, (dfs_any succ depth nodes (all_white nodes)).1 = Ret b /\
    (if b then exists x, tc (edge succ) x x else acyclic succ).
Proof.
  intros Hclosed Hout Hlen.
  assert (coloured succ nodes (all_white nodes)) as Hc.
  { unfold all_white. split; [|split]; intros x.
    - intros Hx. rewrite get_fromkeys, decide_True by done. by eexists.
    - intros y. rewrite get_fromkeys. by case_decide.
    - rewrite get_fromkeys. by case_decide. }
  pose proof (dfs_any_spec succ nodes Hclosed depth nodes (all_white nodes) ltac:(done) Hc) as H.
  assert (forall g, od_get g (all_white nodes) <> Some gray) as Hg by (intros g; unfold all_white; rewrite get_fromkeys; by case_decide).
  assert (whites (all_white nodes) <= depth) as Hw.
  { unfold whites. etrans; [apply length_filter|]. unfold all_white. by rewrite length_map. }
  specialize (H Hg Hw). unfold dfs_post in H. destruct (dfs_any succ depth nodes (all_white nodes)) as [[b|e] c]; [|done].
  exists b. split; [done|]. destruct b.
  - done.
  - destruct H as ((_ & _ & Hb) & _ & Hn). intros x Htc. apply (Hb x); [|done].
    apply Hn. destruct (decide (x ∈ nodes)) as [|Hx]; [done|]. apply tc_first in Htc as (y & Hy & _).
    unfold edge in Hy. rewrite (Hout x Hx) in Hy. by apply not_elem_of_nil in Hy.
Qed.

(** Elimination by in-degree *******************************************************)

Definition occ (v : string) (l : list string) : nat := length (filter (fun x => x = v) l).

Lemma occ_cons v x l : occ v (x :: l) = (if decide (x = v) then 1 else 0) + occ v l.
Proof. unfold occ. rewrite filter_cons. by case_decide. Qed.

Lemma occ_app v l l' : occ v (l ++ l') = occ v l + occ v l'.
Proof. unfold occ. by rewrite filter_app, length_app. Qed.

Lemma occ_perm v l l' : l ≡ₚ l' -> occ v l = occ v l'.
Proof. intros Hp. unfold occ. by rewrite Hp. Qed.

Lemma occ_pos v l : occ v l <> 0 <-> v ∈ l.
Proof.
  induction l as [|x l IH]; [split; [done|intros []%not_elem_of_nil]|]. rewrite occ_cons, elem_of_cons.
  destruct (decide (x = v)) as [->|Hne]; [split; [by left|lia]|]. rewrite <-IH. split; [by right|]. intros [Hx|Hx]; [congruence|done].
Qed.

Lemma count_in_spec ts : forall (d : degrees) (f : string -> nat),
  (forall v, v ∈ ts -> is_Some (od_get v d)) -> (forall v n, od_get v d = Some n -> n = Z.of_nat (f v)) ->
  exists d', count_in ts d = Ret d' /\ forall v, od_get v d' = (fun _ => Z.of_nat (f v + occ v ts)) <$> od_get v d.
Proof.
  induction ts as [|t ts IH]; intros d f Hd Hf.
  { exists d. split; [done|]. intros v. destruct (od_get v d) as [n|] eqn:Hn; [|done]. simpl. f_equal. rewrite (Hf _ _ Hn).
    change (occ v []) with 0. lia. }
  destruct (Hd t) as [n Hn]; [by left|]. simpl. rewrite Hn.
  destruct (IH (od_set t (n + 1)%Z d) (fun v => f v + if decide (t = v) then 1 else 0)) as (d' & -> & Hd').
  - intros v Hv. destruct (decide (t = v)) as [<-|Hne]; [by rewrite od_get_set_eq|]. rewrite od_get_set_ne by done.
    apply Hd. by right.
  - intros v m. destruct (decide (t = v)) as [<-|Hne].
    + rewrite od_get_set_eq. intros [= <-]. rewrite (Hf _ _ Hn). lia.
    + rewrite od_get_set_ne by done. intros Hm%Hf. lia.
  - exists d'. split; [done|]. intros v. rewrite Hd', occ_cons. destruct (decide (t = v)) as [<-|Hne].
    + rewrite od_get_set_eq, Hn. simpl. f_equal. lia.
    + rewrite od_get_set_ne by done. destruct (od_get v d); [|done]. simpl. f_equal. lia.
Qed.

Lemma release_spec ts : forall (d : degrees) (f : string -> nat),
  (forall v, v ∈ ts -> od_get v d = Some (Z.of_nat (occ v ts + f v))) ->
  exists d' zeros, release ts d = Ret (d', zeros) /\
    (forall v, v ∈ ts -> od_get v d' = Some (Z.of_nat (f v))) /\ (forall v, v ∉ ts -> od_get v d' = od_get v d) /\
    NoDup zeros /\ (forall v, v ∈ zeros <-> v ∈ ts /\ f v = 0).
Proof.
  induction ts as [|t ts IH]; intros d f Hd.
  { exists d, []. split; [done|]. split; [by intros v ?%not_elem_of_nil|]. split; [done|]. split; [apply NoDup_nil_2|].
    intros v. split; [by intros ?%not_elem_of_nil|by intros [?%not_elem_of_nil _]]. }
  pose proof (Hd t ltac:(by left)) as Ht. rewrite occ_cons, decide_True in Ht by done. simpl. rewrite Ht.
  set (n := (Z.of_nat (1 + occ t ts + f t) - 1)%Z). assert (n = Z.of_nat (occ t ts + f t)) as Hn by lia.
  destruct (IH (od_set t n d) f) as (d' & zeros & -> & Hin & Hout & Hnd & Hz).
  { intros v Hv. destruct (decide (t = v)) as [<-|Hne]; [rewrite od_get_set_eq; by rewrite Hn|].
    rewrite od_get_set_ne by done. rewrite Hd by by right. by rewrite occ_cons, decide_False. }
  simpl. eexists _, _. split; [done|]. split; [|split; [|split]].
  - intros v Hv. destruct (decide (v ∈ ts)) as [Hvt|Hvt]; [by apply Hin|]. apply elem_of_cons in Hv as [->|]; [|done].
    rewrite Hout, od_get_set_eq by done. f_equal. rewrite Hn.
    destruct (decide (occ t ts = 0)) as [->|Ho]; [lia|]. by apply occ_pos in Ho.
  - intros v Hv. apply not_elem_of_cons in Hv as [Hne Hv]. rewrite Hout by done. by apply od_get_set_ne.
  - destruct (Z.eqb_spec n 0) as [Hn0|]; [|done]. constructor; [|done]. intros [Htt _]%Hz. apply occ_pos in Htt. lia.
  - intros v. destruct (Z.eqb_spec n 0) as [Hn0|Hn0].
    + rewrite !elem_of_cons, Hz. split; [|naive_solver]. intros [->|[Hv Hf]]; [split; [by left|lia]|split; [by right|done]].
    + rewrite elem_of_cons, Hz. split; [naive_solver|]. intros [[->|Hv] Hf]; [|done]. split; [|done]. apply occ_pos. lia.
Qed.

Lemma NoDup_split_unique (w : string) a b a' b' : NoDup (a ++ w :: b) -> a ++ w :: b = a' ++ w :: b' -> a' = a.
Proof.
  revert a'. induction a as [|x a IH]; intros [|x' a'] Hnd Heq; simpl in *; [done| | |].
  - injection Heq as -> Heq. apply NoDup_cons in Hnd as [Hw _]. destruct Hw. rewrite Heq. apply elem_of_app. right. by left.
  - injection Heq as -> _. apply NoDup_cons in Hnd as [Hw _]. destruct Hw. apply elem_of_app. right. by left.
  - injection Heq as -> Heq. apply NoDup_cons in Hnd as [_ Hnd]. f_equal. by apply IH.
Qed.

Section kahn.
Context (succ : string -> list string) (nodes : list string).
Context (nodes_nodup : NoDup nodes) (succ_nodes : forall u v, u ∈ nodes -> v ∈ succ u -> v ∈ nodes).

(** The edges into [v] from nodes that are not done. *)
Definition indeg (done : list string) (v : string) : nat := occ v (filter (fun u => u ∉ done) nodes ≫= succ).

(** Every predecessor of a node of the list is before it. *)
Definition ordered (l : list string) : Prop :=
  forall l1 v l2, l = l1 ++ v :: l2 -> forall u, u ∈ nodes -> v ∈ succ u -> u ∈ l1.

(** What the loops keep: the done nodes in order, and the in-degrees of the others,
    those at zero pending. *)
Record kahn_inv (done pend : list string) (d : degrees) : Prop := {
  ki_done : NoDup done /\ done ⊆ nodes;
  ki_pend : NoDup pend;
  ki_zero : forall v, v ∈ pend <-> v ∈ nodes /\ v ∉ done /\ indeg done v = 0;
  ki_degree : forall v, v ∈ nodes -> od_get v d = Some (Z.of_nat (indeg done v));
  ki_ordered : ordered done
}.

Lemma indeg_zero done u v : indeg done v = 0 -> u ∈ nodes -> v ∈ succ u -> u ∈ done.
Proof.
  intros H0 Hu Hv. destruct (decide (u ∈ done)) as [|Hnot]; [done|]. exfalso.
  assert (indeg done v <> 0) as []; [|done]. apply occ_pos, list_elem_of_bind. exists u. split; [done|].
  by apply list_elem_of_filter.
Qed.

Lemma indeg_step done c v : c ∈ nodes -> c ∉ done -> indeg done v = occ v (succ c) + indeg (done ++ [c]) v.
Proof.
  intros Hc Hnot. unfold indeg.
  assert (filter (fun u => u ∉ done) nodes ≡ₚ c :: filter (fun u => u ∉ done ++ [c]) nodes) as Hp.
  { apply NoDup_Permutation; [by apply NoDup_filter| |].
    - constructor; [|by apply NoDup_filter]. intros [Hin _]%list_elem_of_filter. apply Hin, elem_of_app. right.
      by apply list_elem_of_singleton.
    - intros x. rewrite elem_of_cons, !list_elem_of_filter, elem_of_app, list_elem_of_singleton.
      destruct (decide (x = c)) as [->|]; naive_solver. }
  rewrite (occ_perm v _ _ (bind_Permutation succ _ _ Hp)). simpl. by rewrite occ_app.
Qed.

Lemma kahn_step done c pend d : kahn_inv done (c :: pend) d -> forall ts, ts ≡ₚ succ c ->
  exists d' zeros, release ts d = Ret (d', zeros) /\ kahn_inv (done ++ [c]) (pend ++ zeros) d' /\
    (forall v, v ∈ zeros -> v ∈ succ c).
Proof.
  intros [[Hnd Hsub] Hp Hz Hdeg Hord] ts Hts. destruct (proj1 (Hz c)) as (Hc & Hcd & Hc0); [by left|].
  apply NoDup_cons in Hp as [Hcp Hp]. assert (forall v, occ v ts = occ v (succ c)) as Hocc by (intros v; by apply occ_perm).
  assert (forall v, v ∈ ts <-> v ∈ succ c) as Hin by (intros v; by rewrite Hts).
  destruct (release_spec ts d (indeg (done ++ [c]))) as (d' & zeros & Hr & Hd1 & Hd2 & Hzn & Hzz).
  { intros v Hv. rewrite Hocc, <-indeg_step by done. apply Hdeg. apply (succ_nodes c); [done|]. by apply Hin. }
  exists d', zeros. split; [done|]. assert (c ∉ succ c) as Hcc.
  { intros Hself. by apply Hcd, (indeg_zero done c c). }
  assert (forall v, v ∉ succ c -> indeg (done ++ [c]) v = indeg done v) as Hsame.
  { intros v Hv. rewrite (indeg_step done c v) by done. destruct (decide (occ v (succ c) = 0)) as [->|Ho]; [done|].
    by apply occ_pos in Ho. }
  assert (forall v, v ∈ pend -> v ∉ succ c) as Hps.
  { intros v Hv Hvc. assert (v ∈ c :: pend) as (_ & _ & H0)%Hz by by right. by apply Hcd, (indeg_zero done c v). }
  split; [|intros v [Hv _]%Hzz; by apply Hin]. split.
  - split; [|intros x [Hx|Hx%list_elem_of_singleton]%elem_of_app; [by apply Hsub|by subst]].
    apply NoDup_app. split; [done|]. split; [|apply NoDup_singleton]. intros x Hx Hxc%list_elem_of_singleton. congruence.
  - apply NoDup_app. split; [done|]. split; [|done]. intros x Hx [Hxt _]%Hzz. apply (Hps x Hx). by apply Hin.
  - intros v. rewrite elem_of_app, Hzz, Hin, (not_elem_of_app done), list_elem_of_singleton. split.
    + intros [Hv|[Hv H0]].
      * assert (v ∈ c :: pend) as (Hvn & Hvd & Hv0)%Hz by by right. rewrite Hsame by by apply Hps.
        split; [done|]. split; [|done]. split; [done|]. by intros ->.
      * split; [by apply (succ_nodes c)|]. split; [|done]. split; [|by intros ->].
        intros Hvd. apply list_elem_of_split in Hvd as (l1 & l2 & Heq). apply Hcd. rewrite Heq. apply elem_of_app. left.
        by apply (Hord l1 v l2 Heq c).
    + intros (Hvn & [Hvd Hvc] & H0). destruct (decide (v ∈ succ c)) as [|Hns]; [by right|]. left.
      rewrite Hsame in H0 by done. assert (v ∈ c :: pend) as [|]%elem_of_cons by (by apply Hz); [done|done].
  - intros v Hv. destruct (decide (v ∈ ts)) as [Hvt|Hvt]; [by apply Hd1|]. rewrite Hd2, Hdeg by done.
    rewrite Hsame; [done|]. intros Hvs. apply Hvt. by apply Hin.
  - intros l1 v l2 Heq u Hu Hv. destruct l2 as [|x l2].
    + apply app_inj_tail in Heq as [-> ->]. by apply (indeg_zero l1 u v).
    + destruct (@exists_last _ (x :: l2)) as (l2' & y & Hlast); [done|]. rewrite Hlast in Heq.
      rewrite app_comm_cons, app_assoc in Heq. apply app_inj_tail in Heq as [-> _]. by apply (Hord l1 v l2' eq_refl u).
Qed.

Lemma kahn_inv_perm done pend pend' d : pend ≡ₚ pend' -> kahn_inv done pend d -> kahn_inv done pend' d.
Proof. intros Hp [Hd Hpd Hz Hdeg Hord]. split; [done|by rewrite <-Hp| |done|done]. intros v. by rewrite <-Hp. Qed.

Lemma count_in_keys ts : forall d d', count_in ts d = Ret d' -> od_keys d' = od_keys d.
Proof.
  induction ts as [|t ts IH]; simpl; [by intros d d' [= ->]|]. intros d d'.
  destruct (od_get t d) as [n|] eqn:Hn; [|done]. intros ->%IH. rewrite od_keys_set.
  rewrite decide_True; [done|]. apply od_get_is_Some. by rewrite Hn.
Qed.

Lemma zero_nodes_elem d v : od_wf d -> v ∈ zero_nodes d <-> od_get v d = Some 0%Z.
Proof.
  intros Hwf. unfold zero_nodes. split.
  - intros ([k n] & -> & [Hn Hin]%list_elem_of_filter)%list_elem_of_fmap. simpl in *. subst. by apply od_get_elem.
  - intros Hg. apply list_elem_of_fmap. exists (v, 0%Z). split; [done|]. apply list_elem_of_filter. split; [done|].
    by apply od_get_Some.
Qed.

Lemma zero_nodes_nodup d : od_wf d -> NoDup (zero_nodes d).
Proof.
  unfold od_wf, zero_nodes. induction d as [|[k n] d IH]; [done|]. rewrite filter_cons. intros [Hk Hwf]%NoDup_cons. simpl.
  case_decide; [|by apply IH]. rewrite fmap_cons. constructor; [|by apply IH]. simpl.
  intros (kv & Heq & [_ Hin]%list_elem_of_filter)%list_elem_of_fmap. apply Hk. rewrite Heq. exact (list_elem_of_fmap_2 fst d kv Hin).
Qed.

(** The in-degrees as the classes compute them start the loops. *)
Lemma kahn_start targets : targets ≡ₚ (nodes ≫= succ) ->
  exists d, in_degrees nodes targets = Ret d /\ kahn_inv [] (zero_nodes d) d /\ NoDup (zero_nodes d).
Proof.
  intros Ht. set (d0 := map (fun n => (n, 0%Z)) nodes).
  assert (forall v, od_get v d0 = if decide (v ∈ nodes) then Some 0%Z else None) as Hd0 by (intros v; apply get_fromkeys).
  destruct (count_in_spec targets d0 (fun _ => 0)) as (d & Hd & Hget).
  - intros v Hv. rewrite Hd0, decide_True; [by eexists|]. rewrite Ht in Hv.
    apply list_elem_of_bind in Hv as (u & Hv & Hu). by apply (succ_nodes u).
  - intros v n. rewrite Hd0. case_decide; [|done]. by intros [= <-].
  - exists d. split; [done|]. assert (od_keys d = nodes) as Hkeys.
    { rewrite (count_in_keys _ _ _ Hd). apply keys_fromkeys. }
    assert (od_wf d) as Hwf by (unfold od_wf; by rewrite Hkeys).
    assert (forall v, indeg [] v = occ v targets) as Hin.
    { intros v. unfold indeg. rewrite filter_all by (intros x _; apply not_elem_of_nil). apply occ_perm. by symmetry. }
    assert (forall v, v ∈ nodes -> od_get v d = Some (Z.of_nat (indeg [] v))) as Hdeg.
    { intros v Hv. rewrite Hget, Hd0, decide_True, Hin by done. done. }
    split; [|by apply zero_nodes_nodup]. split.
    + split; [apply NoDup_nil_2|]. by intros x ?%not_elem_of_nil.
    + by apply zero_nodes_nodup.
    + intros v. rewrite zero_nodes_elem by done. split.
      * intros Hv. assert (v ∈ nodes) as Hvn by (rewrite <-Hkeys; apply od_get_is_Some; by rewrite Hv).
        rewrite Hdeg in Hv by done. split; [done|]. split; [apply not_elem_of_nil|]. injection Hv. lia.
      * intros (Hv & _ & H0). by rewrite Hdeg, H0 by done.
    + done.
    + intros l1 v l2 Heq. by destruct l1.
Qed.

(** A list that is ordered and holds every node without pending ones. *)
Definition exhausted (res : list string) : Prop :=
  NoDup res /\ res ⊆ nodes /\ ordered res /\ (forall v, v ∈ nodes -> v ∉ res -> indeg res v <> 0).

Lemma kahn_inv_end done d : kahn_inv done [] d -> exhausted done.
Proof.
  intros [[Hnd Hsub] _ Hz _ Hord]. split; [done|]. split; [done|]. split; [done|]. intros v Hv Hnot H0.
  assert (v ∈ []) as []%not_elem_of_nil. by apply Hz.
Qed.

Lemma kahn_inv_full done pend d : kahn_inv done pend d -> length nodes <= length done -> pend = [].
Proof.
  intros [[Hnd Hsub] _ Hz _ _] Hlen. destruct pend as [|v pend]; [done|]. destruct (proj1 (Hz v)) as (Hv & Hnot & _); [by left|].
  exfalso. apply Hnot. assert (done ≡ₚ nodes) as Hp; [|by rewrite Hp].
  apply submseteq_length_Permutation; [by apply NoDup_submseteq|done].
Qed.

Lemma kahn_spec fuel : forall queue result d, kahn_inv result queue d -> length nodes <= length result + fuel ->
  exists res, kahn succ fuel queue result d = Ret res /\ exhausted res.
Proof.
  induction fuel as [|fuel IH]; intros queue result d Hinv Hf.
  { exists result. split; [done|]. rewrite (kahn_inv_full _ _ _ Hinv) in Hinv by lia. by eapply kahn_inv_end. }
  destruct queue as [|c queue]; [exists result; split; [done|by eapply kahn_inv_end]|].
  destruct (kahn_step result c queue d Hinv (sort_ids (succ c))) as (d' & zeros & Hr & Hinv' & _).
  { apply merge_sort_Permutation. }
  simpl. rewrite Hr. simpl. apply IH.
  - eapply kahn_inv_perm; [|done]. symmetry. apply merge_sort_Permutation.
  - rewrite length_app. simpl. lia.
Qed.

(** The nodes that remain when nothing is pending lie behind a cycle. *)
Lemma exhausted_acyclic res : (forall u, u ∉ nodes -> succ u = []) -> exhausted res ->
  (length res = length nodes <-> acyclic succ) /\ (acyclic succ -> res ≡ₚ nodes).
Proof.
  intros Hout (Hnd & Hsub & Hord & Hrest).
  assert (acyclic succ -> res ≡ₚ nodes) as Hall.
  { intros Ha. apply NoDup_Permutation; [done..|]. intros v. split; [apply Hsub|]. intros Hv.
    destruct (decide (v ∈ res)) as [|Hnot]; [done|]. exfalso.
    destruct (no_source_cycle succ (filter (fun u => u ∉ res) nodes)) as [x Hx]; [| |by apply (Ha x)].
    - intros Hnil. assert (v ∈ filter (fun u => u ∉ res) nodes) as Hin by by apply list_elem_of_filter.
      rewrite Hnil in Hin. by apply not_elem_of_nil in Hin.
    - intros w [Hw Hwn]%list_elem_of_filter. specialize (Hrest w Hwn Hw). apply occ_pos, list_elem_of_bind in Hrest.
      destruct Hrest as (u & Hwu & Hu). by exists u. }
  split; [|done]. split; [|intros Ha; by rewrite (Hall Ha)]. intros Hlen x Htc.
  assert (res ≡ₚ nodes) as Hp by (apply submseteq_length_Permutation; [by apply NoDup_submseteq|lia]).
  assert (forall u v, edge succ u v -> exists l1 l2, res = l1 ++ v :: l2 /\ u ∈ l1) as Hedge.
  { intros u v Huv. assert (u ∈ nodes) as Hu.
    { destruct (decide (u ∈ nodes)) as [|Hnu]; [done|]. unfold edge in Huv. rewrite (Hout u Hnu) in Huv.
      by apply not_elem_of_nil in Huv. }
    assert (v ∈ res) as (l1 & l2 & Heq)%list_elem_of_split by (rewrite Hp; by apply (succ_nodes u)).
    exists l1, l2. split; [done|]. by apply (Hord l1 v l2). }
  assert (forall u v, tc (edge succ) u v -> exists l1 l2, res = l1 ++ v :: l2 /\ u ∈ l1) as Hpath.
  { intros u v Huv. induction Huv as [u v Huv|u w v Huw Hwv (l1 & l2 & Heq & Hw)]; [by apply Hedge|].
    exists l1, l2. split; [done|]. destruct (Hedge u w Huw) as (m1 & m2 & Heq' & Hu).
    apply list_elem_of_split in Hw as (a & b & ->). rewrite <-app_assoc in Heq. simpl in Heq.
    rewrite Heq in Heq', Hnd. assert (m1 = a) as ->.
    { apply (NoDup_split_unique w _ _ _ _ Hnd Heq'). }
    apply elem_of_app. by left. }
  destruct (Hpath x x Htc) as (l1 & l2 & Heq & Hin). rewrite Heq in Hnd. apply NoDup_app in Hnd as (_ & Hd & _).
  apply (Hd x Hin). by left.
Qed.

(** The loop over levels, on targets in any order. *)
Context (tgts : string -> list string) (tgts_succ : forall u, tgts u ≡ₚ succ u).

Lemma release_level_spec level : forall result later d, kahn_inv result (level ++ later) d ->
  exists d' zeros, release_level tgts level d = Ret (d', zeros) /\ kahn_inv (result ++ level) (later ++ zeros) d' /\
    (forall v, v ∈ zeros -> exists u, u ∈ level /\ v ∈ succ u).
Proof.
  induction level as [|c level IH]; intros result later d Hinv.
  { exists d, []. rewrite !app_nil_r. split; [done|]. split; [done|]. by intros v ?%not_elem_of_nil. }
  simpl in Hinv. destruct (kahn_step result c (level ++ later) d Hinv (tgts c) (tgts_succ c)) as (d1 & z1 & Hr & Hinv1 & Hz1).
  rewrite <-app_assoc in Hinv1. destruct (IH _ _ _ Hinv1) as (d2 & z2 & Hr2 & Hinv2 & Hz2).
  exists d2, (z1 ++ z2). simpl. rewrite Hr. simpl. rewrite Hr2. split; [done|]. split.
  - rewrite <-!app_assoc in Hinv2. done.
  - intros v [Hv|Hv]%elem_of_app; [|destruct (Hz2 v Hv) as (u & Hu & Huv); exists u; split; [by right|done]].
    exists c. split; [by left|by apply Hz1].
Qed.

(** The groups, from what is done: each node after the groups of its predecessors,
    and right after one of them. *)
Fixpoint layered (result previous : list string) (groups : list (list string)) : Prop :=
  match groups with
  | [] => True
  | g :: groups =>
      g <> [] /\
      (forall u v, v ∈ g -> u ∈ nodes -> v ∈ succ u -> u ∈ result) /\
      (result <> [] -> forall v, v ∈ g -> exists u, u ∈ previous /\ v ∈ succ u) /\
      layered (result ++ g) g groups
  end.

Lemma levels_spec fuel : forall level previous result d, kahn_inv result level d -> length nodes <= length result + fuel ->
  (result <> [] -> forall v, v ∈ level -> exists u, u ∈ previous /\ v ∈ succ u) ->
  exists groups, levels tgts fuel level d = Ret groups /\ exhausted (result ++ concat groups) /\
    layered result previous groups.
Proof.
  induction fuel as [|fuel IH]; intros level previous result d Hinv Hf Hprev.
  { exists []. simpl. rewrite app_nil_r. split; [done|]. split; [|done].
    rewrite (kahn_inv_full _ _ _ Hinv) in Hinv by lia. by eapply kahn_inv_end. }
  destruct level as [|c level].
  { exists []. simpl. rewrite app_nil_r. split; [done|]. split; [by eapply kahn_inv_end|done]. }
  cbn [levels]. destruct (release_level_spec (c :: level) result [] d) as (d' & zeros & Hr & Hinv' & Hz); [by rewrite app_nil_r|].
  rewrite Hr. simpl. simpl in Hinv'.
  assert (sorted_set zeros ≡ₚ zeros) as Hs.
  { apply NoDup_Permutation; [apply NoDup_sorted_set|by apply (ki_pend _ _ _ Hinv')|]. intros v. apply elem_of_sorted_set. }
  destruct (IH (sorted_set zeros) (c :: level) (result ++ c :: level) d') as (groups & -> & Hex & Hlay).
  - eapply kahn_inv_perm; [|done]. by symmetry.
  - rewrite length_app. simpl. lia.
  - intros _ v Hv. apply Hz. by apply elem_of_sorted_set.
  - exists ((c :: level) :: groups). split; [done|]. split; [by rewrite <-app_assoc in Hex|].
    split; [done|]. split; [|done]. intros u v Hv Hu Hvu. apply (ki_zero _ _ _ Hinv) in Hv as (_ & _ & H0).
    by apply (indeg_zero result u v).
Qed.
End kahn.
