(* ===== verification/Contracts.v ===== *)
(** * Kernel contracts

    The data types of [agent_kernel/kernel/contracts.py] the components share:
    string enumerations as inductive types with their text, frozen dataclasses
    as records with the fields in source order. *)

From stdpp Require Import base tactics option list strings.
From S2P Require Import Prelude PyStr PyDict PyVal.

Inductive RunLifecycleState :=
  | ls_created | ls_ready | ls_dispatching | ls_waiting_result | ls_waiting_external
  | ls_recovering | ls_completed | ls_failed | ls_aborted.

Inductive EffectClass := READ_ONLY | IDEMPOTENT_WRITE | COMPENSATABLE_WRITE | IRREVERSIBLE_WRITE.

(** The text of a [StrEnum] member. *)
Definition effect_str (e : EffectClass) : string :=
  match e with
  | READ_ONLY => "read_only"
  | IDEMPOTENT_WRITE => "idempotent_write"
  | COMPENSATABLE_WRITE => "compensatable_write"
  | IRREVERSIBLE_WRITE => "irreversible_write"
  end.

Inductive ExternalIdempotencyLevel := lvl_guaranteed | lvl_best_effort | lvl_unknown.

Inductive RecoveryMode :=
  | static_compensation | human_escalation | abort | reflect_and_retry.

Definition mode_str (m : RecoveryMode) : string :=
  match m with
  | static_compensation => "static_compensation"
  | human_escalation => "human_escalation"
  | abort => "abort"
  | reflect_and_retry => "reflect_and_retry"
  end.

Inductive InteractionTarget :=
  | agent_peer | it_service | data_system | tool_executor | human_actor | event_stream.

Inductive SideEffectClass :=
  | se_read_only | se_local_write | se_external_write | se_irreversible_submit.

Inductive EventClass := ec_fact | ec_derived.
Inductive EventAuthority := authoritative_fact | derived_replayable | derived_diagnostic.
Inductive WakePolicy := wake_actor | projection_only.

Record RuntimeEvent := mkRuntimeEvent {
  ev_run_id : string;
  ev_event_id : string;
  ev_commit_offset : Z;
  ev_event_type : string;
  ev_event_class : EventClass;
  ev_event_authority : EventAuthority;
  ev_ordering_key : string;
  ev_wake_policy : WakePolicy;
  ev_created_at : string;
  ev_idempotency_key : option string;
  ev_payload_ref : option string;
  ev_payload_json : option (odict string pyval);
  ev_schema_version : string
}.

Record Action := mkAction {
  act_action_id : string;
  act_run_id : string;
  act_action_type : string;
  act_effect_class : EffectClass;
  act_external_idempotency_level : option ExternalIdempotencyLevel;
  act_interaction_target : option InteractionTarget;
  act_input_ref : option string;
  act_input_json : option (odict string pyval);
  act_policy_tags : list string;
  act_timeout_ms : option Z;
  act_side_effect_class : option SideEffectClass
}.

Inductive HostKind :=
  | local_process | local_cli | cli_process | in_process_python | remote_service.

Definition host_str (h : HostKind) : string :=
  match h with
  | local_process => "local_process"
  | local_cli => "local_cli"
  | cli_process => "cli_process"
  | in_process_python => "in_process_python"
  | remote_service => "remote_service"
  end.

Inductive NetworkPolicy := deny_all | allow_list | allow_all.

Record SandboxGrant := mkSandboxGrant {
  sg_grant_ref : string;
  sg_host_kind : HostKind;
  sg_sandbox_profile_ref : option string;
  sg_allowed_mounts : list string;
  sg_denied_mounts : list string;
  sg_network_policy : NetworkPolicy;
  sg_allowed_hosts : list string
}.

Record ExecutionContext := mkExecutionContext {
  xc_run_id : string;
  xc_action_id : string;
  xc_causation_id : option string;
  xc_correlation_id : option string;
  xc_lineage_id : option string;
  xc_capability_snapshot_ref : option string;
  xc_capability_snapshot_hash : option string;
  xc_context_binding_ref : option string;
  xc_grant_ref : option string;
  xc_policy_snapshot_ref : option string;
  xc_rule_bundle_hash : option string;
  xc_declarative_bundle_digest : option (odict string string);
  xc_timeout_ms : option Z;
  xc_budget_ref : option string;
  xc_trace_context : option string
}.

Record ActionCommit := mkActionCommit {
  ac_run_id : string;
  ac_commit_id : string;
  ac_events : list RuntimeEvent;
  ac_created_at : string;
  ac_action : option Action;
  ac_caused_by : option string
}.

Record RunPolicyVersions := mkRunPolicyVersions {
  pv_route_policy_version : option string;
  pv_acceptance_policy_version : option string;
  pv_memory_policy_version : option string;
  pv_skill_policy_version : option string;
  pv_evaluation_policy_version : option string;
  pv_task_view_policy_version : option string;
  pv_pinned_at : string
}.

Record RunProjection := mkRunProjection {
  rp_run_id : string;
  rp_lifecycle_state : RunLifecycleState;
  rp_projected_offset : Z;
  rp_waiting_external : bool;
  rp_ready_for_dispatch : bool;
  rp_current_action_id : option string;
  rp_recovery_mode : option RecoveryMode;
  rp_recovery_reason : option string;
  rp_active_child_runs : list string;
  rp_policy_versions : option RunPolicyVersions;
  rp_task_contract_ref : option string
}.

Inductive ReasonCode :=
  | rc_ok | rc_permission_denied | rc_quota_exceeded | rc_policy_denied
  | rc_dependency_not_ready | rc_stale_policy | rc_idempotency_contract_insufficient.

Record AdmissionResult := mkAdmissionResult {
  ar_admitted : bool;
  ar_reason_code : ReasonCode;
  ar_expires_at : option string;
  ar_grant_ref : option string;
  ar_policy_snapshot_ref : option string;
  ar_sandbox_grant : option SandboxGrant;
  ar_idempotency_envelope : option (odict string pyval)
}.

Record CircuitBreakerPolicy := mkCircuitBreakerPolicy {
  cb_threshold : Z;
  cb_half_open_after_ms : Z
}.

Record RecoveryDecision := mkRecoveryDecision {
  rd_run_id : string;
  rd_mode : RecoveryMode;
  rd_reason : string;
  rd_compensation_action_id : option string;
  rd_escalation_channel_ref : option string;
  rd_corrected_action : option Action;
  rd_retry_after_ms : option Z;
  rd_failure_count : Z
}.

Inductive FailedStage :=
  | stage_admission | stage_execution | stage_verification | stage_reconciliation | stage_callback.

Inductive FailureClass :=
  | fc_deterministic | fc_transient | fc_policy | fc_side_effect | fc_unknown.

Inductive FailureEvidenceSource :=
  | src_external_ack_ref | src_evidence_ref | src_local_inference | src_none.

Inductive Retryability := retryable | non_retryable | retry_unknown.

Record FailureEnvelope := mkFailureEnvelope {
  fe_run_id : string;
  fe_action_id : option string;
  fe_failed_stage : FailedStage;
  fe_failed_component : string;
  fe_failure_code : string;
  fe_failure_class : FailureClass;
  fe_evidence_ref : option string;
  fe_external_ack_ref : option string;
  fe_local_inference : option string;
  fe_evidence_priority_source : FailureEvidenceSource;
  fe_evidence_priority_ref : option string;
  fe_retryability : Retryability;
  fe_compensation_hint : option string;
  fe_human_escalation_hint : option string;
  fe_trace_failure_code : option string
}.

Inductive PeerRetryModel := prm_unknown | at_most_once | at_least_once | exactly_once_claimed.
Inductive RemoteRetryPolicy := no_auto_retry | bounded_retry.

Record RemoteServiceIdempotencyContract := mkRemoteContract {
  rs_accepts_dispatch_idempotency_key : bool;
  rs_returns_stable_ack : bool;
  rs_peer_retry_model : PeerRetryModel;
  rs_default_retry_policy : RemoteRetryPolicy
}.

Record ReflectionPolicy := mkReflectionPolicy {
  rf_max_rounds : Z;
  rf_reflection_timeout_ms : Z;
  rf_reflectable_failure_kinds : list string;
  rf_non_reflectable_failure_kinds : list string;
  rf_escalate_on_exhaustion : bool
}.

(** [ReflectionPolicy.is_reflectable] *)
Definition is_reflectable (p : ReflectionPolicy) (failure_kind : string) : bool :=
  if bool_decide (failure_kind ∈ rf_non_reflectable_failure_kinds p) then false
  else bool_decide (failure_kind ∈ rf_reflectable_failure_kinds p).

(** Decidable equality ************************************************************)

#[export] Instance RunLifecycleState_eq_dec : EqDecision RunLifecycleState.
Proof. solve_decision. Defined.
#[export] Instance EffectClass_eq_dec : EqDecision EffectClass.
Proof. solve_decision. Defined.
#[export] Instance ExternalIdempotencyLevel_eq_dec : EqDecision ExternalIdempotencyLevel.
Proof. solve_decision. Defined.
#[export] Instance RecoveryMode_eq_dec : EqDecision RecoveryMode.
Proof. solve_decision. Defined.
#[export] Instance EventAuthority_eq_dec : EqDecision EventAuthority.
Proof. solve_decision. Defined.
#[export] Instance HostKind_eq_dec : EqDecision HostKind.
Proof. solve_decision. Defined.
#[export] Instance ReasonCode_eq_dec : EqDecision ReasonCode.
Proof. solve_decision. Defined.

#[export] Instance effect_str_inj : Inj (=) (=) effect_str.
Proof. by intros [] []. Qed.
#[export] Instance host_str_inj : Inj (=) (=) host_str.
Proof. by intros [] []. Qed.
