(* ===== verification/DedupeStore.v ===== *)
(** * Dispatch idempotency ledger ([agent_kernel/kernel/dedupe_store.py])

    One record per dispatch key, moving through
    [reserved -> dispatched -> acknowledged -> succeeded] or
    [dispatched -> unknown_effect].  The file holds the data, the port every
    store implements ([DedupeStorePort], a class), the abstract ledger the
    port promises ([LedgerSpec]) with the laws of a faithful store
    ([DedupeStoreLaws]), the in-memory store and the proof that it is one.
    Clients (the turn engine) are verified against the laws. *)

From stdpp Require Import base tactics option list strings gmap.
From S2P Require Import Prelude PyStr PyDict Contracts.

Inductive DedupeState := reserved | dispatched | acknowledged | succeeded | unknown_effect.

Definition state_str (s : DedupeState) : string :=
  match s with
  | reserved => "reserved"
  | dispatched => "dispatched"
  | acknowledged => "acknowledged"
  | succeeded => "succeeded"
  | unknown_effect => "unknown_effect"
  end.

Record IdempotencyEnvelope := mkEnvelope {
  env_dispatch_idempotency_key : string;
  env_operation_fingerprint : string;
  env_attempt_seq : Z;
  env_effect_scope : string;
  env_capability_snapshot_hash : string;
  env_host_kind : HostKind;
  env_peer_operation_id : option string;
  env_policy_snapshot_ref : option string;
  env_rule_bundle_hash : option string
}.

Record DedupeRecord := mkRecord {
  dr_dispatch_idempotency_key : string;
  dr_operation_fingerprint : string;
  dr_attempt_seq : Z;
  dr_state : DedupeState;
  dr_peer_operation_id : option string;
  dr_external_ack_ref : option string
}.

Inductive ReservationReason := duplicate | reason_reserved | accepted_reason.

Record DedupeReservation := mkReservation {
  rv_accepted : bool;
  rv_reason : ReservationReason;
  rv_existing_record : option DedupeRecord
}.

(** [DedupeReservation(accepted=True, reason="accepted")] *)
Definition reservation_accepted : DedupeReservation := mkReservation true accepted_reason None.

(** [DedupeReservation(accepted=False, reason="duplicate", existing_record=r)] *)
Definition reservation_duplicate (r : DedupeRecord) : DedupeReservation :=
  mkReservation false duplicate (Some r).

#[export] Instance DedupeState_eq_dec : EqDecision DedupeState.
Proof. solve_decision. Defined.
#[export] Instance DedupeRecord_eq_dec : EqDecision DedupeRecord.
Proof. solve_decision. Defined.

Definition cannot_transition (from to : DedupeState) : exn :=
  DedupeStoreStateError ("Cannot transition " +:+ state_str from +:+ " -> " +:+ state_str to +:+ ".").

Definition unknown_key (key : string) : exn :=
  DedupeStoreStateError ("Unknown dispatch_idempotency_key: " +:+ key +:+ ".").

(** The port *****************************************************************)

Class DedupeStorePort (S : Type) := {
  ds_reserve : IdempotencyEnvelope -> PyM S DedupeReservation;
  ds_mark_dispatched : string -> option string -> PyM S unit;
  ds_mark_acknowledged : string -> option string -> PyM S unit;
  ds_mark_succeeded : string -> option string -> PyM S unit;
  ds_mark_unknown_effect : string -> PyM S unit;
  ds_reserve_and_dispatch : IdempotencyEnvelope -> option string -> PyM S DedupeReservation;
  ds_get : string -> PyM S (option DedupeRecord);
  ds_count_by_run : string -> PyM S nat
}.

(** The in-memory store ******************************************************)

Module InMemory.

(** [self._records_by_key] *)
Abbreviation store := (odict string DedupeRecord).

Definition get (key : string) : PyM store (option DedupeRecord) :=
  d ← py_get; mret (od_get key d).

Definition _get_required_record (key : string) : PyM store DedupeRecord :=
  d ← py_get;
  match od_get key d with
  | None => py_raise (unknown_key key)
  | Some record => mret record
  end.

Definition reserve (envelope : IdempotencyEnvelope) : PyM store DedupeReservation :=
  existing ← get (env_dispatch_idempotency_key envelope);
  match existing with
  | Some existing_record => mret (reservation_duplicate existing_record)
  | None =>
      _ ← py_modify (od_set (env_dispatch_idempotency_key envelope)
             (mkRecord (env_dispatch_idempotency_key envelope)
                       (env_operation_fingerprint envelope)
                       (env_attempt_seq envelope)
                       reserved
                       (env_peer_operation_id envelope)
                       None));
      mret reservation_accepted
  end.

Definition mark_dispatched (key : string) (peer_operation_id : option string) : PyM store unit :=
  record ← _get_required_record key;
  if decide (dr_state record ∈ [reserved; dispatched]) then
    py_modify (od_set key
      (mkRecord (dr_dispatch_idempotency_key record) (dr_operation_fingerprint record)
                (dr_attempt_seq record) dispatched
                (py_or peer_operation_id (dr_peer_operation_id record))
                (dr_external_ack_ref record)))
  else py_raise (cannot_transition (dr_state record) dispatched).

Definition mark_acknowledged (key : string) (external_ack_ref : option string) : PyM store unit :=
  record ← _get_required_record key;
  if decide (dr_state record ∈ [dispatched; acknowledged]) then
    py_modify (od_set key
      (mkRecord (dr_dispatch_idempotency_key record) (dr_operation_fingerprint record)
                (dr_attempt_seq record) acknowledged
                (dr_peer_operation_id record)
                (py_or external_ack_ref (dr_external_ack_ref record))))
  else py_raise (cannot_transition (dr_state record) acknowledged).

Definition mark_succeeded (key : string) (external_ack_ref : option string) : PyM store unit :=
  record ← _get_required_record key;
  if decide (dr_state record ∈ [acknowledged; succeeded]) then
    py_modify (od_set key
      (mkRecord (dr_dispatch_idempotency_key record) (dr_operation_fingerprint record)
                (dr_attempt_seq record) succeeded
                (dr_peer_operation_id record)
                (py_or external_ack_ref (dr_external_ack_ref record))))
  else py_raise (cannot_transition (dr_state record) succeeded).

Definition mark_unknown_effect (key : string) : PyM store unit :=
  record ← _get_required_record key;
  if decide (dr_state record ∈ [dispatched; unknown_effect]) then
    py_modify (od_set key
      (mkRecord (dr_dispatch_idempotency_key record) (dr_operation_fingerprint record)
                (dr_attempt_seq record) unknown_effect
                (dr_peer_operation_id record)
                (dr_external_ack_ref record)))
  else py_raise (cannot_transition (dr_state record) unknown_effect).

Definition reserve_and_dispatch (envelope : IdempotencyEnvelope)
    (peer_operation_id : option string) : PyM store DedupeReservation :=
  existing ← get (env_dispatch_idempotency_key envelope);
  match existing with
  | Some existing_record => mret (reservation_duplicate existing_record)
  | None =>
      _ ← py_modify (od_set (env_dispatch_idempotency_key envelope)
             (mkRecord (env_dispatch_idempotency_key envelope)
                       (env_operation_fingerprint envelope)
                       (env_attempt_seq envelope)
                       dispatched
                       (py_or peer_operation_id (env_peer_operation_id envelope))
                       None));
      mret reservation_accepted
  end.

(** [sum(1 for key in self._records_by_key if key.startswith(run_id))] *)
Definition count_by_run (run_id : string) : PyM store nat :=
  d ← py_get; mret (length (filter (fun key => startswith key run_id = true) (od_keys d))).

End InMemory.

#[export] Instance InMemory_port : DedupeStorePort InMemory.store := {|
  ds_reserve := InMemory.reserve;
  ds_mark_dispatched := InMemory.mark_dispatched;
  ds_mark_acknowledged := InMemory.mark_acknowledged;
  ds_mark_succeeded := InMemory.mark_succeeded;
  ds_mark_unknown_effect := InMemory.mark_unknown_effect;
  ds_reserve_and_dispatch := InMemory.reserve_and_dispatch;
  ds_get := InMemory.get;
  ds_count_by_run := InMemory.count_by_run
|}.

(** The abstract ledger ******************************************************)

Abbreviation ledger := (gmap string DedupeRecord).

(** The transitions the store lets a record make. *)
Definition may_mark (target from : DedupeState) : bool :=
  match target with
  | reserved => false
  | dispatched => bool_decide (from ∈ [reserved; dispatched])
  | acknowledged => bool_decide (from ∈ [dispatched; acknowledged])
  | succeeded => bool_decide (from ∈ [acknowledged; succeeded])
  | unknown_effect => bool_decide (from ∈ [dispatched; unknown_effect])
  end.

Module LedgerSpec.

(** Claim the key of an envelope, in state [st]; a present key is a duplicate. *)
Definition claim (st : DedupeState) (peer : option string) (env : IdempotencyEnvelope)
    (m : ledger) : outcome DedupeReservation * ledger :=
  let key := env_dispatch_idempotency_key env in
  match m !! key with
  | Some r => (Ret (reservation_duplicate r), m)
  | None => (Ret reservation_accepted,
             <[key := mkRecord key (env_operation_fingerprint env) (env_attempt_seq env)
                        st peer None]> m)
  end.

(** Move the record of a key to [target], merging a peer or acknowledgement reference. *)
Definition mark (target : DedupeState) (peer ack : option string) (key : string)
    (m : ledger) : outcome unit * ledger :=
  match m !! key with
  | None => (Raise (unknown_key key), m)
  | Some r =>
      if may_mark target (dr_state r) then
        (Ret tt, <[key := mkRecord (dr_dispatch_idempotency_key r) (dr_operation_fingerprint r)
                            (dr_attempt_seq r) target
                            (py_or peer (dr_peer_operation_id r))
                            (py_or ack (dr_external_ack_ref r))]> m)
      else (Raise (cannot_transition (dr_state r) target), m)
  end.

Definition lookup (key : string) (m : ledger) : outcome (option DedupeRecord) * ledger :=
  (Ret (m !! key), m).

End LedgerSpec.

(** An operation of a store does what the abstract one does, or the store is
    unavailable: it raises an exception of its own and the ledger is unchanged. *)
Definition implements {S A} (view : S -> ledger) (wf : S -> Prop) (unavailable : exn -> Prop)
    (op : PyM S A) (spec : ledger -> outcome A * ledger) : Prop :=
  forall s, wf s ->
    wf (op s).2 /\
    (((op s).1, view (op s).2) = spec (view s) \/
     exists e, (op s).1 = Raise e /\ unavailable e /\ view (op s).2 = view s).

(** What the port promises to its clients. *)
Class DedupeStoreLaws (S : Type) `{DedupeStorePort S} := {
  ds_view : S -> ledger;
  ds_wf : S -> Prop;
  ds_unavailable : exn -> Prop;
  ds_unavailable_is_exception : forall e, ds_unavailable e -> is_exception e = true;
  ds_unavailable_not_state : forall msg, ~ ds_unavailable (DedupeStoreStateError msg);
  ds_reserve_law : forall env, implements ds_view ds_wf ds_unavailable
    (ds_reserve env) (LedgerSpec.claim reserved (env_peer_operation_id env) env);
  ds_reserve_and_dispatch_law : forall env peer, implements ds_view ds_wf ds_unavailable
    (ds_reserve_and_dispatch env peer)
    (LedgerSpec.claim dispatched (py_or peer (env_peer_operation_id env)) env);
  ds_mark_dispatched_law : forall key peer, implements ds_view ds_wf ds_unavailable
    (ds_mark_dispatched key peer) (LedgerSpec.mark dispatched peer None key);
  ds_mark_acknowledged_law : forall key ack, implements ds_view ds_wf ds_unavailable
    (ds_mark_acknowledged key ack) (LedgerSpec.mark acknowledged None ack key);
  ds_mark_succeeded_law : forall key ack, implements ds_view ds_wf ds_unavailable
    (ds_mark_succeeded key ack) (LedgerSpec.mark succeeded None ack key);
  ds_mark_unknown_effect_law : forall key, implements ds_view ds_wf ds_unavailable
    (ds_mark_unknown_effect key) (LedgerSpec.mark unknown_effect None None key);
  ds_get_law : forall key, implements ds_view ds_wf ds_unavailable
    (ds_get key) (LedgerSpec.lookup key)
}.

(** Commands, to state properties of whole histories of a store. *)
Inductive ledger_cmd :=
  | CReserve (env : IdempotencyEnvelope)
  | CReserveAndDispatch (env : IdempotencyEnvelope) (peer : option string)
  | CMarkDispatched (key : string) (peer : option string)
  | CMarkAcknowledged (key : string) (ack : option string)
  | CMarkSucceeded (key : string) (ack : option string)
  | CMarkUnknownEffect (key : string)
  | CGet (key : string).

(** What a command answers: a reservation for the claiming ones. *)
Definition run_cmd {S} `{DedupeStorePort S} (c : ledger_cmd) : PyM S (option DedupeReservation) :=
  match c with
  | CReserve env => r ← ds_reserve env; mret (Some r)
  | CReserveAndDispatch env peer => r ← ds_reserve_and_dispatch env peer; mret (Some r)
  | CMarkDispatched key peer => _ ← ds_mark_dispatched key peer; mret None
  | CMarkAcknowledged key ack => _ ← ds_mark_acknowledged key ack; mret None
  | CMarkSucceeded key ack => _ ← ds_mark_succeeded key ack; mret None
  | CMarkUnknownEffect key => _ ← ds_mark_unknown_effect key; mret None
  | CGet key => _ ← ds_get key; mret None
  end.

(** What the ledger answers to a command. *)
Definition spec_cmd (c : ledger_cmd) (m : ledger) : outcome (option DedupeReservation) * ledger :=
  match c with
  | CReserve env =>
      prod_map (fmap Some) id (LedgerSpec.claim reserved (env_peer_operation_id env) env m)
  | CReserveAndDispatch env peer =>
      prod_map (fmap Some) id
        (LedgerSpec.claim dispatched (py_or peer (env_peer_operation_id env)) env m)
  | CMarkDispatched key peer =>
      prod_map (fmap (const None)) id (LedgerSpec.mark dispatched peer None key m)
  | CMarkAcknowledged key ack =>
      prod_map (fmap (const None)) id (LedgerSpec.mark acknowledged None ack key m)
  | CMarkSucceeded key ack =>
      prod_map (fmap (const None)) id (LedgerSpec.mark succeeded None ack key m)
  | CMarkUnknownEffect key =>
      prod_map (fmap (const None)) id (LedgerSpec.mark unknown_effect None None key m)
  | CGet key => prod_map (fmap (const None)) id (LedgerSpec.lookup key m)
  end.

(** The key a claiming command claims. *)
Definition claimed_key (c : ledger_cmd) : option string :=
  match c with
  | CReserve env | CReserveAndDispatch env _ => Some (env_dispatch_idempotency_key env)
  | _ => None
  end.

(** The key a command marks. *)
Definition marked_key (c : ledger_cmd) : option string :=
  match c with
  | CMarkDispatched key _ | CMarkAcknowledged key _ | CMarkSucceeded key _ | CMarkUnknownEffect key => Some key
  | _ => None
  end.

(** A history: each command runs on the store the previous one left, whether it
    returned or raised. Gives the answers, in order, and the last store. *)
Fixpoint run_cmds {S} `{DedupeStorePort S} (cs : list ledger_cmd) (s : S)
    : list (ledger_cmd * outcome (option DedupeReservation)) * S :=
  match cs with
  | [] => ([], s)
  | c :: cs' =>
      let '(r, s') := run_cmd c s in
      let '(rs, s'') := run_cmds cs' s' in
      ((c, r) :: rs, s'')
  end.

(** Whether an answer grants the key [k]. *)
Definition grants (k : string) (cr : ledger_cmd * outcome (option DedupeReservation)) : bool :=
  match cr with
  | (c, Ret (Some rv)) => rv_accepted rv && bool_decide (claimed_key c = Some k)
  | _ => false
  end.

(** One move of the documented life cycle. *)
Inductive lifecycle_step : DedupeState -> DedupeState -> Prop :=
  | ls_dispatch : lifecycle_step reserved dispatched
  | ls_ack : lifecycle_step dispatched acknowledged
  | ls_succeed : lifecycle_step acknowledged succeeded
  | ls_unknown : lifecycle_step dispatched unknown_effect.

(** A later version of a record: same identity, a state reached by moves. *)
Definition record_le (r r' : DedupeRecord) : Prop :=
  dr_dispatch_idempotency_key r' = dr_dispatch_idempotency_key r /\
  dr_operation_fingerprint r' = dr_operation_fingerprint r /\
  dr_attempt_seq r' = dr_attempt_seq r /\
  rtc lifecycle_step (dr_state r) (dr_state r').

Definition ledger_le (m m' : ledger) : Prop :=
  forall k r, m !! k = Some r -> exists r', m' !! k = Some r' /\ record_le r r'.

(** Lemmas *************************************************************************)

#[export] Hint Constructors lifecycle_step : kernel.

#[export] Instance record_le_preorder : PreOrder record_le.
Proof.
  split; [by repeat split|].
  intros [] [] [] (?&?&?&?) (?&?&?&?); simplify_eq/=. repeat split; simpl; [done..|]. by etrans.
Qed.

#[export] Instance ledger_le_preorder : PreOrder ledger_le.
Proof.
  split.
  - intros m k r Hk. by exists r.
  - intros m1 m2 m3 H12 H23 k r Hk.
    destruct (H12 k r Hk) as (r' & Hk' & Hr). destruct (H23 k r' Hk') as (r'' & Hk'' & Hr').
    exists r''. split; [done|]. by etrans.
Qed.

Lemma may_mark_step target from :
  may_mark target from = true -> rtc lifecycle_step from target.
Proof.
  destruct target, from; simpl; try done; intros _; eauto using rtc_once with kernel.
Qed.

Lemma ledger_le_insert_new m k r : m !! k = None -> ledger_le m (<[k := r]> m).
Proof.
  intros Hk k' r' Hk'. exists r'. split; [|done]. rewrite lookup_insert_ne; [done|congruence].
Qed.

Lemma ledger_le_insert m k r r' : m !! k = Some r -> record_le r r' -> ledger_le m (<[k := r']> m).
Proof.
  intros Hk Hr k0 r0 Hk0. destruct (decide (k = k0)) as [->|Hne].
  - simplify_eq. exists r'. by rewrite lookup_insert_eq.
  - exists r0. by rewrite lookup_insert_ne.
Qed.

Lemma claim_le st peer env m : ledger_le m (LedgerSpec.claim st peer env m).2.
Proof.
  unfold LedgerSpec.claim. case_match; simpl; [done|]. by apply ledger_le_insert_new.
Qed.

Lemma mark_le target peer ack key m : ledger_le m (LedgerSpec.mark target peer ack key m).2.
Proof.
  unfold LedgerSpec.mark. destruct (m !! key) as [r|] eqn:Hk; [|done].
  destruct (may_mark _ _) eqn:Hm; [|done]. simpl.
  apply (ledger_le_insert _ _ r); [done|]. repeat split; simpl; auto using may_mark_step.
Qed.

(** The in-memory store satisfies the laws, and is never unavailable. *)

Definition mem_view (d : InMemory.store) : ledger := list_to_map d.

Lemma mem_view_get d k : mem_view d !! k = od_get k d.
Proof.
  unfold mem_view. induction d as [|[k' r] d IH]; simpl; [apply lookup_empty|].
  destruct (decide (k = k')) as [->|Hne]; [by rewrite lookup_insert_eq|].
  by rewrite lookup_insert_ne.
Qed.

Lemma mem_view_set d k r : mem_view (od_set k r d) = <[k := r]> (mem_view d).
Proof.
  apply map_eq. intros k'. rewrite mem_view_get. destruct (decide (k = k')) as [->|Hne].
  - by rewrite od_get_set_eq, lookup_insert_eq.
  - by rewrite od_get_set_ne, lookup_insert_ne, mem_view_get.
Qed.

Ltac mem_law :=
  intros; intros d Hwf; rewrite ?mem_view_get;
  cbv [mbind mret PyM_bind PyM_ret py_get py_modify py_raise
       InMemory.reserve InMemory.reserve_and_dispatch InMemory.get InMemory._get_required_record
       InMemory.mark_dispatched InMemory.mark_acknowledged InMemory.mark_succeeded
       InMemory.mark_unknown_effect ds_reserve ds_reserve_and_dispatch ds_mark_dispatched
       ds_mark_acknowledged ds_mark_succeeded ds_mark_unknown_effect ds_get InMemory_port
       LedgerSpec.claim LedgerSpec.mark LedgerSpec.lookup may_mark bool_decide];
  rewrite ?mem_view_get;
  repeat (case_match; simplify_eq/=); rewrite ?mem_view_set; auto with kernel.

Section mem_laws.
Let unavailable : exn -> Prop := fun _ => False.

Lemma mem_reserve_law env : implements mem_view od_wf unavailable
  (InMemory.reserve env) (LedgerSpec.claim reserved (env_peer_operation_id env) env).
Proof. mem_law. Qed.

Lemma mem_reserve_and_dispatch_law env peer : implements mem_view od_wf unavailable
  (InMemory.reserve_and_dispatch env peer)
  (LedgerSpec.claim dispatched (py_or peer (env_peer_operation_id env)) env).
Proof. mem_law. Qed.

Lemma mem_mark_dispatched_law key peer : implements mem_view od_wf unavailable
  (InMemory.mark_dispatched key peer) (LedgerSpec.mark dispatched peer None key).
Proof. mem_law. Qed.

Lemma mem_mark_acknowledged_law key ack : implements mem_view od_wf unavailable
  (InMemory.mark_acknowledged key ack) (LedgerSpec.mark acknowledged None ack key).
Proof. mem_law. Qed.

Lemma mem_mark_succeeded_law key ack : implements mem_view od_wf unavailable
  (InMemory.mark_succeeded key ack) (LedgerSpec.mark succeeded None ack key).
Proof. mem_law. Qed.

Lemma mem_mark_unknown_effect_law key : implements mem_view od_wf unavailable
  (InMemory.mark_unknown_effect key) (LedgerSpec.mark unknown_effect None None key).
Proof. mem_law. Qed.

Lemma mem_get_law key : implements mem_view od_wf unavailable
  (InMemory.get key) (LedgerSpec.lookup key).
Proof. mem_law. Qed.
End mem_laws.

#[export] Instance InMemory_laws : DedupeStoreLaws InMemory.store := {|
  ds_view := mem_view;
  ds_wf := od_wf;
  ds_unavailable := fun _ => False;
  ds_unavailable_is_exception := fun e (H : False) => match H with end;
  ds_unavailable_not_state := fun msg (H : False) => H;
  ds_reserve_law := mem_reserve_law;
  ds_reserve_and_dispatch_law := mem_reserve_and_dispatch_law;
  ds_mark_dispatched_law := mem_mark_dispatched_law;
  ds_mark_acknowledged_law := mem_mark_acknowledged_law;
  ds_mark_succeeded_law := mem_mark_succeeded_law;
  ds_mark_unknown_effect_law := mem_mark_unknown_effect_law;
  ds_get_law := mem_get_law
|}.

(** Facts about every lawful store. *)
Section lawful.
Context {S : Type} `{DedupeStoreLaws S}.

Lemma implements_le {A} (op : PyM S A) spec s :
  implements ds_view ds_wf ds_unavailable op spec ->
  (forall m, ledger_le m (spec m).2) -> ds_wf s ->
  ds_wf (op s).2 /\ ledger_le (ds_view s) (ds_view (op s).2).
Proof.
  intros Himp Hle Hwf. destruct (Himp s Hwf) as [Hwf' [Heq|(e & _ & _ & Hv)]]; (split; [done|]).
  - specialize (Hle (ds_view s)). by rewrite <-Heq in Hle.
  - by rewrite Hv.
Qed.

(** The law of an operation as a weakest precondition. *)
Lemma wp_implements {A} (op : PyM S A) spec s :
  implements ds_view ds_wf ds_unavailable op spec -> ds_wf s ->
  wp op (fun a s' => ds_wf s' /\ spec (ds_view s) = (Ret a, ds_view s'))
    (fun e s' => ds_wf s' /\ (spec (ds_view s) = (Raise e, ds_view s') \/
                              ds_unavailable e /\ ds_view s' = ds_view s)) s.
Proof.
  intros Himp Hwf. destruct (Himp s Hwf) as [Hwf' Hor]. unfold wp.
  destruct (op s) as [[a|e] s']; simpl in *; destruct Hor as [Heq|(e' & He & Hu & Hv)]; simplify_eq;
    auto.
Qed.

(** The state a command leaves does not depend on how its answer is wrapped. *)
Lemma bind_ret_state {A B} (m : PyM S A) (f : A -> B) s :
  ((a ← m; mret (f a)) s : outcome B * S).2 = (m s).2.
Proof. unfold mbind, PyM_bind, mret, PyM_ret. by destruct (m s) as [[]]. Qed.

Lemma implements_fmap {A B} (op : PyM S A) spec (f : A -> B) :
  implements ds_view ds_wf ds_unavailable op spec ->
  implements ds_view ds_wf ds_unavailable (a ← op; mret (f a))
    (fun m => prod_map (fmap f) id (spec m)).
Proof.
  intros Himp s Hwf. rewrite bind_ret_state. destruct (Himp s Hwf) as [Hwf' Hor].
  split; [done|]. destruct Hor as [<-|(e & He & Hu & Hv)].
  - left. unfold mbind, PyM_bind, mret, PyM_ret. by destruct (op s) as [[] s'].
  - right. exists e. split; [|done]. unfold mbind, PyM_bind. by destruct (op s) as [[] s'];
      simplify_eq/=.
Qed.

Lemma run_cmd_implements c :
  implements ds_view ds_wf ds_unavailable (run_cmd c) (spec_cmd c).
Proof.
  destruct c; unfold run_cmd; first [apply (implements_fmap _ _ Some) | apply (implements_fmap _ _ (const None))];
    first [apply ds_reserve_law | apply ds_reserve_and_dispatch_law
          | apply ds_mark_dispatched_law | apply ds_mark_acknowledged_law
          | apply ds_mark_succeeded_law | apply ds_mark_unknown_effect_law
          | apply ds_get_law].
Qed.

Lemma run_cmd_le c s : ds_wf s ->
  ds_wf (run_cmd c s).2 /\ ledger_le (ds_view s) (ds_view (run_cmd c s).2).
Proof.
  intros Hwf. destruct c; unfold run_cmd; rewrite bind_ret_state;
    (eapply implements_le;
      [first [apply ds_reserve_law | apply ds_reserve_and_dispatch_law
             | apply ds_mark_dispatched_law | apply ds_mark_acknowledged_law
             | apply ds_mark_succeeded_law | apply ds_mark_unknown_effect_law
             | apply ds_get_law]
      |intros m; first [apply claim_le | apply mark_le | done]|done]).
Qed.

Lemma claim_grant st peer env (op : PyM S DedupeReservation) s rv :
  implements ds_view ds_wf ds_unavailable op (LedgerSpec.claim st peer env) -> ds_wf s ->
  (op s).1 = Ret rv -> rv_accepted rv = true ->
  ds_view s !! env_dispatch_idempotency_key env = None /\
  exists r, ds_view (op s).2 !! env_dispatch_idempotency_key env = Some r /\ dr_state r = st.
Proof.
  intros Himp Hwf Hr Ha. destruct (Himp s Hwf) as [_ [Heq|(e & He & _)]]; [|congruence].
  unfold LedgerSpec.claim in Heq. rewrite Hr in Heq.
  destruct (ds_view s !! _) as [r|] eqn:Hk; injection Heq as -> HV; [done|].
  split; [done|]. rewrite HV, lookup_insert_eq. by eexists.
Qed.

Lemma grants_none {A} (op : PyM S A) s k c :
  grants k (c, ((_ ← op; mret None) s).1) = false.
Proof. unfold mbind, PyM_bind, mret, PyM_ret. by destruct (op s) as [[]]. Qed.

Lemma grants_some (op : PyM S DedupeReservation) s k c :
  grants k (c, ((r ← op; mret (Some r)) s).1) = true ->
  exists rv, (op s).1 = Ret rv /\ rv_accepted rv = true /\ claimed_key c = Some k.
Proof.
  unfold mbind, PyM_bind, mret, PyM_ret. destruct (op s) as [[rv|e] s']; simpl; [|done].
  intros [Ha Hk%bool_decide_eq_true]%andb_true_iff. eauto.
Qed.

Lemma run_cmd_grant c s k : ds_wf s -> grants k (c, (run_cmd c s).1) = true ->
  ds_view s !! k = None /\ is_Some (ds_view (run_cmd c s).2 !! k).
Proof.
  intros Hwf Hg. destruct c as [env|env peer|key p|key p|key p|key|key];
    unfold run_cmd in *; rewrite ?grants_none in Hg; try done;
    apply grants_some in Hg as (rv & Hr & Ha & Hk); simplify_eq/=; rewrite bind_ret_state.
  - destruct (claim_grant _ _ _ _ s rv (ds_reserve_law env)) as (? & r & ? & _); eauto.
  - destruct (claim_grant _ _ _ _ s rv (ds_reserve_and_dispatch_law env peer))
      as (? & r & ? & _); eauto.
Qed.

Lemma run_cmds_cons c cs s :
  run_cmds (c :: cs) s =
  ((c, (run_cmd c s).1) :: (run_cmds cs (run_cmd c s).2).1, (run_cmds cs (run_cmd c s).2).2).
Proof. simpl. destruct (run_cmd c s) as [r s']. simpl. by destruct (run_cmds cs s'). Qed.

Lemma run_cmds_le cs s : ds_wf s ->
  ds_wf (run_cmds cs s).2 /\ ledger_le (ds_view s) (ds_view (run_cmds cs s).2).
Proof.
  revert s. induction cs as [|c cs IH]; intros s Hwf; [done|].
  rewrite run_cmds_cons. simpl. destruct (run_cmd_le c s Hwf) as [Hwf' Hle].
  destruct (IH _ Hwf') as [Hwf'' Hle']. split; [done|]. by etrans.
Qed.

Lemma run_cmds_grants cs s k : ds_wf s ->
  length (filter (fun cr => grants k cr = true) (run_cmds cs s).1) <=
  match ds_view s !! k with None => 1 | Some _ => 0 end.
Proof.
  revert s. induction cs as [|c cs IH]; intros s Hwf; [simpl; lia|].
  rewrite run_cmds_cons. simpl. destruct (run_cmd_le c s Hwf) as [Hwf' Hle].
  specialize (IH _ Hwf'). rewrite filter_cons. case_decide as Hg; simpl.
  - apply run_cmd_grant in Hg as [-> [r Hr]]; [|done]. rewrite Hr in IH. lia.
  - destruct (ds_view s !! k) as [r|] eqn:Hk; [|by case_match; lia].
    destruct (Hle k r Hk) as (r' & Hr' & _). by rewrite Hr' in IH.
Qed.

(** A present record changes only when its key is marked. *)
Lemma mark_unmarked target peer ack key k m :
  key <> k -> (LedgerSpec.mark target peer ack key m).2 !! k = m !! k.
Proof.
  intros Hne. unfold LedgerSpec.mark. destruct (m !! key); [|done].
  destruct (may_mark _ _); [|done]. simpl. by rewrite lookup_insert_ne.
Qed.

Lemma claim_present st peer env k m : is_Some (m !! k) -> (LedgerSpec.claim st peer env m).2 !! k = m !! k.
Proof.
  intros [r Hr]. unfold LedgerSpec.claim. destruct (m !! env_dispatch_idempotency_key env) eqn:He; [done|].
  simpl. rewrite lookup_insert_ne; [done|congruence].
Qed.

Lemma spec_cmd_unmarked c k m : is_Some (m !! k) -> marked_key c <> Some k -> (spec_cmd c m).2 !! k = m !! k.
Proof.
  intros Hk Hc. destruct c; simpl in *; unfold prod_map; simpl; try (by apply claim_present);
    try (apply mark_unmarked; congruence). done.
Qed.

Lemma run_cmd_unmarked c k s : ds_wf s -> is_Some (ds_view s !! k) -> marked_key c <> Some k ->
  ds_view (run_cmd c s).2 !! k = ds_view s !! k.
Proof.
  intros Hwf Hk Hc. destruct (run_cmd_implements c s Hwf) as [_ [Heq|(e & _ & _ & Hv)]].
  - pose proof (spec_cmd_unmarked c k (ds_view s) Hk Hc) as H1. by rewrite <-Heq in H1.
  - by rewrite Hv.
Qed.

Lemma run_cmds_unmarked cs k s : ds_wf s -> is_Some (ds_view s !! k) ->
  (forall c, c ∈ cs -> marked_key c <> Some k) -> ds_view (run_cmds cs s).2 !! k = ds_view s !! k.
Proof.
  revert s. induction cs as [|c cs IH]; intros s Hwf Hk Hcs; [done|].
  rewrite run_cmds_cons. simpl. destruct (run_cmd_le c s Hwf) as [Hwf' _].
  pose proof (run_cmd_unmarked c k s Hwf Hk ltac:(apply Hcs; by left)) as H1.
  rewrite IH; [done|done|by rewrite H1|]. intros c' Hc'. apply Hcs. by right.
Qed.

(** The grants of a key among answers. *)
Definition grants_for (k : string) (rs : list (ledger_cmd * outcome (option DedupeReservation))) : nat :=
  length (filter (fun cr => grants k cr = true) rs).

Lemma run_cmds_free cs k s : ds_wf s -> ds_view (run_cmds cs s).2 !! k = None ->
  grants_for k (run_cmds cs s).1 = 0.
Proof.
  unfold grants_for. revert s. induction cs as [|c cs IH]; intros s Hwf Hk; [done|].
  rewrite run_cmds_cons in *. simpl in *. destruct (run_cmd_le c s Hwf) as [Hwf' Hle].
  rewrite filter_cons. case_decide as Hg; [|by apply IH]. exfalso.
  apply run_cmd_grant in Hg as [_ [r Hr]]; [|done].
  destruct (run_cmds_le cs _ Hwf') as [_ Hle']. destruct (Hle' _ _ Hr) as (r' & Hr' & _). congruence.
Qed.
End lawful.

(** Properties ********************************************************************)

(** A small history of one key, for the witnesses. *)
Definition example_envelope : IdempotencyEnvelope :=
  mkEnvelope "run-1:act-1:0" "fp" 1 "idempotent_write" "hash" local_cli None None None.

Definition example_history : list ledger_cmd :=
  [CReserveAndDispatch example_envelope (Some "peer-1"); CReserve example_envelope;
   CMarkAcknowledged "run-1:act-1:0" (Some "ack"); CMarkDispatched "run-1:act-1:0" None;
   CMarkSucceeded "run-1:act-1:0" None; CMarkUnknownEffect "run-1:act-1:0"].

(** in every lawful store, whatever sequence of operations is run (failing
    ones included), no record is ever lost, its key, fingerprint and attempt
    number never change, and its state only moves forward along
    reserved -> dispatched -> acknowledged -> succeeded or
    dispatched -> unknown_effect. *)
Theorem dedupe_lifecycle_monotone {S} `{DedupeStoreLaws S} (cs : list ledger_cmd) (s : S) :
  ds_wf s -> ledger_le (ds_view s) (ds_view (run_cmds cs s).2).
Proof. intros Hwf. by apply run_cmds_le. Qed.

Lemma dedupe_lifecycle_monotone_witness :
  ds_wf (run_cmds example_history ([] : InMemory.store)).2 /\
  ledger_le (ds_view (run_cmds (take 1 example_history) ([] : InMemory.store)).2)
    (ds_view (run_cmds (drop 1 example_history)
       (run_cmds (take 1 example_history) ([] : InMemory.store)).2).2).
Proof.
  split; [apply run_cmds_le; constructor|].
  apply (dedupe_lifecycle_monotone (drop 1 example_history)).
  apply run_cmds_le. constructor.
Defined.

(** a dispatch key is granted at most once in the life of a lawful store:
    among the answers of any history, at most one reservation of the key is
    accepted, and none if the store already holds the key. *)
Theorem dedupe_single_grant {S} `{DedupeStoreLaws S} (cs : list ledger_cmd) (s : S) (k : string) :
  ds_wf s ->
  length (filter (fun cr => grants k cr = true) (run_cmds cs s).1) <=
  match ds_view s !! k with None => 1 | Some _ => 0 end.
Proof. apply run_cmds_grants. Qed.

Lemma dedupe_single_grant_witness :
  length (filter (fun cr => grants "run-1:act-1:0" cr = true)
            (run_cmds (example_history ++ example_history) ([] : InMemory.store)).1) <= 1.
Proof.
  eapply Nat.le_trans.
  - apply (dedupe_single_grant (example_history ++ example_history) ([] : InMemory.store)
             "run-1:act-1:0"). constructor.
  - case_match; lia.
Defined.

(** Two calls in sequence: [reserve], then [mark_dispatched] when granted. *)
Definition reserve_then_dispatch (env : IdempotencyEnvelope) (peer : option string) :
    PyM InMemory.store DedupeReservation :=
  r ← InMemory.reserve env;
  if rv_accepted r then
    _ ← InMemory.mark_dispatched (env_dispatch_idempotency_key env) peer; mret r
  else mret r.

(** the atomic [reserve_and_dispatch] gives the answer and the store of
    [reserve] followed by [mark_dispatched], from every store: the two-call
    path can only fail between the calls. *)
Theorem reserve_and_dispatch_equiv (env : IdempotencyEnvelope) (peer : option string)
    (d : InMemory.store) :
  InMemory.reserve_and_dispatch env peer d = reserve_then_dispatch env peer d.
Proof.
  unfold InMemory.reserve_and_dispatch, reserve_then_dispatch, InMemory.reserve,
    InMemory.mark_dispatched, InMemory._get_required_record, InMemory.get.
  py_simpl. destruct (od_get _ d) eqn:Hk; simpl; [done|].
  rewrite od_get_set_eq. simpl. by rewrite od_set_set.
Qed.
