(* ===== verification/SqliteDedupe.v ===== *)
(** * SQLite dispatch ledger
      ([agent_kernel/kernel/persistence/sqlite_dedupe_store.py])

    The connection is a committed table, the working copy of an open
    transaction, and a schedule of statement failures: every [execute]
    consumes one entry of the schedule and raises [OperationalError] when it
    is a fault; a fault may also end the open transaction, as SQLite does on
    a full disk or an I/O error, and the [ROLLBACK] that follows then fails.
    A [ROLLBACK] of an open transaction succeeds.  The store is proved to implement the ledger of [DedupeStore]
    under every schedule: an operation either does what the ledger does or
    raises and leaves the committed rows as they were. *)

From stdpp Require Import base tactics option list strings gmap.
From Stdlib Require Import Ascii.
From S2P Require Import Prelude PyStr PyDict PyVal Contracts DedupeStore.
#[local] Arguments String.append : simpl nomatch.

Module SQLite.

(** The rows of [dedupe_store], in insertion order; the key column is the
    primary key. *)
Abbreviation table := (list DedupeRecord).

(** What happens to a statement: it runs; it fails and the transaction stays
    open ([SQLITE_BUSY]); it fails and the transaction is rolled back
    ([SQLITE_FULL], [SQLITE_IOERR]). *)
Inductive fault := NoFault | Busy | Aborted.

Record conn := mkConn {
  committed : table;
  working : option table;
  failures : list fault
}.

(** The rows the connection sees. *)
Definition visible (c : conn) : table := default (committed c) (working c).

Definition set_visible (t : table) (c : conn) : conn :=
  match working c with
  | Some _ => mkConn (committed c) (Some t) (failures c)
  | None => mkConn t None (failures c)
  end.

(** [conn.execute(...)]: may fail as scheduled. *)
Definition execute {A} (f : PyM conn A) : PyM conn A := fun c =>
  match failures c with
  | Busy :: fs => (Raise (OperationalError "database is locked"), mkConn (committed c) (working c) fs)
  | Aborted :: fs => (Raise (OperationalError "disk I/O error"), mkConn (committed c) None fs)
  | NoFault :: fs => f (mkConn (committed c) (working c) fs)
  | [] => f c
  end.

Definition begin_immediate : PyM conn unit := execute (fun c =>
  match working c with
  | Some _ =>
      (Raise (OperationalError "cannot start a transaction within a transaction"), c)
  | None => (Ret tt, mkConn (committed c) (Some (committed c)) (failures c))
  end).

Definition commit : PyM conn unit := execute (fun c =>
  match working c with
  | Some t => (Ret tt, mkConn t None (failures c))
  | None => (Raise (OperationalError "cannot commit - no transaction is active"), c)
  end).

Definition rollback : PyM conn unit := fun c =>
  match working c with
  | Some _ => (Ret tt, mkConn (committed c) None (failures c))
  | None => (Raise (OperationalError "cannot rollback - no transaction is active"), c)
  end.

Definition has_key (key : string) (r : DedupeRecord) : bool :=
  bool_decide (dr_dispatch_idempotency_key r = key).

(** The row of a key. *)
Definition row_of (key : string) (t : table) : option DedupeRecord := List.find (has_key key) t.

(** [SELECT ... WHERE dispatch_idempotency_key = ?], fetched once. *)
Definition get (key : string) : PyM conn (option DedupeRecord) :=
  execute (fun c => (Ret (row_of key (visible c)), c)).

(** [INSERT INTO dedupe_store ...] *)
Definition insert_row (r : DedupeRecord) : PyM conn unit := execute (fun c =>
  match row_of (dr_dispatch_idempotency_key r) (visible c) with
  | Some _ => (Raise (IntegrityError "UNIQUE constraint failed"), c)
  | None => (Ret tt, set_visible (visible c ++ [r]) c)
  end).

(** An update of the row of [key]. *)
Definition upd_row (key : string) (f : DedupeRecord -> DedupeRecord) (r : DedupeRecord) :=
  if has_key key r then f r else r.

(** The values an [UPDATE] sets. *)
Definition set_columns (st : DedupeState) (peer ack : option string) (r : DedupeRecord) :=
  mkRecord (dr_dispatch_idempotency_key r) (dr_operation_fingerprint r) (dr_attempt_seq r)
           st peer ack.

(** [UPDATE dedupe_store SET state, peer, ack WHERE key = ?]; gives [rowcount]. *)
Definition update_rows (key : string) (st : DedupeState) (peer ack : option string) :
    PyM conn nat := execute (fun c =>
  (Ret (length (filter (fun r => has_key key r = true) (visible c))),
   set_visible (map (upd_row key (set_columns st peer ack)) (visible c)) c)).

Definition _get_required_record (key : string) : PyM conn DedupeRecord :=
  record ← get key;
  match record with
  | None => py_raise (unknown_key key)
  | Some r => mret r
  end.

Definition _update_state (key : string) (st : DedupeState) (peer ack : option string) :
    PyM conn unit :=
  rowcount ← update_rows key st peer ack;
  if decide (rowcount = 1) then mret tt
  else py_raise (DedupeStoreStateError
         ("Lost-update: key " +:+ py_repr_str key +:+ " not found during state transition to "
          +:+ py_repr_str (state_str st) +:+ ".")).

(** [_reserve_locked] and the body of [reserve_and_dispatch], which differ in
    the state and peer of the inserted row and in how a failing [ROLLBACK]
    is treated. *)
Definition _reserve_locked (envelope : IdempotencyEnvelope) : PyM conn DedupeReservation :=
  _ ← begin_immediate;
  py_except is_exception
    (existing ← get (env_dispatch_idempotency_key envelope);
     match existing with
     | Some existing_record => _ ← rollback; mret (reservation_duplicate existing_record)
     | None =>
         _ ← insert_row (mkRecord (env_dispatch_idempotency_key envelope)
                           (env_operation_fingerprint envelope) (env_attempt_seq envelope)
                           reserved (env_peer_operation_id envelope) None);
         _ ← commit;
         mret reservation_accepted
     end)
    (fun e => _ ← rollback; py_raise e).

Definition reserve (envelope : IdempotencyEnvelope) : PyM conn DedupeReservation :=
  _reserve_locked envelope.

Definition reserve_and_dispatch (envelope : IdempotencyEnvelope)
    (peer_operation_id : option string) : PyM conn DedupeReservation :=
  _ ← begin_immediate;
  py_except is_exception
    (existing ← get (env_dispatch_idempotency_key envelope);
     match existing with
     | Some existing_record => _ ← rollback; mret (reservation_duplicate existing_record)
     | None =>
         _ ← insert_row (mkRecord (env_dispatch_idempotency_key envelope)
                           (env_operation_fingerprint envelope) (env_attempt_seq envelope)
                           dispatched
                           (py_or peer_operation_id (env_peer_operation_id envelope)) None);
         _ ← commit;
         mret reservation_accepted
     end)
    (fun e => _ ← py_suppress rollback; py_raise e).

Definition mark_dispatched (key : string) (peer_operation_id : option string) : PyM conn unit :=
  py_except is_exception
    (_ ← begin_immediate;
     record ← _get_required_record key;
     _ ← (if decide (dr_state record ∈ [reserved; dispatched]) then mret tt
          else py_raise (cannot_transition (dr_state record) dispatched));
     _ ← _update_state key dispatched
           (py_or peer_operation_id (dr_peer_operation_id record)) (dr_external_ack_ref record);
     commit)
    (fun e => _ ← py_suppress rollback; py_raise e).

Definition mark_acknowledged (key : string) (external_ack_ref : option string) : PyM conn unit :=
  py_except is_exception
    (_ ← begin_immediate;
     record ← _get_required_record key;
     _ ← (if decide (dr_state record ∈ [dispatched; acknowledged]) then mret tt
          else py_raise (cannot_transition (dr_state record) acknowledged));
     _ ← _update_state key acknowledged (dr_peer_operation_id record)
           (py_or external_ack_ref (dr_external_ack_ref record));
     commit)
    (fun e => _ ← py_suppress rollback; py_raise e).

Definition mark_succeeded (key : string) (external_ack_ref : option string) : PyM conn unit :=
  py_except is_exception
    (_ ← begin_immediate;
     record ← _get_required_record key;
     _ ← (if decide (dr_state record ∈ [acknowledged; succeeded]) then mret tt
          else py_raise (cannot_transition (dr_state record) succeeded));
     _ ← _update_state key succeeded (dr_peer_operation_id record)
           (py_or external_ack_ref (dr_external_ack_ref record));
     commit)
    (fun e => _ ← py_suppress rollback; py_raise e).

Definition mark_unknown_effect (key : string) : PyM conn unit :=
  py_except is_exception
    (_ ← begin_immediate;
     record ← _get_required_record key;
     _ ← (if decide (dr_state record ∈ [dispatched; unknown_effect]) then mret tt
          else py_raise (cannot_transition (dr_state record) unknown_effect));
     _ ← _update_state key unknown_effect (dr_peer_operation_id record)
           (dr_external_ack_ref record);
     commit)
    (fun e => _ ← py_suppress rollback; py_raise e).

(** [LIKE] with an escape character: [%] any text, [_] any character; SQLite
    compares ASCII letters without regard to case. *)
Inductive like_token := LAny | LOne | LChar (c : ascii).

Fixpoint like_tokens (pattern : string) : list like_token :=
  match pattern with
  | EmptyString => []
  | String c rest =>
      if decide (c = backslash) then
        match rest with
        | String d rest' => LChar d :: like_tokens rest'
        | EmptyString => [LChar c]
        end
      else if decide (c = "%"%char) then LAny :: like_tokens rest
      else if decide (c = "_"%char) then LOne :: like_tokens rest
      else LChar c :: like_tokens rest
  end.

Fixpoint like_match (toks : list like_token) (s : string) : bool :=
  match toks with
  | [] => bool_decide (s = "")
  | LChar c :: toks' =>
      match s with
      | String d s' => bool_decide (lower_char c = lower_char d) && like_match toks' s'
      | EmptyString => false
      end
  | LOne :: toks' => match s with String _ s' => like_match toks' s' | EmptyString => false end
  | LAny :: toks' =>
      (fix any (s : string) : bool :=
         like_match toks' s || match s with String _ s' => any s' | EmptyString => false end) s
  end.

(** [s.replace(a, b)] for a one-character [a]. *)
Definition replace_char (a : ascii) (b : string) (s : string) : string :=
  flat_chars (fun c => if decide (c = a) then b else String c "") s.

(** [run_id.replace("\", "\\").replace("%", "\%").replace("_", "\_")] *)
Definition escape_like (run_id : string) : string :=
  replace_char "_" (String backslash "_")
    (replace_char "%" (String backslash "%")
       (replace_char backslash (String backslash (String backslash "")) run_id)).

(** [SELECT COUNT( * ) ... WHERE dispatch_idempotency_key LIKE ? ESCAPE '\'] *)
Definition count_by_run (run_id : string) : PyM conn nat :=
  let prefix := escape_like run_id +:+ ":%" in
  execute (fun c =>
    (Ret (length (filter (fun r =>
            like_match (like_tokens prefix) (dr_dispatch_idempotency_key r) = true) (visible c))),
     c)).
End SQLite.

#[export] Instance SQLite_port : DedupeStorePort SQLite.conn := {|
  ds_reserve := SQLite.reserve;
  ds_mark_dispatched := SQLite.mark_dispatched;
  ds_mark_acknowledged := SQLite.mark_acknowledged;
  ds_mark_succeeded := SQLite.mark_succeeded;
  ds_mark_unknown_effect := SQLite.mark_unknown_effect;
  ds_reserve_and_dispatch := SQLite.reserve_and_dispatch;
  ds_get := SQLite.get;
  ds_count_by_run := SQLite.count_by_run
|}.

(** The ledger of a connection: its committed rows. *)
Definition table_view (t : SQLite.table) : ledger :=
  list_to_map (map (fun r => (dr_dispatch_idempotency_key r, r)) t).

Definition sql_view (c : SQLite.conn) : ledger := table_view (SQLite.committed c).

(** Between operations no transaction is open and keys are unique. *)
Definition sql_wf (c : SQLite.conn) : Prop :=
  SQLite.working c = None /\ NoDup (map dr_dispatch_idempotency_key (SQLite.committed c)).

Definition sql_unavailable (e : exn) : Prop := exists msg, e = OperationalError msg.

(** Lemmas *************************************************************************)

Import SQLite.

Lemma row_of_view key t : row_of key t = table_view t !! key.
Proof.
  unfold table_view, row_of. induction t as [|r t IH]; simpl; [by rewrite lookup_empty|].
  unfold has_key. case_bool_decide as Hk.
  - subst. by rewrite lookup_insert_eq.
  - rewrite lookup_insert_ne by done. exact IH.
Qed.

Lemma row_of_elem key t r : row_of key t = Some r -> r ∈ t /\ dr_dispatch_idempotency_key r = key.
Proof.
  intros [Hin Hk]%List.find_some. split; [by apply list_elem_of_In|].
  unfold has_key in Hk. by apply bool_decide_eq_true in Hk.
Qed.

Lemma row_of_None key t : row_of key t = None <-> key ∉ map dr_dispatch_idempotency_key t.
Proof.
  unfold row_of. induction t as [|r t IH]; simpl; [split; [by intros _ ?%elem_of_nil|done]|].
  unfold has_key at 1. rewrite elem_of_cons. case_bool_decide as Hk; [|rewrite IH]; naive_solver.
Qed.

Lemma row_of_app key t r : row_of key (t ++ [r]) =
  match row_of key t with Some r0 => Some r0 | None => if has_key key r then Some r else None end.
Proof. unfold row_of. induction t as [|r0 t IH]; simpl; [done|]. by destruct (has_key key r0). Qed.

Lemma table_view_app_new t r : row_of (dr_dispatch_idempotency_key r) t = None ->
  table_view (t ++ [r]) = <[dr_dispatch_idempotency_key r := r]> (table_view t).
Proof.
  intros Hn. apply map_eq. intros k. rewrite <-row_of_view, row_of_app. unfold has_key.
  case_bool_decide as Hk.
  - subst. by rewrite lookup_insert_eq, Hn.
  - rewrite lookup_insert_ne by done. rewrite <-row_of_view. by case_match.
Qed.

Lemma upd_rows_keys key f t :
  (forall r, dr_dispatch_idempotency_key (f r) = dr_dispatch_idempotency_key r) ->
  map dr_dispatch_idempotency_key (map (upd_row key f) t) = map dr_dispatch_idempotency_key t.
Proof.
  intros Hf. rewrite map_map. apply map_ext. intros r. unfold upd_row. by destruct (has_key key r).
Qed.

Lemma row_of_upd key f t k :
  (forall r, dr_dispatch_idempotency_key (f r) = dr_dispatch_idempotency_key r) ->
  row_of k (map (upd_row key f) t) = upd_row key f <$> row_of k t.
Proof.
  intros Hf. unfold row_of. induction t as [|r t IH]; simpl; [done|].
  assert (has_key k (upd_row key f r) = has_key k r) as ->.
  { unfold upd_row. destruct (has_key key r); [unfold has_key; by rewrite Hf|done]. }
  destruct (has_key k r); [done|exact IH].
Qed.

Lemma table_view_upd key f t r :
  (forall r, dr_dispatch_idempotency_key (f r) = dr_dispatch_idempotency_key r) ->
  row_of key t = Some r ->
  table_view (map (upd_row key f) t) = <[key := f r]> (table_view t).
Proof.
  intros Hf Hr. apply map_eq. intros k. rewrite <-row_of_view, row_of_upd by done.
  destruct (decide (k = key)) as [->|Hne].
  - rewrite lookup_insert_eq, Hr. simpl. unfold upd_row, has_key.
    apply row_of_elem in Hr as [_ Hk]. by rewrite bool_decide_true.
  - rewrite lookup_insert_ne, <-row_of_view by done. destruct (row_of k t) as [r0|] eqn:H0; [|done].
    simpl. apply row_of_elem in H0 as [_ <-]. unfold upd_row, has_key. by rewrite bool_decide_false.
Qed.

Lemma count_unique key t r :
  NoDup (map dr_dispatch_idempotency_key t) -> row_of key t = Some r ->
  length (filter (fun r => has_key key r = true) t) = 1.
Proof.
  unfold row_of. induction t as [|r0 t IH]; simpl; [done|]. rewrite NoDup_cons. intros [Hk Hnd] Hr.
  rewrite filter_cons. unfold has_key in *. case_bool_decide as Hk0.
  - subst key. rewrite decide_True by done. simpl. rewrite filter_none; [done|].
    intros r1 Hin Heq%bool_decide_eq_true. apply Hk. apply list_elem_of_In, in_map_iff. exists r1. by rewrite <-list_elem_of_In.
  - rewrite decide_False by done. auto.
Qed.

(** The transaction body of the [mark_*] methods: states the record may come
    from, and the peer and acknowledgement references it gets. *)
Definition mark_tx (allowed : list DedupeState) (target : DedupeState)
    (peer ack : DedupeRecord -> option string) (key : string) : PyM conn unit :=
  py_except is_exception
    (_ ← begin_immediate;
     record ← _get_required_record key;
     _ ← (if decide (dr_state record ∈ allowed) then mret tt
          else py_raise (cannot_transition (dr_state record) target));
     _ ← _update_state key target (peer record) (ack record);
     commit)
    (fun e => _ ← py_suppress rollback; py_raise e).

(** Run every statement of a transaction under every fault. *)
Ltac step_fault :=
  match goal with
  | |- context [match ?fs with [] => _ | _ :: _ => _ end] =>
      is_var fs; destruct fs as [|[] fs]; simpl
  end.

Ltac unavailable := right; eexists; split_and!; [done|by eexists|done].

Ltac sql_unfold :=
  unfold implements, sql_wf, sql_view, sql_unavailable, begin_immediate, commit, rollback,
    insert_row, update_rows, set_visible, visible, execute in *; py_simpl.

Lemma mark_tx_law allowed target peer ack p a key :
  (forall st, may_mark target st = bool_decide (st ∈ allowed)) ->
  (forall r, peer r = py_or p (dr_peer_operation_id r)) ->
  (forall r, ack r = py_or a (dr_external_ack_ref r)) ->
  implements sql_view sql_wf sql_unavailable (mark_tx allowed target peer ack key)
    (LedgerSpec.mark target p a key).
Proof.
  intros Hal Hp Ha [t w fs] [Hw Hnd]. simpl in Hw, Hnd. subst w.
  unfold mark_tx, _get_required_record, _update_state, LedgerSpec.mark, get. sql_unfold.
  rewrite <-row_of_view.
  destruct (row_of key t) as [r|] eqn:Hr; simpl.
  2:{ repeat (step_fault; rewrite ?Hr; simpl);
      (split; [done|]); first [unavailable | by left]. }
  rewrite (Hal (dr_state r)).
  destruct (decide (dr_state r ∈ allowed)) as [Hin|Hin] eqn:Hd;
    [rewrite bool_decide_true by done|rewrite bool_decide_false by done]; simpl.
  2:{ repeat (step_fault; rewrite ?Hr; simpl; rewrite ?Hd; simpl);
      (split; [done|]); first [unavailable | by left]. }
  pose proof (count_unique key t r Hnd Hr) as Hc.
  repeat (step_fault; rewrite ?Hr; simpl; rewrite ?Hd; simpl; rewrite ?Hc; simpl);
    (split; [split; [done|first [done | by rewrite upd_rows_keys]]|]);
    first [unavailable | left].
  all: by rewrite (table_view_upd key _ t r) by done; rewrite <-Hp, <-Ha.
Qed.

(** The transaction body of [reserve] and [reserve_and_dispatch]: the state and
    peer of the new row, and how the failing path rolls back. *)
Definition claim_tx (st : DedupeState) (peer : option string) (on_error : PyM conn unit)
    (envelope : IdempotencyEnvelope) : PyM conn DedupeReservation :=
  _ ← begin_immediate;
  py_except is_exception
    (existing ← get (env_dispatch_idempotency_key envelope);
     match existing with
     | Some existing_record => _ ← rollback; mret (reservation_duplicate existing_record)
     | None =>
         _ ← insert_row (mkRecord (env_dispatch_idempotency_key envelope)
                           (env_operation_fingerprint envelope) (env_attempt_seq envelope)
                           st peer None);
         _ ← commit;
         mret reservation_accepted
     end)
    (fun e => _ ← on_error; py_raise e).

Lemma claim_tx_law st peer on_error env :
  on_error = rollback \/ on_error = py_suppress rollback ->
  implements sql_view sql_wf sql_unavailable (claim_tx st peer on_error env)
    (LedgerSpec.claim st peer env).
Proof.
  intros Hoe [t w fs] [Hw Hnd]. simpl in Hw, Hnd. subst w.
  unfold claim_tx, LedgerSpec.claim, get.
  destruct Hoe as [-> | ->]; sql_unfold; rewrite <-row_of_view;
    (destruct (row_of _ t) as [r|] eqn:Hr; simpl;
     [repeat (step_fault; rewrite ?Hr; simpl);
        (split; [done|]); first [unavailable | by left]|]);
    repeat (step_fault; do 3 (rewrite ?Hr; simpl));
    (split; [split; [done|try done]|first [unavailable | left]]);
    rewrite ?(table_view_app_new t) by done; try done.
  all: rewrite map_app; apply NoDup_app; split_and!; [done| |apply NoDup_singleton];
    intros x Hx ->%list_elem_of_singleton; by apply row_of_None in Hr.
Qed.

Lemma sql_get_law key : implements sql_view sql_wf sql_unavailable
  (SQLite.get key) (LedgerSpec.lookup key).
Proof.
  intros [t w fs] [Hw Hnd]. simpl in Hw, Hnd. subst w. unfold LedgerSpec.lookup, get. sql_unfold.
  rewrite <-row_of_view. step_fault; (split; [done|]); first [unavailable | by left].
Qed.

#[export] Instance SQLite_laws : DedupeStoreLaws SQLite.conn := {|
  ds_view := sql_view;
  ds_wf := sql_wf;
  ds_unavailable := sql_unavailable;
  ds_unavailable_is_exception := ltac:(by intros e [msg ->]);
  ds_unavailable_not_state := ltac:(by intros msg [? ?]);
  ds_reserve_law env := claim_tx_law _ _ _ env (or_introl eq_refl);
  ds_reserve_and_dispatch_law env peer := claim_tx_law _ _ _ env (or_intror eq_refl);
  ds_mark_dispatched_law key peer := mark_tx_law [reserved; dispatched] dispatched _ _ peer None key
    (fun _ => eq_refl) (fun _ => eq_refl) (fun _ => eq_refl);
  ds_mark_acknowledged_law key ack := mark_tx_law [dispatched; acknowledged] acknowledged _ _ None ack key
    (fun _ => eq_refl) (fun _ => eq_refl) (fun _ => eq_refl);
  ds_mark_succeeded_law key ack := mark_tx_law [acknowledged; succeeded] succeeded _ _ None ack key
    (fun _ => eq_refl) (fun _ => eq_refl) (fun _ => eq_refl);
  ds_mark_unknown_effect_law key := mark_tx_law [dispatched; unknown_effect] unknown_effect _ _ None None key
    (fun _ => eq_refl) (fun _ => eq_refl) (fun _ => eq_refl);
  ds_get_law := sql_get_law
|}.

Lemma sql_ds_view c : ds_view c = sql_view c.
Proof. done. Qed.

Lemma sql_ds_wf c : ds_wf c = sql_wf c.
Proof. done. Qed.

(** Without faults no operation raises an error of the database. *)
Lemma mark_tx_no_fault allowed target peer ack key c msg :
  working c = None -> NoDup (map dr_dispatch_idempotency_key (committed c)) -> failures c = [] ->
  (mark_tx allowed target peer ack key c).1 <> Raise (OperationalError msg).
Proof.
  destruct c as [t w fs]. simpl. intros -> Hnd ->.
  unfold mark_tx, _get_required_record, _update_state, get. sql_unfold.
  destruct (row_of key t) as [r|] eqn:Hr; simpl; [|done].
  destruct (decide (dr_state r ∈ allowed)); simpl; [|done].
  by rewrite (count_unique key t r Hnd Hr).
Qed.

Lemma claim_tx_no_fault st peer on_error env c msg :
  working c = None -> failures c = [] ->
  (claim_tx st peer on_error env c).1 <> Raise (OperationalError msg).
Proof.
  destruct c as [t w fs]. simpl. intros -> ->. unfold claim_tx, get. sql_unfold.
  destruct (row_of (env_dispatch_idempotency_key env) t) eqn:Hr; simpl; [done|].
  by rewrite Hr.
Qed.

Lemma bind_ret_raise {S A B} (m : PyM S A) (f : A -> B) s e :
  ((a ← m; mret (f a)) s : outcome B * S).1 = Raise e -> (m s).1 = Raise e.
Proof. unfold mbind, PyM_bind, mret, PyM_ret. destruct (m s) as [[]]; simpl; congruence. Qed.

Lemma run_cmd_no_fault cmd c msg : ds_wf c -> (run_cmd cmd c).1 = Raise (OperationalError msg) ->
  failures c <> [].
Proof.
  intros [Hw Hnd] Hr Hf. destruct cmd; unfold run_cmd in Hr; apply bind_ret_raise in Hr; revert Hr.
  - exact (claim_tx_no_fault _ _ rollback _ c msg Hw Hf).
  - exact (claim_tx_no_fault _ _ (py_suppress rollback) _ c msg Hw Hf).
  - exact (mark_tx_no_fault [reserved; dispatched] _ _ _ _ c msg Hw Hnd Hf).
  - exact (mark_tx_no_fault [dispatched; acknowledged] _ _ _ _ c msg Hw Hnd Hf).
  - exact (mark_tx_no_fault [acknowledged; succeeded] _ _ _ _ c msg Hw Hnd Hf).
  - exact (mark_tx_no_fault [dispatched; unknown_effect] _ _ _ _ c msg Hw Hnd Hf).
  - simpl. unfold get, execute. by rewrite Hf.
Qed.

(** The [LIKE] pattern of [count_by_run]. *)
Definition escape_char (c : ascii) : string :=
  if decide (c = backslash) then String backslash (String backslash "")
  else if decide (c = "%"%char) then String backslash "%"
  else if decide (c = "_"%char) then String backslash "_"
  else String c "".

Lemma flat_chars_app f s t : flat_chars f (s +:+ t) = flat_chars f s +:+ flat_chars f t.
Proof. induction s as [|c s IH]; simpl; [done|]. by rewrite IH, app_assoc_str. Qed.

Lemma flat_chars_flat f g s : flat_chars g (flat_chars f s) = flat_chars (fun c => flat_chars g (f c)) s.
Proof. induction s as [|c s IH]; simpl; [done|]. by rewrite flat_chars_app, IH. Qed.

Lemma flat_chars_ext f g s : (forall c, f c = g c) -> flat_chars f s = flat_chars g s.
Proof. intros Hfg. induction s as [|c s IH]; simpl; [done|]. by rewrite Hfg, IH. Qed.

Lemma escape_like_char run_id : escape_like run_id = flat_chars escape_char run_id.
Proof.
  unfold escape_like, replace_char. rewrite !flat_chars_flat. apply flat_chars_ext. intros c.
  unfold escape_char.
  destruct (decide (c = backslash)) as [->|H1]; [reflexivity|]. simpl.
  destruct (decide (c = "%"%char)) as [->|H2]; [reflexivity|]. simpl.
  destruct (decide (c = "_"%char)) as [->|H3]; reflexivity.
Qed.

Lemma like_tokens_escape s rest :
  like_tokens (flat_chars escape_char s +:+ rest) = map LChar (str_list s) ++ like_tokens rest.
Proof.
  induction s as [|c s IH]; [done|]. simpl. rewrite app_assoc_str, <-IH. unfold escape_char.
  repeat case_decide; subst; simpl; rewrite ?decide_True by done; try done.
  by rewrite !decide_False by done.
Qed.

Lemma like_match_chars l toks s :
  like_match (map LChar (str_list l) ++ toks) s =
  startswith (lower s) (lower l) && like_match toks (drop_chars (String.length l) s).
Proof.
  revert s. induction l as [|c l IH]; intros s; [by destruct s|]. simpl.
  destruct s as [|d s]; [done|]. simpl. rewrite IH.
  repeat case_decide; rewrite ?bool_decide_true, ?bool_decide_false by done; done.
Qed.

Lemma like_any s : like_match [LAny] s = true.
Proof. induction s as [|c s IH]; [done|]. simpl in *. by rewrite IH. Qed.

Lemma like_run_prefix run_id key :
  like_match (like_tokens (escape_like run_id +:+ ":%")) key =
  startswith (lower key) (lower (run_id +:+ ":")).
Proof.
  rewrite escape_like_char, like_tokens_escape.
  change (like_tokens ":%") with (map LChar (str_list ":") ++ [LAny]).
  assert (forall a b, map LChar (str_list a) ++ map LChar (str_list b) ++ [LAny] =
                      map LChar (str_list (a +:+ b)) ++ [LAny]) as ->.
  { intros a b. induction a as [|c a IH]; [done|]. simpl. by rewrite IH. }
  by rewrite like_match_chars, like_any, andb_true_r.
Qed.

(** Properties ********************************************************************)

(** C3: the SQLite store is a faithful ledger.  From any state of the
    connection in which no transaction is open, and whatever statements of the
    operations fail (with or without the open transaction being rolled back),
    a whole history of operations grants a key at most once, loses no record
    and moves every record forward; it ends with no transaction open, so a
    failed operation never leaves the connection stuck. *)
Theorem sqlite_faithful (cs : list ledger_cmd) (c : conn) (k : string) :
  sql_wf c ->
  sql_wf (run_cmds cs c).2 /\
  ledger_le (sql_view c) (sql_view (run_cmds cs c).2) /\
  length (filter (fun cr => grants k cr = true) (run_cmds cs c).1) <=
    match sql_view c !! k with None => 1 | Some _ => 0 end.
Proof.
  rewrite <-!sql_ds_view, <-!sql_ds_wf. intros Hwf.
  destruct (run_cmds_le cs c Hwf) as [Hwf' Hle].
  split_and!; [done|done|]. by apply run_cmds_grants.
Qed.

Definition example_conn : conn :=
  mkConn [mkRecord "run-0:a" "fp" 1 succeeded None None] None
    [NoFault; NoFault; Busy; NoFault; NoFault; NoFault; Aborted; NoFault; NoFault; NoFault].

Lemma sqlite_faithful_witness :
  sql_wf (run_cmds (example_history ++ example_history) example_conn).2 /\
  (run_cmds (example_history ++ example_history) example_conn).1 <> [].
Proof.
  split; [|by vm_compute].
  apply (sqlite_faithful (example_history ++ example_history) example_conn "run-1:act-1:0").
  split; [done|]. apply NoDup_singleton.
Defined.

(** C12: every operation of the SQLite store refines the step of the abstract
    ledger: whatever statements fail, it either gives the ledger's answer
    (result, state error or duplicate) with the ledger's new contents committed,
    or raises [OperationalError] with the committed rows untouched; and when no
    statement fails it always does the former. *)
Theorem sqlite_refines_ledger (cmd : ledger_cmd) (c : conn) :
  sql_wf c ->
  ((run_cmd cmd c).1, sql_view (run_cmd cmd c).2) = spec_cmd cmd (sql_view c) \/
  (failures c <> [] /\ sql_view (run_cmd cmd c).2 = sql_view c /\
   exists msg, (run_cmd cmd c).1 = Raise (OperationalError msg)).
Proof.
  rewrite <-!sql_ds_view, <-sql_ds_wf. intros Hwf.
  destruct (run_cmd_implements cmd c Hwf) as [_ [Heq|(e & He & [msg ->] & Hv)]]; [by left|].
  right. split_and!; [|done|by exists msg]. by eapply run_cmd_no_fault.
Qed.

Lemma sqlite_refines_ledger_witness :
  let cmd := CReserveAndDispatch example_envelope (Some "peer") in
  let c := mkConn (committed example_conn) None [] in
  ((run_cmd cmd c).1, sql_view (run_cmd cmd c).2) = spec_cmd cmd (sql_view c).
Proof.
  intros cmd c. destruct (sqlite_refines_ledger cmd c) as [|[[] _]]; try done.
  split; [done|]. apply NoDup_singleton.
Defined.

(** [count_by_run] escapes the run id completely: whatever characters it
    holds ([%], [_], backslash), the rows counted are exactly those whose key
    begins with the run id and a colon, up to the case of ASCII letters.  The
    comparison is the database's, so it is not the literal prefix match the
    method documents. *)
Theorem sqlite_count_by_run_prefix (run_id : string) (c : conn) :
  failures c = [] ->
  count_by_run run_id c =
    (Ret (length (filter (fun r =>
       startswith (lower (dr_dispatch_idempotency_key r)) (lower (run_id +:+ ":")) = true)
       (visible c))), c).
Proof.
  intros Hf. unfold count_by_run, execute. rewrite Hf. do 3 f_equal.
  apply list_filter_iff. intros r. by rewrite like_run_prefix.
Qed.

Lemma sqlite_count_by_run_prefix_witness :
  (count_by_run "Run_%" (mkConn [mkRecord "run_%:a" "fp" 1 reserved None None;
                                 mkRecord "runX%:a" "fp" 1 reserved None None] None [])).1 = Ret 1.
Proof. by rewrite sqlite_count_by_run_prefix. Defined.

(** the two stores do not agree on [count_by_run]: with the same records,
    the in-memory store counts a key of run [run-10] for run [run-1], and the
    SQLite store counts it only for [run-10]. *)
Theorem count_by_run_stores_differ (d : InMemory.store) (r : DedupeRecord) :
  d = [("run-10:a", r)] -> dr_dispatch_idempotency_key r = "run-10:a" ->
  mem_view d = sql_view (mkConn [r] None []) /\
  (InMemory.count_by_run "run-1" d).1 = Ret 1 /\
  (count_by_run "run-1" (mkConn [r] None [])).1 = Ret 0.
Proof.
  intros -> Hk. split_and!; [|done|].
  - unfold mem_view, sql_view, table_view. simpl. by rewrite Hk.
  - unfold count_by_run, execute. simpl. rewrite filter_none; [done|].
    intros r' ->%list_elem_of_singleton. rewrite Hk. by vm_compute.
Qed.

Lemma count_by_run_stores_differ_witness :
  (InMemory.count_by_run "run-1" [("run-10:a", mkRecord "run-10:a" "fp" 1 reserved None None)]).1
    = Ret 1.
Proof.
  apply (count_by_run_stores_differ _ (mkRecord "run-10:a" "fp" 1 reserved None None));
    reflexivity.
Defined.
