(* ===== verification/EventLog.v ===== *)
(** * In-memory runtime event log
      ([InMemoryKernelRuntimeEventLog] of [agent_kernel/kernel/minimal_runtime.py])

    One list of events per run, renumbered from 1 as commits are appended, and
    a bound on the number of runs kept: past it the run that was first seen
    longest ago is dropped.  The file proves the numbering and the bound
    invariant, what a commit does to every run, and that the log forgets the
    schema version of the events it stores. *)

From stdpp Require Import base tactics option list strings pretty.
From Stdlib Require Import ZArith.
From S2P Require Import Prelude PyDict PyVal Contracts.
#[local] Open Scope Z_scope.

(** [_MAX_RETAINED_RUNS] *)
Definition _MAX_RETAINED_RUNS : Z := 5000.

Record event_log := mkLog {
  events_by_run : odict string (list RuntimeEvent);
  next_offset_by_run : odict string Z;
  commit_sequence : Z
}.

Definition empty_log : event_log := mkLog [] [] 0.

(** The stored copy of an event: the constructor call names every field but
    [schema_version], which takes its default. *)
Definition stored_event (offset : Z) (e : RuntimeEvent) : RuntimeEvent :=
  mkRuntimeEvent (ev_run_id e) (ev_event_id e) offset (ev_event_type e) (ev_event_class e)
    (ev_event_authority e) (ev_ordering_key e) (ev_wake_policy e) (ev_created_at e)
    (ev_idempotency_key e) (ev_payload_ref e) (ev_payload_json e) "1".

(** The loop over [commit.events]: the stored events and the next free offset. *)
Fixpoint stamp (next_offset : Z) (events : list RuntimeEvent) : list RuntimeEvent * Z :=
  match events with
  | [] => ([], next_offset)
  | e :: rest =>
      let '(stored, next') := stamp (next_offset + 1) rest in
      (stored_event next_offset e :: stored, next')
  end.

(** The eviction at the end of an append. *)
Definition evict (l : event_log) : event_log :=
  if Z.of_nat (length (events_by_run l)) >? _MAX_RETAINED_RUNS then
    match events_by_run l with
    | (oldest, _) :: _ =>
        mkLog (od_pop oldest (events_by_run l)) (od_pop oldest (next_offset_by_run l))
              (commit_sequence l)
    | [] => l
    end
  else l.

Definition append_action_commit (commit : ActionCommit) : PyM event_log string :=
  match ac_events commit with
  | [] => py_raise (ValueError "ActionCommit.events must contain at least one event.")
  | _ =>
      l ← py_get;
      let run_events := default [] (od_get (ac_run_id commit) (events_by_run l)) in
      let next_offset := default 1 (od_get (ac_run_id commit) (next_offset_by_run l)) in
      let '(stored, next') := stamp next_offset (ac_events commit) in
      _ ← py_put (evict (mkLog (od_set (ac_run_id commit) (run_events ++ stored) (events_by_run l))
                               (od_set (ac_run_id commit) next' (next_offset_by_run l))
                               (commit_sequence l + 1)));
      mret ("commit-ref-" +:+ pretty (commit_sequence l + 1))
  end.

Definition load (run_id : string) (after_offset : Z) (l : event_log) : list RuntimeEvent :=
  filter (fun e => after_offset < ev_commit_offset e)
         (default [] (od_get run_id (events_by_run l))).

Definition cleanup_completed_run (run_id : string) (l : event_log) : event_log :=
  mkLog (od_pop run_id (events_by_run l)) (od_pop run_id (next_offset_by_run l))
        (commit_sequence l).

(** What a sequence of calls can make of an empty log. *)
Inductive log_reachable : event_log -> Prop :=
  | lr_empty : log_reachable empty_log
  | lr_append l commit : log_reachable l -> log_reachable (append_action_commit commit l).2
  | lr_cleanup l run_id : log_reachable l -> log_reachable (cleanup_completed_run run_id l).

(** The events of a run are numbered 1, 2, ..., and the next number is free. *)
Definition run_ok (evs : list RuntimeEvent) (next : option Z) : Prop :=
  map ev_commit_offset evs = seqZ 1 (Z.of_nat (length evs)) /\
  next = Some (Z.of_nat (length evs) + 1) /\
  Forall (fun e => ev_schema_version e = "1") evs.

Record log_wf (l : event_log) : Prop := {
  lw_keys : od_keys (events_by_run l) = od_keys (next_offset_by_run l);
  lw_nodup : od_wf (events_by_run l);
  lw_bound : Z.of_nat (length (events_by_run l)) <= _MAX_RETAINED_RUNS;
  lw_runs : forall run evs, od_get run (events_by_run l) = Some evs ->
    run_ok evs (od_get run (next_offset_by_run l))
}.

(** Lemmas *************************************************************************)

Lemma stamp_spec n evs :
  map ev_commit_offset (stamp n evs).1 = seqZ n (Z.of_nat (length evs)) /\
  length (stamp n evs).1 = length evs /\
  (stamp n evs).2 = n + Z.of_nat (length evs) /\
  Forall (fun e => ev_schema_version e = "1") (stamp n evs).1 /\
  Forall2 (fun e s => s = stored_event (ev_commit_offset s) e) evs (stamp n evs).1.
Proof.
  revert n. induction evs as [|e evs IH]; intros n; simpl.
  - split_and!; [done|done|lia|constructor|constructor].
  - destruct (IH (n + 1)) as (Ho & Hl & Hn & Hs & Hf). destruct (stamp (n + 1) evs) as [st n'].
    simpl in *. split_and!; [|by rewrite Hl|lia|by constructor|by constructor].
    rewrite Ho, (seqZ_cons n) by lia. f_equal. f_equal; lia.
Qed.

(** The largest of consecutive numbers. *)
Lemma foldl_max_seqZ n : forall k, foldl Z.max k (seqZ (k + 1) (Z.of_nat n)) = k + Z.of_nat n.
Proof.
  induction n as [|n IH]; intros k; [simpl; lia|]. rewrite seqZ_cons by lia. cbn [foldl].
  replace (Z.max k (k + 1)) with (k + 1) by lia. replace (Z.succ (k + 1)) with (k + 1 + 1) by lia.
  replace (Z.pred (Z.of_nat (S n))) with (Z.of_nat n) by lia. rewrite IH. lia.
Qed.

Lemma od_keys_pop_eq {A B} (k : string) (d : odict string A) (d' : odict string B) :
  od_keys d = od_keys d' -> od_keys (od_pop k d) = od_keys (od_pop k d').
Proof.
  revert d'. induction d as [|[k1 v1] d IH]; intros [|[k2 v2] d'] H; simpl in *; try done.
  simplify_eq. case_decide; [done|]. simpl. f_equal. by apply IH.
Qed.

Lemma od_keys_set_eq {A B} (k : string) v v' (d : odict string A) (d' : odict string B) :
  od_keys d = od_keys d' -> od_keys (od_set k v d) = od_keys (od_set k v' d').
Proof. intros H. by rewrite !od_keys_set, H. Qed.

Lemma od_wf_keys {A B} (d : odict string A) (d' : odict string B) :
  od_keys d = od_keys d' -> od_wf d -> od_wf d'.
Proof. unfold od_wf. by intros ->. Qed.

Lemma run_ok_app evs st n' evs' :
  run_ok evs (Some (Z.of_nat (length evs) + 1)) ->
  stamp (Z.of_nat (length evs) + 1) evs' = (st, n') -> run_ok (evs ++ st) (Some n').
Proof.
  intros (Ho & _ & Hs) Hst. pose proof (stamp_spec (Z.of_nat (length evs) + 1) evs') as Hsp.
  rewrite Hst in Hsp. simpl in Hsp. destruct Hsp as (Ho' & Hl & -> & Hs' & _).
  split_and!.
  - rewrite map_app, Ho, Ho', length_app, Hl, Nat2Z.inj_add, seqZ_app by lia.
    by rewrite (Z.add_comm 1).
  - rewrite length_app, Hl. f_equal. lia.
  - by apply Forall_app.
Qed.

Lemma pop_wf run l : log_wf l -> log_wf (cleanup_completed_run run l).
Proof.
  intros [Hk Hw Hb Hr]. split; simpl.
  - by apply od_keys_pop_eq.
  - by apply od_wf_pop.
  - rewrite od_pop_length. case_match; lia.
  - intros run' evs Hg. destruct (decide (run' = run)) as [->|Hne].
    + by rewrite od_get_pop_eq in Hg.
    + rewrite od_get_pop_ne in Hg by done. rewrite od_get_pop_ne by done. eauto.
Qed.

(** The log before eviction: everything but the bound holds. *)
Definition put_run (commit : ActionCommit) (l : event_log) : event_log :=
  let run_events := default [] (od_get (ac_run_id commit) (events_by_run l)) in
  let next_offset := default 1 (od_get (ac_run_id commit) (next_offset_by_run l)) in
  mkLog (od_set (ac_run_id commit) (run_events ++ (stamp next_offset (ac_events commit)).1)
           (events_by_run l))
        (od_set (ac_run_id commit) (stamp next_offset (ac_events commit)).2 (next_offset_by_run l))
        (commit_sequence l + 1).

Lemma append_eq commit l : ac_events commit <> [] ->
  append_action_commit commit l =
  (Ret ("commit-ref-" +:+ pretty (commit_sequence l + 1)), evict (put_run commit l)).
Proof.
  unfold append_action_commit, put_run. destruct (ac_events commit) as [|e evs]; [done|]. intros _.
  py_simpl. by destruct (stamp _ evs) as [st n'].
Qed.

Lemma next_offset_wf run l : log_wf l ->
  default 1 (od_get run (next_offset_by_run l)) =
  Z.of_nat (length (default [] (od_get run (events_by_run l)))) + 1.
Proof.
  intros [Hk Hw Hb Hr]. destruct (od_get run (events_by_run l)) as [evs|] eqn:He.
  - destruct (Hr run evs He) as (_ & -> & _). done.
  - apply od_get_None in He. rewrite Hk in He. by rewrite (proj2 (od_get_None _ _) He).
Qed.

Lemma put_run_runs commit l : log_wf l -> forall run evs,
  od_get run (events_by_run (put_run commit l)) = Some evs ->
  run_ok evs (od_get run (next_offset_by_run (put_run commit l))).
Proof.
  intros Hwf run evs. unfold put_run. simpl. rewrite next_offset_wf by done.
  destruct (decide (run = ac_run_id commit)) as [->|Hne].
  - rewrite !od_get_set_eq. intros [= <-].
    destruct (stamp _ (ac_events commit)) as [st n'] eqn:Hst. eapply run_ok_app; [|exact Hst].
    destruct (od_get (ac_run_id commit) (events_by_run l)) as [evs|] eqn:He; simpl.
    + destruct (lw_runs l Hwf _ _ He) as (? & _ & ?). done.
    + done.
  - rewrite !od_get_set_ne by done. by apply lw_runs.
Qed.

Lemma evict_wf l :
  od_keys (events_by_run l) = od_keys (next_offset_by_run l) -> od_wf (events_by_run l) ->
  Z.of_nat (length (events_by_run l)) <= _MAX_RETAINED_RUNS + 1 ->
  (forall run evs, od_get run (events_by_run l) = Some evs ->
     run_ok evs (od_get run (next_offset_by_run l))) ->
  log_wf (evict l).
Proof.
  intros Hk Hw Hb Hr. unfold evict. destruct (Z.gtb_spec (Z.of_nat (length (events_by_run l)))
    _MAX_RETAINED_RUNS) as [Hgt|Hle]; [|by split].
  destruct (events_by_run l) as [|[oldest evs] d] eqn:Hd; [by split; rewrite ?Hd|].
  rewrite <-Hd in *. split; cbn [events_by_run next_offset_by_run].
  - by apply od_keys_pop_eq.
  - by apply od_wf_pop.
  - rewrite od_pop_length. replace (od_mem oldest (events_by_run l)) with true; [unfold _MAX_RETAINED_RUNS in *; lia|].
    symmetry. apply od_mem_true. rewrite Hd. simpl. by left.
  - intros run' evs' Hg. destruct (decide (run' = oldest)) as [->|Hne].
    + by rewrite od_get_pop_eq in Hg.
    + rewrite od_get_pop_ne in Hg by done. rewrite od_get_pop_ne by done. eauto.
Qed.

Lemma append_wf commit l : log_wf l -> log_wf (append_action_commit commit l).2.
Proof.
  intros Hwf. destruct (decide (ac_events commit = [])) as [Hnil|Hne].
  { unfold append_action_commit. by rewrite Hnil. }
  rewrite append_eq by done. pose proof Hwf as [Hk Hw Hb Hr]. apply evict_wf; simpl.
  - by apply od_keys_set_eq.
  - by apply od_wf_set.
  - rewrite od_set_length. case_match; lia.
  - by apply put_run_runs.
Qed.

Lemma reachable_wf l : log_reachable l -> log_wf l.
Proof.
  induction 1; [|by apply append_wf|by apply pop_wf].
  split; [done|constructor|done|done].
Qed.

Lemma run_ok_lookup evs next i e : run_ok evs next -> evs !! i = Some e ->
  ev_commit_offset e = Z.of_nat i + 1.
Proof.
  intros (Ho & _ & _) Hi. assert (map ev_commit_offset evs !! i = Some (ev_commit_offset e)) as Hm.
  { rewrite list_lookup_fmap. by rewrite Hi. }
  rewrite Ho in Hm. apply lookup_seqZ in Hm. lia.
Qed.

Lemma run_ok_load evs next (k : nat) : run_ok evs next ->
  filter (fun e => Z.of_nat k < ev_commit_offset e) evs = drop k evs.
Proof.
  intros Hok. rewrite <-(take_drop k evs) at 1. rewrite filter_app, filter_none, filter_all; [done|..].
  - intros e [i Hi]%list_elem_of_lookup. rewrite lookup_drop in Hi.
    rewrite (run_ok_lookup _ _ _ _ Hok Hi). lia.
  - intros e [i Hi]%list_elem_of_lookup. apply lookup_take_Some in Hi as [Hi ?].
    rewrite (run_ok_lookup _ _ _ _ Hok Hi). lia.
Qed.

Lemma load_drop run l (k : nat) : log_wf l ->
  load run (Z.of_nat k) l = drop k (default [] (od_get run (events_by_run l))).
Proof.
  intros Hwf. unfold load. destruct (od_get run (events_by_run l)) as [evs|] eqn:He; simpl.
  - eapply run_ok_load. by eapply lw_runs.
  - by destruct k.
Qed.

(** The events of a run. *)
Abbreviation run_events l run := (default [] (od_get run (events_by_run l))).

Lemma load_all run l : log_wf l -> load run 0 l = run_events l run.
Proof. intros Hwf. exact (load_drop run l 0 Hwf). Qed.

Lemma run_events_ok run l : log_wf l ->
  map ev_commit_offset (run_events l run) = seqZ 1 (Z.of_nat (length (run_events l run))) /\
  Forall (fun e => ev_schema_version e = "1") (run_events l run).
Proof.
  intros Hwf. destruct (od_get run (events_by_run l)) as [evs|] eqn:He; simpl; [|done].
  by destruct (lw_runs l Hwf _ _ He) as (? & _ & ?).
Qed.

(** What eviction does to one run: nothing, or it is the oldest of too many. *)
Lemma evict_events run l : od_wf (events_by_run l) ->
  run_events (evict l) run = run_events l run \/
  (run_events (evict l) run = [] /\
   Z.of_nat (length (events_by_run l)) > _MAX_RETAINED_RUNS /\
   head (od_keys (events_by_run l)) = Some run).
Proof.
  intros Hwf. unfold evict. destruct (Z.gtb_spec (Z.of_nat (length (events_by_run l)))
    _MAX_RETAINED_RUNS) as [Hgt|Hle]; [|by left].
  destruct (events_by_run l) as [|[oldest evs] d] eqn:Hd; [by left; rewrite Hd|].
  cbn [events_by_run]. destruct (decide (run = oldest)) as [->|Hne].
  - right. rewrite od_get_pop_eq by done. split_and!; [done|lia|done].
  - left. by rewrite od_get_pop_ne.
Qed.

(** The run a commit goes to is never the one evicted. *)
Lemma put_run_kept commit l : log_wf l ->
  run_events (evict (put_run commit l)) (ac_run_id commit) =
  run_events (put_run commit l) (ac_run_id commit).
Proof.
  intros Hwf. assert (od_wf (events_by_run (put_run commit l))) as Hw.
  { apply od_wf_set, Hwf. }
  destruct (evict_events (ac_run_id commit) _ Hw) as [?|(_ & Hgt & Hh)]; [done|exfalso].
  simpl in Hgt, Hh. pose proof (lw_bound l Hwf) as Hb. rewrite od_set_length in Hgt.
  destruct (od_mem (ac_run_id commit) (events_by_run l)) eqn:Hm; [lia|].
  rewrite od_keys_set, decide_False in Hh by (rewrite <-od_mem_true; congruence).
  destruct (events_by_run l) as [|[k v] d]; [unfold _MAX_RETAINED_RUNS in *; simpl in *; lia|].
  simpl in Hh. injection Hh as ->. unfold od_mem in Hm. simpl in Hm. by rewrite decide_True in Hm.
Qed.

(** The events of the run a commit goes to. *)
Lemma append_run_events commit l : log_wf l -> ac_events commit <> [] ->
  run_events (append_action_commit commit l).2 (ac_run_id commit) =
  run_events l (ac_run_id commit) ++
    (stamp (Z.of_nat (length (run_events l (ac_run_id commit))) + 1) (ac_events commit)).1.
Proof.
  intros Hwf Hne. rewrite append_eq by done. cbn [snd]. rewrite put_run_kept by done. unfold put_run. cbn [events_by_run].
  by rewrite od_get_set_eq, next_offset_wf.
Qed.

(** A commit that does not push the log past the cap evicts nothing. *)
Lemma evict_room commit l : log_wf l ->
  ac_run_id commit ∈ od_keys (events_by_run l) \/ Z.of_nat (length (events_by_run l)) < _MAX_RETAINED_RUNS ->
  evict (put_run commit l) = put_run commit l.
Proof.
  intros Hwf Hroom. unfold evict, put_run. cbn [events_by_run]. rewrite od_set_length.
  pose proof (lw_bound l Hwf). destruct (Z.gtb_spec (Z.of_nat (if od_mem (ac_run_id commit)
    (events_by_run l) then length (events_by_run l) else S (length (events_by_run l))))
    _MAX_RETAINED_RUNS) as [Hgt|]; [|done]. exfalso.
  destruct (od_mem (ac_run_id commit) (events_by_run l)) eqn:Hm; [lia|].
  destruct Hroom as [Hk%od_mem_true|]; [congruence|lia].
Qed.

(** A commit that does not push the log past the cap only extends runs. *)
Lemma append_extends commit l run : log_wf l ->
  ac_run_id commit ∈ od_keys (events_by_run l) \/
  Z.of_nat (length (events_by_run l)) < _MAX_RETAINED_RUNS ->
  exists tail, run_events (append_action_commit commit l).2 run = run_events l run ++ tail.
Proof.
  intros Hwf Hroom. destruct (decide (ac_events commit = [])) as [Hnil|Hne].
  { exists []. unfold append_action_commit. rewrite Hnil. simpl. by rewrite app_nil_r. }
  rewrite append_eq by done. cbn [snd].
  rewrite evict_room by done.
  unfold put_run. cbn [events_by_run]. destruct (decide (run = ac_run_id commit)) as [->|Hn].
  - rewrite od_get_set_eq. simpl. by eexists.
  - rewrite od_get_set_ne by done. exists []. by rewrite app_nil_r.
Qed.

(** Properties ********************************************************************)

(** in every log the calls can produce, at most 5000 runs are kept, the
    events of each run are numbered 1, 2, 3, ... without gap or repeat, and
    loading after offset k drops exactly the first k of them. *)
Theorem eventlog_offsets_contiguous (l : event_log) (run : string) (k : nat) :
  log_reachable l ->
  Z.of_nat (length (events_by_run l)) <= _MAX_RETAINED_RUNS /\
  map ev_commit_offset (load run 0 l) = seqZ 1 (Z.of_nat (length (load run 0 l))) /\
  load run (Z.of_nat k) l = drop k (load run 0 l).
Proof.
  intros Hr%reachable_wf. rewrite load_all, load_drop by done.
  split_and!; [by apply lw_bound|by apply run_events_ok|done].
Qed.

(** An example commit of two events. *)
Definition example_event (type : string) : RuntimeEvent :=
  mkRuntimeEvent "run-1" ("e:" +:+ type) 7 type ec_fact authoritative_fact "run-1"
    wake_actor "2026-01-01T00:00:00Z" None None None "2".

Definition example_commit : ActionCommit :=
  mkActionCommit "run-1" "c1" [example_event "run.created"; example_event "run.ready"]
    "2026-01-01T00:00:00Z" None None.

Lemma example_reachable : log_reachable (append_action_commit example_commit empty_log).2.
Proof. repeat constructor. Qed.

Lemma eventlog_offsets_contiguous_witness :
  map ev_commit_offset (load "run-1" 0 (append_action_commit example_commit empty_log).2) = [1; 2].
Proof.
  etrans; [apply (eventlog_offsets_contiguous _ "run-1" 1 example_reachable)|reflexivity].
Defined.

(** appending a commit with events always succeeds, and a reader that had
    loaded everything of that run then loads exactly the commit's events, in
    order, with the next offsets; every other run is unchanged, unless the
    commit opens a run past the cap and the other run is the one that was
    first seen longest ago. *)
Theorem eventlog_append (l : event_log) (commit : ActionCommit) (run : string) :
  log_reachable l -> ac_events commit <> [] ->
  let l' := (append_action_commit commit l).2 in
  let seen := length (load (ac_run_id commit) 0 l) in
  (exists ref, (append_action_commit commit l).1 = Ret ref) /\
  load (ac_run_id commit) (Z.of_nat seen) l' =
    zip_with stored_event (seqZ (Z.of_nat seen + 1) (Z.of_nat (length (ac_events commit))))
             (ac_events commit) /\
  load (ac_run_id commit) 0 l' = load (ac_run_id commit) 0 l ++ load (ac_run_id commit) (Z.of_nat seen) l' /\
  (run <> ac_run_id commit ->
     load run 0 l' = load run 0 l \/
     (load run 0 l' = [] /\ Z.of_nat (length (events_by_run l)) = _MAX_RETAINED_RUNS /\
      ac_run_id commit ∉ od_keys (events_by_run l) /\ head (od_keys (events_by_run l)) = Some run)).
Proof.
  intros Hwf%reachable_wf Hne l' seen. pose proof (append_wf commit l Hwf) as Hwf'. fold l' in Hwf'.
  pose proof (append_eq commit l Hne) as Happ.
  assert (l' = evict (put_run commit l)) as Hl' by (unfold l'; by rewrite Happ).
  pose proof (append_run_events commit l Hwf Hne) as Hev. fold l' in Hev.
  rewrite Happ. cbn [fst]. clear Happ. clearbody l'.
  unfold seen. rewrite load_drop, !load_all, Hev, drop_app_length by done.
  split_and!; [by eexists| |done|].
  - clear. generalize (Z.of_nat (length (run_events l (ac_run_id commit))) + 1) as n.
    induction (ac_events commit) as [|e evs IH]; intros n; [done|]. cbn [stamp].
    specialize (IH (Z.succ n)). replace (n + 1) with (Z.succ n) by lia.
    destruct (stamp (Z.succ n) evs) as [st n']. simpl in *.
    rewrite (seqZ_cons n) by lia. simpl. rewrite IH. do 3 f_equal. lia.
  - intros Hrun. assert (od_wf (events_by_run (put_run commit l))) as Hw by apply od_wf_set, Hwf.
    assert (run_events (put_run commit l) run = run_events l run) as Heq.
    { unfold put_run. cbn [events_by_run]. by rewrite od_get_set_ne. }
    destruct (evict_events run _ Hw) as [He|(He & Hgt & Hh)]; rewrite <-Hl' in He.
    + left. by rewrite He, Heq.
    + right. pose proof (lw_bound l Hwf) as Hb. simpl in Hgt, Hh. rewrite od_set_length in Hgt.
      destruct (od_mem (ac_run_id commit) (events_by_run l)) eqn:Hm; [lia|].
      assert (ac_run_id commit ∉ od_keys (events_by_run l)) as Hk
        by (rewrite <-od_mem_true; congruence).
      split_and!; [done|lia|done|]. rewrite od_keys_set, decide_False in Hh by done.
      destruct (od_keys (events_by_run l)); [simpl in Hh; congruence|done].
Qed.

Lemma eventlog_append_witness :
  let l := (append_action_commit example_commit empty_log).2 in
  map ev_commit_offset (load "run-1" 2 (append_action_commit example_commit l).2) = [3; 4].
Proof.
  intros l. destruct (eventlog_append l example_commit "run-2" example_reachable) as (_ & H & _);
    [done|].
  change (load "run-1" 2 (append_action_commit example_commit l).2)
    with (load (ac_run_id example_commit)
            (Z.of_nat (length (load (ac_run_id example_commit) 0 l)))
            (append_action_commit example_commit l).2).
  by rewrite H.
Defined.

(** the log does not keep the schema version of an event: whatever version
    a producer wrote, every event the log gives back says version 1, so a
    schema migrator downstream runs its migrations on already migrated events. *)
Theorem eventlog_forgets_schema_version (l : event_log) (run : string) (after : Z)
    (e : RuntimeEvent) :
  log_reachable l -> e ∈ load run after l -> ev_schema_version e = "1".
Proof.
  intros Hwf%reachable_wf. unfold load. rewrite list_elem_of_filter. intros [_ Hin].
  destruct (run_events_ok run l Hwf) as [_ Hs]. rewrite Forall_forall in Hs. auto.
Qed.

Lemma eventlog_forgets_schema_version_witness :
  ev_schema_version (example_event "run.created") = "2" /\
  forall e, e ∈ load "run-1" 0 (append_action_commit example_commit empty_log).2 ->
    ev_schema_version e = "1".
Proof.
  split; [done|]. intros e. apply (eventlog_forgets_schema_version _ "run-1" 0 e example_reachable).
Defined.

(** offsets are not monotonic over the life of a run id: once a run has been
    cleaned up, the next commit starts again at offset 1, so a reader that
    continues from an offset past the size of the new commit loads none of it. *)
Theorem eventlog_offsets_restart (l : event_log) (commit : ActionCommit) (reader : Z) :
  log_reachable l -> ac_events commit <> [] ->
  Z.of_nat (length (ac_events commit)) <= reader ->
  let l' := (append_action_commit commit (cleanup_completed_run (ac_run_id commit) l)).2 in
  length (load (ac_run_id commit) 0 l') = length (ac_events commit) /\
  load (ac_run_id commit) reader l' = [].
Proof.
  intros Hr Hne Hle l'. pose proof (lr_cleanup _ (ac_run_id commit) Hr) as Hr0.
  pose proof (reachable_wf _ Hr) as Hwf. pose proof (reachable_wf _ Hr0) as Hwf0.
  pose proof (append_wf commit _ Hwf0) as Hwf'. fold l' in Hwf'.
  assert (run_events l' (ac_run_id commit) = (stamp 1 (ac_events commit)).1) as Hev.
  { unfold l'. rewrite append_eq by done. cbn [snd]. rewrite put_run_kept by done.
    unfold put_run. cbn [events_by_run]. rewrite od_get_set_eq, next_offset_wf by done.
    simpl. by rewrite od_get_pop_eq by apply Hwf. }
  rewrite load_all, Hev by done. pose proof (stamp_spec 1 (ac_events commit)) as (_ & Hl & _).
  split; [done|]. replace reader with (Z.of_nat (Z.to_nat reader)) by lia.
  rewrite load_drop, Hev by done. apply drop_ge. lia.
Qed.

Lemma eventlog_offsets_restart_witness :
  let l := (append_action_commit example_commit empty_log).2 in
  load "run-1" 2 (append_action_commit example_commit (cleanup_completed_run "run-1" l)).2 = [].
Proof.
  intros l. apply (eventlog_offsets_restart l example_commit 2 example_reachable); simpl; [done|lia].
Defined.
