(* ===== verification/SqliteLog.v ===== *)
(** * SQLite runtime event log, alone and beside the dispatch ledger
      ([agent_kernel/kernel/persistence/sqlite_event_log.py], [sqlite_colocated_bundle.py])

    Two tables, a row per commit and a row per event.  A connection is the committed
    database, the working copy of an open transaction and a schedule of statement
    failures, as in [SqliteDedupe].  [Module Log] is the log on a connection of its own,
    whose transactions the driver opens at the first INSERT, so that other connections
    may commit between the reading of the next offset and the first row written; [Module
    Colocated] is the log, the ledger and [atomic_dispatch_record] on one connection.
    The text of a payload is what [json.dumps] prints and [json.loads] reads. *)

From stdpp Require Import base tactics option list sorting strings pretty.
From Stdlib Require Import ZArith.
From S2P Require Import Prelude PyStr PyDict PyVal Json Contracts DedupeStore SqliteDedupe EventLog.
#[local] Arguments String.append : simpl nomatch.
#[local] Open Scope Z_scope.

(** [action_commits]; [commit_sequence] is AUTOINCREMENT. *)
Record commit_row := mkCommitRow {
  cr_commit_sequence : Z;
  cr_stream_run_id : string;
  cr_commit_id : string;
  cr_created_at : string;
  cr_event_count : Z
}.

(** [runtime_events], in the order of [id]. *)
Record event_row := mkEventRow {
  er_commit_sequence : Z;
  er_event_index : Z;
  er_stream_run_id : string;
  er_event_run_id : string;
  er_commit_offset : Z;
  er_event_id : string;
  er_event_type : string;
  er_event_class : EventClass;
  er_event_authority : EventAuthority;
  er_ordering_key : string;
  er_wake_policy : WakePolicy;
  er_created_at : string;
  er_idempotency_key : option string;
  er_payload_ref : option string;
  er_payload_json : option string
}.

(** The two tables; [db_sequence] is the largest [commit_sequence] ever given. *)
Record log_db := mkLogDb {
  db_commits : list commit_row;
  db_sequence : Z;
  db_events : list event_row
}.

Definition empty_db : log_db := mkLogDb [] 0 [].

(** A connection to a database [D]. *)
Record connection (D : Type) := mkConnection {
  cn_committed : D;
  cn_working : option D;
  cn_failures : list SQLite.fault
}.
Arguments mkConnection {D}. Arguments cn_committed {D}. Arguments cn_working {D}. Arguments cn_failures {D}.

Section statements.
Context {D : Type} (log_of : D -> log_db) (set_log : log_db -> D -> D).
Implicit Types c : connection D.

Definition seen_db c : D := default (cn_committed c) (cn_working c).

Definition set_seen (d : D) c : connection D :=
  match cn_working c with
  | Some _ => mkConnection (cn_committed c) (Some d) (cn_failures c)
  | None => mkConnection d None (cn_failures c)
  end.

(** [connection.execute(...)]: may fail as scheduled, and take the transaction with it. *)
Definition execute {A} (f : PyM (connection D) A) : PyM (connection D) A := fun c =>
  match cn_failures c with
  | SQLite.Busy :: fs => (Raise (OperationalError "database is locked"), mkConnection (cn_committed c) (cn_working c) fs)
  | SQLite.Aborted :: fs => (Raise (OperationalError "disk I/O error"), mkConnection (cn_committed c) None fs)
  | SQLite.NoFault :: fs => f (mkConnection (cn_committed c) (cn_working c) fs)
  | [] => f c
  end.

(** [SELECT ... FROM runtime_events WHERE stream_run_id = ?] *)
Definition stream_rows (run_id : string) (db : log_db) : list event_row :=
  filter (fun r => er_stream_run_id r = run_id) (db_events db).

(** [SELECT COALESCE(MAX(commit_offset), 0) FROM runtime_events WHERE stream_run_id = ?] *)
Definition max_of (run_id : string) (db : log_db) : Z :=
  match map er_commit_offset (stream_rows run_id db) with
  | [] => 0
  | o :: rest => foldl Z.max o rest
  end.

Definition max_offset (run_id : string) : PyM (connection D) Z :=
  execute (fun c => (Ret (max_of run_id (log_of (seen_db c))), c)).

Definition _load_next_offset (stream_run_id : string) : PyM (connection D) Z :=
  m ← max_offset stream_run_id;
  mret (m + 1).

(** [INSERT INTO action_commits ...]; answers [lastrowid]. *)
Definition _insert_commit_row (commit : ActionCommit) : PyM (connection D) Z := execute (fun c =>
  let db := log_of (seen_db c) in
  let count := Z.of_nat (length (ac_events commit)) in
  if count <=? 0 then (Raise (IntegrityError "CHECK constraint failed: event_count > 0"), c)
  else
    let sequence := db_sequence db + 1 in
    (Ret sequence, set_seen (set_log (mkLogDb
       (db_commits db ++ [mkCommitRow sequence (ac_run_id commit) (ac_commit_id commit) (ac_created_at commit) count])
       sequence (db_events db)) (seen_db c)) c)).

(** [INSERT INTO runtime_events ...] under its constraints. *)
Definition conflicts (r r' : event_row) : bool :=
  bool_decide (er_stream_run_id r = er_stream_run_id r' /\ er_commit_offset r = er_commit_offset r') ||
  bool_decide (er_commit_sequence r = er_commit_sequence r' /\ er_event_index r = er_event_index r').

Definition insert_event_row (r : event_row) : PyM (connection D) unit := execute (fun c =>
  let db := log_of (seen_db c) in
  if negb (existsb (fun k => cr_commit_sequence k =? er_commit_sequence r) (db_commits db)) then
    (Raise (IntegrityError "FOREIGN KEY constraint failed"), c)
  else if existsb (conflicts r) (db_events db) then (Raise (IntegrityError "UNIQUE constraint failed"), c)
  else (Ret tt, set_seen (set_log (mkLogDb (db_commits db) (db_sequence db) (db_events db ++ [r])) (seen_db c)) c)).

Context (dumps : pyval -> string).

Definition _serialize_payload (payload_json : option (odict string pyval)) : option string :=
  match payload_json with None => None | Some d => Some (dumps (PDict d)) end.

Definition row_of_event (stream_run_id : string) (commit_sequence event_index offset : Z) (e : RuntimeEvent) : event_row :=
  mkEventRow commit_sequence event_index stream_run_id (ev_run_id e) offset (ev_event_id e) (ev_event_type e) (ev_event_class e)
    (ev_event_authority e) (ev_ordering_key e) (ev_wake_policy e) (ev_created_at e) (ev_idempotency_key e) (ev_payload_ref e)
    (_serialize_payload (ev_payload_json e)).

(** The loop over [enumerate(events)], from [event_index]. *)
Fixpoint _insert_event_rows (stream_run_id : string) (commit_sequence event_index : Z) (events : list RuntimeEvent)
    (starting_offset : Z) : PyM (connection D) unit :=
  match events with
  | [] => mret tt
  | e :: rest =>
      _ ← insert_event_row (row_of_event stream_run_id commit_sequence event_index (starting_offset + event_index) e);
      _insert_event_rows stream_run_id commit_sequence (event_index + 1) rest starting_offset
  end.

(** [... WHERE stream_run_id = ? AND commit_offset > ? ORDER BY commit_offset ASC] *)
Definition offset_le (r r' : event_row) : Prop := er_commit_offset r <= er_commit_offset r'.
#[export] Instance offset_le_dec : RelDecision offset_le := fun r r' => decide (er_commit_offset r <= er_commit_offset r').

Definition select_events (run_id : string) (after_offset : Z) : PyM (connection D) (list event_row) :=
  execute (fun c => (Ret (merge_sort offset_le (filter (fun r => after_offset < er_commit_offset r)
                                                (stream_rows run_id (log_of (seen_db c))))), c)).
End statements.

Section decoding.
Context (float_repr : string -> string).

Definition _deserialize_payload (raw_payload : option string) : outcome (option (odict string pyval)) :=
  match raw_payload with
  | None => Ret None
  | Some text =>
      v ← json_loads float_repr text;
      match v with PDict d => Ret (Some d) | _ => Raise (OutsideModel "payload_json") end
  end.

(** The constructor call names no [schema_version]. *)
Definition _row_to_runtime_event (r : event_row) : outcome RuntimeEvent :=
  payload ← _deserialize_payload (er_payload_json r);
  mret (mkRuntimeEvent (er_event_run_id r) (er_event_id r) (er_commit_offset r) (er_event_type r) (er_event_class r)
          (er_event_authority r) (er_ordering_key r) (er_wake_policy r) (er_created_at r) (er_idempotency_key r)
          (er_payload_ref r) payload "1").

(** [_SharedConnectionEventLog._row_to_event]: empty text becomes [None]. *)
Definition _row_to_event (r : event_row) : outcome RuntimeEvent :=
  payload ← _deserialize_payload (er_payload_json r);
  mret (mkRuntimeEvent (er_event_run_id r) (er_event_id r) (er_commit_offset r) (er_event_type r) (er_event_class r)
          (er_event_authority r) (er_ordering_key r) (er_wake_policy r) (er_created_at r) (py_or (er_idempotency_key r) None)
          (py_or (er_payload_ref r) None) payload "1").

Fixpoint decode_all (row_to_event : event_row -> outcome RuntimeEvent) (rows : list event_row) : outcome (list RuntimeEvent) :=
  match rows with
  | [] => Ret []
  | r :: rest => e ← row_to_event r; es ← decode_all row_to_event rest; mret (e :: es)
  end.
End decoding.

(** The log on its own connection *****************************************************)

Module Log.
Abbreviation conn := (connection log_db).

(** The driver opens a transaction before an INSERT when none is open. *)
Definition in_transaction {A} (m : PyM conn A) : PyM conn A := fun c =>
  m (match cn_working c with
     | Some _ => c
     | None => mkConnection (cn_committed c) (Some (cn_committed c)) (cn_failures c)
     end).

(** [connection.commit()] and [connection.rollback()] do nothing without a transaction. *)
Definition driver_commit : PyM conn unit := fun c =>
  match cn_working c with
  | None => (Ret tt, c)
  | Some _ => execute (fun c => match cn_working c with
                                | Some d => (Ret tt, mkConnection d None (cn_failures c))
                                | None => (Ret tt, c)
                                end) c
  end.

Definition driver_rollback : PyM conn unit := py_modify (fun c => mkConnection (cn_committed c) None (cn_failures c)).

(** [with self._connection: m]; a commit that fails is rolled back. *)
Definition with_connection {A} (m : PyM conn A) : PyM conn A := fun c =>
  match m c with
  | (Raise e, c') => (Raise e, (driver_rollback c').2)
  | (Ret a, c') =>
      match driver_commit c' with
      | (Ret _, c'') => (Ret a, c'')
      | (Raise e, c'') => (Raise e, (driver_rollback c'').2)
      end
  end.

Section log.
(** What other connections commit between two statements outside a transaction. *)
Context (others : log_db -> log_db).

Definition let_others : PyM conn unit := py_modify (fun c => mkConnection (others (cn_committed c)) (cn_working c) (cn_failures c)).

(** [json.dumps(payload_json, separators=(",", ":"), sort_keys=True)] *)
Definition dumps : pyval -> string := json_dumps true.

Definition append_action_commit (commit : ActionCommit) : PyM conn string :=
  match ac_events commit with
  | [] => py_raise (ValueError "ActionCommit.events must contain at least one event.")
  | events =>
      commit_sequence ← with_connection (
        next_offset ← _load_next_offset id (ac_run_id commit);
        _ ← let_others;
        commit_sequence ← in_transaction (_insert_commit_row id (fun db _ => db) commit);
        _ ← _insert_event_rows id (fun db _ => db) dumps (ac_run_id commit) commit_sequence 0 events next_offset;
        mret commit_sequence);
      mret ("commit-ref-" +:+ pretty (commit_sequence : Z))
  end.
End log.

Definition load (float_repr : string -> string) (run_id : string) (after_offset : Z) : PyM conn (list RuntimeEvent) :=
  rows ← select_events id run_id after_offset;
  py_lift (decode_all (_row_to_runtime_event float_repr) rows).
End Log.

(** The log and the ledger on one connection ******************************************)

Record bundle_db := mkBundle { bd_log : log_db; bd_ledger : list DedupeRecord }.

Module Colocated.
Abbreviation conn := (connection bundle_db).
Definition set_bd_log (l : log_db) (d : bundle_db) : bundle_db := mkBundle l (bd_ledger d).

Definition begin : PyM conn unit := execute (fun c =>
  match cn_working c with
  | Some _ => (Raise (OperationalError "cannot start a transaction within a transaction"), c)
  | None => (Ret tt, mkConnection (cn_committed c) (Some (cn_committed c)) (cn_failures c))
  end).

Definition commit : PyM conn unit := execute (fun c =>
  match cn_working c with
  | Some d => (Ret tt, mkConnection d None (cn_failures c))
  | None => (Raise (OperationalError "cannot commit - no transaction is active"), c)
  end).

Definition rollback : PyM conn unit := fun c =>
  match cn_working c with
  | Some _ => (Ret tt, mkConnection (cn_committed c) None (cn_failures c))
  | None => (Raise (OperationalError "cannot rollback - no transaction is active"), c)
  end.

(** [_SharedConnectionDedupeStore._get] *)
Definition _get (key : string) : PyM conn (option DedupeRecord) :=
  execute (fun c => (Ret (SQLite.row_of key (bd_ledger (seen_db c))), c)).

(** [INSERT INTO colocated_dedupe_store ...] *)
Definition insert_record (r : DedupeRecord) : PyM conn unit := execute (fun c =>
  let d := seen_db c in
  match SQLite.row_of (dr_dispatch_idempotency_key r) (bd_ledger d) with
  | Some _ => (Raise (IntegrityError "UNIQUE constraint failed"), c)
  | None => (Ret tt, set_seen (mkBundle (bd_log d) (bd_ledger d ++ [r])) c)
  end).

(** [json.dumps(event.payload_json)] *)
Definition dumps : pyval -> string := json_spaced true.

(** The statements of an append, inside a transaction. *)
Definition insert_commit (cm : ActionCommit) : PyM conn Z :=
  next_offset ← _load_next_offset bd_log (ac_run_id cm);
  seq ← _insert_commit_row bd_log set_bd_log cm;
  _ ← _insert_event_rows bd_log set_bd_log dumps (ac_run_id cm) seq 0 (ac_events cm) next_offset;
  mret seq.

(** [_SharedConnectionEventLog.append_action_commit] *)
Definition append_action_commit (cm : ActionCommit) : PyM conn string :=
  match ac_events cm with
  | [] => py_raise (ValueError "ActionCommit.events must contain at least one event.")
  | _ =>
      seq ← py_except is_exception
        (_ ← begin; seq ← insert_commit cm; _ ← commit; mret seq)
        (fun e => _ ← py_suppress rollback; py_raise e);
      mret ("commit-ref-" +:+ pretty (seq : Z))
  end.

(** [_SharedConnectionEventLog.load] *)
Definition load (float_repr : string -> string) (run_id : string) (after_offset : Z) : PyM conn (list RuntimeEvent) :=
  rows ← select_events bd_log run_id after_offset;
  py_lift (decode_all (_row_to_event float_repr) rows).

(** [ColocatedSQLiteBundle.atomic_dispatch_record] *)
Definition atomic_dispatch_record (cm : ActionCommit) (envelope : IdempotencyEnvelope) : PyM conn (string * DedupeReservation) :=
  match ac_events cm with
  | [] => py_raise (ValueError "ActionCommit.events must contain at least one event.")
  | _ =>
      _ ← begin;
      py_except is_exception
        (existing ← _get (env_dispatch_idempotency_key envelope);
         match existing with
         | Some existing_record => _ ← rollback; mret ("", reservation_duplicate existing_record)
         | None =>
             _ ← insert_record (mkRecord (env_dispatch_idempotency_key envelope) (env_operation_fingerprint envelope)
                                  (env_attempt_seq envelope) reserved (env_peer_operation_id envelope) None);
             seq ← insert_commit cm;
             _ ← commit;
             mret ("commit-ref-" +:+ pretty (seq : Z), reservation_accepted)
         end)
        (fun e => _ ← rollback; py_raise e)
  end.

(** The ledger's part of the connection.  The methods of [_SharedConnectionDedupeStore]
    run the statements of [SqliteDedupe] on it, one transaction each. *)
Definition ledger_conn (c : conn) : SQLite.conn :=
  SQLite.mkConn (bd_ledger (cn_committed c)) (bd_ledger <$> cn_working c) (cn_failures c).

Definition set_ledger_conn (s : SQLite.conn) (c : conn) : conn :=
  mkConnection (mkBundle (bd_log (cn_committed c)) (SQLite.committed s))
    (mkBundle (bd_log (seen_db c)) <$> SQLite.working s) (SQLite.failures s).

Definition on_ledger {A} (m : PyM SQLite.conn A) : PyM conn A := py_zoom ledger_conn set_ledger_conn m.

Definition reserve (envelope : IdempotencyEnvelope) := on_ledger (SQLite.reserve envelope).
Definition reserve_and_dispatch (envelope : IdempotencyEnvelope) (peer : option string) := on_ledger (SQLite.reserve_and_dispatch envelope peer).
Definition mark_dispatched (key : string) (peer : option string) := on_ledger (SQLite.mark_dispatched key peer).
Definition mark_acknowledged (key : string) (ack : option string) := on_ledger (SQLite.mark_acknowledged key ack).
Definition mark_succeeded (key : string) (ack : option string) := on_ledger (SQLite.mark_succeeded key ack).
Definition mark_unknown_effect (key : string) := on_ledger (SQLite.mark_unknown_effect key).
Definition get (key : string) := on_ledger (SQLite.get key).
Definition count_by_run (run_id : string) := on_ledger (SQLite.count_by_run run_id).
End Colocated.

#[export] Instance Colocated_port : DedupeStorePort Colocated.conn := {|
  ds_reserve := Colocated.reserve;
  ds_mark_dispatched := Colocated.mark_dispatched;
  ds_mark_acknowledged := Colocated.mark_acknowledged;
  ds_mark_succeeded := Colocated.mark_succeeded;
  ds_mark_unknown_effect := Colocated.mark_unknown_effect;
  ds_reserve_and_dispatch := Colocated.reserve_and_dispatch;
  ds_get := Colocated.get;
  ds_count_by_run := Colocated.count_by_run
|}.

(** Specification *********************************************************************)

(** What a log holds: the events of each run. *)
Abbreviation event_map := (string -> list RuntimeEvent).

Definition spec_append (cm : ActionCommit) (L : event_map) : event_map := fun run =>
  if decide (run = ac_run_id cm) then L run ++ (stamp (Z.of_nat (length (L run)) + 1) (ac_events cm)).1 else L run.

(** A row is the row of an event. *)
Definition row_matches (dumps : pyval -> string) (r : event_row) (e : RuntimeEvent) : Prop :=
  r = row_of_event dumps (er_stream_run_id r) (er_commit_sequence r) (er_event_index r) (ev_commit_offset e) e.

Definition represents (dumps : pyval -> string) (db : log_db) (L : event_map) : Prop :=
  forall run, Forall2 (row_matches dumps) (stream_rows run db) (L run).

(** Offsets count the rows of their stream, and sequences are below the next one. *)
Record db_wf (db : log_db) : Prop := {
  dw_offsets : forall run, map er_commit_offset (stream_rows run db) = seqZ 1 (Z.of_nat (length (stream_rows run db)));
  dw_sequence : Forall (fun r => er_commit_sequence r <= db_sequence db) (db_events db)
}.

(** Lemmas *************************************************************************)

Lemma represents_length dumps db L run : represents dumps db L -> length (stream_rows run db) = length (L run).
Proof. intros Hr. eapply Forall2_length, Hr. Qed.

Lemma max_of_wf run db : db_wf db -> max_of run db = Z.of_nat (length (stream_rows run db)).
Proof.
  intros [Ho _]. unfold max_of. rewrite Ho. destruct (length (stream_rows run db)) as [|n]; [done|].
  rewrite (seqZ_cons 1) by lia. replace (Z.succ 1) with (1 + 1) by lia. replace (Z.pred (Z.of_nat (S n))) with (Z.of_nat n) by lia.
  rewrite foldl_max_seqZ. lia.
Qed.

(** The rows an append writes, and the tables after it. *)
Section rows.
Context (dumps : pyval -> string).

Fixpoint rows_of (run : string) (seq index : Z) (events : list RuntimeEvent) (start : Z) : list event_row :=
  match events with
  | [] => []
  | e :: rest => row_of_event dumps run seq index (start + index) e :: rows_of run seq (index + 1) rest start
  end.

Definition put_commit (cm : ActionCommit) (start : Z) (db : log_db) : log_db :=
  let seq := db_sequence db + 1 in
  mkLogDb (db_commits db ++ [mkCommitRow seq (ac_run_id cm) (ac_commit_id cm) (ac_created_at cm) (Z.of_nat (length (ac_events cm)))])
    seq (db_events db ++ rows_of (ac_run_id cm) seq 0 (ac_events cm) start).

Lemma rows_of_stream run seq events start : forall index, Forall (fun r => er_stream_run_id r = run /\ er_commit_sequence r = seq) (rows_of run seq index events start).
Proof. induction events as [|e rest IH]; intros index; [constructor|]. constructor; [done|apply IH]. Qed.

Lemma rows_of_offsets run seq events start : forall index,
  map er_commit_offset (rows_of run seq index events start) = seqZ (start + index) (Z.of_nat (length events)).
Proof.
  induction events as [|e rest IH]; intros index; [done|]. simpl length. rewrite seqZ_cons by lia. simpl. f_equal.
  rewrite IH. f_equal; lia.
Qed.

Lemma rows_of_length run seq events start : forall index, length (rows_of run seq index events start) = length events.
Proof. induction events as [|e rest IH]; intros index; [done|]. simpl. by rewrite IH. Qed.

Lemma rows_of_matches run seq events start : forall index,
  Forall2 (row_matches dumps) (rows_of run seq index events start) (stamp (start + index) events).1.
Proof.
  induction events as [|e rest IH]; intros index; [constructor|]. simpl. specialize (IH (index + 1)).
  rewrite Z.add_assoc in IH. destruct (stamp (start + index + 1) rest) as [st n]. simpl in *. by constructor.
Qed.

Lemma stream_rows_put run cm start db : stream_rows run (put_commit cm start db) =
  stream_rows run db ++ (if decide (run = ac_run_id cm) then rows_of (ac_run_id cm) (db_sequence db + 1) 0 (ac_events cm) start else []).
Proof.
  unfold stream_rows, put_commit. cbn [db_events]. rewrite filter_app. f_equal.
  pose proof (rows_of_stream (ac_run_id cm) (db_sequence db + 1) (ac_events cm) start 0) as Hs. rewrite Forall_forall in Hs.
  destruct (decide (run = ac_run_id cm)) as [->|Hne].
  - apply filter_all. intros r Hr. by destruct (Hs r Hr).
  - apply filter_none. intros r Hr. destruct (Hs r Hr) as [-> _]. congruence.
Qed.

Lemma put_commit_wf cm start db : db_wf db -> start = Z.of_nat (length (stream_rows (ac_run_id cm) db)) + 1 -> db_wf (put_commit cm start db).
Proof.
  intros [Ho Hs] Hst. split.
  - intros run. rewrite stream_rows_put. case_decide as Hd; [|rewrite app_nil_r; apply Ho]. subst run.
    rewrite map_app, Ho, rows_of_offsets, length_app, rows_of_length, Nat2Z.inj_add, seqZ_app by lia.
    f_equal. f_equal. lia.
  - cbn [put_commit db_events db_sequence]. apply Forall_app. split.
    + eapply Forall_impl; [exact Hs|]. simpl. lia.
    + eapply Forall_impl; [apply rows_of_stream|]. simpl. intros r [_ ->]. lia.
Qed.

Lemma put_commit_represents cm start db L : represents dumps db L -> start = Z.of_nat (length (stream_rows (ac_run_id cm) db)) + 1 ->
  represents dumps (put_commit cm start db) (spec_append cm L).
Proof.
  intros Hr Hst run. rewrite stream_rows_put. unfold spec_append. case_decide as Hd; [|rewrite app_nil_r; apply Hr]. subst run.
  apply Forall2_app; [apply Hr|]. pose proof (rows_of_matches (ac_run_id cm) (db_sequence db + 1) (ac_events cm) start 0) as Hm.
  rewrite Z.add_0_r in Hm. rewrite (represents_length dumps db L _ Hr) in Hst. by rewrite <-Hst.
Qed.
End rows.

(** A statement, or a sequence of them, in an open transaction: it does its work, or a
    failure of the schedule is raised; the committed database is not touched. *)
Definition tx_steps {D A} (m : PyM (connection D) A) (d : D) (a : A) (d' : D) : Prop := forall c, cn_working c = Some d ->
  (exists fs, m c = (Ret a, mkConnection (cn_committed c) (Some d') fs) /\ (cn_failures c = [] -> fs = [])) \/
  (cn_failures c <> [] /\ exists msg w fs, m c = (Raise (OperationalError msg), mkConnection (cn_committed c) w fs)).

Lemma tx_ret {D A} (a : A) (d : D) : tx_steps (mret a) d a d.
Proof. intros [k w fs] Hw. simpl in Hw. subst w. left. by exists fs. Qed.

Lemma tx_bind {D A B} (m : PyM (connection D) A) (k : A -> PyM (connection D) B) d a d1 b d2 :
  tx_steps m d a d1 -> tx_steps (k a) d1 b d2 -> tx_steps (m ≫= k) d b d2.
Proof.
  intros Hm Hk c Hc. unfold mbind, PyM_bind. destruct (Hm c Hc) as [(fs & -> & Hfs)|(Hne & msg & w & fs & ->)].
  - destruct (Hk (mkConnection (cn_committed c) (Some d1) fs) eq_refl) as [(fs' & -> & Hfs')|(Hne & msg & w & fs' & ->)].
    + left. exists fs'. split; [done|]. auto.
    + right. split; [|by eexists _, _, _]. intros Hnil. by apply Hne, Hfs.
  - right. split; [done|]. by eexists _, _, _.
Qed.

(** One statement that does not violate a constraint. *)
Lemma tx_execute {D A} (f : PyM (connection D) A) d a d' :
  (forall k fs, f (mkConnection k (Some d) fs) = (Ret a, mkConnection k (Some d') fs)) -> tx_steps (execute f) d a d'.
Proof.
  intros Hf [k w fs] Hw. simpl in Hw. subst w. unfold execute. cbn [cn_failures cn_committed cn_working].
  destruct fs as [|[] fs]; rewrite ?Hf.
  - left. by eexists.
  - left. eexists. by split.
  - right. split; [done|]. by eexists _, _, _.
  - right. split; [done|]. by eexists _, _, _.
Qed.

(** It raises [e], unless a failure of the schedule is raised before. *)
Definition tx_fails {D A} (m : PyM (connection D) A) (d : D) (e : exn) : Prop := forall c, cn_working c = Some d ->
  exists w fs e', m c = (Raise e', mkConnection (cn_committed c) w fs) /\
    (e' = e \/ cn_failures c <> [] /\ exists msg, e' = OperationalError msg).

Lemma tx_fails_bind {D A B} (m : PyM (connection D) A) (k : A -> PyM (connection D) B) d e : tx_fails m d e -> tx_fails (m ≫= k) d e.
Proof. intros Hm c Hc. destruct (Hm c Hc) as (w & fs & e' & Heq & He). exists w, fs, e'. unfold mbind, PyM_bind. by rewrite Heq. Qed.

Lemma tx_bind_fails {D A B} (m : PyM (connection D) A) (k : A -> PyM (connection D) B) d a d1 e :
  tx_steps m d a d1 -> tx_fails (k a) d1 e -> tx_fails (m ≫= k) d e.
Proof.
  intros Hm Hk c Hc. unfold mbind, PyM_bind. destruct (Hm c Hc) as [(fs & -> & Hfs)|(Hne & msg & w & fs & ->)].
  - destruct (Hk (mkConnection (cn_committed c) (Some d1) fs) eq_refl) as (w & fs' & e' & -> & He). exists w, fs', e'. split; [done|].
    destruct He as [->|(Hne & msg & ->)]; [by left|right]. split; [|by eexists]. intros Hnil. by apply Hne, Hfs.
  - exists w, fs, (OperationalError msg). split; [done|]. right. split; [done|by eexists].
Qed.

Lemma tx_execute_fails {D A} (f : PyM (connection D) A) d e :
  (forall k fs, f (mkConnection k (Some d) fs) = (Raise e, mkConnection k (Some d) fs)) -> tx_fails (execute f) d e.
Proof.
  intros Hf [k w fs] Hw. simpl in Hw. subst w. unfold execute. cbn [cn_failures cn_committed cn_working].
  destruct fs as [|[] fs]; rewrite ?Hf; eexists _, _, _; (split; [done|]); try (by left); right; (split; [done|by eexists]).
Qed.

(** The log of a database [D] can be read and replaced. *)
Section transactions.
Context {D : Type} (log_of : D -> log_db) (set_log : log_db -> D -> D) (dumps : pyval -> string).
Context (get_set : forall l d, log_of (set_log l d) = l) (set_set : forall l l' d, set_log l (set_log l' d) = set_log l d).

Lemma tx_max_offset run d : tx_steps (max_offset log_of run) d (max_of run (log_of d)) d.
Proof. by apply tx_execute. Qed.

Lemma tx_next_offset run d : tx_steps (_load_next_offset log_of run) d (max_of run (log_of d) + 1) d.
Proof. eapply tx_bind; [apply tx_max_offset|apply tx_ret]. Qed.

Definition with_commit_row (cm : ActionCommit) (db : log_db) : log_db :=
  mkLogDb (db_commits db ++ [mkCommitRow (db_sequence db + 1) (ac_run_id cm) (ac_commit_id cm) (ac_created_at cm) (Z.of_nat (length (ac_events cm)))])
    (db_sequence db + 1) (db_events db).

Definition with_rows (rows : list event_row) (db : log_db) : log_db := mkLogDb (db_commits db) (db_sequence db) (db_events db ++ rows).

Lemma tx_commit_row cm d : ac_events cm <> [] ->
  tx_steps (_insert_commit_row log_of set_log cm) d (db_sequence (log_of d) + 1) (set_log (with_commit_row cm (log_of d)) d).
Proof.
  intros Hne. apply tx_execute. intros k fs. unfold seen_db, set_seen. cbn [cn_working cn_committed cn_failures default].
  assert (Z.of_nat (length (ac_events cm)) <=? 0 = false) as ->; [|done].
  destruct (ac_events cm) as [|e es]; [done|]. apply Z.leb_gt. cbn [length]. lia.
Qed.

(** A row whose commit is there and which no row there conflicts with. *)
Lemma tx_event_row r d : existsb (fun k => cr_commit_sequence k =? er_commit_sequence r) (db_commits (log_of d)) = true ->
  existsb (conflicts r) (db_events (log_of d)) = false ->
  tx_steps (insert_event_row log_of set_log r) d tt (set_log (with_rows [r] (log_of d)) d).
Proof.
  intros Hk Hc. apply tx_execute. intros k fs. unfold seen_db, set_seen. cbn [cn_working cn_committed cn_failures from_option].
  unfold id. by rewrite Hk, Hc.
Qed.

Lemma tx_event_row_conflict r d r' : existsb (fun k => cr_commit_sequence k =? er_commit_sequence r) (db_commits (log_of d)) = true ->
  r' ∈ db_events (log_of d) -> er_stream_run_id r' = er_stream_run_id r -> er_commit_offset r' = er_commit_offset r ->
  tx_fails (insert_event_row log_of set_log r) d (IntegrityError "UNIQUE constraint failed").
Proof.
  intros Hk Hin Hr Ho. apply tx_execute_fails. intros k fs. unfold seen_db, set_seen. cbn [cn_working cn_committed cn_failures from_option].
  unfold id. rewrite Hk. assert (existsb (conflicts r) (db_events (log_of d)) = true) as ->; [|done].
  apply existsb_exists. exists r'. split; [by apply list_elem_of_In|]. unfold conflicts. apply orb_true_iff. left. by apply bool_decide_eq_true.
Qed.

Lemma conflicts_false r l : (forall r', r' ∈ l -> er_stream_run_id r' = er_stream_run_id r -> er_commit_offset r' <> er_commit_offset r) ->
  (forall r', r' ∈ l -> er_commit_sequence r' = er_commit_sequence r -> er_event_index r' <> er_event_index r) ->
  existsb (conflicts r) l = false.
Proof.
  intros Ho Hs. apply not_true_iff_false. intros (r' & Hin & Hc)%existsb_exists. apply list_elem_of_In in Hin.
  unfold conflicts in Hc. apply orb_true_iff in Hc as [Hc|Hc]; apply bool_decide_eq_true in Hc as [H1 H2].
  - by apply (Ho r' Hin).
  - by apply (Hs r' Hin).
Qed.

Lemma tx_rows run seq events start : forall index d,
  existsb (fun k => cr_commit_sequence k =? seq) (db_commits (log_of d)) = true ->
  (forall r, r ∈ db_events (log_of d) -> er_stream_run_id r = run -> er_commit_offset r < start + index) ->
  (forall r, r ∈ db_events (log_of d) -> er_commit_sequence r = seq -> er_event_index r < index) ->
  tx_steps (_insert_event_rows log_of set_log dumps run seq index events start) d tt
    (match events with [] => d | _ => set_log (with_rows (rows_of dumps run seq index events start) (log_of d)) d end).
Proof.
  induction events as [|e rest IH]; intros index d Hk Ho Hs; [apply tx_ret|].
  set (r := row_of_event dumps run seq index (start + index) e).
  set (d1 := set_log (with_rows [r] (log_of d)) d).
  assert (log_of d1 = with_rows [r] (log_of d)) as Hd1 by apply get_set.
  eapply tx_bind with (d1 := d1).
  - apply tx_event_row; [done|]. apply conflicts_false; cbn [r row_of_event er_stream_run_id er_commit_offset er_commit_sequence er_event_index].
    + intros r' Hin Hr. specialize (Ho r' Hin Hr). lia.
    + intros r' Hin Hr. specialize (Hs r' Hin Hr). lia.
  - specialize (IH (index + 1) d1). rewrite Hd1 in IH.
    assert (match rest with [] => d1 | _ :: _ => set_log (with_rows (rows_of dumps run seq (index + 1) rest start) (with_rows [r] (log_of d))) d1 end =
      set_log (with_rows (rows_of dumps run seq index (e :: rest) start) (log_of d)) d) as Heq.
    { cbn [rows_of]. fold r. destruct rest as [|e' rest]; [done|]. unfold d1. rewrite set_set. unfold with_rows. cbn [db_commits db_sequence db_events].
      by rewrite <-app_assoc. }
    rewrite <-Heq. apply IH; cbn [with_rows db_commits db_events]; [done| |].
    + intros r' [Hin|Hin]%elem_of_app Hr; [specialize (Ho r' Hin Hr); lia|]. apply list_elem_of_singleton in Hin as ->. simpl. lia.
    + intros r' [Hin|Hin]%elem_of_app Hr; [specialize (Hs r' Hin Hr); lia|]. apply list_elem_of_singleton in Hin as ->. simpl. lia.
Qed.

(** The rows of a commit, when the offset is the next one of its stream. *)
Lemma tx_insert_rows cm start d : ac_events cm <> [] -> db_wf (log_of d) ->
  start = Z.of_nat (length (stream_rows (ac_run_id cm) (log_of d))) + 1 ->
  let d1 := set_log (with_commit_row cm (log_of d)) d in
  tx_steps (_insert_event_rows log_of set_log dumps (ac_run_id cm) (db_sequence (log_of d) + 1) 0 (ac_events cm) start) d1 tt
    (set_log (put_commit dumps cm start (log_of d)) d).
Proof.
  intros Hne [Ho Hs] Hst d1. assert (log_of d1 = with_commit_row cm (log_of d)) as Hd1 by apply get_set.
  assert (set_log (put_commit dumps cm start (log_of d)) d =
    match ac_events cm with [] => d1 | _ => set_log (with_rows (rows_of dumps (ac_run_id cm) (db_sequence (log_of d) + 1) 0 (ac_events cm) start) (log_of d1)) d1 end) as ->.
  { rewrite Hd1. unfold d1. rewrite set_set. destruct (ac_events cm) as [|e es] eqn:He; [done|].
    unfold put_commit, with_rows, with_commit_row. by rewrite He. }
  apply tx_rows; rewrite Hd1; cbn [with_commit_row db_commits db_events].
  - rewrite existsb_app. apply orb_true_iff. right. simpl. by rewrite Z.eqb_refl.
  - intros r Hin Hr. subst start. assert (r ∈ stream_rows (ac_run_id cm) (log_of d)) as Hin' by (unfold stream_rows; by apply list_elem_of_filter).
    apply list_elem_of_lookup in Hin' as [i Hi]. assert (map er_commit_offset (stream_rows (ac_run_id cm) (log_of d)) !! i = Some (er_commit_offset r)) as Hm.
    { rewrite list_lookup_fmap. by rewrite Hi. }
    rewrite Ho in Hm. apply lookup_seqZ in Hm. lia.
  - intros r Hin Hr. rewrite Forall_forall in Hs. specialize (Hs r Hin). simpl in Hs. lia.
Qed.
End transactions.

(** The log on its own connection *****************************************************)

Section own_connection.
Implicit Types (c : Log.conn) (L : event_map).

Definition unique_error : exn := IntegrityError "UNIQUE constraint failed".

(** An open transaction ends with the block, whatever comes of it. *)
Lemma with_connection_steps {A} (m : PyM Log.conn A) k d a c : cn_working c = Some k -> cn_committed c = k -> tx_steps m k a d ->
  (exists fs, Log.with_connection m c = (Ret a, mkConnection d None fs) /\ (cn_failures c = [] -> fs = [])) \/
  (cn_failures c <> [] /\ exists msg fs, Log.with_connection m c = (Raise (OperationalError msg), mkConnection k None fs)).
Proof.
  intros Hw Hk Hm. unfold Log.with_connection. destruct (Hm c Hw) as [(fs & -> & Hfs)|(Hne & msg & w & fs & ->)].
  - unfold Log.driver_commit, execute. cbn [cn_working cn_failures cn_committed]. rewrite Hk. destruct fs as [|[] fs].
    + left. by exists [].
    + left. exists fs. split; [done|]. intros Hnil. by specialize (Hfs Hnil).
    + right. split; [intros Hnil; by specialize (Hfs Hnil)|]. by eexists _, _.
    + right. split; [intros Hnil; by specialize (Hfs Hnil)|]. by eexists _, _.
  - right. split; [done|]. exists msg, fs. unfold Log.driver_rollback, py_modify. cbn. by rewrite Hk.
Qed.

Lemma with_connection_raise {A} (m : PyM Log.conn A) c e c' : m c = (Raise e, c') ->
  Log.with_connection m c = (Raise e, mkConnection (cn_committed c') None (cn_failures c')).
Proof. intros Hm. unfold Log.with_connection. by rewrite Hm. Qed.

(** The part of an append that is in the transaction. *)
Definition own_rows (cm : ActionCommit) (start : Z) : PyM Log.conn Z :=
  seq ← _insert_commit_row id (fun db _ => db) cm;
  _ ← _insert_event_rows id (fun db _ => db) Log.dumps (ac_run_id cm) seq 0 (ac_events cm) start;
  mret seq.

Lemma own_rows_steps cm start k : ac_events cm <> [] -> db_wf k -> start = Z.of_nat (length (stream_rows (ac_run_id cm) k)) + 1 ->
  tx_steps (own_rows cm start) k (db_sequence k + 1) (put_commit Log.dumps cm start k).
Proof.
  intros Hne Hwf Hst. eapply tx_bind; [apply (tx_commit_row id (fun db _ => db) cm k Hne)|].
  eapply tx_bind; [|apply tx_ret]. by apply (tx_insert_rows id (fun db _ => db) Log.dumps).
Qed.

(** Another connection was faster: the first row violates the key of its stream. *)
Lemma own_rows_conflict cm start k r : ac_events cm <> [] ->
  r ∈ db_events k -> er_stream_run_id r = ac_run_id cm -> er_commit_offset r = start -> tx_fails (own_rows cm start) k unique_error.
Proof.
  intros Hne Hin Hr Ho. eapply tx_bind_fails; [apply (tx_commit_row id (fun db _ => db) cm k Hne)|]. apply tx_fails_bind.
  destruct (ac_events cm) as [|e rest]; [done|]. apply tx_fails_bind.
  apply (tx_event_row_conflict id (fun db _ => db)) with r; [|done|done|].
  - unfold with_commit_row, id. cbn [db_commits]. rewrite existsb_app. apply orb_true_iff. right. simpl. by rewrite Z.eqb_refl.
  - simpl. lia.
Qed.

Lemma next_offset_cases run k fs :
  (exists fs', _load_next_offset id run (mkConnection k None fs) = (Ret (max_of run k + 1), mkConnection k None fs') /\ (fs = [] -> fs' = [])) \/
  (fs <> [] /\ exists msg fs', _load_next_offset id run (mkConnection k None fs) = (Raise (OperationalError msg), mkConnection k None fs')).
Proof.
  unfold _load_next_offset, max_offset, execute. unfold mbind, PyM_bind. cbn [cn_failures cn_committed cn_working].
  destruct fs as [|[] fs]; [left; by eexists|left; eexists; by split|right..]; (split; [done|]); by eexists _, _.
Qed.

Lemma append_opens others cm n k fs fs' : ac_events cm <> [] ->
  _load_next_offset id (ac_run_id cm) (mkConnection k None fs) = (Ret n, mkConnection k None fs') ->
  Log.append_action_commit others cm (mkConnection k None fs) =
  match Log.with_connection (own_rows cm n) (mkConnection (others k) (Some (others k)) fs') with
  | (Ret seq, c) => (Ret ("commit-ref-" +:+ pretty seq), c)
  | (Raise e, c) => (Raise e, c)
  end.
Proof.
  intros Hne Hnext. unfold Log.append_action_commit, own_rows. destruct (ac_events cm) as [|e rest]; [done|].
  unfold mbind at 1, PyM_bind at 1. unfold Log.with_connection. unfold mbind at 1, PyM_bind at 1. rewrite Hnext.
  unfold mbind at 1, PyM_bind at 1. unfold Log.let_others, py_modify. cbn [cn_committed cn_working cn_failures]. done.
Qed.

(** What a log on its own connection is between calls. *)
Record own_log c L : Prop := {
  ol_idle : cn_working c = None;
  ol_wf : db_wf (cn_committed c);
  ol_holds : represents Log.dumps (cn_committed c) L
}.

(** The answers to an append: what others wrote to the run since its offset was read
    decides between the commit and an error. *)
Lemma own_append others cm c L L' : ac_events cm <> [] -> own_log c L ->
  db_wf (others (cn_committed c)) -> represents Log.dumps (others (cn_committed c)) L' -> L (ac_run_id cm) `prefix_of` L' (ac_run_id cm) ->
  let '(res, c') := Log.append_action_commit others cm c in
  (length (L' (ac_run_id cm)) = length (L (ac_run_id cm)) /\ (exists ref, res = Ret ref) /\ own_log c' (spec_append cm L') /\
     (cn_failures c = [] -> cn_failures c' = [])) \/
  (cn_working c' = None /\ (cn_committed c' = cn_committed c \/ cn_committed c' = others (cn_committed c)) /\ exists e, res = Raise e /\
     (e = unique_error /\ (length (L (ac_run_id cm)) < length (L' (ac_run_id cm)))%nat \/
      cn_failures c <> [] /\ exists msg, e = OperationalError msg)).
Proof.
  intros Hne [Hidle Hwf Hrep] Hwf' Hrep' Hpre. destruct c as [k w fs]. simpl in Hidle. subst w. cbn [cn_committed cn_failures cn_working] in *.
  destruct (next_offset_cases (ac_run_id cm) k fs) as [(fs' & Hnext & Hfs)|(Hf & msg & fs' & Hnext)].
  2:{ assert (Log.append_action_commit others cm (mkConnection k None fs) = (Raise (OperationalError msg), mkConnection k None fs')) as ->.
      { unfold Log.append_action_commit. destruct (ac_events cm); [done|]. unfold mbind at 1, PyM_bind at 1.
        rewrite (with_connection_raise _ _ (OperationalError msg) (mkConnection k None fs')); [done|].
        unfold mbind at 1, PyM_bind at 1. by rewrite Hnext. }
      right. split; [done|]. split; [by left|]. eexists. split; [done|]. right. split; [done|by eexists]. }
  rewrite (append_opens others cm _ k fs fs' Hne Hnext). clear Hnext.
  rewrite (max_of_wf _ _ Hwf), (represents_length _ _ _ _ Hrep).
  destruct (decide (length (L' (ac_run_id cm)) = length (L (ac_run_id cm)))) as [Hlen|Hlen].
  - assert (Z.of_nat (length (L (ac_run_id cm))) + 1 = Z.of_nat (length (stream_rows (ac_run_id cm) (others k))) + 1) as Hst.
    { by rewrite (represents_length _ _ _ _ Hrep'), Hlen. }
    destruct (with_connection_steps (own_rows cm (Z.of_nat (length (L (ac_run_id cm))) + 1)) (others k) _ _ (mkConnection (others k) (Some (others k)) fs')
      eq_refl eq_refl (own_rows_steps cm _ (others k) Hne Hwf' Hst)) as [(fs2 & -> & Hfs2)|(Hf & msg & fs2 & ->)].
    + left. split; [done|]. split; [by eexists|]. split; [|cbn; auto]. split; [done| |]; cbn [cn_committed].
      * by apply put_commit_wf.
      * by apply put_commit_represents.
    + right. split; [done|]. split; [by right|]. eexists. split; [done|]. right. cbn in Hf. split; [|by eexists]. intros Hnil. by apply Hf, Hfs.
  - assert (exists r, r ∈ db_events (others k) /\ er_stream_run_id r = ac_run_id cm /\ er_commit_offset r = Z.of_nat (length (L (ac_run_id cm))) + 1) as (r & Hin & Hr & Ho).
    { apply prefix_length in Hpre. set (n := length (L (ac_run_id cm))) in *.
      destruct (lookup_lt_is_Some_2 (stream_rows (ac_run_id cm) (others k)) n) as [r Hi].
      { rewrite (represents_length _ _ _ _ Hrep'). lia. }
      exists r. pose proof (dw_offsets _ Hwf' (ac_run_id cm)) as Hoff.
      assert (map er_commit_offset (stream_rows (ac_run_id cm) (others k)) !! n = Some (er_commit_offset r)) as Hm by (rewrite list_lookup_fmap; by rewrite Hi).
      rewrite Hoff in Hm. apply lookup_seqZ in Hm. apply list_elem_of_lookup_2 in Hi. unfold stream_rows in Hi. apply list_elem_of_filter in Hi as [? ?].
      split_and!; [done|done|lia]. }
    destruct (own_rows_conflict cm _ (others k) r Hne Hin Hr Ho (mkConnection (others k) (Some (others k)) fs') eq_refl) as (w & fs2 & e & Heq & He).
    rewrite (with_connection_raise _ _ _ _ Heq). right. split; [done|]. split; [by right|]. eexists. split; [done|].
    apply prefix_length in Hpre. destruct He as [->|(Hf & msg & ->)]; [left; split; [done|lia]|right]. cbn in Hf. split; [|by eexists]. intros Hnil. by apply Hf, Hfs.
Qed.

(** What comes back of an event: the keys of its payload in order, and no schema version. *)
Definition canon_payload (d : odict string pyval) : odict string pyval := sort_items (map (fun kv => (kv.1, json_canon kv.2)) d).

Definition canon_event (e : RuntimeEvent) : RuntimeEvent :=
  mkRuntimeEvent (ev_run_id e) (ev_event_id e) (ev_commit_offset e) (ev_event_type e) (ev_event_class e) (ev_event_authority e)
    (ev_ordering_key e) (ev_wake_policy e) (ev_created_at e) (ev_idempotency_key e) (ev_payload_ref e) (canon_payload <$> ev_payload_json e) "1".

(** A payload without floats, whose dictionaries have distinct keys. *)
Definition payload_ok (e : RuntimeEvent) : Prop :=
  match ev_payload_json e with Some d => float_free (PDict d) = true /\ dicts_wf (PDict d) | None => True end.

Lemma row_decoded float_repr r e : row_matches Log.dumps r e -> payload_ok e -> _row_to_runtime_event float_repr r = Ret (canon_event e).
Proof.
  intros -> Hp. unfold _row_to_runtime_event, _deserialize_payload, canon_event, payload_ok in *. cbn [row_of_event er_payload_json].
  destruct (ev_payload_json e) as [d|]; [|done]. unfold _serialize_payload, Log.dumps. destruct Hp as [Hf Hwf].
  rewrite json_loads_compact by done. done.
Qed.

Lemma rows_decoded float_repr rows es : Forall2 (row_matches Log.dumps) rows es -> Forall payload_ok es ->
  decode_all (_row_to_runtime_event float_repr) rows = Ret (map canon_event es).
Proof.
  induction 1 as [|r e rows es Hr Hrs IH]; intros Hp; [done|]. apply Forall_cons in Hp as [He Hes]. cbn [decode_all].
  rewrite (row_decoded float_repr r e Hr He), (IH Hes). done.
Qed.

(** Rows in the order of their offsets. *)
Lemma rows_sorted rows : forall n, map er_commit_offset rows = seqZ n (Z.of_nat (length rows)) ->
  StronglySorted offset_le rows /\ forall r r', r ∈ rows -> r' ∈ rows -> er_commit_offset r = er_commit_offset r' -> r = r'.
Proof.
  induction rows as [|r rows IH]; intros n Hn; [split; [constructor|by intros ? ? ?%elem_of_nil]|].
  cbn [length map] in Hn. rewrite seqZ_cons in Hn by lia. injection Hn as Hr Hn.
  replace (Z.pred (Z.of_nat (S (length rows)))) with (Z.of_nat (length rows)) in Hn by lia.
  destruct (IH _ Hn) as [Hs Hu].
  assert (forall r', r' ∈ rows -> n < er_commit_offset r') as Hlt.
  { intros r' Hin. apply (list_elem_of_fmap_2 er_commit_offset) in Hin. change (er_commit_offset <$> rows) with (map er_commit_offset rows) in Hin.
    rewrite Hn in Hin. apply elem_of_seqZ in Hin. lia. }
  split.
  - constructor; [done|]. apply Forall_forall. intros r' Hin. specialize (Hlt r' Hin). unfold offset_le. lia.
  - intros a b [->|Ha]%elem_of_cons [->|Hb]%elem_of_cons Heq; [done|specialize (Hlt b Hb); lia|specialize (Hlt a Ha); lia|by apply Hu].
Qed.

Lemma sorted_filter (P : event_row -> Prop) `{!forall r, Decision (P r)} rows : StronglySorted offset_le rows -> StronglySorted offset_le (filter P rows).
Proof.
  induction 1 as [|r rows Hs IH Hr]; [constructor|]. rewrite filter_cons. case_decide; [|done]. constructor; [done|].
  apply Forall_forall. intros r' [_ Hin]%list_elem_of_filter. rewrite Forall_forall in Hr. by apply Hr.
Qed.

#[local] Instance offset_le_trans : Transitive offset_le.
Proof. intros a b c. unfold offset_le. lia. Qed.
#[local] Instance offset_le_total : Total offset_le.
Proof. intros a b. unfold offset_le. lia. Qed.

Lemma rows_ordered (P : event_row -> Prop) `{!forall r, Decision (P r)} rows : map er_commit_offset rows = seqZ 1 (Z.of_nat (length rows)) ->
  merge_sort offset_le (filter P rows) = filter P rows.
Proof.
  intros Hn. destruct (rows_sorted rows 1 Hn) as [Hs Hu]. apply (StronglySorted_unique_strong offset_le).
  - intros a b Ha Hb Hab Hba. rewrite merge_sort_Permutation in Ha. apply list_elem_of_filter in Ha as [_ Ha]. apply list_elem_of_filter in Hb as [_ Hb].
    apply Hu; [done..|]. unfold offset_le in *. lia.
  - apply (StronglySorted_merge_sort offset_le).
  - by apply sorted_filter.
  - apply merge_sort_Permutation.
Qed.

Lemma filter_matches (o : Z) rows es : Forall2 (row_matches Log.dumps) rows es ->
  Forall2 (row_matches Log.dumps) (filter (fun r => o < er_commit_offset r) rows) (filter (fun e => o < ev_commit_offset e) es).
Proof.
  induction 1 as [|r e rows es Hr Hrs IH]; [constructor|]. rewrite !filter_cons.
  assert (er_commit_offset r = ev_commit_offset e) as -> by (by rewrite Hr). case_decide; [by constructor|done].
Qed.

(** Reading a run: the events of the log after the offset, in order. *)
Lemma own_load float_repr run o k L : db_wf k -> represents Log.dumps k L -> Forall payload_ok (L run) ->
  Log.load float_repr run o (mkConnection k None []) = (Ret (map canon_event (filter (fun e => o < ev_commit_offset e) (L run))), mkConnection k None []).
Proof.
  intros Hwf Hrep Hp. unfold Log.load, select_events, execute. unfold mbind, PyM_bind. cbn [cn_failures]. unfold seen_db. cbn [cn_working cn_committed from_option].
  unfold id. rewrite rows_ordered by apply Hwf. unfold py_lift.
  rewrite (rows_decoded float_repr _ (filter (fun e => o < ev_commit_offset e) (L run))); [done|by apply filter_matches|].
  apply Forall_forall. intros e [_ Hin]%list_elem_of_filter. rewrite Forall_forall in Hp. by apply Hp.
Qed.
End own_connection.

(** The log and the ledger on one connection ******************************************)

Section colocated.
Implicit Types (c : Colocated.conn) (L : event_map).

(** A transaction up to its COMMIT. *)
Definition tx_ends {A} (m : PyM Colocated.conn A) (d : bundle_db) (a : A) (d' : bundle_db) : Prop := forall c, cn_working c = Some d ->
  (exists fs, m c = (Ret a, mkConnection d' None fs) /\ (cn_failures c = [] -> fs = [])) \/
  (cn_failures c <> [] /\ exists msg w fs, m c = (Raise (OperationalError msg), mkConnection (cn_committed c) w fs)).

Lemma ends_commit {A} (a : A) d : tx_ends (_ ← Colocated.commit; mret a) d a d.
Proof.
  intros [k w fs] Hw. simpl in Hw. subst w. unfold Colocated.commit, execute. unfold mbind, PyM_bind. cbn [cn_failures cn_committed cn_working].
  destruct fs as [|[] fs]; [left; by eexists|left; eexists; by split|right..]; (split; [done|]); by eexists _, _, _.
Qed.

Lemma ends_bind {A B} (m : PyM Colocated.conn A) (k : A -> PyM Colocated.conn B) d a d1 b d2 :
  tx_steps m d a d1 -> tx_ends (k a) d1 b d2 -> tx_ends (m ≫= k) d b d2.
Proof.
  intros Hm Hk c Hc. unfold mbind, PyM_bind. destruct (Hm c Hc) as [(fs & -> & Hfs)|(Hne & msg & w & fs & ->)].
  - destruct (Hk (mkConnection (cn_committed c) (Some d1) fs) eq_refl) as [(fs' & -> & Hfs')|(Hne & msg & w & fs' & ->)].
    + left. exists fs'. split; [done|]. auto.
    + right. split; [|by eexists _, _, _]. intros Hnil. by apply Hne, Hfs.
  - right. split; [done|]. by eexists _, _, _.
Qed.

(** All or nothing: what the handlers of the bundle make of a transaction. *)
Definition all_or_nothing {A} (m : PyM Colocated.conn A) (d : bundle_db) (a : A) (d' : bundle_db) : Prop := forall c, cn_working c = None -> cn_committed c = d ->
  (exists fs, m c = (Ret a, mkConnection d' None fs) /\ (cn_failures c = [] -> fs = [])) \/
  (cn_failures c <> [] /\ exists msg fs, m c = (Raise (OperationalError msg), mkConnection d None fs)).

Lemma rolled_back {A} (undo : PyM Colocated.conn unit) msg k w fs : undo = Colocated.rollback \/ undo = py_suppress Colocated.rollback ->
  exists msg', (_ ← undo; py_raise (OperationalError msg) : PyM Colocated.conn A) (mkConnection k w fs) = (Raise (OperationalError msg'), mkConnection k None fs).
Proof.
  intros [-> | ->]; destruct w as [d|]; unfold py_suppress, py_except, Colocated.rollback; unfold mbind, PyM_bind; cbn; by eexists.
Qed.

Lemma handled {A} (m : PyM Colocated.conn A) undo d a d' c : undo = Colocated.rollback \/ undo = py_suppress Colocated.rollback ->
  tx_ends m d a d' -> cn_working c = Some d ->
  (exists fs, py_except is_exception m (fun e => _ ← undo; py_raise e) c = (Ret a, mkConnection d' None fs) /\ (cn_failures c = [] -> fs = [])) \/
  (cn_failures c <> [] /\ exists msg fs, py_except is_exception m (fun e => _ ← undo; py_raise e) c = (Raise (OperationalError msg), mkConnection (cn_committed c) None fs)).
Proof.
  intros Hu Hm Hc. unfold py_except. destruct (Hm c Hc) as [(fs & -> & Hfs)|(Hne & msg & w & fs & ->)]; [left; by eexists|].
  right. split; [done|]. cbn [is_exception]. destruct (rolled_back (A := A) undo msg (cn_committed c) w fs Hu) as [msg' Hr]. exists msg', fs. exact Hr.
Qed.

Lemma begin_cases k fs :
  (exists fs', Colocated.begin (mkConnection k None fs) = (Ret tt, mkConnection k (Some k) fs') /\ (fs = [] -> fs' = [])) \/
  (fs <> [] /\ exists msg fs', Colocated.begin (mkConnection k None fs) = (Raise (OperationalError msg), mkConnection k None fs')).
Proof.
  unfold Colocated.begin, execute. cbn [cn_failures cn_committed cn_working].
  destruct fs as [|[] fs]; [left; by eexists|left; eexists; by split|right..]; (split; [done|]); by eexists _, _.
Qed.

(** The bundle between calls. *)
Record bundle_ok c L : Prop := {
  bo_idle : cn_working c = None;
  bo_wf : db_wf (bd_log (cn_committed c));
  bo_holds : represents Colocated.dumps (bd_log (cn_committed c)) L;
  bo_keys : NoDup (map dr_dispatch_idempotency_key (bd_ledger (cn_committed c)))
}.

Lemma insert_commit_steps cm d L : ac_events cm <> [] -> db_wf (bd_log d) -> represents Colocated.dumps (bd_log d) L ->
  tx_steps (Colocated.insert_commit cm) d (db_sequence (bd_log d) + 1)
    (Colocated.set_bd_log (put_commit Colocated.dumps cm (Z.of_nat (length (L (ac_run_id cm))) + 1) (bd_log d)) d).
Proof.
  intros Hne Hwf Hrep. eapply tx_bind; [apply tx_next_offset|]. rewrite (max_of_wf _ _ Hwf), (represents_length _ _ _ _ Hrep).
  eapply tx_bind; [by apply tx_commit_row|]. eapply tx_bind; [|apply tx_ret].
  apply tx_insert_rows; [done|done|done|done|]. by rewrite (represents_length _ _ _ _ Hrep).
Qed.

Lemma bundle_appended cm d L fs : db_wf (bd_log d) -> represents Colocated.dumps (bd_log d) L -> NoDup (map dr_dispatch_idempotency_key (bd_ledger d)) ->
  bundle_ok (mkConnection (Colocated.set_bd_log (put_commit Colocated.dumps cm (Z.of_nat (length (L (ac_run_id cm))) + 1) (bd_log d)) d) None fs) (spec_append cm L).
Proof.
  intros Hwf Hrep Hnd. assert (Z.of_nat (length (L (ac_run_id cm))) + 1 = Z.of_nat (length (stream_rows (ac_run_id cm) (bd_log d))) + 1) as Hst.
  { by rewrite (represents_length _ _ _ _ Hrep). }
  split; [done|by apply put_commit_wf|by apply put_commit_represents|done].
Qed.

Lemma bundle_idle c L d fs : bundle_ok c L -> cn_committed c = d -> bundle_ok (mkConnection d None fs) L.
Proof. intros [? ? ? ?] <-. by split. Qed.

Lemma tx_insert_record r d : SQLite.row_of (dr_dispatch_idempotency_key r) (bd_ledger d) = None ->
  tx_steps (Colocated.insert_record r) d tt (mkBundle (bd_log d) (bd_ledger d ++ [r])).
Proof. intros Hr. apply tx_execute. intros k fs. unfold seen_db, set_seen. cbn [cn_working cn_committed cn_failures from_option]. unfold id. by rewrite Hr. Qed.

Lemma tx_get key d : tx_steps (Colocated._get key) d (SQLite.row_of key (bd_ledger d)) d.
Proof. by apply tx_execute. Qed.

Lemma tx_rollback {A} (a : A) d : forall c, cn_working c = Some d ->
  (_ ← Colocated.rollback; mret a) c = (Ret a, mkConnection (cn_committed c) None (cn_failures c)).
Proof. intros [k w fs] Hw. simpl in Hw. by subst w. Qed.

(** The dispatch record, by whether the key is known. *)
Lemma atomic_known cm env c L r : ac_events cm <> [] -> bundle_ok c L ->
  SQLite.row_of (env_dispatch_idempotency_key env) (bd_ledger (cn_committed c)) = Some r ->
  let '(res, c') := Colocated.atomic_dispatch_record cm env c in
  cn_committed c' = cn_committed c /\ bundle_ok c' L /\
  (res = Ret ("", reservation_duplicate r) \/ cn_failures c <> [] /\ exists msg, res = Raise (OperationalError msg)).
Proof.
  intros Hne Hok Hr. pose proof (bo_idle _ _ Hok) as Hidle. destruct c as [k w fs]. simpl in Hidle, Hr. subst w. unfold Colocated.atomic_dispatch_record.
  destruct (ac_events cm) as [|e es]; [done|]. unfold mbind at 1, PyM_bind at 1.
  destruct (begin_cases k fs) as [(fs' & -> & Hfs)|(Hf & msg & fs' & ->)].
  2:{ split; [done|]. split; [by eapply bundle_idle|]. right. split; [done|by exists msg]. }
  set (c1 := mkConnection k (Some k) fs'). unfold py_except. unfold mbind at 1, PyM_bind at 1.
  destruct (tx_get (env_dispatch_idempotency_key env) k c1 eq_refl) as [(fs2 & -> & Hfs2)|(Hf & msg & w & fs2 & ->)].
  - rewrite Hr, (tx_rollback _ k) by done. split; [done|]. split; [by eapply bundle_idle|by left].
  - cbn [is_exception]. destruct (rolled_back (A := string * DedupeReservation) Colocated.rollback msg (cn_committed c1) w fs2 (or_introl eq_refl)) as [msg' ->].
    split; [done|]. split; [by eapply bundle_idle|]. right. split; [|by exists msg']. intros Hnil. by apply Hf, Hfs.
Qed.

Definition record_of (env : IdempotencyEnvelope) : DedupeRecord :=
  mkRecord (env_dispatch_idempotency_key env) (env_operation_fingerprint env) (env_attempt_seq env) reserved (env_peer_operation_id env) None.

Lemma atomic_new cm env c L : ac_events cm <> [] -> bundle_ok c L ->
  SQLite.row_of (env_dispatch_idempotency_key env) (bd_ledger (cn_committed c)) = None ->
  let '(res, c') := Colocated.atomic_dispatch_record cm env c in
  (exists ref, res = Ret (ref, reservation_accepted) /\ bd_ledger (cn_committed c') = bd_ledger (cn_committed c) ++ [record_of env] /\ bundle_ok c' (spec_append cm L)) \/
  (cn_failures c <> [] /\ (exists msg, res = Raise (OperationalError msg)) /\ cn_committed c' = cn_committed c /\ bundle_ok c' L).
Proof.
  intros Hne Hok Hr. pose proof Hok as [Hidle Hwf Hrep Hnd]. destruct c as [k w fs]. simpl in Hidle, Hr, Hwf, Hrep, Hnd. subst w. unfold Colocated.atomic_dispatch_record.
  destruct (ac_events cm) as [|e es] eqn:He; [done|]. unfold mbind at 1, PyM_bind at 1.
  destruct (begin_cases k fs) as [(fs' & -> & Hfs)|(Hf & msg & fs' & ->)].
  2:{ right. split; [done|]. split; [by exists msg|]. split; [done|]. by eapply bundle_idle. }
  set (d1 := mkBundle (bd_log k) (bd_ledger k ++ [record_of env])).
  set (d2 := Colocated.set_bd_log (put_commit Colocated.dumps cm (Z.of_nat (length (L (ac_run_id cm))) + 1) (bd_log d1)) d1).
  match goal with |- context [py_except is_exception ?m0 _ _] => set (m := m0) end.
  assert (tx_ends m k ("commit-ref-" +:+ pretty (db_sequence (bd_log d1) + 1), reservation_accepted) d2) as Hm.
  { eapply ends_bind; [apply tx_get|]. rewrite Hr. eapply ends_bind; [by apply tx_insert_record|].
    eapply ends_bind; [apply (insert_commit_steps cm d1 L); [by rewrite He|done|done]|]. apply ends_commit. }
  destruct (handled m Colocated.rollback k _ d2 (mkConnection k (Some k) fs') (or_introl eq_refl) Hm eq_refl) as [(fs2 & -> & Hfs2)|(Hf & msg & fs2 & ->)].
  - left. eexists. split; [done|]. split; [done|]. apply bundle_appended; [done|done|]. unfold d1. cbn [bd_ledger].
    rewrite map_app. apply NoDup_app. split_and!; [done| |apply NoDup_singleton]. intros x Hx ->%list_elem_of_singleton. apply row_of_None in Hr. by apply Hr.
  - right. cbn in Hf. split; [intros Hnil; by apply Hf, Hfs|]. split; [by exists msg|]. split; [done|]. by eapply bundle_idle.
Qed.

Lemma bundle_append cm c L : ac_events cm <> [] -> bundle_ok c L ->
  let '(res, c') := Colocated.append_action_commit cm c in
  ((exists ref, res = Ret ref) /\ bundle_ok c' (spec_append cm L) /\ bd_ledger (cn_committed c') = bd_ledger (cn_committed c)) \/
  (cn_failures c <> [] /\ (exists msg, res = Raise (OperationalError msg)) /\ cn_committed c' = cn_committed c /\ bundle_ok c' L).
Proof.
  intros Hne Hok. pose proof Hok as [Hidle Hwf Hrep Hnd]. destruct c as [k w fs]. simpl in Hidle, Hwf, Hrep, Hnd. subst w. unfold Colocated.append_action_commit.
  destruct (ac_events cm) as [|e es] eqn:He; [done|]. unfold mbind at 1, PyM_bind at 1. unfold py_except at 1. unfold mbind at 1, PyM_bind at 1.
  destruct (begin_cases k fs) as [(fs' & -> & Hfs)|(Hf & msg & fs' & ->)].
  2:{ cbn [is_exception]. right. split; [done|]. split; [by exists msg|]. split; [done|]. by eapply bundle_idle. }
  set (d2 := Colocated.set_bd_log (put_commit Colocated.dumps cm (Z.of_nat (length (L (ac_run_id cm))) + 1) (bd_log k)) k).
  match goal with |- context [mbind ?k0 (Colocated.insert_commit cm)] => set (m := mbind k0 (Colocated.insert_commit cm)) end.
  assert (tx_ends m k (db_sequence (bd_log k) + 1) d2) as Hm.
  { eapply ends_bind; [apply (insert_commit_steps cm k L); [by rewrite He|done|done]|]. apply ends_commit. }
  destruct (Hm (mkConnection k (Some k) fs') eq_refl) as [(fs2 & -> & Hfs2)|(Hf & msg & w & fs2 & ->)].
  - left. split; [by eexists|]. split; [by apply bundle_appended|done].
  - cbn [is_exception cn_committed]. destruct (rolled_back (A := Z) (py_suppress Colocated.rollback) msg k w fs2 (or_intror eq_refl)) as [msg' ->].
    right. split; [intros Hnil; by apply Hf, Hfs|]. split; [by exists msg'|]. split; [done|]. by eapply bundle_idle.
Qed.
End colocated.

(** The ledger of the bundle is a lawful ledger, and its calls leave the log alone. *)
Definition bundle_view (c : Colocated.conn) : ledger := sql_view (Colocated.ledger_conn c).
Definition bundle_wf (c : Colocated.conn) : Prop := sql_wf (Colocated.ledger_conn c).

Lemma ledger_conn_set s c : Colocated.ledger_conn (Colocated.set_ledger_conn s c) = s.
Proof. destruct s as [t [w|] fs]; done. Qed.

Lemma on_ledger_law {A} (m : PyM SQLite.conn A) spec : implements sql_view sql_wf sql_unavailable m spec ->
  implements bundle_view bundle_wf sql_unavailable (Colocated.on_ledger m) spec.
Proof.
  intros Hm c Hwf. unfold Colocated.on_ledger, py_zoom. destruct (Hm (Colocated.ledger_conn c) Hwf) as [Hwf' Hres].
  destruct (m (Colocated.ledger_conn c)) as [r s]. cbn [fst snd] in *. unfold bundle_wf, bundle_view. rewrite ledger_conn_set. by split.
Qed.

Lemma on_ledger_log {A} (m : PyM SQLite.conn A) c : bd_log (cn_committed (Colocated.on_ledger m c).2) = bd_log (cn_committed c).
Proof. unfold Colocated.on_ledger, py_zoom. by destruct (m (Colocated.ledger_conn c)). Qed.

#[export] Instance Colocated_laws : DedupeStoreLaws Colocated.conn := {|
  ds_view := bundle_view;
  ds_wf := bundle_wf;
  ds_unavailable := sql_unavailable;
  ds_unavailable_is_exception := ds_unavailable_is_exception (S := SQLite.conn);
  ds_unavailable_not_state := ds_unavailable_not_state (S := SQLite.conn);
  ds_reserve_law env := on_ledger_law _ _ (ds_reserve_law (S := SQLite.conn) env);
  ds_reserve_and_dispatch_law env peer := on_ledger_law _ _ (ds_reserve_and_dispatch_law (S := SQLite.conn) env peer);
  ds_mark_dispatched_law key peer := on_ledger_law _ _ (ds_mark_dispatched_law (S := SQLite.conn) key peer);
  ds_mark_acknowledged_law key ack := on_ledger_law _ _ (ds_mark_acknowledged_law (S := SQLite.conn) key ack);
  ds_mark_succeeded_law key ack := on_ledger_law _ _ (ds_mark_succeeded_law (S := SQLite.conn) key ack);
  ds_mark_unknown_effect_law key := on_ledger_law _ _ (ds_mark_unknown_effect_law (S := SQLite.conn) key);
  ds_get_law key := on_ledger_law _ _ (ds_get_law (S := SQLite.conn) key)
|}.

(** Histories on one connection *******************************************************)

(** The commits that were accepted, and the connection in the end. *)
Fixpoint append_all (cms : list ActionCommit) (c : Log.conn) : list ActionCommit * Log.conn :=
  match cms with
  | [] => ([], c)
  | cm :: rest =>
      let '(r, c1) := Log.append_action_commit id cm c in
      let '(taken, c2) := append_all rest c1 in
      (match r with Ret _ => cm :: taken | Raise _ => taken end, c2)
  end.

(** The log in memory after the same commits. *)
Definition memory_log (cms : list ActionCommit) : event_log := foldl (fun l cm => (EventLog.append_action_commit cm l).2) empty_log cms.

Definition commit_ok (cm : ActionCommit) : Prop := Forall payload_ok (ac_events cm).

Lemma spec_append_ext cm L L' run : (forall run, L run = L' run) -> spec_append cm L run = spec_append cm L' run.
Proof. intros H. unfold spec_append. by rewrite !H. Qed.

Lemma stamp_payloads evs : forall n, Forall payload_ok evs -> Forall payload_ok (stamp n evs).1.
Proof.
  induction evs as [|e evs IH]; intros n H; [constructor|]. apply Forall_cons in H as [He H]. simpl. specialize (IH (n + 1) H).
  destruct (stamp (n + 1) evs) as [st n']. by constructor.
Qed.

Lemma spec_append_payloads cm L : commit_ok cm -> (forall run, Forall payload_ok (L run)) -> forall run, Forall payload_ok (spec_append cm L run).
Proof. intros Hc HL run. unfold spec_append. case_decide; [|done]. apply Forall_app. split; [done|by apply stamp_payloads]. Qed.

(** The log in memory does the same, as long as it evicts nothing. *)
Lemma memory_append cm l run : log_wf l -> ac_events cm <> [] -> Z.of_nat (length (events_by_run l)) < _MAX_RETAINED_RUNS ->
  run_events (EventLog.append_action_commit cm l).2 run = spec_append cm (fun run => run_events l run) run /\
  (length (events_by_run (EventLog.append_action_commit cm l).2) <= S (length (events_by_run l)))%nat.
Proof.
  intros Hwf Hne Hroom. assert (EventLog.evict (put_run cm l) = put_run cm l) as He by (apply evict_room; [done|by right]).
  split.
  - unfold spec_append. case_decide as Hd; [subst run; by apply append_run_events|]. rewrite append_eq by done. cbn [snd]. rewrite He.
    unfold put_run. cbn [events_by_run]. by rewrite od_get_set_ne.
  - rewrite append_eq by done. cbn [snd]. rewrite He. unfold put_run. cbn [events_by_run]. rewrite od_set_length. destruct (od_mem _ _); lia.
Qed.

Lemma append_empty cm c : ac_events cm = [] ->
  Log.append_action_commit id cm c = (Raise (ValueError "ActionCommit.events must contain at least one event."), c).
Proof. intros He. unfold Log.append_action_commit. by rewrite He. Qed.

(** Appending to both logs keeps them together. *)
Lemma append_all_matches cms : forall c l L, own_log c L -> log_wf l -> (forall run, run_events l run = L run) ->
  (forall run, Forall payload_ok (L run)) -> Forall commit_ok cms -> Z.of_nat (length (events_by_run l)) + Z.of_nat (length cms) <= _MAX_RETAINED_RUNS ->
  let '(taken, c') := append_all cms c in
  let l' := foldl (fun l cm => (EventLog.append_action_commit cm l).2) l taken in
  taken `sublist_of` cms /\ (cn_failures c = [] -> taken = filter (fun cm => ac_events cm <> []) cms) /\
  log_wf l' /\ exists L', own_log c' L' /\ (forall run, run_events l' run = L' run) /\ (forall run, Forall payload_ok (L' run)).
Proof.
  induction cms as [|cm cms IH]; intros c l L Hown Hwf HL Hp Hcms Hroom.
  { simpl. split; [done|]. split; [done|]. split; [done|]. by exists L. }
  apply Forall_cons in Hcms as [Hcm Hcms]. cbn [append_all]. cbn [length] in Hroom.
  destruct (decide (ac_events cm = [])) as [Hnil|Hne].
  { rewrite append_empty by done. specialize (IH c l L Hown Hwf HL Hp Hcms ltac:(lia)). destruct (append_all cms c) as [taken c'].
    destruct IH as (Hsub & Hall & Hrest). split; [by constructor|]. split; [|done]. intros Hf. rewrite filter_cons, decide_False by tauto. auto. }
  pose proof (own_append id cm c L L Hne Hown (ol_wf _ _ Hown) (ol_holds _ _ Hown) ltac:(done)) as Hstep.
  destruct (Log.append_action_commit id cm c) as [r c1]. destruct Hstep as [(_ & [ref ->] & Hown1 & Hf1)|(Hidle & Hk & e & -> & He)].
  - destruct (memory_append cm l (ac_run_id cm) Hwf Hne ltac:(lia)) as [_ Hlen].
    specialize (IH c1 (EventLog.append_action_commit cm l).2 (spec_append cm L) Hown1 (append_wf cm l Hwf)).
    assert (forall run, run_events (EventLog.append_action_commit cm l).2 run = spec_append cm L run) as HL1.
    { intros run. destruct (memory_append cm l run Hwf Hne ltac:(lia)) as [-> _]. by apply spec_append_ext. }
    specialize (IH HL1 (spec_append_payloads cm L Hcm Hp) Hcms ltac:(lia)). destruct (append_all cms c1) as [taken c'].
    destruct IH as (Hsub & Hall & Hrest). split; [by constructor|]. split; [|done]. intros Hf. rewrite filter_cons, decide_True by done. f_equal. auto.
  - assert (cn_committed c1 = cn_committed c) as Hk1 by (by destruct Hk).
    assert (own_log c1 L) as Hown1 by (destruct Hown; split; [done|by rewrite Hk1|by rewrite Hk1]).
    specialize (IH c1 l L Hown1 Hwf HL Hp Hcms ltac:(lia)). destruct (append_all cms c1) as [taken c'].
    destruct IH as (Hsub & Hall & Hrest). split; [by constructor|]. split; [|done]. intros Hf.
    destruct He as [[_ Hlt]|[Hnf _]]; [lia|done].
Qed.

(** Properties ********************************************************************)

(** C31: two connections never give the same offset in a run.  An append reads its next
    offset before the driver opens the transaction; when another connection has appended
    to the run by then, the append is refused by the key of the stream and nothing of it
    is stored, and when none has, all rows of the commit are stored, numbered on, or a
    failing statement is raised and none is. *)
Theorem append_race_refused (others : log_db -> log_db) cm (c : Log.conn) (L L' : string -> list RuntimeEvent) :
  ac_events cm <> [] -> own_log c L -> db_wf (others (cn_committed c)) -> represents Log.dumps (others (cn_committed c)) L' ->
  L (ac_run_id cm) `prefix_of` L' (ac_run_id cm) ->
  let '(res, c') := Log.append_action_commit others cm c in
  (length (L' (ac_run_id cm)) = length (L (ac_run_id cm)) /\ (exists ref, res = Ret ref) /\ own_log c' (spec_append cm L') /\
     (cn_failures c = [] -> cn_failures c' = [])) \/
  (cn_working c' = None /\ (cn_committed c' = cn_committed c \/ cn_committed c' = others (cn_committed c)) /\ exists e, res = Raise e /\
     (e = unique_error /\ (length (L (ac_run_id cm)) < length (L' (ac_run_id cm)))%nat \/
      cn_failures c <> [] /\ exists msg, e = OperationalError msg)).
Proof. apply own_append. Qed.

(** C32: the SQLite log and the log in memory hold the same events.  Starting from an empty database,
    whatever commits (at most 5000, the runs the log in memory keeps, without floats in their payloads) are
    appended and whatever statements fail, the commits that were accepted, appended to
    the log in memory, make it answer every [load] as the SQLite log does, up to the
    order of the keys of payloads; without failures every commit with an event is
    accepted. *)
Theorem sqlite_log_matches (float_repr : string -> string) cms (c : Log.conn) :
  cn_working c = None -> cn_committed c = empty_db -> Forall commit_ok cms -> Z.of_nat (length cms) <= _MAX_RETAINED_RUNS ->
  let '(taken, c') := append_all cms c in
  taken `sublist_of` cms /\ (cn_failures c = [] -> taken = filter (fun cm => ac_events cm <> []) cms) /\
  forall run o, (Log.load float_repr run o (mkConnection (cn_committed c') None [])).1 =
    Ret (map canon_event (EventLog.load run o (memory_log taken))).
Proof.
  intros Hidle Hempty Hcms Hlen. assert (own_log c (fun _ => [])) as Hown.
  { split; [done|rewrite Hempty; split; [done|constructor]|rewrite Hempty; intros run; constructor]. }
  pose proof (append_all_matches cms c empty_log (fun _ => []) Hown (reachable_wf _ lr_empty) ltac:(done) ltac:(by constructor) Hcms ltac:(simpl; lia)) as Hm.
  destruct (append_all cms c) as [taken c']. destruct Hm as (Hsub & Hall & Hwf & L & Hown' & HL & Hp). split; [done|]. split; [done|]. intros run o.
  rewrite (own_load float_repr run o _ L (ol_wf _ _ Hown') (ol_holds _ _ Hown') (Hp run)). cbn [fst]. unfold EventLog.load, memory_log. by rewrite HL.
Qed.

(** C33: a dispatch record is written as a whole or not at all.  Whatever statements of
    the transaction fail, the call either answers what the ledger answers to the claim of
    the key, with the commit in the log exactly when the claim was granted, or raises
    [OperationalError] with ledger and log as they were; the connection is idle again. *)
Theorem colocated_atomic cm env (c : Colocated.conn) (L : string -> list RuntimeEvent) : ac_events cm <> [] -> bundle_ok c L ->
  let '(res, c') := Colocated.atomic_dispatch_record cm env c in
  (exists ref reservation, res = Ret (ref, reservation) /\
     (Ret reservation, bundle_view c') = LedgerSpec.claim reserved (env_peer_operation_id env) env (bundle_view c) /\
     bundle_ok c' (if rv_accepted reservation then spec_append cm L else L)) \/
  (cn_failures c <> [] /\ (exists msg, res = Raise (OperationalError msg)) /\ cn_committed c' = cn_committed c /\ bundle_ok c' L).
Proof.
  intros Hne Hok. unfold LedgerSpec.claim, bundle_view, sql_view. cbn [Colocated.ledger_conn SQLite.committed]. rewrite <-row_of_view.
  destruct (SQLite.row_of (env_dispatch_idempotency_key env) (bd_ledger (cn_committed c))) as [r|] eqn:Hr.
  - pose proof (atomic_known cm env c L r Hne Hok Hr) as H. destruct (Colocated.atomic_dispatch_record cm env c) as [res c'].
    destruct H as (Hk & Hok' & [-> |[Hf [msg ->]]]); [left|right; split_and!; [done|by exists msg|done|done]].
    exists "", (reservation_duplicate r). rewrite Hk. by split_and!.
  - pose proof (atomic_new cm env c L Hne Hok Hr) as H. destruct (Colocated.atomic_dispatch_record cm env c) as [res c'].
    destruct H as [(ref & -> & Hk & Hok')|(Hf & [msg ->] & Hk & Hok')]; [left|right; split_and!; [done|by exists msg|done|done]].
    exists ref, reservation_accepted. split; [done|]. split; [|done]. rewrite Hk, (table_view_app_new _ (record_of env)) by done. done.
Qed.

(** Concrete instances ****************************************************************)

Definition idle_conn (fs : list SQLite.fault) : Log.conn := mkConnection empty_db None fs.

Lemma empty_tables_wf : db_wf empty_db.
Proof. split; [done|constructor]. Qed.

Lemma empty_holds dumps : represents dumps empty_db (fun _ => []).
Proof. intros run. constructor. Qed.

(** Another connection commits before the transaction is opened. *)
Lemma append_race_refused_witness :
  let others := put_commit Log.dumps example_commit 1 in
  exists e c', Log.append_action_commit others example_commit (idle_conn []) = (Raise e, c') /\ length (db_events (cn_committed c')) = 2%nat.
Proof.
  intros others. pose proof (append_race_refused others example_commit (idle_conn []) (fun _ => []) (spec_append example_commit (fun _ => []))
    ltac:(discriminate) ltac:(split; [reflexivity|apply empty_tables_wf|apply empty_holds]) ltac:(apply put_commit_wf; [apply empty_tables_wf|reflexivity])
    ltac:(apply put_commit_represents; [apply empty_holds|reflexivity]) ltac:(apply prefix_nil)) as H.
  destruct (Log.append_action_commit others example_commit (idle_conn [])) as [res c'] eqn:Heq.
  destruct H as [(Hlen & _)|(_ & Hk & e & -> & _)]; [discriminate Hlen|]. exists e, c'. split; [reflexivity|].
  assert (c' = (Log.append_action_commit others example_commit (idle_conn [])).2) as -> by (rewrite Heq; reflexivity). vm_compute. reflexivity.
Defined.

(** The second commit meets a full disk. *)
Definition example_faults : list SQLite.fault := [SQLite.NoFault; SQLite.NoFault; SQLite.NoFault; SQLite.NoFault; SQLite.NoFault; SQLite.NoFault; SQLite.NoFault; SQLite.Aborted].

Lemma sqlite_log_matches_witness :
  let taken := (append_all [example_commit; example_commit; example_commit] (idle_conn example_faults)).1 in
  taken `sublist_of` [example_commit; example_commit; example_commit] /\ length taken = 2%nat.
Proof.
  intros taken. split; [|vm_compute; reflexivity].
  pose proof (sqlite_log_matches id [example_commit; example_commit; example_commit] (idle_conn example_faults) eq_refl eq_refl
    ltac:(repeat constructor) ltac:(vm_compute; discriminate)) as H.
  unfold taken. destruct (append_all [example_commit; example_commit; example_commit] (idle_conn example_faults)) as [taken' c']. exact (proj1 H).
Defined.

Definition idle_bundle (fs : list SQLite.fault) : Colocated.conn := mkConnection (mkBundle empty_db []) None fs.

Lemma colocated_atomic_witness :
  exists ref, (Colocated.atomic_dispatch_record example_commit example_envelope (idle_bundle [])).1 = Ret (ref, reservation_accepted) /\
    length (db_events (bd_log (cn_committed (Colocated.atomic_dispatch_record example_commit example_envelope (idle_bundle [])).2))) = 2%nat.
Proof.
  pose proof (colocated_atomic example_commit example_envelope (idle_bundle []) (fun _ => []) ltac:(discriminate)
    ltac:(split; [reflexivity|apply empty_tables_wf|apply empty_holds|constructor])) as H.
  exists "commit-ref-1". split; [|vm_compute; reflexivity].
  destruct (Colocated.atomic_dispatch_record example_commit example_envelope (idle_bundle [])) as [res c'] eqn:Heq.
  destruct H as [(ref & reservation & -> & _)|(Hf & _)]; [|by destruct Hf]. apply (f_equal fst) in Heq. rewrite <-Heq. vm_compute. reflexivity.
Defined.
