(* ===== verification/SchemaMigration.v ===== *)
(** * Event schema migration
      ([agent_kernel/kernel/persistence/event_schema_migration.py])

    A registry of directed migration steps between schema versions and the
    breadth-first search that chains them.  Migration functions come from the
    code that registers them and are the values of the registry.  The search
    is proved to terminate, to fail exactly when the target is unreachable,
    and to give a shortest chain of registered steps. *)

From stdpp Require Import base tactics option list strings sorting.
From Stdlib Require Import ZArith.
From S2P Require Import Prelude PyStr PyDict PyVal Contracts.

Abbreviation version := string.

(** [self._migrations] *)
Abbreviation migrator := (odict (version * version) (RuntimeEvent -> outcome RuntimeEvent)).

Definition register (from_version to_version : version) (fn : RuntimeEvent -> outcome RuntimeEvent) :
    PyM migrator unit :=
  if decide (from_version = to_version) then
    py_raise (ValueError "from_version and to_version must differ.")
  else py_modify (od_set (from_version, to_version) fn).

(** The variables of [_resolve_path]. *)
Record bfs := mkBfs {
  queue : list version;
  parent : odict version (option version);
  edge_to : odict version (version * version)
}.

(** One round of [for src, dst in self._migrations]. *)
Definition visit_edge (current : version) (s : bfs) (edge : version * version) : bfs :=
  let '(src, dst) := edge in
  if negb (bool_decide (src = current)) || od_mem dst (parent s) then s
  else mkBfs (queue s ++ [dst]) (od_set dst (Some current) (parent s))
             (od_set dst (src, dst) (edge_to s)).

(** [while queue: ...], at most [fuel] rounds. *)
Fixpoint search (fuel : nat) (migrations : list (version * version)) (target : version) (s : bfs) :
    outcome bfs :=
  match queue s with
  | [] => Ret s
  | current :: rest =>
      if decide (current = target) then Ret (mkBfs rest (parent s) (edge_to s))
      else match fuel with
           | O => Raise (OutsideModel "fuel")
           | S fuel' =>
               search fuel' migrations target
                 (foldl (visit_edge current) (mkBfs rest (parent s) (edge_to s)) migrations)
           end
  end.

(** [while node != from_version: ...] with the list reversed at the end. *)
Fixpoint walk_back (fuel : nat) (s : bfs) (from_version node : version)
    (path : list (version * version)) : outcome (list (version * version)) :=
  if decide (node = from_version) then Ret path
  else match fuel with
       | O => Raise (OutsideModel "fuel")
       | S fuel' =>
           match od_get node (edge_to s) with
           | None => Raise (KeyError node)
           | Some edge =>
               match od_get node (parent s) with
               | Some (Some p) => walk_back fuel' s from_version p (edge :: path)
               | Some None => Raise (OutsideModel "None as a node")
               | None => Raise (KeyError node)
               end
           end
       end.

Definition _resolve_path (m : migrator) (from_version target_version : version) :
    outcome (list (version * version)) :=
  s ← search (S (length m)) (od_keys m) target_version
        (mkBfs [from_version] [(from_version, None)] []);
  if negb (od_mem target_version (parent s)) then mret []
  else walk_back (S (length (parent s))) s from_version target_version [].

(** [replace(event, schema_version=v)] and [replace(event, payload_json=p)] *)
Definition with_schema_version (v : version) (e : RuntimeEvent) : RuntimeEvent :=
  mkRuntimeEvent (ev_run_id e) (ev_event_id e) (ev_commit_offset e) (ev_event_type e)
    (ev_event_class e) (ev_event_authority e) (ev_ordering_key e) (ev_wake_policy e)
    (ev_created_at e) (ev_idempotency_key e) (ev_payload_ref e) (ev_payload_json e) v.

Definition with_payload_json (p : odict string pyval) (e : RuntimeEvent) : RuntimeEvent :=
  mkRuntimeEvent (ev_run_id e) (ev_event_id e) (ev_commit_offset e) (ev_event_type e)
    (ev_event_class e) (ev_event_authority e) (ev_ordering_key e) (ev_wake_policy e)
    (ev_created_at e) (ev_idempotency_key e) (ev_payload_ref e) (Some p) (ev_schema_version e).

Definition _attach_original_schema_version (original migrated : RuntimeEvent) : RuntimeEvent :=
  if decide (ev_schema_version original = ev_schema_version migrated) then migrated
  else
    let payload := default [] (ev_payload_json migrated) in
    with_payload_json
      (if od_mem "original_schema_version" payload then payload
       else od_set "original_schema_version" (PStr (ev_schema_version original)) payload)
      migrated.

(** The loop over the path. *)
Fixpoint apply_path (m : migrator) (path : list (version * version)) (migrated : RuntimeEvent) :
    outcome RuntimeEvent :=
  match path with
  | [] => Ret migrated
  | (from_version, to_version) :: rest =>
      match od_get (from_version, to_version) m with
      | None => Raise (KeyError from_version)
      | Some migrate_fn =>
          migrated' ← migrate_fn migrated;
          apply_path m rest
            (if decide (ev_schema_version migrated' = to_version) then migrated'
             else with_schema_version to_version migrated')
      end
  end.

Definition no_path (from target : version) : exn :=
  SchemaMigrationError ("No schema migration path from " +:+ py_repr_str from +:+ " to " +:+
    py_repr_str target +:+ ".").

Definition migrate (m : migrator) (event : RuntimeEvent) (target_version : version) :
    outcome RuntimeEvent :=
  if decide (ev_schema_version event = target_version) then mret event
  else
    path ← _resolve_path m (ev_schema_version event) target_version;
    match path with
    | [] => Raise (no_path (ev_schema_version event) target_version)
    | _ =>
        migrated ← apply_path m path event;
        mret (_attach_original_schema_version event migrated)
    end.

Fixpoint migrate_batch (m : migrator) (events : list RuntimeEvent) (target_version : version) :
    outcome (list RuntimeEvent) :=
  match events with
  | [] => mret []
  | e :: rest =>
      e' ← migrate m e target_version;
      rest' ← migrate_batch m rest target_version;
      mret (e' :: rest')
  end.

(** A chain of registered steps from one version to another. *)
Inductive chain (E : list (version * version)) : version -> version -> list (version * version) -> Prop :=
  | chain_nil a : chain E a a []
  | chain_cons a b c p : (a, b) ∈ E -> chain E b c p -> chain E a c ((a, b) :: p).

(** Lemmas *************************************************************************)

Lemma chain_app E a b c p q : chain E a b p -> chain E b c q -> chain E a c (p ++ q).
Proof. induction 1; simpl; [done|]. intros. econstructor; eauto. Qed.

Lemma chain_snoc E a b c p : chain E a b p -> (b, c) ∈ E -> chain E a c (p ++ [(b, c)]).
Proof. intros Hp Hbc. eapply chain_app; [done|]. econstructor; [done|constructor]. Qed.

(** The search keeps: a tree of discovered versions rooted at the source with
    depth [D]; a queue sorted by depth, all within one of [lo]; and, for the
    closed versions [K], that the relaxed edges [P] out of them lead to
    discovered versions at most one deeper. *)
Record bfs_inv (E : list (version * version)) (a : version) (K : list version)
    (D : version -> nat) (P : version * version -> Prop) (lo : nat) (s : bfs) : Prop := {
  bi_root : D a = 0 /\ od_get a (parent s) = Some None;
  bi_tree : forall y, y ∈ od_keys (parent s) -> y <> a -> exists x,
    od_get y (edge_to s) = Some (x, y) /\ od_get y (parent s) = Some (Some x) /\
    (x, y) ∈ E /\ x ∈ od_keys (parent s) /\ D y = S (D x);
  bi_queue : forall y, y ∈ queue s -> y ∈ od_keys (parent s) /\ lo <= D y <= S lo;
  bi_sorted : StronglySorted (fun x y => D x <= D y) (queue s);
  bi_split : forall y, y ∈ od_keys (parent s) -> y ∈ queue s \/ y ∈ K;
  bi_closed : forall x y, x ∈ K -> (x, y) ∈ E -> P (x, y) ->
    y ∈ od_keys (parent s) /\ D y <= S (D x);
  bi_low : forall x, x ∈ K -> x ∈ od_keys (parent s) /\ D x <= lo;
  bi_wf : od_wf (parent s);
  bi_sub : forall y, y ∈ od_keys (parent s) -> y ∈ a :: map snd E;
  bi_count : length (parent s) = length K + length (queue s);
  bi_depth : forall y, y ∈ od_keys (parent s) -> D y < length (parent s)
}.

Lemma bfs_inv_weaken E a K D P P' lo s :
  (forall e, e ∈ E -> P' e -> P e) -> bfs_inv E a K D P lo s -> bfs_inv E a K D P' lo s.
Proof. intros HP []. split; eauto. Qed.

Lemma bfs_inv_init E a : bfs_inv E a [] (fun _ => 0) (fun _ => True) 0
  (mkBfs [a] [(a, None)] []).
Proof.
  split; simpl.
  - split; [done|]. by rewrite decide_True.
  - intros y ->%list_elem_of_singleton. done.
  - intros y Hy. split; [done|lia].
  - repeat constructor.
  - auto.
  - by intros ?? ?%elem_of_nil.
  - by intros ? ?%elem_of_nil.
  - apply NoDup_singleton.
  - intros y ->%list_elem_of_singleton. by left.
  - done.
  - intros; lia.
Qed.

Lemma StronglySorted_snoc {A} (R : A -> A -> Prop) l x :
  StronglySorted R l -> (forall y, y ∈ l -> R y x) -> StronglySorted R (l ++ [x]).
Proof.
  induction 1 as [|y l Hl IH Hy]; intros Hx; simpl; [repeat constructor|].
  constructor; [apply IH; intros; apply Hx; by right|].
  apply Forall_app. split; [done|]. constructor; [apply Hx; by left|constructor].
Qed.

Lemma StronglySorted_impl {A} (R R' : A -> A -> Prop) l :
  (forall x y, x ∈ l -> y ∈ l -> R x y -> R' x y) -> StronglySorted R l -> StronglySorted R' l.
Proof.
  intros HR. induction 1 as [|x l Hl IH Hx]; [constructor|]. constructor.
  - apply IH. intros y z Hy Hz. apply HR; by right.
  - rewrite Forall_forall in *. intros y Hy. apply HR; [by left|by right|auto].
Qed.

(** One edge out of the version being expanded. *)
Lemma visit_edge_inv E a K D P s cur e :
  bfs_inv E a K D P (D cur) s -> cur ∈ K -> cur ∈ od_keys (parent s) -> e ∈ E ->
  exists D', bfs_inv E a K D' (fun e' => P e' \/ (e' = e /\ e.1 = cur)) (D' cur) (visit_edge cur s e) /\
    cur ∈ od_keys (parent (visit_edge cur s e)).
Proof.
  intros Hinv HcK Hck He. destruct e as [x y]. unfold visit_edge. simpl.
  destruct (bool_decide_reflect (x = cur)) as [->|Hne]; simpl.
  2:{ exists D. split; [|done]. eapply bfs_inv_weaken; [|exact Hinv]. intros e' _ [|[-> ?]]; done. }
  destruct (od_mem y (parent s)) eqn:Hm.
  { apply od_mem_true in Hm. exists D. split; [|done]. destruct Hinv as [R T Q So Sp C L W Su Co De].
    split; try done. intros x' y' Hx' Hxy [HP|[[= -> ->] _]]; [by apply C|]. split; [done|].
    destruct (Sp y Hm) as [Hq|Hk]; [by apply Q|]. destruct (L y Hk). lia. }
  assert (y ∉ od_keys (parent s)) as Hy by (rewrite <-od_mem_true; congruence).
  destruct Hinv as [R T Q So Sp C L W Su Co De].
  set (D' := fun z => if decide (z = y) then S (D cur) else D z).
  assert (D' y = S (D cur)) as HDy by (unfold D'; by rewrite decide_True).
  assert (forall z, z ∈ od_keys (parent s) -> D' z = D z) as HD.
  { intros z Hz. unfold D'. rewrite decide_False; [done|]. by intros ->. }
  assert (cur <> y) as Hcy by (by intros ->).
  exists D'. rewrite HD by done. simpl. rewrite elem_of_keys_set. split; [|by right].
  split; simpl; try setoid_rewrite elem_of_keys_set.
  - destruct R as [R1 R2]. assert (a ∈ od_keys (parent s)) by (apply od_get_is_Some; by eexists).
    rewrite HD, od_get_set_ne by (done || by intros ->). done.
  - intros z Hz Hza. destruct (decide (z = y)) as [->|Hzy].
    + exists cur. rewrite !od_get_set_eq, HDy, (HD cur) by done. naive_solver.
    + destruct Hz as [|Hz]; [done|]. destruct (T z Hz Hza) as (w & ? & ? & ? & ? & ?).
      exists w. rewrite !od_get_set_ne, !HD by done. naive_solver.
  - intros z [Hz| ->%list_elem_of_singleton]%elem_of_app; [|split; [by left|lia]].
    destruct (Q z Hz). rewrite HD by done. split; [by right|done].
  - apply StronglySorted_snoc.
    + eapply StronglySorted_impl; [|done]. intros z w Hz Hw. simpl.
      rewrite !HD by (by apply Q). done.
    + intros z Hz. rewrite HDy, HD by (by apply Q). by apply Q.
  - intros z [->|Hz]; [left; apply elem_of_app; right; by apply list_elem_of_singleton|].
    destruct (Sp z Hz); [left; apply elem_of_app; by left|by right].
  - intros z w Hz Hzw [HP|[[= -> ->] _]].
    + destruct (C z w Hz Hzw HP), (L z Hz). rewrite (HD w), (HD z) by done. auto.
    + rewrite HDy, (HD cur) by done. split; [by left|lia].
  - intros z Hz. destruct (L z Hz). rewrite HD by done. auto.
  - by apply od_wf_set.
  - intros z [->|Hz]; [right; apply list_elem_of_fmap; by exists (cur, y)|by apply Su].
  - rewrite od_set_length, Hm, length_app, Co. simpl. lia.
  - rewrite od_set_length, Hm. intros z [->|Hz]; [rewrite HDy; pose proof (De cur Hck); lia|].
    rewrite HD by done. pose proof (De z Hz). lia.
Qed.

Lemma visit_edges_inv E a K cur es D P s :
  bfs_inv E a K D P (D cur) s -> cur ∈ K -> cur ∈ od_keys (parent s) -> (forall e, e ∈ es -> e ∈ E) ->
  exists D', bfs_inv E a K D' (fun e => P e \/ (e ∈ es /\ e.1 = cur)) (D' cur)
    (foldl (visit_edge cur) s es).
Proof.
  revert D P s. induction es as [|e es IH]; intros D P s Hinv HcK Hck Hes; simpl.
  - exists D. eapply bfs_inv_weaken; [|exact Hinv]. by intros e _ [|[?%elem_of_nil _]].
  - destruct (visit_edge_inv E a K D P s cur e Hinv HcK Hck) as (D1 & Hinv1 & Hck1).
    { apply Hes. by left. }
    destruct (IH D1 _ _ Hinv1 HcK Hck1) as (D2 & Hinv2); [intros; apply Hes; by right|].
    exists D2. eapply bfs_inv_weaken; [|exact Hinv2]. setoid_rewrite elem_of_cons. naive_solver.
Qed.

(** Popping the head of the queue closes it, with none of its edges relaxed. *)
Lemma bfs_inv_pop E a K D lo s cur rest :
  bfs_inv E a K D (fun _ => True) lo s -> queue s = cur :: rest ->
  bfs_inv E a (cur :: K) D (fun e => e.1 <> cur) (D cur) (mkBfs rest (parent s) (edge_to s)) /\
  cur ∈ od_keys (parent s).
Proof.
  intros [R T Q So Sp C L W Su Co De] Hq. rewrite Hq in *.
  destruct (Q cur) as [Hck Hb]; [by left|]. inversion So as [|? ? So' Hle]; subst.
  rewrite Forall_forall in Hle. split; [|done]. split; simpl; try done.
  - intros y Hy. destruct (Q y) as [? ?]; [by right|]. split; [done|].
    specialize (Hle y Hy). simpl in Hle. lia.
  - intros y Hy. destruct (Sp y Hy) as [[->|?]%elem_of_cons|?];
      [right; by left|by left|right; by right].
  - intros x y [->|Hx]%elem_of_cons Hxy Hne; [done|]. by apply C.
  - intros x [->|Hx]%elem_of_cons; [done|]. destruct (L x Hx). split; [done|lia].
  - simpl in Co. lia.
Qed.

Lemma chain_closed E a K D lo s b p :
  bfs_inv E a K D (fun _ => True) lo s -> chain E a b p -> a ∈ K ->
  (b ∈ K /\ D b <= length p) \/
  (exists z, z ∈ queue s /\ D z <= length p).
Proof.
  intros Hinv Hp HaK. assert (D a = 0) as Ha by apply Hinv.
  assert (forall x q, chain E x b q -> forall n, x ∈ K -> D x <= n ->
    (b ∈ K /\ D b <= n + length q) \/ (exists z, z ∈ queue s /\ D z <= n + length q)) as Hgen.
  { clear Hp. intros x q. induction 1 as [x|x y c q Hxy Hq IH]; intros n Hx Hn.
    - left. split; [done|simpl; lia].
    - destruct (bi_closed _ _ _ _ _ _ _ Hinv x y Hx Hxy I) as [Hy HDy].
      destruct (bi_split _ _ _ _ _ _ _ Hinv y Hy) as [Hyq|HyK].
      + right. exists y. simpl. split; [done|lia].
      + simpl. rewrite <-Nat.add_succ_comm. apply IH; [done|lia]. }
  apply (Hgen a p Hp 0 HaK). lia.
Qed.

Lemma bfs_bound E a K D P lo s : bfs_inv E a K D P lo s -> length (parent s) <= S (length E).
Proof.
  intros Hinv. pose proof (bi_wf _ _ _ _ _ _ _ Hinv) as Hnd. unfold od_wf in Hnd.
  pose proof (bi_sub _ _ _ _ _ _ _ Hinv) as Hsub.
  assert (length (od_keys (parent s)) <= length (a :: map snd E)) as Hl.
  { apply submseteq_length, NoDup_submseteq; [done|]. intros y. apply Hsub. }
  unfold od_keys in Hl. rewrite length_map in Hl. simpl in Hl. by rewrite length_map in Hl.
Qed.

(** What the search leaves: the tree, and depths that no chain beats. *)
Record bfs_done (E : list (version * version)) (a t : version) (D : version -> nat) (s : bfs) : Prop := {
  bd_root : D a = 0 /\ a ∈ od_keys (parent s);
  bd_tree : forall y, y ∈ od_keys (parent s) -> y <> a -> exists x,
    od_get y (edge_to s) = Some (x, y) /\ od_get y (parent s) = Some (Some x) /\
    (x, y) ∈ E /\ x ∈ od_keys (parent s) /\ D y = S (D x);
  bd_depth : forall y, y ∈ od_keys (parent s) -> D y < length (parent s);
  bd_best : forall p, chain E a t p -> t ∈ od_keys (parent s) /\ D t <= length p
}.

Lemma search_done E a t K D lo s fuel :
  bfs_inv E a K D (fun _ => True) lo s -> fuel + length K = S (length E) -> t ∉ K ->
  a ∈ K \/ queue s = [a] ->
  exists s' D', search fuel E t s = Ret s' /\ bfs_done E a t D' s'.
Proof.
  revert K D lo s. induction fuel as [|fuel IH]; intros K D lo s Hinv Hf Ht Ha; simpl.
  all: destruct (queue s) as [|cur rest] eqn:Hq.
  1,3: exists s, D; split; [done|]; destruct Ha as [Ha|Ha]; [|done];
    pose proof Hinv as [R T Q So Sp C L W Su Co De]; split;
    [split; [apply R|apply od_get_is_Some; eexists; apply R]|done|done|];
    intros p Hp; destruct (chain_closed _ _ _ _ _ _ _ _ Hinv Hp Ha) as [[? _]|(z & Hz & _)];
    [done|rewrite Hq in Hz; by apply elem_of_nil in Hz].
  all: destruct (decide (cur = t)) as [->|Hct].
  1,3: eexists _, D; split; [done|]; pose proof Hinv as [R T Q So Sp C L W Su Co De]; split; simpl;
    [split; [apply R|apply od_get_is_Some; eexists; apply R]|done|done|];
    intros p Hp; split; [apply Q; rewrite Hq; by left|];
    destruct Ha as [Ha|[= -> ->]]; [|destruct R; lia];
    destruct (chain_closed _ _ _ _ _ _ _ _ Hinv Hp Ha) as [[? _]|(z & Hz & Hzl)]; [done|];
    rewrite Hq in So, Hz; inversion So as [|? ? _ Hle]; subst;
    rewrite Forall_forall in Hle; apply elem_of_cons in Hz as [->|Hz]; [done|];
    specialize (Hle z Hz); simpl in Hle; lia.
  - pose proof (bfs_bound _ _ _ _ _ _ _ Hinv) as Hb.
    pose proof (bi_count _ _ _ _ _ _ _ Hinv) as Hc. rewrite Hq in Hc. simpl in *. lia.
  - destruct (bfs_inv_pop _ _ _ _ _ _ _ _ Hinv Hq) as [Hpop Hck].
    destruct (visit_edges_inv _ _ _ cur E _ _ _ Hpop) as (D' & Hinv'); [by left|done|done|].
    eapply (bfs_inv_weaken _ _ _ _ _ (fun _ => True)) in Hinv'.
    2:{ intros e He _. destruct (decide (e.1 = cur)); [right|left]; done. }
    destruct (IH (cur :: K) D' (D' cur) _ Hinv') as (s' & D'' & Hs' & Hd).
    + simpl. lia.
    + by intros [->|?]%elem_of_cons.
    + destruct Ha as [Ha|[= -> ->]]; [left; by right|left; by left].
    + by exists s', D''.
Qed.

Lemma walk_back_spec E a t D s fuel y path :
  bfs_done E a t D s -> y ∈ od_keys (parent s) -> D y <= fuel ->
  exists q, walk_back fuel s a y path = Ret (q ++ path) /\ chain E a y q /\ length q = D y.
Proof.
  intros Hd. revert y path. induction fuel as [|fuel IH]; intros y path Hy Hf; simpl.
  all: destruct (decide (y = a)) as [->|Hya];
    [exists []; split_and!; [done|constructor|symmetry; apply Hd]|].
  all: destruct (bd_tree _ _ _ _ _ Hd y Hy Hya) as (x & He & Hp & Hxy & Hx & HD).
  { lia. }
  rewrite He, Hp. destruct (IH x ((x, y) :: path) Hx) as (q & Hq & Hc & Hl); [lia|].
  exists (q ++ [(x, y)]). rewrite Hq, <-app_assoc, length_app, Hl. simpl.
  split_and!; [done|by eapply chain_snoc|lia].
Qed.

Lemma resolve_path_spec (m : migrator) (a t : version) :
  exists path, _resolve_path m a t = Ret path /\
    ((path = [] /\ ~ exists p, chain (od_keys m) a t p) \/
     (chain (od_keys m) a t path /\ forall p, chain (od_keys m) a t p -> length path <= length p)).
Proof.
  unfold _resolve_path.
  destruct (search_done (od_keys m) a t [] (fun _ => 0) 0 (mkBfs [a] [(a, None)] []) (S (length m)))
    as (s & D & Hs & Hd).
  - apply bfs_inv_init.
  - unfold od_keys. rewrite length_map. simpl. lia.
  - by intros ?%elem_of_nil.
  - by right.
  - rewrite Hs. py_simpl. destruct (od_mem t (parent s)) eqn:Ht; simpl.
    + apply od_mem_true in Ht. pose proof (bd_depth _ _ _ _ _ Hd t Ht).
      destruct (walk_back_spec _ _ _ _ _ (S (length (parent s))) t [] Hd Ht) as (q & Hq & Hc & Hl);
        [lia|].
      exists q. simpl in Hq. rewrite app_nil_r in Hq. split; [done|]. right. split; [done|].
      intros p Hp. rewrite Hl. by apply Hd.
    + exists []. split; [done|]. left. split; [done|]. intros [p Hp].
      destruct (bd_best _ _ _ _ _ Hd p Hp) as [Hin _]. apply od_mem_true in Hin. congruence.
Qed.

Lemma attach_version e e' :
  ev_schema_version (_attach_original_schema_version e e') = ev_schema_version e' /\
  (ev_schema_version e <> ev_schema_version e' ->
   od_mem "original_schema_version"
     (default [] (ev_payload_json (_attach_original_schema_version e e'))) = true).
Proof.
  unfold _attach_original_schema_version. case_decide as Hd; [done|]. split; [done|]. intros _. simpl.
  destruct (od_mem "original_schema_version" (default [] (ev_payload_json e'))) eqn:Hm; [done|].
  unfold od_mem. by rewrite od_get_set_eq.
Qed.

Lemma apply_path_version m a b p e e' :
  chain (od_keys m) a b p -> ev_schema_version e = a -> apply_path m p e = Ret e' ->
  ev_schema_version e' = b.
Proof.
  intros Hp. revert e. induction Hp as [a|a b c p Hab Hp IH]; intros e He; simpl; [congruence|].
  destruct (od_get (a, b) m) as [fn|]; [|done]. py_simpl.
  destruct (fn e) as [e1|]; [|done]. case_decide; apply IH; done.
Qed.

Lemma apply_path_total m a b p e :
  chain (od_keys m) a b p ->
  (forall edge fn e0, od_get edge m = Some fn -> exists e1, fn e0 = Ret e1) ->
  exists e', apply_path m p e = Ret e'.
Proof.
  intros Hp Hfn. revert e. induction Hp as [a|a b c p Hab Hp IH]; intros e; simpl; [by eexists|].
  apply od_get_is_Some in Hab as [fn Hg]. rewrite Hg.
  destruct (Hfn _ _ e Hg) as [e1 He1]. py_simpl. rewrite He1. apply IH.
Qed.

(** Properties ********************************************************************)

(** the path search always ends, never fails on its own tables, and is
    correct and optimal: it returns the empty path exactly when source and
    target are the same or no chain of registered steps links them, and
    otherwise a chain of registered steps from source to target that is no
    longer than any other. *)
Theorem resolve_path_shortest (m : migrator) (a t : version) :
  exists path, _resolve_path m a t = Ret path /\
    (path = [] <-> a = t \/ ~ exists p, chain (od_keys m) a t p) /\
    (path <> [] -> chain (od_keys m) a t path /\
       forall p, chain (od_keys m) a t p -> length path <= length p).
Proof.
  destruct (resolve_path_spec m a t) as (path & Hr & Hor). exists path. split; [done|].
  destruct Hor as [[-> Hn]|[Hc Hb]]; (split; [split|]); try done.
  - by right.
  - intros ->. inversion Hc. by left.
  - intros [<-|Hn]; [|destruct Hn; by eexists].
    specialize (Hb [] (chain_nil _ _)). by destruct path; simpl in Hb; [|lia].
Qed.

(** migrating an event gives an event of the target version that records
    the version it came from when they differ; and with migration functions
    that do not raise, migration fails only with [SchemaMigrationError], exactly
    when the versions differ and no chain of registered steps links them. *)
Theorem migrate_correct (m : migrator) (e : RuntimeEvent) (t : version) :
  (forall e', migrate m e t = Ret e' ->
     ev_schema_version e' = t /\
     (ev_schema_version e = t -> e' = e) /\
     (ev_schema_version e <> t ->
      od_mem "original_schema_version" (default [] (ev_payload_json e')) = true)) /\
  ((forall edge fn e0, od_get edge m = Some fn -> exists e1, fn e0 = Ret e1) ->
   ((exists e', migrate m e t = Ret e') <-> exists p, chain (od_keys m) (ev_schema_version e) t p) /\
   ((~ exists p, chain (od_keys m) (ev_schema_version e) t p) ->
    migrate m e t = Raise (no_path (ev_schema_version e) t))).
Proof.
  destruct (resolve_path_spec m (ev_schema_version e) t) as (path & Hr & Hor).
  unfold migrate. rewrite Hr. py_simpl. destruct (decide (ev_schema_version e = t)) as [<-|Hne].
  { split.
    - intros e' [= <-]. done.
    - intros _. assert (exists p, chain (od_keys m) (ev_schema_version e) (ev_schema_version e) p)
        as Hc by (eexists; constructor).
      split; [split; [done|by eexists]|done]. }
  destruct Hor as [[-> Hn]|[Hc _]].
  { split; [done|]. intros _. split; [|done]. split; [by intros [? ?]|done]. }
  destruct path as [|edge path]; [by inversion Hc|]. split.
  - intros e' He'. destruct (apply_path m (edge :: path) e) as [e1|] eqn:Ha; [|done].
    simplify_eq/=. destruct (attach_version e e1) as [-> Hm].
    rewrite (apply_path_version _ _ _ _ _ _ Hc eq_refl Ha) in *. by split_and!.
  - intros Hfn. destruct (apply_path_total _ _ _ _ e Hc Hfn) as [e1 ->].
    split; [split; intros _; by eexists|]. intros []. by eexists.
Qed.

(** A registry with a detour: v1 -> v3 -> v4 and v1 -> v2 -> v3. *)
Definition example_step (e : RuntimeEvent) : outcome RuntimeEvent := Ret e.

Definition example_migrator : migrator :=
  [(("1", "2"), example_step); (("2", "3"), example_step); (("1", "3"), example_step);
   (("3", "4"), example_step)].

(** The search takes the short way round. *)
Example resolve_example : _resolve_path example_migrator "1" "4" = Ret [("1", "3"); ("3", "4")].
Proof. reflexivity. Qed.
