(* ===== verification/Projection.v ===== *)
(** * Decision projection
      ([InMemoryDecisionProjectionService] of [agent_kernel/kernel/minimal_runtime.py])

    The run projection is a replay of the runtime event log, kept per run and
    caught up from the last projected offset.  The file models the replay
    (authority filter, optional schema migration, transition resolution with
    the operational precedence, child-run tracking) and the cached service
    over the log of [EventLog], and proves that catching up incrementally is
    replaying everything, that the flags of a projection are determined by its
    lifecycle state, and what the terminal states absorb. *)

From stdpp Require Import base tactics option list sets strings.
From Stdlib Require Import ZArith.
From S2P Require Import Prelude PyStr PyDict PyVal Contracts EventLog SchemaMigration.
#[local] Open Scope Z_scope.

Definition _default_projection (run_id : string) : RunProjection :=
  mkRunProjection run_id ls_created 0 false false None None None [] None None.

(** Lifecycle, waiting, ready, mode: a row of the transition table. *)
Abbreviation transition_row := (RunLifecycleState * bool * bool * option RecoveryMode)%type.

Definition _STATIC_EVENT_TRANSITIONS : odict string transition_row := [
  ("run.created", (ls_created, false, false, None));
  ("run.ready", (ls_ready, false, true, None));
  ("run.resume_requested", (ls_recovering, false, false, Some static_compensation));
  ("run.cancel_requested", (ls_aborted, false, false, Some abort));
  ("run.recovery_succeeded", (ls_ready, false, true, None));
  ("run.recovery_aborted", (ls_aborted, false, false, Some abort));
  ("run.waiting_external", (ls_waiting_external, true, false, Some human_escalation));
  ("run.dispatching", (ls_dispatching, false, true, None));
  ("run.recovering", (ls_recovering, false, false, Some static_compensation));
  ("run.completed", (ls_completed, false, false, None));
  ("run.aborted", (ls_aborted, false, false, Some abort))
].

Inductive operational_class := op_external_callback | op_timeout | op_hard_failure | op_cancel.

Definition _OPERATIONAL_PRIORITY_RANK (c : operational_class) : Z :=
  match c with
  | op_external_callback => 1
  | op_timeout => 2
  | op_hard_failure => 3
  | op_cancel => 4
  end.

(** [payload_json or {}] *)
Definition payload_of (e : RuntimeEvent) : odict string pyval := default [] (ev_payload_json e).

Definition _is_cancel_reason (reason : option string) : bool :=
  match reason with
  | Some r => negb (bool_decide (r = "")) && contains (lower r) "cancel"
  | None => false
  end.

Definition _projection_operational_priority (p : RunProjection) : option operational_class :=
  if decide (rp_lifecycle_state p = ls_aborted) then
    if _is_cancel_reason (rp_recovery_reason p) then Some op_cancel else Some op_hard_failure
  else if decide (rp_lifecycle_state p = ls_waiting_external) then Some op_timeout
  else None.

Definition _event_operational_priority (event_type : string) : option operational_class :=
  if decide (event_type = "run.cancel_requested") then Some op_cancel
  else if decide (event_type ∈ ["run.recovery_aborted"; "run.aborted"]) then Some op_hard_failure
  else if decide (event_type ∈ ["run.waiting_external"; "reconcile.failed"]) then Some op_timeout
  else if decide (event_type ∈ ["signal.external_callback"; "signal.callback"]) then
    Some op_external_callback
  else None.

Definition _is_lower_priority_operational_conflict (p : RunProjection) (e : RuntimeEvent) : bool :=
  match _projection_operational_priority p, _event_operational_priority (ev_event_type e) with
  | Some current, Some incoming =>
      _OPERATIONAL_PRIORITY_RANK incoming <? _OPERATIONAL_PRIORITY_RANK current
  | _, _ => false
  end.

Definition _derive_recovery_reason (e : RuntimeEvent) (fallback : option string) : option string :=
  match od_get "reason" (payload_of e) with
  | Some (PStr reason_value) => Some reason_value
  | _ =>
      if decide (ev_event_type e ∈ ["run.ready"; "run.completed"; "run.created"]) then None
      else fallback
  end.

Definition _derive_cancel_reason (e : RuntimeEvent) (fallback : option string) : string :=
  default "cancel_requested" (_derive_recovery_reason e fallback).

Definition _resolve_dynamic_transition (event_type : string) : option transition_row :=
  if decide (event_type ∈ ["signal.child_spawned"; "signal.child_completed";
                           "signal.child_run_completed"]) then None
  else if startswith event_type "signal." then Some (ls_ready, false, true, None)
  else None.

Definition _projection_unchanged_state (p : RunProjection) : transition_row * option string :=
  ((rp_lifecycle_state p, rp_waiting_external p, rp_ready_for_dispatch p, rp_recovery_mode p),
   rp_recovery_reason p).

Definition _resolve_projection_transition (p : RunProjection) (e : RuntimeEvent) :
    transition_row * option string :=
  if bool_decide (rp_lifecycle_state p = ls_completed)
     || _is_lower_priority_operational_conflict p e
     || (bool_decide (rp_lifecycle_state p = ls_aborted)
         && negb (bool_decide (ev_event_type e = "run.cancel_requested")))
  then _projection_unchanged_state p
  else if decide (ev_event_type e = "run.cancel_requested") then
    ((ls_aborted, false, false, Some abort),
     Some (_derive_cancel_reason e (rp_recovery_reason p)))
  else if decide (ev_event_type e = "reconcile.failed") then
    ((ls_waiting_external, true, false, Some human_escalation),
     _derive_recovery_reason e (rp_recovery_reason p))
  else match od_get (ev_event_type e) _STATIC_EVENT_TRANSITIONS with
       | Some row => (row, _derive_recovery_reason e (rp_recovery_reason p))
       | None =>
           match _resolve_dynamic_transition (ev_event_type e) with
           | Some row => (row, rp_recovery_reason p)
           | None => _projection_unchanged_state p
           end
       end.

Definition _extract_child_run_id (e : RuntimeEvent) : option string :=
  match od_get "child_run_id" (payload_of e) with
  | Some (PStr child_run_id) => if decide (child_run_id = "") then None else Some child_run_id
  | _ => None
  end.

Definition _resolve_active_child_runs (p : RunProjection) (e : RuntimeEvent) : list string :=
  if decide (rp_lifecycle_state p ∈ [ls_aborted; ls_completed]) then rp_active_child_runs p
  else match _extract_child_run_id e with
       | None => rp_active_child_runs p
       | Some child_run_id =>
           if decide (ev_event_type e ∈ ["run.child_spawned"; "signal.child_spawned"]) then
             if decide (child_run_id ∈ rp_active_child_runs p) then rp_active_child_runs p
             else rp_active_child_runs p ++ [child_run_id]
           else if decide (ev_event_type e ∈ ["run.child_completed"; "run.child_run_completed";
                             "signal.child_completed"; "signal.child_run_completed"]) then
             filter (fun run_id => run_id <> child_run_id) (rp_active_child_runs p)
           else rp_active_child_runs p
       end.

(** The projection is rebuilt field by field: the fields the constructor call
    does not name ([policy_versions], [task_contract_ref]) take their default. *)
Definition _apply_projection_event (p : RunProjection) (e : RuntimeEvent) : RunProjection :=
  let '((lifecycle_state, waiting_external, ready_for_dispatch, recovery_mode), recovery_reason) :=
    _resolve_projection_transition p e in
  mkRunProjection (rp_run_id p) lifecycle_state (ev_commit_offset e) waiting_external
    ready_for_dispatch (rp_current_action_id p) recovery_mode recovery_reason
    (_resolve_active_child_runs p e) None None.

Definition _validate_projection_authority_input (reject : bool) (e : RuntimeEvent) : bool :=
  negb (reject && bool_decide (ev_event_authority e = derived_diagnostic)).

(** The constructor arguments of the service. *)
Record projection_config := mkProjectionConfig {
  pc_reject_derived_diagnostic : bool;
  pc_event_schema_migrator : option migrator;
  pc_target_event_schema_version : option version
}.

(** [self._projection_by_run] *)
Abbreviation projections := (odict string RunProjection).

Definition _maybe_migrate_event (c : projection_config) (e : RuntimeEvent) : outcome RuntimeEvent :=
  match pc_event_schema_migrator c, pc_target_event_schema_version c with
  | Some m, Some t => migrate m e t
  | _, _ => Ret e
  end.

(** The body of the two loops, for one event. *)
Definition replay_event (c : projection_config) (p : RunProjection) (e : RuntimeEvent) :
    outcome RunProjection :=
  e' ← _maybe_migrate_event c e;
  if _validate_projection_authority_input (pc_reject_derived_diagnostic c) e'
  then mret (_apply_projection_event p e')
  else mret p.

(** The loop; [through] is the break of [catch_up], absent in [get]. *)
Fixpoint replay_loop (c : projection_config) (through : option Z) (p : RunProjection)
    (events : list RuntimeEvent) : outcome RunProjection :=
  match events with
  | [] => mret p
  | e :: rest =>
      if match through with Some t => t <? ev_commit_offset e | None => false end then mret p
      else p' ← replay_event c p e; replay_loop c through p' rest
  end.

(** [catch_up] ([Some through]) and [get] ([None]); both run under the lock of the run. *)
Definition project (c : projection_config) (l : event_log) (through : option Z) (run_id : string) :
    PyM projections RunProjection :=
  cache ← py_get;
  let projection := default (_default_projection run_id) (od_get run_id cache) in
  projection' ← py_lift (replay_loop c through projection
                           (load run_id (rp_projected_offset projection) l));
  _ ← py_modify (od_set run_id projection');
  mret projection'.

Definition catch_up (c : projection_config) (l : event_log) (run_id : string) (through_offset : Z) :
    PyM projections RunProjection := project c l (Some through_offset) run_id.

Definition get (c : projection_config) (l : event_log) (run_id : string) :
    PyM projections RunProjection := project c l None run_id.

Definition readiness (c : projection_config) (l : event_log) (run_id : string)
    (required_offset : Z) : PyM projections bool :=
  projection ← get c l run_id;
  mret (required_offset <=? rp_projected_offset projection).

(** The specification: replay a whole list of events. *)
Definition full_replay (c : projection_config) (run_id : string) (events : list RuntimeEvent) :
    RunProjection :=
  foldl (fun p e =>
           if _validate_projection_authority_input (pc_reject_derived_diagnostic c) e
           then _apply_projection_event p e else p)
        (_default_projection run_id) events.

(** The service beside its log, as a transition system: commits that evict no
    run, and reads. *)
Inductive service_reachable (c : projection_config) : event_log -> projections -> Prop :=
  | sr_init : service_reachable c empty_log []
  | sr_append l cache commit : service_reachable c l cache ->
      ac_run_id commit ∈ od_keys (events_by_run l) \/
      Z.of_nat (length (events_by_run l)) < _MAX_RETAINED_RUNS ->
      service_reachable c (append_action_commit commit l).2 cache
  | sr_project l cache through run_id : service_reachable c l cache ->
      service_reachable c l (project c l through run_id cache).2.

(** Lemmas *************************************************************************)

(** No migration is configured. *)
Definition no_migration (c : projection_config) : Prop :=
  pc_event_schema_migrator c = None \/ pc_target_event_schema_version c = None.

(** One event of a replay without migration. *)
Definition replay_step (c : projection_config) (p : RunProjection) (e : RuntimeEvent) :=
  if _validate_projection_authority_input (pc_reject_derived_diagnostic c) e
  then _apply_projection_event p e else p.

Lemma replay_event_pure c p e : no_migration c -> replay_event c p e = Ret (replay_step c p e).
Proof.
  intros Hc. unfold replay_event, _maybe_migrate_event, replay_step.
  destruct Hc as [-> | ->]; [|destruct (pc_event_schema_migrator c)]; py_simpl; by case_match.
Qed.

Lemma apply_offset p e : rp_projected_offset (_apply_projection_event p e) = ev_commit_offset e.
Proof.
  unfold _apply_projection_event. by destruct (_resolve_projection_transition p e) as [[[[? ?] ?] ?] ?].
Qed.

(** The events of a run, from position [j] on, and an upper offset. *)
Lemma replay_loop_take c through evs next p (j : nat) :
  no_migration c -> run_ok evs next ->
  replay_loop c through p (drop j evs) =
  Ret (foldl (replay_step c) p
         (drop j (match through with Some t => take (Z.to_nat t) evs | None => evs end))).
Proof.
  intros Hc Hok. remember (length evs - j)%nat as n eqn:Hn. revert j p Hn.
  induction n as [|n IH]; intros j p Hn.
  - rewrite (drop_ge evs) by lia. simpl. rewrite drop_ge; [done|].
    destruct through; [rewrite length_take|]; lia.
  - destruct (lookup_lt_is_Some_2 evs j) as [e He]; [lia|].
    rewrite (drop_S evs e) by done. simpl. rewrite (replay_event_pure c p e Hc).
    pose proof (run_ok_lookup _ _ _ _ Hok He) as Ho.
    assert (forall l, l !! j = Some e -> drop j l = e :: drop (S j) l) as HdS
      by (intros l; apply drop_S).
    destruct through as [t|]; simpl.
    + destruct (Z.ltb_spec t (ev_commit_offset e)).
      * rewrite drop_ge by (rewrite length_take; lia). done.
      * rewrite (HdS (take _ _)) by (rewrite lookup_take_lt; [done|lia]).
        simpl. py_simpl. rewrite IH by lia. done.
    + rewrite (HdS evs He). simpl. py_simpl. rewrite IH by lia. done.
Qed.

Lemma full_replay_app c run l l' :
  full_replay c run (l ++ l') = foldl (replay_step c) (full_replay c run l) l'.
Proof. apply foldl_app. Qed.

(** Every prefix has a canonical one: the events up to the last replayed. *)
Lemma replay_canonical c run evs next (k : nat) :
  run_ok evs next -> (k <= length evs)%nat ->
  exists j, (j <= k)%nat /\ full_replay c run (take k evs) = full_replay c run (take j evs) /\
    rp_projected_offset (full_replay c run (take j evs)) = Z.of_nat j /\
    (forall i e, (j <= i < k)%nat -> evs !! i = Some e ->
      _validate_projection_authority_input (pc_reject_derived_diagnostic c) e = false) /\
    (j = 0%nat \/ exists e, evs !! pred j = Some e /\
      _validate_projection_authority_input (pc_reject_derived_diagnostic c) e = true).
Proof.
  intros Hok. induction k as [|k IH]; intros Hk.
  - exists 0%nat. split_and!; [lia|done|done|lia|by left].
  - destruct (lookup_lt_is_Some_2 evs k) as [e He]; [lia|].
    destruct IH as (j & Hj & Heq & Ho & Hskip & Hlast); [lia|].
    rewrite (take_S_r evs k e He), full_replay_app. simpl. unfold replay_step.
    destruct (_validate_projection_authority_input _ e) eqn:Hv.
    + exists (S k). rewrite (take_S_r evs k e He), full_replay_app. simpl. unfold replay_step.
      rewrite Hv, apply_offset, (run_ok_lookup _ _ _ _ Hok He). split_and!; [lia|done|lia|lia|].
      right. by exists e.
    + exists j. split_and!; [lia|done|done| |done]. intros i e' Hi He'.
      destruct (decide (i = k)) as [->|]; [by simplify_eq|]. apply (Hskip i); [lia|done].
Qed.

(** The cache holds, per run, the replay of a canonical prefix of its events. *)
Definition cached_at (c : projection_config) (l : event_log) (cache : projections) (run : string)
    (j : nat) : Prop :=
  (j <= length (run_events l run))%nat /\
  default (_default_projection run) (od_get run cache) =
    full_replay c run (take j (run_events l run)) /\
  rp_projected_offset (full_replay c run (take j (run_events l run))) = Z.of_nat j.

Definition cache_ok (c : projection_config) (l : event_log) (cache : projections) : Prop :=
  log_reachable l /\ forall run, exists j, cached_at c l cache run j.

Lemma run_events_run_ok l run : log_wf l -> exists next, run_ok (run_events l run) next.
Proof.
  intros Hwf. destruct (od_get run (events_by_run l)) as [evs|] eqn:He; simpl.
  - eexists. by eapply lw_runs.
  - by exists (Some 1).
Qed.

(** What a read of the projection answers and caches. *)
Lemma project_spec c l cache through run (j : nat) :
  no_migration c -> log_wf l -> cached_at c l cache run j ->
  let evs := run_events l run in
  let k := match through with Some t => Nat.max j (Nat.min (Z.to_nat t) (length evs))
           | None => length evs end in
  project c l through run cache =
    (Ret (full_replay c run (take k evs)), od_set run (full_replay c run (take k evs)) cache) /\
  exists j', cached_at c l (od_set run (full_replay c run (take k evs)) cache) run j'.
Proof.
  intros Hc Hwf (Hj & Hp & Ho) evs k. destruct (run_events_run_ok l run Hwf) as [next Hok].
  fold evs in Hok, Hj, Hp, Ho.
  assert (k <= length evs)%nat as Hk by (unfold k; destruct through; lia).
  split.
  - unfold project. py_simpl. rewrite Hp, Ho, load_drop by done. fold evs.
    rewrite (replay_loop_take c through evs next _ j Hc Hok).
    assert (foldl (replay_step c) (full_replay c run (take j evs))
      (drop j match through with Some t => take (Z.to_nat t) evs | None => evs end) =
      full_replay c run (take k evs)) as ->; [|done].
    rewrite <-full_replay_app. f_equal. unfold k. destruct through as [t|].
    + destruct (decide (j <= Z.to_nat t)%nat).
      * replace (take j evs) with (take j (take (Z.to_nat t) evs)) by (rewrite take_take; f_equal; lia).
        rewrite take_drop.
        destruct (decide (Z.to_nat t <= length evs)%nat); [f_equal; lia|].
        rewrite !take_ge; [done|lia|lia].
      * rewrite drop_ge by (rewrite length_take; lia). rewrite app_nil_r. f_equal. lia.
    + rewrite take_drop, take_ge by done. done.
  - destruct (replay_canonical c run evs next k Hok Hk) as (j' & Hj' & Heq & Ho' & _).
    exists j'. unfold cached_at. fold evs. rewrite od_get_set_eq. simpl. split_and!; [lia|done|done].
Qed.

Lemma cache_ok_append c l cache commit : cache_ok c l cache ->
  ac_run_id commit ∈ od_keys (events_by_run l) \/ Z.of_nat (length (events_by_run l)) < _MAX_RETAINED_RUNS ->
  cache_ok c (append_action_commit commit l).2 cache.
Proof.
  intros [Hl Hok] Hroom. split; [by constructor|]. intros run. destruct (Hok run) as (j & Hj & Hp & Ho). exists j.
  destruct (append_extends commit l run (reachable_wf l Hl) Hroom) as [tail Ht].
  unfold cached_at. rewrite Ht, take_app_le, length_app by done. split_and!; [lia|done|done].
Qed.

(** A read answers the replay of a prefix that reaches [through], and keeps the cache. *)
Lemma cache_ok_project c l cache through run : no_migration c -> cache_ok c l cache ->
  exists k cache',
    (match through with Some t => Z.to_nat t `min` length (run_events l run) | None => length (run_events l run) end <= k
       <= length (run_events l run))%nat /\
    project c l through run cache = (Ret (full_replay c run (take k (run_events l run))), cache') /\ cache_ok c l cache'.
Proof.
  intros Hc [Hl Hok]. destruct (Hok run) as (j & Hj).
  destruct (project_spec c l cache through run j Hc (reachable_wf l Hl) Hj) as [Heq [j' Hj']]. cbn zeta in Heq.
  eexists _, _. split; [|split; [exact Heq|]].
  - destruct Hj as (Hj & _). destruct through; lia.
  - split; [done|]. intros run'. destruct (decide (run' = run)) as [->|Hne]; [by exists j'|].
    destruct (Hok run') as (i & Hi & Hp & Ho). exists i. unfold cached_at. by rewrite od_get_set_ne by done.
Qed.

Lemma service_cache_ok c l cache : no_migration c -> service_reachable c l cache -> cache_ok c l cache.
Proof.
  intros Hc. induction 1 as [|l cache commit Hs IH Hroom|l cache through run Hs IH].
  - split; [constructor|]. intros run. exists 0%nat. by split_and!.
  - by apply cache_ok_append.
  - by destruct (cache_ok_project c l cache through run Hc IH) as (k & cache' & _ & -> & Hok).
Qed.

(** The recovery mode that goes with a lifecycle state. *)
Definition mode_of (s : RunLifecycleState) : option RecoveryMode :=
  match s with
  | ls_aborted => Some abort
  | ls_waiting_external => Some human_escalation
  | ls_recovering => Some static_compensation
  | _ => None
  end.

(** Flags and mode are those of the lifecycle state. *)
Definition row_ok (row : transition_row) : Prop :=
  let '(s, waiting, ready, mode) := row in
  waiting = bool_decide (s = ls_waiting_external) /\
  ready = bool_decide (s ∈ [ls_ready; ls_dispatching]) /\
  mode = mode_of s /\ s ∉ [ls_waiting_result; ls_failed].

Definition projection_ok (p : RunProjection) : Prop :=
  row_ok (_projection_unchanged_state p).1 /\ NoDup (rp_active_child_runs p).

Ltac row_auto := cbn [fst row_ok]; split_and!; [done|done|done|set_solver].

Lemma row_ok_static event_type row : od_get event_type _STATIC_EVENT_TRANSITIONS = Some row -> row_ok row.
Proof.
  unfold _STATIC_EVENT_TRANSITIONS. cbn [od_get]. intros Hg.
  repeat (case_decide; [injection Hg as <-; row_auto|]). done.
Qed.

Lemma row_ok_transition p e : row_ok (_projection_unchanged_state p).1 ->
  row_ok (_resolve_projection_transition p e).1.
Proof.
  intros Hp. unfold _resolve_projection_transition. destruct (_ || _); [exact Hp|].
  destruct (decide (ev_event_type e = "run.cancel_requested")); [row_auto|].
  destruct (decide (ev_event_type e = "reconcile.failed")); [row_auto|].
  destruct (od_get (ev_event_type e) _STATIC_EVENT_TRANSITIONS) as [row|] eqn:Hs;
    [by eapply row_ok_static|].
  unfold _resolve_dynamic_transition. case_decide; [done|].
  destruct (startswith _ _); [row_auto|done].
Qed.

Lemma NoDup_children p e : NoDup (rp_active_child_runs p) -> NoDup (_resolve_active_child_runs p e).
Proof.
  intros Hp. unfold _resolve_active_child_runs. repeat (case_match; try done).
  - apply NoDup_app. split_and!; [done| |apply NoDup_singleton].
    intros x Hx ->%list_elem_of_singleton. done.
  - by apply NoDup_filter.
Qed.

Lemma apply_unfold p e :
  (_projection_unchanged_state (_apply_projection_event p e)) = _resolve_projection_transition p e /\
  rp_active_child_runs (_apply_projection_event p e) = _resolve_active_child_runs p e /\
  rp_run_id (_apply_projection_event p e) = rp_run_id p.
Proof.
  unfold _apply_projection_event.
  by destruct (_resolve_projection_transition p e) as [[[[? ?] ?] ?] ?].
Qed.

Lemma apply_ok p e : projection_ok p -> projection_ok (_apply_projection_event p e).
Proof.
  intros [Hr Hn]. destruct (apply_unfold p e) as (Ht & Hc & _). split.
  - rewrite Ht. by apply row_ok_transition.
  - rewrite Hc. by apply NoDup_children.
Qed.

Lemma foldl_ok c p events : projection_ok p -> projection_ok (foldl (replay_step c) p events).
Proof.
  revert p. induction events as [|e events IH]; intros p Hp; [done|]. apply IH.
  unfold replay_step. case_match; [by apply apply_ok|done].
Qed.

Lemma default_ok run : projection_ok (_default_projection run).
Proof.
  split; [|constructor]. cbn. row_auto.
Qed.

(** One event on a terminal projection. *)
Lemma apply_terminal_children p e : rp_lifecycle_state p ∈ [ls_aborted; ls_completed] ->
  rp_active_child_runs (_apply_projection_event p e) = rp_active_child_runs p.
Proof.
  intros Hp. destruct (apply_unfold p e) as (_ & -> & _).
  unfold _resolve_active_child_runs. by rewrite decide_True.
Qed.

Lemma unchanged_lifecycle p q : _projection_unchanged_state p = _projection_unchanged_state q ->
  rp_lifecycle_state p = rp_lifecycle_state q.
Proof. unfold _projection_unchanged_state. congruence. Qed.

Lemma apply_completed p e : rp_lifecycle_state p = ls_completed ->
  _projection_unchanged_state (_apply_projection_event p e) = _projection_unchanged_state p.
Proof.
  intros Hp. destruct (apply_unfold p e) as (-> & _ & _).
  unfold _resolve_projection_transition. by rewrite (bool_decide_true _ Hp).
Qed.

Lemma apply_aborted p e : rp_lifecycle_state p = ls_aborted ->
  rp_lifecycle_state (_apply_projection_event p e) = ls_aborted /\
  (ev_event_type e <> "run.cancel_requested" ->
   _projection_unchanged_state (_apply_projection_event p e) = _projection_unchanged_state p).
Proof.
  intros Hp. destruct (apply_unfold p e) as (Ht & _ & _).
  assert (rp_lifecycle_state (_apply_projection_event p e) =
    ((_projection_unchanged_state (_apply_projection_event p e)).1.1.1.1)) as -> by done.
  rewrite Ht. unfold _resolve_projection_transition.
  rewrite (bool_decide_true (rp_lifecycle_state p = ls_aborted)) by done.
  destruct (decide (ev_event_type e = "run.cancel_requested")) as [Hc|Hc].
  - rewrite (bool_decide_true (ev_event_type e = _)) by done. split; [|done]. by destruct (_ || _).
  - rewrite (bool_decide_false (ev_event_type e = _)) by done. rewrite orb_true_r. done.
Qed.

(** A signal that is neither a callback nor about a child run. *)
Lemma signal_type_facts name :
  name ∉ ["callback"; "external_callback"; "child_spawned"; "child_completed";
          "child_run_completed"] ->
  let t := "signal." +:+ name in
  _event_operational_priority t = None /\ t <> "run.cancel_requested" /\ t <> "reconcile.failed" /\
  od_get t _STATIC_EVENT_TRANSITIONS = None /\
  _resolve_dynamic_transition t = Some (ls_ready, false, true, None).
Proof.
  intros Hn t. assert (forall s, t = "signal." +:+ s -> name = s) as Hinj.
  { intros s H. unfold t in H. simpl in H. by injection H. }
  rewrite !not_elem_of_cons in Hn. destruct Hn as (? & ? & ? & ? & ? & _).
  split_and!; [|done|done| |].
  - unfold _event_operational_priority.
    repeat rewrite decide_False; [done|..]; try done; rewrite ?not_elem_of_cons; split_and!;
      try apply not_elem_of_nil; try done; intros Heq; (discriminate || (apply (Hinj _) in Heq; done)).
  - apply od_get_None. unfold _STATIC_EVENT_TRANSITIONS. simpl. rewrite !not_elem_of_cons.
    split_and!; try done. apply not_elem_of_nil.
  - unfold _resolve_dynamic_transition. rewrite decide_False.
    + assert (startswith t "signal." = true) as -> by (by apply startswith_app). done.
    + rewrite !not_elem_of_cons. split_and!; try apply not_elem_of_nil;
        intros Heq; apply (Hinj _) in Heq; done.
Qed.

(** Properties ********************************************************************)

(** C21: catching up incrementally is replaying everything.  However commits and
    reads of any runs interleaved before, [get] answers the replay of all the
    run's events from scratch, and [catch_up] to an offset answers the replay
    of a prefix that reaches that offset (or the end of the log).  Holds for a
    service without schema migration over a log that evicts no run and of which no run
    is cleaned up (its offsets would begin anew, [eventlog_offsets_restart]). *)
Theorem projection_incremental (c : projection_config) (l : event_log) (cache : projections)
    (run : string) (through : Z) :
  no_migration c -> service_reachable c l cache ->
  (get c l run cache).1 = Ret (full_replay c run (load run 0 l)) /\
  exists k : nat, (Z.to_nat through `min` length (load run 0 l) <= k <= length (load run 0 l))%nat /\
    (catch_up c l run through cache).1 = Ret (full_replay c run (take k (load run 0 l))).
Proof.
  intros Hc Hs. destruct (service_cache_ok c l cache Hc Hs) as [Hl Hok].
  pose proof (reachable_wf l Hl) as Hwf. destruct (Hok run) as (j & Hj).
  rewrite load_all by done. unfold get, catch_up.
  destruct (project_spec c l cache None run j Hc Hwf Hj) as [-> _].
  destruct (project_spec c l cache (Some through) run j Hc Hwf Hj) as [-> _]. cbn [fst].
  split; [by rewrite take_ge|]. eexists. split; [|done]. destruct Hj as [Hj _]. lia.
Qed.

(** The production configuration: diagnostics rejected, no migration. *)
Definition example_config : projection_config := mkProjectionConfig true None None.

Lemma projection_incremental_witness :
  let l := (append_action_commit example_commit empty_log).2 in
  let cache := (project example_config l (Some 1) "run-1" []).2 in
  (get example_config l "run-1" cache).1 = Ret (full_replay example_config "run-1" (load "run-1" 0 l)) /\
  rp_lifecycle_state (full_replay example_config "run-1" (load "run-1" 0 l)) = ls_ready.
Proof.
  intros l cache. split; [|reflexivity].
  apply (projection_incremental example_config l cache "run-1" 0); [by left|].
  apply sr_project, sr_append; [constructor|by right].
Defined.

(** in every projection a replay produces, the waiting and ready flags and
    the recovery mode are determined by the lifecycle state (waiting exactly in
    waiting_external, dispatchable exactly in ready and dispatching), the
    tracked child runs are distinct, and the states waiting_result and failed
    do not occur. *)
Theorem projection_flags (c : projection_config) (run : string) (events : list RuntimeEvent) :
  let p := full_replay c run events in
  rp_waiting_external p = bool_decide (rp_lifecycle_state p = ls_waiting_external) /\
  rp_ready_for_dispatch p = bool_decide (rp_lifecycle_state p ∈ [ls_ready; ls_dispatching]) /\
  rp_recovery_mode p = mode_of (rp_lifecycle_state p) /\
  rp_lifecycle_state p <> ls_waiting_result /\ rp_lifecycle_state p <> ls_failed /\
  NoDup (rp_active_child_runs p) /\ rp_run_id p = run.
Proof.
  intros p. destruct (foldl_ok c _ events (default_ok run)) as [(Hw & Hr & Hm & Hs) Hn].
  fold (full_replay c run events) in *. fold p in Hw, Hr, Hm, Hs, Hn.
  rewrite !elem_of_cons, elem_of_nil in Hs.
  split_and!; [done|done|done|naive_solver|naive_solver|done|].
  unfold p, full_replay. clear. change run with (rp_run_id (_default_projection run)) at 2.
  generalize (_default_projection run) as p.
  induction events as [|e events IH]; intros p; [done|]. simpl. rewrite IH.
  case_match; [|done]. by destruct (apply_unfold p e) as (_ & _ & ?).
Qed.

(** terminal states absorb.  After completion no event changes the
    lifecycle state, flags, mode, reason or children; after an abort the run
    stays aborted, with its children, whatever arrives (only the reason may be
    replaced, by a cancellation request). *)
Theorem projection_terminal (c : projection_config) (p : RunProjection) (events : list RuntimeEvent) :
  let p' := foldl (replay_step c) p events in
  (rp_lifecycle_state p = ls_completed ->
     _projection_unchanged_state p' = _projection_unchanged_state p /\
     rp_active_child_runs p' = rp_active_child_runs p) /\
  (rp_lifecycle_state p = ls_aborted ->
     rp_lifecycle_state p' = ls_aborted /\ rp_active_child_runs p' = rp_active_child_runs p /\
     ((forall e, e ∈ events -> ev_event_type e <> "run.cancel_requested") ->
      _projection_unchanged_state p' = _projection_unchanged_state p)).
Proof.
  split; revert p; induction events as [|e events IH]; intros p Hp; try done; cbn [foldl].
  - destruct (IH (replay_step c p e)) as [-> ->]; unfold replay_step; case_match; try done.
    + by rewrite (unchanged_lifecycle _ _ (apply_completed p e Hp)).
    + rewrite apply_completed, apply_terminal_children by (done || set_solver). done.
  - destruct (IH (replay_step c p e)) as (-> & -> & Hr); unfold replay_step in *; (case_match; [|try done]).
    + by apply apply_aborted.
    + rewrite apply_terminal_children by set_solver. split_and!; [done|done|]. intros Hall.
      rewrite Hr by set_solver. apply apply_aborted; [done|]. set_solver.
    + split_and!; [done|done|]. intros Hall. apply Hr. set_solver.
Qed.

(** the operational precedence cancel > hard failure > timeout > external
    callback holds for every projection and event: an event of a lower class
    than the projection's leaves its state alone.  In particular the callbacks
    [signal.callback] and [signal.external_callback] never wake a run that is
    waiting for an external event, while any other signal does. *)
Theorem projection_precedence (p : RunProjection) (e : RuntimeEvent) :
  (forall current incoming,
     _projection_operational_priority p = Some current ->
     _event_operational_priority (ev_event_type e) = Some incoming ->
     _OPERATIONAL_PRIORITY_RANK incoming < _OPERATIONAL_PRIORITY_RANK current ->
     _projection_unchanged_state (_apply_projection_event p e) = _projection_unchanged_state p) /\
  (rp_lifecycle_state p = ls_waiting_external ->
     (ev_event_type e ∈ ["signal.callback"; "signal.external_callback"] ->
        rp_lifecycle_state (_apply_projection_event p e) = ls_waiting_external) /\
     (forall name, ev_event_type e = "signal." +:+ name ->
        name ∉ ["callback"; "external_callback"; "child_spawned"; "child_completed";
                "child_run_completed"] ->
        rp_lifecycle_state (_apply_projection_event p e) = ls_ready)).
Proof.
  destruct (apply_unfold p e) as (Ht & _ & _). split.
  - intros cur inc Hcur Hinc Hlt. rewrite Ht. unfold _resolve_projection_transition.
    unfold _is_lower_priority_operational_conflict. rewrite Hcur, Hinc.
    rewrite (proj2 (Z.ltb_lt _ _) Hlt), orb_true_r. done.
  - intros Hp. split.
    + intros He. rewrite (unchanged_lifecycle _ p); [done|]. rewrite Ht.
      unfold _resolve_projection_transition, _is_lower_priority_operational_conflict,
        _projection_operational_priority. rewrite Hp. cbn.
      rewrite !elem_of_cons, elem_of_nil in He. destruct He as [-> |[-> |[]]]; reflexivity.
    + intros name He Hn.
      assert (rp_lifecycle_state (_apply_projection_event p e) =
        (_projection_unchanged_state (_apply_projection_event p e)).1.1.1.1) as -> by done.
      rewrite Ht. destruct (signal_type_facts name Hn) as (Hop & Hne1 & Hne2 & Hst & Hdyn).
      unfold _resolve_projection_transition, _is_lower_priority_operational_conflict.
      rewrite He, Hop, Hp, !decide_False, Hst, Hdyn by done.
      by destruct (_projection_operational_priority p).
Qed.


(** the projection is ready for an offset exactly when the log holds an
    event the replay accepts at or past it.  Diagnostic events are skipped and
    do not count, so when a commit ends with one, the projection never becomes
    ready for the commit's last offset. *)
Theorem projection_readiness (c : projection_config) (l : event_log) (cache : projections)
    (run : string) (required : Z) :
  no_migration c -> service_reachable c l cache -> 0 < required ->
  exists b, (readiness c l run required cache).1 = Ret b /\
    (b = true <-> exists e, e ∈ load run 0 l /\ required <= ev_commit_offset e /\
       _validate_projection_authority_input (pc_reject_derived_diagnostic c) e = true).
Proof.
  intros Hc Hs Hreq. destruct (service_cache_ok c l cache Hc Hs) as [Hl Hok].
  pose proof (reachable_wf l Hl) as Hwf. destruct (Hok run) as (j0 & Hj0).
  unfold readiness, get. py_simpl.
  destruct (project_spec c l cache None run j0 Hc Hwf Hj0) as [-> _]. cbn [fst].
  eexists. split; [done|]. rewrite load_all by done.
  destruct (run_events_run_ok l run Hwf) as [next Hrun].
  destruct (replay_canonical c run (run_events l run) next (length (run_events l run)) Hrun)
    as (j & Hj & -> & -> & Hskip & Hlast); [done|]. rewrite Z.leb_le. split.
  - intros Hle. destruct Hlast as [->|(e & He & Hv)]; [lia|]. exists e.
    split_and!; [by eapply list_elem_of_lookup_2| |done].
    rewrite (run_ok_lookup _ _ _ _ Hrun He). lia.
  - intros (e & [i Hi]%list_elem_of_lookup & Hle & Hv).
    rewrite (run_ok_lookup _ _ _ _ Hrun Hi) in Hle. pose proof (lookup_lt_Some _ _ _ Hi).
    destruct (decide (j <= i)%nat); [|lia]. rewrite (Hskip i e) in Hv; [done|lia|done].
Qed.

(** A commit that ends with a diagnostic event. *)
Definition diagnostic_commit : ActionCommit :=
  mkActionCommit "run-1" "c1"
    [example_event "run.ready";
     mkRuntimeEvent "run-1" "e:d" 0 "run.heartbeat" ec_derived derived_diagnostic "run-1"
       projection_only "2026-01-01T00:00:00Z" None None None "1"]
    "2026-01-01T00:00:00Z" None None.

Lemma projection_readiness_witness :
  let l := (append_action_commit diagnostic_commit empty_log).2 in
  length (load "run-1" 0 l) = 2%nat /\ (readiness example_config l "run-1" 2 []).1 = Ret false.
Proof.
  intros l. split; [reflexivity|].
  destruct (projection_readiness example_config l [] "run-1" 2) as (b & Hb & Hiff);
    [by left|apply sr_append; [constructor|by right]|done|].
  rewrite Hb. destruct b; [|done]. destruct Hiff as [Hiff _].
  destruct (Hiff eq_refl) as (e & He & Hle & Hv). exfalso.
  change (load "run-1" 0 l) with [stored_event 1 (example_event "run.ready");
    stored_event 2 (mkRuntimeEvent "run-1" "e:d" 0 "run.heartbeat" ec_derived derived_diagnostic
       "run-1" projection_only "2026-01-01T00:00:00Z" None None None "1")] in He.
  rewrite !elem_of_cons, elem_of_nil in He.
  destruct He as [-> |[-> |[]]]; [by simpl in Hle|by simpl in Hv].
Defined.
