(* ===== verification/Snapshot.v ===== *)
(** * Capability snapshots and idempotency keys
      ([agent_kernel/kernel/capability_snapshot.py],
       [agent_kernel/kernel/idempotency_key_policy.py])

    The builder that freezes the capability inputs of a turn under a hash, and
    the key policy that names a dispatch by the hash of its content and
    snapshot.  [hashlib.sha256(...).hexdigest()] is a parameter: theorems say
    "or these two texts collide" instead of assuming it injective.  The clock
    is a parameter too. *)

From stdpp Require Import base tactics option list sets strings pretty sorting.
From Stdlib Require Import ZArith Ascii.
From S2P Require Import Prelude PyStr PyDict PyVal Contracts.
#[local] Arguments String.append : simpl nomatch.
#[local] Open Scope Z_scope.

Record DeclarativeBundleDigest := mkBundleDigest {
  bd_bundle_ref : string;
  bd_semantics_version : string;
  bd_content_hash : string;
  bd_compile_hash : string
}.

Record CapabilitySnapshotInput := mkSnapshotInput {
  si_run_id : string;
  si_based_on_offset : Z;
  si_tenant_policy_ref : string;
  si_permission_mode : string;
  si_tool_bindings : list string;
  si_mcp_bindings : list string;
  si_skill_bindings : list string;
  si_feature_flags : list string;
  si_context_binding_ref : option string;
  si_context_content_hash : option string;
  si_budget_ref : option string;
  si_quota_ref : option string;
  si_session_mode : option string;
  si_approval_state : option string;
  si_declarative_bundle_digest : option DeclarativeBundleDigest;
  si_peer_run_bindings : list string
}.

Record CapabilitySnapshot := mkSnapshot {
  cs_snapshot_ref : string;
  cs_snapshot_hash : string;
  cs_run_id : string;
  cs_based_on_offset : Z;
  cs_tenant_policy_ref : string;
  cs_permission_mode : string;
  cs_tool_bindings : list string;
  cs_mcp_bindings : list string;
  cs_skill_bindings : list string;
  cs_feature_flags : list string;
  cs_context_binding_ref : option string;
  cs_context_content_hash : option string;
  cs_budget_ref : option string;
  cs_quota_ref : option string;
  cs_session_mode : option string;
  cs_approval_state : option string;
  cs_declarative_bundle_digest : option DeclarativeBundleDigest;
  cs_created_at : string;
  cs_snapshot_schema_version : string;
  cs_peer_run_bindings : list string
}.

(** [_CURRENT_SNAPSHOT_SCHEMA_VERSION] *)
Definition _CURRENT_SNAPSHOT_SCHEMA_VERSION : string := "1".

(** [sorted({value for value in values if value})] *)
Definition _normalize_string_list (values : list string) : list string :=
  sorted_set (filter (fun value => value <> "") values).

Definition _normalize_bundle_digest (digest : option DeclarativeBundleDigest) : pyval :=
  match digest with
  | None => PNone
  | Some d => PDict [("bundle_ref", PStr (bd_bundle_ref d));
                     ("semantics_version", PStr (bd_semantics_version d));
                     ("content_hash", PStr (bd_content_hash d));
                     ("compile_hash", PStr (bd_compile_hash d))]
  end.

Definition _validate_input (i : CapabilitySnapshotInput) : outcome unit :=
  if decide (si_run_id i = "") then Raise (CapabilitySnapshotBuildError "run_id is required.")
  else if si_based_on_offset i <? 0 then
    Raise (CapabilitySnapshotBuildError "based_on_offset must be >= 0.")
  else if decide (si_tenant_policy_ref i = "") then
    Raise (CapabilitySnapshotBuildError "tenant_policy_ref is required.")
  else if decide (si_permission_mode i = "") then
    Raise (CapabilitySnapshotBuildError "permission_mode is required.")
  else if truthy (si_context_binding_ref i) && negb (truthy (si_context_content_hash i)) then
    Raise (CapabilitySnapshotBuildError
             "context_content_hash is required when context_binding_ref is set.")
  else Ret tt.

(** The dictionary that is hashed. *)
Definition canonical_payload (i : CapabilitySnapshotInput) : odict string pyval := [
  ("snapshot_schema_version", PStr _CURRENT_SNAPSHOT_SCHEMA_VERSION);
  ("run_id", PStr (si_run_id i));
  ("based_on_offset", PInt (si_based_on_offset i));
  ("tenant_policy_ref", PStr (si_tenant_policy_ref i));
  ("permission_mode", PStr (si_permission_mode i));
  ("tool_bindings", str_list_val (_normalize_string_list (si_tool_bindings i)));
  ("mcp_bindings", str_list_val (_normalize_string_list (si_mcp_bindings i)));
  ("skill_bindings", str_list_val (_normalize_string_list (si_skill_bindings i)));
  ("feature_flags", str_list_val (_normalize_string_list (si_feature_flags i)));
  ("context_content_hash", opt_str_val (si_context_content_hash i));
  ("budget_ref", opt_str_val (si_budget_ref i));
  ("quota_ref", opt_str_val (si_quota_ref i));
  ("session_mode", opt_str_val (si_session_mode i));
  ("approval_state", opt_str_val (si_approval_state i));
  ("declarative_bundle_digest", _normalize_bundle_digest (si_declarative_bundle_digest i));
  ("peer_run_bindings", str_list_val (_normalize_string_list (si_peer_run_bindings i)))
].

Definition assert_snapshot_compatible (s : CapabilitySnapshot) : outcome unit :=
  if decide (cs_snapshot_schema_version s = _CURRENT_SNAPSHOT_SCHEMA_VERSION) then Ret tt
  else Raise (ValueError ("CapabilitySnapshot schema_version=" +:+
    py_repr_str (cs_snapshot_schema_version s) +:+ " is incompatible with the current kernel version ("
    +:+ py_repr_str _CURRENT_SNAPSHOT_SCHEMA_VERSION +:+
    "). Rebuild the snapshot using CapabilitySnapshotBuilder.")).

(** [s[:n]] *)
Fixpoint take_chars (n : nat) (s : string) : string :=
  match n, s with
  | S n', String c s' => String c (take_chars n' s')
  | _, _ => ""
  end.

Section hashing.
(** [hashlib.sha256(text.encode("utf-8")).hexdigest()] and the current time. *)
Context (sha256 : string -> string) (now : string).

Definition _build_stable_sha256 (payload : odict string pyval) : string :=
  sha256 (json_dumps false (PDict payload)).

Definition build (i : CapabilitySnapshotInput) : outcome CapabilitySnapshot :=
  _ ← _validate_input i;
  let snapshot_hash := _build_stable_sha256 (canonical_payload i) in
  mret (mkSnapshot
    ("snapshot:" +:+ si_run_id i +:+ ":" +:+ pretty (si_based_on_offset i) +:+ ":" +:+
       take_chars 12 snapshot_hash)
    snapshot_hash (si_run_id i) (si_based_on_offset i) (si_tenant_policy_ref i)
    (si_permission_mode i)
    (_normalize_string_list (si_tool_bindings i)) (_normalize_string_list (si_mcp_bindings i))
    (_normalize_string_list (si_skill_bindings i)) (_normalize_string_list (si_feature_flags i))
    (si_context_binding_ref i) (si_context_content_hash i) (si_budget_ref i) (si_quota_ref i)
    (si_session_mode i) (si_approval_state i) (si_declarative_bundle_digest i) now
    _CURRENT_SNAPSHOT_SCHEMA_VERSION (_normalize_string_list (si_peer_run_bindings i))).

(** [IdempotencyKeyPolicy._canonicalize_json] on JSON values. *)
Fixpoint _canonicalize_json (value : pyval) : pyval :=
  match value with
  | PDict d => PDict (map (fun kv => (kv.1, _canonicalize_json kv.2)) d)
  | PList l => PList (map _canonicalize_json l)
  | v => v
  end.

(** The dictionary hashed for an action. *)
Definition content_payload (a : Action) (snapshot_hash : string) : odict string pyval := [
  ("action_type", PStr (act_action_type a));
  ("input_json", _canonicalize_json (PDict (or_empty (act_input_json a))));
  ("policy_tags", str_list_val (act_policy_tags a));
  ("effect_class", PStr (effect_str (act_effect_class a)));
  ("snapshot_hash", PStr snapshot_hash)
].

Definition _content_hash (a : Action) (snapshot_hash : string) : string :=
  sha256 (json_dumps true (PDict (content_payload a snapshot_hash))).

(** [generate] with its default namespace spelled by the caller. *)
Definition generate (namespace run_id : string) (a : Action) (snapshot_hash : string) : string :=
  namespace +:+ ":" +:+ run_id +:+ ":" +:+ act_action_id a +:+ ":" +:+ _content_hash a snapshot_hash.

Definition generate_compensation_key (effect_class action_id : string) : string :=
  "compensation:" +:+ effect_class +:+ ":" +:+ action_id.
End hashing.

(** Lemmas *************************************************************************)

(** The same strings, empty ones aside. *)
Definition same_members (l l' : list string) : Prop := forall x, x <> "" -> (x ∈ l <-> x ∈ l').

(** The same declared capabilities: every hashed field, lists as sets. *)
Definition capability_eq (i j : CapabilitySnapshotInput) : Prop :=
  si_run_id i = si_run_id j /\ si_based_on_offset i = si_based_on_offset j /\
  si_tenant_policy_ref i = si_tenant_policy_ref j /\
  si_permission_mode i = si_permission_mode j /\
  same_members (si_tool_bindings i) (si_tool_bindings j) /\
  same_members (si_mcp_bindings i) (si_mcp_bindings j) /\
  same_members (si_skill_bindings i) (si_skill_bindings j) /\
  same_members (si_feature_flags i) (si_feature_flags j) /\
  si_context_content_hash i = si_context_content_hash j /\
  si_budget_ref i = si_budget_ref j /\ si_quota_ref i = si_quota_ref j /\
  si_session_mode i = si_session_mode j /\ si_approval_state i = si_approval_state j /\
  si_declarative_bundle_digest i = si_declarative_bundle_digest j /\
  same_members (si_peer_run_bindings i) (si_peer_run_bindings j).

Lemma normalize_same l l' : same_members l l' <-> _normalize_string_list l = _normalize_string_list l'.
Proof.
  unfold _normalize_string_list, same_members. split.
  - intros H. apply sorted_set_ext. intros x. rewrite !list_elem_of_filter. naive_solver.
  - intros H x Hx. pose proof (elem_of_sorted_set x (filter (fun value => value <> "") l)) as H1.
    rewrite H, elem_of_sorted_set, !list_elem_of_filter in H1. naive_solver.
Qed.

Lemma normalize_idemp l : _normalize_string_list (_normalize_string_list l) = _normalize_string_list l.
Proof.
  apply normalize_same. intros x Hx. unfold _normalize_string_list.
  rewrite elem_of_sorted_set, list_elem_of_filter. naive_solver.
Qed.

Lemma normalize_spec l : StronglySorted String.le (_normalize_string_list l) /\
  NoDup (_normalize_string_list l) /\ "" ∉ _normalize_string_list l.
Proof.
  unfold _normalize_string_list. split_and!; [auto with kernel..|].
  rewrite elem_of_sorted_set, list_elem_of_filter. naive_solver.
Qed.

Lemma digest_canon_inj d d' :
  json_canon (_normalize_bundle_digest d) = json_canon (_normalize_bundle_digest d') -> d = d'.
Proof.
  destruct d as [[a b c e]|], d' as [[a' b' c' e']|]; try done. intros H.
  assert (forall k, json_canon <$> od_get k _ = json_canon <$> od_get k _) as Hk
    by (intros k; apply (json_canon_get _ _ k); [| |exact H];
        (apply (bool_decide_unpack _); vm_compute; done)).
  pose proof (Hk "bundle_ref") as H1. pose proof (Hk "semantics_version") as H2.
  pose proof (Hk "content_hash") as H3. pose proof (Hk "compile_hash") as H4.
  simpl in *. congruence.
Qed.

Lemma float_free_payload i : float_free (PDict (canonical_payload i)) = true.
Proof.
  unfold canonical_payload. cbn [float_free forallb snd].
  rewrite !float_free_str_list, !float_free_opt_str. cbn.
  by destruct (si_declarative_bundle_digest i).
Qed.

Lemma canonical_payload_wf i : od_wf (canonical_payload i).
Proof. apply (bool_decide_unpack _). by vm_compute. Qed.

Lemma canonical_payload_same i j : capability_eq i j -> canonical_payload i = canonical_payload j.
Proof.
  unfold capability_eq, canonical_payload. rewrite !normalize_same.
  by intros (-> & -> & -> & -> & -> & -> & -> & -> & -> & -> & -> & -> & -> & -> & ->).
Qed.

Lemma canonical_payload_inj i j :
  json_canon (PDict (canonical_payload i)) = json_canon (PDict (canonical_payload j)) ->
  capability_eq i j.
Proof.
  intros H.
  assert (forall k, json_canon <$> od_get k (canonical_payload i) =
                    json_canon <$> od_get k (canonical_payload j)) as Hk.
  { intros k. apply json_canon_get; [apply canonical_payload_wf..|exact H]. }
  clear H. unfold capability_eq. rewrite !normalize_same.
  assert (forall k l l', od_get k (canonical_payload i) = Some (str_list_val l) ->
    od_get k (canonical_payload j) = Some (str_list_val l') -> l = l') as Hlist.
  { intros k l l' E E'. specialize (Hk k). rewrite E, E' in Hk.
    change (Some (json_canon (str_list_val l)) = Some (json_canon (str_list_val l'))) in Hk.
    apply str_list_val_inj. rewrite <-(json_canon_str_list l), <-(json_canon_str_list l'). congruence. }
  assert (forall k o o', od_get k (canonical_payload i) = Some (opt_str_val o) ->
    od_get k (canonical_payload j) = Some (opt_str_val o') -> o = o') as Hopt.
  { intros k o o' E E'. specialize (Hk k). rewrite E, E' in Hk.
    change (Some (json_canon (opt_str_val o)) = Some (json_canon (opt_str_val o'))) in Hk.
    apply opt_str_val_inj. rewrite <-(json_canon_opt_str o), <-(json_canon_opt_str o'). congruence. }
  split_and!.
  - by injection (Hk "run_id").
  - by injection (Hk "based_on_offset").
  - by injection (Hk "tenant_policy_ref").
  - by injection (Hk "permission_mode").
  - by apply (Hlist "tool_bindings").
  - by apply (Hlist "mcp_bindings").
  - by apply (Hlist "skill_bindings").
  - by apply (Hlist "feature_flags").
  - by apply (Hopt "context_content_hash").
  - by apply (Hopt "budget_ref").
  - by apply (Hopt "quota_ref").
  - by apply (Hopt "session_mode").
  - by apply (Hopt "approval_state").
  - apply digest_canon_inj. specialize (Hk "declarative_bundle_digest"). simpl in Hk. congruence.
  - by apply (Hlist "peer_run_bindings").
Qed.

(** Two texts on which the hash function collides. *)
Definition collision (sha256 : string -> string) (x y : string) : Prop :=
  x <> y /\ sha256 x = sha256 y.

Lemma hash_inj (sha256 : string -> string) x y : sha256 x = sha256 y -> x = y \/ collision sha256 x y.
Proof. intros H. destruct (decide (x = y)); [by left|by right]. Qed.

Lemma payload_hash_inj sha256 i j :
  _build_stable_sha256 sha256 (canonical_payload i) = _build_stable_sha256 sha256 (canonical_payload j) ->
  capability_eq i j \/
  collision sha256 (json_dumps false (PDict (canonical_payload i)))
                   (json_dumps false (PDict (canonical_payload j))).
Proof.
  unfold _build_stable_sha256. intros [He|Hc]%hash_inj; [left|right; exact Hc].
  apply canonical_payload_inj, (json_dumps_inj false); [apply float_free_payload..|exact He].
Qed.

Lemma build_Ret sha256 now i s : build sha256 now i = Ret s ->
  cs_snapshot_hash s = _build_stable_sha256 sha256 (canonical_payload i) /\
  cs_snapshot_schema_version s = _CURRENT_SNAPSHOT_SCHEMA_VERSION /\ cs_run_id s = si_run_id i.
Proof. unfold build. destruct (_validate_input i); intros [= <-]. done. Qed.

Lemma canonicalize_id v : _canonicalize_json v = v.
Proof.
  induction v as [| | | | |l IH|d IH] using pyval_nested_ind; simpl; try done; f_equal.
  - induction IH as [|x l Hx _ IH]; simpl; [done|]. by rewrite Hx, IH.
  - induction IH as [|[k v] d Hv _ IH]; simpl in *; [done|]. by rewrite Hv, IH.
Qed.

Lemma content_payload_wf a h : od_wf (content_payload a h).
Proof. apply (bool_decide_unpack _). by vm_compute. Qed.

Lemma float_free_content a h :
  float_free (PDict (or_empty (act_input_json a))) = true ->
  float_free (PDict (content_payload a h)) = true.
Proof.
  intros Hf. unfold content_payload. rewrite canonicalize_id. cbn [float_free forallb snd] in *.
  rewrite Hf. by rewrite float_free_str_list.
Qed.

(** The same content: type, input up to key order, tags, effect and snapshot. *)
Definition content_eq (a b : Action) (h h' : string) : Prop :=
  act_action_type a = act_action_type b /\
  json_canon (PDict (or_empty (act_input_json a))) = json_canon (PDict (or_empty (act_input_json b))) /\
  act_policy_tags a = act_policy_tags b /\ act_effect_class a = act_effect_class b /\ h = h'.

Lemma content_payload_inj a b h h' :
  json_canon (PDict (content_payload a h)) = json_canon (PDict (content_payload b h')) ->
  content_eq a b h h'.
Proof.
  intros H.
  assert (forall k, json_canon <$> od_get k (content_payload a h) =
                    json_canon <$> od_get k (content_payload b h')) as Hk.
  { intros k. apply json_canon_get; [apply content_payload_wf..|exact H]. }
  split_and!.
  - by injection (Hk "action_type").
  - specialize (Hk "input_json"). unfold content_payload in Hk. rewrite !canonicalize_id in Hk.
    change (Some (json_canon (PDict (or_empty (act_input_json a)))) =
            Some (json_canon (PDict (or_empty (act_input_json b))))) in Hk. congruence.
  - apply str_list_val_inj. rewrite <-json_canon_str_list, <-(json_canon_str_list (act_policy_tags b)).
    specialize (Hk "policy_tags").
    change (Some (json_canon (str_list_val (act_policy_tags a))) =
            Some (json_canon (str_list_val (act_policy_tags b)))) in Hk. congruence.
  - apply (inj effect_str). by injection (Hk "effect_class").
  - by injection (Hk "snapshot_hash").
Qed.

Lemma content_hash_inj sha256 a b h h' :
  float_free (PDict (or_empty (act_input_json a))) = true ->
  float_free (PDict (or_empty (act_input_json b))) = true ->
  _content_hash sha256 a h = _content_hash sha256 b h' ->
  content_eq a b h h' \/
  collision sha256 (json_dumps true (PDict (content_payload a h)))
                   (json_dumps true (PDict (content_payload b h'))).
Proof.
  unfold _content_hash. intros Ha Hb [He|Hc]%hash_inj; [left|right; exact Hc].
  apply content_payload_inj, (json_dumps_inj true); [by apply float_free_content..|exact He].
Qed.

(** Properties ********************************************************************)

(** the snapshot hash identifies the declared capabilities.  Snapshots of
    inputs that declare the same capabilities (bindings compared as sets, empty
    entries ignored) have the same hash; and if two built snapshots have the
    same hash, their inputs declare the same capabilities, or SHA-256 collides
    on the two canonical texts. *)
Theorem snapshot_hash_semantic (sha256 : string -> string) (now now' : string)
    (i j : CapabilitySnapshotInput) (s t : CapabilitySnapshot) :
  build sha256 now i = Ret s -> build sha256 now' j = Ret t ->
  (capability_eq i j -> cs_snapshot_hash s = cs_snapshot_hash t) /\
  (cs_snapshot_hash s = cs_snapshot_hash t -> capability_eq i j \/
     collision sha256 (json_dumps false (PDict (canonical_payload i)))
                      (json_dumps false (PDict (canonical_payload j)))).
Proof.
  intros (-> & _ & _)%build_Ret (-> & _ & _)%build_Ret. split.
  - by intros ->%canonical_payload_same.
  - apply payload_hash_inj.
Qed.

Definition example_input (tools : list string) : CapabilitySnapshotInput :=
  mkSnapshotInput "run-1" 3 "policy:default" "strict" tools [] [] [] None None None None None None
    None [].

(** A stand-in for the hash in examples: as long as a digest. *)
Fixpoint pad (n : nat) (s : string) : string :=
  match n with
  | O => ""
  | S n' => match s with "" => String "0"%char (pad n' "") | String c s' => String c (pad n' s') end
  end.

Lemma snapshot_hash_semantic_witness :
  cs_snapshot_hash <$> build (pad 64) "t" (example_input ["b"; "a"; "a"; ""]) =
  cs_snapshot_hash <$> build (pad 64) "u" (example_input ["a"; "b"]).
Proof.
  destruct (build (pad 64) "t" (example_input ["b"; "a"; "a"; ""])) as [s|] eqn:Hs; [|done].
  destruct (build (pad 64) "u" (example_input ["a"; "b"])) as [t|] eqn:Ht; [|done].
  cbn [fmap outcome_fmap]. f_equal.
  apply (snapshot_hash_semantic (pad 64) "t" "u" _ _ s t Hs Ht).
  split_and!; try done. intros x Hx. simpl. rewrite !elem_of_cons, elem_of_nil. tauto.
Defined.

(** the builder accepts an input exactly when the run id, tenant policy and
    permission mode are given, the offset is not negative, and a context
    binding comes with its content hash; otherwise it raises
    [CapabilitySnapshotBuildError].  A built snapshot has sorted, duplicate-free
    bindings without empty names, is stable under rebuilding from them, and
    passes the compatibility check. *)
Theorem snapshot_build_valid (sha256 : string -> string) (now : string) (i : CapabilitySnapshotInput) :
  let valid := si_run_id i <> "" /\ 0 <= si_based_on_offset i /\ si_tenant_policy_ref i <> "" /\
    si_permission_mode i <> "" /\
    (truthy (si_context_binding_ref i) = true -> truthy (si_context_content_hash i) = true) in
  (~ valid -> exists msg, build sha256 now i = Raise (CapabilitySnapshotBuildError msg)) /\
  (valid -> exists s, build sha256 now i = Ret s /\ assert_snapshot_compatible s = Ret tt /\
     forall l, l ∈ [cs_tool_bindings s; cs_mcp_bindings s; cs_skill_bindings s; cs_feature_flags s;
                    cs_peer_run_bindings s] ->
       StronglySorted String.le l /\ NoDup l /\ "" ∉ l /\ _normalize_string_list l = l).
Proof.
  unfold build, _validate_input. cbn zeta.
  destruct (decide (si_run_id i = "")); [split; [by eexists|tauto]|].
  destruct (Z.ltb_spec (si_based_on_offset i) 0);
    [split; [by eexists|intros (_ & ? & _); lia]|].
  destruct (decide (si_tenant_policy_ref i = "")); [split; [by eexists|tauto]|].
  destruct (decide (si_permission_mode i = "")); [split; [by eexists|tauto]|].
  destruct (truthy (si_context_binding_ref i) && negb (truthy (si_context_content_hash i))) eqn:Hc.
  { split; [by eexists|]. intros (_ & _ & _ & _ & Hv). destruct (truthy (si_context_binding_ref i));
      [|done]. by rewrite Hv in Hc. }
  split.
  { intros []. split_and!; try done. intros Ht. rewrite Ht in Hc. simpl in Hc.
    by destruct (truthy (si_context_content_hash i)). }
  intros _. eexists. split; [done|]. split; [done|]. cbn.
  intros l Hl. rewrite !elem_of_cons, elem_of_nil in Hl.
  assert (exists l0, l = _normalize_string_list l0) as [l0 ->] by naive_solver.
  rewrite normalize_idemp. destruct (normalize_spec l0) as (? & ? & ?). done.
Qed.

(** C22: a dispatch key identifies the dispatch.  If two dispatches, each keyed
    from a snapshot built for its own run and with no floats in its input, get the same idempotency key, then
    they are of the same run and action id, the same content (action type,
    input up to key order, policy tags, effect class) and the same
    capabilities at the same offset, unless SHA-256 collides on the texts
    hashed for the two actions or for the two snapshots. *)
Theorem dispatch_key_identity (sha256 : string -> string) (now : string)
    (i j : CapabilitySnapshotInput) (s t : CapabilitySnapshot) (a b : Action) :
  (forall x, String.length (sha256 x) = 64%nat) ->
  build sha256 now i = Ret s -> build sha256 now j = Ret t ->
  float_free (PDict (or_empty (act_input_json a))) = true ->
  float_free (PDict (or_empty (act_input_json b))) = true ->
  generate sha256 "dispatch" (si_run_id i) a (cs_snapshot_hash s) =
    generate sha256 "dispatch" (si_run_id j) b (cs_snapshot_hash t) ->
  (si_run_id i = si_run_id j /\ act_action_id a = act_action_id b /\
   content_eq a b (cs_snapshot_hash s) (cs_snapshot_hash t) /\ capability_eq i j) \/
  collision sha256 (json_dumps true (PDict (content_payload a (cs_snapshot_hash s))))
                   (json_dumps true (PDict (content_payload b (cs_snapshot_hash t)))) \/
  collision sha256 (json_dumps false (PDict (canonical_payload i)))
                   (json_dumps false (PDict (canonical_payload j))).
Proof.
  intros Hlen (Hs & _)%build_Ret (Ht & _)%build_Ret Ha Hb Hk. unfold generate in Hk.
  rewrite <-!app_assoc_str in Hk. apply app_inj_len_r in Hk as [Hpre Hh];
    [|unfold _content_hash; by rewrite !Hlen].
  rewrite Hs, Ht in *.
  destruct (content_hash_inj sha256 a b _ _ Ha Hb Hh) as [Hc|]; [|right; by left].
  assert (_build_stable_sha256 sha256 (canonical_payload i) =
          _build_stable_sha256 sha256 (canonical_payload j)) as He by apply Hc.
  destruct (payload_hash_inj sha256 i j He) as [Hcap|]; [|right; by right].
  left. pose proof Hcap as (Hr & _). split_and!; [exact Hr| |exact Hc|exact Hcap]. rewrite Hr in Hpre.
  apply app_inj_r_str in Hpre. by apply app_inj_l_str in Hpre.
Qed.

Definition example_action (id : string) : Action :=
  mkAction id "run-1" "tool_call" IDEMPOTENT_WRITE None None None
    (Some [("n", PInt 1); ("m", PNone)]) ["host:local_cli"] None None.

(** The same action with the keys of its input in the other order. *)
Definition reordered_action (id : string) : Action :=
  mkAction id "run-1" "tool_call" IDEMPOTENT_WRITE None None None
    (Some [("m", PNone); ("n", PInt 1)]) ["host:local_cli"] None None.

(** Two dispatches whose inputs and tool lists are written in another order have one key,
    so they are dispatches of the same content and capabilities. *)
Lemma dispatch_key_identity_witness :
  let i := example_input ["a"; "b"] in let j := example_input ["b"; "a"; "a"; ""] in
  let a := example_action "act-1" in let b := reordered_action "act-1" in
  exists s t, build (pad 64) "t" i = Ret s /\ build (pad 64) "t" j = Ret t /\ act_input_json a <> act_input_json b /\
    content_eq a b (cs_snapshot_hash s) (cs_snapshot_hash t) /\ capability_eq i j.
Proof.
  intros i j a b.
  destruct (build (pad 64) "t" i) as [s|] eqn:Hs; [|done].
  destruct (build (pad 64) "t" j) as [t|] eqn:Ht; [|done].
  exists s, t. split_and!; [done|done|done|..];
    (assert (forall n x, String.length (pad n x) = n) as Hpad;
      [induction n as [|n IH]; intros x; [done|]; simpl; destruct x; simpl; by rewrite IH|]);
    destruct (dispatch_key_identity (pad 64) "t" i j s t a b (Hpad 64%nat) Hs Ht) as [(_ & _ & Hc & Hcap)|[[Hd _]|[Hd _]]];
    (reflexivity || exact Hc || exact Hcap || (injection Hs as <-; injection Ht as <-; vm_compute; reflexivity) ||
     (destruct Hd; injection Hs as <-; injection Ht as <-; vm_compute; reflexivity)).
Defined.
