(* ===== verification/DispatchPolicy.v ===== *)
(** * Dispatch policy
      ([agent_kernel/kernel/remote_service_policy.py], the host resolution of
       [turn_engine.py] and of [minimal_runtime.py],
       [agent_kernel/kernel/failure_evidence.py])

    Where an action may run and whether its idempotency claim is covered.  The
    engine and the admission service each resolve the host with code of their
    own; the file models both ([Engine], [Admission]) and says when they agree. *)

From stdpp Require Import base tactics option list sets strings.
From Stdlib Require Import ZArith.
From S2P Require Import Prelude PyStr PyDict PyVal Contracts.
#[local] Arguments String.append : simpl nomatch.

(** ** [remote_service_policy.py] *)

Inductive policy_reason :=
  | missing_remote_idempotency_contract | validated_remote_contract | remote_contract_constrained.

Record RemoteDispatchPolicyDecision := mkRemoteDecision {
  rpd_effective_idempotency_level : ExternalIdempotencyLevel;
  rpd_default_retry_policy : RemoteRetryPolicy;
  rpd_auto_retry_enabled : bool;
  rpd_can_claim_guaranteed : bool;
  rpd_reason : policy_reason
}.

Definition evaluate_remote_service_policy (external_level : option ExternalIdempotencyLevel)
    (contract : option RemoteServiceIdempotencyContract) : RemoteDispatchPolicyDecision :=
  let normalized_level := default lvl_unknown external_level in
  match contract with
  | None =>
      mkRemoteDecision
        (if decide (normalized_level = lvl_guaranteed) then lvl_best_effort else normalized_level)
        no_auto_retry false false missing_remote_idempotency_contract
  | Some c =>
      let can_claim_guaranteed :=
        bool_decide (normalized_level = lvl_guaranteed)
        && rs_accepts_dispatch_idempotency_key c && rs_returns_stable_ack c in
      mkRemoteDecision
        (if can_claim_guaranteed then lvl_guaranteed
         else if decide (normalized_level = lvl_guaranteed) then lvl_best_effort
         else normalized_level)
        (rs_default_retry_policy c)
        (match rs_default_retry_policy c with bounded_retry => true | no_auto_retry => false end)
        can_claim_guaranteed
        (if can_claim_guaranteed then validated_remote_contract else remote_contract_constrained)
  end.

(** ** Parsing shared by the two resolvers *)

Definition parse_peer_retry_model (v : pyval) : option PeerRetryModel :=
  match v with
  | PStr s =>
      if decide (s = "unknown") then Some prm_unknown
      else if decide (s = "at_most_once") then Some at_most_once
      else if decide (s = "at_least_once") then Some at_least_once
      else if decide (s = "exactly_once_claimed") then Some exactly_once_claimed
      else None
  | _ => None
  end.

Definition parse_retry_policy (v : pyval) : option RemoteRetryPolicy :=
  match v with
  | PStr s =>
      if decide (s = "no_auto_retry") then Some no_auto_retry
      else if decide (s = "bounded_retry") then Some bounded_retry
      else None
  | _ => None
  end.

Definition _parse_remote_service_contract (payload : pyval) : option RemoteServiceIdempotencyContract :=
  match as_dict payload with
  | None => None
  | Some d =>
      match as_bool (pd_get d "accepts_dispatch_idempotency_key"),
            as_bool (pd_get d "returns_stable_ack"),
            parse_peer_retry_model (pd_get d "peer_retry_model"),
            parse_retry_policy (pd_get d "default_retry_policy") with
      | Some accepts, Some stable, Some model, Some policy =>
          Some (mkRemoteContract accepts stable model policy)
      | _, _, _, _ => None
      end
  end.

(** The first candidate that parses. *)
Fixpoint first_some {A B} (f : A -> option B) (l : list A) : option B :=
  match l with
  | [] => None
  | x :: rest => match f x with Some y => Some y | None => first_some f rest end
  end.

Definition _extract_remote_service_contract (input_json : option (odict string pyval)) :
    option RemoteServiceIdempotencyContract :=
  match input_json with
  | None => None
  | Some d =>
      first_some _parse_remote_service_contract
        ([pd_get d "remote_service_idempotency_contract";
          pd_get d "remote_idempotency_contract";
          pd_get d "idempotency_contract"] ++
         match as_dict (pd_get d "remote_service") with
         | Some remote_service_payload =>
             [pd_get remote_service_payload "idempotency_contract";
              pd_get remote_service_payload "contract"]
         | None => []
         end)
  end.

(** ** Host resolution, given the names a module accepts *)

Section host_kind.
Context (normalize : string -> option HostKind).

Definition normalize_value (value : pyval) : option HostKind :=
  match as_str value with Some s => normalize (lower (strip s)) | None => None end.

Definition host_prefixes : list string :=
  ["host:"; "host_kind:"; "dispatch_host:"; "dispatch_host_kind:"].

(** The loop over the prefixes, for one tag; the value is normalised again. *)
Definition host_kind_of_tag (tag : string) : option HostKind :=
  let normalized_tag := lower (strip tag) in
  first_some (fun prefix =>
    if startswith normalized_tag prefix
    then normalize_value (PStr (removeprefix normalized_tag prefix)) else None) host_prefixes.

Definition host_kind_from_tags (policy_tags : list string) : option HostKind :=
  first_some host_kind_of_tag policy_tags.

Definition host_keys : list string := ["host_kind"; "dispatch_host_kind"; "host"; "dispatch_host"].

Definition host_kind_from_payload (payload : odict string pyval) : option HostKind :=
  match first_some (fun key => normalize_value (pd_get payload key)) host_keys with
  | Some h => Some h
  | None =>
      match as_dict (pd_get payload "dispatch") with
      | Some dispatch_payload =>
          first_some (fun key => normalize_value (pd_get dispatch_payload key)) host_keys
      | None => None
      end
  end.

Definition explicit_host_kind (a : Action) : option HostKind :=
  match host_kind_from_tags (act_policy_tags a) with
  | Some h => Some h
  | None => host_kind_from_payload (or_empty (act_input_json a))
  end.

Definition dispatch_host_kind (a : Action) : HostKind :=
  match explicit_host_kind a with
  | Some h => h
  | None =>
      if negb (bool_decide (act_effect_class a = READ_ONLY))
         && bool_decide (is_Some (act_external_idempotency_level a))
      then remote_service else local_cli
  end.
End host_kind.

(** ** The engine's copy ([turn_engine.py]) *)
Module Engine.

Definition accepted_host (s : string) : option HostKind :=
  if decide (s = "local_cli") then Some local_cli
  else if decide (s = "local_process") then Some local_process
  else if decide (s = "remote_service") then Some remote_service
  else if decide (s = "cli_process") then Some cli_process
  else if decide (s = "in_process_python") then Some in_process_python
  else None.

Definition _normalize_host_kind : pyval -> option HostKind := normalize_value accepted_host.

Definition _extract_host_kind_from_policy_tags : list string -> option HostKind :=
  host_kind_from_tags accepted_host.

Definition _extract_host_kind_from_payload : odict string pyval -> option HostKind :=
  host_kind_from_payload accepted_host.

Definition _resolve_explicit_host_kind : Action -> option HostKind := explicit_host_kind accepted_host.

Definition _resolve_dispatch_host_kind : Action -> HostKind := dispatch_host_kind accepted_host.

Record _DispatchPolicy := mkDispatchPolicy {
  dp_host_kind : HostKind;
  dp_should_block : bool;
  dp_block_reason : option string;
  dp_remote_policy_decision : option RemoteDispatchPolicyDecision
}.

Definition _resolve_dispatch_policy (a : Action) : _DispatchPolicy :=
  let host_kind := _resolve_dispatch_host_kind a in
  if negb (bool_decide (host_kind = remote_service)) || bool_decide (act_effect_class a = READ_ONLY)
  then mkDispatchPolicy host_kind false None None
  else
    let remote_contract := _extract_remote_service_contract (act_input_json a) in
    let remote_policy :=
      evaluate_remote_service_policy (act_external_idempotency_level a) remote_contract in
    let requested_guaranteed :=
      bool_decide (act_external_idempotency_level a = Some lvl_guaranteed) in
    if requested_guaranteed && negb (rpd_can_claim_guaranteed remote_policy)
    then mkDispatchPolicy host_kind true (Some "idempotency_contract_insufficient")
                          (Some remote_policy)
    else mkDispatchPolicy host_kind false None (Some remote_policy).

Definition _resolve_dedupe_downgrade_scope (host_kind : HostKind) : string :=
  if decide (host_kind = remote_service) then "irreversible_write" else "compensatable_write".

Definition _read_optional_string (payload : odict string pyval) (key : string) : option string :=
  match as_str (pd_get payload key) with
  | Some s => let normalized_value := strip s in
              if decide (normalized_value = "") then None else Some normalized_value
  | None => None
  end.
End Engine.

(** ** The admission service's copy ([minimal_runtime.py]) *)
Module Admission.

Definition accepted_host (s : string) : option HostKind :=
  if decide (s = "local_cli") then Some local_cli
  else if decide (s = "local_process") then Some local_process
  else if decide (s = "remote_service") then Some remote_service
  else None.

Definition _normalize_host_kind : pyval -> option HostKind := normalize_value accepted_host.

Definition _extract_host_kind_from_policy_tags : list string -> option HostKind :=
  host_kind_from_tags accepted_host.

Definition _extract_host_kind_from_payload : odict string pyval -> option HostKind :=
  host_kind_from_payload accepted_host.

Definition _resolve_explicit_host_kind : Action -> option HostKind := explicit_host_kind accepted_host.

Definition _resolve_dispatch_host_kind : Action -> HostKind := dispatch_host_kind accepted_host.

Definition _requires_remote_idempotency_contract_block (a : Action) : bool :=
  if decide (act_effect_class a = READ_ONLY) then false
  else if decide (act_external_idempotency_level a <> Some lvl_guaranteed) then false
  else if decide (_resolve_dispatch_host_kind a <> remote_service) then false
  else
    let remote_contract := _extract_remote_service_contract (act_input_json a) in
    let remote_policy :=
      evaluate_remote_service_policy (act_external_idempotency_level a) remote_contract in
    negb (rpd_can_claim_guaranteed remote_policy).

(** [_resolve_sandbox_host_kind] *)
Definition _resolve_sandbox_host_kind (a : Action) : HostKind :=
  let normalized_tags := map (fun tag => lower (strip tag)) (act_policy_tags a) in
  match first_some (fun '(candidate, host_kind) =>
          if decide (candidate ∈ normalized_tags) then Some host_kind else None)
          [("host:local_process", local_process); ("host:local_cli", local_cli);
           ("host:remote_service", remote_service); ("host_kind:local_process", local_process);
           ("host_kind:local_cli", local_cli); ("host_kind:remote_service", remote_service)] with
  | Some h => h
  | None =>
      if bool_decide (is_Some (act_external_idempotency_level a))
         && negb (bool_decide (act_effect_class a = READ_ONLY))
      then remote_service else local_cli
  end.
End Admission.

(** ** [failure_evidence.py] *)

Definition _normalize_optional_ref (value : option string) : option string :=
  match value with
  | None => None
  | Some s => let normalized_value := strip s in
              if decide (normalized_value = "") then None else Some normalized_value
  end.

Definition resolve_failure_evidence (e : FailureEnvelope) : FailureEvidenceSource * option string :=
  match _normalize_optional_ref (fe_external_ack_ref e) with
  | Some r => (src_external_ack_ref, Some r)
  | None =>
      match _normalize_optional_ref (fe_evidence_ref e) with
      | Some r => (src_evidence_ref, Some r)
      | None =>
          match _normalize_optional_ref (fe_local_inference e) with
          | Some r => (src_local_inference, Some r)
          | None => (src_none, None)
          end
      end
  end.

Definition apply_failure_evidence_priority (e : FailureEnvelope) : FailureEnvelope :=
  let '(source, evidence_ref) := resolve_failure_evidence e in
  mkFailureEnvelope (fe_run_id e) (fe_action_id e) (fe_failed_stage e) (fe_failed_component e)
    (fe_failure_code e) (fe_failure_class e) (fe_evidence_ref e) (fe_external_ack_ref e)
    (fe_local_inference e) source evidence_ref (fe_retryability e) (fe_compensation_hint e)
    (fe_human_escalation_hint e) (fe_trace_failure_code e).

(** Lemmas *************************************************************************)

(** The hosts only the engine knows. *)
Definition engine_only (h : HostKind) : Prop := h = cli_process \/ h = in_process_python.

(** [o'] answers like [o], except where [o] answers a host only the engine knows. *)
Definition agree (o o' : option HostKind) : Prop :=
  (o = None -> o' = None) /\ (forall h, o = Some h -> ~ engine_only h -> o' = Some h).

Lemma accepted_host_agree s : agree (Engine.accepted_host s) (Admission.accepted_host s).
Proof.
  unfold agree, Engine.accepted_host, Admission.accepted_host, engine_only.
  repeat case_decide; split; naive_solver.
Qed.

Lemma first_some_agree {A} (f g : A -> option HostKind) l :
  (forall x, agree (f x) (g x)) -> agree (first_some f l) (first_some g l).
Proof.
  intros Hfg. induction l as [|x l [IH1 IH2]]; simpl; [by split|].
  destruct (Hfg x) as [H1 H2]. destruct (f x) as [h|] eqn:Hf.
  - split; [done|]. intros h' [= <-] Hn. by rewrite (H2 h eq_refl Hn).
  - rewrite (H1 eq_refl). done.
Qed.

Lemma normalize_agree v : agree (Engine._normalize_host_kind v) (Admission._normalize_host_kind v).
Proof.
  unfold Engine._normalize_host_kind, Admission._normalize_host_kind, normalize_value.
  destruct (as_str v); [apply accepted_host_agree|by split].
Qed.

Lemma agree_or o o' p p' : agree o o' -> agree p p' ->
  agree (match o with Some h => Some h | None => p end)
        (match o' with Some h => Some h | None => p' end).
Proof.
  intros [H1 H2] [H3 H4]. destruct o as [h|].
  - split; [done|]. intros h' [= <-] Hn. by rewrite (H2 h eq_refl Hn).
  - rewrite (H1 eq_refl). done.
Qed.

Lemma explicit_agree a : agree (Engine._resolve_explicit_host_kind a) (Admission._resolve_explicit_host_kind a).
Proof.
  apply agree_or.
  - apply first_some_agree. intros tag. apply first_some_agree. intros prefix.
    destruct (startswith (lower (strip tag)) prefix); [apply normalize_agree|by split].
  - apply agree_or; [apply first_some_agree; intros; apply normalize_agree|].
    destruct (as_dict _); [apply first_some_agree; intros; apply normalize_agree|by split].
Qed.

Lemma host_agree a : ~ engine_only (Engine._resolve_dispatch_host_kind a) ->
  Admission._resolve_dispatch_host_kind a = Engine._resolve_dispatch_host_kind a.
Proof.
  unfold Engine._resolve_dispatch_host_kind, Admission._resolve_dispatch_host_kind, dispatch_host_kind.
  destruct (explicit_agree a) as [H1 H2].
  unfold Engine._resolve_explicit_host_kind, Admission._resolve_explicit_host_kind in *.
  destruct (explicit_host_kind Engine.accepted_host a) as [h|].
  - intros Hn. by rewrite (H2 h eq_refl Hn).
  - by rewrite (H1 eq_refl).
Qed.

Lemma remote_not_engine_only : ~ engine_only remote_service.
Proof. by intros []. Qed.

(** The engine blocks exactly on this condition. *)
Lemma engine_block_eq a :
  Engine.dp_should_block (Engine._resolve_dispatch_policy a) =
  bool_decide (Engine._resolve_dispatch_host_kind a = remote_service) &&
  negb (bool_decide (act_effect_class a = READ_ONLY)) &&
  bool_decide (act_external_idempotency_level a = Some lvl_guaranteed) &&
  negb (rpd_can_claim_guaranteed (evaluate_remote_service_policy (act_external_idempotency_level a)
          (_extract_remote_service_contract (act_input_json a)))).
Proof.
  unfold Engine._resolve_dispatch_policy.
  destruct (bool_decide (_ = remote_service)), (bool_decide (act_effect_class a = READ_ONLY)); try done.
  simpl. by destruct (_ && _).
Qed.

Lemma admission_block_eq a :
  Admission._requires_remote_idempotency_contract_block a =
  bool_decide (Admission._resolve_dispatch_host_kind a = remote_service) &&
  negb (bool_decide (act_effect_class a = READ_ONLY)) &&
  bool_decide (act_external_idempotency_level a = Some lvl_guaranteed) &&
  negb (rpd_can_claim_guaranteed (evaluate_remote_service_policy (act_external_idempotency_level a)
          (_extract_remote_service_contract (act_input_json a)))).
Proof.
  unfold Admission._requires_remote_idempotency_contract_block. generalize
    (rpd_can_claim_guaranteed (evaluate_remote_service_policy (act_external_idempotency_level a)
          (_extract_remote_service_contract (act_input_json a)))) as b. intros b.
  generalize (Admission._resolve_dispatch_host_kind a) as h. intros h.
  destruct (decide (act_effect_class a = READ_ONLY)) as [->|He]; [by rewrite andb_false_r|].
  rewrite (bool_decide_false _ He).
  destruct (decide (act_external_idempotency_level a = Some lvl_guaranteed)) as [->|Hg].
  - rewrite decide_False by naive_solver. destruct h; done.
  - rewrite decide_True, (bool_decide_false _ Hg), andb_false_r by done. done.
Qed.

Lemma can_claim_eq level contract :
  rpd_can_claim_guaranteed (evaluate_remote_service_policy level contract) =
  bool_decide (level = Some lvl_guaranteed) &&
  match contract with
  | Some c => rs_accepts_dispatch_idempotency_key c && rs_returns_stable_ack c
  | None => false
  end.
Proof.
  destruct contract as [c|]; simpl; [|by rewrite andb_false_r].
  destruct level as [[]|]; done.
Qed.

(** Properties ********************************************************************)

(** a guaranteed-idempotency claim is honoured only with proof.  The policy
    claims "guaranteed" exactly when the action declares it and the remote
    contract both accepts the dispatch key and returns a stable
    acknowledgement; otherwise a guaranteed declaration is lowered to
    best_effort and any other declaration is kept.  Automatic retry is enabled
    exactly when a contract asks for bounded retry. *)
Theorem remote_policy_conservative (level : option ExternalIdempotencyLevel)
    (contract : option RemoteServiceIdempotencyContract) :
  let d := evaluate_remote_service_policy level contract in
  (rpd_can_claim_guaranteed d = true <->
     level = Some lvl_guaranteed /\ exists c, contract = Some c /\
       rs_accepts_dispatch_idempotency_key c = true /\ rs_returns_stable_ack c = true) /\
  (rpd_effective_idempotency_level d =
     match level with
     | Some lvl_guaranteed => if rpd_can_claim_guaranteed d then lvl_guaranteed else lvl_best_effort
     | Some l => l
     | None => lvl_unknown
     end) /\
  (rpd_auto_retry_enabled d = true <->
     exists c, contract = Some c /\ rs_default_retry_policy c = bounded_retry).
Proof.
  cbn zeta. rewrite can_claim_eq. split_and!.
  - rewrite andb_true_iff, bool_decide_eq_true. destruct contract as [c|]; [|naive_solver].
    rewrite andb_true_iff. naive_solver.
  - destruct contract as [c|], level as [[]|]; simpl; try done;
      by destruct (rs_accepts_dispatch_idempotency_key c && rs_returns_stable_ack c).
  - destruct contract as [[a b m []]|]; simpl; naive_solver.
Qed.

(** the two dispatch gates agree.  Whatever the engine blocks, the admission
    service denies; and they decide alike on every action the engine does not
    send to a [cli_process] or [in_process_python] host.  (On those two hosts
    the admission code, which does not know their names, can deny a local
    action for lack of a remote contract.) *)
Theorem dispatch_gates_agree (a : Action) :
  (Engine.dp_should_block (Engine._resolve_dispatch_policy a) = true ->
     Admission._requires_remote_idempotency_contract_block a = true) /\
  (~ engine_only (Engine._resolve_dispatch_host_kind a) ->
     Admission._resolve_dispatch_host_kind a = Engine._resolve_dispatch_host_kind a /\
     Admission._requires_remote_idempotency_contract_block a =
       Engine.dp_should_block (Engine._resolve_dispatch_policy a)).
Proof.
  rewrite engine_block_eq, admission_block_eq. split.
  - rewrite !andb_true_iff. intros [[[Hh%bool_decide_eq_true He] Hg] Hc].
    rewrite (host_agree a), Hh by (rewrite Hh; apply remote_not_engine_only). done.
  - intros Hn. by rewrite (host_agree a Hn).
Qed.

(** A guaranteed write pinned to a local command-line process. *)
Definition cli_action : Action :=
  mkAction "act-1" "run-1" "tool_call" IDEMPOTENT_WRITE (Some lvl_guaranteed) None None None
    ["host:cli_process"] None None.

(** the admission service denies local work the engine would run: with the
    tag [host:cli_process] the engine bypasses the remote contract check, and
    admission, which does not recognise the name, takes the action for a
    remote one without a contract. *)
Theorem cli_process_denied_by_admission (a : Action) :
  act_policy_tags a = ["host:cli_process"] -> act_input_json a = None ->
  act_effect_class a <> READ_ONLY -> act_external_idempotency_level a = Some lvl_guaranteed ->
  Engine._resolve_dispatch_host_kind a = cli_process /\
  Engine.dp_should_block (Engine._resolve_dispatch_policy a) = false /\
  Admission._requires_remote_idempotency_contract_block a = true.
Proof.
  intros Ht Hi He Hg.
  assert (Engine._resolve_dispatch_host_kind a = cli_process) as Hh.
  { unfold Engine._resolve_dispatch_host_kind, dispatch_host_kind, explicit_host_kind. by rewrite Ht. }
  assert (Admission._resolve_dispatch_host_kind a = remote_service) as Hr.
  { unfold Admission._resolve_dispatch_host_kind, dispatch_host_kind, explicit_host_kind.
    rewrite Ht, Hi, Hg. simpl. by rewrite bool_decide_false. }
  rewrite engine_block_eq, Hh. split_and!; [done|done|].
  rewrite admission_block_eq, Hr, Hi, Hg, (bool_decide_false _ He). done.
Qed.

Lemma cli_process_denied_by_admission_witness :
  Admission._requires_remote_idempotency_contract_block cli_action = true.
Proof. apply (cli_process_denied_by_admission cli_action); done. Defined.

(** failure evidence is chosen by strict priority: the external
    acknowledgement when it is not blank, else the evidence reference, else the
    local inference, else none; the chosen reference is trimmed and not empty,
    every other field is kept, and choosing again changes nothing. *)
Theorem failure_evidence_priority (e : FailureEnvelope) :
  let e' := apply_failure_evidence_priority e in
  let usable r := exists s, r = Some s /\ strip s <> "" in
  (fe_evidence_priority_source e' = src_external_ack_ref <-> usable (fe_external_ack_ref e)) /\
  (fe_evidence_priority_source e' = src_evidence_ref <->
     ~ usable (fe_external_ack_ref e) /\ usable (fe_evidence_ref e)) /\
  (fe_evidence_priority_source e' = src_local_inference <->
     ~ usable (fe_external_ack_ref e) /\ ~ usable (fe_evidence_ref e) /\ usable (fe_local_inference e)) /\
  (fe_evidence_priority_source e' = src_none <-> fe_evidence_priority_ref e' = None) /\
  (forall r, fe_evidence_priority_ref e' = Some r -> r <> "" /\ strip r = r) /\
  fe_failure_code e' = fe_failure_code e /\ fe_external_ack_ref e' = fe_external_ack_ref e /\
  apply_failure_evidence_priority e' = e'.
Proof.
  assert (forall r, (exists s, r = Some s /\ strip s <> "") <-> is_Some (_normalize_optional_ref r)) as Hu.
  { intros [s|]; simpl; [|split; [naive_solver|by intros []]].
    case_decide; split; [naive_solver|by intros []|by eexists|naive_solver]. }
  assert (forall r s, _normalize_optional_ref r = Some s -> s <> "" /\ strip s = s) as Hs.
  { intros [r|] s; simpl; [|done]. case_decide; intros [= <-]. by rewrite strip_idemp. }
  cbn zeta. rewrite !Hu. unfold apply_failure_evidence_priority, resolve_failure_evidence.
  destruct (_normalize_optional_ref (fe_external_ack_ref e)) as [r1|] eqn:H1;
    [|destruct (_normalize_optional_ref (fe_evidence_ref e)) as [r2|] eqn:H2;
      [|destruct (_normalize_optional_ref (fe_local_inference e)) as [r3|] eqn:H3]];
    cbn; rewrite ?H1, ?H2, ?H3;
    split_and!; try done; rewrite <-?not_eq_None_Some; naive_solver.
Qed.
