(* ===== verification/TurnEngine.v ===== *)
(** * Turn engine ([agent_kernel/kernel/turn_engine.py])

    One turn of a run: collect, snapshot, admission, dispatch policy,
    idempotency reservation, execution.  The phases are methods over a mutable
    context; here they are state-passing code over the context and a world
    made of the dispatch ledger (any store of [DedupeStore]), the environment
    behind the ports (snapshot builder, admission, executor, reasoning loop,
    hooks, clock: parameters of the model, free to do anything and raise
    anything), a ghost trace of the calls made to the executor and one of what
    others did to the ledger meanwhile.  Other turns and processes see and
    change only the ledger, so letting them act before each operation of this
    turn on it gives every interleaving. *)

From stdpp Require Import base tactics option list sets strings gmap pretty.
From Stdlib Require Import ZArith.
From S2P Require Import Prelude PyStr PyDict PyVal Contracts DedupeStore Snapshot DispatchPolicy.
#[local] Arguments String.append : simpl nomatch.

Inductive TurnTriggerType := trig_start | trig_signal | trig_child_join | trig_recovery_resume.

Definition trigger_str (t : TurnTriggerType) : string :=
  match t with
  | trig_start => "start"
  | trig_signal => "signal"
  | trig_child_join => "child_join"
  | trig_recovery_resume => "recovery_resume"
  end.

(** [TurnState] and the two diagnostic names that only occur in events. *)
Inductive TurnState :=
  | collecting | intent_committed | reasoning | snapshot_built | admission_checked
  | dispatch_blocked | ts_dispatched | dispatch_acknowledged | effect_unknown | effect_recorded
  | recovery_pending | completed_noop | reasoning_failed | dedupe_degraded.

Inductive TurnOutcomeKind := out_noop | out_blocked | out_dispatched | out_recovery_pending.

Record TurnStateEvent := mkTurnEvent {
  tse_state : TurnState;
  tse_reason : option string;
  tse_metadata : odict string pyval
}.

Record TurnInput := mkTurnInput {
  ti_run_id : string;
  ti_through_offset : Z;
  ti_based_on_offset : Z;
  ti_trigger_type : TurnTriggerType;
  ti_history : list pyval
}.

Record TurnEngineDefaults := mkDefaults {
  df_model_ref : string;
  df_tenant_policy_ref : string;
  df_permission_mode : string
}.

Record TurnResult := mkTurnResult {
  tr_state : TurnState;
  tr_outcome_kind : TurnOutcomeKind;
  tr_decision_ref : string;
  tr_decision_fingerprint : string;
  tr_dispatch_dedupe_key : option string;
  tr_intent_commit_ref : option string;
  tr_host_kind : option HostKind;
  tr_remote_policy_decision : option RemoteDispatchPolicyDecision;
  tr_action_commit : option (odict string pyval);
  tr_recovery_input : option FailureEnvelope;
  tr_emitted_events : list TurnStateEvent
}.

Record _TurnIdentity := mkIdentity {
  id_decision_ref : string;
  id_decision_fingerprint : string;
  id_intent_commit_ref : string;
  id_dispatch_dedupe_key : string
}.

(** What [admit] may return. *)
Inductive admission_result :=
  | AdmBool (b : bool)
  | AdmResult (r : AdmissionResult).

Record TurnPhaseContext := mkCtx {
  cx_input_value : TurnInput;
  cx_action : option Action;
  cx_emitted_events : list TurnStateEvent;
  cx_result : option TurnResult;
  cx_turn_identity : option _TurnIdentity;
  cx_snapshot : option CapabilitySnapshot;
  cx_admission_result : option admission_result;
  cx_dispatch_policy : option Engine._DispatchPolicy;
  cx_envelope : option IdempotencyEnvelope;
  cx_execute_result : option (odict string pyval);
  cx_dedupe_available : bool;
  cx_dedupe_outcome : string;
  cx_legacy_alias_key : option string
}.

#[export] Instance TurnState_eq_dec : EqDecision TurnState.
Proof. solve_decision. Defined.
#[export] Instance TurnOutcomeKind_eq_dec : EqDecision TurnOutcomeKind.
Proof. solve_decision. Defined.

(** Field assignment on the context. *)
Definition set_action (a : Action) (c : TurnPhaseContext) : TurnPhaseContext :=
  mkCtx (cx_input_value c) (Some a) (cx_emitted_events c) (cx_result c) (cx_turn_identity c)
    (cx_snapshot c) (cx_admission_result c) (cx_dispatch_policy c) (cx_envelope c)
    (cx_execute_result c) (cx_dedupe_available c) (cx_dedupe_outcome c) (cx_legacy_alias_key c).
Definition add_event (e : TurnStateEvent) (c : TurnPhaseContext) : TurnPhaseContext :=
  mkCtx (cx_input_value c) (cx_action c) (cx_emitted_events c ++ [e]) (cx_result c)
    (cx_turn_identity c) (cx_snapshot c) (cx_admission_result c) (cx_dispatch_policy c)
    (cx_envelope c) (cx_execute_result c) (cx_dedupe_available c) (cx_dedupe_outcome c)
    (cx_legacy_alias_key c).
Definition set_result (r : TurnResult) (c : TurnPhaseContext) : TurnPhaseContext :=
  mkCtx (cx_input_value c) (cx_action c) (cx_emitted_events c) (Some r) (cx_turn_identity c)
    (cx_snapshot c) (cx_admission_result c) (cx_dispatch_policy c) (cx_envelope c)
    (cx_execute_result c) (cx_dedupe_available c) (cx_dedupe_outcome c) (cx_legacy_alias_key c).
Definition set_identity (i : _TurnIdentity) (c : TurnPhaseContext) : TurnPhaseContext :=
  mkCtx (cx_input_value c) (cx_action c) (cx_emitted_events c) (cx_result c) (Some i)
    (cx_snapshot c) (cx_admission_result c) (cx_dispatch_policy c) (cx_envelope c)
    (cx_execute_result c) (cx_dedupe_available c) (cx_dedupe_outcome c) (cx_legacy_alias_key c).
Definition set_snapshot (s : CapabilitySnapshot) (c : TurnPhaseContext) : TurnPhaseContext :=
  mkCtx (cx_input_value c) (cx_action c) (cx_emitted_events c) (cx_result c) (cx_turn_identity c)
    (Some s) (cx_admission_result c) (cx_dispatch_policy c) (cx_envelope c)
    (cx_execute_result c) (cx_dedupe_available c) (cx_dedupe_outcome c) (cx_legacy_alias_key c).
Definition set_admission (r : admission_result) (c : TurnPhaseContext) : TurnPhaseContext :=
  mkCtx (cx_input_value c) (cx_action c) (cx_emitted_events c) (cx_result c) (cx_turn_identity c)
    (cx_snapshot c) (Some r) (cx_dispatch_policy c) (cx_envelope c) (cx_execute_result c)
    (cx_dedupe_available c) (cx_dedupe_outcome c) (cx_legacy_alias_key c).
Definition set_policy (p : Engine._DispatchPolicy) (c : TurnPhaseContext) : TurnPhaseContext :=
  mkCtx (cx_input_value c) (cx_action c) (cx_emitted_events c) (cx_result c) (cx_turn_identity c)
    (cx_snapshot c) (cx_admission_result c) (Some p) (cx_envelope c) (cx_execute_result c)
    (cx_dedupe_available c) (cx_dedupe_outcome c) (cx_legacy_alias_key c).
Definition set_envelope (e : IdempotencyEnvelope) (c : TurnPhaseContext) : TurnPhaseContext :=
  mkCtx (cx_input_value c) (cx_action c) (cx_emitted_events c) (cx_result c) (cx_turn_identity c)
    (cx_snapshot c) (cx_admission_result c) (cx_dispatch_policy c) (Some e) (cx_execute_result c)
    (cx_dedupe_available c) (cx_dedupe_outcome c) (cx_legacy_alias_key c).
Definition set_execute_result (d : odict string pyval) (c : TurnPhaseContext) : TurnPhaseContext :=
  mkCtx (cx_input_value c) (cx_action c) (cx_emitted_events c) (cx_result c) (cx_turn_identity c)
    (cx_snapshot c) (cx_admission_result c) (cx_dispatch_policy c) (cx_envelope c) (Some d)
    (cx_dedupe_available c) (cx_dedupe_outcome c) (cx_legacy_alias_key c).
Definition set_dedupe_available (b : bool) (c : TurnPhaseContext) : TurnPhaseContext :=
  mkCtx (cx_input_value c) (cx_action c) (cx_emitted_events c) (cx_result c) (cx_turn_identity c)
    (cx_snapshot c) (cx_admission_result c) (cx_dispatch_policy c) (cx_envelope c)
    (cx_execute_result c) b (cx_dedupe_outcome c) (cx_legacy_alias_key c).
Definition set_dedupe_outcome (o : string) (c : TurnPhaseContext) : TurnPhaseContext :=
  mkCtx (cx_input_value c) (cx_action c) (cx_emitted_events c) (cx_result c) (cx_turn_identity c)
    (cx_snapshot c) (cx_admission_result c) (cx_dispatch_policy c) (cx_envelope c)
    (cx_execute_result c) (cx_dedupe_available c) o (cx_legacy_alias_key c).
Definition set_legacy_alias (k : string) (c : TurnPhaseContext) : TurnPhaseContext :=
  mkCtx (cx_input_value c) (cx_action c) (cx_emitted_events c) (cx_result c) (cx_turn_identity c)
    (cx_snapshot c) (cx_admission_result c) (cx_dispatch_policy c) (cx_envelope c)
    (cx_execute_result c) (cx_dedupe_available c) (cx_dedupe_outcome c) (Some k).

(** [TurnStateEvent(state=...)] *)
Definition event (s : TurnState) : TurnStateEvent := mkTurnEvent s None [].

(** The hook methods the engine calls; measured latencies are left out. *)
Inductive hook_call :=
  | on_turn_phase (run_id action_id phase_name : string)
  | on_admission_evaluated (run_id action_id : string) (admitted : bool)
  | on_dedupe_hit (run_id action_id outcome : string)
  | on_dispatch_attempted (run_id action_id dedupe_outcome : string)
  | on_action_dispatch (run_id action_id action_type outcome_kind : string).

(** The services of the constructor.  [pt_accepts_context] is whether the
    executor's signature has [execution_context]; [pt_now] is the clock.
    [pt_others] is not a service: it is what other turns and processes do to
    the ledger just before an operation of this turn on it. *)
Record ports (E : Type) := mkPorts {
  pt_build : CapabilitySnapshotInput -> PyM E CapabilitySnapshot;
  pt_admit : Action -> CapabilitySnapshot -> PyM E admission_result;
  pt_execute : Action -> CapabilitySnapshot -> IdempotencyEnvelope -> option ExecutionContext ->
    PyM E (odict string pyval);
  pt_accepts_context : bool;
  pt_resolver : option (TurnInput -> Action -> PyM E CapabilitySnapshotInput);
  pt_require_declared_snapshot_inputs : bool;
  pt_reasoning_loop : option (string -> CapabilitySnapshot -> list pyval -> string -> string ->
    PyM E (list Action));
  pt_observability_hook : option (hook_call -> PyM E unit);
  pt_phase_timeout : option Z;
  pt_expired : E -> bool;
  pt_defaults : TurnEngineDefaults;
  pt_now : PyM E string;
  pt_others : E -> list ledger_cmd * E
}.
Arguments pt_build {E}. Arguments pt_admit {E}. Arguments pt_execute {E}.
Arguments pt_accepts_context {E}. Arguments pt_resolver {E}.
Arguments pt_require_declared_snapshot_inputs {E}. Arguments pt_reasoning_loop {E}.
Arguments pt_observability_hook {E}. Arguments pt_phase_timeout {E}. Arguments pt_expired {E}. Arguments pt_defaults {E}.
Arguments pt_now {E}. Arguments pt_others {E}.

(** One call to the executor, with whether the ledger was bypassed. *)
Record exec_call := mkCall {
  ec_key : string;
  ec_degraded : bool;
  ec_action : Action;
  ec_envelope : IdempotencyEnvelope;
  ec_context : option ExecutionContext
}.

Record world (S E : Type) := mkWorld {
  w_store : S;
  w_env : E;
  w_calls : list exec_call;
  w_others : list (ledger_cmd * outcome (option DedupeReservation))
}.
Arguments mkWorld {S E}. Arguments w_store {S E}. Arguments w_env {S E}. Arguments w_calls {S E}.
Arguments w_others {S E}.

(** Helpers with no effects *******************************************************)

Definition _is_admitted (r : admission_result) : bool :=
  match r with AdmBool b => b | AdmResult r => ar_admitted r end.

(** [f"{run_id}:{action_id}:{based_on_offset}"] *)
Definition _legacy_dispatch_dedupe_key (run_id action_id : string) (based_on_offset : Z) : string :=
  run_id +:+ ":" +:+ action_id +:+ ":" +:+ pretty based_on_offset.

Definition _build_turn_identity (sha256 : string -> string) (i : TurnInput) (a : Action)
    (snapshot_hash : option string) : _TurnIdentity :=
  mkIdentity
    ("decision:" +:+ ti_run_id i +:+ ":" +:+ pretty (ti_based_on_offset i))
    (ti_run_id i +:+ ":" +:+ trigger_str (ti_trigger_type i) +:+ ":" +:+ act_action_id a +:+ ":" +:+
       pretty (ti_based_on_offset i))
    ("intent:" +:+ act_action_id a +:+ ":" +:+ pretty (ti_through_offset i))
    (match snapshot_hash with
     | Some h => generate sha256 "dispatch" (ti_run_id i) a h
     | None => _legacy_dispatch_dedupe_key (ti_run_id i) (act_action_id a) (ti_based_on_offset i)
     end).

(** [list(v)] for a declared binding list; the elements are strings. *)
Definition py_str_list (v : pyval) : outcome (list string) :=
  let strings l := foldr (fun x acc =>
    match acc with
    | None => None
    | Some r => match x with PStr s => Some (s :: r) | _ => None end
    end) (Some []) l in
  match v with
  | PList l => match strings l with Some r => Ret r | None => Raise (OutsideModel "binding") end
  | PStr s => Ret (chars s)
  | PDict d => Ret (od_keys d)
  | _ => Raise (TypeError "object is not iterable")
  end.

(** A declared reference: a string or absent. *)
Definition py_opt_ref (v : pyval) : outcome (option string) :=
  match v with
  | PNone => Ret None
  | PStr s => Ret (Some s)
  | _ => Raise (OutsideModel "reference")
  end.

(** [d.get(k, default)] *)
Definition pd_get_default (d : odict string pyval) (k : string) (v : pyval) : pyval :=
  default v (od_get k d).

(** The [CapabilitySnapshotInput(...)] call on a declared payload. *)
Definition declared_snapshot_input (i : TurnInput) (d : odict string pyval) :
    outcome CapabilitySnapshotInput :=
  tools ← py_str_list (pd_get_default d "tool_bindings" (PList []));
  mcps ← py_str_list (pd_get_default d "mcp_bindings" (PList []));
  skills ← py_str_list (pd_get_default d "skill_bindings" (PList []));
  flags ← py_str_list (pd_get_default d "feature_flags" (PList []));
  binding ← py_opt_ref (pd_get d "context_binding_ref");
  content ← py_opt_ref (pd_get d "context_content_hash");
  budget ← py_opt_ref (pd_get d "budget_ref");
  quota ← py_opt_ref (pd_get d "quota_ref");
  session ← py_opt_ref (pd_get d "session_mode");
  approval ← py_opt_ref (pd_get d "approval_state");
  mret (mkSnapshotInput (ti_run_id i) (ti_based_on_offset i)
    (py_str (pd_get_default d "tenant_policy_ref" (PStr "")))
    (py_str (pd_get_default d "permission_mode" (PStr "")))
    tools mcps skills flags binding content budget quota session approval None []).

(** [_resolve_snapshot_input] without a resolver. *)
Definition resolve_declared (require_declared : bool) (i : TurnInput) (a : Action) :
    outcome CapabilitySnapshotInput :=
  match as_dict (pd_get (or_empty (act_input_json a)) "capability_snapshot_input") with
  | Some d => declared_snapshot_input i d
  | None =>
      if require_declared then
        Raise (CapabilitySnapshotBuildError "capability_snapshot_input is required in strict mode.")
      else mret (mkSnapshotInput (ti_run_id i) (ti_based_on_offset i) "policy:default" "strict"
                   [] [] [] [] None None None None None None None [])
  end.

(** [_parse_idempotency_envelope] on a payload dictionary. *)
Definition _parse_idempotency_envelope (envelope_payload : option (odict string pyval))
    (capability_snapshot_hash : string) : option IdempotencyEnvelope :=
  match envelope_payload with
  | None => None
  | Some d =>
      match as_str (pd_get d "dispatch_idempotency_key"), as_str (pd_get d "operation_fingerprint"),
            as_int (pd_get d "attempt_seq"), as_str (pd_get d "effect_scope"),
            Engine._normalize_host_kind (pd_get d "host_kind") with
      | Some key, Some operation_fingerprint, Some attempt_seq, Some effect_scope, Some host_kind =>
          if decide (key = "") then None
          else if decide (operation_fingerprint = "") then None
          else if (attempt_seq <=? 0)%Z then None
          else if decide (effect_scope = "") then None
          else Some (mkEnvelope key operation_fingerprint attempt_seq effect_scope
                 (py_str (pd_get_default d "capability_snapshot_hash" (PStr capability_snapshot_hash)))
                 host_kind
                 (Engine._read_optional_string d "peer_operation_id")
                 (Engine._read_optional_string d "policy_snapshot_ref")
                 (Engine._read_optional_string d "rule_bundle_hash"))
      | _, _, _, _, _ => None
      end
  end.

(** [getattr(admission_result, name, None)]: only an [AdmissionResult] has it. *)
Definition admission_attr {A} (f : AdmissionResult -> option A) (r : option admission_result) :
    option A :=
  match r with Some (AdmResult r) => f r | _ => None end.

Definition _resolve_idempotency_envelope (r : option admission_result) (ti : _TurnIdentity) (a : Action)
    (s : CapabilitySnapshot) (host_kind : HostKind) : IdempotencyEnvelope :=
  let envelope_payload := admission_attr ar_idempotency_envelope r in
  match _parse_idempotency_envelope envelope_payload (cs_snapshot_hash s) with
  | Some parsed =>
      mkEnvelope (id_dispatch_dedupe_key ti) (id_decision_fingerprint ti) (env_attempt_seq parsed)
        (env_effect_scope parsed) (env_capability_snapshot_hash parsed) (env_host_kind parsed)
        (env_peer_operation_id parsed) (env_policy_snapshot_ref parsed) (env_rule_bundle_hash parsed)
  | None =>
      mkEnvelope (id_dispatch_dedupe_key ti) (id_decision_fingerprint ti) 1
        (effect_str (act_effect_class a)) (cs_snapshot_hash s) host_kind None None None
  end.

Definition _build_execution_context (i : TurnInput) (a : Action) (s : CapabilitySnapshot)
    (ti : _TurnIdentity) (r : option admission_result) (envelope : IdempotencyEnvelope) : ExecutionContext :=
  mkExecutionContext (ti_run_id i) (act_action_id a) (Some (id_intent_commit_ref ti))
    (Some (id_decision_ref ti)) (Some (id_decision_fingerprint ti)) (Some (cs_snapshot_ref s))
    (Some (cs_snapshot_hash s)) (cs_context_binding_ref s)
    (admission_attr ar_grant_ref r) (admission_attr ar_policy_snapshot_ref r)
    (env_rule_bundle_hash envelope)
    ((fun d => [("bundle_ref", bd_bundle_ref d); ("semantics_version", bd_semantics_version d);
                ("content_hash", bd_content_hash d); ("compile_hash", bd_compile_hash d)])
       <$> cs_declarative_bundle_digest s)
    (act_timeout_ms a) (cs_budget_ref s) None.

Definition _execution_context_payload (x : ExecutionContext) : odict string pyval := [
  ("run_id", PStr (xc_run_id x));
  ("action_id", PStr (xc_action_id x));
  ("causation_id", opt_str_val (xc_causation_id x));
  ("correlation_id", opt_str_val (xc_correlation_id x));
  ("lineage_id", opt_str_val (xc_lineage_id x));
  ("capability_snapshot_ref", opt_str_val (xc_capability_snapshot_ref x));
  ("capability_snapshot_hash", opt_str_val (xc_capability_snapshot_hash x));
  ("context_binding_ref", opt_str_val (xc_context_binding_ref x));
  ("grant_ref", opt_str_val (xc_grant_ref x));
  ("policy_snapshot_ref", opt_str_val (xc_policy_snapshot_ref x));
  ("rule_bundle_hash", opt_str_val (xc_rule_bundle_hash x));
  ("declarative_bundle_digest",
     match xc_declarative_bundle_digest x with
     | Some d => PDict (map (fun kv => (kv.1, PStr kv.2)) d)
     | None => PNone
     end);
  ("timeout_ms", match xc_timeout_ms x with Some z => PInt z | None => PNone end);
  ("budget_ref", opt_str_val (xc_budget_ref x))
].

Definition _build_recovery_pending_turn_result (i : TurnInput) (a : Action) (ti : _TurnIdentity)
    (execute_result : odict string pyval) (host_kind : HostKind)
    (remote_policy_decision : option RemoteDispatchPolicyDecision)
    (emitted_events : list TurnStateEvent) : TurnResult :=
  let external_ack_ref := Engine._read_optional_string execute_result "external_ack_ref" in
  let evidence_ref := Engine._read_optional_string execute_result "evidence_ref" in
  let local_inference := default "turn_engine:effect_unknown_without_ack"
        (Engine._read_optional_string execute_result "local_inference") in
  let failure_envelope :=
    mkFailureEnvelope (ti_run_id i) (Some (act_action_id a)) stage_execution "executor"
      "effect_unknown" fc_unknown evidence_ref external_ack_ref (Some local_inference) src_none None
      retry_unknown None (Some "manual_verification_required") None in
  mkTurnResult recovery_pending out_recovery_pending (id_decision_ref ti)
    (id_decision_fingerprint ti) (Some (id_dispatch_dedupe_key ti)) (Some (id_intent_commit_ref ti))
    (Some host_kind) remote_policy_decision None
    (Some (apply_failure_evidence_priority failure_envelope)) emitted_events.

(** The no-op result before an action is known. *)
Definition noop_result (i : TurnInput) (events : list TurnStateEvent) : TurnResult :=
  mkTurnResult completed_noop out_noop
    ("decision:" +:+ ti_run_id i +:+ ":" +:+ pretty (ti_based_on_offset i))
    (ti_run_id i +:+ ":" +:+ trigger_str (ti_trigger_type i) +:+ ":noop:" +:+
       pretty (ti_based_on_offset i))
    None None None None None None events.

(** The results a turn ends with once its identity is known. *)
Definition identity_result (state : TurnState) (kind : TurnOutcomeKind) (ti : _TurnIdentity)
    (host_kind : option HostKind) (policy : option RemoteDispatchPolicyDecision)
    (commit : option (odict string pyval)) (events : list TurnStateEvent) : TurnResult :=
  mkTurnResult state kind (id_decision_ref ti) (id_decision_fingerprint ti)
    (Some (id_dispatch_dedupe_key ti)) (Some (id_intent_commit_ref ti)) host_kind policy commit None
    events.

(** [IdempotencyEnvelope(...)] with another key or another scope. *)
Definition env_with_key (key : string) (e : IdempotencyEnvelope) : IdempotencyEnvelope :=
  mkEnvelope key (env_operation_fingerprint e) (env_attempt_seq e) (env_effect_scope e)
    (env_capability_snapshot_hash e) (env_host_kind e) (env_peer_operation_id e)
    (env_policy_snapshot_ref e) (env_rule_bundle_hash e).

Definition env_with_scope (scope : string) (e : IdempotencyEnvelope) : IdempotencyEnvelope :=
  mkEnvelope (env_dispatch_idempotency_key e) (env_operation_fingerprint e) (env_attempt_seq e)
    scope (env_capability_snapshot_hash e) (env_host_kind e) (env_peer_operation_id e)
    (env_policy_snapshot_ref e) (env_rule_bundle_hash e).

(** [register_phase]: the new value of [cls._TURN_PHASES]; [cls] is the name of
    the class. *)
Definition register_phase (cls : string) (phases : list string) (name : string) (after before : option string) :
    outcome (list string) :=
  if bool_decide (is_Some after) && bool_decide (is_Some before) then
    Raise (TypeError "Provide at most one of 'after' or 'before', not both.")
  else if decide (name ∈ phases) then
    Raise (ValueError ("Phase " +:+ py_repr_str name +:+ " is already registered in " +:+ cls +:+
                       "._TURN_PHASES."))
  else match after, before with
       | Some anchor, _ =>
           match list_find (fun p => p = anchor) phases with
           | None => Raise (ValueError ("Anchor phase " +:+ py_repr_str anchor +:+ " not found in " +:+ cls +:+
                                      "._TURN_PHASES."))
           | Some (idx, _) => Ret (take (S idx) phases ++ [name] ++ drop (S idx) phases)
           end
       | None, Some anchor =>
           match list_find (fun p => p = anchor) phases with
           | None => Raise (ValueError ("Anchor phase " +:+ py_repr_str anchor +:+ " not found in " +:+ cls +:+
                                      "._TURN_PHASES."))
           | Some (idx, _) => Ret (take idx phases ++ [name] ++ drop idx phases)
           end
       | None, None => Ret (phases ++ [name])
       end.

Definition _TURN_PHASES : list string :=
  ["_phase_noop_or_reasoning"; "_phase_snapshot"; "_phase_admission"; "_phase_dispatch_policy";
   "_phase_dedupe"; "_phase_execute"].

(** The engine ********************************************************************)

Section engine.
Context {S : Type} `{!DedupeStorePort S} {E : Type}.
(** [hashlib.sha256(...).hexdigest()], the services, and phases a deployment
    registered. *)
Context (sha256 : string -> string) (pt : ports E).

(** What a phase runs over: its context and the world. *)
Record tstate := mkT { t_ctx : TurnPhaseContext; t_world : world S E }.

Definition get_ctx : PyM tstate TurnPhaseContext := fun t => (Ret (t_ctx t), t).
Definition put_ctx (f : TurnPhaseContext -> TurnPhaseContext) : PyM tstate unit :=
  py_modify (fun t => mkT (f (t_ctx t)) (t_world t)).
Definition emit (s : TurnState) : PyM tstate unit := put_ctx (add_event (event s)).

(** Others use the ledger; their commands and the answers are recorded. *)
Definition others_act : PyM tstate unit := fun t =>
  let '(cs, env) := pt_others pt (w_env (t_world t)) in
  let '(rs, s) := run_cmds cs (w_store (t_world t)) in
  (Ret tt, mkT (t_ctx t) (mkWorld s env (w_calls (t_world t)) (w_others (t_world t) ++ rs))).

(** A call to the dedupe store, to a port. *)
Definition store_op {A} (m : PyM S A) : PyM tstate A :=
  _ ← others_act;
  py_zoom (fun t => w_store (t_world t))
    (fun s t => mkT (t_ctx t) (mkWorld s (w_env (t_world t)) (w_calls (t_world t)) (w_others (t_world t)))) m.
Definition env_op {A} (m : PyM E A) : PyM tstate A :=
  py_zoom (fun t => w_env (t_world t))
    (fun e t => mkT (t_ctx t) (mkWorld (w_store (t_world t)) e (w_calls (t_world t)) (w_others (t_world t)))) m.
Definition record_call (c : exec_call) : PyM tstate unit :=
  py_modify (fun t => mkT (t_ctx t)
    (mkWorld (w_store (t_world t)) (w_env (t_world t)) (w_calls (t_world t) ++ [c]) (w_others (t_world t)))).

(** [assert x is not None] *)
Definition assert_some {A} (o : option A) : PyM tstate A :=
  match o with Some a => mret a | None => py_raise (OtherError "AssertionError" "") end.

(** [if hook is not None: with suppress(Exception): hook.<method>(...)] *)
Definition hook (h : hook_call) : PyM tstate unit :=
  match pt_observability_hook pt with
  | None => mret tt
  | Some f => py_suppress (env_op (f h))
  end.

(** Ends the turn with a result built from the events so far. *)
Definition finish (r : list TurnStateEvent -> TurnResult) : PyM tstate unit :=
  c ← get_ctx; put_ctx (set_result (r (cx_emitted_events c))).

Definition _phase_noop_or_reasoning : PyM tstate unit :=
  c ← get_ctx;
  let i := cx_input_value c in
  match cx_action c with
  | Some _ => mret tt
  | None =>
      match pt_reasoning_loop pt with
      | None => _ ← emit completed_noop; finish (noop_result i)
      | Some run_once =>
          _ ← emit reasoning;
          reasoning_result ← py_except is_exception
            (s ← env_op (pt_build pt (mkSnapshotInput (ti_run_id i) (ti_based_on_offset i)
                   (df_tenant_policy_ref (pt_defaults pt)) (df_permission_mode (pt_defaults pt))
                   [] [] [] [] None None None None None None None []));
             actions ← env_op (run_once (ti_run_id i) s (ti_history i)
                   (df_model_ref (pt_defaults pt))
                   (ti_run_id i +:+ ":" +:+ pretty (ti_based_on_offset i) +:+ ":reasoning"));
             mret (Some actions))
            (fun _ =>
               _ ← emit reasoning_failed; _ ← emit completed_noop;
               _ ← finish (noop_result i); mret None);
          match reasoning_result with
          | None => mret tt
          | Some [] => _ ← emit completed_noop; finish (noop_result i)
          | Some (a :: _) => put_ctx (set_action a)
          end
      end
  end.

Definition _resolve_snapshot_input (i : TurnInput) (a : Action) : PyM tstate CapabilitySnapshotInput :=
  match pt_resolver pt with
  | Some resolve => env_op (resolve i a)
  | None => py_lift (resolve_declared (pt_require_declared_snapshot_inputs pt) i a)
  end.

Definition _phase_snapshot : PyM tstate unit :=
  c ← get_ctx;
  a ← assert_some (cx_action c);
  let i := cx_input_value c in
  _ ← put_ctx (set_identity (_build_turn_identity sha256 i a None));
  py_except is_value_error
    (snapshot_input ← _resolve_snapshot_input i a;
     s ← env_op (pt_build pt snapshot_input);
     _ ← put_ctx (set_snapshot s);
     _ ← py_lift (assert_snapshot_compatible s);
     _ ← put_ctx (set_identity (_build_turn_identity sha256 i a (Some (cs_snapshot_hash s))));
     emit snapshot_built)
    (fun _ =>
       _ ← emit completed_noop;
       c' ← get_ctx;
       ti ← assert_some (cx_turn_identity c');
       finish (identity_result completed_noop out_noop ti None None None)).

Definition _phase_admission : PyM tstate unit :=
  c ← get_ctx;
  a ← assert_some (cx_action c);
  s ← assert_some (cx_snapshot c);
  ti ← assert_some (cx_turn_identity c);
  r ← env_op (pt_admit pt a s);
  _ ← put_ctx (set_admission r);
  let admitted := _is_admitted r in
  _ ← emit admission_checked;
  _ ← hook (on_admission_evaluated (ti_run_id (cx_input_value c)) (act_action_id a) admitted);
  if admitted then mret tt
  else
    _ ← emit dispatch_blocked;
    finish (identity_result dispatch_blocked out_blocked ti None None None).

(** [validate_action_type] only logs. *)
Definition _phase_dispatch_policy : PyM tstate unit :=
  c ← get_ctx;
  a ← assert_some (cx_action c);
  ti ← assert_some (cx_turn_identity c);
  let dp := Engine._resolve_dispatch_policy a in
  _ ← put_ctx (set_policy dp);
  if Engine.dp_should_block dp then
    _ ← put_ctx (add_event (mkTurnEvent dispatch_blocked (Engine.dp_block_reason dp) []));
    finish (identity_result dispatch_blocked out_blocked ti (Some (Engine.dp_host_kind dp))
              (Engine.dp_remote_policy_decision dp) None)
  else mret tt.

Definition _reserve_with_degradation (envelope : IdempotencyEnvelope) (a : Action)
    (host_kind : HostKind) : PyM tstate (DedupeReservation * IdempotencyEnvelope * bool) :=
  py_except is_exception
    (r ← store_op (ds_reserve_and_dispatch envelope None); mret (r, envelope, true))
    (fun error =>
       if decide (act_effect_class a <> IDEMPOTENT_WRITE) then py_raise error
       else
         let downgraded_effect_scope := Engine._resolve_dedupe_downgrade_scope host_kind in
         _ ← put_ctx (add_event (mkTurnEvent dedupe_degraded (Some (exn_type_name error))
               [("from_effect_scope", PStr "idempotent_write");
                ("to_effect_scope", PStr downgraded_effect_scope)]));
         mret (reservation_accepted, env_with_scope downgraded_effect_scope envelope, false)).

Definition _phase_dedupe : PyM tstate unit :=
  c ← get_ctx;
  a ← assert_some (cx_action c);
  s ← assert_some (cx_snapshot c);
  ti ← assert_some (cx_turn_identity c);
  dp ← assert_some (cx_dispatch_policy c);
  let i := cx_input_value c in
  let blocked := identity_result dispatch_blocked out_blocked ti (Some (Engine.dp_host_kind dp))
                   (Engine.dp_remote_policy_decision dp) None in
  let legacy_key := _legacy_dispatch_dedupe_key (ti_run_id i) (act_action_id a)
                      (ti_based_on_offset i) in
  legacy_record ←
    (if decide (legacy_key <> id_dispatch_dedupe_key ti)
     then py_except is_exception (store_op (ds_get legacy_key)) (fun _ => mret None)
     else mret None);
  match legacy_record with
  | Some _ =>
      _ ← emit dispatch_blocked;
      _ ← finish blocked;
      hook (on_dedupe_hit (ti_run_id i) legacy_key "duplicate")
  | None =>
      let envelope := _resolve_idempotency_envelope (cx_admission_result c) ti a s (Engine.dp_host_kind dp) in
      _ ← put_ctx (set_envelope envelope);
      reserved_slot ← _reserve_with_degradation envelope a (Engine.dp_host_kind dp);
      let '(reservation, envelope', dedupe_available) :=
        (reserved_slot : DedupeReservation * IdempotencyEnvelope * bool) in
      _ ← put_ctx (set_envelope envelope');
      _ ← put_ctx (set_dedupe_available dedupe_available);
      if negb (rv_accepted reservation) then
        _ ← emit dispatch_blocked;
        _ ← finish blocked;
        hook (on_dedupe_hit (ti_run_id i) (id_dispatch_dedupe_key ti) "duplicate")
      else
        let outcome := if dedupe_available then "accepted" else "degraded" in
        _ ← put_ctx (set_dedupe_outcome outcome);
        _ ← (if dedupe_available && bool_decide (legacy_key <> id_dispatch_dedupe_key ti) then
               py_suppress
                 (legacy_reservation ←
                    store_op (ds_reserve_and_dispatch (env_with_key legacy_key envelope')
                                (env_peer_operation_id envelope'));
                  if rv_accepted legacy_reservation then put_ctx (set_legacy_alias legacy_key)
                  else mret tt)
             else mret tt);
        _ ← hook (on_dedupe_hit (ti_run_id i) (id_dispatch_dedupe_key ti) outcome);
        emit ts_dispatched
  end.

(** The executor call, with the context when its signature takes one. *)
Definition _execute_with_context (a : Action) (s : CapabilitySnapshot)
    (envelope : IdempotencyEnvelope) (x : ExecutionContext) (degraded : bool) :
    PyM tstate (odict string pyval) :=
  let context := if pt_accepts_context pt then Some x else None in
  _ ← record_call (mkCall (env_dispatch_idempotency_key envelope) degraded a envelope context);
  env_op (pt_execute pt a s envelope context).

(** A suppressed store call on the legacy key, when there is one. *)
Definition on_alias (alias : option string) (m : string -> PyM S unit) : PyM tstate unit :=
  match alias with
  | None => mret tt
  | Some key => py_suppress (store_op (m key))
  end.

Definition _phase_execute : PyM tstate unit :=
  c ← get_ctx;
  a ← assert_some (cx_action c);
  s ← assert_some (cx_snapshot c);
  ti ← assert_some (cx_turn_identity c);
  dp ← assert_some (cx_dispatch_policy c);
  envelope ← assert_some (cx_envelope c);
  let i := cx_input_value c in
  let dedupe_available := cx_dedupe_available c in
  let legacy_alias_key := cx_legacy_alias_key c in
  let key := id_dispatch_dedupe_key ti in
  let execution_context := _build_execution_context i a s ti (cx_admission_result c) envelope in
  execute_result ← py_except is_exception
    (d ← _execute_with_context a s envelope execution_context (negb dedupe_available);
     _ ← put_ctx (set_execute_result d);
     mret d)
    (fun exc =>
       _ ← (if dedupe_available then
              _ ← py_suppress (store_op (ds_mark_unknown_effect key));
              on_alias legacy_alias_key ds_mark_unknown_effect
            else mret tt);
       py_raise exc);
  _ ← hook (on_dispatch_attempted (ti_run_id i) (act_action_id a) (cx_dedupe_outcome c));
  let acknowledged := py_bool (pd_get_default execute_result "acknowledged" (PBool false)) in
  if acknowledged then
    _ ← (if dedupe_available then
           _ ← store_op (ds_mark_acknowledged key None);
           on_alias legacy_alias_key (fun k => ds_mark_acknowledged k None)
         else mret tt);
    _ ← emit dispatch_acknowledged;
    _ ← hook (on_action_dispatch (ti_run_id i) (act_action_id a) "Action" "dispatched");
    committed_at ← env_op (pt_now pt);
    finish (identity_result dispatch_acknowledged out_dispatched ti (Some (Engine.dp_host_kind dp))
      (Engine.dp_remote_policy_decision dp)
      (Some [("action_id", PStr (act_action_id a)); ("run_id", PStr (ti_run_id i));
             ("committed_at", PStr committed_at);
             ("execution_context", PDict (_execution_context_payload execution_context))]))
  else
    _ ← (if dedupe_available then
           _ ← store_op (ds_mark_unknown_effect key);
           on_alias legacy_alias_key ds_mark_unknown_effect
         else mret tt);
    _ ← emit effect_unknown;
    _ ← emit recovery_pending;
    _ ← hook (on_action_dispatch (ti_run_id i) (act_action_id a) "Action" "effect_unknown");
    finish (_build_recovery_pending_turn_result i a ti execute_result (Engine.dp_host_kind dp)
      (Engine.dp_remote_policy_decision dp)).

(** [asyncio.wait_for]: a phase that is cancelled at an await ends with [CancelledError],
    which becomes [TimeoutError] when it was the timer that cancelled it ([pt_expired],
    as the event loop knows when the phase ends), and not when somebody cancelled the turn. *)
Definition wait_for (m : PyM tstate unit) : PyM tstate unit :=
  match pt_phase_timeout pt with
  | None => m
  | Some _ => fun t =>
      match m t with
      | (Raise CancelledError, t') => (Raise (if pt_expired pt (w_env (t_world t')) then TimeoutError else CancelledError), t')
      | r => r
      end
  end.

(** [getattr(self, name)], with the methods a subclass adds. *)
Definition phase_fn (custom : string -> option (PyM tstate unit)) (name : string) :
    PyM tstate unit :=
  if decide (name = "_phase_noop_or_reasoning") then _phase_noop_or_reasoning
  else if decide (name = "_phase_snapshot") then _phase_snapshot
  else if decide (name = "_phase_admission") then _phase_admission
  else if decide (name = "_phase_dispatch_policy") then _phase_dispatch_policy
  else if decide (name = "_phase_dedupe") then _phase_dedupe
  else if decide (name = "_phase_execute") then _phase_execute
  else match custom name with
       | Some m => m
       | None => py_raise (OtherError "AttributeError" name)
       end.

(** The loop of [run_turn]. *)
Fixpoint run_phases (custom : string -> option (PyM tstate unit)) (names : list string) :
    PyM tstate TurnResult :=
  match names with
  | [] => py_raise (RuntimeError "TurnEngine phases completed without setting ctx.result.")
  | name :: rest =>
      _ ← wait_for (phase_fn custom name);
      c ← get_ctx;
      _ ← hook (on_turn_phase (ti_run_id (cx_input_value c))
                  (match cx_action c with Some a => act_action_id a | None => "" end) name);
      c' ← get_ctx;
      match cx_result c' with
      | Some r => mret r
      | None => run_phases custom rest
      end
  end.

Definition initial_ctx (i : TurnInput) (action : option Action) : TurnPhaseContext :=
  mkCtx i action [event collecting; event intent_committed] None None None None None None None
    true "accepted" None.

Definition run_turn_with (custom : string -> option (PyM tstate unit)) (phases : list string)
    (i : TurnInput) (action : option Action) : PyM (world S E) TurnResult := fun w =>
  let '(r, t) := run_phases custom phases (mkT (initial_ctx i action) w) in (r, t_world t).

(** [run_turn] of the class as it stands. *)
Definition run_turn (i : TurnInput) (action : option Action) : PyM (world S E) TurnResult :=
  run_turn_with (fun _ => None) _TURN_PHASES i action.
End engine.
