(* ===== verification/TurnSafety.v ===== *)
(** * Safety of a turn

    Proofs about [TurnEngine] for every lawful dispatch store ([DedupeStoreLaws]),
    every environment behind the ports and everything others do to the ledger
    between two operations of the turn: at most one executor call per turn and
    per granted key, the ledger state each outcome leaves, the order of the
    emitted states, and where the exceptions of a turn come from.  The phases
    are verified one by one with weakest preconditions. *)

From stdpp Require Import base tactics option list sets strings gmap pretty.
From Stdlib Require Import ZArith.
From S2P Require Import Prelude PyStr PyDict PyVal Contracts DedupeStore Snapshot DispatchPolicy.
From S2P Require Import TurnEngine.

(** The paths of the turn state machine: emitted states, outcome, final state. *)
Definition turn_start (reasoned : bool) : list TurnState :=
  [collecting; intent_committed] ++ if reasoned then [reasoning] else [].

Inductive turn_path : list TurnState -> TurnOutcomeKind -> TurnState -> Prop :=
  | path_noop b : turn_path (turn_start b ++ [completed_noop]) out_noop completed_noop
  | path_reasoning_failed :
      turn_path (turn_start true ++ [reasoning_failed; completed_noop]) out_noop completed_noop
  | path_blocked b :
      turn_path (turn_start b ++ [snapshot_built; admission_checked; dispatch_blocked])
        out_blocked dispatch_blocked
  | path_dispatched b (degraded : bool) :
      turn_path (turn_start b ++ [snapshot_built; admission_checked] ++
                 (if degraded then [dedupe_degraded] else []) ++
                 [ts_dispatched; dispatch_acknowledged]) out_dispatched dispatch_acknowledged
  | path_recovery b (degraded : bool) :
      turn_path (turn_start b ++ [snapshot_built; admission_checked] ++
                 (if degraded then [dedupe_degraded] else []) ++
                 [ts_dispatched; effect_unknown; recovery_pending])
        out_recovery_pending recovery_pending.

(** The states of a context's events. *)
Definition states (c : TurnPhaseContext) : list TurnState := map tse_state (cx_emitted_events c).

(** The states a dispatched key can be in when its turn is over. *)
Definition dispatched_states : list DedupeState := [dispatched; acknowledged; unknown_effect].

(** Other keys are untouched by an operation on one key. *)
Lemma mark_other target peer ack key key' (m : ledger) : key <> key' ->
  (LedgerSpec.mark target peer ack key m).2 !! key' = m !! key'.
Proof.
  intros Hne. unfold LedgerSpec.mark. destruct (m !! key); [|done].
  destruct (may_mark _ _); [|done]. simpl. by rewrite lookup_insert_ne.
Qed.

Lemma claim_other st peer env key' (m : ledger) : env_dispatch_idempotency_key env <> key' ->
  (LedgerSpec.claim st peer env m).2 !! key' = m !! key'.
Proof.
  intros Hne. unfold LedgerSpec.claim. destruct (m !! _); [done|]. simpl. by rewrite lookup_insert_ne.
Qed.

(** A claimed key has a record. *)
Lemma claim_some st peer env (m : ledger) :
  is_Some ((LedgerSpec.claim st peer env m).2 !! env_dispatch_idempotency_key env).
Proof.
  unfold LedgerSpec.claim. destruct (m !! _) eqn:Hm; simpl; [by rewrite Hm|].
  by rewrite lookup_insert_eq.
Qed.

(** What answers others got say about a ledger that went from [m] to [m']. *)
Abbreviation answers := (list (ledger_cmd * outcome (option DedupeReservation))).

Record evolved (m m' : ledger) (os : answers) : Prop := {
  ev_le : ledger_le m m';
  ev_once : forall k, grants_for k os <= match m !! k with None => 1 | Some _ => 0 end;
  ev_free : forall k, m' !! k = None -> grants_for k os = 0
}.

Lemma ledger_le_some (m m' : ledger) k : ledger_le m m' -> is_Some (m !! k) -> is_Some (m' !! k).
Proof. intros Hle [r Hr]. destruct (Hle _ _ Hr) as (r' & Hr' & _). by exists r'. Qed.

Lemma ledger_le_none (m m' : ledger) k : ledger_le m m' -> m' !! k = None -> m !! k = None.
Proof.
  intros Hle Hk. destruct (m !! k) as [r|] eqn:Hr; [|done].
  destruct (Hle _ _ Hr) as (r' & Hr' & _). congruence.
Qed.

Lemma grants_for_app k (os os' : answers) : grants_for k (os ++ os') = grants_for k os + grants_for k os'.
Proof. unfold grants_for. by rewrite filter_app, length_app. Qed.

Lemma evolved_own m m' : ledger_le m m' -> evolved m m' [].
Proof. intros Hle. split; [done| |done]. intros k. unfold grants_for. simpl. lia. Qed.

Lemma evolved_trans m m1 m2 os os' : evolved m m1 os -> evolved m1 m2 os' -> evolved m m2 (os ++ os').
Proof.
  intros [Hle Hon Hfr] [Hle' Hon' Hfr']. split; [by etrans| |].
  - intros k. rewrite grants_for_app. specialize (Hon k). specialize (Hon' k).
    destruct (m !! k) as [r|] eqn:Hk.
    + destruct (m1 !! k) eqn:Hk1; [lia|]. by rewrite (ledger_le_none _ _ _ Hle Hk1) in Hk.
    + destruct (m1 !! k) eqn:Hk1; [lia|]. rewrite (Hfr k Hk1). lia.
  - intros k Hk. rewrite grants_for_app, (Hfr' k Hk), (Hfr k); [done|]. by eapply ledger_le_none.
Qed.

(** A key with a record is granted to nobody. *)
Lemma evolved_taken m m' os k : evolved m m' os -> is_Some (m !! k) -> grants_for k os = 0.
Proof. intros Hev [r Hr]. pose proof (ev_once _ _ _ Hev k) as H. rewrite Hr in H. lia. Qed.

Section safety.
Context {S : Type} `{DedupeStoreLaws S} {E : Type}.
Context (sha256 : string -> string) (pt : ports E).

(** [tstate] of this store and environment. *)
Abbreviation tst := (@tstate S E).

(** Nobody else marks the record of a key. *)
Definition undisturbed (k : string) : Prop :=
  forall env c, c ∈ (pt_others pt env).1 -> marked_key c <> Some k.

(** The exceptions that can leave a turn: raised by a port, by the store when
    it is unavailable or when others marked a key of the turn, by reading the
    declared snapshot input, or the timeout a cancelled phase becomes. *)
Inductive from_port : exn -> Prop :=
  | fp_build i env e env' : pt_build pt i env = (Raise e, env') -> from_port e
  | fp_admit a s env e env' : pt_admit pt a s env = (Raise e, env') -> from_port e
  | fp_execute a s v x env e env' : pt_execute pt a s v x env = (Raise e, env') -> from_port e
  | fp_now env e env' : pt_now pt env = (Raise e, env') -> from_port e
  | fp_resolver f i a env e env' : pt_resolver pt = Some f -> f i a env = (Raise e, env') -> from_port e
  | fp_reasoning f r s h m k env e env' : pt_reasoning_loop pt = Some f ->
      f r s h m k env = (Raise e, env') -> from_port e
  | fp_hook f h env e env' : pt_observability_hook pt = Some f -> f h env = (Raise e, env') ->
      from_port e
  | fp_declared b i a e : resolve_declared b i a = Raise e -> from_port e
  | fp_store e : ds_unavailable e -> from_port e
  | fp_disturbed k msg : ~ undisturbed k -> from_port (DedupeStoreStateError msg)
  | fp_timeout : from_port CancelledError -> from_port TimeoutError.

(** Rules for the primitives ******************************************************)

Lemma wp_get_ctx Q R (t : tst) : Q (t_ctx t) t -> wp get_ctx Q R t.
Proof. done. Qed.

Lemma wp_put_ctx f (Q : unit -> tst -> Prop) R t : Q tt (mkT (f (t_ctx t)) (t_world t)) -> wp (put_ctx f) Q R t.
Proof. done. Qed.

Lemma wp_record_call k (Q : unit -> tst -> Prop) R (t : tst) :
  Q tt (mkT (t_ctx t) (mkWorld (w_store (t_world t)) (w_env (t_world t)) (w_calls (t_world t) ++ [k])
    (w_others (t_world t)))) ->
  wp (record_call k) Q R t.
Proof. done. Qed.

Lemma wp_assert {A} (o : option A) a (Q : A -> tst -> Prop) R t : o = Some a -> Q a t ->
  wp (assert_some o) Q R t.
Proof. by intros ->. Qed.

(** A port call may do anything to the environment and nothing to the rest. *)
Definition with_env (env : E) (t : tst) : tst :=
  mkT (t_ctx t) (mkWorld (w_store (t_world t)) env (w_calls (t_world t)) (w_others (t_world t))).

Lemma wp_env_op {A} (m : PyM E A) (Q : A -> tst -> Prop) R t :
  (forall a env, Q a (with_env env t)) ->
  (forall env0 e env, m env0 = (Raise e, env) -> R e (with_env env t)) ->
  wp (env_op m) Q R t.
Proof.
  intros HQ HR. unfold wp, env_op, py_zoom. destruct (m _) as [[a|e] env] eqn:Hm.
  - exact (HQ a env).
  - exact (HR _ e env Hm).
Qed.

Lemma wp_env_op_eq {A} (m : PyM E A) (Q : A -> tst -> Prop) R t :
  (forall a env, m (w_env (t_world t)) = (Ret a, env) -> Q a (with_env env t)) ->
  (forall e env, m (w_env (t_world t)) = (Raise e, env) -> R e (with_env env t)) ->
  wp (env_op m) Q R t.
Proof.
  intros HQ HR. unfold wp, env_op, py_zoom. destruct (m _) as [[a|e] env]; [by apply HQ|by apply HR].
Qed.

Lemma wp_hook h (Q : unit -> tst -> Prop) (R : exn -> tst -> Prop) t :
  (forall env, Q tt (with_env env t)) -> (forall e env, from_port e -> R e (with_env env t)) ->
  wp (hook pt h) Q R t.
Proof.
  intros HQ HR. unfold hook. destruct (pt_observability_hook pt) as [f|] eqn:Hf.
  - apply wp_suppress. apply wp_env_op; [intros [] env; apply HQ|]. intros env0 e env He.
    destruct (is_exception e); [apply HQ|]. apply HR. by eapply fp_hook.
  - specialize (HQ (w_env (t_world t))). by destruct t as [c [s e k o]].
Qed.

(** The ledger ********************************************************************)

Abbreviation wld := (world S E).

Definition view (w : wld) : ledger := ds_view (w_store w).

(** No record was lost, and others got the answers in between. *)
Definition moved (w0 w : wld) : Prop :=
  exists os, w_others w = w_others w0 ++ os /\ evolved (view w0) (view w) os.

(** ... and nothing was called. *)
Definition untouched (w0 w : wld) : Prop :=
  ds_wf (w_store w) /\ w_calls w = w_calls w0 /\ moved w0 w.

(** The same, and the records nobody else marks are as they were. *)
Definition interfered (w0 w : wld) : Prop :=
  untouched w0 w /\ forall k, undisturbed k -> is_Some (view w0 !! k) -> view w !! k = view w0 !! k.

(** Nobody else was granted the key in between. *)
Definition sole (w0 w : wld) (k : string) : Prop :=
  exists os, w_others w = w_others w0 ++ os /\ grants_for k os = 0.

Definition set_store (st : S) (w : wld) : wld := mkWorld st (w_env w) (w_calls w) (w_others w).

(** Environments do not matter. *)
Definition same_effects (w w' : wld) : Prop :=
  w_store w' = w_store w /\ w_calls w' = w_calls w /\ w_others w' = w_others w.

Lemma moved_own (w0 w : wld) : w_others w = w_others w0 -> ledger_le (view w0) (view w) -> moved w0 w.
Proof. intros Ho Hle. exists []. rewrite app_nil_r. split; [done|by apply evolved_own]. Qed.

Lemma moved_trans (w0 w w' : wld) : moved w0 w -> moved w w' -> moved w0 w'.
Proof.
  intros (os & Ho & Hev) (os' & Ho' & Hev'). exists (os ++ os'). rewrite Ho', Ho, app_assoc.
  split; [done|by eapply evolved_trans].
Qed.

Lemma moved_le w0 w : moved w0 w -> ledger_le (view w0) (view w).
Proof. by intros (os & _ & []). Qed.

Lemma same_effects_untouched (w0 w : wld) : ds_wf (w_store w0) -> same_effects w0 w -> untouched w0 w.
Proof.
  intros Hwf (Hs & Hc & Ho). unfold untouched. rewrite Hs, Hc. split_and!; [done|done|].
  apply moved_own; [done|]. unfold view. by rewrite Hs.
Qed.

Lemma untouched_same w0 w w' : same_effects w w' -> untouched w0 w -> untouched w0 w'.
Proof. intros (Hs & Hc & Ho). unfold untouched, moved, view. by rewrite Hs, Hc, Ho. Qed.

Lemma untouched_le w0 w : untouched w0 w -> ledger_le (view w0) (view w).
Proof. intros (_ & _ & Hm). by apply moved_le. Qed.

Lemma untouched_trans w0 w w' : untouched w0 w -> untouched w w' -> untouched w0 w'.
Proof.
  intros (_ & Hc & Hm) (Hwf & Hc' & Hm'). split_and!; [done|congruence|by eapply moved_trans].
Qed.

Lemma untouched_op w0 w st : untouched w0 w -> ds_wf st -> ledger_le (view w) (ds_view st) ->
  untouched w0 (set_store st w).
Proof.
  intros Hu Hwf Hle. eapply untouched_trans; [exact Hu|]. split_and!; [done|done|by apply moved_own].
Qed.

(** While the key is free nobody was granted it; once it is taken nobody will be. *)
Lemma sole_free w0 w k : untouched w0 w -> view w !! k = None -> sole w0 w k.
Proof. intros (_ & _ & os & Ho & Hev) Hk. exists os. split; [done|]. by apply (ev_free _ _ _ Hev). Qed.

Lemma sole_trans w0 w w' k : untouched w0 w -> view w !! k = None -> sole w w' k -> sole w0 w' k.
Proof.
  intros (_ & _ & os & Ho & Hev) Hk (os' & Ho' & Hg). exists (os ++ os').
  rewrite Ho', Ho, app_assoc, grants_for_app, Hg, (ev_free _ _ _ Hev k Hk). by split.
Qed.

Lemma sole_taken w0 w w' k : sole w0 w k -> is_Some (view w !! k) -> moved w w' -> sole w0 w' k.
Proof.
  intros (os & Ho & Hg) Hk (os' & Ho' & Hev). exists (os ++ os').
  rewrite Ho', Ho, app_assoc, grants_for_app, Hg, (evolved_taken _ _ _ _ Hev Hk). by split.
Qed.

(** Rules for the operations on the ledger. *)
Lemma wp_others_act (Q : unit -> tst -> Prop) R t :
  ds_wf (w_store (t_world t)) ->
  (forall w, interfered (t_world t) w -> Q tt (mkT (t_ctx t) w)) -> wp (others_act pt) Q R t.
Proof.
  intros Hwf HQ. unfold wp, others_act. destruct (pt_others pt (w_env (t_world t))) as [cs env] eqn:Ho.
  pose proof (run_cmds_le cs _ Hwf) as [Hwf' Hle]. pose proof (run_cmds_grants cs (w_store (t_world t))) as Hon.
  pose proof (run_cmds_free cs) as Hfr. pose proof (run_cmds_unmarked cs) as Hun.
  destruct (run_cmds cs (w_store (t_world t))) as [rs st] eqn:Hr. apply HQ. split.
  - split_and!; [exact Hwf'|done|]. exists rs. split; [done|]. split; [exact Hle|intros k; by apply Hon|].
    intros k Hk. specialize (Hfr k (w_store (t_world t)) Hwf). rewrite Hr in Hfr. by apply Hfr.
  - intros k Hk Hs. specialize (Hun k (w_store (t_world t)) Hwf Hs). rewrite Hr in Hun. apply Hun.
    intros c Hc. apply (Hk (w_env (t_world t))). by rewrite Ho.
Qed.

(** Others act, then the operation does what its specification says. *)
Lemma wp_store_op {A} (m : PyM S A) spec (Q : A -> tst -> Prop) (R : exn -> tst -> Prop) t :
  implements ds_view ds_wf ds_unavailable m spec -> ds_wf (w_store (t_world t)) ->
  (forall w st, interfered (t_world t) w -> ds_wf st -> ds_view st = (spec (view w)).2 ->
     match (spec (view w)).1 with
     | Ret a => Q a (mkT (t_ctx t) (set_store st w))
     | Raise e => R e (mkT (t_ctx t) (set_store st w))
     end) ->
  (forall w st e, interfered (t_world t) w -> ds_wf st -> ds_view st = view w -> ds_unavailable e ->
     R e (mkT (t_ctx t) (set_store st w))) ->
  wp (store_op pt m) Q R t.
Proof.
  intros Himp Hwf Hspec Hun. unfold store_op. apply wp_bind, wp_others_act; [done|].
  intros w Hint. apply wp_zoom. cbn [t_world]. pose proof Hint as [(Hst & _) _].
  eapply wp_mono; [apply wp_implements; [exact Himp|exact Hst]| |]; cbn beta.
  - intros a st' [Hst' Heq]. specialize (Hspec w st' Hint Hst').
    unfold view in Hspec. rewrite Heq in Hspec. by apply Hspec.
  - intros e st' [Hst' [Heq|[Hu Hv]]]; [|by apply (Hun w st' e)].
    specialize (Hspec w st' Hint Hst'). unfold view in Hspec. rewrite Heq in Hspec. by apply Hspec.
Qed.

(** What changes the context and the environment only. *)
Definition frame (t t' : tst) : Prop := same_effects (t_world t) (t_world t').

(** Phases 1 to 4 ******************************************************************)

(** A context that has not ended the turn, or that has ended it as [kind]. *)
Definition ended (kind : TurnOutcomeKind) (c : TurnPhaseContext) : Prop :=
  exists r, cx_result c = Some r /\ tr_outcome_kind r = kind /\
    turn_path (map tse_state (tr_emitted_events r)) kind (tr_state r).

(** The fields a running turn has after each of the first four phases. *)
Record after_reasoning (i : TurnInput) (c : TurnPhaseContext) (a : Action) (b : bool) : Prop := {
  ar_result : cx_result c = None;
  ar_input : cx_input_value c = i;
  ar_action : cx_action c = Some a;
  ar_alias : cx_legacy_alias_key c = None;
  ar_states : states c = turn_start b
}.

Record after_snapshot (i : TurnInput) (c : TurnPhaseContext) (a : Action) (s : CapabilitySnapshot)
    (b : bool) : Prop := {
  as_result : cx_result c = None;
  as_input : cx_input_value c = i;
  as_action : cx_action c = Some a;
  as_alias : cx_legacy_alias_key c = None;
  as_snapshot : cx_snapshot c = Some s;
  as_identity : cx_turn_identity c = Some (_build_turn_identity sha256 i a (Some (cs_snapshot_hash s)));
  as_states : states c = turn_start b ++ [snapshot_built]
}.

Record after_admission (i : TurnInput) (c : TurnPhaseContext) (a : Action) (s : CapabilitySnapshot)
    (b : bool) : Prop := {
  aa_result : cx_result c = None;
  aa_input : cx_input_value c = i;
  aa_action : cx_action c = Some a;
  aa_alias : cx_legacy_alias_key c = None;
  aa_snapshot : cx_snapshot c = Some s;
  aa_identity : cx_turn_identity c = Some (_build_turn_identity sha256 i a (Some (cs_snapshot_hash s)));
  aa_admitted : exists r, cx_admission_result c = Some r /\ _is_admitted r = true;
  aa_states : states c = turn_start b ++ [snapshot_built; admission_checked]
}.

Definition after_policy (i : TurnInput) (c : TurnPhaseContext) (a : Action) (s : CapabilitySnapshot)
    (b : bool) : Prop :=
  after_admission i c a s b /\ cx_dispatch_policy c = Some (Engine._resolve_dispatch_policy a) /\
  Engine.dp_should_block (Engine._resolve_dispatch_policy a) = false.
(** One symbolic step. *)
Ltac wp_step :=
  lazymatch goal with
  | |- wp (_ ≫= _) _ _ _ => apply wp_bind
  | |- wp get_ctx _ _ _ => apply wp_get_ctx
  | |- wp (put_ctx _) _ _ _ => apply wp_put_ctx
  | |- wp (emit _) _ _ _ => unfold emit; apply wp_put_ctx
  | |- wp (finish _) _ _ _ => unfold finish
  | |- wp (mret _) _ _ _ => apply wp_ret
  | |- wp (py_raise _) _ _ _ => apply wp_raise
  | |- wp (py_except _ _ _) _ _ _ => apply wp_except
  | |- wp (assert_some _) _ _ _ => eapply wp_assert; [eassumption|]
  end.
Ltac wp_steps := repeat (wp_step; cbn [t_ctx t_world with_env]).

Lemma wp_phase_reasoning i action t :
  t_ctx t = initial_ctx i action ->
  wp (_phase_noop_or_reasoning pt)
    (fun _ t' => frame t t' /\
       (ended out_noop (t_ctx t') \/
        exists a b, after_reasoning i (t_ctx t') a b /\ forall a', action = Some a' -> a' = a))
    (fun e t' => frame t t' /\ from_port e) t.
Proof.
  intros Hc. unfold _phase_noop_or_reasoning. wp_steps. rewrite Hc. cbn [cx_action initial_ctx cx_input_value].
  destruct action as [a|].
  { wp_steps. split; [done|]. right. exists a, false. rewrite Hc. split; [by split|]. by intros ? [= <-]. }
  destruct (pt_reasoning_loop pt) as [run_once|] eqn:Hr.
  2:{ wp_steps. split; [done|]. left. rewrite Hc. eexists. split_and!; [done|done|].
      exact (path_noop false). }
  wp_steps. apply wp_env_op.
  2:{ intros env0 e env He. destruct (is_exception e); wp_steps.
      - split; [done|]. left. rewrite Hc. eexists. split_and!; [done|done|].
        exact path_reasoning_failed.
      - split; [done|]. by eapply fp_build. }
  intros s env. wp_steps. apply wp_env_op.
  2:{ intros env0 e env' He. destruct (is_exception e); wp_steps.
      - split; [done|]. left. rewrite Hc. eexists. split_and!; [done|done|].
        exact path_reasoning_failed.
      - split; [done|]. by eapply fp_reasoning. }
  intros actions env'. wp_steps. destruct actions as [|a actions]; wp_steps; (split; [done|]).
  - left. rewrite Hc. eexists. split_and!; [done|done|]. exact (path_noop true).
  - right. exists a, true. rewrite Hc. split; [by split|done].
Qed.

Lemma wp_phase_snapshot i a b t :
  after_reasoning i (t_ctx t) a b ->
  wp (_phase_snapshot sha256 pt)
    (fun _ t' => frame t t' /\
       (ended out_noop (t_ctx t') \/ exists s, after_snapshot i (t_ctx t') a s b))
    (fun e t' => frame t t' /\ from_port e) t.
Proof.
  intros [Hres Hi Ha Hal Hst]. unfold _phase_snapshot.
  do 6 (wp_step; cbn [t_ctx t_world]). rewrite Hi. apply wp_except.
  (* the body ends the phase or raises before any event is emitted *)
  apply (wp_mono _ (fun _ t' => frame t t' /\ exists s, after_snapshot i (t_ctx t') a s b) _
    (fun e t' => frame t t' /\ states (t_ctx t') = turn_start b /\
       is_Some (cx_turn_identity (t_ctx t')) /\ (is_value_error e = true \/ from_port e))).
  - apply wp_bind. unfold _resolve_snapshot_input.
    assert (forall (t1 : tst) input, frame t t1 -> t_ctx t1 = set_identity
       (_build_turn_identity sha256 i a None) (t_ctx t) ->
      wp (s ← env_op (pt_build pt input); _ ← put_ctx (set_snapshot s);
        _ ← py_lift (assert_snapshot_compatible s);
        _ ← put_ctx (set_identity (_build_turn_identity sha256 i a (Some (cs_snapshot_hash s))));
        emit snapshot_built)
       (fun _ t' => frame t t' /\ exists s, after_snapshot i (t_ctx t') a s b)
       (fun e t' => frame t t' /\ states (t_ctx t') = turn_start b /\
         is_Some (cx_turn_identity (t_ctx t')) /\ (is_value_error e = true \/ from_port e)) t1)
      as Hbody.
    { intros t1 input Hf Hc1. wp_steps. apply wp_env_op.
      2:{ intros env0 e env He. cbn. rewrite Hc1. split_and!; [done|done|by eexists|].
          right. by eapply fp_build. }
      intros s env. wp_steps. rewrite Hc1. apply wp_lift.
      2:{ intros e He. split_and!; [done|done|by eexists|left].
          unfold assert_snapshot_compatible in He. case_decide; simplify_eq. done. }
      intros [] _. wp_steps. split; [done|]. exists s. split; try done. cbn.
      unfold states in *. cbn. by rewrite map_app, Hst. }
    destruct (pt_resolver pt) as [f|] eqn:Hf.
    + apply wp_env_op; [intros input env; by apply Hbody|].
      intros env0 e env He. cbn. split_and!; [done|done|by eexists|right]. by eapply fp_resolver.
    + apply wp_lift; [intros input _; by apply Hbody|].
      intros e He. cbn. split_and!; [done|done|by eexists|right]. by eapply fp_declared.
  - intros _ t' [Hf Hs]. auto.
  - intros e t' (Hf & Hs & [ti Hti] & He). destruct (is_value_error e).
    + wp_steps. split; [done|]. left. eexists. split_and!; [done|done|]. cbn.
      unfold states in Hs. rewrite map_app, Hs. exact (path_noop b).
    + destruct He; done.
Qed.

Lemma wp_phase_admission i a s b t :
  after_snapshot i (t_ctx t) a s b ->
  wp (_phase_admission pt)
    (fun _ t' => frame t t' /\
       (ended out_blocked (t_ctx t') \/ after_admission i (t_ctx t') a s b))
    (fun e t' => frame t t' /\ from_port e) t.
Proof.
  intros [Hres Hi Ha Hal Hs Hid Hst]. unfold _phase_admission. wp_steps. apply wp_env_op.
  2:{ intros env0 e env He. split; [done|]. by eapply fp_admit. }
  intros r env. wp_steps. apply wp_hook; [|intros e env' He; by split].
  intros env'. destruct (_is_admitted r) eqn:Hr; wp_steps; (split; [done|]).
  - right. split; try done; [by exists r|]. unfold states in *. cbn. rewrite map_app, Hst.
    by rewrite <-app_assoc.
  - left. eexists. split_and!; [done|done|]. cbn. unfold states in Hst.
    rewrite !map_app, Hst, <-!app_assoc. exact (path_blocked b).
Qed.

Lemma wp_phase_policy i a s b t :
  after_admission i (t_ctx t) a s b ->
  wp _phase_dispatch_policy
    (fun _ t' => frame t t' /\
       (ended out_blocked (t_ctx t') \/ after_policy i (t_ctx t') a s b))
    (fun e t' => frame t t' /\ from_port e) t.
Proof.
  intros [Hres Hi Ha Hal Hs Hid Had Hst]. unfold _phase_dispatch_policy. wp_steps.
  destruct (Engine.dp_should_block _) eqn:Hb; wp_steps; (split; [done|]).
  - left. eexists. split_and!; [done|done|]. cbn. unfold states in Hst.
    rewrite !map_app, Hst, <-!app_assoc. exact (path_blocked b).
  - right. split_and!; [by split|done|done].
Qed.
(** Phase 5 ************************************************************************)

(** The key a turn dispatches under. *)
Definition turn_key (i : TurnInput) (a : Action) (s : CapabilitySnapshot) : string :=
  generate sha256 "dispatch" (ti_run_id i) a (cs_snapshot_hash s).

(** The ledger's record of the key is in one of the given states, unless others
    marked it, or the turn is degraded. *)
Definition slot_in (degraded : bool) (key : string) (sts : list DedupeState) (m : ledger) : Prop :=
  degraded = false ->
  is_Some (m !! key) /\ (undisturbed key -> exists r, m !! key = Some r /\ dr_state r ∈ sts).

Lemma slot_kept degraded key sts (m m' : ledger) : ledger_le m m' ->
  (undisturbed key -> is_Some (m !! key) -> m' !! key = m !! key) ->
  slot_in degraded key sts m -> slot_in degraded key sts m'.
Proof.
  intros Hle Hk Hs Hd. destruct (Hs Hd) as [Hsome Hr]. split; [by eapply ledger_le_some|].
  intros Hun. rewrite Hk by done. by apply Hr.
Qed.

Lemma slot_mono degraded key sts sts' m : (forall x, x ∈ sts -> x ∈ sts') ->
  slot_in degraded key sts m -> slot_in degraded key sts' m.
Proof.
  intros Hs Hslot Hd. destruct (Hslot Hd) as [Hsome Hr]. split; [done|]. intros Hun.
  destruct (Hr Hun) as (r & ? & ?). exists r. auto.
Qed.

Lemma slot_interfered degraded key sts (w w' : wld) :
  interfered w w' -> slot_in degraded key sts (view w) -> slot_in degraded key sts (view w').
Proof. intros [Hu Hk]. eapply slot_kept; [by apply untouched_le|by apply Hk]. Qed.

(** A store that is never unavailable has no record under the historical key. *)
Definition legacy_free (i : TurnInput) (a : Action) (m : ledger) : Prop :=
  (forall e, ~ ds_unavailable e) ->
  m !! _legacy_dispatch_dedupe_key (ti_run_id i) (act_action_id a) (ti_based_on_offset i) = None.

(** ... or has one. *)
Definition legacy_taken (i : TurnInput) (a : Action) (m : ledger) : Prop :=
  (forall e, ~ ds_unavailable e) ->
  is_Some (m !! _legacy_dispatch_dedupe_key (ti_run_id i) (act_action_id a) (ti_based_on_offset i)).

Lemma legacy_taken_le i a m m' : ledger_le m m' -> legacy_taken i a m -> legacy_taken i a m'.
Proof. intros Hle Hm Hun. eapply ledger_le_some; [exact Hle|by apply Hm]. Qed.

(** A running turn that owns its key, or runs degraded. *)
Record after_dedupe (w0 : wld) (i : TurnInput) (t : tst) (a : Action) (s : CapabilitySnapshot)
    (b : bool) : Prop := {
  ad_result : cx_result (t_ctx t) = None;
  ad_input : cx_input_value (t_ctx t) = i;
  ad_action : cx_action (t_ctx t) = Some a;
  ad_snapshot : cx_snapshot (t_ctx t) = Some s;
  ad_identity : cx_turn_identity (t_ctx t) =
    Some (_build_turn_identity sha256 i a (Some (cs_snapshot_hash s)));
  ad_policy : cx_dispatch_policy (t_ctx t) = Some (Engine._resolve_dispatch_policy a);
  ad_envelope : exists v, cx_envelope (t_ctx t) = Some v /\
    env_dispatch_idempotency_key v = turn_key i a s;
  ad_legacy : legacy_free i a (view w0);
  ad_mirrored : legacy_taken i a (view (t_world t));
  ad_alias : forall k, cx_legacy_alias_key (t_ctx t) = Some k -> k <> turn_key i a s;
  ad_slot : if cx_dedupe_available (t_ctx t) then
      view w0 !! turn_key i a s = None /\ sole w0 (t_world t) (turn_key i a s) /\
      slot_in false (turn_key i a s) [dispatched] (view (t_world t))
    else act_effect_class a = IDEMPOTENT_WRITE;
  ad_states : states (t_ctx t) = turn_start b ++ [snapshot_built; admission_checked] ++
    (if cx_dedupe_available (t_ctx t) then [] else [dedupe_degraded]) ++ [ts_dispatched]
}.

Lemma resolve_envelope_key r ti a s h :
  env_dispatch_idempotency_key (_resolve_idempotency_envelope r ti a s h) = id_dispatch_dedupe_key ti.
Proof. unfold _resolve_idempotency_envelope. by case_match. Qed.

(** The atomic reservation: granted (and to nobody else), duplicate, degraded, or
    an error. *)
Lemma wp_reserve v a h (Q : DedupeReservation * IdempotencyEnvelope * bool -> tst -> Prop)
    (R : exn -> tst -> Prop) t :
  ds_wf (w_store (t_world t)) ->
  (forall w, untouched (t_world t) w -> view (t_world t) !! env_dispatch_idempotency_key v = None ->
     sole (t_world t) w (env_dispatch_idempotency_key v) ->
     slot_in false (env_dispatch_idempotency_key v) [dispatched] (view w) ->
     Q (reservation_accepted, v, true) (mkT (t_ctx t) w)) ->
  (forall w r, untouched (t_world t) w -> Q (reservation_duplicate r, v, true) (mkT (t_ctx t) w)) ->
  (forall w e, untouched (t_world t) w -> act_effect_class a = IDEMPOTENT_WRITE -> ds_unavailable e ->
     Q (reservation_accepted, env_with_scope (Engine._resolve_dedupe_downgrade_scope h) v, false)
       (mkT (add_event (mkTurnEvent dedupe_degraded (Some (exn_type_name e))
               [("from_effect_scope", PStr "idempotent_write");
                ("to_effect_scope", PStr (Engine._resolve_dedupe_downgrade_scope h))])
               (t_ctx t)) w)) ->
  (forall w e, untouched (t_world t) w -> from_port e -> R e (mkT (t_ctx t) w)) ->
  wp (_reserve_with_degradation pt v a h) Q R t.
Proof.
  intros Hwf Hgrant Hdup Hdeg Herr. unfold _reserve_with_degradation. wp_steps.
  eapply wp_store_op; [apply (ds_reserve_and_dispatch_law v None)|done| |].
  - intros w st [Hu _] Hst Hv.
    assert (untouched (t_world t) (set_store st w)) as Hu'.
    { apply untouched_op; [done..|]. rewrite Hv. apply claim_le. }
    unfold LedgerSpec.claim in Hv |- *. cbn [py_or] in *.
    destruct (view w !! env_dispatch_idempotency_key v) as [r|] eqn:Hk; cbn [fst snd] in *; wp_steps;
      [by apply Hdup|]. apply Hgrant; [done| |by apply (sole_free _ w)|].
    + apply (ledger_le_none _ (view w)); [by apply untouched_le|done].
    + intros _. unfold view. cbn. rewrite Hv, lookup_insert_eq. split; [by eexists|]. intros _.
      eexists. split; [done|]. by apply list_elem_of_singleton.
  - intros w st e [Hu _] Hst Hv He. rewrite (ds_unavailable_is_exception e He).
    assert (untouched (t_world t) (set_store st w)) as Hu'.
    { apply untouched_op; [done..|]. by rewrite Hv. }
    destruct (decide (act_effect_class a <> IDEMPOTENT_WRITE)) as [Hn|Hi]; wp_steps.
    + apply Herr; [done|by apply fp_store].
    + apply Hdeg; [done| |done]. by apply dec_stable.
Qed.

Lemma untouched_refl (w : wld) : ds_wf (w_store w) -> untouched w w.
Proof. intros Hwf. by apply same_effects_untouched. Qed.

(** The lookup of the historical key never fails and changes nothing. *)
Lemma wp_legacy_lookup P `{Decision P} k (Q : option DedupeRecord -> tst -> Prop) (R : exn -> tst -> Prop) t :
  ds_wf (w_store (t_world t)) ->
  (forall w o, untouched (t_world t) w ->
     (P -> (forall e, ~ ds_unavailable e) -> o = view w !! k) -> Q o (mkT (t_ctx t) w)) ->
  wp (if decide P then py_except is_exception (store_op pt (ds_get k)) (fun _ => mret None) else mret None) Q R t.
Proof.
  intros Hwf HQ. destruct (decide P).
  - wp_steps. eapply wp_store_op; [apply ds_get_law|done| |].
    + intros w st [Hu _] Hst Hv. apply HQ; [apply untouched_op; [done..|by rewrite Hv]|].
      intros _ _. unfold view at 2. cbn. by rewrite Hv.
    + intros w st e [Hu _] Hst Hv He. rewrite (ds_unavailable_is_exception e He). wp_steps.
      apply HQ; [apply untouched_op; [done..|by rewrite Hv]|]. intros _ Hn. by destruct (Hn e).
  - wp_steps. specialize (HQ (t_world t) None (untouched_refl _ Hwf)). destruct t. by apply HQ.
Qed.

(** Mirroring the reservation under the historical key: other keys keep their
    records, and the alias is noted only when it was granted. *)
Lemma wp_mirror (b : bool) k v (Q : unit -> tst -> Prop) (R : exn -> tst -> Prop) t :
  ds_wf (w_store (t_world t)) ->
  (forall w c, untouched (t_world t) w ->
     (forall k', (b = true -> k' <> k) -> undisturbed k' -> is_Some (view (t_world t) !! k') ->
        view w !! k' = view (t_world t) !! k') ->
     c = t_ctx t \/ (b = true /\ c = set_legacy_alias k (t_ctx t)) ->
     (b = true -> (forall e, ~ ds_unavailable e) -> is_Some (view w !! k)) ->
     Q tt (mkT c w)) ->
  wp (if b then
        py_suppress
          (r ← store_op pt (ds_reserve_and_dispatch (env_with_key k v) (env_peer_operation_id v));
           if rv_accepted r then put_ctx (set_legacy_alias k) else mret tt)
      else mret tt) Q R t.
Proof.
  intros Hwf HQ. destruct b.
  - apply wp_suppress, wp_bind.
    eapply wp_store_op; [apply ds_reserve_and_dispatch_law|done| |].
    + intros w st [Hu Hkept] Hst Hv.
      assert (untouched (t_world t) (set_store st w)) as Hu'.
      { apply untouched_op; [done..|]. rewrite Hv. apply claim_le. }
      assert (forall k', (true = true -> k' <> k) -> undisturbed k' -> is_Some (view (t_world t) !! k') ->
        view (set_store st w) !! k' = view (t_world t) !! k') as Hother.
      { intros k' Hk Hun Hs. rewrite <-(Hkept k' Hun Hs). unfold view at 1. cbn. rewrite Hv.
        apply claim_other. by apply not_eq_sym, Hk. }
      assert (is_Some (view (set_store st w) !! k)) as Hsome.
      { unfold view. cbn. rewrite Hv. apply claim_some. }
      unfold LedgerSpec.claim. destruct (view w !! _); cbn [fst rv_accepted
        reservation_duplicate reservation_accepted]; wp_steps; (apply HQ; [done..| |done]); auto.
    + intros w st e [Hu Hkept] Hst Hv He. rewrite (ds_unavailable_is_exception e He).
      apply (HQ (set_store st w) (t_ctx t)); [apply untouched_op; [done..|by rewrite Hv]| |by left|].
      * intros k' _ Hun Hs. rewrite <-(Hkept k' Hun Hs). unfold view at 1. cbn. by rewrite Hv.
      * intros _ Hun. by destruct (Hun e).
  - wp_steps. specialize (HQ (t_world t) (t_ctx t) (untouched_refl _ Hwf)). destruct t.
    apply HQ; try done. by left.
Qed.

Lemma blocked_ended c b ti h p :
  states c = turn_start b ++ [snapshot_built; admission_checked] ->
  ended out_blocked (set_result (identity_result dispatch_blocked out_blocked ti h p None
    (cx_emitted_events (add_event (event dispatch_blocked) c))) (add_event (event dispatch_blocked) c)).
Proof.
  intros Hst. eexists. split_and!; [done|done|]. cbn. unfold states in Hst.
  rewrite map_app, Hst, <-app_assoc. exact (path_blocked b).
Qed.

(** The end of a blocked dedupe phase. *)
Lemma wp_blocked b ti h p hk (w0 : wld) t :
  untouched w0 (t_world t) -> states (t_ctx t) = turn_start b ++ [snapshot_built; admission_checked] ->
  wp (_ ← emit dispatch_blocked;
      _ ← finish (identity_result dispatch_blocked out_blocked ti h p None);
      hook pt hk)
    (fun _ t' => untouched w0 (t_world t') /\ ended out_blocked (t_ctx t'))
    (fun e t' => untouched w0 (t_world t') /\ from_port e) t.
Proof.
  intros Hu Hst. wp_steps. apply wp_hook; [|intros e env He; split; [exact Hu|done]].
  intros env. split; [exact Hu|]. by apply (blocked_ended _ b).
Qed.

(** A granted reservation, mirrored under the key [k] or not. *)
Lemma granted_after_dedupe w0 i (t : tst) a s b w c v k :
  after_policy i (t_ctx t) a s b -> env_dispatch_idempotency_key v = turn_key i a s ->
  legacy_free i a (view w0) -> legacy_taken i a (view w) ->
  view w0 !! turn_key i a s = None -> sole w0 w (turn_key i a s) ->
  slot_in false (turn_key i a s) [dispatched] (view w) ->
  let c0 := set_dedupe_outcome "accepted" (set_dedupe_available true
    (set_envelope v (set_envelope v (t_ctx t)))) in
  c = c0 \/ k <> turn_key i a s /\ c = set_legacy_alias k c0 ->
  after_dedupe w0 i (mkT (add_event (event ts_dispatched) c) w) a s b.
Proof.
  intros ([Hres Hi Ha Hal Hs Hid Had Hsta] & Hp & Hb) Hkey Hleg Htaken Hn Hsole Hslot c0 Hc.
  assert (states (t_ctx t) ++ [ts_dispatched] = turn_start b ++
    [snapshot_built; admission_checked] ++ [] ++ [ts_dispatched]) as Hsta'.
  { by rewrite Hsta, <-app_assoc. }
  destruct Hc as [-> |[Hk ->]];
    (split; cbn; [done|done|done|done|done|done|by eexists|exact Hleg|exact Htaken| | |]);
    try (by rewrite Hal); try done;
    try (unfold states in *; cbn in *; by rewrite map_app).
  by intros alias [= <-].
Qed.

(** The rest of the phase once the key is granted. *)
Lemma wp_granted i (t : tst) a s b v h w0 w1 :
  let key := turn_key i a s in
  let k := _legacy_dispatch_dedupe_key (ti_run_id i) (act_action_id a) (ti_based_on_offset i) in
  after_policy i (t_ctx t) a s b -> env_dispatch_idempotency_key v = key ->
  untouched w0 w1 -> legacy_free i a (view w0) -> view w0 !! key = None -> sole w0 w1 key ->
  slot_in false key [dispatched] (view w1) ->
  wp (_ ← (if true && bool_decide (k <> key) then
             py_suppress
               (r ← store_op pt (ds_reserve_and_dispatch (env_with_key k v) (env_peer_operation_id v));
                if rv_accepted r then put_ctx (set_legacy_alias k) else mret tt)
           else mret tt);
      _ ← hook pt h; emit ts_dispatched)
    (fun _ t' => untouched w0 (t_world t') /\ after_dedupe w0 i t' a s b)
    (fun e t' => untouched w0 (t_world t') /\ from_port e)
    (mkT (set_dedupe_outcome "accepted" (set_dedupe_available true
      (set_envelope v (set_envelope v (t_ctx t))))) w1).
Proof.
  intros key k Hpol Hkey Hu1 Hleg Hn Hsole Hslot. apply wp_bind, wp_mirror; [apply Hu1|].
  intros w2 c Hu2 Hother Hc Halias. cbn [t_world] in *.
  assert (untouched w0 w2) as Hu3 by (eapply untouched_trans; [exact Hu1|exact Hu2]).
  wp_steps. apply wp_hook; [|intros e env He; split; [exact Hu3|done]].
  intros env. wp_steps. split; [exact Hu3|].
  assert (true && bool_decide (k <> key) = true <-> k <> key) as Hb'.
  { by rewrite andb_true_l, bool_decide_eq_true. }
  assert (slot_in false key [dispatched] (view w2)) as Hslot2.
  { apply (slot_kept _ _ _ (view w1)); [by apply untouched_le| |exact Hslot]. intros Hun Hsome.
    apply Hother; [|done|done]. intros Hbt%Hb'. by apply not_eq_sym. }
  apply (granted_after_dedupe _ _ t _ _ _ _ _ v k); [done|done|done| |done| |done|].
  - intros Hun. destruct (decide (k = key)) as [Hk|Hk]; [|by apply Halias; [apply Hb'|]].
    fold k. rewrite Hk. by apply Hslot2.
  - apply (sole_taken _ w1); [done|by apply Hslot|apply Hu2].
  - destruct Hc as [-> |[Hk%Hb' ->]]; auto.
Qed.

Lemma wp_phase_dedupe i a s b t :
  after_policy i (t_ctx t) a s b -> ds_wf (w_store (t_world t)) ->
  wp (_phase_dedupe pt)
    (fun _ t' => untouched (t_world t) (t_world t') /\
       (ended out_blocked (t_ctx t') \/ after_dedupe (t_world t) i t' a s b))
    (fun e t' => untouched (t_world t) (t_world t') /\ from_port e) t.
Proof.
  intros Hpol Hwf. pose proof Hpol as ([Hres Hi Ha Hal Hs Hid Had Hsta] & Hp & Hb). unfold _phase_dedupe.
  do 10 (wp_step; cbn [t_ctx t_world]). rewrite Hi. apply wp_bind.
  set (k := _legacy_dispatch_dedupe_key _ _ _).
  set (ti := _build_turn_identity sha256 i a (Some (cs_snapshot_hash s))).
  apply wp_legacy_lookup; [done|]. intros w o Hu Ho.
  destruct o as [r0|].
  { eapply wp_mono; [apply (wp_blocked b _ _ _ _ (t_world t))|intros _ t' [? ?]; auto|done]; done. }
  wp_steps. set (v := _resolve_idempotency_envelope _ _ _ _ _).
  assert (env_dispatch_idempotency_key v = turn_key i a s) as Hkey by apply resolve_envelope_key.
  apply wp_reserve; cbn [t_world t_ctx]; [apply Hu|..]; rewrite ?Hkey.
  - (* granted: the key was free and is now dispatched *)
    intros w1 Hu1 Hn Hsole Hslot.
    assert (view (t_world t) !! turn_key i a s = None) as Hn0.
    { apply (ledger_le_none _ (view w)); [by apply untouched_le|done]. }
    assert (legacy_free i a (view (t_world t))) as Hleg.
    { intros Hun. destruct (decide (k = turn_key i a s)) as [Hk|Hk]; [by rewrite <-Hk in Hn0|].
      apply (ledger_le_none _ (view w)); [by apply untouched_le|]. symmetry. by apply Ho. }
    cbn [rv_accepted reservation_accepted negb]. do 6 (wp_step; cbn [t_ctx t_world]).
    eapply wp_mono; [eapply (wp_granted i t a s b v _ (t_world t))| |done]; [done|done| |done|done| |done|].
    + eapply untouched_trans; [exact Hu|exact Hu1].
    + by apply (sole_trans _ w).
    + intros _ t' [? ?]; auto.
  - (* duplicate *)
    intros w1 r Hu1. cbn [rv_accepted reservation_duplicate negb]. wp_step. wp_step.
    cbn [t_ctx t_world]. wp_step. wp_step. cbn [t_ctx t_world].
    eapply wp_mono; [apply (wp_blocked b _ _ _ _ (t_world t))|intros _ t' [? ?]; auto|done]; [|done].
    eapply untouched_trans; [exact Hu|exact Hu1].
  - (* degraded *)
    intros w1 e Hu1 Heff Hdown. cbn [rv_accepted reservation_accepted negb andb]. wp_steps.
    assert (untouched (t_world t) w1) as Hu2 by (eapply untouched_trans; [exact Hu|exact Hu1]).
    apply wp_hook; [|intros e' env He; split; [exact Hu2|done]].
    intros env. wp_steps. split; [exact Hu2|]. right.
    split; cbn; try done; try (by eexists).
    + intros Hun. by destruct (Hun e).
    + intros Hun. by destruct (Hun e).
    + by rewrite Hal.
    + unfold states in *. cbn. by rewrite !map_app, Hsta, <-!app_assoc.
  - (* the store is down *)
    intros w1 e Hu1 He. split; [|done]. eapply untouched_trans; [exact Hu|exact Hu1].
Qed.
(** Phase 6 ************************************************************************)

(** The call an execution makes. *)
Definition turn_call (i : TurnInput) (t : tst) (a : Action) (s : CapabilitySnapshot)
    (c : exec_call) : Prop :=
  ec_key c = turn_key i a s /\ ec_action c = a /\
  ec_degraded c = negb (cx_dedupe_available (t_ctx t)).

Lemma wp_on_alias alias m target key p ack degraded sts (Q : unit -> tst -> Prop) (R : exn -> tst -> Prop) t :
  (forall k, implements ds_view ds_wf ds_unavailable (m k) (LedgerSpec.mark target p ack k)) ->
  ds_wf (w_store (t_world t)) -> slot_in degraded key sts (view (t_world t)) ->
  (forall k, alias = Some k -> k <> key) ->
  (forall w, untouched (t_world t) w -> slot_in degraded key sts (view w) -> Q tt (mkT (t_ctx t) w)) ->
  wp (on_alias pt alias m) Q R t.
Proof.
  intros Hm Hwf Hslot Hal HQ. unfold on_alias. destruct alias as [k|].
  - apply wp_suppress. eapply wp_store_op; [apply Hm|done| |].
    + intros w st Hint Hst Hv.
      assert (Q tt (mkT (t_ctx t) (set_store st w))) as HQ'.
      { apply HQ.
        - apply untouched_op; [apply Hint|done|]. rewrite Hv. apply mark_le.
        - eapply slot_kept; [| |by eapply slot_interfered].
          + unfold view at 2. cbn. rewrite Hv. apply mark_le.
          + intros _ _. unfold view at 1. cbn. rewrite Hv. apply mark_other. by apply Hal. }
      unfold LedgerSpec.mark. destruct (view w !! k); [|done]. by destruct (may_mark _ _).
    + intros w st e Hint Hst Hv He. rewrite (ds_unavailable_is_exception e He).
      apply HQ; [apply untouched_op; [apply Hint|done|by rewrite Hv]|].
      unfold view. cbn. rewrite Hv. by eapply slot_interfered.
  - wp_steps. specialize (HQ (t_world t) (untouched_refl _ Hwf) Hslot). by destruct t.
Qed.

(** Moving the granted key from [dispatched] succeeds, unless the store is down
    or others marked the key. *)
Lemma wp_mark_slot m target p ack key (Q : unit -> tst -> Prop) (R : exn -> tst -> Prop) t :
  implements ds_view ds_wf ds_unavailable m (LedgerSpec.mark target p ack key) ->
  may_mark target dispatched = true -> ds_wf (w_store (t_world t)) ->
  slot_in false key [dispatched] (view (t_world t)) ->
  (forall w, untouched (t_world t) w -> slot_in false key [target] (view w) -> Q tt (mkT (t_ctx t) w)) ->
  (forall w e, untouched (t_world t) w -> slot_in false key [dispatched] (view w) ->
     is_exception e = true -> from_port e -> ds_unavailable e \/ ~ undisturbed key ->
     R e (mkT (t_ctx t) w)) ->
  wp (store_op pt m) Q R t.
Proof.
  intros Hm Hmay Hwf Hslot HQ HR. eapply wp_store_op; [exact Hm|done| |].
  - intros w st Hint Hst Hv.
    assert (untouched (t_world t) (set_store st w)) as Hu.
    { apply untouched_op; [apply Hint|done|]. rewrite Hv. apply mark_le. }
    pose proof (slot_interfered _ _ _ _ _ Hint Hslot) as Hslot'.
    destruct (Hslot' eq_refl) as [[r Hr] Hstate]. unfold LedgerSpec.mark in Hv |- *. rewrite Hr in Hv |- *.
    destruct (may_mark target (dr_state r)) eqn:Hmr; cbn [fst snd] in *.
    + apply HQ; [done|]. intros _. unfold view. cbn. rewrite Hv, lookup_insert_eq. split; [by eexists|].
      intros _. eexists. split; [done|]. by apply list_elem_of_singleton.
    + assert (~ undisturbed key) as Hn.
      { intros Hun. destruct (Hstate Hun) as (r' & Hr' & Hd%list_elem_of_singleton). congruence. }
      apply HR; [done| |done|by eapply fp_disturbed|by right]. unfold view. cbn. by rewrite Hv.
  - intros w st e Hint Hst Hv He. apply HR; [apply untouched_op; [apply Hint|done|by rewrite Hv]| | | |by left].
    + unfold view. cbn. rewrite Hv. by eapply slot_interfered.
    + by apply ds_unavailable_is_exception.
    + by apply fp_store.
Qed.

(** A key others marked can be in any state. *)
Lemma slot_disturbed degraded key sts sts' (m : ledger) :
  ~ undisturbed key -> slot_in degraded key sts m -> slot_in degraded key sts' m.
Proof. intros Hn Hs Hd. split; [by apply Hs|by intros ?]. Qed.

(** The executor answered a call, with or without an acknowledgement. *)
Definition answered (acked : bool) (c : exec_call) : Prop :=
  exists s d env env', pt_execute pt (ec_action c) s (ec_envelope c) (ec_context c) env = (Ret d, env') /\
    py_bool (pd_get_default d "acknowledged" (PBool false)) = acked.

(** The executor never answers, it raises an [Exception]. *)
Definition executor_raises : Prop := forall a s v x env,
  exists e env', pt_execute pt a s v x env = (Raise e, env') /\ is_exception e = true.

Lemma answered_raises b c : answered b c -> ~ executor_raises.
Proof.
  intros (s & d & env & env' & Heq & _) Hr. destruct (Hr (ec_action c) s (ec_envelope c) (ec_context c) env) as (e & env2 & Heq' & _).
  by rewrite Heq in Heq'.
Qed.

Section execution.
(** The turn before its call. *)
Context (i : TurnInput) (t : tst) (a : Action) (s : CapabilitySnapshot).

(** The executor was called once, a call in [P], and the record of the key is in
    one of the states [sts]. *)
Definition executed (P : exec_call -> Prop) (sts : list DedupeState) (t' : tst) : Prop :=
  ds_wf (w_store (t_world t')) /\
  moved (t_world t) (t_world t') /\
  slot_in (negb (cx_dedupe_available (t_ctx t))) (turn_key i a s) sts (view (t_world t')) /\
  exists c, w_calls (t_world t') = w_calls (t_world t) ++ [c] /\ turn_call i t a s c /\ P c.

(** A turn ended as [kind] under the key. *)
Definition ended_under (kind : TurnOutcomeKind) (c : TurnPhaseContext) : Prop :=
  exists r, cx_result c = Some r /\ tr_outcome_kind r = kind /\
    turn_path (map tse_state (tr_emitted_events r)) kind (tr_state r) /\
    tr_dispatch_dedupe_key r = Some (turn_key i a s).

(** An exception after the call; if the executor is what always fails, the
    effect is recorded as unknown. *)
Definition execution_error (e : exn) (t' : tst) : Prop :=
  from_port e /\ executed (fun _ => True) dispatched_states t' /\
  ((forall e, ~ ds_unavailable e) -> executor_raises -> executed (fun _ => True) [unknown_effect] t').

Lemma executed_step P sts sts' (t1 t2 : tst) :
  executed P sts t1 -> untouched (t_world t1) (t_world t2) ->
  slot_in (negb (cx_dedupe_available (t_ctx t))) (turn_key i a s) sts' (view (t_world t2)) ->
  executed P sts' t2.
Proof.
  intros (_ & Hm & _ & c & Hc & Hcall) (Hwf & Hcs & Hm') Hslot.
  split_and!; [done|by eapply moved_trans|done|exists c; by rewrite Hcs].
Qed.

Lemma executed_mono (P P' : exec_call -> Prop) sts sts' (t1 : tst) : (forall c, P c -> P' c) -> (forall x, x ∈ sts -> x ∈ sts') ->
  executed P sts t1 -> executed P' sts' t1.
Proof.
  intros HP Hs (? & ? & Hslot & c & ? & ? & ?). split_and!; try done; [|exists c; auto].
  by eapply slot_mono.
Qed.

Lemma executed_any P y t1 : y ∈ dispatched_states -> executed P [y] t1 ->
  executed (fun _ => True) dispatched_states t1.
Proof. intros Hy. apply executed_mono; [done|]. by intros z ->%list_elem_of_singleton. Qed.

(** Exceptions after an answer. *)
Lemma answered_error b e y t1 : y ∈ dispatched_states -> from_port e -> executed (answered b) [y] t1 ->
  execution_error e t1.
Proof.
  intros Hy He Hx. split_and!; [done|by eapply executed_any|].
  intros _ Hr. destruct Hx as (_ & _ & _ & c & _ & _ & Hans). by destruct (answered_raises _ _ Hans Hr).
Qed.

(** The two writes that close a call: the key, then the alias. *)
Lemma wp_close P t1 (suppressed : bool) m target p ack (Q : unit -> tst -> Prop) (R : exn -> tst -> Prop) :
  (forall k, implements ds_view ds_wf ds_unavailable (m k) (LedgerSpec.mark target p ack k)) ->
  may_mark target dispatched = true ->
  (forall k, cx_legacy_alias_key (t_ctx t) = Some k -> k <> turn_key i a s) ->
  executed P [dispatched] t1 ->
  (forall w, let t' := mkT (t_ctx t1) w in
     executed P [target] t' \/
     (suppressed = true /\ (exists e, ds_unavailable e) /\ executed P [dispatched] t') -> Q tt t') ->
  (forall w e, suppressed = false -> executed P [dispatched] (mkT (t_ctx t1) w) -> from_port e ->
     R e (mkT (t_ctx t1) w)) ->
  wp (if cx_dedupe_available (t_ctx t) then
        _ ← (if suppressed then py_suppress (store_op pt (m (turn_key i a s)))
             else store_op pt (m (turn_key i a s)));
        on_alias pt (cx_legacy_alias_key (t_ctx t)) m
      else mret tt) Q R t1.
Proof.
  intros Hm Hmay Hal He HQ HR. destruct (cx_dedupe_available (t_ctx t)) eqn:Hav.
  2:{ wp_steps. specialize (HQ (t_world t1)). destruct t1. apply HQ. left.
      destruct He as (? & ? & _ & ?). split_and!; try done. intros Hd. by rewrite Hav in Hd. }
  pose proof He as (Hwf & _ & Hslot & _). rewrite Hav in Hslot. simpl in Hslot.
  (* the alias write keeps whatever the first write left *)
  assert (forall sts w, untouched (t_world t1) w -> slot_in false (turn_key i a s) sts (view w) ->
    (forall w', executed P sts (mkT (t_ctx t1) w') -> Q tt (mkT (t_ctx t1) w')) ->
    wp (on_alias pt (cx_legacy_alias_key (t_ctx t)) m) Q R (mkT (t_ctx t1) w)) as Halias.
  { intros sts w Hu Hs1 HQ1. eapply wp_on_alias; [exact Hm|apply Hu|exact Hs1|exact Hal|].
    intros w' Hu' Hs2. apply HQ1. eapply executed_step; [exact He| |by rewrite Hav].
    eapply untouched_trans; [exact Hu|exact Hu']. }
  destruct suppressed; wp_steps;
    [apply wp_suppress|]; (eapply (wp_mark_slot _ target); [apply Hm|done|done|done| |]).
  - intros w Hu Hs1. eapply Halias; [done|done|]. eauto.
  - intros w e Hu Hs1 Hexn _ [Hun|Hd]; rewrite Hexn; (eapply Halias; [done| |]).
    + exact Hs1.
    + eauto 6.
    + by eapply slot_disturbed.
    + eauto.
  - intros w Hu Hs1. eapply Halias; [done|done|]. eauto.
  - intros w e Hu Hs1 _ Hfp _. apply HR; [done| |done].
    eapply executed_step; [exact He|done|by rewrite Hav].
Qed.

(** The end of an acknowledged execution. *)
Lemma wp_acknowledge h (f : string -> list TurnStateEvent -> TurnResult) t1 :
  (forall now ev, tr_outcome_kind (f now ev) = out_dispatched /\
     tr_dispatch_dedupe_key (f now ev) = Some (turn_key i a s) /\
     tr_state (f now ev) = dispatch_acknowledged /\ tr_emitted_events (f now ev) = ev) ->
  (forall k, cx_legacy_alias_key (t_ctx t) = Some k -> k <> turn_key i a s) ->
  turn_path (states (t_ctx t1) ++ [dispatch_acknowledged]) out_dispatched dispatch_acknowledged ->
  executed (answered true) [dispatched] t1 ->
  wp (_ ← (if cx_dedupe_available (t_ctx t) then
             _ ← store_op pt (ds_mark_acknowledged (turn_key i a s) None);
             on_alias pt (cx_legacy_alias_key (t_ctx t)) (fun k => ds_mark_acknowledged k None)
           else mret tt);
      _ ← emit dispatch_acknowledged; _ ← hook pt h; now ← env_op (pt_now pt); finish (f now))
    (fun _ t' => executed (answered true) [acknowledged] t' /\ ended_under out_dispatched (t_ctx t'))
    execution_error t1.
Proof.
  intros Hf Hal Hp Hx. wp_step.
  apply (wp_close (answered true) t1 false (fun k => ds_mark_acknowledged k None) acknowledged None None).
  - intros k. apply ds_mark_acknowledged_law.
  - done.
  - exact Hal.
  - exact Hx.
  - intros w t' [Hst|(? & _)]; [|done]. wp_steps.
    apply wp_hook; [|intros e env He; eapply (answered_error _ _ acknowledged); [set_solver|done|exact Hst]].
    intros env. wp_steps. apply wp_env_op.
    2:{ intros env0 e env' He. eapply (answered_error _ _ acknowledged);
          [set_solver|by eapply fp_now|exact Hst]. }
    intros now env'. wp_steps. split; [exact Hst|]. eexists. split; [done|]. cbn.
    destruct (Hf now (cx_emitted_events (t_ctx t1) ++ [event dispatch_acknowledged])) as (-> & -> & -> & ->).
    split_and!; [done| |done]. by rewrite map_app.
  - intros w e _ Hst He. by eapply (answered_error _ _ dispatched); [set_solver| |].
Qed.

(** The end of an execution without an acknowledgement. *)
Lemma wp_unacknowledged h (f : list TurnStateEvent -> TurnResult) t1 :
  (forall ev, tr_outcome_kind (f ev) = out_recovery_pending /\
     tr_dispatch_dedupe_key (f ev) = Some (turn_key i a s) /\
     tr_state (f ev) = recovery_pending /\ tr_emitted_events (f ev) = ev) ->
  (forall k, cx_legacy_alias_key (t_ctx t) = Some k -> k <> turn_key i a s) ->
  turn_path (states (t_ctx t1) ++ [effect_unknown; recovery_pending]) out_recovery_pending recovery_pending ->
  executed (answered false) [dispatched] t1 ->
  wp (_ ← (if cx_dedupe_available (t_ctx t) then
             _ ← store_op pt (ds_mark_unknown_effect (turn_key i a s));
             on_alias pt (cx_legacy_alias_key (t_ctx t)) ds_mark_unknown_effect
           else mret tt);
      _ ← emit effect_unknown; _ ← emit recovery_pending; _ ← hook pt h; finish f)
    (fun _ t' => executed (answered false) [unknown_effect] t' /\ ended_under out_recovery_pending (t_ctx t'))
    execution_error t1.
Proof.
  intros Hf Hal Hp Hx. wp_step.
  apply (wp_close (answered false) t1 false ds_mark_unknown_effect unknown_effect None None).
  - exact ds_mark_unknown_effect_law.
  - done.
  - exact Hal.
  - exact Hx.
  - intros w t' [Hst|(? & _)]; [|done]. wp_steps.
    apply wp_hook; [|intros e env He; eapply (answered_error _ _ unknown_effect); [set_solver|done|exact Hst]].
    intros env. wp_steps. split; [exact Hst|]. eexists. split; [done|]. cbn.
    destruct (Hf ((cx_emitted_events (t_ctx t1) ++ [event effect_unknown]) ++ [event recovery_pending]))
      as (-> & -> & -> & ->).
    split_and!; [done| |done]. by rewrite !map_app, <-app_assoc.
  - intros w e _ Hst He. by eapply (answered_error _ _ dispatched); [set_solver| |].
Qed.

(** The executor raised: the slot is closed as far as the store allows. *)
Lemma wp_executor_raised e t1 (Q : odict string pyval -> tst -> Prop) :
  (forall k, cx_legacy_alias_key (t_ctx t) = Some k -> k <> turn_key i a s) ->
  executed (fun _ => True) [dispatched] t1 -> from_port e -> (executor_raises -> is_exception e = true) ->
  if is_exception e then
    wp (_ ← (if cx_dedupe_available (t_ctx t) then
               _ ← py_suppress (store_op pt (ds_mark_unknown_effect (turn_key i a s)));
               on_alias pt (cx_legacy_alias_key (t_ctx t)) ds_mark_unknown_effect
             else mret tt);
        py_raise e) Q execution_error t1
  else execution_error e t1.
Proof.
  intros Hal Hexec Hfp Hr. destruct (is_exception e).
  - wp_step. apply (wp_close (fun _ => True) _ true ds_mark_unknown_effect unknown_effect None None).
    + exact ds_mark_unknown_effect_law.
    + done.
    + exact Hal.
    + exact Hexec.
    + intros w t' Hst'. wp_steps. split; [done|]. destruct Hst' as [Hst'|(_ & [e' Hu] & Hst')].
      * split; [eapply executed_any; [|exact Hst']; set_solver|done].
      * split; [eapply executed_any; [|exact Hst']; set_solver|]. intros Hun. by destruct (Hun e').
    + done.
  - split_and!; [done|eapply (executed_any (fun _ => True) dispatched); [set_solver|done]|].
    intros _ Hx. by specialize (Hr Hx).
Qed.

Lemma wp_phase_execute w0 b :
  after_dedupe w0 i t a s b -> ds_wf (w_store (t_world t)) ->
  wp (_phase_execute pt)
    (fun _ t' =>
       executed (answered true) [acknowledged] t' /\ ended_under out_dispatched (t_ctx t') \/
       executed (answered false) [unknown_effect] t' /\ ended_under out_recovery_pending (t_ctx t'))
    execution_error t.
Proof.
  intros [Hres Hi Ha Hs Hid Hp (v & Hv & Hkey) _ _ Hal Hslot Hst] Hwf. unfold _phase_execute.
  do 12 (wp_step; cbn [t_ctx t_world]). rewrite Hi.
  assert (id_dispatch_dedupe_key (_build_turn_identity sha256 i a (Some (cs_snapshot_hash s))) =
    turn_key i a s) as Hk by done.
  rewrite Hk. set (x := _build_execution_context _ _ _ _ _ _).
  set (call := mkCall (env_dispatch_idempotency_key v) (negb (cx_dedupe_available (t_ctx t))) a v
    (if pt_accepts_context pt then Some x else None)).
  assert (forall (P : exec_call -> Prop) env c, P call -> executed P [dispatched]
    (mkT c (mkWorld (w_store (t_world t)) env (w_calls (t_world t) ++ [call])
       (w_others (t_world t))))) as Hexec.
  { intros P env c HP. split_and!; [done| | |exists call; by split_and!].
    - by apply moved_own.
    - intros Hd. destruct (cx_dedupe_available (t_ctx t)); [|done]. by apply Hslot. }
  assert (forall l, states (t_ctx t) ++ l = turn_start b ++ [snapshot_built; admission_checked] ++
    (if negb (cx_dedupe_available (t_ctx t)) then [dedupe_degraded] else []) ++ [ts_dispatched] ++ l)
    as Hpath.
  { intros l. rewrite Hst, <-!app_assoc. by destruct (cx_dedupe_available (t_ctx t)). }
  unfold _execute_with_context. do 4 wp_step. apply wp_record_call, wp_env_op_eq.
  2:{ intros e env He. fold call. apply wp_executor_raised; [exact Hal|by apply Hexec|by eapply fp_execute|].
      intros Hr. destruct (Hr a s v (if pt_accepts_context pt then Some x else None) (w_env (t_world t)))
        as (e' & env' & He' & Hexn'). cbn in He. rewrite He' in He. congruence. }
  intros d env Hd. fold call. wp_steps.
  assert (answered (py_bool (pd_get_default d "acknowledged" (PBool false))) call) as Hans.
  { exists s, d. do 2 eexists. by split. }
  apply wp_hook.
  2:{ intros e env' He. eapply (answered_error _ _ dispatched); [set_solver|done|]. by apply Hexec. }
  intros env'. destruct (py_bool _).
  - eapply wp_mono; [apply (wp_acknowledge _ (fun now => identity_result _ _ _ _ _ _)); cbn| |done].
    + done.
    + exact Hal.
    + unfold states in *. cbn. rewrite Hpath. apply path_dispatched.
    + by apply Hexec.
    + intros [] t' Ht'. by left.
  - eapply wp_mono; [apply wp_unacknowledged; cbn| |done].
    + done.
    + exact Hal.
    + unfold states in *. cbn. rewrite Hpath. apply path_recovery.
    + by apply Hexec.
    + intros [] t' Ht'. by right.
Qed.
End execution.

(** The whole turn *****************************************************************)

(** The executor was called once, with the given action if one was given, under
    a key that was free, that nobody else was granted and whose record is now in
    one of the states [sts] (unless others marked it); or, the ledger being
    down, with an idempotent write. *)
Definition called_once (i : TurnInput) (action : option Action) (w0 w : wld) (sts : list DedupeState)
    (c : exec_call) : Prop :=
  ds_wf (w_store w) /\
  moved w0 w /\
  w_calls w = w_calls w0 ++ [c] /\
  (exists s, ec_key c = turn_key i (ec_action c) s) /\
  (forall a, action = Some a -> a = ec_action c) /\
  legacy_free i (ec_action c) (view w0) /\
  legacy_taken i (ec_action c) (view w) /\
  if ec_degraded c then act_effect_class (ec_action c) = IDEMPOTENT_WRITE
  else view w0 !! ec_key c = None /\ sole w0 w (ec_key c) /\ slot_in false (ec_key c) sts (view w).

(** What a finished turn says and leaves. *)
Definition turn_post (i : TurnInput) (action : option Action) (w0 : wld) (r : TurnResult) (w : wld) : Prop :=
  turn_path (map tse_state (tr_emitted_events r)) (tr_outcome_kind r) (tr_state r) /\
  match tr_outcome_kind r with
  | out_noop | out_blocked => untouched w0 w
  | out_dispatched => exists c, called_once i action w0 w [acknowledged] c /\
      answered true c /\ tr_dispatch_dedupe_key r = Some (ec_key c)
  | out_recovery_pending => exists c, called_once i action w0 w [unknown_effect] c /\
      answered false c /\ tr_dispatch_dedupe_key r = Some (ec_key c)
  end.

(** What an exception that leaves a turn leaves behind. *)
Definition turn_error (i : TurnInput) (action : option Action) (w0 : wld) (e : exn) (w : wld) : Prop :=
  from_port e /\ (untouched w0 w \/ exists c, called_once i action w0 w dispatched_states c /\
    ((forall e, ~ ds_unavailable e) -> executor_raises -> called_once i action w0 w [unknown_effect] c)).

Lemma called_once_same i action w0 w w' sts c :
  same_effects w w' -> called_once i action w0 w sts c -> called_once i action w0 w' sts c.
Proof. intros (Hs & Hc & Ho). unfold called_once, moved, view, sole. by rewrite Hs, Hc, Ho. Qed.

Lemma called_once_mono i action w0 w sts sts' c : (forall x, x ∈ sts -> x ∈ sts') ->
  called_once i action w0 w sts c -> called_once i action w0 w sts' c.
Proof.
  intros Hs (?&?&?&?&?&?&?&Hd). split_and!; try done. case_match; [done|].
  destruct Hd as (? & ? & Hslot). split_and!; [done|done|by eapply slot_mono].
Qed.

Lemma turn_post_same i action w0 r w w' :
  same_effects w w' -> turn_post i action w0 r w -> turn_post i action w0 r w'.
Proof.
  intros Hw [Hp Hk]. split; [done|]. destruct (tr_outcome_kind r);
    [by eapply untouched_same|by eapply untouched_same|..];
    destruct Hk as (c & Hc & ?); exists c; (split; [by eapply called_once_same|done]).
Qed.

Lemma turn_error_same i action w0 e w w' :
  same_effects w w' -> turn_error i action w0 e w -> turn_error i action w0 e w'.
Proof.
  intros Hw [Hp [Hu|(c & Hc & Hr)]]; (split; [done|]); [left; by eapply untouched_same|right].
  exists c. split; [by eapply called_once_same|]. intros ? ?. eapply called_once_same; [done|auto].
Qed.

(** A hook may still fail after the last phase. *)
Lemma turn_post_error i action w0 r w e :
  turn_post i action w0 r w -> from_port e -> turn_error i action w0 e w.
Proof.
  intros [Hp Hk] He. split; [done|]. destruct (tr_outcome_kind r); [by left|by left|..];
    destruct Hk as (c & Hc & Hans & _); right; exists c;
    (split; [eapply called_once_mono; [|exact Hc];
             intros y ->%list_elem_of_singleton; unfold dispatched_states; set_solver|]);
    intros _ Hr; by destruct (answered_raises _ _ Hans Hr).
Qed.

(** One step of the loop: the phase ends the turn, goes on, or raises. *)
Lemma wp_turn_phase custom name rest i action w0 (Mid : tst -> Prop) t :
  wp (phase_fn sha256 pt custom name)
    (fun _ t' => (exists r, cx_result (t_ctx t') = Some r /\ turn_post i action w0 r (t_world t')) \/
                 (cx_result (t_ctx t') = None /\ untouched w0 (t_world t') /\ Mid t'))
    (fun e t' => turn_error i action w0 e (t_world t')) t ->
  (forall t' env, Mid t' -> Mid (with_env env t')) ->
  (forall t', Mid t' ->
     wp (run_phases sha256 pt custom rest) (fun r t'' => turn_post i action w0 r (t_world t''))
       (fun e t'' => turn_error i action w0 e (t_world t'')) t') ->
  wp (run_phases sha256 pt custom (name :: rest)) (fun r t' => turn_post i action w0 r (t_world t'))
    (fun e t' => turn_error i action w0 e (t_world t')) t.
Proof.
  intros Hphase Henv Hrest. cbn [run_phases]. apply wp_bind. unfold wait_for.
  assert (wp (phase_fn sha256 pt custom name)
    (fun _ t' => wp (c ← get_ctx;
      _ ← hook pt (on_turn_phase (ti_run_id (cx_input_value c))
                  (match cx_action c with Some a => act_action_id a | None => "" end) name);
      c' ← get_ctx;
      match cx_result c' with
      | Some r => mret r
      | None => run_phases sha256 pt custom rest
      end) (fun r t' => turn_post i action w0 r (t_world t'))
           (fun e t' => turn_error i action w0 e (t_world t')) t')
    (fun e t' => turn_error i action w0 e (t_world t')) t) as Hwhole.
  { eapply wp_mono; [exact Hphase| |done].
    intros [] t' Ht'. wp_steps. apply wp_hook.
    - intros env. wp_steps. destruct Ht' as [(r & -> & Hr)|(-> & _ & Hm)]; wp_steps.
      + by eapply turn_post_same.
      + apply Hrest, Henv, Hm.
    - intros e env He. destruct Ht' as [(r & _ & Hr)|(_ & Hu & _)].
      + by eapply turn_error_same; [|eapply turn_post_error].
      + split; [done|]. left. by eapply untouched_same. }
  destruct (pt_phase_timeout pt); [|exact Hwhole].
  revert Hwhole. unfold wp at 1 3. cbv beta.
  destruct (phase_fn sha256 pt custom name t) as [[a|e] t']; [done|].
  intros [He Hw]. destruct e; try by split.
  destruct (pt_expired pt _); [split; [by apply fp_timeout|done]|by split].
Qed.

(** Where a running turn is after each phase. *)
Definition chosen (action : option Action) (a : Action) : Prop := forall a', action = Some a' -> a' = a.

Definition mid_reasoning i action w0 (t : tst) : Prop :=
  same_effects w0 (t_world t) /\ exists a b, after_reasoning i (t_ctx t) a b /\ chosen action a.
Definition mid_snapshot i action w0 (t : tst) : Prop :=
  same_effects w0 (t_world t) /\ exists a b s, after_snapshot i (t_ctx t) a s b /\ chosen action a.
Definition mid_admission i action w0 (t : tst) : Prop :=
  same_effects w0 (t_world t) /\ exists a b s, after_admission i (t_ctx t) a s b /\ chosen action a.
Definition mid_policy i action w0 (t : tst) : Prop :=
  same_effects w0 (t_world t) /\ exists a b s, after_policy i (t_ctx t) a s b /\ chosen action a.
Definition mid_dedupe i action w0 (t : tst) : Prop :=
  untouched w0 (t_world t) /\
  exists a b s, after_dedupe w0 i t a s b /\ chosen action a.

Lemma same_effects_frame (w0 : wld) (t t' : tst) :
  same_effects w0 (t_world t) -> frame t t' -> same_effects w0 (t_world t').
Proof. intros (Hs & Hc & Ho) (Hs' & Hc' & Ho'). split_and!; congruence. Qed.

Lemma ended_post i action w0 kind t : ended kind (t_ctx t) ->
  kind = out_noop \/ kind = out_blocked -> untouched w0 (t_world t) ->
  exists r, cx_result (t_ctx t) = Some r /\ turn_post i action w0 r (t_world t).
Proof.
  intros (r & Hr & <- & Hp) Hk Hu. exists r. split; [done|]. split; [done|].
  by destruct Hk as [-> | ->].
Qed.

(** What the first four phases have in common: they leave the world alone. *)
Lemma wp_early_phase custom name rest i action w0 kind (Mid : tst -> Prop) t :
  ds_wf (w_store w0) -> same_effects w0 (t_world t) -> kind = out_noop \/ kind = out_blocked ->
  wp (phase_fn sha256 pt custom name)
    (fun _ t' => frame t t' /\ (ended kind (t_ctx t') \/ cx_result (t_ctx t') = None /\ Mid t'))
    (fun e t' => frame t t' /\ from_port e) t ->
  (forall t' env, Mid t' -> Mid (with_env env t')) ->
  (forall t', Mid t' ->
     wp (run_phases sha256 pt custom rest) (fun r t'' => turn_post i action w0 r (t_world t''))
       (fun e t'' => turn_error i action w0 e (t_world t'')) t') ->
  wp (run_phases sha256 pt custom (name :: rest)) (fun r t' => turn_post i action w0 r (t_world t'))
    (fun e t' => turn_error i action w0 e (t_world t')) t.
Proof.
  intros Hwf Hsame Hk Hphase Henv Hrest. eapply (wp_turn_phase _ _ _ _ _ _ Mid); [|done..].
  eapply wp_mono; [exact Hphase| |].
  - intros [] t' [Hf Ht']. assert (untouched w0 (t_world t')) as Hu.
    { eapply same_effects_untouched; [done|]. by eapply same_effects_frame. }
    destruct Ht' as [Hend|[Hn Hm]]; [left|by right]. by eapply ended_post.
  - intros e t' [Hf He]. split; [done|]. left.
    eapply same_effects_untouched; [done|]. by eapply same_effects_frame.
Qed.

Lemma executed_called i action w0 t a s b P sts t' :
  after_dedupe w0 i t a s b -> untouched w0 (t_world t) -> chosen action a ->
  executed i t a s P sts t' ->
  exists c, called_once i action w0 (t_world t') sts c /\ ec_key c = turn_key i a s /\ P c /\
    w_calls (t_world t') = w_calls w0 ++ [c].
Proof.
  intros [] (_ & Hc0 & Hm0) Hch (Hwf & Hm & Hslot & c & Hc & (Hkey & Hact & Hdeg) & HP).
  exists c. rewrite Hc0 in Hc. split; [|by split_and!].
  split_and!; [done|by eapply moved_trans|done| | |by rewrite Hact| |].
  - exists s. by rewrite Hkey, Hact.
  - intros a' Ha'. rewrite Hact. by apply Hch.
  - rewrite Hact. eapply legacy_taken_le; [by apply moved_le|done].
  - rewrite Hdeg, Hkey, Hact. destruct (cx_dedupe_available (t_ctx t)); simpl in *; [|done].
    destruct ad_slot0 as (Hn & Hsole & Hslot0). split_and!; [done| |done].
    eapply sole_taken; [exact Hsole|by apply Hslot0|done].
Qed.

(** A dedupe phase that began where the turn did. *)
Lemma after_dedupe_same w0 w i t a s b :
  same_effects w0 w -> after_dedupe w i t a s b -> after_dedupe w0 i t a s b.
Proof.
  intros (Hs & Hc & Ho) []. assert (view w = view w0) as Hv by (unfold view; by rewrite Hs).
  unfold sole in *. rewrite Hv, Ho in *. by split.
Qed.

Abbreviation run_from names i action w0 := (fun t =>
  wp (run_phases sha256 pt (fun _ => None) names) (fun r t'' => turn_post i action w0 r (t_world t''))
    (fun e t'' => turn_error i action w0 e (t_world t'')) t).

Lemma run_from_execute i action w0 t :
  mid_dedupe i action w0 t -> run_from ["_phase_execute"] i action w0 t.
Proof.
  intros [Hu (a & b & s & Had & Hch)]. eapply (wp_turn_phase _ _ _ _ _ _ (fun _ => False)); [|done..].
  eapply wp_mono; [eapply wp_phase_execute; [exact Had|apply Hu]| |].
  - intros [] t' [[He (r & Hr & Hk & Hp & Hd)]|[He (r & Hr & Hk & Hp & Hd)]]; left; exists r;
      (split; [done|]); unfold turn_post; rewrite Hk; (split; [done|]);
      destruct (executed_called _ _ _ _ _ _ _ _ _ _ Had Hu Hch He) as (c & Hc & Hkey & Hans & _);
      exists c; by rewrite Hkey.
  - intros e t' (Hp & He & Hraise). split; [done|]. right.
    destruct (executed_called _ _ _ _ _ _ _ _ _ _ Had Hu Hch He) as (c & Hc & _ & _ & Hcs). exists c.
    split; [done|]. intros Hun Hr.
    destruct (executed_called _ _ _ _ _ _ _ _ _ _ Had Hu Hch (Hraise Hun Hr)) as (c' & Hc' & _ & _ & Hcs').
    rewrite Hcs in Hcs'. by simplify_list_eq.
Qed.

Lemma run_from_dedupe i action w0 t :
  ds_wf (w_store w0) -> mid_policy i action w0 t ->
  run_from ["_phase_dedupe"; "_phase_execute"] i action w0 t.
Proof.
  intros Hwf [Hsame (a & b & s & Hap & Hch)].
  pose proof (same_effects_untouched _ _ Hwf Hsame) as Hut.
  assert (forall t' : tst, untouched (t_world t) (t_world t') -> untouched w0 (t_world t')) as Hu.
  { intros t'. by apply untouched_trans. }
  eapply (wp_turn_phase _ _ _ _ _ _ (mid_dedupe i action w0)).
  - eapply wp_mono; [eapply wp_phase_dedupe; [exact Hap|apply Hut]| |].
    + intros [] t' [Hit [Hend|Had]]; [left|right].
      * eapply ended_post; [exact Hend|by right|auto].
      * split; [by destruct Had|]. split; [auto|]. split; [auto|].
        exists a, b, s. split; [by eapply after_dedupe_same|done].
    + intros e t' [Hit He]. split; [done|]. left. auto.
  - intros t' env [Hu' (a' & b' & s' & [] & ?)]. split; [exact Hu'|].
    exists a', b', s'. split; [|done]. by split.
  - apply run_from_execute.
Qed.

Lemma run_from_policy i action w0 t :
  ds_wf (w_store w0) -> mid_admission i action w0 t ->
  run_from ["_phase_dispatch_policy"; "_phase_dedupe"; "_phase_execute"] i action w0 t.
Proof.
  intros Hwf [Hsame (a & b & s & Haa & Hch)].
  eapply (wp_early_phase _ _ _ _ _ _ out_blocked (mid_policy i action w0));
    [done|done|by right| |done|intros t'; by apply run_from_dedupe].
  eapply wp_mono; [eapply wp_phase_policy; exact Haa| |done].
  intros [] t' [Hf [Hend|Hm]]; (split; [done|]); [by left|right].
  split; [by destruct Hm as [[] _]|]. split; [by eapply same_effects_frame|eauto].
Qed.

Lemma run_from_admission i action w0 t :
  ds_wf (w_store w0) -> mid_snapshot i action w0 t ->
  run_from ["_phase_admission"; "_phase_dispatch_policy"; "_phase_dedupe"; "_phase_execute"] i action w0 t.
Proof.
  intros Hwf [Hsame (a & b & s & Haa & Hch)].
  eapply (wp_early_phase _ _ _ _ _ _ out_blocked (mid_admission i action w0));
    [done|done|by right| |done|intros t'; by apply run_from_policy].
  eapply wp_mono; [eapply wp_phase_admission; exact Haa| |done].
  intros [] t' [Hf [Hend|Hm]]; (split; [done|]); [by left|right].
  split; [by destruct Hm|]. split; [by eapply same_effects_frame|eauto].
Qed.

Lemma run_from_snapshot i action w0 t :
  ds_wf (w_store w0) -> mid_reasoning i action w0 t -> run_from (drop 1 _TURN_PHASES) i action w0 t.
Proof.
  intros Hwf [Hsame (a & b & Haa & Hch)].
  eapply (wp_early_phase _ _ _ _ _ _ out_noop (mid_snapshot i action w0));
    [done|done|by left| |done|intros t'; by apply run_from_admission].
  eapply wp_mono; [eapply wp_phase_snapshot; exact Haa| |done].
  intros [] t' [Hf [Hend|[s Hm]]]; (split; [done|]); [by left|right].
  split; [by destruct Hm|]. split; [by eapply same_effects_frame|eauto].
Qed.

(** The specification of a turn. *)
Lemma wp_run_turn i action (w : wld) :
  ds_wf (w_store w) ->
  wp (run_turn sha256 pt i action) (turn_post i action w) (turn_error i action w) w.
Proof.
  intros Hwf. unfold run_turn, run_turn_with, wp at 1.
  assert (run_from _TURN_PHASES i action w (mkT (initial_ctx i action) w)) as Hrun.
  { eapply (wp_early_phase _ _ _ _ _ _ out_noop (mid_reasoning i action w));
      [done|done|by left| |done|intros t'; by apply run_from_snapshot].
    eapply wp_mono; [by eapply wp_phase_reasoning| |done].
    intros [] t' [Hf [Hend|(a & b & Hm & Hch)]]; (split; [done|]); [by left|right].
    split; [by destruct Hm|]. split; [by eapply same_effects_frame|]. exists a, b. split; [done|exact Hch]. }
  revert Hrun. unfold wp. by destruct (run_phases _ _ _ _ _) as [[r|e] t'].
Qed.
End safety.
