(* ===== verification/TurnProperties.v ===== *)
(** * Properties of turns

    What [TurnSafety] gives the callers of [TurnEngine.run_turn]: the outcome
    of one turn, at most one granted execution per key over any sequence of
    turns by any engines that share a ledger with others, at most one execution
    per action and offset of a sequence of turns when the ledger is never down,
    the phase registry, and three behaviours worth knowing (a cancelled
    executor, ambiguous historical keys, a race through their check). *)

From stdpp Require Import base tactics option list sets strings gmap pretty.
From Stdlib Require Import ZArith.
From S2P Require Import Prelude PyStr PyDict PyVal Contracts DedupeStore Snapshot DispatchPolicy.
From S2P Require Import TurnEngine TurnSafety.

(** A request to an engine: its services, the turn, the action. *)
Definition turn_request (E : Type) : Type := ports E * TurnInput * option Action.

(** Turns one after the other on a shared world, whatever each gives. *)
Fixpoint run_turns {S} `{!DedupeStorePort S} {E} (sha256 : string -> string)
    (l : list (turn_request E)) (w : world S E) : world S E :=
  match l with
  | [] => w
  | (pt, i, action) :: l' => run_turns sha256 l' (run_turn sha256 pt i action w).2
  end.

(** The granted calls under a key. *)
Definition calls_for (k : string) (cs : list exec_call) : nat :=
  length (filter (fun c => ec_degraded c = false /\ ec_key c = k) cs).

(** Examples ***********************************************************************)

(** Services with a real snapshot builder; the executor and what others do to the
    ledger are given. The identity stands for the hash function. *)
Definition example_services {E} (others : E -> list ledger_cmd * E) (phase_timeout : option Z)
    (execute : outcome (odict string pyval)) : ports E :=
  mkPorts E (fun input => py_lift (build (fun s => s) "2026-01-01T00:00:00Z" input))
    (fun _ _ => mret (AdmBool true)) (fun _ _ _ _ => py_lift execute) false None false None None
    phase_timeout (fun _ => true) (mkDefaults "echo" "policy:default" "strict") (mret "2026-01-01T00:00:01Z") others.

(** A turn nobody interferes with. *)
Definition example_ports : option Z -> outcome (odict string pyval) -> ports unit :=
  example_services (fun e => ([], e)).

Definition example_turn (run_id : string) (offset : Z) : TurnInput :=
  mkTurnInput run_id offset offset trig_start [].

Definition example_action (action_id : string) : Action :=
  mkAction action_id "run-1" "tool_call" COMPENSATABLE_WRITE None None None
    (Some [("tool", PStr "write")]) [] None None.

Definition empty_world : world InMemory.store unit := mkWorld [] tt [] [].

Lemma empty_world_wf : ds_wf (w_store empty_world).
Proof. exact (NoDup_nil_2 (A:=string)). Qed.

Definition acked : outcome (odict string pyval) := Ret [("acknowledged", PBool true)].

Section properties.
Context {S : Type} `{DedupeStoreLaws S} {E : Type}.
Context (sha256 : string -> string).

(** From [w] to [w'] there were the calls [cs] and others got the answers [os]:
    no key was granted twice, whoever asked, and a key without a record to nobody. *)
Record advanced (w w' : world S E) (cs : list exec_call) (os : answers) : Prop := {
  av_wf : ds_wf (w_store w');
  av_calls : w_calls w' = w_calls w ++ cs;
  av_others : w_others w' = w_others w ++ os;
  av_le : ledger_le (view w) (view w');
  av_once : forall k, calls_for k cs + grants_for k os <= match view w !! k with None => 1 | Some _ => 0 end;
  av_free : forall k, view w' !! k = None -> calls_for k cs + grants_for k os = 0;
  av_degraded : forall c, c ∈ cs -> ec_degraded c = true -> act_effect_class (ec_action c) = IDEMPOTENT_WRITE
}.

Lemma calls_for_app k cs cs' : calls_for k (cs ++ cs') = calls_for k cs + calls_for k cs'.
Proof. unfold calls_for. by rewrite filter_app, length_app. Qed.

Lemma advanced_trans w w1 w2 cs cs' os os' :
  advanced w w1 cs os -> advanced w1 w2 cs' os' -> advanced w w2 (cs ++ cs') (os ++ os').
Proof.
  intros [Hwf Hc Ho Hle Hon Hfr Hd] [Hwf' Hc' Ho' Hle' Hon' Hfr' Hd'].
  split; [done|by rewrite Hc', Hc, app_assoc|by rewrite Ho', Ho, app_assoc|by etrans|..].
  - intros k. rewrite calls_for_app, grants_for_app. specialize (Hon k). specialize (Hon' k).
    destruct (view w !! k) eqn:Hk, (view w1 !! k) eqn:Hk1; [lia| |lia|].
    + by rewrite (ledger_le_none _ _ _ Hle Hk1) in Hk.
    + specialize (Hfr k Hk1). lia.
  - intros k Hk. rewrite calls_for_app, grants_for_app. specialize (Hfr' k Hk).
    specialize (Hfr k (ledger_le_none _ _ _ Hle' Hk)). lia.
  - intros c [Hc1|Hc1]%elem_of_app; auto.
Qed.

Lemma untouched_advanced (w w' : world S E) : untouched w w' -> exists os, advanced w w' [] os.
Proof.
  intros (Hwf & Hc & os & Ho & [Hle Hon Hfr]). exists os. split; try done; [by rewrite app_nil_r|].
  by intros c ?%elem_of_nil.
Qed.

Lemma called_advanced (pt : ports E) i action (w w' : world S E) sts c :
  called_once sha256 pt i action w w' sts c -> exists os, advanced w w' [c] os.
Proof.
  intros (Hwf & (os & Ho & [Hle Hon Hfr]) & Hc & _ & _ & _ & _ & Hd). exists os.
  assert (forall k, (ec_degraded c = false /\ ec_key c = k) \/ calls_for k [c] = 0) as Hcase.
  { intros k. unfold calls_for. rewrite filter_cons, filter_nil. case_decide; auto. }
  assert (forall k, calls_for k [c] <= 1) as Hmax.
  { intros k. unfold calls_for. rewrite filter_cons, filter_nil. case_decide; simpl; lia. }
  split; [done|done|done|done| | |].
  - intros k. specialize (Hmax k). destruct (Hcase k) as [[Hdeg <-]|Hz]; [|rewrite Hz; apply Hon].
    rewrite Hdeg in Hd. destruct Hd as (Hn & (os' & Ho' & Hg) & _).
    rewrite Ho in Ho'. simplify_list_eq. rewrite Hg, Hn. lia.
  - intros k Hk. destruct (Hcase k) as [[Hdeg <-]|Hz]; [|rewrite Hz; by apply Hfr].
    rewrite Hdeg in Hd. destruct Hd as (_ & _ & Hslot). destruct (Hslot eq_refl) as [[r Hr] _]. congruence.
  - intros c' ->%list_elem_of_singleton Hdeg. by rewrite Hdeg in Hd.
Qed.

Lemma run_turn_advanced (pt : ports E) i action (w : world S E) :
  ds_wf (w_store w) -> exists cs os, advanced w (run_turn sha256 pt i action w).2 cs os.
Proof.
  intros Hwf. pose proof (wp_run _ _ _ _ (wp_run_turn sha256 pt i action w Hwf)) as Hw.
  destruct (run_turn sha256 pt i action w) as [[r|e] w']; simpl in *.
  - destruct Hw as [_ Hk]. destruct (tr_outcome_kind r);
      [exists []; by apply untouched_advanced|exists []; by apply untouched_advanced|..];
      destruct Hk as (c & Hc & _); exists [c]; by eapply called_advanced.
  - destruct Hw as [_ [Hu|(c & Hc & _)]]; [exists []; by apply untouched_advanced|].
    exists [c]. by eapply called_advanced.
Qed.

Lemma run_turns_advanced l : forall w : world S E, ds_wf (w_store w) ->
  exists cs os, advanced w (run_turns sha256 l w) cs os.
Proof.
  induction l as [|[[pt i] action] l IH]; intros w Hwf.
  - exists [], []. split; try done; [by rewrite app_nil_r..| |by intros c ?%elem_of_nil].
    intros k. unfold calls_for, grants_for. simpl. lia.
  - simpl. destruct (run_turn_advanced pt i action w Hwf) as (cs & os & Hav).
    destruct (IH _ (av_wf _ _ _ _ Hav)) as (cs' & os' & Hav').
    exists (cs ++ cs'), (os ++ os'). by eapply advanced_trans.
Qed.

Definition never_unavailable : Prop := forall e, ~ ds_unavailable e.

(** A call is preceded by no record of the historical key and leaves one. *)
Lemma turn_call_legacy (pt : ports E) i action (w : world S E) c :
  ds_wf (w_store w) -> never_unavailable ->
  let w' := (run_turn sha256 pt i action w).2 in
  w_calls w' = w_calls w ++ [c] ->
  let k := _legacy_dispatch_dedupe_key (ti_run_id i) (act_action_id (ec_action c)) (ti_based_on_offset i) in
  view w !! k = None /\ is_Some (view w' !! k).
Proof.
  intros Hwf Hun w' Hc k. pose proof (wp_run _ _ _ _ (wp_run_turn sha256 pt i action w Hwf)) as Hw.
  fold w' in Hw.
  assert (forall sts c', called_once sha256 pt i action w w' sts c' ->
    view w !! k = None /\ is_Some (view w' !! k)) as Hcall.
  { intros sts c' (_ & _ & Hc' & _ & _ & Hfree & Htaken & _). rewrite Hc in Hc'. simplify_list_eq.
    split; [by apply Hfree|by apply Htaken]. }
  assert (~ untouched w w') as Hnot.
  { intros (_ & Hc' & _). rewrite Hc in Hc'. apply (f_equal length) in Hc'.
    rewrite length_app in Hc'. simpl in Hc'. lia. }
  destruct (run_turn sha256 pt i action w).1 as [r|e].
  - destruct Hw as [_ Hk]. destruct (tr_outcome_kind r); [done|done|..];
      destruct Hk as (c' & Hc' & _); by eapply Hcall.
  - destruct Hw as [_ [Hu|(c' & Hc' & _)]]; [done|by eapply Hcall].
Qed.


(** C2: Over any sequence of turns, by engines of any configuration sharing one
    ledger with other turns and processes that use it between any two operations
    of a turn, no dispatch key is granted twice: the granted executor calls of
    these turns under a key and the grants of that key to others are one at most,
    and none if the key had a record.  An ungranted call is one of an idempotent
    write, made when the ledger was down. *)
Theorem turns_single_grant (l : list (turn_request E)) (w : world S E) :
  ds_wf (w_store w) ->
  exists cs os,
    w_calls (run_turns sha256 l w) = w_calls w ++ cs /\ w_others (run_turns sha256 l w) = w_others w ++ os /\
    (forall k, calls_for k cs + grants_for k os <= match view w !! k with None => 1 | Some _ => 0 end) /\
    forall c, c ∈ cs -> ec_degraded c = true -> act_effect_class (ec_action c) = IDEMPOTENT_WRITE.
Proof. intros Hwf. destruct (run_turns_advanced l w Hwf) as (cs & os & []). by exists cs, os. Qed.

(** C23: While the ledger is never down, turns that follow one another execute an action
    id at most once per run and offset, whatever turns and whatever others do to the
    ledger in between, and even when the payload or the snapshot (hence the dispatch key)
    changed: the historical key blocks it.  Of turns that overlap this is not so
    ([legacy_check_race]). *)
Theorem action_offset_once (pt pt' : ports E) (i i' : TurnInput) (action action' : option Action)
    (l : list (turn_request E)) (w : world S E) (c c' : exec_call) :
  ds_wf (w_store w) -> never_unavailable ->
  ti_run_id i' = ti_run_id i -> ti_based_on_offset i' = ti_based_on_offset i ->
  let w1 := (run_turn sha256 pt i action w).2 in
  let w2 := run_turns sha256 l w1 in
  w_calls w1 = w_calls w ++ [c] ->
  w_calls (run_turn sha256 pt' i' action' w2).2 = w_calls w2 ++ [c'] ->
  act_action_id (ec_action c') <> act_action_id (ec_action c).
Proof.
  intros Hwf Hun Hr Ho w1 w2 Hc Hc' Heq.
  destruct (turn_call_legacy pt i action w c Hwf Hun Hc) as [_ Hsome].
  destruct (run_turn_advanced pt i action w Hwf) as (? & ? & Hav1).
  destruct (run_turns_advanced l w1 (av_wf _ _ _ _ Hav1)) as (? & ? & [Hwf2 _ _ Hle _ _ _]).
  destruct (turn_call_legacy pt' i' action' w2 c' Hwf2 Hun Hc') as [Hnone _].
  rewrite Hr, Ho, Heq in Hnone. pose proof (ledger_le_some _ _ _ Hle Hsome) as [r Hr'].
  fold w2 in Hr'. congruence.
Qed.

(** When the executor always raises (an [Exception]) and the ledger is not
    down, a turn that reached the executor raises, and the key it was granted is
    recorded as unknown effect, not left as dispatched (if nobody else marks it). *)
Theorem executor_exception_unknown_effect (pt : ports E) (i : TurnInput) (action : option Action)
    (w : world S E) :
  ds_wf (w_store w) -> never_unavailable -> executor_raises pt ->
  let '(r, w') := run_turn sha256 pt i action w in
  w_calls w' = w_calls w \/
  exists e c, r = Raise e /\ w_calls w' = w_calls w ++ [c] /\
    (ec_degraded c = false -> undisturbed pt (ec_key c) ->
     exists r', view w' !! ec_key c = Some r' /\ dr_state r' = unknown_effect).
Proof.
  intros Hwf Hun Hraise. pose proof (wp_run _ _ _ _ (wp_run_turn sha256 pt i action w Hwf)) as Hw.
  destruct (run_turn sha256 pt i action w) as [[r|e] w']; simpl in *.
  - destruct Hw as [_ Hk]. destruct (tr_outcome_kind r);
      [by left; destruct Hk as (?&?&?)|by left; destruct Hk as (?&?&?)|..];
      destruct Hk as (c & _ & Hans & _); by destruct (answered_raises _ _ _ Hans Hraise).
  - destruct Hw as [_ [(?&?&?)|(c & _ & Hc)]]; [by left|right].
    destruct (Hc Hun Hraise) as (_ & _ & Hcs & _ & _ & _ & _ & Hd).
    exists e, c. split_and!; [done|done|]. intros Hdeg Hund. rewrite Hdeg in Hd.
    destruct Hd as (_ & _ & Hslot). destruct (Hslot eq_refl) as [_ Hr].
    destruct (Hr Hund) as (r & ? & ?%list_elem_of_singleton). by exists r.
Qed.
End properties.


(** Witnesses and concrete runs ****************************************************)


Definition example_call (i : TurnInput) (a : Action) (w : world InMemory.store unit) : exec_call :=
  default (mkCall "" false a (mkEnvelope "" "" 1 "" "" local_cli None None None) None)
    (last (w_calls (run_turn (fun s => s) (example_ports None acked) i (Some a) w).2)).

(** The envelope another turn reserves a key with. *)
Definition rival_envelope (key : string) : IdempotencyEnvelope :=
  mkEnvelope key "rival" 1 "" "" local_cli None None None.

(** Others run the commands just before the [n]-th ledger operation from now. *)
Definition rivals_at (n : nat) (cs : list ledger_cmd) : nat -> list ledger_cmd * nat :=
  fun now => (if decide (now = n) then cs else [], S now).

Definition contended_world : world InMemory.store nat := mkWorld [] 0 [] [].

(** Another turn takes the key between the first turn's lookup of the historical
    key and its reservation. *)
Definition rival_key : string :=
  ec_key (example_call (example_turn "run-1" 1) (example_action "a") empty_world).

Definition rival_services : ports nat :=
  example_services (rivals_at 1 [CReserveAndDispatch (rival_envelope rival_key) None]) None acked.

Definition example_requests : list (turn_request nat) :=
  [(rival_services, example_turn "run-1" 1, Some (example_action "a"));
   (rival_services, example_turn "run-1" 1, Some (example_action "a"));
   (rival_services, example_turn "run-1" 2, Some (example_action "b"))].

Lemma turns_single_grant_witness :
  let w := run_turns (fun s => s) example_requests contended_world in
  length (w_calls w) = 1 /\ grants_for rival_key (w_others w) = 1 /\
  exists cs os,
    w_calls w = [] ++ cs /\ w_others w = [] ++ os /\
    (forall k, calls_for k cs + grants_for k os <=
       match view contended_world !! k with None => 1 | Some _ => 0 end) /\
    forall c, c ∈ cs -> ec_degraded c = true -> act_effect_class (ec_action c) = IDEMPOTENT_WRITE.
Proof.
  split; [by vm_compute|]. split; [by vm_compute|].
  apply (turns_single_grant (fun s => s) example_requests contended_world). exact empty_world_wf.
Defined.

(** The action of the witness below, with another payload. *)
Definition other_action : Action :=
  mkAction "b" "run-1" "tool_call" COMPENSATABLE_WRITE None None None None [] None None.

Lemma action_offset_once_witness :
  let w1 := (run_turn (fun s => s) (example_ports None acked) (example_turn "run-1" 1)
               (Some (example_action "a")) empty_world).2 in
  act_action_id (ec_action (example_call (example_turn "run-1" 1) other_action w1)) <> "a".
Proof.
  refine (action_offset_once (fun s => s) (example_ports None acked) (example_ports None acked)
    (example_turn "run-1" 1) (example_turn "run-1" 1) (Some (example_action "a")) (Some other_action)
    [] empty_world (example_call (example_turn "run-1" 1) (example_action "a") empty_world)
    (example_call (example_turn "run-1" 1) other_action _) _ _ _ _ _ _);
    [exact empty_world_wf|exact (fun e H => H)|done|done|by vm_compute|by vm_compute].
Defined.

Lemma executor_exception_unknown_effect_witness :
  let pt := example_ports None (Raise (RuntimeError "boom")) in
  let '(r, w') := run_turn (fun s => s) pt (example_turn "run-1" 1) (Some (example_action "a")) empty_world in
  w_calls w' = w_calls empty_world \/
  exists e c, r = Raise e /\ w_calls w' = w_calls empty_world ++ [c] /\
    (ec_degraded c = false -> undisturbed pt (ec_key c) ->
     exists r', view w' !! ec_key c = Some r' /\ dr_state r' = unknown_effect).
Proof.
  apply (executor_exception_unknown_effect (fun s => s) (example_ports None (Raise (RuntimeError "boom")))
    (example_turn "run-1" 1) (Some (example_action "a")) empty_world);
    [exact empty_world_wf|exact (fun e H => H)|]. intros a s v x env. by do 2 eexists.
Defined.

(** A phase timeout that cancels the executor call is not handled as an
    executor failure: the turn ends with [TimeoutError] and the key stays
    dispatched (not unknown effect); retrying the same turn is blocked. *)
Theorem cancelled_executor_stays_dispatched :
  let i := example_turn "run-1" 1 in
  let a := Some (example_action "a") in
  let '(r, w) := run_turn (fun s => s) (example_ports (Some 100%Z) (Raise CancelledError)) i a empty_world in
  r = Raise TimeoutError /\ length (w_calls w) = 1%nat /\
  map (fun kv => dr_state kv.2) (w_store w) = [dispatched; dispatched] /\
  let '(r', w') := run_turn (fun s => s) (example_ports (Some 100%Z) acked) i a w in
  (tr_outcome_kind <$> r') = Ret out_blocked /\ w' = w.
Proof. vm_compute. by split_and!. Qed.

(** The historical key [run:action:offset] is ambiguous: after a turn of the
    child run [run-1:a], a turn of its parent [run-1] for the action [a:1], with a
    free dispatch key of its own, is blocked without a call. *)
Theorem legacy_key_collision :
  let w := (run_turn (fun s => s) (example_ports None acked) (example_turn "run-1:a" 2)
              (Some (example_action "1")) empty_world).2 in
  let '(r, w') := run_turn (fun s => s) (example_ports None acked) (example_turn "run-1" 2)
                    (Some (example_action "a:1")) w in
  (tr_outcome_kind <$> r) = Ret out_blocked /\ w' = w /\
  match r with
  | Ret r' => is_Some (tr_dispatch_dedupe_key r') /\
      (tr_dispatch_dedupe_key r' ≫= fun k => od_get k (w_store w)) = None
  | Raise _ => False
  end.
Proof. vm_compute. split_and!; [done|done|by eexists|done]. Qed.

(** The lookup of the historical key, the reservation and the mirror are three
    ledger operations: when another turn for the same action (with another
    dispatch key) runs its own between the first two, its keys are granted to it
    and this turn, whose mirror is refused, executes the action all the same. *)
Theorem legacy_check_race :
  let legacy := _legacy_dispatch_dedupe_key "run-1" "a" 1 in
  let rival := [CGet legacy; CReserveAndDispatch (rival_envelope "dispatch:rival") None;
                CReserveAndDispatch (rival_envelope legacy) None] in
  let '(r, w) := run_turn (fun s => s) (example_services (rivals_at 1 rival) None acked)
                   (example_turn "run-1" 1) (Some (example_action "a")) contended_world in
  (tr_outcome_kind <$> r) = Ret out_dispatched /\ length (w_calls w) = 1 /\
  grants_for "dispatch:rival" (w_others w) = 1 /\ grants_for legacy (w_others w) = 1.
Proof. vm_compute. by split_and!. Qed.

(** [register_phase] adds a new name at the place asked for (right after or
    right before its anchor, or at the end), keeps the others in order, and
    otherwise raises: [TypeError] for two anchors, [ValueError] for a known name
    or an unknown anchor. *)
Theorem register_phase_spec (cls : string) (phases : list string) (name : string) (after before : option string) :
  match register_phase cls phases name after before with
  | Ret phases' =>
      name ∉ phases /\
      exists l r, phases = l ++ r /\ phases' = l ++ name :: r /\
        match after, before with
        | Some a, None => last l = Some a
        | None, Some b => head r = Some b
        | None, None => r = []
        | Some _, Some _ => False
        end
  | Raise (TypeError _) => is_Some after /\ is_Some before
  | Raise (ValueError _) =>
      name ∈ phases \/ (exists a, after = Some a /\ a ∉ phases) \/ (exists b, before = Some b /\ b ∉ phases)
  | Raise _ => False
  end.
Proof.
  unfold register_phase. destruct after as [a|], before as [b|]; simpl; [by split; eexists| | |].
  - case_decide as Hin; [by left|]. destruct (list_find _ phases) as [[idx x]|] eqn:Hf.
    + apply list_find_Some in Hf as (Hx & -> & _). split; [done|].
      exists (take (S idx) phases), (drop (S idx) phases). split_and!; [by rewrite take_drop|done|].
      erewrite take_S_r by exact Hx. by rewrite last_snoc.
    + right; left. exists a. split; [done|]. apply list_find_None in Hf. rewrite Forall_forall in Hf. naive_solver.
  - case_decide as Hin; [by left|]. destruct (list_find _ phases) as [[idx x]|] eqn:Hf.
    + apply list_find_Some in Hf as (Hx & -> & _). split; [done|].
      exists (take idx phases), (drop idx phases). split_and!; [by rewrite take_drop|done|].
      by erewrite drop_S by exact Hx.
    + right; right. exists b. split; [done|]. apply list_find_None in Hf. rewrite Forall_forall in Hf. naive_solver.
  - case_decide as Hin; [by left|]. split; [done|]. exists phases, []. by rewrite app_nil_r.
Qed.
