(* ===== verification/Compensation.v ===== *)
(** * Compensation registry
      ([agent_kernel/kernel/recovery/compensation_registry.py])

    Handlers that undo the effect of a failed action, by effect class, executed
    under an idempotency key of their own in the dispatch ledger.  Handlers, the
    sleep between attempts and the jitter are the environment: they may do
    anything to it and raise anything.  A call to a handler is recorded in a
    ghost trace under its key. *)

From stdpp Require Import base tactics option list sets strings gmap sorting pretty.
From Stdlib Require Import ZArith.
From S2P Require Import Prelude PyStr PyDict PyVal Contracts DedupeStore Snapshot.
#[local] Arguments String.append : simpl nomatch.

Record CompensationEntry (E : Type) := mkCompensationEntry {
  ce_effect_class : string;
  ce_compensate : Action -> PyM E unit;
  ce_description : string;
  ce_timeout_ms : Z;
  ce_max_attempts : Z;
  ce_backoff_base_ms : Z
}.
Arguments mkCompensationEntry {E}. Arguments ce_effect_class {E}. Arguments ce_compensate {E}.
Arguments ce_description {E}. Arguments ce_timeout_ms {E}. Arguments ce_max_attempts {E}.
Arguments ce_backoff_base_ms {E}.

(** [self._entries] *)
Abbreviation registry E := (odict string (CompensationEntry E)).

(** [isinstance(e, TimeoutError)] *)
Definition is_timeout (e : exn) : bool :=
  match e with TimeoutError | CompensationTimeoutError _ => true | _ => false end.

Definition is_transient (e : exn) : bool :=
  match e with TransientCompensationError _ => true | _ => false end.

Definition register {E} (effect_class : string) (compensate : Action -> PyM E unit)
    (description : string) (timeout_ms max_attempts backoff_base_ms : Z) (r : registry E) : registry E :=
  od_set effect_class
    (mkCompensationEntry effect_class compensate description timeout_ms max_attempts backoff_base_ms) r.

Definition lookup {E} (effect_class : string) (r : registry E) : option (CompensationEntry E) :=
  od_get effect_class r.

Definition has_handler {E} (effect_class : string) (r : registry E) : bool := od_mem effect_class r.

Definition registered_effect_classes {E} (r : registry E) : list string := sorted_set (od_keys r).

(** [_retry_delay_seconds], in milliseconds. *)
Definition _retry_delay (base_ms attempt jitter : Z) : Z :=
  Z.max base_ms 1 * 2 ^ (Z.max (attempt - 1) 0) + jitter.

Section execution.
Context {S : Type} `{!DedupeStorePort S} {E : Type}.
(** The registered handlers, [random.randint(0, 100)], [asyncio.sleep]. *)
Context (entries : registry E) (randint : PyM E Z) (sleep : Z -> PyM E unit).

(** The ledger, the environment, the keys of the handler calls made. *)
Record cworld := mkCW { cw_store : S; cw_env : E; cw_attempts : list string }.

Definition on_store {A} (m : PyM S A) : PyM cworld A :=
  py_zoom cw_store (fun s w => mkCW s (cw_env w) (cw_attempts w)) m.
Definition on_env {A} (m : PyM E A) : PyM cworld A :=
  py_zoom cw_env (fun e w => mkCW (cw_store w) e (cw_attempts w)) m.

Definition compensation_key (a : Action) : string :=
  generate_compensation_key (effect_str (act_effect_class a)) (act_action_id a).

Definition compensation_envelope (a : Action) : IdempotencyEnvelope :=
  mkEnvelope (compensation_key a) (compensation_key a) 1 (effect_str (act_effect_class a))
    "compensation" local_process None None None.

(** [await asyncio.wait_for(entry.compensate(action), ...)]: a timeout is the
    awaited call ending with [TimeoutError]. *)
Definition call_handler (entry : CompensationEntry E) (a : Action) : PyM cworld unit :=
  _ ← py_modify (fun w => mkCW (cw_store w) (cw_env w) (cw_attempts w ++ [compensation_key a]));
  on_env (ce_compensate entry a).

(** The [while] loop: at most [left] more rounds; whether it returned. *)
Fixpoint attempts (entry : CompensationEntry E) (a : Action) (with_store : bool) (left : nat)
    (attempt : Z) : PyM cworld bool :=
  match left with
  | O => mret false
  | Datatypes.S left' =>
      let attempt' := (attempt + 1)%Z in
      caught ← py_catch
        (_ ← call_handler entry a;
         if with_store then on_store (ds_mark_acknowledged (compensation_key a) None) else mret tt);
      match (caught : unit + exn) with
      | inl _ => mret true
      | inr e =>
          if is_timeout e || is_transient e then
            if (ce_max_attempts entry <=? attempt')%Z then mret false
            else
              jitter ← on_env randint;
              _ ← on_env (sleep (_retry_delay (ce_backoff_base_ms entry) attempt' jitter));
              attempts entry a with_store left' attempt'
          else mret false
      end
  end.

Definition exhausted (entry : CompensationEntry E) (a : Action) : exn :=
  CompensationExhaustedError ("compensation attempts exhausted effect_class=" +:+
    effect_str (act_effect_class a) +:+ " action_id=" +:+ act_action_id a +:+ " attempts=" +:+
    pretty (ce_max_attempts entry)).

Definition execute (a : Action) (with_store raise_on_failure : bool) : PyM cworld bool :=
  match od_get (effect_str (act_effect_class a)) entries with
  | None => mret false
  | Some entry =>
      reserved_slot ←
        (if with_store then
           reservation ← on_store (ds_reserve (compensation_envelope a));
           if negb (rv_accepted reservation) then mret false
           else _ ← on_store (ds_mark_dispatched (compensation_key a) None); mret true
         else mret true);
      if negb reserved_slot then mret true
      else
        compensated ← attempts entry a with_store (Z.to_nat (Z.max (ce_max_attempts entry) 1)) 0;
        if (compensated : bool) then mret true
        else
          _ ← (if with_store then py_suppress (on_store (ds_mark_unknown_effect (compensation_key a)))
               else mret tt);
          if raise_on_failure then py_raise (exhausted entry a) else mret false
  end.
End execution.
Arguments cworld S E : clear implicits.
Arguments mkCW {S E}. Arguments cw_store {S E}. Arguments cw_env {S E}. Arguments cw_attempts {S E}.

(** Lemmas *************************************************************************)

Section lawful_compensation.
Context {S : Type} `{DedupeStoreLaws S} {E : Type}.
Context (entries : registry E) (randint : PyM E Z) (sleep : Z -> PyM E unit).
Implicit Types w : cworld S E.

Definition cview w : ledger := ds_view (cw_store w).

(** The number of handler calls an entry allows. *)
Definition max_calls (entry : CompensationEntry E) : nat := Z.to_nat (Z.max (ce_max_attempts entry) 1).

(** From [w] to [w'] the handler was called [n] times under the key; in the
    ledger the record of the key is in one of the states. *)
Definition called (with_store : bool) (k : string) (n : nat) (sts : list DedupeState) w w' : Prop :=
  ds_wf (cw_store w') /\ ledger_le (cview w) (cview w') /\
  cw_attempts w' = cw_attempts w ++ replicate n k /\
  (with_store = true -> exists r, cview w' !! k = Some r /\ dr_state r ∈ sts).

(** Marking a dispatched record. *)
Lemma wp_on_store_mark (m : PyM S unit) target p ack k w (Q : unit -> cworld S E -> Prop)
    (R : exn -> cworld S E -> Prop) r :
  implements ds_view ds_wf ds_unavailable m (LedgerSpec.mark target p ack k) ->
  ds_wf (cw_store w) -> cview w !! k = Some r -> may_mark target (dr_state r) = true ->
  (forall s r', ds_wf s -> ledger_le (cview w) (ds_view s) -> ds_view s !! k = Some r' ->
     dr_state r' = target -> Q tt (mkCW s (cw_env w) (cw_attempts w))) ->
  (forall s e, ds_wf s -> ds_view s = cview w -> ds_unavailable e ->
     R e (mkCW s (cw_env w) (cw_attempts w))) ->
  wp (on_store m) Q R w.
Proof.
  intros Hm Hwf Hk Hmay HQ HR. unfold on_store. apply wp_zoom.
  eapply wp_mono; [eapply wp_implements; [exact Hm|exact Hwf]| |]; simpl.
  - intros [] s [Hs Heq].
    assert (ds_view s = (LedgerSpec.mark target p ack k (cview w)).2) as Hv.
    { unfold cview. by rewrite Heq. }
    assert (ledger_le (cview w) (ds_view s)) as Hle by (rewrite Hv; apply mark_le).
    unfold LedgerSpec.mark in Hv. rewrite Hk, Hmay in Hv. cbn [snd] in Hv.
    eapply HQ; [done|done|by rewrite Hv, lookup_insert_eq|done].
  - intros e s [Hs [Heq|[Hu Hv]]]; [|by apply HR].
    unfold LedgerSpec.mark in Heq. unfold cview in Hk. rewrite Hk, Hmay in Heq. done.
Qed.

Lemma called_trans ws k n m sts sts' w w' w'' :
  called ws k n sts w w' -> called ws k m sts' w' w'' -> called ws k (n + m) sts' w w''.
Proof.
  intros (_ & Hle & Hat & _) (Hwf & Hle' & Hat' & Hs). split_and!; [done|by etrans| |done].
  by rewrite Hat', Hat, replicate_add, app_assoc.
Qed.

(** The slot of a running compensation. *)
Definition slot_dispatched (with_store : bool) (k : string) w : Prop :=
  with_store = true -> exists r, cview w !! k = Some r /\ dr_state r = dispatched.

Lemma called_slot ws k n w w' : called ws k n [dispatched] w w' -> slot_dispatched ws k w'.
Proof.
  intros (_ & _ & _ & Hs) Hw. destruct (Hs Hw) as (r & ? & Hd%list_elem_of_singleton). by exists r.
Qed.

(** One call of the handler. *)
Lemma wp_call_handler entry a ws w (Q : unit -> cworld S E -> Prop) R :
  ds_wf (cw_store w) -> slot_dispatched ws (compensation_key a) w ->
  (forall w', called ws (compensation_key a) 1 [dispatched] w w' -> Q tt w') ->
  (forall e w', called ws (compensation_key a) 1 [dispatched] w w' -> R e w') ->
  wp (call_handler entry a) Q R w.
Proof.
  intros Hwf Hslot HQ HR.
  assert (forall env, called ws (compensation_key a) 1 [dispatched] w
    (mkCW (cw_store w) env (cw_attempts w ++ [compensation_key a]))) as Hone.
  { intros env. split_and!; [done|done|done|]. intros Hw.
    destruct (Hslot Hw) as (r & ? & ?). exists r. set_solver. }
  unfold call_handler. apply wp_bind, wp_modify. unfold on_env. apply wp_zoom, wp_any; simpl.
  - intros [] env _. apply HQ, Hone.
  - intros e env _. apply HR, Hone.
Qed.

(** The acknowledgement after it. *)
Lemma wp_ack a ws w (Q : unit -> cworld S E -> Prop) R :
  ds_wf (cw_store w) -> slot_dispatched ws (compensation_key a) w ->
  (forall w', called ws (compensation_key a) 0 [acknowledged] w w' -> Q tt w') ->
  (forall e w', called ws (compensation_key a) 0 [dispatched] w w' -> R e w') ->
  wp (if ws then on_store (ds_mark_acknowledged (compensation_key a) None) else mret tt) Q R w.
Proof.
  intros Hwf Hslot HQ HR. destruct ws.
  - destruct (Hslot eq_refl) as (r & Hr & Hd).
    eapply wp_on_store_mark; [apply ds_mark_acknowledged_law|done|exact Hr|by rewrite Hd| |].
    + intros s r' Hs Hle Hr' Hd'. apply HQ. split_and!; [done|done|by rewrite app_nil_r|].
      intros _. exists r'. by rewrite Hd', list_elem_of_singleton.
    + intros s e Hs Hv _. apply HR. unfold called, cview in *. simpl.
      rewrite Hv. split_and!; [done|done|by rewrite app_nil_r|].
      intros _. exists r. by rewrite Hd, list_elem_of_singleton.
  - apply wp_ret, HQ. split_and!; [done|done|by rewrite app_nil_r|done].
Qed.

Definition attempts_post ws k left w : bool -> cworld S E -> Prop := fun b w' =>
  exists n, n <= left /\ (left <> 0 -> 1 <= n) /\
    called ws k n [if b then acknowledged else dispatched] w w'.
Definition attempts_error ws k left w : exn -> cworld S E -> Prop := fun _ w' =>
  exists n, 1 <= n <= left /\ called ws k n [dispatched] w w'.

(** The calls of the loop are at most the ones left, and at least one. *)
Lemma wp_attempts entry a ws left : forall attempt w,
  ds_wf (cw_store w) -> slot_dispatched ws (compensation_key a) w ->
  wp (attempts randint sleep entry a ws left attempt)
    (attempts_post ws (compensation_key a) left w) (attempts_error ws (compensation_key a) left w) w.
Proof.
  induction left as [|left IH]; intros attempt w Hwf Hslot.
  { apply wp_ret. exists 0. split_and!; [lia|lia|]. split_and!; [done|done|by rewrite app_nil_r|].
    intros Hw. destruct (Hslot Hw) as (r & ? & ?). exists r. set_solver. }
  cbn [attempts]. set (k := compensation_key a) in *. apply wp_bind, wp_catch, wp_bind.
  assert (forall e w', called ws k 1 [dispatched] w w' ->
    wp (if is_timeout e || is_transient e then
          if (ce_max_attempts entry <=? attempt + 1)%Z then mret false
          else
            jitter ← on_env randint;
            _ ← on_env (sleep (_retry_delay (ce_backoff_base_ms entry) (attempt + 1) jitter));
            attempts randint sleep entry a ws left (attempt + 1)
        else mret false)
      (attempts_post ws k (Datatypes.S left) w) (attempts_error ws k (Datatypes.S left) w) w') as Hfail.
  { intros e w' Hc. assert (attempts_post ws k (Datatypes.S left) w false w') as Hend.
    { exists 1. split_and!; [lia|lia|done]. }
    destruct (_ || _); [|by apply wp_ret]. destruct (_ <=? _)%Z; [by apply wp_ret|].
    unfold on_env. apply wp_bind, wp_zoom, wp_any; simpl; [|intros e' env _; exists 1; split; [lia|exact Hc]].
    intros jitter env _. apply wp_bind, wp_zoom, wp_any; simpl; [|intros e' env2 _; exists 1; split; [lia|exact Hc]].
    intros [] env2 _. eapply wp_mono; [apply IH; [apply Hc|exact (called_slot _ _ _ _ _ Hc)]| |].
    - intros b w2 (n & Hn1 & Hn2 & Hc2). exists (1 + n). split_and!; [lia|lia|]. by eapply called_trans.
    - intros e' w2 (n & Hn1 & Hc2). exists (1 + n). split; [lia|]. by eapply called_trans. }
  assert (forall e w', called ws k 1 [dispatched] w w' ->
    attempts_error ws k (Datatypes.S left) w e w') as Herr.
  { intros e w' Hc. exists 1. split; [lia|done]. }
  apply (wp_call_handler _ _ ws); [done|done| |].
  - intros w1 Hc1. apply wp_ack; [apply Hc1|by eapply called_slot| |].
    + intros w2 Hc2. apply wp_ret. exists 1. split_and!; [lia|lia|].
      exact (called_trans _ _ 1 0 _ _ _ _ _ Hc1 Hc2).
    + intros e w2 Hc2. pose proof (called_trans _ _ 1 0 _ _ _ _ _ Hc1 Hc2) as Hc.
      destruct (is_exception e); [by apply Hfail|by apply Herr].
  - intros e w1 Hc1. destruct (is_exception e); [by apply Hfail|by apply Herr].
Qed.

(** What a call of [execute] that returned did. *)
Definition execute_post a ws w (b : bool) w' : Prop :=
  match od_get (effect_str (act_effect_class a)) entries with
  | None => b = false /\ w' = w
  | Some entry =>
      (* the key was already claimed *)
      (ws = true /\ b = true /\ is_Some (cview w !! compensation_key a) /\
         ds_wf (cw_store w') /\ cview w' = cview w /\ cw_attempts w' = cw_attempts w) \/
      (* the handler was called *)
      (exists n, 1 <= n <= max_calls entry /\ (ws = true -> cview w !! compensation_key a = None) /\
         called ws (compensation_key a) n
           (if b then [acknowledged] else [dispatched; unknown_effect]) w w' /\
         (b = false -> (forall e, ~ ds_unavailable e) ->
            called ws (compensation_key a) n [unknown_effect] w w'))
  end.

(** ... that raised. *)
Definition execute_error a ws w (e : exn) w' : Prop :=
  exists entry n, od_get (effect_str (act_effect_class a)) entries = Some entry /\
    n <= max_calls entry /\ ds_wf (cw_store w') /\ ledger_le (cview w) (cview w') /\
    cw_attempts w' = cw_attempts w ++ replicate n (compensation_key a) /\
    (n = 0 -> ds_unavailable e) /\
    (ws = true -> n <> 0 -> cview w !! compensation_key a = None /\
       is_Some (cview w' !! compensation_key a)).

(** Claiming the slot. *)
Lemma wp_claim_slot a w (Q : bool -> cworld S E -> Prop) (R : exn -> cworld S E -> Prop) :
  ds_wf (cw_store w) ->
  (forall w', cview w !! compensation_key a = None -> called true (compensation_key a) 0 [dispatched] w w' ->
     Q true w') ->
  (forall w', is_Some (cview w !! compensation_key a) -> ds_wf (cw_store w') -> cview w' = cview w ->
     cw_attempts w' = cw_attempts w -> Q false w') ->
  (forall e w', ds_wf (cw_store w') -> ledger_le (cview w) (cview w') -> cw_attempts w' = cw_attempts w ->
     ds_unavailable e -> R e w') ->
  wp (reservation ← on_store (ds_reserve (compensation_envelope a));
      if negb (rv_accepted reservation) then mret false
      else _ ← on_store (ds_mark_dispatched (compensation_key a) None); mret true) Q R w.
Proof.
  intros Hwf Hgo Hskip Herr. apply wp_bind. unfold on_store at 1. apply wp_zoom.
  eapply wp_mono; [eapply wp_implements; [apply ds_reserve_law|exact Hwf]| |]; simpl.
  - intros rv s [Hs Heq]. fold (cview w) in Heq. unfold LedgerSpec.claim in Heq.
    change (env_dispatch_idempotency_key (compensation_envelope a)) with (compensation_key a) in Heq.
    destruct (cview w !! compensation_key a) as [r|] eqn:Hk; injection Heq as <- Hv; simpl.
    + apply wp_ret, Hskip; [by eexists|done|done|done].
    + assert (ledger_le (cview w) (ds_view s)) as Hle by (rewrite <-Hv; by apply ledger_le_insert_new).
      apply wp_bind. eapply wp_on_store_mark; [apply ds_mark_dispatched_law|done| | | |].
      * unfold cview. simpl. by rewrite <-Hv, lookup_insert_eq.
      * done.
      * intros s' r' Hs' Hle' Hr' Hd'. apply wp_ret, Hgo; [done|].
        split_and!; [done|by etrans|by rewrite app_nil_r|]. intros _. exists r'.
        by rewrite Hd', list_elem_of_singleton.
      * intros s' e Hs' Hv' Hu. apply Herr; [done| |done|done]. unfold cview at 2. simpl. by rewrite Hv'.
  - intros e s [Hs [Heq|[Hu Hv]]].
    + unfold LedgerSpec.claim in Heq. by destruct (_ !! _).
    + apply Herr; [done|unfold cview; simpl; by rewrite Hv|done|done].
Qed.

(** A handler that did not succeed: the slot is closed as far as the store allows. *)
Lemma wp_exhausted entry a ws (raise : bool) n w w2 :
  od_get (effect_str (act_effect_class a)) entries = Some entry ->
  1 <= n <= max_calls entry -> (ws = true -> cview w !! compensation_key a = None) ->
  called ws (compensation_key a) n [dispatched] w w2 ->
  wp (_ ← (if ws then py_suppress (on_store (ds_mark_unknown_effect (compensation_key a))) else mret tt);
      if raise then py_raise (exhausted entry a) else mret false)
    (execute_post a ws w) (execute_error a ws w) w2.
Proof.
  intros He Hn Hnone Hc. set (k := compensation_key a) in *. apply wp_bind.
  assert (forall w3 st, called ws k n [st] w w3 -> st ∈ [dispatched; unknown_effect] ->
    ((forall e, ~ ds_unavailable e) -> called ws k n [unknown_effect] w w3) ->
    wp (if raise then py_raise (exhausted entry a) else mret false)
      (execute_post a ws w) (execute_error a ws w) w3) as Hend.
  { intros w3 st (Hwf3 & Hle3 & Hat3 & Hs3) Hin Hun. unfold execute_post, execute_error. rewrite He. fold k.
    destruct raise; [apply wp_raise; exists entry, n|apply wp_ret; right; exists n].
    - split_and!; [done|lia|done|done|done|lia|]. intros Hw _. split; [by apply Hnone|].
      destruct (Hs3 Hw) as (r & ? & _). by eexists.
    - split_and!; [lia|lia|done| |auto]. split_and!; [done|done|done|]. intros Hw.
      destruct (Hs3 Hw) as (r & ? & Hst%list_elem_of_singleton). exists r. by rewrite Hst. }
  destruct ws.
  - pose proof (called_slot _ _ _ _ _ Hc eq_refl) as (r & Hr & Hd). pose proof Hc as (Hwf2 & Hle2 & Hat2 & _).
    apply wp_suppress. eapply wp_on_store_mark; [apply ds_mark_unknown_effect_law|done|exact Hr|by rewrite Hd| |].
    + intros s r' Hs Hle Hr' Hd'.
      assert (called true k n [unknown_effect] w (mkCW s (cw_env w2) (cw_attempts w2))) as Hc3.
      { split_and!; [done|by etrans|done|]. intros _. exists r'. by rewrite Hd', list_elem_of_singleton. }
      apply (Hend _ _ Hc3); [right; by left|done].
    + intros s e Hs Hv Hu. rewrite (ds_unavailable_is_exception e Hu).
      apply (Hend _ dispatched); [|by left|intros Hnu; by destruct (Hnu e)].
      unfold called, cview in *. simpl. rewrite Hv. split_and!; [done|done|done|].
      intros _. exists r. by rewrite Hd, list_elem_of_singleton.
  - apply wp_ret. apply (Hend _ _ Hc); [by left|]. intros _. destruct Hc as (?&?&?&_). by split_and!.
Qed.

(** From a claimed slot on. *)
Lemma wp_claimed entry a ws (raise : bool) w w1 :
  od_get (effect_str (act_effect_class a)) entries = Some entry ->
  (ws = true -> cview w !! compensation_key a = None) ->
  called ws (compensation_key a) 0 [dispatched] w w1 ->
  wp (compensated ← attempts randint sleep entry a ws (max_calls entry) 0;
      if (compensated : bool) then mret true
      else
        _ ← (if ws then py_suppress (on_store (ds_mark_unknown_effect (compensation_key a))) else mret tt);
        if raise then py_raise (exhausted entry a) else mret false)
    (execute_post a ws w) (execute_error a ws w) w1.
Proof.
  intros He Hn Hc0. apply wp_bind. assert (max_calls entry <> 0) as Hm by (unfold max_calls; lia).
  eapply wp_mono; [apply wp_attempts; [apply Hc0|exact (called_slot _ _ _ _ _ Hc0)]| |].
  - intros [] w2 (n & Hn1 & Hn2 & Hc2); pose proof (called_trans _ _ 0 n _ _ _ _ _ Hc0 Hc2) as Hc.
    + apply wp_ret. unfold execute_post. rewrite He. right. exists n. split_and!; [auto|lia|done|done|done].
    + apply (wp_exhausted _ _ _ _ n); auto.
  - intros e w2 (n & Hn1 & Hc2). pose proof (called_trans _ _ 0 n _ _ _ _ _ Hc0 Hc2) as (Hwf2 & Hle2 & Hat2 & Hs2).
    exists entry, n. split_and!; [done|lia|done|done|done|lia|]. intros Hw _. split; [by apply Hn|].
    destruct (Hs2 Hw) as (r & ? & _). by eexists.
Qed.

Lemma wp_execute a ws raise w :
  ds_wf (cw_store w) ->
  wp (execute entries randint sleep a ws raise) (execute_post a ws w) (execute_error a ws w) w.
Proof.
  intros Hwf. unfold execute.
  destruct (od_get _ entries) as [entry|] eqn:He;
    [|apply wp_ret; unfold execute_post; by rewrite He].
  apply wp_bind. destruct ws.
  - apply wp_claim_slot; [done| | |].
    + intros w1 Hn Hc0. by apply wp_claimed.
    + intros w1 Hsome Hwf1 Hv Hat. apply wp_ret. unfold execute_post. rewrite He. left. by split_and!.
    + intros e w1 Hwf1 Hle Hat Hu. exists entry, 0.
      split_and!; [done|lia|done|done|by rewrite app_nil_r|done|done].
  - apply wp_ret. apply wp_claimed; [done|done|]. split_and!; [done|done|by rewrite app_nil_r|done].
Qed.

(** Calls of [execute] with the store, one after the other, whatever each gives. *)
Fixpoint executes (l : list (Action * bool)) w : cworld S E :=
  match l with
  | [] => w
  | (a, raise) :: l' => executes l' (execute entries randint sleep a true raise w).2
  end.

(** The handler calls made under a key. *)
Definition calls_under (k : string) w : nat := length (filter (fun k' => k' = k) (cw_attempts w)).

Lemma calls_under_app k k' n w w' : cw_attempts w' = cw_attempts w ++ replicate n k' ->
  calls_under k w' = calls_under k w + (if decide (k' = k) then n else 0).
Proof.
  intros Hat. unfold calls_under. rewrite Hat, filter_app, length_app. f_equal.
  case_decide as Hk.
  - rewrite filter_all; [by rewrite length_replicate|]. by intros x [-> _]%elem_of_replicate.
  - rewrite filter_none; [done|]. by intros x [-> _]%elem_of_replicate.
Qed.

(** What any call of [execute] does to the calls under a key. *)
Lemma execute_calls a raise w : ds_wf (cw_store w) ->
  let w' := (execute entries randint sleep a true raise w).2 in
  ds_wf (cw_store w') /\ ledger_le (cview w) (cview w') /\
  exists n, cw_attempts w' = cw_attempts w ++ replicate n (compensation_key a) /\
    (n <> 0 -> (exists entry, od_get (effect_str (act_effect_class a)) entries = Some entry /\
                  n <= max_calls entry) /\
       cview w !! compensation_key a = None /\ is_Some (cview w' !! compensation_key a)).
Proof.
  intros Hwf w'. pose proof (wp_run _ _ _ _ (wp_execute a true raise w Hwf)) as Hw. fold w' in Hw.
  destruct (execute entries randint sleep a true raise w).1 as [b|e].
  - unfold execute_post in Hw. destruct (od_get _ entries) as [entry|] eqn:He.
    + destruct Hw as [(_ & _ & _ & Hwf' & Hv & Hat)|(n & Hn & Hnone & (Hwf' & Hle & Hat & Hs) & _)].
      * rewrite Hv. split_and!; [done|done|]. exists 0. by rewrite Hat, app_nil_r.
      * split_and!; [done|done|]. exists n. split; [done|]. intros _.
        split; [exists entry; split; [done|lia]|]. split; [by apply Hnone|].
        destruct (Hs eq_refl) as (r & Hr & _). by exists r.
    + destruct Hw as [_ ->]. split_and!; [done|done|]. exists 0. by rewrite app_nil_r.
  - destruct Hw as (entry & n & He & Hn & Hwf' & Hle & Hat & _ & Hs). split_and!; [done|done|].
    exists n. split; [done|]. intros Hn0. split; [by exists entry|]. by apply Hs.
Qed.

Lemma compensation_key_class a b : compensation_key a = compensation_key b ->
  act_effect_class a = act_effect_class b.
Proof.
  unfold compensation_key, generate_compensation_key.
  by destruct (act_effect_class a), (act_effect_class b).
Qed.

Lemma executes_calls a entry l : forall w,
  od_get (effect_str (act_effect_class a)) entries = Some entry -> ds_wf (cw_store w) ->
  calls_under (compensation_key a) w <= max_calls entry ->
  (calls_under (compensation_key a) w <> 0 -> is_Some (cview w !! compensation_key a)) ->
  calls_under (compensation_key a) (executes l w) <= max_calls entry /\
  (is_Some (cview w !! compensation_key a) ->
   calls_under (compensation_key a) (executes l w) = calls_under (compensation_key a) w).
Proof.
  induction l as [|[b raise] l IH]; intros w He Hwf Hm Hs; [by split|]. cbn [executes].
  destruct (execute_calls b raise w Hwf) as (Hwf' & Hle & n & Hat & Hn).
  set (w' := (execute entries randint sleep b true raise w).2) in *.
  pose proof (calls_under_app (compensation_key a) _ _ _ _ Hat) as Hc.
  assert (is_Some (cview w !! compensation_key a) -> is_Some (cview w' !! compensation_key a)) as Hmono.
  { intros [r Hr]. destruct (Hle _ _ Hr) as (r' & Hr' & _). by exists r'. }
  case_decide as Hk.
  - destruct (decide (n = 0)) as [-> |Hn0].
    + rewrite Nat.add_0_r in Hc. destruct (IH w' He Hwf') as [H1 H2]; [lia|rewrite Hc; auto|].
      split; [done|]. intros Hsome. rewrite H2; auto.
    + destruct (Hn Hn0) as ((entry' & He' & Hle') & Hnone & Hsome).
      rewrite (compensation_key_class _ _ Hk), He in He'. injection He' as <-. rewrite Hk in Hnone, Hsome.
      assert (calls_under (compensation_key a) w = 0) as Hz.
      { destruct (decide (calls_under (compensation_key a) w = 0)) as [?|Hne]; [done|].
        destruct (Hs Hne) as [r Hr]. congruence. }
      destruct (IH w' He Hwf') as [H1 H2]; [lia|done|]. split; [done|].
      intros [r Hr]. congruence.
  - rewrite Nat.add_0_r in Hc. destruct (IH w' He Hwf') as [H1 H2]; [lia|rewrite Hc; auto|].
    split; [done|]. intros Hsome. rewrite H2; auto.
Qed.

Lemma executes_le l : forall w, ds_wf (cw_store w) ->
  ds_wf (cw_store (executes l w)) /\ ledger_le (cview w) (cview (executes l w)).
Proof.
  induction l as [|[a raise] l IH]; intros w Hwf; [by split|]. cbn [executes].
  destruct (execute_calls a raise w Hwf) as (Hwf' & Hle & _). destruct (IH _ Hwf') as [Hwf'' Hle'].
  split; [done|by etrans].
Qed.

(** One compensation.  Without a handler nothing happens and the answer is
    False.  With the ledger and a claimed key the handler is not called and the
    answer is True.  Otherwise the handler is called between one and
    [max(max_attempts, 1)] times: True means the key (if a ledger is used) was
    free and is now acknowledged, False that it is recorded as unknown effect
    (or still dispatched if the ledger went down). *)
Theorem compensation_outcome a ws raise w :
  ds_wf (cw_store w) ->
  match execute entries randint sleep a ws raise w with
  | (Ret b, w') => execute_post a ws w b w'
  | (Raise e, w') => execute_error a ws w e w'
  end.
Proof. intros Hwf. exact (wp_execute a ws raise w Hwf). Qed.

(** At most one compensation.  Over any sequence of compensations with one
    ledger, of any actions, the handler is called for an action at most
    [max(max_attempts, 1)] times in all: the retries of one execution. *)
Theorem compensation_bounded (l : list (Action * bool)) a entry w :
  ds_wf (cw_store w) -> cw_attempts w = [] ->
  od_get (effect_str (act_effect_class a)) entries = Some entry ->
  calls_under (compensation_key a) (executes l w) <= max_calls entry.
Proof.
  intros Hwf Hat He. assert (calls_under (compensation_key a) w = 0) as Hz.
  { unfold calls_under. by rewrite Hat. }
  by apply executes_calls; rewrite ?Hz; [| |lia|].
Qed.

(** Once a key has a record, executions call nothing. *)
Lemma execute_recorded a raise w : ds_wf (cw_store w) -> is_Some (cview w !! compensation_key a) ->
  cw_attempts (execute entries randint sleep a true raise w).2 = cw_attempts w /\
  match (execute entries randint sleep a true raise w).1 with
  | Ret b => od_get (effect_str (act_effect_class a)) entries <> None -> b = true
  | Raise e => ds_unavailable e
  end.
Proof.
  intros Hwf [r Hr]. pose proof (wp_run _ _ _ _ (wp_execute a true raise w Hwf)) as Hw.
  destruct (execute entries randint sleep a true raise w).1 as [b|e].
  - unfold execute_post in Hw. destruct (od_get _ entries) as [entry|]; [|by destruct Hw as [_ ->]].
    destruct Hw as [(_ & -> & _ & _ & _ & Hat)|(n & Hn & Hnone & _)]; [done|].
    rewrite Hnone in Hr by done. done.
  - destruct Hw as (entry & n & He & Hn & _ & _ & Hat & Hun & Hs).
    destruct (decide (n = 0)) as [-> |Hn0]; [by rewrite Hat, app_nil_r; auto|].
    destruct (Hs eq_refl Hn0) as [Hnone _]. congruence.
Qed.

(** A compensation that failed is never tried again, and is then reported as
    done: once the handler has been called for an action, whatever came of it,
    every later execution for that action calls no handler and answers True (or
    raises because the ledger is down). *)
Theorem compensation_never_retried a raise raise' (l : list (Action * bool)) w :
  ds_wf (cw_store w) -> cw_attempts w = [] ->
  let w1 := (execute entries randint sleep a true raise w).2 in
  let w2 := executes l w1 in
  cw_attempts w1 <> [] ->
  calls_under (compensation_key a) (execute entries randint sleep a true raise' w2).2 =
    calls_under (compensation_key a) w1 /\
  match (execute entries randint sleep a true raise' w2).1 with
  | Ret b => b = true
  | Raise e => ds_unavailable e
  end.
Proof.
  intros Hwf Hat0 w1 w2 Hne.
  destruct (execute_calls a raise w Hwf) as (Hwf1 & _ & n & Hat & Hn). fold w1 in Hwf1, Hat, Hn.
  destruct (decide (n = 0)) as [-> |Hn0]; [by rewrite Hat, Hat0 in Hne|].
  destruct (Hn Hn0) as ((entry & He & Hm) & _ & Hsome).
  assert (calls_under (compensation_key a) w1 = n) as Hc.
  { rewrite (calls_under_app _ _ _ _ _ Hat), decide_True by done. unfold calls_under. by rewrite Hat0. }
  destruct (executes_calls a entry l w1 He Hwf1) as [_ Heq]; [lia|done|].
  destruct (executes_le l w1 Hwf1) as [Hwf2 Hle]. fold w2 in Heq, Hwf2, Hle.
  assert (is_Some (cview w2 !! compensation_key a)) as Hsome2.
  { destruct Hsome as [r Hr]. destruct (Hle _ _ Hr) as (r' & Hr' & _). by exists r'. }
  destruct (execute_recorded a raise' w2 Hwf2 Hsome2) as [Hat2 Hres]. split.
  - unfold calls_under at 1. rewrite Hat2. by apply Heq.
  - destruct (execute _ _ _ _ _ _ _).1; [|done]. apply Hres. by rewrite He.
Qed.
End lawful_compensation.

(** Witnesses **********************************************************************)

(** One handler that succeeds and one that always times out. *)
Definition example_registry : registry unit :=
  register "compensatable_write" (fun _ => mret tt) "undo" 100 2 1000
    (register "irreversible_write" (fun _ => py_raise TimeoutError) "undo" 100 2 1000 []).

Definition example_failed (c : EffectClass) : Action :=
  mkAction "act-1" "run-1" "tool_call" c None None None None [] None None.

Definition no_jitter : PyM unit Z := mret 0%Z.
Definition no_sleep : Z -> PyM unit unit := fun _ => mret tt.
Definition fresh : cworld InMemory.store unit := mkCW [] tt [].

Lemma fresh_wf : ds_wf (cw_store fresh).
Proof. exact (NoDup_nil_2 (A:=string)). Qed.

Lemma compensation_outcome_witness :
  execute_post example_registry (example_failed COMPENSATABLE_WRITE) true fresh true
    (execute example_registry no_jitter no_sleep (example_failed COMPENSATABLE_WRITE) true true fresh).2.
Proof.
  exact (compensation_outcome example_registry no_jitter no_sleep (example_failed COMPENSATABLE_WRITE)
    true true fresh fresh_wf).
Defined.

Lemma compensation_bounded_witness :
  calls_under (compensation_key (example_failed IRREVERSIBLE_WRITE))
    (executes example_registry no_jitter no_sleep
       [(example_failed IRREVERSIBLE_WRITE, false); (example_failed IRREVERSIBLE_WRITE, true)] fresh) <= 2.
Proof.
  exact (compensation_bounded example_registry no_jitter no_sleep _ (example_failed IRREVERSIBLE_WRITE)
    (mkCompensationEntry "irreversible_write" (fun _ => py_raise TimeoutError) "undo" 100 2 1000)
    fresh fresh_wf eq_refl eq_refl).
Defined.

Lemma compensation_never_retried_witness :
  let a := example_failed IRREVERSIBLE_WRITE in
  let w1 := (execute example_registry no_jitter no_sleep a true false fresh).2 in
  (execute example_registry no_jitter no_sleep a true false fresh).1 = Ret false /\
  (execute example_registry no_jitter no_sleep a true false w1).1 = Ret true.
Proof.
  intros a w1. split; [by vm_compute|].
  destruct (compensation_never_retried example_registry no_jitter no_sleep a false false [] fresh
    fresh_wf eq_refl) as [_ H]; [by vm_compute|].
  change (executes example_registry no_jitter no_sleep [] _) with w1 in H.
  destruct (execute _ _ _ _ _ _ w1).1 as [b|e]; [by rewrite H|destruct H].
Defined.
