(* ===== verification/Recovery.v ===== *)
(** * Recovery
      ([agent_kernel/kernel/recovery/planner.py], [mode_registry.py], [gate.py])

    From a failure to the one recovery decision a run may take: the planner
    classifies the failure, the mode registry names the recovery mode of the
    plan, and the gate checks the circuit breaker, the compensation handlers
    and the reflection policy around it.  Clock readings are microseconds
    (the code's floats are seconds).  The breaker store, the reasoning loop,
    the context builder, the clocks and the hook are the environment. *)

From stdpp Require Import base tactics option list sets strings gmap pretty.
From Stdlib Require Import ZArith Ascii.
From S2P Require Import Prelude PyStr PyDict PyVal Contracts DedupeStore Snapshot Compensation.
#[local] Arguments String.append : simpl nomatch.
#[local] Open Scope Z_scope.

Record RecoveryInput := mkRecoveryInput {
  ri_run_id : string;
  ri_reason_code : string;
  ri_lifecycle_state : RunLifecycleState;
  ri_projection : RunProjection;
  ri_failed_action_id : option string;
  ri_reflection_round : Z;
  ri_capability_snapshot : option CapabilitySnapshot;
  ri_failed_effect_class : option string
}.

(** The planner *******************************************************************)

Inductive RecoveryPlanAction := schedule_compensation | notify_human_operator | abort_run.

Definition plan_action_str (a : RecoveryPlanAction) : string :=
  match a with
  | schedule_compensation => "schedule_compensation"
  | notify_human_operator => "notify_human_operator"
  | abort_run => "abort_run"
  end.

Inductive ReasonClassification := cls_transient | cls_fatal | cls_human | cls_unknown.

Record RecoveryPlan := mkPlan {
  pl_run_id : string;
  pl_action : RecoveryPlanAction;
  pl_reason : string;
  pl_compensation_action_id : option string;
  pl_escalation_channel_ref : option string
}.

Record PlannerHeuristicPolicy := mkHeuristics {
  hp_reason_prefix : string;
  hp_default_escalation_channel_ref : string;
  hp_human_reason_prefixes : list string;
  hp_transient_reason_prefixes : list string;
  hp_fatal_reason_prefixes : list string;
  hp_abort_reason_prefixes : list string;
  hp_transient_action : RecoveryPlanAction;
  hp_fatal_action : RecoveryPlanAction;
  hp_human_action : RecoveryPlanAction;
  hp_unknown_action : RecoveryPlanAction
}.

(** The defaults of the dataclass. *)
Definition default_heuristics : PlannerHeuristicPolicy :=
  mkHeuristics "recovery" "human://operator"
    ["human_"; "manual_"; "requires_human"; "waiting_external"; "external_"]
    ["transient_"; "executor_transient"; "retryable_"]
    ["fatal"; "non_recoverable"; "permission_denied"; "policy_denied"] []
    schedule_compensation abort_run notify_human_operator schedule_compensation.

#[export] Instance RecoveryPlanAction_eq_dec : EqDecision RecoveryPlanAction.
Proof. solve_decision. Defined.
#[export] Instance ReasonClassification_eq_dec : EqDecision ReasonClassification.
Proof. solve_decision. Defined.

Definition _has_prefix (value : string) (prefixes : list string) : bool :=
  existsb (startswith value) prefixes.

Definition classify_reason (p : PlannerHeuristicPolicy) (reason_code : string) : ReasonClassification :=
  let normalized_reason := lower (strip reason_code) in
  if _has_prefix normalized_reason (hp_human_reason_prefixes p) then cls_human
  else if _has_prefix normalized_reason (hp_fatal_reason_prefixes p ++ hp_abort_reason_prefixes p) then cls_fatal
  else if _has_prefix normalized_reason (hp_transient_reason_prefixes p) then cls_transient
  else cls_unknown.

Definition action_for_classification (p : PlannerHeuristicPolicy) (c : ReasonClassification) :
    RecoveryPlanAction :=
  match c with
  | cls_human => hp_human_action p
  | cls_fatal => hp_fatal_action p
  | cls_transient => hp_transient_action p
  | cls_unknown => hp_unknown_action p
  end.

Definition build_plan (decision : RecoveryDecision) (projection : RunProjection) : outcome RecoveryPlan :=
  if decide (rd_run_id decision <> rp_run_id projection) then
    Raise (ValueError "recovery decision run_id must match projection run_id.")
  else match rd_mode decision with
       | static_compensation => mret (mkPlan (rd_run_id decision) schedule_compensation
           (rd_reason decision) (rd_compensation_action_id decision) None)
       | human_escalation => mret (mkPlan (rd_run_id decision) notify_human_operator
           (rd_reason decision) None (rd_escalation_channel_ref decision))
       | _ => mret (mkPlan (rd_run_id decision) abort_run (rd_reason decision) None None)
       end.

Definition build_plan_from_input (p : PlannerHeuristicPolicy) (i : RecoveryInput) : outcome RecoveryPlan :=
  let projection := ri_projection i in
  if decide (ri_run_id i <> rp_run_id projection) then
    Raise (ValueError "recovery input run_id must match projection run_id.")
  else
    let reason := hp_reason_prefix p +:+ ":" +:+ ri_reason_code i in
    let compensation_action_id := py_or (ri_failed_action_id i) (rp_current_action_id projection) in
    let plan action compensation escalation :=
      mret (mkPlan (ri_run_id i) action reason compensation escalation) in
    match rp_recovery_mode projection with
    | Some human_escalation =>
        plan notify_human_operator None (Some (hp_default_escalation_channel_ref p))
    | Some static_compensation => plan schedule_compensation compensation_action_id None
    | Some abort => plan abort_run None None
    | _ =>
        let normalized_reason := lower (strip (ri_reason_code i)) in
        if decide (ri_lifecycle_state i = ls_waiting_external) then
          plan notify_human_operator None (Some (hp_default_escalation_channel_ref p))
        else
          match action_for_classification p (classify_reason p normalized_reason) with
          | notify_human_operator =>
              plan notify_human_operator None (Some (hp_default_escalation_channel_ref p))
          | schedule_compensation =>
              match compensation_action_id with
              | Some id => plan schedule_compensation (Some id) None
              | None => plan abort_run None None
              end
          | abort_run => plan abort_run None None
          end
    end.

(** The mode registry *************************************************************)

(** [self._entries] *)
Abbreviation mode_registry := (odict string string).

Definition register_mode (plan_action mode : string) : PyM mode_registry unit :=
  entries ← py_get;
  match od_get plan_action entries with
  | Some present => py_raise (ValueError ("Recovery plan action '" +:+ plan_action +:+
      "' is already registered with mode '" +:+ present +:+
      "'. Use a unique plan_action or update the existing entry."))
  | None => py_modify (od_set plan_action mode)
  end.

Definition get_mode (plan_action : string) (r : mode_registry) : option string := od_get plan_action r.

(** [KERNEL_RECOVERY_MODE_REGISTRY] as the module leaves it. *)
Definition builtin_modes : mode_registry :=
  [("schedule_compensation", "static_compensation"); ("notify_human_operator", "human_escalation");
   ("abort_run", "abort")].

Definition parse_mode (s : string) : option RecoveryMode :=
  if decide (s = "static_compensation") then Some static_compensation
  else if decide (s = "human_escalation") then Some human_escalation
  else if decide (s = "abort") then Some abort
  else if decide (s = "reflect_and_retry") then Some reflect_and_retry
  else None.

(** Backoff ***********************************************************************)

Definition _BACKOFF_BASE_MS : Z := 500.
Definition _BACKOFF_MAX_MS : Z := 30000.

Definition _compute_retry_after_ms (mode : RecoveryMode) (failure_count : Z) : option Z :=
  match mode with
  | static_compensation | reflect_and_retry =>
      let exponent := Z.min (failure_count - 1) 16 in
      let delay := if exponent <? 0 then _BACKOFF_BASE_MS / 2 ^ (- exponent)
                   else _BACKOFF_BASE_MS * 2 ^ exponent in
      Some (Z.min delay _BACKOFF_MAX_MS)
  | _ => None
  end.

Definition _attach_backoff (d : RecoveryDecision) (failure_count : Z) : RecoveryDecision :=
  mkRecoveryDecision (rd_run_id d) (rd_mode d) (rd_reason d) (rd_compensation_action_id d)
    (rd_escalation_channel_ref d) (rd_corrected_action d)
    (_compute_retry_after_ms (rd_mode d) failure_count) failure_count.

(** [_extract_effect_class] *)
Definition _extract_effect_class (i : RecoveryInput) : option string :=
  let reason := lower (ri_reason_code i) in
  if contains reason ":" then Some (split_head ":"%char reason) else None.

(** [getattr(recovery_input, "failing_action", None)]: the class has slots and
    no such field. *)
Definition failing_action (i : RecoveryInput) : option Action := None.

(** The fields [_build_evidence_from_input] computes. *)
Record ScriptFailureEvidence := mkEvidence {
  se_script_id : string;
  se_failure_kind : string;
  se_suspected_cause : option string
}.

Definition _build_evidence_from_input (i : RecoveryInput) : ScriptFailureEvidence :=
  let reason := ri_reason_code i in
  let known_kinds := ["heartbeat_timeout"; "runtime_error"; "permission_denied"; "resource_exhausted";
                      "output_validation_failed"] in
  mkEvidence (match py_or (ri_failed_action_id i) None with Some id => id | None => "unknown" end)
    (if decide (reason ∈ known_kinds) then reason else "runtime_error") (Some reason).

(** The gate **********************************************************************)

(** The hook methods the gate calls. *)
Inductive recovery_hook_call :=
  | on_recovery_triggered (run_id reason_code : string) (mode : RecoveryMode)
  | on_reflection_round (run_id action_id : string) (round_num : Z) (corrected : bool)
  | on_circuit_breaker_trip (run_id effect_class : string) (failure_count : Z) (tripped : bool).

(** [CircuitBreakerStore]: the count and the time of the last failure. *)
Record breaker_store (E : Type) := mkBreakerStore {
  bs_get_state : string -> PyM E (Z * Z);
  bs_record_failure : string -> PyM E Z;
  bs_reset : string -> PyM E unit
}.
Arguments bs_get_state {E}. Arguments bs_record_failure {E}. Arguments bs_reset {E}.

(** The services of the constructor; [Ctx] and [Cfg] are the context window and
    the inference configuration.  [gp_dedupe_store] is whether the gate was
    given the dedupe store. *)
Record gate_ports (E Ctx Cfg : Type) := mkGatePorts {
  gp_planner : PlannerHeuristicPolicy;
  gp_compensation_registry : option (registry E);
  gp_reflection_policy : option ReflectionPolicy;
  gp_reasoning_loop : option (string -> CapabilitySnapshot -> Cfg -> Ctx -> string -> PyM E (list Action));
  gp_reflection_builder : option (ScriptFailureEvidence -> Z -> PyM E Ctx);
  gp_default_inference_config : option Cfg;
  gp_observability_hook : option (recovery_hook_call -> PyM E unit);
  gp_circuit_breaker_policy : option CircuitBreakerPolicy;
  gp_circuit_breaker_store : option (breaker_store E);
  gp_dedupe_store : bool;
  gp_monotonic : PyM E Z;
  gp_time : PyM E Z;
  gp_randint : PyM E Z;
  gp_sleep : Z -> PyM E unit
}.
Arguments gp_planner {E Ctx Cfg}. Arguments gp_compensation_registry {E Ctx Cfg}.
Arguments gp_reflection_policy {E Ctx Cfg}. Arguments gp_reasoning_loop {E Ctx Cfg}.
Arguments gp_reflection_builder {E Ctx Cfg}. Arguments gp_default_inference_config {E Ctx Cfg}.
Arguments gp_observability_hook {E Ctx Cfg}. Arguments gp_circuit_breaker_policy {E Ctx Cfg}.
Arguments gp_circuit_breaker_store {E Ctx Cfg}. Arguments gp_dedupe_store {E Ctx Cfg}.
Arguments gp_monotonic {E Ctx Cfg}. Arguments gp_time {E Ctx Cfg}.
Arguments gp_randint {E Ctx Cfg}. Arguments gp_sleep {E Ctx Cfg}.

Section gate.
Context {S : Type} `{!DedupeStorePort S} {E Ctx Cfg : Type}.
(** SHA-256, the time stamp of a snapshot, the services, the mode registry. *)
Context (sha256 : string -> string) (now : string) (gp : gate_ports E Ctx Cfg) (modes : mode_registry).

(** The gate's own fields, and the world of the compensations. *)
Record gate_state := mkGate {
  g_failure_counts : odict string Z;
  g_circuit_failures : odict string Z;
  g_circuit_last_failure_mono : odict string Z;
  g_world : cworld S E
}.

Definition on_world {A} (m : PyM (cworld S E) A) : PyM gate_state A :=
  py_zoom g_world (fun w g => mkGate (g_failure_counts g) (g_circuit_failures g)
                                (g_circuit_last_failure_mono g) w) m.
Definition g_env {A} (m : PyM E A) : PyM gate_state A := on_world (on_env m).

Definition emit_hook (h : recovery_hook_call) : PyM gate_state unit :=
  match gp_observability_hook gp with
  | None => mret tt
  | Some f => py_suppress (g_env (f h))
  end.

Definition _emit_recovery (run_id reason_code : string) (mode : RecoveryMode) : PyM gate_state unit :=
  emit_hook (on_recovery_triggered run_id reason_code mode).

Definition _emit_reflection_round (run_id action_id : string) (round_num : Z) (corrected : bool) :
    PyM gate_state unit := emit_hook (on_reflection_round run_id action_id round_num corrected).

Definition _emit_circuit_breaker_trip (run_id effect_class : string) (failure_count : Z) (tripped : bool) :
    PyM gate_state unit := emit_hook (on_circuit_breaker_trip run_id effect_class failure_count tripped).

Definition _is_circuit_open (effect_class : option string) : PyM gate_state bool :=
  match gp_circuit_breaker_policy gp, effect_class with
  | Some policy, Some cls =>
      match gp_circuit_breaker_store gp with
      | Some store =>
          state ← g_env (bs_get_state store cls);
          if (state : Z * Z).1 <? cb_threshold policy then mret false
          else t ← g_env (gp_time gp); mret (t - state.2 <? cb_half_open_after_ms policy * 1000)
      | None =>
          g ← py_get;
          if default 0 (od_get cls (g_circuit_failures g)) <? cb_threshold policy then mret false
          else t ← g_env (gp_monotonic gp);
               mret (t - default 0 (od_get cls (g_circuit_last_failure_mono g))
                       <? cb_half_open_after_ms policy * 1000)
      end
  | _, _ => mret false
  end.

Definition _record_circuit_failure (effect_class : option string) (run_id : string) : PyM gate_state unit :=
  match gp_circuit_breaker_policy gp, effect_class with
  | Some policy, Some cls =>
      new_count ←
        match gp_circuit_breaker_store gp with
        | Some store => g_env (bs_record_failure store cls)
        | None =>
            g ← py_get;
            let new_count := default 0 (od_get cls (g_circuit_failures g)) + 1 in
            _ ← py_modify (fun g => mkGate (g_failure_counts g) (od_set cls new_count (g_circuit_failures g))
                                      (g_circuit_last_failure_mono g) (g_world g));
            t ← g_env (gp_monotonic gp);
            _ ← py_modify (fun g => mkGate (g_failure_counts g) (g_circuit_failures g)
                                      (od_set cls t (g_circuit_last_failure_mono g)) (g_world g));
            mret new_count
        end;
      _emit_circuit_breaker_trip run_id cls new_count (cb_threshold policy <=? new_count)
  | _, _ => mret tt
  end.

Definition on_action_success (effect_class : string) : PyM gate_state unit :=
  match gp_circuit_breaker_store gp with
  | Some store => g_env (bs_reset store effect_class)
  | None => py_modify (fun g => mkGate (g_failure_counts g) (od_pop effect_class (g_circuit_failures g))
                                  (od_pop effect_class (g_circuit_last_failure_mono g)) (g_world g))
  end.

Definition _should_reflect (i : RecoveryInput) (mode : RecoveryMode) : bool :=
  match gp_reflection_policy gp, gp_reasoning_loop gp, gp_reflection_builder gp with
  | Some policy, Some _, Some _ =>
      if decide (mode = static_compensation \/ mode = abort) then
        if negb (is_reflectable policy (ri_reason_code i)) then false
        else ri_reflection_round i <? rf_max_rounds policy
      else false
  | _, _, _ => false
  end.

(** A decision without compensation, escalation or backoff. *)
Definition plain_decision (run_id : string) (mode : RecoveryMode) (reason : string)
    (corrected_action : option Action) : RecoveryDecision :=
  mkRecoveryDecision run_id mode reason None None corrected_action None 0.

Definition _fallback_decision (policy : ReflectionPolicy) (i : RecoveryInput) (base_reason : string) :
    RecoveryDecision :=
  if rf_escalate_on_exhaustion policy then
    plain_decision (ri_run_id i) human_escalation (base_reason +:+ ":reflect_exhausted:escalated") None
  else plain_decision (ri_run_id i) abort (base_reason +:+ ":reflect_exhausted:aborted") None.

Definition _decide_reflect_and_retry (i : RecoveryInput) (base_reason : string) :
    PyM gate_state RecoveryDecision :=
  match gp_reflection_policy gp, gp_reasoning_loop gp, gp_reflection_builder gp with
  | Some policy, Some run_once, Some build_context =>
      let reflection_round := ri_reflection_round i + 1 in
      enriched_context ← g_env (build_context (_build_evidence_from_input i) reflection_round);
      match gp_default_inference_config gp with
      | None => py_raise (RuntimeError ("PlannedRecoveryGateService._default_inference_config is None" +:+
          " — platform layer must inject InferenceConfig via constructor" +:+ " before recovery"))
      | Some inference_config =>
          snapshot ← match ri_capability_snapshot i with
                     | Some s => mret s
                     | None => py_lift (build sha256 now (mkSnapshotInput (ri_run_id i)
                         (rp_projected_offset (ri_projection i)) "policy:default" "strict"
                         [] [] [] [] None None None None None None None []))
                     end;
          let reflection_key := ri_run_id i +:+ ":" +:+ pretty (rp_projected_offset (ri_projection i)) +:+
                                ":reflection:" +:+ pretty reflection_round in
          result ← py_catch (g_env (run_once (ri_run_id i) snapshot inference_config enriched_context
                                       reflection_key));
          match (result : list Action + exn) with
          | inr _ => mret (_fallback_decision policy i base_reason)
          | inl [] =>
              _ ← _emit_reflection_round (ri_run_id i) "unknown" reflection_round false;
              mret (_fallback_decision policy i base_reason)
          | inl (corrected_action :: _) =>
              _ ← _emit_reflection_round (ri_run_id i) "unknown" reflection_round true;
              mret (plain_decision (ri_run_id i) reflect_and_retry
                (base_reason +:+ ":reflect_and_retry:round=" +:+ pretty reflection_round)
                (Some corrected_action))
          end
      end
  | _, _, _ => py_raise (OtherError "AssertionError" "")
  end.

(** The compensation check: the mode, reason, compensation and escalation that hold. *)
Definition check_compensation (i : RecoveryInput) (plan : RecoveryPlan) (mode : RecoveryMode) :
    PyM gate_state (RecoveryMode * string * option string * option string) :=
  let unchanged := mret (mode, pl_reason plan, pl_compensation_action_id plan, pl_escalation_channel_ref plan) in
  match mode, gp_compensation_registry gp, _extract_effect_class i with
  | static_compensation, Some entries, Some cls =>
      if negb (has_handler cls entries) then
        mret (abort, pl_reason plan +:+ ":no_compensation_handler", None, None)
      else
        match failing_action i with
        | None => unchanged
        | Some a =>
            result ← py_catch (on_world (execute entries (gp_randint gp) (gp_sleep gp) a (gp_dedupe_store gp) true));
            match (result : bool + exn) with
            | inl _ => unchanged
            | inr _ => mret (human_escalation, pl_reason plan +:+ ":compensation_exhausted", None,
                             pl_escalation_channel_ref plan)
            end
        end
  | _, _, _ => unchanged
  end.

Definition decide_recovery (i : RecoveryInput) : PyM gate_state RecoveryDecision :=
  g ← py_get;
  let failure_count := default 0 (od_get (ri_run_id i) (g_failure_counts g)) + 1 in
  _ ← py_modify (fun g => mkGate (od_set (ri_run_id i) failure_count (g_failure_counts g))
                            (g_circuit_failures g) (g_circuit_last_failure_mono g) (g_world g));
  let effect_class := ri_failed_effect_class i in
  is_open ← _is_circuit_open effect_class;
  if (is_open : bool) then
    _ ← _emit_recovery (ri_run_id i) (ri_reason_code i) abort;
    mret (mkRecoveryDecision (ri_run_id i) abort (ri_reason_code i +:+ ":circuit_open") None None None None
            failure_count)
  else
    plan ← py_lift (build_plan_from_input (gp_planner gp) i);
    match get_mode (plan_action_str (pl_action plan)) modes with
    | None => py_raise (ValueError ("unsupported recovery plan action: " +:+ plan_action_str (pl_action plan)))
    | Some mode_name =>
        match parse_mode mode_name with
        | None => py_raise (OutsideModel mode_name)
        | Some mode =>
            effective ← check_compensation i plan mode;
            let '(mode', reason, compensation_id, escalation_ref) :=
              (effective : RecoveryMode * string * option string * option string) in
            if _should_reflect i mode' then
              decision ← _decide_reflect_and_retry i reason;
              let decision' := _attach_backoff decision failure_count in
              _ ← _emit_recovery (ri_run_id i) (ri_reason_code i) (rd_mode decision');
              mret decision'
            else
              _ ← _record_circuit_failure effect_class (ri_run_id i);
              _ ← _emit_recovery (ri_run_id i) (ri_reason_code i) mode';
              mret (mkRecoveryDecision (pl_run_id plan) mode' reason compensation_id escalation_ref None
                      (_compute_retry_after_ms mode' failure_count) failure_count)
        end
    end.
End gate.
Arguments gate_state S E : clear implicits.
Arguments mkGate {S E}. Arguments g_failure_counts {S E}. Arguments g_circuit_failures {S E}.
Arguments g_circuit_last_failure_mono {S E}. Arguments g_world {S E}.

(** Lemmas *************************************************************************)

(** Modes reached by registering on top of the built-in ones. *)
Inductive modes_reachable : mode_registry -> Prop :=
  | mr_builtin : modes_reachable builtin_modes
  | mr_register action mode r : modes_reachable r -> modes_reachable (register_mode action mode r).2.

(** The mode of a plan action. *)
Definition mode_of_action (a : RecoveryPlanAction) : RecoveryMode :=
  match a with
  | schedule_compensation => static_compensation
  | notify_human_operator => human_escalation
  | abort_run => abort
  end.

(** A registration never changes what is registered. *)
Lemma register_mode_keeps action mode r k m :
  get_mode k r = Some m -> get_mode k (register_mode action mode r).2 = Some m.
Proof.
  unfold get_mode, register_mode. intros Hk. py_simpl. destruct (od_get action r) as [m'|] eqn:Ha; [done|].
  simpl. rewrite od_get_set_ne; [done|]. congruence.
Qed.

Lemma modes_reachable_builtin r a : modes_reachable r ->
  get_mode (plan_action_str a) r = Some (mode_str (mode_of_action a)).
Proof. induction 1; [by destruct a|by apply register_mode_keeps]. Qed.

Lemma parse_mode_str m : parse_mode (mode_str m) = Some m.
Proof. by destruct m. Qed.

Section gate_lemmas.
Context {S : Type} `{!DedupeStorePort S} {E Ctx Cfg : Type}.
Context (sha256 : string -> string) (now : string) (gp : gate_ports E Ctx Cfg).
Implicit Types g : gate_state S E.

(** Two gates that differ in the environment only. *)
Record same_gate g g' : Prop := {
  sg_counts : g_failure_counts g' = g_failure_counts g;
  sg_failures : g_circuit_failures g' = g_circuit_failures g;
  sg_last : g_circuit_last_failure_mono g' = g_circuit_last_failure_mono g;
  sg_store : cw_store (g_world g') = cw_store (g_world g);
  sg_attempts : cw_attempts (g_world g') = cw_attempts (g_world g)
}.

#[local] Instance same_gate_preorder : PreOrder same_gate.
Proof. split; [by split|]. intros g1 g2 g3 [] []. split; congruence. Qed.

Lemma wp_g_env {A} (m : PyM E A) (Q : A -> gate_state S E -> Prop) R g :
  (forall a env g', m (cw_env (g_world g)) = (Ret a, env) -> same_gate g g' -> Q a g') ->
  (forall e g', same_gate g g' -> R e g') -> wp (g_env m) Q R g.
Proof.
  intros HQ HR. unfold g_env, on_world, on_env. apply wp_zoom, wp_zoom, wp_any; simpl.
  - intros a env Hm. eapply HQ; [exact Hm|by split].
  - intros e env _. by apply HR.
Qed.

Lemma wp_emit h (Q : unit -> gate_state S E -> Prop) R g :
  (forall g', same_gate g g' -> Q tt g') -> (forall e g', same_gate g g' -> R e g') ->
  wp (emit_hook gp h) Q R g.
Proof.
  intros HQ HR. unfold emit_hook. destruct (gp_observability_hook gp).
  - apply wp_suppress. apply wp_g_env; [intros [] env g' _; apply HQ|].
    intros e g' Hg. destruct (is_exception e); [by apply HQ|by apply HR].
  - by apply wp_ret, HQ.
Qed.

(** A reading of the clock. *)
Definition clock_reads (t : Z) : Prop := exists env env', gp_monotonic gp env = (Ret t, env').

Definition failures_of (cls : string) g : Z := default 0 (od_get cls (g_circuit_failures g)).
Definition last_failure_of (cls : string) g : Z := default 0 (od_get cls (g_circuit_last_failure_mono g)).

(** The breaker of the gate is open for a class at a clock reading. *)
Definition open_at (p : CircuitBreakerPolicy) (cls : string) g (t : Z) : Prop :=
  cb_threshold p <= failures_of cls g /\ t - last_failure_of cls g < cb_half_open_after_ms p * 1000.

(** What the check for a class may answer. *)
Definition circuit_answer (cls : option string) g (b : bool) : Prop :=
  match gp_circuit_breaker_policy gp, cls with
  | Some p, Some c =>
      if b then exists t, clock_reads t /\ open_at p c g t
      else failures_of c g < cb_threshold p \/ exists t, clock_reads t /\ ~ open_at p c g t
  | _, _ => b = false
  end.

Lemma wp_is_circuit_open cls (Q : bool -> gate_state S E -> Prop) R g :
  gp_circuit_breaker_store gp = None ->
  (forall b g', circuit_answer cls g b -> same_gate g g' -> Q b g') ->
  (forall e g', same_gate g g' -> R e g') -> wp (_is_circuit_open gp cls) Q R g.
Proof.
  intros Hs HQ HR. unfold _is_circuit_open, circuit_answer in *. rewrite Hs.
  destruct (gp_circuit_breaker_policy gp) as [p|]; [|by apply wp_ret, HQ].
  destruct cls as [c|]; [|by apply wp_ret, HQ].
  apply wp_bind. change (wp (py_get (S := gate_state S E)) ?Q0 ?R0 g) with (Q0 g g). cbv beta.
  fold (failures_of c g) (last_failure_of c g).
  destruct (Z.ltb_spec (failures_of c g) (cb_threshold p)) as [Hlt|Hge]; [apply wp_ret, HQ; [by left|done]|].
  apply wp_bind, wp_g_env; [|done]. intros t env g' Ht Hg. apply wp_ret, HQ; [|done].
  destruct (Z.ltb_spec (t - last_failure_of c g) (cb_half_open_after_ms p * 1000)) as [Hlt|Hge'].
  - exists t. split; [by do 2 eexists|by split].
  - right. exists t. split; [by do 2 eexists|]. intros [_ ?]. lia.
Qed.

(** A failure recorded for a class. *)
Definition recorded (cls : option string) g g' : Prop :=
  match gp_circuit_breaker_policy gp, cls with
  | Some _, Some c => exists t, clock_reads t /\
      g_circuit_failures g' = od_set c (failures_of c g + 1) (g_circuit_failures g) /\
      g_circuit_last_failure_mono g' = od_set c t (g_circuit_last_failure_mono g)
  | _, _ => g_circuit_failures g' = g_circuit_failures g /\
            g_circuit_last_failure_mono g' = g_circuit_last_failure_mono g
  end.

Lemma wp_record_circuit_failure cls run_id (Q : unit -> gate_state S E -> Prop) R g :
  gp_circuit_breaker_store gp = None ->
  (forall g', recorded cls g g' -> g_failure_counts g' = g_failure_counts g -> Q tt g') ->
  (forall e g', R e g') -> wp (_record_circuit_failure gp cls run_id) Q R g.
Proof.
  intros Hs HQ HR. unfold _record_circuit_failure, recorded in *. rewrite Hs.
  destruct (gp_circuit_breaker_policy gp) as [p|]; [|by apply wp_ret, HQ].
  destruct cls as [c|]; [|by apply wp_ret, HQ].
  do 2 apply wp_bind. change (wp (py_get (S := gate_state S E)) ?Q0 ?R0 g) with (Q0 g g). cbv beta.
  fold (failures_of c g). apply wp_bind, wp_modify, wp_bind, wp_g_env; [|done].
  intros t env g1 Ht [Hc Hf Hl _ _]. simpl in *. apply wp_bind, wp_modify, wp_ret.
  unfold _emit_circuit_breaker_trip. apply wp_emit; [|done]. intros g2 [Hc2 Hf2 Hl2 _ _]. simpl in *.
  apply HQ; [|congruence]. exists t. split; [by do 2 eexists|]. split; congruence.
Qed.

(** The plan after the compensation check: mode, reason, compensation, escalation. *)
Definition planned (i : RecoveryInput) : outcome (RecoveryMode * string * option string * option string) :=
  plan ← build_plan_from_input (gp_planner gp) i;
  let mode := mode_of_action (pl_action plan) in
  let missing := match gp_compensation_registry gp, _extract_effect_class i with
                 | Some entries, Some cls => negb (has_handler cls entries)
                 | _, _ => false
                 end in
  if bool_decide (mode = static_compensation) && missing then
    mret (abort, pl_reason plan +:+ ":no_compensation_handler", None, None)
  else mret (mode, pl_reason plan, pl_compensation_action_id plan, pl_escalation_channel_ref plan).

Lemma check_compensation_planned i plan g :
  build_plan_from_input (gp_planner gp) i = Ret plan ->
  exists r, planned i = Ret r /\ check_compensation gp i plan (mode_of_action (pl_action plan)) g = (Ret r, g).
Proof.
  intros Hp. unfold planned, check_compensation. rewrite Hp.
  unfold mbind at 1, outcome_bind.
  destruct (mode_of_action (pl_action plan)); simpl; eauto;
    destruct (gp_compensation_registry gp), (_extract_effect_class i); simpl; eauto.
  destruct (negb _); eauto.
Qed.

(** What reflection decides. *)
Definition reflected (i : RecoveryInput) (n : Z) (d : RecoveryDecision) : Prop :=
  rd_run_id d = ri_run_id i /\ rd_failure_count d = n /\
  rd_mode d ∈ [reflect_and_retry; human_escalation; abort] /\
  (rd_mode d = reflect_and_retry <-> is_Some (rd_corrected_action d)) /\
  rd_retry_after_ms d = _compute_retry_after_ms (rd_mode d) n.

Lemma wp_reflect i reason n (Q : RecoveryDecision -> gate_state S E -> Prop) R g :
  (forall d g', same_gate g g' -> reflected i n (_attach_backoff d n) -> Q d g') ->
  (forall e g', same_gate g g' -> R e g') ->
  wp (_decide_reflect_and_retry sha256 now gp i reason) Q R g.
Proof.
  intros HQ HR. unfold _decide_reflect_and_retry.
  destruct (gp_reflection_policy gp) as [policy|]; [|by apply wp_raise, HR].
  destruct (gp_reasoning_loop gp) as [run_once|]; [|by apply wp_raise, HR].
  destruct (gp_reflection_builder gp) as [build_context|]; [|by apply wp_raise, HR].
  assert (forall g', same_gate g g' -> Q (_fallback_decision policy i reason) g') as Hfb.
  { intros g' Hg. apply HQ; [done|]. unfold reflected, _fallback_decision.
    destruct (rf_escalate_on_exhaustion policy); simpl; split_and!; try done; try set_solver; by split; [|intros []]. }
  apply wp_bind, wp_g_env; [|done]. intros context _ g1 _ Hg1.
  destruct (gp_default_inference_config gp) as [cfg|]; [|by apply wp_raise, HR]. apply wp_bind.
  assert (forall s, wp (result ← py_catch (g_env (run_once (ri_run_id i) s cfg context
      (ri_run_id i +:+ ":" +:+ pretty (rp_projected_offset (ri_projection i)) +:+ ":reflection:" +:+
       pretty (ri_reflection_round i + 1))));
    match (result : list Action + exn) with
    | inr _ => mret (_fallback_decision policy i reason)
    | inl [] =>
        _ ← _emit_reflection_round gp (ri_run_id i) "unknown" (ri_reflection_round i + 1) false;
        mret (_fallback_decision policy i reason)
    | inl (corrected_action :: _) =>
        _ ← _emit_reflection_round gp (ri_run_id i) "unknown" (ri_reflection_round i + 1) true;
        mret (plain_decision (ri_run_id i) reflect_and_retry
          (reason +:+ ":reflect_and_retry:round=" +:+ pretty (ri_reflection_round i + 1)) (Some corrected_action))
    end) Q R g1) as Hrun.
  { intros s. apply wp_bind, wp_catch, wp_g_env.
    - intros [|a actions] _ g2 _ Hg2; apply wp_bind, wp_emit; try (intros e g3 Hg3; apply HR; by do 2 (etrans; [eassumption|]));
        intros g3 Hg3; apply wp_ret.
      + apply Hfb. by do 2 (etrans; [eassumption|]).
      + apply HQ; [by do 2 (etrans; [eassumption|])|]. unfold reflected. simpl. split_and!; try done; try set_solver.
    - intros e g2 Hg2. destruct (is_exception e); [apply wp_ret, Hfb|apply HR]; by etrans. }
  destruct (ri_capability_snapshot i) as [s|]; [apply wp_ret, Hrun|].
  apply wp_lift; [intros s _; apply Hrun|intros e _; by apply HR].
Qed.

(** Code that never calls a compensation handler nor touches the ledger. *)
Definition inert {A} (m : PyM (gate_state S E) A) : Prop := forall g,
  cw_attempts (g_world (m g).2) = cw_attempts (g_world g) /\ cw_store (g_world (m g).2) = cw_store (g_world g).

Lemma inert_bind {A B} (m : PyM (gate_state S E) A) (k : A -> PyM (gate_state S E) B) :
  inert m -> (forall a, inert (k a)) -> inert (m ≫= k).
Proof.
  intros Hm Hk g. unfold mbind, PyM_bind. specialize (Hm g). destruct (m g) as [[a|e] g1]; [|exact Hm].
  destruct (Hk a g1) as [Ha Hs]. simpl in Hm. destruct Hm. split; congruence.
Qed.

Lemma inert_g_env {A} (m : PyM E A) : inert (g_env (S := S) m).
Proof. intros g. unfold g_env, on_world, on_env, py_zoom. by destruct (m _). Qed.

Lemma inert_catch {A} (m : PyM (gate_state S E) A) : inert m -> inert (py_catch m).
Proof. intros Hm g. specialize (Hm g). unfold py_catch. destruct (m g) as [[a|e] g1]; [done|]. by destruct (is_exception e). Qed.

Lemma inert_emit h : inert (emit_hook (S := S) gp h).
Proof.
  intros g. unfold emit_hook. destruct (gp_observability_hook gp) as [f|]; [|done].
  pose proof (inert_g_env (f h) g) as Hf. unfold py_suppress, py_except.
  destruct (g_env (f h) g) as [[[]|e] g1]; [done|]. by destruct (is_exception e).
Qed.

Lemma inert_pure {A} (o : outcome A) : inert (py_lift o).
Proof. done. Qed.

Lemma inert_reflect i reason : inert (_decide_reflect_and_retry (S := S) sha256 now gp i reason).
Proof.
  unfold _decide_reflect_and_retry, _emit_reflection_round.
  destruct (gp_reflection_policy gp), (gp_reasoning_loop gp), (gp_reflection_builder gp); try (intros g; done).
  apply inert_bind; [apply inert_g_env|]. intros context. destruct (gp_default_inference_config gp); [|intros g; done].
  apply inert_bind; [destruct (ri_capability_snapshot i); [intros g; done|apply inert_pure]|].
  intros s. apply inert_bind; [apply inert_catch, inert_g_env|].
  intros [[|a l]|e]; [| |intros g; done]; (apply inert_bind; [apply inert_emit|]; intros [] g; done).
Qed.

Lemma inert_is_circuit_open cls : inert (_is_circuit_open (S := S) gp cls).
Proof.
  unfold _is_circuit_open. destruct (gp_circuit_breaker_policy gp), cls; try (intros g; done).
  destruct (gp_circuit_breaker_store gp).
  - apply inert_bind; [apply inert_g_env|]. intros [n l]. destruct (_ <? _); [intros g; done|].
    apply inert_bind; [apply inert_g_env|]. intros t g. done.
  - apply inert_bind; [intros g; done|]. intros g0. destruct (_ <? _); [intros g; done|].
    apply inert_bind; [apply inert_g_env|]. intros t g. done.
Qed.

Lemma inert_record cls run_id : inert (_record_circuit_failure (S := S) gp cls run_id).
Proof.
  unfold _record_circuit_failure. destruct (gp_circuit_breaker_policy gp), cls; try (intros g; done).
  apply inert_bind; [|intros n; apply inert_emit]. destruct (gp_circuit_breaker_store gp); [apply inert_g_env|].
  apply inert_bind; [intros g; done|]. intros g0. apply inert_bind; [intros g; done|]. intros [].
  apply inert_bind; [apply inert_g_env|]. intros t. apply inert_bind; [intros g; done|]. intros [] g. done.
Qed.

Lemma inert_check_compensation i plan mode : inert (check_compensation (S := S) gp i plan mode).
Proof.
  unfold check_compensation. destruct mode, (gp_compensation_registry gp), (_extract_effect_class i);
    try (intros g; done). simpl. destruct (negb _); intros g; done.
Qed.

Lemma inert_decide modes i : inert (decide_recovery (S := S) sha256 now gp modes i).
Proof.
  unfold decide_recovery, _emit_recovery. apply inert_bind; [intros g; done|]. intros g0.
  apply inert_bind; [intros g; done|]. intros []. apply inert_bind; [apply inert_is_circuit_open|]. intros [].
  - apply inert_bind; [apply inert_emit|]. intros [] g. done.
  - apply inert_bind; [apply inert_pure|]. intros plan. destruct (get_mode _ _); [|intros g; done].
    destruct (parse_mode _); [|intros g; done]. apply inert_bind; [apply inert_check_compensation|].
    intros [[[m rs] c] e]. destruct (_should_reflect gp i m).
    + apply inert_bind; [apply inert_reflect|]. intros d. apply inert_bind; [apply inert_emit|]. intros [] g. done.
    + apply inert_bind; [apply inert_record|]. intros []. apply inert_bind; [apply inert_emit|]. intros [] g. done.
Qed.

(** The three ways a decision is made, with the gate's breaker kept in memory. *)
Inductive decided (i : RecoveryInput) g g' (n : Z) : RecoveryDecision -> Prop :=
  | by_breaker p cls t :
      gp_circuit_breaker_policy gp = Some p -> ri_failed_effect_class i = Some cls ->
      clock_reads t -> open_at p cls g t ->
      g_circuit_failures g' = g_circuit_failures g ->
      g_circuit_last_failure_mono g' = g_circuit_last_failure_mono g ->
      decided i g g' n (mkRecoveryDecision (ri_run_id i) abort (ri_reason_code i +:+ ":circuit_open")
                          None None None None n)
  | by_reflection m r c e d :
      circuit_answer (ri_failed_effect_class i) g false ->
      planned i = Ret (m, r, c, e) -> _should_reflect gp i m = true -> reflected i n d ->
      g_circuit_failures g' = g_circuit_failures g ->
      g_circuit_last_failure_mono g' = g_circuit_last_failure_mono g ->
      decided i g g' n d
  | by_plan m r c e :
      circuit_answer (ri_failed_effect_class i) g false ->
      planned i = Ret (m, r, c, e) -> _should_reflect gp i m = false ->
      recorded (ri_failed_effect_class i) g g' ->
      decided i g g' n (mkRecoveryDecision (ri_run_id i) m r c e None (_compute_retry_after_ms m n) n).

Lemma build_plan_run_id i plan : build_plan_from_input (gp_planner gp) i = Ret plan -> pl_run_id plan = ri_run_id i.
Proof.
  unfold build_plan_from_input. case_decide; [done|]. repeat case_match; intros [= <-]; done.
Qed.

Lemma wp_decide modes i g :
  gp_circuit_breaker_store gp = None -> modes_reachable modes ->
  let n := default 0 (od_get (ri_run_id i) (g_failure_counts g)) + 1 in
  wp (decide_recovery sha256 now gp modes i)
    (fun d g' => g_failure_counts g' = od_set (ri_run_id i) n (g_failure_counts g) /\ decided i g g' n d)
    (fun _ _ => True) g.
Proof.
  intros Hs Hmodes n. unfold decide_recovery, _emit_recovery. apply wp_bind.
  change (wp (py_get (S := gate_state S E)) ?Q0 ?R0 g) with (Q0 g g). cbv beta. fold n.
  apply wp_bind, wp_modify, wp_bind. set (g0 := mkGate _ _ _ _).
  apply wp_is_circuit_open; [done| |done]. intros b g1 Hb Hg1.
  assert (g_failure_counts g1 = od_set (ri_run_id i) n (g_failure_counts g)) as Hn1 by apply Hg1.
  assert (g_circuit_failures g1 = g_circuit_failures g) as Hf1 by apply Hg1.
  assert (g_circuit_last_failure_mono g1 = g_circuit_last_failure_mono g) as Hl1 by apply Hg1.
  change (circuit_answer (ri_failed_effect_class i) g b) in Hb. destruct b.
  { apply wp_bind, wp_emit; [|done]. intros g2 [Hc2 Hf2 Hl2 _ _]. apply wp_ret. split; [congruence|].
    unfold circuit_answer in Hb. destruct (gp_circuit_breaker_policy gp) as [p|] eqn:Hp; [|done].
    destruct (ri_failed_effect_class i) as [c|] eqn:Hc; [|done]. destruct Hb as (t & Ht & Ho).
    eapply by_breaker; [done|done|exact Ht|exact Ho|congruence|congruence]. }
  apply wp_bind, wp_lift; [|done]. intros plan Hplan.
  rewrite modes_reachable_builtin, parse_mode_str by done.
  destruct (check_compensation_planned i plan g1 Hplan) as ([[[m r] c] e] & Hpl & Hcheck).
  apply wp_bind. unfold wp at 1. rewrite Hcheck. destruct (_should_reflect gp i m) eqn:Hr.
  - apply wp_bind, wp_reflect with (n := n); [|done]. intros d g2 [Hc2 Hf2 Hl2 _ _] Hd.
    apply wp_bind, wp_emit; [|done]. intros g3 [Hc3 Hf3 Hl3 _ _]. apply wp_ret. split; [congruence|].
    eapply by_reflection; [done|exact Hpl|done|done|congruence|congruence].
  - apply wp_bind, wp_record_circuit_failure; [done| |done]. intros g2 Hrec Hc2.
    apply wp_bind, wp_emit; [|done]. intros g3 [Hc3 Hf3 Hl3 _ _]. apply wp_ret. split; [congruence|].
    rewrite (build_plan_run_id _ _ Hplan). eapply by_plan; [done|exact Hpl|done|].
    unfold recorded, failures_of in *. rewrite Hf1, Hl1 in Hrec. rewrite Hf3, Hl3. exact Hrec.
Qed.
End gate_lemmas.

(** Properties *********************************************************************)

Lemma contains_lower_colon s : contains (lower s) ":" = contains s ":".
Proof.
  induction s as [|c s IH]; [done|]. cbn [lower contains startswith]. rewrite IH. f_equal.
  assert (":"%char = lower_char c <-> ":"%char = c) as Hc.
  { split; [|by intros <-]. destruct c as [[] [] [] [] [] [] [] []]; vm_compute; congruence. }
  repeat case_decide; try tauto; by destruct s.
Qed.

Lemma classify_normalized p reason : classify_reason p (lower (strip reason)) = classify_reason p reason.
Proof. unfold classify_reason. by rewrite strip_lower_idemp. Qed.

Lemma retry_bounds m n : 1 <= n ->
  match _compute_retry_after_ms m n with
  | Some ms => m ∈ [static_compensation; reflect_and_retry] /\ 500 <= ms <= 30000 /\
      ms = Z.min (500 * 2 ^ (Z.min (n - 1) 16)) 30000
  | None => m ∈ [human_escalation; abort]
  end.
Proof.
  intros Hn. assert (0 <= Z.min (n - 1) 16) as He by lia.
  pose proof (Z.pow_pos_nonneg 2 (Z.min (n - 1) 16) ltac:(lia) He).
  destruct m; simpl; try set_solver; unfold _BACKOFF_BASE_MS, _BACKOFF_MAX_MS;
    rewrite (proj2 (Z.ltb_ge _ _) He); (split; [set_solver|]); lia.
Qed.

(** The planner, with its default heuristics.  Run ids must agree.  A recovery
    mode of the projection decides; otherwise a run waiting for an external
    event is escalated; otherwise the class of the reason (trimmed, in lower
    case) decides: human escalates, fatal aborts, transient and unknown
    compensate the failed action, or abort when no action is known. *)
Theorem recovery_plan_table (i : RecoveryInput) :
  let projection := ri_projection i in
  let plan action id channel := Ret (mkPlan (ri_run_id i) action ("recovery:" +:+ ri_reason_code i) id channel) in
  let target := py_or (ri_failed_action_id i) (rp_current_action_id projection) in
  let result := build_plan_from_input default_heuristics i in
  (ri_run_id i <> rp_run_id projection -> exists msg, result = Raise (ValueError msg)) /\
  (ri_run_id i = rp_run_id projection ->
   match rp_recovery_mode projection with
   | Some human_escalation => result = plan notify_human_operator None (Some "human://operator")
   | Some static_compensation => result = plan schedule_compensation target None
   | Some abort => result = plan abort_run None None
   | _ =>
       if decide (ri_lifecycle_state i = ls_waiting_external) then
         result = plan notify_human_operator None (Some "human://operator")
       else match classify_reason default_heuristics (ri_reason_code i), target with
            | cls_human, _ => result = plan notify_human_operator None (Some "human://operator")
            | cls_fatal, _ | _, None => result = plan abort_run None None
            | _, Some id => result = plan schedule_compensation (Some id) None
            end
   end).
Proof.
  intros projection plan target result. unfold result, build_plan_from_input. fold projection.
  split; intros Hid; [rewrite decide_True by done; by eexists|].
  rewrite decide_False by tauto. fold target. rewrite classify_normalized.
  destruct (rp_recovery_mode projection) as [[]|]; try done; (case_decide; [done|]);
    by destruct (classify_reason _ _), target.
Qed.

(** C39: The gate, with its circuit breaker in memory and any modes registered on
    top of the built-in ones.  A decision counts one more failure of the run (of all its
    actions, and the count is never reset)
    and is made in one of three ways.  The breaker is open for the effect class
    (its count has reached the threshold and the cooldown since the last
    failure has not elapsed): abort, and the breaker does not change.  Or the
    breaker lets the failure through and reflection is due: the breaker does
    not change.  Or it takes the plan, downgraded to abort when the class named
    by the reason has no handler, and records one more failure of the effect
    class at the time of the clock.  Retryable modes carry a delay that doubles
    from 500 ms up to 30 s, the others none. *)
Theorem recovery_decision {S E Ctx Cfg : Type} `{!DedupeStorePort S} (sha256 : string -> string)
    (now : string) (gp : gate_ports E Ctx Cfg) (modes : mode_registry) (i : RecoveryInput)
    (g g' : gate_state S E) (d : RecoveryDecision) :
  gp_circuit_breaker_store gp = None -> modes_reachable modes ->
  decide_recovery sha256 now gp modes i g = (Ret d, g') ->
  let n := default 0 (od_get (ri_run_id i) (g_failure_counts g)) + 1 in
  g_failure_counts g' = od_set (ri_run_id i) n (g_failure_counts g) /\
  decided gp i g g' n d /\ rd_failure_count d = n /\ rd_run_id d = ri_run_id i /\
  (1 <= n -> match rd_retry_after_ms d with
             | Some ms => rd_mode d ∈ [static_compensation; reflect_and_retry] /\ 500 <= ms <= 30000 /\
                 ms = Z.min (500 * 2 ^ (Z.min (n - 1) 16)) 30000
             | None => rd_mode d ∈ [human_escalation; abort]
             end).
Proof.
  intros Hs Hm Hd n. pose proof (wp_decide sha256 now gp modes i g Hs Hm) as Hw.
  unfold wp in Hw. rewrite Hd in Hw. destruct Hw as [Hc Hdec]. fold n in Hc, Hdec.
  split_and!; [done|done| | |]; destruct Hdec as [| m r c e d0 _ _ _ (Hrun & Hn & _ & _ & Hr) | m r c e];
    simpl; try done.
  - intros _. set_solver.
  - rewrite Hr. apply retry_bounds.
  - apply retry_bounds.
Qed.

(** The gate never runs a compensation: whatever its services, registry and
    input, a decision calls no handler and leaves the ledger alone.  (The code
    that would execute one reads a field recovery inputs do not have.) *)
Theorem gate_never_compensates {S E Ctx Cfg : Type} `{!DedupeStorePort S} (sha256 : string -> string)
    (now : string) (gp : gate_ports E Ctx Cfg) (modes : mode_registry) (i : RecoveryInput)
    (g : gate_state S E) :
  let g' := (decide_recovery sha256 now gp modes i g).2 in
  cw_attempts (g_world g') = cw_attempts (g_world g) /\ cw_store (g_world g') = cw_store (g_world g).
Proof. apply inert_decide. Qed.

(** The handler check does not look at the effect class of the failure: when
    the reason has no colon, a failure of a run in static compensation is
    answered with a compensation decision although no handler at all is
    registered. *)
Theorem handler_check_ignores_effect_class {S E Ctx Cfg : Type} `{!DedupeStorePort S}
    (sha256 : string -> string) (now : string) (gp : gate_ports E Ctx Cfg) (i : RecoveryInput)
    (g : gate_state S E) :
  gp_compensation_registry gp = Some [] -> gp_observability_hook gp = None ->
  gp_circuit_breaker_policy gp = None -> gp_reflection_policy gp = None ->
  ri_run_id i = rp_run_id (ri_projection i) ->
  rp_recovery_mode (ri_projection i) = Some static_compensation -> contains (ri_reason_code i) ":" = false ->
  exists d, (decide_recovery sha256 now gp builtin_modes i g).1 = Ret d /\ rd_mode d = static_compensation.
Proof.
  intros Hreg Hhook Hpol Href Hid Hmode Hcolon.
  unfold decide_recovery, _is_circuit_open, _record_circuit_failure, _emit_recovery, emit_hook.
  rewrite Hpol, Hhook. unfold build_plan_from_input. rewrite decide_False by tauto. rewrite Hmode.
  py_simpl. unfold check_compensation, _should_reflect, _extract_effect_class. simpl. rewrite Href, Hreg.
  assert (contains (lower (ri_reason_code i)) ":" = false) as ->.
  { by rewrite contains_lower_colon. }
  by eexists.
Qed.

(** Witnesses **********************************************************************)

(** A gate with a breaker of threshold 1 and a registry without handlers. *)
Definition example_gate (breaker : option CircuitBreakerPolicy) : gate_ports unit unit unit :=
  mkGatePorts unit unit unit default_heuristics (Some []) None None None None None breaker None false
    (mret 1000000) (mret 1000000) (mret 0) (fun _ => mret tt).

Definition example_recovery_input (mode : option RecoveryMode) : RecoveryInput :=
  mkRecoveryInput "run-1" "transient_executor" ls_dispatching
    (mkRunProjection "run-1" ls_dispatching 3 false true (Some "act-1") mode None [] None None)
    (Some "act-1") 0 None (Some "compensatable_write").

Definition fresh_gate : gate_state InMemory.store unit := mkGate [] [] [] (mkCW [] tt []).

(** The second failure within the cooldown is answered by the breaker. *)
Lemma recovery_decision_witness :
  let gp := example_gate (Some (mkCircuitBreakerPolicy 1 30000)) in
  let i := example_recovery_input None in
  let g := (decide_recovery (fun s => s) "now" gp builtin_modes i fresh_gate).2 in
  let d := mkRecoveryDecision "run-1" abort "transient_executor:circuit_open" None None None None 2 in
  decided gp i g (mkGate [("run-1", 2)] (g_circuit_failures g) (g_circuit_last_failure_mono g) (g_world g)) 2 d.
Proof.
  intros gp i g d.
  destruct (recovery_decision (fun s => s) "now" gp builtin_modes i g
    (mkGate [("run-1", 2)] (g_circuit_failures g) (g_circuit_last_failure_mono g) (g_world g)) d)
    as (_ & H & _); [done|constructor|by vm_compute|exact H].
Defined.

Lemma handler_check_ignores_effect_class_witness :
  exists d, (decide_recovery (fun s => s) "now" (example_gate None) builtin_modes
    (example_recovery_input (Some static_compensation)) fresh_gate).1 = Ret d /\
    rd_mode d = static_compensation.
Proof.
  by apply (handler_check_ignores_effect_class (fun s => s) "now" (example_gate None)
    (example_recovery_input (Some static_compensation)) fresh_gate).
Defined.
