(* ===== verification/RunContext.v ===== *)
(** * Posture and identity of a request ([hi_agent/config/posture.py],
    [hi_agent/server/tenant_context.py], [hi_agent/context/run_execution_context.py])

    What the components of the server share: the execution posture read from the
    environment, the authenticated tenant of a request, and the identity fields of a
    run.  Environment variables are arguments; the context variable of the request is
    a value that is set and read. *)

From stdpp Require Import base tactics option list strings.
From Stdlib Require Import ZArith.
From S2P Require Import Prelude PyStr PyDict PyVal.
#[local] Arguments String.append : simpl nomatch.

(** [hi_agent/config/posture.py] *)
Inductive Posture := DEV | RESEARCH | PROD.

#[export] Instance Posture_eq_dec : EqDecision Posture.
Proof. solve_decision. Defined.

Definition posture_value (p : Posture) : string :=
  match p with DEV => "dev" | RESEARCH => "research" | PROD => "prod" end.

Definition is_strict (p : Posture) : bool := match p with DEV => false | _ => true end.

(** [Posture.from_env], given the value of [HI_AGENT_POSTURE]. *)
Definition from_env (env : option string) : outcome Posture :=
  let raw := lower (strip (default "dev" env)) in
  if decide (raw = "dev") then Ret DEV
  else if decide (raw = "research") then Ret RESEARCH
  else if decide (raw = "prod") then Ret PROD
  else Raise (ValueError ("HI_AGENT_POSTURE=" +:+ py_repr_str raw +:+
                          " is not valid; expected one of: dev, research, prod")).

(** [resolve_runtime_mode], given [HI_AGENT_POSTURE] and [HI_AGENT_ENV]. *)
Definition resolve_runtime_mode (posture_var env_var : option string) : string :=
  let modes := ["dev"; "research"; "prod"] in
  let posture_env := lower (strip (default "" posture_var)) in
  let legacy_env := lower (strip (default "" env_var)) in
  if decide (posture_env ∈ modes) then posture_env
  else if decide (legacy_env ∈ modes) then legacy_env
  else "prod".

Definition TenantScopeError (msg : string) : exn := OtherError "TenantScopeError" msg.
Definition SpineCompletenessError (msg : string) : exn := OtherError "SpineCompletenessError" msg.

(** The names of the empty ones of some fields. *)
Definition missing_fields (fields : list (string * string)) : list string :=
  fst <$> filter (fun f => f.2 = "") fields.

(** What a strict posture refuses and [dev] only logs; [error] is the exception. *)
Definition require_fields (posture : outcome Posture) (fields : list (string * string))
    (error : Posture -> list string -> exn) : outcome unit :=
  p ← posture;
  let missing := missing_fields fields in
  if decide (missing = []) then Ret tt
  else if is_strict p then Raise (error p missing) else Ret tt.

(** [hi_agent/server/tenant_context.py] *)
Record TenantContext := mkTenantCtx {
  tc_tenant_id : string;
  tc_team_id : string;
  tc_user_id : string;
  tc_roles : list string;
  tc_scopes : list string;
  tc_auth_method : string;
  tc_request_id : string;
  tc_session_id : string
}.

(** [TenantContext.__post_init__] *)
Definition tenant_context_post_init (posture : outcome Posture) (c : TenantContext) : outcome TenantContext :=
  _ ← require_fields posture [("tenant_id", tc_tenant_id c)]
        (fun p _ => SpineCompletenessError ("TenantContext constructed without required spine fields under posture=" +:+
           posture_value p +:+ ": missing=['tenant_id']. Populate at the construction site (Rule 12)."));
  Ret c.

(** [WorkspaceKey], and [workspace_key] *)
Record WorkspaceKey := mkWorkspaceKey { wk_tenant_id : string; wk_user_id : string; wk_session_id : string; wk_team_id : string }.

Definition workspace_key (c : TenantContext) : outcome WorkspaceKey :=
  if decide (tc_session_id c = "") then
    Raise (ValueError "session_id is required to build a WorkspaceKey. Ensure SessionMiddleware is configured for workspace-scoped routes.")
  else Ret (mkWorkspaceKey (tc_tenant_id c) (tc_user_id c) (tc_session_id c) (tc_team_id c)).

(** The context variable: [set] gives the token that [reset] takes. *)
Definition context_var := option TenantContext.
Definition get_tenant_context : PyM context_var (option TenantContext) := py_get.
Definition set_tenant_context (c : TenantContext) : PyM context_var context_var :=
  old ← py_get; _ ← py_put (Some c); mret old.
Definition reset_tenant_context (token : context_var) : PyM context_var unit := py_put token.
Definition require_tenant_context : PyM context_var TenantContext :=
  ctx ← get_tenant_context;
  match ctx with Some c => mret c | None => py_raise (RuntimeError "No TenantContext set for this request") end.

(** [hi_agent/context/run_execution_context.py] *)
Record RunExecutionContext := mkExecCtx {
  ec_tenant_id : string;
  ec_user_id : string;
  ec_session_id : string;
  ec_project_id : string;
  ec_profile_id : string;
  ec_run_id : string;
  ec_parent_run_id : string;
  ec_attempt_id : string;
  ec_phase_id : string;
  ec_stage_id : string;
  ec_capability_name : string;
  ec_request_id : string
}.

(** [a or b] on strings. *)
Definition or_else (x y : string) : string := if decide (x = "") then y else x.

Definition with_stage (stage_id : string) (c : RunExecutionContext) : RunExecutionContext :=
  mkExecCtx (ec_tenant_id c) (ec_user_id c) (ec_session_id c) (ec_project_id c) (ec_profile_id c) (ec_run_id c)
    (ec_parent_run_id c) (ec_attempt_id c) (ec_phase_id c) stage_id (ec_capability_name c) (ec_request_id c).
Definition with_capability (capability_name : string) (c : RunExecutionContext) : RunExecutionContext :=
  mkExecCtx (ec_tenant_id c) (ec_user_id c) (ec_session_id c) (ec_project_id c) (ec_profile_id c) (ec_run_id c)
    (ec_parent_run_id c) (ec_attempt_id c) (ec_phase_id c) (ec_stage_id c) capability_name (ec_request_id c).
Definition with_phase (phase_id : string) (c : RunExecutionContext) : RunExecutionContext :=
  mkExecCtx (ec_tenant_id c) (ec_user_id c) (ec_session_id c) (ec_project_id c) (ec_profile_id c) (ec_run_id c)
    (ec_parent_run_id c) (ec_attempt_id c) phase_id (ec_stage_id c) (ec_capability_name c) (ec_request_id c).
Definition with_attempt (attempt_id parent_run_id : string) (c : RunExecutionContext) : RunExecutionContext :=
  let parent := or_else parent_run_id (or_else (ec_run_id c) (ec_parent_run_id c)) in
  mkExecCtx (ec_tenant_id c) (ec_user_id c) (ec_session_id c) (ec_project_id c) (ec_profile_id c) (ec_run_id c)
    parent attempt_id (ec_phase_id c) (ec_stage_id c) (ec_capability_name c) (ec_request_id c).

Definition to_spine_kwargs (c : RunExecutionContext) : odict string string :=
  [("tenant_id", ec_tenant_id c); ("user_id", ec_user_id c); ("session_id", ec_session_id c);
   ("project_id", ec_project_id c)].
Definition to_spine_kwargs_full (c : RunExecutionContext) : odict string string :=
  [("tenant_id", ec_tenant_id c); ("user_id", ec_user_id c); ("session_id", ec_session_id c);
   ("project_id", ec_project_id c); ("profile_id", ec_profile_id c); ("run_id", ec_run_id c);
   ("parent_run_id", ec_parent_run_id c); ("attempt_id", ec_attempt_id c); ("phase_id", ec_phase_id c);
   ("stage_id", ec_stage_id c); ("capability_name", ec_capability_name c); ("request_id", ec_request_id c)].
Definition to_lineage_kwargs (c : RunExecutionContext) : odict string string :=
  [("parent_run_id", ec_parent_run_id c); ("attempt_id", ec_attempt_id c); ("phase_id", ec_phase_id c)].

(** Lemmas *************************************************************************)

Lemma require_fields_ok posture fields error : missing_fields fields = [] ->
  (exists p, posture = Ret p) -> require_fields posture fields error = Ret tt.
Proof. intros Hm (p & ->). unfold require_fields. cbn [mbind outcome_bind]. by rewrite Hm. Qed.

Lemma require_fields_dev fields error : require_fields (Ret DEV) fields error = Ret tt.
Proof. unfold require_fields. cbn [mbind outcome_bind is_strict]. by case_decide. Qed.

(** With no variable set the posture is [dev], the runtime mode [prod]. *)
Lemma unset_modes_differ : from_env None = Ret DEV /\ resolve_runtime_mode None None = "prod".
Proof. split; vm_compute; reflexivity. Qed.

(** Where a posture is given the two agree. *)
Lemma modes_agree v p e : from_env (Some v) = Ret p -> resolve_runtime_mode (Some v) e = posture_value p.
Proof.
  unfold from_env, resolve_runtime_mode. simpl (default _ (Some v)).
  change (id v) with v. generalize (lower (strip v)). intros raw.
  destruct (decide (raw = "dev")) as [->|]; [intros [= <-]; by vm_compute|].
  destruct (decide (raw = "research")) as [->|]; [intros [= <-]; by vm_compute|].
  destruct (decide (raw = "prod")) as [->|]; [intros [= <-]; by vm_compute|]. done.
Qed.
