(* ===== verification/SqlTable.v ===== *)
(** * Tables

    The SQL the SQLite-backed components use, over a table as the list of its rows
    in insertion order. *)

From stdpp Require Import base tactics option list strings.
From S2P Require Import Prelude.

(** SQL over a list of rows: [SELECT] of one row, [UPDATE] with its [rowcount],
    [DELETE]. *)
Definition select_one {A} (p : A -> bool) (t : list A) : option A := List.find p t.
Definition update_where {A} (p : A -> bool) (f : A -> A) (t : list A) : list A :=
  map (fun r => if p r then f r else r) t.
Definition rowcount {A} (p : A -> bool) (t : list A) : nat := length (filter (fun r => p r = true) t).
Definition delete_where {A} (p : A -> bool) (t : list A) : list A := filter (fun r => p r = false) t.

(** Lemmas *************************************************************************)

Lemma select_one_Some {A} (p : A -> bool) t r : select_one p t = Some r -> r ∈ t /\ p r = true.
Proof. intros H. apply List.find_some in H as [Hin Hp]. by rewrite list_elem_of_In. Qed.

Lemma select_one_None {A} (p : A -> bool) t r : select_one p t = None -> r ∈ t -> p r = false.
Proof. intros H Hin. apply (List.find_none _ _ H). by rewrite <-list_elem_of_In. Qed.

Lemma rowcount_pos {A} (p : A -> bool) t : 0 < rowcount p t <-> is_Some (select_one p t).
Proof.
  unfold rowcount, select_one. induction t as [|r t IH]; simpl; [split; [lia|by intros []]|].
  rewrite filter_cons. destruct (p r); simpl; [|done]. split; [by eexists|lia].
Qed.

Lemma delete_where_id {A} (p : A -> bool) t : (forall x, x ∈ t -> p x = false) -> delete_where p t = t.
Proof.
  unfold delete_where. induction t as [|x t IH]; intros H; [done|]. rewrite filter_cons_True by (apply H; by left).
  f_equal. apply IH. intros y Hy. apply H. by right.
Qed.

Lemma select_deleted {A} (p : A -> bool) t : select_one p (delete_where p t) = None.
Proof.
  destruct (select_one p _) as [r|] eqn:Hr; [|done].
  apply select_one_Some in Hr as [[Hf _]%list_elem_of_filter Hp]. congruence.
Qed.

Lemma update_where_none {A} p f (t : list A) : (forall r, r ∈ t -> p r = false) -> update_where p f t = t.
Proof.
  induction t as [|r t IH]; intros H; [done|]. simpl. rewrite H by (by left). f_equal.
  apply IH. intros r' Hr'. apply H. by right.
Qed.

Lemma select_app_last {A} (p : A -> bool) t d : p d = true -> is_Some (select_one p (t ++ [d])).
Proof. intros Hd. unfold select_one. rewrite find_app. simpl. rewrite Hd. case_match; by eexists. Qed.

(** Tables with a primary key ******************************************************)

Section keyed.
Context {R K : Type} `{EqDecision K} (key : R -> K).
Implicit Types (t : list R) (r : R) (k : K).

Definition has_key k r : bool := bool_decide (key r = k).

(** Updates of columns other than the key. *)
Definition key_kept (f : R -> R) : Prop := forall r, key (f r) = key r.

Lemma has_key_eq k r : has_key k r = true <-> key r = k.
Proof. apply bool_decide_eq_true. Qed.

(** A row with its key is the row of the key. *)
Lemma select_elem t r : NoDup (map key t) -> r ∈ t -> select_one (has_key (key r)) t = Some r.
Proof.
  unfold select_one. induction t as [|r' t IH]; simpl; [by intros _ ?%elem_of_nil|].
  intros [Hn Hnd]%NoDup_cons [->|Hin]%elem_of_cons.
  - unfold has_key. by rewrite bool_decide_true.
  - unfold has_key at 1. rewrite bool_decide_false; [by apply IH|]. intros Heq. apply Hn.
    rewrite Heq. by apply list_elem_of_fmap_2.
Qed.

Lemma select_update p f t k : key_kept f ->
  select_one (has_key k) (update_where p f t) = (fun r => if p r then f r else r) <$> select_one (has_key k) t.
Proof.
  intros Hf. unfold select_one, update_where. induction t as [|r t IH]; simpl; [done|].
  assert (has_key k (if p r then f r else r) = has_key k r) as ->.
  { unfold has_key. destruct (p r); [|done]. by rewrite Hf. }
  destruct (has_key k r); [done|exact IH].
Qed.

Lemma update_keys p f t : key_kept f -> map key (update_where p f t) = map key t.
Proof.
  intros Hf. unfold update_where. rewrite map_map. apply map_ext. intros r. by destruct (p r).
Qed.

Lemma delete_where_keys p t : NoDup (map key t) -> NoDup (map key (delete_where p t)).
Proof.
  unfold delete_where. induction t as [|r t IH]; simpl; [done|]. intros [Hn Hnd]%NoDup_cons.
  rewrite filter_cons. case_decide; simpl; [|by apply IH]. apply NoDup_cons. split; [|by apply IH].
  intros (r' & Hr' & Hin)%list_elem_of_fmap. apply list_elem_of_filter in Hin as [_ Hin].
  apply Hn. rewrite Hr'. by apply list_elem_of_fmap_2.
Qed.

Lemma select_delete p t k : NoDup (map key t) ->
  select_one (has_key k) (delete_where p t) =
  match select_one (has_key k) t with Some r => if p r then None else Some r | None => None end.
Proof.
  unfold select_one, delete_where. induction t as [|r t IH]; simpl; [done|].
  intros [Hn Hnd]%NoDup_cons. rewrite filter_cons.
  destruct (has_key k r) eqn:Hk; case_decide as Hp; simpl; rewrite ?Hk, ?IH by done; [by rewrite Hp| |done|done].
  destruct (p r); [|done]. apply has_key_eq in Hk as <-.
  destruct (List.find (has_key (key r)) t) as [r'|] eqn:Hf; [|done].
  apply List.find_some in Hf as [Hin Hr'%has_key_eq]. destruct Hn. rewrite <-Hr'.
  apply list_elem_of_fmap_2. by apply list_elem_of_In.
Qed.

(** A condition besides the key. *)
Lemma select_and t k p : NoDup (map key t) ->
  select_one (fun r => has_key k r && p r) t =
  match select_one (has_key k) t with Some r => if p r then Some r else None | None => None end.
Proof.
  unfold select_one. induction t as [|r t IH]; simpl; [done|]. intros [Hn Hnd]%NoDup_cons.
  destruct (has_key k r) eqn:Hk; simpl; [|by apply IH]. destruct (p r); [done|]. rewrite IH by done.
  apply has_key_eq in Hk as <-. destruct (List.find (has_key (key r)) t) as [r'|] eqn:Hf; [|done].
  apply List.find_some in Hf as [Hin Hr'%has_key_eq]. destruct Hn. rewrite <-Hr'.
  apply list_elem_of_fmap_2. by apply list_elem_of_In.
Qed.

Lemma select_insert t r k : select_one (has_key (key r)) t = None ->
  select_one (has_key k) (t ++ [r]) = if decide (key r = k) then Some r else select_one (has_key k) t.
Proof.
  unfold select_one. intros Hn. rewrite find_app. simpl. case_decide as Hk.
  - subst k. rewrite Hn. unfold has_key. by rewrite bool_decide_true.
  - assert (has_key k r = false) as -> by (unfold has_key; by apply bool_decide_false).
    by destruct (List.find (has_key k) t).
Qed.

Lemma insert_keys t r : NoDup (map key t) -> select_one (has_key (key r)) t = None -> NoDup (map key (t ++ [r])).
Proof.
  intros Hnd Hr. rewrite map_app. apply NoDup_app. split; [done|]. split; [|by apply NoDup_singleton].
  intros k (r' & -> & Hin)%list_elem_of_fmap Hk%list_elem_of_singleton.
  pose proof (select_one_None _ _ _ Hr Hin) as Hf. unfold has_key in Hf.
  rewrite bool_decide_true in Hf; [done|by rewrite Hk].
Qed.
End keyed.
