(* ===== verification/RunQueue.v ===== *)
(** * Durable run queue ([hi_agent/server/run_queue.py])

    The database of [RunQueue] is its two tables, [run_queue] and
    [dead_lettered_runs], as lists of rows in insertion order.  A method is
    state-passing code over it; [threading.Lock] makes each one atomic in its process.
    In [claim_next] and [fail] the SELECT and the UPDATE are apart: [claim_next] and
    [fail_overtaken] take what other connections do in between, and [fail] is the latter
    with nothing in between.  Clock readings are arguments (integers,
    microseconds).  A history of calls is a list of [queue_cmd]. *)

From stdpp Require Import base tactics option list sorting strings.
From Stdlib Require Import ZArith.
From S2P Require Import Prelude PyStr PyVal RunContext SqlTable.
#[local] Arguments String.append : simpl nomatch.

(** [_check_tenant_scope], given the outcome of [Posture.from_env]. *)
Definition _check_tenant_scope (posture : outcome Posture) (tenant_id : option string)
    (method : string) : outcome (option string) :=
  let value := strip (default "" tenant_id) in
  if decide (value = "") then
    match posture with
    | Raise e =>
        if is_exception e then
          Raise (TenantScopeError ("RunQueue." +:+ method +:+
                   ": tenant_id is required but posture resolution failed."))
        else Raise e
    | Ret p =>
        if is_strict p then
          Raise (TenantScopeError ("RunQueue." +:+ method +:+
                   ": tenant_id is required under research/prod posture but was empty or missing."))
        else Ret None
    end
  else Ret (Some value).

(** The [status] column. *)
Inductive queue_status := st_queued | st_leased | st_completed | st_failed.

#[export] Instance queue_status_eq_dec : EqDecision queue_status.
Proof. solve_decision. Defined.

Record queue_row := mkRow {
  rq_run_id : string;
  rq_status : queue_status;
  rq_priority : Z;
  rq_attempt_count : Z;
  rq_max_attempts : Z;
  rq_worker_id : option string;
  rq_lease_expires_at : option Z;
  rq_cancellation_flag : bool;
  rq_payload_json : string;
  rq_enqueued_at : Z;
  rq_updated_at : Z;
  rq_tenant_id : string;
  rq_user_id : string;
  rq_session_id : string;
  rq_project_id : string;
  rq_adoption_token : option string
}.

Record dlq_row := mkDlq {
  dl_run_id : string;
  dl_reason : string;
  dl_original_state : string;
  dl_dead_lettered_at : string;
  dl_tenant_id : string;
  dl_requeue_count : Z;
  dl_last_requeue_at : option string;
  dl_attempts_count : Z
}.

Record queue_db := mkDb { q_rows : list queue_row; q_dlq : list dlq_row }.

Definition empty_db : queue_db := mkDb [] [].

(** Conditions of the [WHERE] clauses; a comparison with NULL is not true. *)
Definition is_run (run_id : string) (r : queue_row) : bool := bool_decide (rq_run_id r = run_id).
Definition has_status (s : queue_status) (r : queue_row) : bool := bool_decide (rq_status r = s).
Definition has_worker (w : string) (r : queue_row) : bool := bool_decide (rq_worker_id r = Some w).
Definition has_tenant (scoped : option string) (r : queue_row) : bool :=
  match scoped with Some t => bool_decide (rq_tenant_id r = t) | None => true end.
Definition lease_before (now : Z) (r : queue_row) : bool :=
  match rq_lease_expires_at r with Some l => (l <? now)%Z | None => false end.
Definition lease_live (now : Z) (r : queue_row) : bool :=
  match rq_lease_expires_at r with Some l => (now <=? l)%Z | None => false end.
Definition is_dlq (run_id : string) (scoped : option string) (d : dlq_row) : bool :=
  bool_decide (dl_run_id d = run_id) &&
  match scoped with Some t => bool_decide (dl_tenant_id d = t) | None => true end.

(** The columns the [SET] clauses change. *)
Definition set_state (st : queue_status) (w : option string) (lease : option Z) (now : Z)
    (r : queue_row) : queue_row :=
  mkRow (rq_run_id r) st (rq_priority r) (rq_attempt_count r) (rq_max_attempts r) w lease
    (rq_cancellation_flag r) (rq_payload_json r) (rq_enqueued_at r) now (rq_tenant_id r)
    (rq_user_id r) (rq_session_id r) (rq_project_id r) (rq_adoption_token r).
Definition set_attempts (n : Z) (r : queue_row) : queue_row :=
  mkRow (rq_run_id r) (rq_status r) (rq_priority r) n (rq_max_attempts r) (rq_worker_id r)
    (rq_lease_expires_at r) (rq_cancellation_flag r) (rq_payload_json r) (rq_enqueued_at r)
    (rq_updated_at r) (rq_tenant_id r) (rq_user_id r) (rq_session_id r) (rq_project_id r)
    (rq_adoption_token r).
Definition set_token (token : option string) (now : Z) (r : queue_row) : queue_row :=
  mkRow (rq_run_id r) (rq_status r) (rq_priority r) (rq_attempt_count r) (rq_max_attempts r)
    (rq_worker_id r) (rq_lease_expires_at r) (rq_cancellation_flag r) (rq_payload_json r)
    (rq_enqueued_at r) now (rq_tenant_id r) (rq_user_id r) (rq_session_id r) (rq_project_id r) token.
Definition set_cancelled (now : Z) (r : queue_row) : queue_row :=
  mkRow (rq_run_id r) (rq_status r) (rq_priority r) (rq_attempt_count r) (rq_max_attempts r)
    (rq_worker_id r) (rq_lease_expires_at r) true (rq_payload_json r) (rq_enqueued_at r) now
    (rq_tenant_id r) (rq_user_id r) (rq_session_id r) (rq_project_id r) (rq_adoption_token r).
Definition back_to_queued (now : Z) : queue_row -> queue_row := set_state st_queued None None now.

(** Row [r] comes before [r'] in [ORDER BY priority ASC, enqueued_at ASC]. *)
Definition urgency_le (r r' : queue_row) : bool :=
  (rq_priority r <? rq_priority r')%Z ||
  ((rq_priority r =? rq_priority r')%Z && (rq_enqueued_at r <=? rq_enqueued_at r')%Z).

(** The first row of the order; among equals, the one inserted first. *)
Fixpoint most_urgent (l : list queue_row) : option queue_row :=
  match l with
  | [] => None
  | r :: l' =>
      match most_urgent l' with
      | Some r' => if urgency_le r r' then Some r else Some r'
      | None => Some r
      end
  end.

Definition claimable (r : queue_row) : bool := has_status st_queued r && negb (rq_cancellation_flag r).

Module RunQueue.
Section queue.
(** [self._lease_timeout], and the posture of the process. *)
Context (lease_timeout : Z) (posture : outcome Posture).

(** Change one of the tables. *)
Definition put_rows (f : list queue_row -> list queue_row) : PyM queue_db unit :=
  py_modify (fun db => mkDb (f (q_rows db)) (q_dlq db)).
Definition put_dlq (f : list dlq_row -> list dlq_row) : PyM queue_db unit :=
  py_modify (fun db => mkDb (q_rows db) (f (q_dlq db))).

(** An [UPDATE run_queue]; gives [rowcount > 0]. *)
Definition update_rows (p : queue_row -> bool) (f : queue_row -> queue_row) : PyM queue_db bool :=
  db ← py_get;
  _ ← put_rows (update_where p f);
  mret (bool_decide (0 < rowcount p (q_rows db))).

Definition enqueue (run_id : string) (priority : Z) (payload_json tenant_id user_id session_id
    project_id : string) (now : Z) : PyM queue_db unit :=
  put_rows (fun t =>
    if select_one (is_run run_id) t then t
    else t ++ [mkRow run_id st_queued priority 0 3 None None false payload_json now now
                 tenant_id user_id session_id project_id None]).

Definition reenqueue (run_id : string) (tenant_id : option string) (now : Z) : PyM queue_db bool :=
  scoped ← py_lift (_check_tenant_scope posture tenant_id "reenqueue");
  update_rows (fun r => is_run run_id r && has_tenant scoped r)
    (fun r => set_token None now (back_to_queued now r)).

(** The SELECT of [claim_next], its UPDATE, and the method; [others] is what
    other connections do in between. *)
Definition claim_candidate (db : queue_db) : option (string * string) :=
  (fun r => (rq_run_id r, rq_payload_json r)) <$>
    most_urgent (filter (fun r => claimable r = true) (q_rows db)).

Definition claim_update (worker_id run_id : string) (now : Z) : PyM queue_db bool :=
  update_rows (fun r => is_run run_id r && has_status st_queued r)
    (set_state st_leased (Some worker_id) (Some (now + lease_timeout)%Z) now).

Definition claim_next (worker_id : string) (now : Z) (others : queue_db -> queue_db) :
    PyM queue_db (option (string * string)) :=
  db ← py_get;
  match claim_candidate db with
  | None => mret None
  | Some (run_id, payload_json) =>
      _ ← py_modify others;
      ok ← claim_update worker_id run_id now;
      mret (if (ok : bool) then Some (run_id, payload_json) else None)
  end.

Definition heartbeat (run_id worker_id : string) (tenant_id : option string) (now : Z) :
    PyM queue_db bool :=
  scoped ← py_lift (_check_tenant_scope posture tenant_id "heartbeat");
  update_rows (fun r => is_run run_id r && has_worker worker_id r && has_status st_leased r &&
                        lease_live now r && has_tenant scoped r)
    (fun r => set_state (rq_status r) (rq_worker_id r) (Some (now + lease_timeout)%Z) now r).

Definition release_lease (run_id worker_id : string) (now : Z) : PyM queue_db bool :=
  update_rows (fun r => is_run run_id r && has_worker worker_id r && has_status st_leased r)
    (back_to_queued now).

Definition complete (run_id worker_id : string) (tenant_id : option string) (now : Z) :
    PyM queue_db unit :=
  scoped ← py_lift (_check_tenant_scope posture tenant_id "complete");
  put_rows (update_where (fun r => is_run run_id r && has_worker worker_id r && has_tenant scoped r)
              (set_state st_completed None None now)).

(** [INSERT OR REPLACE INTO dead_lettered_runs], keeping the requeue columns of
    the record it replaces. *)
Definition insert_or_replace_dlq (run_id reason original_state now_iso tenant_id : string)
    (attempts : Z) : PyM queue_db unit :=
  put_dlq (fun t =>
    let old := select_one (is_dlq run_id None) t in
    delete_where (is_dlq run_id None) t ++
      [mkDlq run_id reason original_state now_iso tenant_id
         (default 0%Z (dl_requeue_count <$> old)) (old ≫= dl_last_requeue_at) attempts]).

(** The row [fail] reads, and what it writes: the first UPDATE opens the transaction, so
    that other connections may write between the two, but not later. *)
Definition fail_select (run_id worker_id : string) (scoped : option string) (db : queue_db) : option queue_row :=
  select_one (fun r => is_run run_id r && has_worker worker_id r && has_tenant scoped r) (q_rows db).

Definition fail_update (run_id : string) (scoped : option string) (row : queue_row) (now : Z) (now_iso : string) : PyM queue_db unit :=
  let new_attempt_count := (rq_attempt_count row + 1)%Z in
  let exhausted := (rq_max_attempts row <=? new_attempt_count)%Z in
  let new_status := if exhausted then st_failed else st_queued in
  _ ← put_rows (update_where (fun r => is_run run_id r && has_tenant scoped r)
        (fun r => set_attempts new_attempt_count (set_state new_status None None now r)));
  if exhausted then
    db' ← py_get;
    insert_or_replace_dlq run_id "max_attempts_exceeded" "leased" now_iso
      (default "__unknown__" (rq_tenant_id <$> select_one (is_run run_id) (q_rows db')))
      new_attempt_count
  else mret tt.

(** The method, with what other connections do in between. *)
Definition fail_overtaken (run_id worker_id error : string) (tenant_id : option string) (now : Z)
    (now_iso : string) (others : queue_db -> queue_db) : PyM queue_db unit :=
  scoped ← py_lift (_check_tenant_scope posture tenant_id "fail");
  db ← py_get;
  match fail_select run_id worker_id scoped db with
  | None => mret tt
  | Some row => _ ← py_modify others; fail_update run_id scoped row now now_iso
  end.

(** The method when no other connection writes in between. *)
Definition fail (run_id worker_id error : string) (tenant_id : option string) (now : Z)
    (now_iso : string) : PyM queue_db unit :=
  fail_overtaken run_id worker_id error tenant_id now now_iso id.

Definition cancel (run_id : string) (tenant_id : option string) (now : Z) : PyM queue_db unit :=
  scoped ← py_lift (_check_tenant_scope posture tenant_id "cancel");
  put_rows (update_where (fun r => is_run run_id r && has_tenant scoped r) (set_cancelled now)).

Definition expired (now : Z) (r : queue_row) : bool := has_status st_leased r && lease_before now r.

Definition release_expired_leases (now : Z) : PyM queue_db nat :=
  db ← py_get;
  _ ← put_rows (update_where (expired now) (back_to_queued now));
  mret (rowcount (expired now) (q_rows db)).

(** What [expire_stale_leases] reports: run, tenant, lease ([str] of it in the
    code) and age (rounded in the code); a lease of zero is falsy. *)
Definition expire_stale_leases (now : Z) : PyM queue_db (list (string * string * Z * Z)) :=
  db ← py_get;
  mret (map (fun r =>
    let lease := default 0%Z (rq_lease_expires_at r) in
    (rq_run_id r, rq_tenant_id r, lease, if decide (lease = 0%Z) then 0%Z else (now - lease)%Z))
    (filter (fun r => expired now r = true) (q_rows db))).

Definition claim_with_adoption_token (run_id adoption_token : string) (now : Z) : PyM queue_db bool :=
  update_rows (fun r => is_run run_id r && bool_decide (rq_adoption_token r = None))
    (set_token (Some adoption_token) now).

Definition is_cancelled (run_id : string) (tenant_id : option string) : PyM queue_db bool :=
  scoped ← py_lift (_check_tenant_scope posture tenant_id "is_cancelled");
  db ← py_get;
  mret (match select_one (fun r => is_run run_id r && has_tenant scoped r) (q_rows db) with
        | None => false
        | Some r => rq_cancellation_flag r
        end).

Definition dequeue_unclaimed (run_id : string) (tenant_id : option string) : PyM queue_db unit :=
  scoped ← py_lift (_check_tenant_scope posture tenant_id "dequeue_unclaimed");
  put_rows (delete_where (fun r => is_run run_id r && has_status st_queued r && has_tenant scoped r)).

Definition dead_letter (run_id reason original_state : string) (tenant_id : option string) (now : Z)
    (now_iso : string) : PyM queue_db unit :=
  scoped ← py_lift (_check_tenant_scope posture tenant_id "dead_letter");
  let dlq_tenant_id := default "" scoped in
  db ← py_get;
  let attempts_count := default 0%Z (rq_attempt_count <$>
    select_one (fun r => is_run run_id r && has_tenant scoped r) (q_rows db)) in
  _ ← insert_or_replace_dlq run_id reason original_state now_iso dlq_tenant_id attempts_count;
  put_rows (update_where (fun r => is_run run_id r && has_tenant scoped r)
    (fun r => set_state st_failed (rq_worker_id r) (rq_lease_expires_at r) now r)).

(** [ORDER BY dead_lettered_at DESC] *)
Definition later (d d' : dlq_row) : Prop := String.le (dl_dead_lettered_at d') (dl_dead_lettered_at d).

Definition list_dlq (tenant_id : option string) : PyM queue_db (list dlq_row) :=
  db ← py_get;
  mret (merge_sort later
    (match tenant_id with
     | Some t => filter (fun d => dl_tenant_id d = t) (q_dlq db)
     | None => q_dlq db
     end)).

Definition bump_requeue (now_iso : string) (d : dlq_row) : dlq_row :=
  mkDlq (dl_run_id d) (dl_reason d) (dl_original_state d) (dl_dead_lettered_at d) (dl_tenant_id d)
    (dl_requeue_count d + 1)%Z (Some now_iso) (dl_attempts_count d).

Definition requeue_from_dlq (run_id : string) (tenant_id : option string) (now : Z)
    (now_iso : string) : PyM queue_db bool :=
  scoped ← py_lift (_check_tenant_scope posture tenant_id "requeue_from_dlq");
  db ← py_get;
  match select_one (is_dlq run_id scoped) (q_dlq db) with
  | None => mret false
  | Some _ =>
      _ ← put_dlq (update_where (is_dlq run_id scoped) (bump_requeue now_iso));
      _ ← put_dlq (delete_where (is_dlq run_id scoped));
      _ ← put_rows (update_where (fun r => is_run run_id r && has_tenant scoped r) (back_to_queued now));
      mret true
  end.
End queue.
End RunQueue.

(** Histories **********************************************************************)

(** The calls that change the database.  [ClaimUpdate] is the UPDATE of a
    [claim_next] whose SELECT gave the run, now or earlier. *)
Inductive queue_cmd :=
  | Enqueue (run_id : string) (priority : Z) (payload_json tenant_id user_id session_id project_id : string)
      (now : Z)
  | Reenqueue (run_id : string) (tenant_id : option string) (now : Z)
  | ClaimUpdate (worker_id run_id : string) (now : Z)
  | Heartbeat (run_id worker_id : string) (tenant_id : option string) (now : Z)
  | ReleaseLease (run_id worker_id : string) (now : Z)
  | Complete (run_id worker_id : string) (tenant_id : option string) (now : Z)
  | Fail (run_id worker_id error : string) (tenant_id : option string) (now : Z) (now_iso : string)
  | Cancel (run_id : string) (tenant_id : option string) (now : Z)
  | ReleaseExpired (now : Z)
  | Adopt (run_id adoption_token : string) (now : Z)
  | DequeueUnclaimed (run_id : string) (tenant_id : option string)
  | DeadLetter (run_id reason original_state : string) (tenant_id : option string) (now : Z)
      (now_iso : string)
  | RequeueDlq (run_id : string) (tenant_id : option string) (now : Z) (now_iso : string).

Section histories.
Context (lease_timeout : Z) (posture : outcome Posture).

(** The answer of a call; [true] for those that answer nothing. *)
Definition exec_cmd (c : queue_cmd) : PyM queue_db bool :=
  match c with
  | Enqueue k p j t u s pr now => _ ← RunQueue.enqueue k p j t u s pr now; mret true
  | Reenqueue k t now => RunQueue.reenqueue posture k t now
  | ClaimUpdate w k now => RunQueue.claim_update lease_timeout w k now
  | Heartbeat k w t now => RunQueue.heartbeat lease_timeout posture k w t now
  | ReleaseLease k w now => RunQueue.release_lease k w now
  | Complete k w t now => _ ← RunQueue.complete posture k w t now; mret true
  | Fail k w e t now iso => _ ← RunQueue.fail posture k w e t now iso; mret true
  | Cancel k t now => _ ← RunQueue.cancel posture k t now; mret true
  | ReleaseExpired now => _ ← RunQueue.release_expired_leases now; mret true
  | Adopt k token now => RunQueue.claim_with_adoption_token k token now
  | DequeueUnclaimed k t => _ ← RunQueue.dequeue_unclaimed posture k t; mret true
  | DeadLetter k r o t now iso => _ ← RunQueue.dead_letter posture k r o t now iso; mret true
  | RequeueDlq k t now iso => RunQueue.requeue_from_dlq posture k t now iso
  end.

(** A history: answers, in order, and the last database. *)
Fixpoint exec_cmds (cs : list queue_cmd) (db : queue_db) : list (queue_cmd * outcome bool) * queue_db :=
  match cs with
  | [] => ([], db)
  | c :: cs' =>
      let '(r, db') := exec_cmd c db in
      let '(rs, db'') := exec_cmds cs' db' in
      ((c, r) :: rs, db'')
  end.

(** Specification: what a call does to the record of one run. *)

Definition scope_of (tenant_id : option string) (method : string) : outcome (option string) :=
  _check_tenant_scope posture tenant_id method.

(** Applied to a record the condition holds of. *)
Definition when (p : queue_row -> bool) (f : queue_row -> queue_row) (o : option queue_row) :
    option queue_row := (fun r => if p r then f r else r) <$> o.

(** In the scope of a tenant; nothing happens outside of it. *)
Definition scoped_when (scope : outcome (option string)) (p : queue_row -> bool)
    (f : queue_row -> queue_row) (o : option queue_row) : option queue_row :=
  match scope with
  | Ret s => when (fun r => p r && has_tenant s r) f o
  | Raise _ => o
  end.

Definition failed_once (now : Z) (r : queue_row) : queue_row :=
  let n := (rq_attempt_count r + 1)%Z in
  set_attempts n
    (set_state (if (rq_max_attempts r <=? n)%Z then st_failed else st_queued) None None now r).

Definition row_after (c : queue_cmd) (k : string) (dead : bool) (o : option queue_row) : option queue_row :=
  match c with
  | Enqueue k' p j t u s pr now =>
      if decide (k' = k) then
        Some (default (mkRow k st_queued p 0 3 None None false j now now t u s pr None) o)
      else o
  | Reenqueue k' t now =>
      if decide (k' = k) then
        scoped_when (scope_of t "reenqueue") (fun _ => true)
          (fun r => set_token None now (back_to_queued now r)) o
      else o
  | ClaimUpdate w k' now =>
      if decide (k' = k) then
        when (has_status st_queued) (set_state st_leased (Some w) (Some (now + lease_timeout)%Z) now) o
      else o
  | Heartbeat k' w t now =>
      if decide (k' = k) then
        scoped_when (scope_of t "heartbeat")
          (fun r => has_worker w r && has_status st_leased r && lease_live now r)
          (fun r => set_state (rq_status r) (rq_worker_id r) (Some (now + lease_timeout)%Z) now r) o
      else o
  | ReleaseLease k' w now =>
      if decide (k' = k) then
        when (fun r => has_worker w r && has_status st_leased r) (back_to_queued now) o
      else o
  | Complete k' w t now =>
      if decide (k' = k) then
        scoped_when (scope_of t "complete") (has_worker w) (set_state st_completed None None now) o
      else o
  | Fail k' w e t now iso =>
      if decide (k' = k) then scoped_when (scope_of t "fail") (has_worker w) (failed_once now) o else o
  | Cancel k' t now =>
      if decide (k' = k) then scoped_when (scope_of t "cancel") (fun _ => true) (set_cancelled now) o
      else o
  | ReleaseExpired now => when (RunQueue.expired now) (back_to_queued now) o
  | Adopt k' token now =>
      if decide (k' = k) then
        when (fun r => bool_decide (rq_adoption_token r = None)) (set_token (Some token) now) o
      else o
  | DequeueUnclaimed k' t =>
      if decide (k' = k) then
        match scope_of t "dequeue_unclaimed", o with
        | Ret s, Some r => if has_status st_queued r && has_tenant s r then None else o
        | _, _ => o
        end
      else o
  | DeadLetter k' _ _ t now _ =>
      if decide (k' = k) then
        scoped_when (scope_of t "dead_letter") (fun _ => true)
          (fun r => set_state st_failed (rq_worker_id r) (rq_lease_expires_at r) now r) o
      else o
  | RequeueDlq k' t now _ =>
      if decide (k' = k) then
        if dead then scoped_when (scope_of t "requeue_from_dlq") (fun _ => true) (back_to_queued now) o
        else o
      else o
  end.

(** The record of a run, and whether [requeue_from_dlq] finds it in the queue of
    the dead. *)
Definition row_of (db : queue_db) (k : string) : option queue_row := select_one (is_run k) (q_rows db).

Definition dead_in (db : queue_db) (c : queue_cmd) : bool :=
  match c with
  | RequeueDlq k t _ _ =>
      match scope_of t "requeue_from_dlq" with
      | Ret s => bool_decide (is_Some (select_one (is_dlq k s) (q_dlq db)))
      | Raise _ => false
      end
  | _ => false
  end.

(** Run ids are primary keys. *)
Record keys_unique (db : queue_db) : Prop := {
  ku_rows : NoDup (map rq_run_id (q_rows db));
  ku_dlq : NoDup (map dl_run_id (q_dlq db))
}.
End histories.

(** Lemmas on the tables ***********************************************************)

Lemma is_run_eq k r : is_run k r = true <-> rq_run_id r = k.
Proof. apply bool_decide_eq_true. Qed.

(** A record of a run with unique keys is the record of the run. *)
Lemma queue_row_elem db r : NoDup (map rq_run_id (q_rows db)) -> r ∈ q_rows db -> row_of db (rq_run_id r) = Some r.
Proof. exact (select_elem rq_run_id (q_rows db) r). Qed.

(** Columns that are not the key. *)
Abbreviation keeps_key := (key_kept rq_run_id).

Lemma find_update p f t k : keeps_key f ->
  select_one (is_run k) (update_where p f t) = when p f (select_one (is_run k) t).
Proof. exact (select_update rq_run_id p f t k). Qed.

Lemma when_ext p q f o : (forall r, o = Some r -> p r = q r) -> when p f o = when q f o.
Proof. intros H. destruct o as [r|]; [|done]. simpl. by rewrite (H r). Qed.

(** An update of one run is one on its record. *)
Lemma find_update_run p f t k k' : keeps_key f ->
  select_one (is_run k) (update_where (fun r => is_run k' r && p r) f t) =
  if decide (k' = k) then when p f (select_one (is_run k) t) else select_one (is_run k) t.
Proof.
  intros Hf. rewrite find_update by done.
  assert (forall r, select_one (is_run k) t = Some r -> is_run k' r = bool_decide (k' = k)) as Hk.
  { intros r [_ Hr%is_run_eq]%select_one_Some. unfold is_run. rewrite Hr. apply bool_decide_ext.
    by split. }
  case_decide as Heq.
  - apply when_ext. intros r Hr. by rewrite (Hk r Hr), bool_decide_true.
  - destruct (select_one (is_run k) t) as [r|] eqn:Hr; [|done]. simpl.
    by rewrite (Hk r eq_refl), bool_decide_false.
Qed.

Lemma update_where_keys p f t : keeps_key f -> map rq_run_id (update_where p f t) = map rq_run_id t.
Proof. exact (update_keys rq_run_id p f t). Qed.

Lemma find_delete p t k : NoDup (map rq_run_id t) ->
  select_one (is_run k) (delete_where p t) =
  match select_one (is_run k) t with Some r => if p r then None else Some r | None => None end.
Proof. exact (select_delete rq_run_id p t k). Qed.

Lemma find_app_new t r k : select_one (is_run (rq_run_id r)) t = None ->
  select_one (is_run k) (t ++ [r]) =
  if decide (rq_run_id r = k) then Some r else select_one (is_run k) t.
Proof. exact (select_insert rq_run_id t r k). Qed.

(** Compute a method on the tables. *)
Ltac rq_simpl :=
  unfold RunQueue.fail, RunQueue.fail_overtaken, RunQueue.fail_select, RunQueue.fail_update, RunQueue.insert_or_replace_dlq, RunQueue.update_rows, RunQueue.put_rows, RunQueue.put_dlq in *; py_simpl.

Section queue_facts.
Context (lease_timeout : Z) (posture : outcome Posture).
Abbreviation exec c := (exec_cmd lease_timeout posture c).
Abbreviation after c := (row_after lease_timeout posture c).

(** The tables after a call. *)
Lemma exec_update p f db : (RunQueue.update_rows p f db).2 = mkDb (update_where p f (q_rows db)) (q_dlq db).
Proof. done. Qed.

Lemma when_true p f o : (forall r, p r = true) -> when p f o = f <$> o.
Proof. intros H. destruct o as [r|]; [|done]. simpl. by rewrite H. Qed.

(** An update of the rows of one run is one on its record. *)
Lemma find_update_if P q f t k k' : keeps_key f -> (forall r, P r = is_run k' r && q r) ->
  select_one (is_run k) (update_where P f t) =
  if decide (k' = k) then when q f (select_one (is_run k) t) else select_one (is_run k) t.
Proof.
  intros Hf HP. rewrite <-find_update_run by done. rewrite !find_update by done.
  by apply when_ext.
Qed.

(** The record of a run after an update in the scope of a tenant. *)
Ltac row_scoped :=
  rq_simpl; destruct (_check_tenant_scope _ _ _) as [s|e]; [|by case_decide];
  unfold row_of; cbn [q_rows snd scoped_when];
  apply find_update_if; [done|intros r; by rewrite ?andb_true_l, ?andb_assoc].

Lemma exec_enqueue k p j t u s pr now db :
  (exec (Enqueue k p j t u s pr now) db).2 =
  mkDb (match row_of db k with
        | Some _ => q_rows db
        | None => q_rows db ++ [mkRow k st_queued p 0 3 None None false j now now t u s pr None]
        end) (q_dlq db).
Proof. unfold row_of. simpl. by destruct (select_one _ _). Qed.

(** [fail] on the row of the run. *)
Lemma exec_fail k w e t now iso db :
  (exec (Fail k w e t now iso) db).2 =
  match scope_of posture t "fail" with
  | Raise _ => db
  | Ret s =>
      match select_one (fun r => is_run k r && has_worker w r && has_tenant s r) (q_rows db) with
      | None => db
      | Some row =>
          mkDb (update_where (fun r => is_run k r && has_tenant s r)
                  (fun r => set_attempts (rq_attempt_count row + 1)
                     (set_state (if (rq_max_attempts row <=? rq_attempt_count row + 1)%Z
                                 then st_failed else st_queued) None None now r)) (q_rows db))
               (q_dlq (exec (Fail k w e t now iso) db).2)
      end
  end.
Proof.
  simpl. unfold RunQueue.fail. rq_simpl. unfold scope_of.
  destruct (_check_tenant_scope posture t "fail") as [s|e']; [|done].
  destruct (select_one _ _) as [row|]; [|done]. by destruct (_ <=? _)%Z.
Qed.

Lemma row_of_fail k w e t now iso db k' : NoDup (map rq_run_id (q_rows db)) ->
  row_of (exec (Fail k w e t now iso) db).2 k' = after (Fail k w e t now iso) k' false (row_of db k').
Proof.
  intros Hnd. rewrite exec_fail. unfold row_after, scoped_when, row_of.
  destruct (scope_of posture t "fail") as [s|e']; [|by case_decide].
  destruct (select_one (fun r => is_run k r && has_worker w r && has_tenant s r) _) as [row|] eqn:Hrow.
  - apply select_one_Some in Hrow as [Hin [[Hk%is_run_eq Hw]%andb_true_iff Ht]%andb_true_iff].
    cbn [q_rows snd]. rewrite find_update_run by done. case_decide as Heq; [|done]. subst k'.
    pose proof (queue_row_elem db row Hnd Hin) as Hr. rewrite Hk in Hr. unfold row_of in Hr. rewrite Hr.
    simpl. by rewrite Hw, Ht.
  - case_decide as Heq; [|done]. subst k'. destruct (select_one (is_run k) _) as [r|] eqn:Hr; [|done].
    simpl. apply select_one_Some in Hr as [Hin Hk].
    pose proof (select_one_None _ _ _ Hrow Hin) as Hf. cbv beta in Hf. rewrite Hk in Hf. simpl in Hf.
    by rewrite Hf.
Qed.

(** Each call acts on the record of every run by itself. *)
Lemma exec_row c db k : NoDup (map rq_run_id (q_rows db)) ->
  row_of (exec c db).2 k = after c k (dead_in posture db c) (row_of db k).
Proof.
  intros Hnd. destruct c.
  - rewrite exec_enqueue. unfold row_after. unfold row_of at 1. cbn [q_rows snd].
    destruct (row_of db run_id) as [r|] eqn:Hr.
    + case_decide as Heq; [|done]. subst k. by rewrite Hr.
    + rewrite find_app_new by exact Hr. simpl. case_decide as Heq; [|done]. subst k. by rewrite Hr.
  - simpl. unfold RunQueue.reenqueue, scope_of. row_scoped.
  - unfold row_of. simpl. by rewrite find_update_run.
  - simpl. unfold RunQueue.heartbeat, scope_of. row_scoped.
  - unfold row_of. simpl. apply find_update_if; [done|]. intros r. by rewrite andb_assoc.
  - simpl. unfold RunQueue.complete, scope_of. row_scoped.
  - by apply row_of_fail.
  - simpl. unfold RunQueue.cancel, scope_of. row_scoped.
  - unfold row_of. simpl. by rewrite find_update.
  - unfold row_of. simpl. by rewrite find_update_run.
  - simpl. unfold RunQueue.dequeue_unclaimed, scope_of. rq_simpl.
    destruct (_check_tenant_scope _ _ _) as [s|e]; [|by case_decide].
    unfold row_of. cbn [q_rows snd]. rewrite find_delete by done.
    destruct (select_one (is_run k) (q_rows db)) as [r|] eqn:Hr; [|by case_decide].
    apply select_one_Some in Hr as [_ Hk%is_run_eq]. unfold is_run. rewrite Hk.
    case_decide as Heq.
    + by rewrite bool_decide_true.
    + by rewrite bool_decide_false by (intros ->; by destruct Heq).
  - simpl. unfold RunQueue.dead_letter, scope_of. row_scoped.
  - simpl. unfold RunQueue.requeue_from_dlq, scope_of. rq_simpl.
    destruct (_check_tenant_scope _ _ _) as [s|e]; [|by case_decide].
    destruct (select_one (is_dlq run_id s) (q_dlq db)) as [d|] eqn:Hd.
    + rewrite bool_decide_true by (by eexists). unfold row_of. cbn [q_rows snd scoped_when]. by apply find_update_if.
    + rewrite bool_decide_false by (by intros []). by case_decide.
Qed.
End queue_facts.

(** The invariant ******************************************************************)

(** Worker and lease go together; a queued or completed run has neither, a leased
    one both. *)
Record row_ok (r : queue_row) : Prop := {
  ro_lease : match rq_status r with
    | st_queued | st_completed => rq_worker_id r = None /\ rq_lease_expires_at r = None
    | st_leased => is_Some (rq_worker_id r) /\ is_Some (rq_lease_expires_at r)
    | st_failed => is_Some (rq_worker_id r) <-> is_Some (rq_lease_expires_at r)
    end;
  ro_max : rq_max_attempts r = 3%Z;
  ro_attempts : (0 <= rq_attempt_count r)%Z
}.

(** A record of the dead was never requeued. *)
Definition never_requeued (d : dlq_row) : Prop := dl_requeue_count d = 0%Z /\ dl_last_requeue_at d = None.

Record queue_wf (db : queue_db) : Prop := {
  qw_keys : keys_unique db;
  qw_rows : Forall row_ok (q_rows db);
  qw_dlq : Forall never_requeued (q_dlq db)
}.

Lemma keep_row_ok f r : row_ok r -> rq_status (f r) = rq_status r -> rq_worker_id (f r) = rq_worker_id r ->
  rq_lease_expires_at (f r) = rq_lease_expires_at r -> rq_max_attempts (f r) = rq_max_attempts r ->
  rq_attempt_count (f r) = rq_attempt_count r -> row_ok (f r).
Proof. intros [Hl Hm Ha] Hs Hw He Hm' Ha'. split; rewrite ?Hs, ?Hw, ?He, ?Hm', ?Ha'; done. Qed.

Lemma when_Some p f o r' : when p f o = Some r' ->
  exists r, o = Some r /\ ((p r = true /\ r' = f r) \/ (p r = false /\ r' = r)).
Proof. destruct o as [r|]; simpl; intros [= <-]. exists r. destruct (p r); auto. Qed.

Lemma scoped_when_Some s p f o r' : scoped_when s p f o = Some r' ->
  exists r, o = Some r /\ (r' = r \/ p r = true /\ r' = f r).
Proof.
  destruct s as [s|e]; simpl; [|by eauto]. intros (r & -> & [[[Hp _]%andb_true_iff ->]|[_ ->]])%when_Some; eauto.
Qed.

Section queue_theorems.
Context (lease_timeout : Z) (posture : outcome Posture).
Abbreviation exec c := (exec_cmd lease_timeout posture c).
Abbreviation run cs := (exec_cmds lease_timeout posture cs).
Abbreviation after c := (row_after lease_timeout posture c).

Lemma row_after_ok c k dead o r' : (forall r, o = Some r -> row_ok r) -> after c k dead o = Some r' -> row_ok r'.
Proof.
  intros Ho. assert (forall r, r' = r -> o = Some r -> row_ok r') as Hid by (intros r ->; apply Ho).
  destruct c; simpl; try (case_decide; [|by eauto]).
  - destruct o as [r|]; simpl; intros [= <-]; [by apply Ho|done].
  - intros (r & -> & [->|[_ ->]])%scoped_when_Some; [by apply Ho|]. by destruct (Ho r eq_refl).
  - intros (r & -> & [[_ ->]|[_ ->]])%when_Some; [|by apply Ho]. destruct (Ho r eq_refl).
    split; simpl; [split; by eexists|done|done].
  - intros (r & -> & [->|[Hp ->]])%scoped_when_Some; [by apply Ho|].
    apply andb_true_iff in Hp as [[_ Hs%bool_decide_eq_true]%andb_true_iff _].
    destruct (Ho r eq_refl) as [Hl Hm Ha]. rewrite Hs in Hl. split; simpl; [|done|done].
    rewrite Hs. split; [apply Hl|by eexists].
  - intros (r & -> & [[_ ->]|[_ ->]])%when_Some; by destruct (Ho r eq_refl).
  - intros (r & -> & [->|[_ ->]])%scoped_when_Some; by destruct (Ho r eq_refl).
  - intros (r & -> & [->|[_ ->]])%scoped_when_Some; [by apply Ho|]. destruct (Ho r eq_refl) as [_ Hm Ha].
    split; simpl; [by destruct (_ <=? _)%Z|done|lia].
  - intros (r & -> & [->|[_ ->]])%scoped_when_Some; by destruct (Ho r eq_refl).
  - intros (r & -> & [[_ ->]|[_ ->]])%when_Some; by destruct (Ho r eq_refl).
  - intros (r & -> & [[_ ->]|[_ ->]])%when_Some; by destruct (Ho r eq_refl).
  - destruct (scope_of _ _ _), o as [r|]; try by eauto. case_match; [done|by eauto].
  - intros (r & -> & [->|[_ ->]])%scoped_when_Some; [by apply Ho|]. destruct (Ho r eq_refl) as [Hl Hm Ha].
    split; simpl; [|done|done]. destruct (rq_status r); [destruct Hl as [-> ->]| |destruct Hl as [-> ->]|]; done || tauto.
  - destruct dead; [|by eauto]. intros (r & -> & [->|[_ ->]])%scoped_when_Some; by destruct (Ho r eq_refl).
Qed.

(** The queue of the dead after an [INSERT OR REPLACE]. *)
Lemma replaced_dlq_ok k reason orig iso t n (d : list dlq_row) :
  NoDup (map dl_run_id d) -> Forall never_requeued d ->
  let d' := delete_where (is_dlq k None) d ++
    [mkDlq k reason orig iso t (default 0%Z (dl_requeue_count <$> select_one (is_dlq k None) d))
       (select_one (is_dlq k None) d ≫= dl_last_requeue_at) n] in
  NoDup (map dl_run_id d') /\ Forall never_requeued d'.
Proof.
  intros Hnd Hn d'. unfold d'. split.
  - rewrite map_app. apply NoDup_app. split; [by apply delete_where_keys|]. split; [|by apply NoDup_singleton].
    intros k' (x & -> & [Hp _]%list_elem_of_filter)%list_elem_of_fmap Hk%list_elem_of_singleton.
    simpl in Hk. unfold is_dlq in Hp. by rewrite bool_decide_true in Hp.
  - apply Forall_app. rewrite Forall_singleton. split.
    { apply Forall_forall. intros x [_ Hin]%list_elem_of_filter. rewrite Forall_forall in Hn. by apply Hn. }
    destruct (select_one _ _) as [x|] eqn:Hx; [|done].
    apply select_one_Some in Hx as [Hin _]. rewrite Forall_forall in Hn. by destruct (Hn x Hin).
Qed.

Lemma exec_keys_dlq c db : keys_unique db -> Forall never_requeued (q_dlq db) ->
  keys_unique (exec c db).2 /\ Forall never_requeued (q_dlq (exec c db).2).
Proof.
  intros [Hr Hd] Hn.
  assert (forall p f, keeps_key f -> keys_unique (mkDb (update_where p f (q_rows db)) (q_dlq db)) /\
    Forall never_requeued (q_dlq db)) as Hupd.
  { intros p f Hf. split; [|done]. split; [|done]. simpl. by rewrite update_where_keys. }
  assert (forall p f k reason orig iso t n, keeps_key f ->
    let db' := mkDb (update_where p f (q_rows db)) (delete_where (is_dlq k None) (q_dlq db) ++
      [mkDlq k reason orig iso t (default 0%Z (dl_requeue_count <$> select_one (is_dlq k None) (q_dlq db)))
       (select_one (is_dlq k None) (q_dlq db) ≫= dl_last_requeue_at) n]) in
    keys_unique db' /\ Forall never_requeued (q_dlq db')) as Hrep.
  { intros p f k reason orig iso t n Hf. destruct (replaced_dlq_ok k reason orig iso t n _ Hd Hn) as [Hk Hf'].
    split; [|exact Hf']. split; [|exact Hk]. simpl. by rewrite update_where_keys. }
  destruct c; try (by apply Hupd).
  - rewrite exec_enqueue. destruct (row_of db run_id) as [r|] eqn:Hk; [by destruct db|].
    split; [|done]. split; [|done]. simpl. rewrite map_app. apply NoDup_app. split; [done|].
    split; [|by apply NoDup_singleton]. intros k' (r & -> & Hin)%list_elem_of_fmap Heq%list_elem_of_singleton.
    simpl in Heq. pose proof (queue_row_elem db r Hr Hin) as Hk'. congruence.
  - simpl. unfold RunQueue.reenqueue. rq_simpl. destruct (_check_tenant_scope _ _ _); [by apply Hupd|done].
  - simpl. unfold RunQueue.heartbeat. rq_simpl. destruct (_check_tenant_scope _ _ _); [by apply Hupd|done].
  - simpl. unfold RunQueue.complete. rq_simpl. destruct (_check_tenant_scope _ _ _); [by apply Hupd|done].
  - simpl. unfold RunQueue.fail. rq_simpl. destruct (_check_tenant_scope _ _ _); [|done].
    destruct (select_one _ (q_rows db)) as [row|]; [|done].
    destruct (_ <=? _)%Z; [|by apply Hupd]. by apply Hrep.
  - simpl. unfold RunQueue.cancel. rq_simpl. destruct (_check_tenant_scope _ _ _); [by apply Hupd|done].
  - simpl. unfold RunQueue.dequeue_unclaimed. rq_simpl. destruct (_check_tenant_scope _ _ _); [|done].
    split; [|done]. split; [by apply delete_where_keys|done].
  - simpl. unfold RunQueue.dead_letter. rq_simpl. destruct (_check_tenant_scope _ _ _); [|done]. by apply Hrep.
  - simpl. unfold RunQueue.requeue_from_dlq. rq_simpl. destruct (_check_tenant_scope _ _ _) as [sc|]; [|done].
    destruct (select_one (is_dlq run_id sc) (q_dlq db)); [|done]. simpl. split.
    + split; simpl; [by rewrite update_where_keys|]. apply delete_where_keys.
      unfold update_where. rewrite map_map. erewrite map_ext; [exact Hd|]. intros x. by destruct (is_dlq _ _ _).
    + apply Forall_forall. intros x [Hx Hin]%list_elem_of_filter.
      apply list_elem_of_fmap in Hin as (y & -> & Hy). rewrite Forall_forall in Hn.
      destruct (is_dlq run_id sc y) eqn:Hz; [|by apply Hn]. unfold is_dlq in *. simpl in Hx. congruence.
Qed.

Lemma exec_wf c db : queue_wf db -> queue_wf (exec c db).2.
Proof.
  intros [Hk Hr Hd]. destruct (exec_keys_dlq c db Hk Hd) as [Hk' Hd']. split; [done| |done].
  apply Forall_forall. intros r Hin. pose proof (queue_row_elem _ r (ku_rows _ Hk') Hin) as Hrow.
  rewrite exec_row in Hrow by apply Hk. eapply row_after_ok; [|exact Hrow].
  intros r0 [Hin0 _]%select_one_Some. rewrite Forall_forall in Hr. by apply Hr.
Qed.

Lemma exec_cmds_cons c cs db :
  run (c :: cs) db = ((c, (exec c db).1) :: (run cs (exec c db).2).1, (run cs (exec c db).2).2).
Proof. simpl. destruct (exec c db) as [r db']. simpl. by destruct (run cs db'). Qed.

Lemma exec_cmds_app cs cs' db : (run (cs ++ cs') db).2 = (run cs' (run cs db).2).2.
Proof.
  revert db. induction cs as [|c cs IH]; intros db; [done|]. rewrite <-app_comm_cons, !exec_cmds_cons. simpl. apply IH.
Qed.

Lemma exec_cmds_wf cs : forall db, queue_wf db -> queue_wf (run cs db).2.
Proof.
  induction cs as [|c cs IH]; intros db Hwf; [done|]. rewrite exec_cmds_cons. simpl.
  by apply IH, exec_wf.
Qed.

Lemma empty_wf : queue_wf empty_db.
Proof. split; [split; by apply NoDup_nil|by apply Forall_nil|by apply Forall_nil]. Qed.

(** Leases *)

(** The record of [k] is leased by [w] until [L] or later. *)
Definition leased_by (w : string) (L : Z) (o : option queue_row) : Prop :=
  exists r l, o = Some r /\ rq_status r = st_leased /\ rq_worker_id r = Some w /\
    rq_lease_expires_at r = Some l /\ (L <= l)%Z.

(** A call that does not take the lease of [w] on [k] (good until [L]) away: not a
    recovery of the run, not the end of the lease by [w] itself, no sweep after [L]. *)
Definition respects (k w : string) (L : Z) (c : queue_cmd) : Prop :=
  match c with
  | Reenqueue k' _ _ | DeadLetter k' _ _ _ _ _ | RequeueDlq k' _ _ _ => k' <> k
  | ReleaseLease k' w' _ | Complete k' w' _ _ | Fail k' w' _ _ _ _ => k' = k -> w' <> w
  | ReleaseExpired now => (now <= L)%Z
  | Heartbeat k' _ _ now => k' = k -> (L <= now + lease_timeout)%Z
  | _ => True
  end.

Lemma leased_row w L o : leased_by w L o ->
  exists r, o = Some r /\ has_status st_leased r = true /\ has_status st_queued r = false /\
    (forall w', w' <> w -> has_worker w' r = false) /\ (forall now, (now <= L)%Z -> lease_before now r = false).
Proof.
  intros (r & l & -> & Hs & Hw & Hl & HL). exists r. unfold has_status, has_worker, lease_before.
  rewrite Hs, Hw, Hl. split_and!; try done.
  - intros w' Hne. apply bool_decide_false. congruence.
  - intros now Hnow. apply Z.ltb_ge. lia.
Qed.

Lemma respects_keeps k w L c dead o : respects k w L c -> leased_by w L o -> leased_by w L (after c k dead o).
Proof.
  intros Hresp Hle. pose proof (leased_row _ _ _ Hle) as (r & -> & Hs & Hq & Hw & Hb).
  destruct Hle as (r' & l & [= <-] & Hs' & Hw' & Hl & HL).
  assert (leased_by w L (Some r)) as Hle by (by exists r, l).
  destruct c; simpl in *; try (case_decide as Heq; [subst|exact Hle]); try done.
  - by rewrite Hq.
  - unfold scoped_when. destruct (scope_of _ _ _) as [s|]; [|exact Hle]. simpl.
    destruct (_ && _); [|exact Hle]. exists (set_state (rq_status r) (rq_worker_id r) (Some (now + lease_timeout)%Z) now r).
    eexists. split_and!; [done|done|done|done|by apply Hresp].
  - by rewrite (Hw worker_id) by auto.
  - unfold scoped_when. destruct (scope_of _ _ _) as [s|]; [|exact Hle]. simpl. by rewrite (Hw worker_id) by auto.
  - unfold scoped_when. destruct (scope_of _ _ _) as [s|]; [|exact Hle]. simpl. by rewrite (Hw worker_id) by auto.
  - unfold scoped_when. destruct (scope_of _ _ _) as [s|]; [|exact Hle]. simpl.
    destruct (has_tenant s r); [|exact Hle]. exists (set_cancelled now r), l. by split_and!.
  - unfold RunQueue.expired. by rewrite (Hb now), andb_false_r.
  - destruct (bool_decide _); [|exact Hle]. exists (set_token (Some adoption_token) now r), l. by split_and!.
  - destruct (scope_of _ _ _); [|exact Hle]. by rewrite Hq.
Qed.

(** Whether an update of the rows of one run hits depends on its record. *)
Lemma rowcount_run P q db k : NoDup (map rq_run_id (q_rows db)) -> (forall r, P r = is_run k r && q r) ->
  bool_decide (0 < rowcount P (q_rows db)) = match row_of db k with Some r => q r | None => false end.
Proof.
  intros Hnd HP. destruct (row_of db k) as [r|] eqn:Hr.
  - pose proof Hr as [Hin Hk]%select_one_Some. destruct (q r) eqn:Hq.
    + apply bool_decide_true, rowcount_pos. destruct (select_one P (q_rows db)) eqn:Hs; [by eexists|].
      pose proof (select_one_None _ _ _ Hs Hin) as Hf. by rewrite HP, Hk, Hq in Hf.
    + apply bool_decide_false. rewrite rowcount_pos. intros [r' [Hin' Hp]%select_one_Some].
      rewrite HP in Hp. apply andb_true_iff in Hp as [Hk'%is_run_eq Hq'].
      pose proof (queue_row_elem db r' Hnd Hin') as Hr'. rewrite Hk', Hr in Hr'. congruence.
  - apply bool_decide_false. rewrite rowcount_pos. intros [r' [Hin' Hp]%select_one_Some].
    rewrite HP in Hp. apply andb_true_iff in Hp as [Hk'%is_run_eq _].
    pose proof (queue_row_elem db r' Hnd Hin') as Hr'. congruence.
Qed.

(** The UPDATE of a claim is refused while the run is leased. *)
Lemma claim_update_leased k w w' L now db : NoDup (map rq_run_id (q_rows db)) -> leased_by w L (row_of db k) ->
  (exec (ClaimUpdate w' k now) db).1 = Ret false.
Proof.
  intros Hnd (r & Hr & _ & Hq & _ & _)%leased_row. simpl. f_equal.
  erewrite rowcount_run by done. by rewrite Hr.
Qed.

(** Adoption *)

Definition adopts (k : string) (cr : queue_cmd * outcome bool) : bool :=
  match cr with (Adopt k' _ _, Ret true) => bool_decide (k' = k) | _ => false end.
Definition adoptions (k : string) (rs : list (queue_cmd * outcome bool)) : nat :=
  length (filter (fun cr => adopts k cr = true) rs).

(** A call that does not clear the adoption token of a run. *)
Definition keeps_token (k : string) (c : queue_cmd) : Prop :=
  match c with Reenqueue k' _ _ | DequeueUnclaimed k' _ => k' <> k | _ => True end.

Definition adopted (o : option queue_row) : bool :=
  match o with Some r => negb (bool_decide (rq_adoption_token r = None)) | None => false end.

Lemma adopted_when p f o : (forall r, rq_adoption_token (f r) = rq_adoption_token r) ->
  adopted (when p f o) = adopted o.
Proof. intros Hf. destruct o as [r|]; [|done]. simpl. destruct (p r); [|done]. by rewrite Hf. Qed.

Lemma adopted_scoped s p f o : (forall r, rq_adoption_token (f r) = rq_adoption_token r) ->
  adopted (scoped_when s p f o) = adopted o.
Proof. intros Hf. destruct s; [by apply adopted_when|done]. Qed.

Lemma adopted_after k c dead o : keeps_token k c -> adopted o = true -> adopted (after c k dead o) = true.
Proof.
  intros Hk Ho. destruct c; simpl in *; try (case_decide as Heq; [subst|exact Ho]); try done;
    rewrite ?adopted_when, ?adopted_scoped by done; try done.
  - by destruct o.
  - destruct o as [r|]; [|done]. simpl. by destruct (bool_decide (rq_adoption_token r = None)).
  - destruct dead; [|done]. by rewrite adopted_scoped.
Qed.

Lemma adoptions_le k cs : forall db, queue_wf db -> Forall (keeps_token k) cs ->
  adoptions k (run cs db).1 <= if adopted (row_of db k) then 0 else 1.
Proof.
  induction cs as [|c cs IH]; intros db Hwf Hc; [simpl; case_match; unfold adoptions; simpl; lia|].
  apply Forall_cons in Hc as [Hk Hc]. rewrite exec_cmds_cons. unfold adoptions in *. simpl.
  specialize (IH _ (exec_wf c db Hwf) Hc). pose proof (ku_rows _ (qw_keys _ Hwf)) as Hnd.
  rewrite exec_row in IH by done. rewrite filter_cons.
  destruct (adopted (row_of db k)) eqn:Ha.
  - rewrite adopted_after in IH by done. case_decide as Hg; [|done]. exfalso.
    destruct c; try done. simpl in Hg. rewrite (rowcount_run _ (fun r => bool_decide (rq_adoption_token r = None)) _ run_id) in Hg by done.
    destruct (row_of db run_id) as [r|] eqn:Hr; [|done].
    destruct (bool_decide (rq_adoption_token r = None)) eqn:Ht; [|done].
    apply bool_decide_eq_true in Hg as ->. rewrite Hr in Ha. simpl in Ha. by rewrite Ht in Ha.
  - case_decide as Hg; [|by destruct (adopted _); lia]. simpl. destruct c; try done. simpl in *.
    rewrite (rowcount_run _ (fun r => bool_decide (rq_adoption_token r = None)) _ run_id) in Hg by done.
    destruct (row_of db run_id) as [r|] eqn:Hr; [|done].
    destruct (bool_decide (rq_adoption_token r = None)) eqn:Ht; [|done].
    apply bool_decide_eq_true in Hg as ->. rewrite decide_True, Hr in IH by done. simpl in IH. rewrite Ht in IH.
    simpl in IH. lia.
Qed.

(** Order of claims *)

Lemma most_urgent_spec l : match most_urgent l with
  | None => l = []
  | Some r => exists l1 l2, l = l1 ++ r :: l2 /\ Forall (fun r' => urgency_le r' r = false) l1 /\
      Forall (fun r' => urgency_le r r' = true) l2
  end.
Proof.
  assert (forall a b c, urgency_le a b = true -> urgency_le b c = true -> urgency_le a c = true) as Htrans.
  { unfold urgency_le. intros a b c. rewrite !orb_true_iff, !andb_true_iff, !Z.ltb_lt, !Z.eqb_eq, !Z.leb_le. lia. }
  induction l as [|r l IH]; simpl; [done|].
  destruct (most_urgent l) as [r'|]; [|subst; exists [], []; by split_and!].
  destruct IH as (l1 & l2 & -> & Hl1 & Hl2). destruct (urgency_le r r') eqn:Hle.
  - exists [], (l1 ++ r' :: l2). split_and!; [done|done|]. apply Forall_app. split.
    + eapply Forall_impl; [exact Hl1|]. intros x Hx. apply (Htrans _ r'); [done|].
      revert Hx. unfold urgency_le. rewrite orb_false_iff, andb_false_iff, orb_true_iff, andb_true_iff,
        Z.ltb_ge, Z.eqb_neq, Z.leb_gt, Z.ltb_lt, Z.eqb_eq, Z.leb_le. lia.
    + constructor; [done|]. eapply Forall_impl; [exact Hl2|]. intros x. by apply Htrans.
  - exists (r :: l1), l2. split_and!; [done|by constructor|done].
Qed.

(** Attempts *)

Definition in_scope (posture_scope : outcome (option string)) (r : queue_row) : Prop :=
  exists s, posture_scope = Ret s /\ has_tenant s r = true.

(** A queued run claimed and failed by the same worker. *)
Lemma claim_then_fail w k e t now now' iso o r :
  o = Some r -> rq_status r = st_queued -> in_scope (scope_of posture t "fail") r ->
  exists r', after (Fail k w e t now' iso) k false (after (ClaimUpdate w k now) k false o) = Some r' /\
    rq_tenant_id r' = rq_tenant_id r /\ rq_max_attempts r' = rq_max_attempts r /\
    rq_attempt_count r' = (rq_attempt_count r + 1)%Z /\
    rq_status r' = if (rq_max_attempts r <=? rq_attempt_count r + 1)%Z then st_failed else st_queued.
Proof.
  intros -> Hs (s & Hsc & Ht). simpl. rewrite !decide_True by done. unfold has_status.
  rewrite Hs, bool_decide_true by done. rewrite Hsc. simpl. unfold has_worker. simpl.
  rewrite bool_decide_true by done. unfold has_tenant in *. simpl. rewrite Ht. simpl. eexists. by split_and!.
Qed.

(** Rounds of claim and failure of a run. *)
Definition rounds (k w e : string) (t : option string) (times : list (Z * Z * string)) : list queue_cmd :=
  times ≫= fun '(now, now', iso) => [ClaimUpdate w k now; Fail k w e t now' iso].

Lemma rounds_attempts k w e t times : forall db r, queue_wf db -> row_of db k = Some r ->
  rq_status r = st_queued -> in_scope (scope_of posture t "fail") r ->
  (rq_attempt_count r + Z.of_nat (length times) <= 3)%Z ->
  exists r', row_of (run (rounds k w e t times) db).2 k = Some r' /\
    rq_tenant_id r' = rq_tenant_id r /\ rq_attempt_count r' = (rq_attempt_count r + Z.of_nat (length times))%Z /\
    rq_status r' = if decide (rq_attempt_count r + Z.of_nat (length times) = 3)%Z
                   then (match times with [] => st_queued | _ => st_failed end) else st_queued.
Proof.
  induction times as [|[[now now'] iso] times IH]; intros db r Hwf Hr Hs Hsc Hle.
  { exists r. simpl. rewrite Hr. split_and!; [done|done|lia|by case_decide]. }
  unfold rounds. rewrite bind_cons. simpl (_ ++ _). rewrite !exec_cmds_cons. cbn [snd].
  pose proof (exec_wf (ClaimUpdate w k now) db Hwf) as Hwf1.
  pose proof (exec_wf (Fail k w e t now' iso) _ Hwf1) as Hwf2.
  destruct (claim_then_fail w k e t now now' iso _ r Hr Hs Hsc) as (r1 & Hr1 & Ht1 & Hm1 & Ha1 & Hs1).
  assert (rq_max_attempts r = 3%Z) as Hmax.
  { pose proof (qw_rows _ Hwf) as Hok. rewrite Forall_forall in Hok.
    apply select_one_Some in Hr as [Hin _]. by apply Hok. }
  assert (row_of (exec (Fail k w e t now' iso) (exec (ClaimUpdate w k now) db).2).2 k = Some r1) as Hrow.
  { rewrite exec_row by apply Hwf1. rewrite exec_row by apply Hwf. exact Hr1. }
  simpl length in *. destruct times as [|x times].
  - exists r1. split_and!; [exact Hrow|done|simpl; lia|]. rewrite Hs1, Hmax. simpl. case_decide as Hd.
    + destruct (Z.leb_spec 3 (rq_attempt_count r + 1)); [done|lia].
    + destruct (Z.leb_spec 3 (rq_attempt_count r + 1)); [lia|done].
  - destruct (Z.leb_spec (rq_max_attempts r) (rq_attempt_count r + 1)); [simpl in Hle; lia|].
    destruct (IH _ r1 Hwf2 Hrow Hs1) as (r2 & Hr2 & Ht2 & Ha2 & Hs2).
    + destruct Hsc as (s & Hsc & Ht). exists s. split; [done|]. destruct s; [|done]. simpl in *. by rewrite Ht1.
    + simpl in *. lia.
    + exists r2. split_and!; [exact Hr2|by rewrite Ht2|rewrite Ha2, Ha1; cbn [length]; lia|]. rewrite Hs2, Ha1. clear Hs2. cbn [length] in *.
      do 2 case_decide; try done; lia.
Qed.
Lemma set_state_tenant s st w l now r : has_tenant s (set_state st w l now r) = has_tenant s r.
Proof. done. Qed.

(** The dead-letter table *)

(** The record [insert_or_replace_dlq] writes over the one there was. *)
Definition replaced (k reason orig iso tenant : string) (n : Z) (t : list dlq_row) : list dlq_row :=
  delete_where (is_dlq k None) t ++
    [mkDlq k reason orig iso tenant (default 0%Z (dl_requeue_count <$> select_one (is_dlq k None) t))
       (select_one (is_dlq k None) t ≫= dl_last_requeue_at) n].

Lemma exec_dead_letter k reason orig t now iso s db : scope_of posture t "dead_letter" = Ret s ->
  q_dlq (exec (DeadLetter k reason orig t now iso) db).2 =
  replaced k reason orig iso (default "" s) (default 0%Z (rq_attempt_count <$>
    select_one (fun r => is_run k r && has_tenant s r) (q_rows db))) (q_dlq db).
Proof. unfold scope_of. intros Hs. simpl. unfold RunQueue.dead_letter. rq_simpl. by rewrite Hs. Qed.

Lemma exec_requeue_dlq k t now iso s db d : scope_of posture t "requeue_from_dlq" = Ret s ->
  select_one (is_dlq k s) (q_dlq db) = Some d ->
  q_dlq (exec (RequeueDlq k t now iso) db).2 =
  delete_where (is_dlq k s) (update_where (is_dlq k s) (RunQueue.bump_requeue iso) (q_dlq db)).
Proof.
  unfold scope_of. intros Hs Hd. simpl. unfold RunQueue.requeue_from_dlq. rq_simpl. rewrite Hs. cbn [fst snd]. by rewrite Hd.
Qed.

(** A failure that leaves attempts does not touch the dead-letter table. *)
Lemma fail_keeps_dlq k w e t now iso db r : NoDup (map rq_run_id (q_rows db)) -> row_of db k = Some r ->
  (rq_attempt_count r + 1 < rq_max_attempts r)%Z -> q_dlq (exec (Fail k w e t now iso) db).2 = q_dlq db.
Proof.
  intros Hnd Hr Hlt. simpl. unfold RunQueue.fail. rq_simpl. destruct (_check_tenant_scope _ _ _) as [s|]; [|done].
  destruct (select_one _ _) as [row|] eqn:Hrow; [|done].
  apply select_one_Some in Hrow as [Hin [[Hk%is_run_eq _]%andb_true_iff _]%andb_true_iff].
  pose proof (queue_row_elem db row Hnd Hin) as Hr'. rewrite Hk, Hr in Hr'. injection Hr' as ->.
  by destruct (Z.leb_spec (rq_max_attempts row) (rq_attempt_count row + 1)); [lia|].
Qed.

Lemma is_dlq_bump k s iso d : is_dlq k s (RunQueue.bump_requeue iso d) = is_dlq k s d.
Proof. done. Qed.

(** In the other records, nothing is found of [k]. *)
Lemma others_no_dlq k s t d : d ∈ delete_where (is_dlq k None) t -> is_dlq k s d = false.
Proof.
  unfold delete_where, is_dlq. intros [Hn _]%list_elem_of_filter. rewrite andb_true_r in Hn. by rewrite Hn.
Qed.

(** Requeueing drops the record that was written, and it alone. *)
Lemma delete_replaced k reason orig iso iso' s n t :
  delete_where (is_dlq k s) (update_where (is_dlq k s) (RunQueue.bump_requeue iso')
    (replaced k reason orig iso (default "" s) n t)) = delete_where (is_dlq k None) t.
Proof.
  unfold replaced. unfold update_where. rewrite map_app. fold (update_where (is_dlq k s) (RunQueue.bump_requeue iso')
    (delete_where (is_dlq k None) t)).
  rewrite update_where_none by (intros d; apply others_no_dlq).
  unfold delete_where at 1. rewrite filter_app. fold (delete_where (is_dlq k s) (delete_where (is_dlq k None) t)).
  rewrite (delete_where_id (is_dlq k s)) by (intros d; apply others_no_dlq).
  match goal with |- _ ++ filter _ (map _ [?d]) = _ => assert (is_dlq k s d = true) as Hd end.
  { unfold is_dlq. simpl. rewrite bool_decide_true by done. destruct s; [|done]. simpl. by rewrite bool_decide_true. }
  simpl map. rewrite Hd. rewrite filter_cons_False by (rewrite is_dlq_bump; congruence).
  by rewrite app_nil_r.
Qed.

Lemma select_replaced_other k reason orig iso tenant n t a : tenant <> a ->
  select_one (is_dlq k (Some a)) (replaced k reason orig iso tenant n t) = None.
Proof.
  intros Hne. destruct (select_one _ _) as [d|] eqn:Hd; [|done].
  apply select_one_Some in Hd as [[Hin|Hin%list_elem_of_singleton]%elem_of_app Hp].
  - by rewrite others_no_dlq with (t := t) in Hp.
  - subst d. unfold is_dlq in Hp. simpl in Hp. rewrite (bool_decide_false (tenant = a)), andb_false_r in Hp; done.
Qed.

(** The failure that exhausts the attempts of a run records it. *)
Lemma exhausting_fail_recorded k w e t now iso db r :
  queue_wf db -> row_of db k = Some r -> has_worker w r = true -> in_scope (scope_of posture t "fail") r ->
  (rq_max_attempts r <= rq_attempt_count r + 1)%Z ->
  exists d, d ∈ q_dlq (exec (Fail k w e t now iso) db).2 /\ dl_run_id d = k /\
    dl_attempts_count d = (rq_attempt_count r + 1)%Z /\ dl_tenant_id d = rq_tenant_id r.
Proof.
  intros Hwf Hr Hw (s & Hsc & Ht) Hmax. pose proof (ku_rows _ (qw_keys _ Hwf)) as Hnd.
  simpl. unfold RunQueue.fail. rq_simpl. unfold scope_of in Hsc. rewrite Hsc.
  assert (select_one (fun r => is_run k r && has_worker w r && has_tenant s r) (q_rows db) = Some r) as Hsel.
  { destruct (select_one (fun r => _ && _) _) as [r'|] eqn:Hs'.
    - apply select_one_Some in Hs' as [Hin [[Hk%is_run_eq _]%andb_true_iff _]%andb_true_iff].
      pose proof (queue_row_elem db r' Hnd Hin) as Hr'. rewrite Hk in Hr'. congruence.
    - pose proof Hr as [Hin Hk]%select_one_Some.
      pose proof (select_one_None _ _ _ Hs' Hin) as Hf. simpl in Hf. by rewrite Hk, Hw, Ht in Hf. }
  rewrite Hsel. destruct (Z.leb_spec (rq_max_attempts r) (rq_attempt_count r + 1)); [|lia].
  eexists. split; [apply elem_of_app; right; by apply list_elem_of_singleton|]. split_and!; [done|done|].
  simpl. rewrite find_update_run, decide_True by done. unfold row_of in Hr. rewrite Hr. simpl. by rewrite Ht.
Qed.

(** The tenant argument of a call that takes one, with the name of its method. *)
Definition tenant_arg (c : queue_cmd) : option (option string * string) :=
  match c with
  | Reenqueue _ t _ => Some (t, "reenqueue")
  | Heartbeat _ _ t _ => Some (t, "heartbeat")
  | Complete _ _ t _ => Some (t, "complete")
  | Fail _ _ _ t _ _ => Some (t, "fail")
  | Cancel _ t _ => Some (t, "cancel")
  | DequeueUnclaimed _ t => Some (t, "dequeue_unclaimed")
  | DeadLetter _ _ _ t _ _ => Some (t, "dead_letter")
  | RequeueDlq _ t _ _ => Some (t, "requeue_from_dlq")
  | _ => None
  end.

Lemma exec_unscoped c t m e db : tenant_arg c = Some (t, m) -> scope_of posture t m = Raise e ->
  exec c db = (Raise e, db).
Proof.
  unfold scope_of. intros Ht He. destruct c; simplify_eq/=; unfold RunQueue.reenqueue, RunQueue.heartbeat,
    RunQueue.complete, RunQueue.fail, RunQueue.cancel, RunQueue.dequeue_unclaimed, RunQueue.dead_letter,
    RunQueue.requeue_from_dlq; rq_simpl; by rewrite He.
Qed.

Lemma after_foreign c t m tenant k dead r : tenant_arg c = Some (t, m) ->
  scope_of posture t m = Ret (Some tenant) -> rq_tenant_id r <> tenant -> after c k dead (Some r) = Some r.
Proof.
  intros Ht Hs Hne.
  assert (forall p f, scoped_when (Ret (Some tenant)) p f (Some r) = Some r) as Hw.
  { intros p f. simpl. by rewrite bool_decide_false, andb_false_r by done. }
  destruct c; try done; injection Ht as -> <-; cbn [row_after]; case_decide; try done; rewrite ?Hs, ?Hw; try done.
  - simpl. by rewrite bool_decide_false, andb_false_r by done.
  - by destruct dead.
Qed.

End queue_theorems.
