(* ===== verification/RunQueueSpec.v ===== *)
(** * Properties of the durable run queue

    Theorems on the model of [RunQueue.v]: the queue as a family of per-run state
    machines, its invariant, leases, claims, attempts, tenants, adoption and the
    dead-letter table. *)

From stdpp Require Import base tactics option list sorting strings.
From Stdlib Require Import ZArith.
From S2P Require Import Prelude PyStr PyVal RunContext SqlTable RunQueue.

Section queue_properties.
Context (lease_timeout : Z) (posture : outcome Posture).
Abbreviation exec c := (exec_cmd lease_timeout posture c).
Abbreviation run cs := (exec_cmds lease_timeout posture cs).
Abbreviation after c := (row_after lease_timeout posture c).

(** C15: The queue is a family of independent per-run state machines: every call
    on a database with unique run ids does to the record of each run what
    [row_after] says (a claim needs a queued record, a heartbeat a live lease of
    the same worker, ...), and keeps run ids unique in both tables. *)
Theorem queue_rowwise (c : queue_cmd) (db : queue_db) (k : string) :
  queue_wf db ->
  row_of (exec c db).2 k = after c k (dead_in posture db c) (row_of db k) /\ keys_unique (exec c db).2.
Proof.
  intros [Hk _ Hd]. split; [by apply exec_row, ku_rows|by apply exec_keys_dlq].
Qed.

(** C40: In every database a sequence of calls can produce, run ids are unique, a
    leased record has a worker and an expiry, a queued or completed one neither,
    and no record of the dead-letter table has ever been requeued:
    [requeue_count] is 0, since [requeue_from_dlq] deletes the row it counts on. *)
Theorem queue_invariant (cs : list queue_cmd) : queue_wf (run cs empty_db).2.
Proof. apply exec_cmds_wf, empty_wf. Qed.

(** C13: A lease is exclusive.  While worker [w] holds run [k] until [L], and
    nobody recovers the run, [w] does not end it and no sweep runs after [L], the
    run stays leased by [w] whatever else is called, and every claim of the run
    is refused.  Calls follow one another here; a [fail] that others overtake between
    its two statements is [fail_overtaken], see [fail_takes_from_holder]. *)
Theorem lease_kept (k w : string) (L : Z) (cs : list queue_cmd) : forall db : queue_db,
  queue_wf db -> leased_by w L (row_of db k) -> Forall (respects lease_timeout k w L) cs ->
  leased_by w L (row_of (run cs db).2 k) /\
  forall w' now r, (ClaimUpdate w' k now, r) ∈ (run cs db).1 -> r = Ret false.
Proof.
  induction cs as [|c cs IH]; intros db Hwf Hl Hc; [split; [done|by intros ??? ?%elem_of_nil]|].
  apply Forall_cons in Hc as [Hresp Hc]. rewrite exec_cmds_cons. cbn [fst snd].
  pose proof (ku_rows _ (qw_keys _ Hwf)) as Hnd.
  destruct (IH _ (exec_wf lease_timeout posture c db Hwf)) as [Hl' Hclaims]; [|done|].
  { rewrite exec_row by done. by apply respects_keeps. }
  split; [done|]. intros w' now r [[= <- ->]|Hin]%elem_of_cons; [|by eapply Hclaims].
  by eapply claim_update_leased.
Qed.

(** [claim_next] gives the queued, uncancelled run that comes first by
    priority and then by age (in insertion order among equals), and leases it to
    the caller for the timeout; with nothing claimable it gives [None] and changes
    nothing. *)
Theorem claim_next_most_urgent (w : string) (now : Z) (db : queue_db) :
  queue_wf db ->
  match RunQueue.claim_next lease_timeout w now id db with
  | (Ret None, db') => db' = db /\ forall r, r ∈ q_rows db -> claimable r = false
  | (Ret (Some (k, payload)), db') => exists r,
      row_of db k = Some r /\ rq_payload_json r = payload /\ claimable r = true /\
      (forall r', r' ∈ q_rows db -> claimable r' = true -> urgency_le r r' = true) /\
      row_of db' k = Some (set_state st_leased (Some w) (Some (now + lease_timeout)%Z) now r) /\
      (forall k', k' <> k -> row_of db' k' = row_of db k')
  | (Raise _, _) => False
  end.
Proof.
  intros Hwf. pose proof (ku_rows _ (qw_keys _ Hwf)) as Hnd.
  unfold RunQueue.claim_next, RunQueue.claim_candidate. py_simpl.
  pose proof (most_urgent_spec (filter (fun r => claimable r = true) (q_rows db))) as Hmu.
  destruct (most_urgent _) as [r|].
  - simpl. destruct Hmu as (l1 & l2 & Hl & Hl1 & Hl2).
    assert (r ∈ filter (fun r => claimable r = true) (q_rows db)) as [Hc Hin]%list_elem_of_filter.
    { rewrite Hl. apply elem_of_app. right. by left. }
    pose proof (queue_row_elem db r Hnd Hin) as Hr. pose proof Hc as [Hq _]%andb_true_iff.
    erewrite rowcount_run by done. rewrite Hr, Hq. exists r. split_and!; [done|done|done| | |].
    + intros r' Hin' Hc'. assert (r' ∈ l1 ++ r :: l2) as Hin2 by (rewrite <-Hl; by apply list_elem_of_filter).
      rewrite Forall_forall in Hl1. rewrite Forall_forall in Hl2.
      apply elem_of_app in Hin2 as [Hin2|[->|Hin2]%elem_of_cons]; [|unfold urgency_le; lia|by apply Hl2].
      specialize (Hl1 _ Hin2). revert Hl1. unfold urgency_le.
      rewrite orb_false_iff, andb_false_iff, orb_true_iff, andb_true_iff,
        Z.ltb_ge, Z.eqb_neq, Z.leb_gt, Z.ltb_lt, Z.eqb_eq, Z.leb_le. lia.
    + unfold row_of in *. cbn [q_rows]. rewrite find_update_run, decide_True by done. rewrite Hr. simpl. by rewrite Hq.
    + intros k' Hne. unfold row_of. cbn [q_rows]. rewrite find_update_run by done. case_decide; congruence.
  - simpl. split; [done|]. intros r Hin. destruct (claimable r) eqn:Hc; [|done].
    assert (r ∈ filter (fun r => claimable r = true) (q_rows db)) as Hf by (by apply list_elem_of_filter).
    rewrite Hmu in Hf. by apply elem_of_nil in Hf.
Qed.

(** A claim races with other connections between its SELECT and its UPDATE:
    whatever they do, the caller gets the run only if it is then still queued, and
    otherwise gets [None] and leaves everything as they left it. *)
Theorem claim_next_race (w : string) (now : Z) (others : queue_db -> queue_db) (db : queue_db) (k payload : string) :
  queue_wf (others db) -> RunQueue.claim_candidate db = Some (k, payload) ->
  RunQueue.claim_next lease_timeout w now others db =
    if match row_of (others db) k with Some r => has_status st_queued r | None => false end
    then (Ret (Some (k, payload)), (exec (ClaimUpdate w k now) (others db)).2)
    else (Ret None, others db).
Proof.
  intros Hwf Hc. pose proof (ku_rows _ (qw_keys _ Hwf)) as Hnd. unfold RunQueue.claim_next. py_simpl.
  rewrite Hc. simpl. erewrite rowcount_run by done.
  destruct (match row_of _ _ with Some _ => _ | None => _ end) eqn:Hq; [done|]. f_equal.
  unfold RunQueue.put_rows. py_simpl. rewrite update_where_none; [by destruct (others db)|].
  intros r Hin. destruct (is_run k r) eqn:Hk; [|done]. simpl. apply is_run_eq in Hk.
  pose proof (queue_row_elem _ r Hnd Hin) as Hr. rewrite Hk in Hr. by rewrite Hr in Hq.
Qed.

(** A run that fails every time is attempted three times: after one or two
    failing attempts it is queued again, the third leaves it failed and in the
    dead-letter table with its count and tenant. *)
Theorem failing_run_dead_lettered (k w e : string) (t : option string) (times : list (Z * Z * string))
    (now now' : Z) (iso : string) (db : queue_db) (r : queue_row) :
  queue_wf db -> row_of db k = Some r -> rq_status r = st_queued -> rq_attempt_count r = 0%Z ->
  in_scope (scope_of posture t "fail") r -> length times = 2 ->
  (exists r', row_of (run (rounds k w e t times) db).2 k = Some r' /\
     rq_status r' = st_queued /\ rq_attempt_count r' = 2%Z) /\
  let db' := (run (rounds k w e t (times ++ [(now, now', iso)])) db).2 in
  (exists r', row_of db' k = Some r' /\ rq_status r' = st_failed /\ rq_attempt_count r' = 3%Z) /\
  exists d, d ∈ q_dlq db' /\ dl_run_id d = k /\ dl_attempts_count d = 3%Z /\ dl_tenant_id d = rq_tenant_id r.
Proof.
  intros Hwf Hr Hs Ha Hsc Hlen.
  destruct (rounds_attempts lease_timeout posture k w e t times db r) as (r2 & Hr2 & Ht2 & Ha2 & Hs2);
    [done|done|done|done|rewrite Ha, Hlen; done|]. rewrite Ha, Hlen in Ha2, Hs2. simpl in Ha2, Hs2.
  split; [by exists r2|]. intros db'. split.
  { destruct (rounds_attempts lease_timeout posture k w e t (times ++ [(now, now', iso)]) db r)
      as (r' & Hr' & _ & Ha' & Hs'); [done|done|done|done|rewrite Ha, length_app, Hlen; done|].
    exists r'. rewrite Ha', Hs', Ha, length_app, Hlen. split_and!; [exact Hr'| |done].
    by destruct times. }
  unfold db', rounds. rewrite bind_app, exec_cmds_app. fold (rounds k w e t times). rewrite bind_cons.
  cbn [mbind list_bind app]. rewrite !exec_cmds_cons. simpl snd.
  pose proof (exec_cmds_wf lease_timeout posture (rounds k w e t times) db Hwf) as Hwf2.
  set (db2 := (run (rounds k w e t times) db).2) in *.
  pose proof (exec_wf lease_timeout posture (ClaimUpdate w k now) _ Hwf2) as Hwf3.
  assert (row_of (exec (ClaimUpdate w k now) db2).2 k =
    Some (set_state st_leased (Some w) (Some (now + lease_timeout)%Z) now r2)) as Hr3.
  { rewrite exec_row by apply Hwf2. rewrite Hr2. simpl. rewrite decide_True by done. unfold has_status.
    by rewrite Hs2, bool_decide_true. }
  destruct (exhausting_fail_recorded lease_timeout posture k w e t now' iso _ _ Hwf3 Hr3) as (d & Hd & Hk & Hn & Ht).
  - unfold has_worker. by rewrite bool_decide_true.
  - destruct Hsc as (sc & Hsc & Hsct). exists sc. split; [done|]. destruct sc; [|done]. simpl in *. by rewrite Ht2.
  - pose proof (qw_rows _ Hwf2) as Hok. apply select_one_Some in Hr2 as [Hin _].
    rewrite Forall_forall in Hok. destruct (Hok _ Hin) as [_ Hmax _]. simpl. rewrite Hmax, Ha2. done.
  - exists d. split_and!; [exact Hd|done|simpl in Hn; by rewrite Hn, Ha2|by rewrite Ht].
Qed.

(** The run whose dead-letter record a call may write. *)
Definition dead_letters (c : queue_cmd) : option string :=
  match c with DeadLetter k _ _ _ _ _ | Fail k _ _ _ _ _ => Some k | _ => None end.

(** Dead-letter records of another tenant stay, unless the call writes the record of that run. *)
Lemma foreign_dlq_kept c t m tenant db d : tenant_arg c = Some (t, m) -> scope_of posture t m = Ret (Some tenant) ->
  d ∈ q_dlq db -> dl_tenant_id d <> tenant -> dead_letters c <> Some (dl_run_id d) -> d ∈ q_dlq (exec c db).2.
Proof.
  intros Ht Hs Hd Hne Hk. unfold scope_of in Hs.
  assert (forall k, is_dlq k (Some tenant) d = false) as Hsc by (intros k; unfold is_dlq; by rewrite (bool_decide_false (dl_tenant_id d = tenant)), andb_false_r by done).
  assert (forall k s l, Some k <> Some (dl_run_id d) -> d ∈ l -> d ∈ delete_where (is_dlq k s) l) as Hother.
  { intros k s l Hkk Hin. apply list_elem_of_filter. split; [|done]. unfold is_dlq. rewrite (bool_decide_false (dl_run_id d = k)); [done|congruence]. }
  destruct c; simplify_eq/=; rq_simpl.
  - unfold RunQueue.reenqueue. rq_simpl. by rewrite Hs.
  - unfold RunQueue.heartbeat. rq_simpl. by rewrite Hs.
  - unfold RunQueue.complete. rq_simpl. by rewrite Hs.
  - rewrite Hs. destruct (select_one _ _); [|done]. simpl. destruct (_ <=? _)%Z; [|done]. simpl. apply elem_of_app. left. by apply Hother.
  - unfold RunQueue.cancel. rq_simpl. by rewrite Hs.
  - unfold RunQueue.dequeue_unclaimed. rq_simpl. by rewrite Hs.
  - unfold RunQueue.dead_letter. rq_simpl. rewrite Hs. simpl. apply elem_of_app. left. by apply Hother.
  - unfold RunQueue.requeue_from_dlq. rq_simpl. rewrite Hs. destruct (select_one _ _); [|done]. simpl.
    apply list_elem_of_filter. split; [apply Hsc|]. apply list_elem_of_fmap. exists d. by rewrite Hsc.
Qed.

(** C14: Tenants are isolated in the queue.  A call with an empty tenant argument raises
    [TenantScopeError] and changes nothing under the research and prod postures (under dev
    it runs unscoped).  A call for a tenant leaves every run of another tenant as it was,
    and every dead-letter record of another tenant too, unless it dead-letters the very
    run of the record: the table has one record per run, so that [dead_letter], or a
    [fail] that exhausts the run, replaces it ([dead_letter_record_stolen]). *)
Theorem tenant_isolation (c : queue_cmd) (t : option string) (m : string) (p : Posture) (db : queue_db) :
  posture = Ret p -> tenant_arg c = Some (t, m) -> queue_wf db ->
  let tenant := strip (default "" t) in
  if decide (tenant = "") then
    is_strict p = true -> exists msg, exec c db = (Raise (TenantScopeError msg), db)
  else
    (forall k r, row_of db k = Some r -> rq_tenant_id r <> tenant -> row_of (exec c db).2 k = Some r) /\
    (forall d, d ∈ q_dlq db -> dl_tenant_id d <> tenant -> dead_letters c <> Some (dl_run_id d) -> d ∈ q_dlq (exec c db).2).
Proof.
  intros Hp Ht Hwf tenant. unfold tenant. assert (scope_of posture t m = scope_of posture t m) as Hs by done.
  unfold scope_of at 2, _check_tenant_scope in Hs. rewrite Hp in Hs. case_decide as He.
  - intros Hstrict. rewrite Hstrict in Hs. eexists. rewrite <-Hp in Hs. by eapply exec_unscoped.
  - rewrite <-Hp in Hs. split.
    + intros k r Hr Hne. rewrite exec_row by apply Hwf. rewrite Hr. by eapply after_foreign.
    + intros d Hd Hne Hk. by eapply foreign_dlq_kept.
Qed.

(** At most one recovery pass adopts a run: in any sequence of calls that
    neither re-enqueues nor deletes it, at most one [claim_with_adoption_token]
    succeeds, and none if it is adopted already. *)
Theorem adopted_once (k : string) (cs : list queue_cmd) (db : queue_db) :
  queue_wf db -> Forall (keeps_token k) cs ->
  adoptions k (run cs db).1 <= if adopted (row_of db k) then 0 else 1.
Proof. apply adoptions_le. Qed.

(** A worker that reports its failure after its run was dead-lettered (as the
    run manager does when its heartbeat was refused) revives it: [dead_letter]
    leaves the worker on the record and [fail] does not look at the status, so the
    run is queued again, to be executed once more, while its dead-letter record
    stays. *)
Theorem late_failure_revives (k w e reason orig : string) (t : option string) (now now' : Z) (iso iso' : string)
    (db : queue_db) (r : queue_row) :
  queue_wf db -> row_of db k = Some r -> rq_status r = st_leased -> rq_worker_id r = Some w ->
  (rq_attempt_count r + 1 < rq_max_attempts r)%Z ->
  in_scope (scope_of posture t "dead_letter") r -> in_scope (scope_of posture t "fail") r ->
  let db' := (run [DeadLetter k reason orig t now iso; Fail k w e t now' iso'] db).2 in
  (exists r', row_of db' k = Some r' /\ rq_status r' = st_queued) /\
  exists d, d ∈ q_dlq db' /\ dl_run_id d = k /\ dl_reason d = reason.
Proof.
  intros Hwf Hr Hs Hw Hlt (sd & Hsd & Htd) (sf & Hsf & Htf) db'.
  pose proof (exec_wf lease_timeout posture (DeadLetter k reason orig t now iso) db Hwf) as Hwf1.
  assert (row_of (exec (DeadLetter k reason orig t now iso) db).2 k =
    Some (set_state st_failed (rq_worker_id r) (rq_lease_expires_at r) now r)) as Hr1.
  { rewrite exec_row by apply Hwf. rewrite Hr. simpl. rewrite decide_True by done. rewrite Hsd. simpl. by rewrite Htd. }
  split.
  - unfold db'. rewrite !exec_cmds_cons. cbn [exec_cmds snd]. rewrite exec_row by apply Hwf1. rewrite Hr1. simpl. rewrite decide_True by done. rewrite Hsf. simpl.
    unfold has_worker. simpl. rewrite bool_decide_true by done.
    rewrite set_state_tenant, Htf. simpl.
    eexists. split; [done|]. simpl. by destruct (Z.leb_spec (rq_max_attempts r) (rq_attempt_count r + 1)); [lia|].
  - assert (q_dlq db' = q_dlq (exec (DeadLetter k reason orig t now iso) db).2) as ->.
    { unfold db'. rewrite !exec_cmds_cons. cbn [exec_cmds snd]. eapply fail_keeps_dlq; [apply Hwf1|exact Hr1|exact Hlt]. }
    eexists. rewrite (exec_dead_letter lease_timeout posture k reason orig t now iso sd db) by done. unfold replaced. split.
    { apply elem_of_app. right. by apply list_elem_of_singleton. }
    by split.
Qed.

(** Dead-lettering and requeueing round-trip.  A run dead-lettered and then
    requeued by the same tenant is queued again with every column but status,
    worker, lease and time as it was (the attempts it had used too), its
    dead-letter record is gone, and the records of the other runs stay. *)
Theorem dead_letter_requeue_roundtrip (k reason orig : string) (t : option string) (now now' : Z)
    (iso iso' : string) (db : queue_db) (r : queue_row) (s : option string) :
  queue_wf db -> row_of db k = Some r -> has_tenant s r = true ->
  scope_of posture t "dead_letter" = Ret s -> scope_of posture t "requeue_from_dlq" = Ret s ->
  let db1 := (exec (DeadLetter k reason orig t now iso) db).2 in
  (exec (RequeueDlq k t now' iso') db1).1 = Ret true /\
  row_of (exec (RequeueDlq k t now' iso') db1).2 k = Some (back_to_queued now' r) /\
  q_dlq (exec (RequeueDlq k t now' iso') db1).2 = delete_where (is_dlq k None) (q_dlq db).
Proof.
  intros Hwf Hr Ht Hd Hq db1. pose proof (exec_wf lease_timeout posture (DeadLetter k reason orig t now iso) db Hwf) as Hwf1.
  pose proof (exec_dead_letter lease_timeout posture k reason orig t now iso s db Hd) as Hdl. fold db1 in Hdl, Hwf1.
  assert (exists d, select_one (is_dlq k s) (q_dlq db1) = Some d) as [d Hsel].
  { rewrite Hdl. cbn [q_dlq]. apply select_app_last. unfold is_dlq. simpl.
    rewrite bool_decide_true by done. destruct s; simpl; by rewrite ?bool_decide_true. }
  split_and!.
  - simpl. unfold RunQueue.requeue_from_dlq. rq_simpl. unfold scope_of in Hq. rewrite Hq. cbn [fst snd].
    by rewrite Hsel.
  - rewrite exec_row by apply Hwf1. cbn [dead_in]. rewrite Hq, bool_decide_true by (by exists d).
    unfold db1. rewrite exec_row by apply Hwf. rewrite Hr. cbn [row_after]. rewrite !decide_True by done.
    rewrite Hd, Hq. cbn [scoped_when when fmap option_fmap option_map andb]. rewrite Ht.
    cbn [fmap option_fmap option_map]. by rewrite set_state_tenant, Ht.
  - rewrite (exec_requeue_dlq _ _ _ _ _ _ s _ d) by done. rewrite Hdl. cbn [q_dlq].
    apply delete_replaced.
Qed.

(** The dead-letter table is keyed by the run id alone, so a tenant can take
    the record of another tenant's run: [dead_letter] by [b] with a run of [a]
    leaves the run as it was but replaces [a]'s record; then [a] cannot requeue
    the run, and [b]'s requeue answers [True], drops the record and requeues
    nothing. *)
Theorem dead_letter_record_stolen (k reason orig a b : string) (ta tb : option string) (now now' : Z)
    (iso iso' : string) (db : queue_db) (r : queue_row) :
  queue_wf db -> row_of db k = Some r -> rq_tenant_id r = a -> a <> b ->
  scope_of posture tb "dead_letter" = Ret (Some b) ->
  scope_of posture ta "requeue_from_dlq" = Ret (Some a) ->
  scope_of posture tb "requeue_from_dlq" = Ret (Some b) ->
  let db1 := (exec (DeadLetter k reason orig tb now iso) db).2 in
  row_of db1 k = Some r /\
  exec (RequeueDlq k ta now' iso') db1 = (Ret false, db1) /\
  (exec (RequeueDlq k tb now' iso') db1).1 = Ret true /\
  row_of (exec (RequeueDlq k tb now' iso') db1).2 k = Some r /\
  q_dlq (exec (RequeueDlq k tb now' iso') db1).2 = delete_where (is_dlq k None) (q_dlq db).
Proof.
  intros Hwf Hr Ha Hab Hd Hqa Hqb db1.
  pose proof (exec_wf lease_timeout posture (DeadLetter k reason orig tb now iso) db Hwf) as Hwf1.
  pose proof (exec_dead_letter lease_timeout posture k reason orig tb now iso (Some b) db Hd) as Hdl. fold db1 in Hdl, Hwf1.
  assert (row_of db1 k = Some r) as Hr1.
  { unfold db1. rewrite exec_row by apply Hwf. rewrite Hr.
    apply (after_foreign _ _ _ tb "dead_letter" b); [done|exact Hd|congruence]. }
  assert (exists d, select_one (is_dlq k (Some b)) (q_dlq db1) = Some d) as [d Hsel].
  { rewrite Hdl. cbn [q_dlq]. apply select_app_last. unfold is_dlq. simpl. by rewrite !bool_decide_true. }
  split; [done|]. split; [|split; [|split]].
  - simpl. unfold RunQueue.requeue_from_dlq. rq_simpl. unfold scope_of in Hqa. rewrite Hqa. cbn [fst snd].
    assert (select_one (is_dlq k (Some a)) (q_dlq db1) = None) as ->; [|done].
    rewrite Hdl. cbn [q_dlq]. apply select_replaced_other. simpl. congruence.
  - simpl. unfold RunQueue.requeue_from_dlq. rq_simpl. unfold scope_of in Hqb. rewrite Hqb. cbn [fst snd].
    by rewrite Hsel.
  - rewrite exec_row by apply Hwf1. rewrite Hr1.
    apply (after_foreign _ _ _ tb "requeue_from_dlq" b); [done|exact Hqb|congruence].
  - rewrite (exec_requeue_dlq _ _ _ _ _ _ (Some b) _ d) by done. rewrite Hdl. cbn [q_dlq]. by apply delete_replaced.
Qed.
End queue_properties.

(** Witnesses: two tenants' runs, one queued and one leased. *)
Definition demo_cmds : list queue_cmd :=
  [Enqueue "r1" 5 "{}" "acme" "u" "s" "p" 10; Enqueue "r2" 1 "{}" "bolt" "u" "s" "p" 20;
   Enqueue "r3" 5 "{}" "acme" "u" "s" "p" 30; ClaimUpdate "w" "r3" 40].
Definition demo_db : queue_db := (exec_cmds 300 (Ret PROD) demo_cmds empty_db).2.

Lemma demo_wf : queue_wf demo_db.
Proof. apply exec_cmds_wf, empty_wf. Qed.

Lemma queue_rowwise_witness :
  row_of (exec_cmd 300 (Ret PROD) (Heartbeat "r3" "w" (Some "acme") 100) demo_db).2 "r3" =
  Some (mkRow "r3" st_leased 5 0 3 (Some "w") (Some 400%Z) false "{}" 30 100 "acme" "u" "s" "p" None).
Proof.
  destruct (queue_rowwise 300 (Ret PROD) (Heartbeat "r3" "w" (Some "acme") 100) demo_db "r3" demo_wf) as [H _].
  exact H.
Defined.

Lemma lease_kept_witness :
  leased_by "w" 340 (row_of (exec_cmds 300 (Ret PROD)
    [ReleaseExpired 340; ClaimUpdate "x" "r3" 341; Complete "r3" "x" (Some "acme") 342] demo_db).2 "r3").
Proof.
  refine (proj1 (lease_kept 300 (Ret PROD) "r3" "w" 340 _ demo_db demo_wf _ _)).
  - eexists. exists 340%Z. split; [vm_compute; reflexivity|]. split_and!; done.
  - repeat (apply Forall_cons; split); [done|done|by intros _|done].
Defined.

Lemma claim_next_most_urgent_witness :
  fst (RunQueue.claim_next 300 "w" 50 id demo_db) = Ret (Some ("r2", "{}")) /\
  match RunQueue.claim_next 300 "w" 50 id demo_db with
  | (Ret (Some (k, _)), db') => exists r, row_of demo_db k = Some r /\
      row_of db' k = Some (set_state st_leased (Some "w") (Some 350%Z) 50 r)
  | _ => False
  end.
Proof.
  split; [reflexivity|].
  pose proof (claim_next_most_urgent 300 "w" 50 demo_db demo_wf) as H. vm_compute in H.
  destruct H as (r & Hr & _ & _ & _ & Hr' & _). vm_compute. exists r. split; [exact Hr|exact Hr'].
Defined.

Lemma claim_next_race_witness :
  RunQueue.claim_next 300 "w" 50 (fun db => (exec_cmd 300 (Ret PROD) (ClaimUpdate "x" "r2" 45) db).2) demo_db =
  (Ret None, (exec_cmd 300 (Ret PROD) (ClaimUpdate "x" "r2" 45) demo_db).2).
Proof.
  rewrite (claim_next_race 300 (Ret PROD) "w" 50 _ demo_db "r2" "{}"); [reflexivity| |reflexivity].
  apply exec_wf, demo_wf.
Defined.

Lemma failing_run_dead_lettered_witness :
  exists d, d ∈ q_dlq (exec_cmds 300 (Ret PROD)
    (rounds "r1" "w" "boom" (Some "acme") ([(50, 51, "t1"); (52, 53, "t2")] ++ [(54, 55, "t3")])%Z) demo_db).2 /\
    dl_run_id d = "r1" /\ dl_attempts_count d = 3%Z /\ dl_tenant_id d = "acme".
Proof.
  refine (proj2 (proj2 (failing_run_dead_lettered 300 (Ret PROD) "r1" "w" "boom" (Some "acme")
    [(50, 51, "t1"); (52, 53, "t2")]%Z 54 55 "t3" demo_db
    (mkRow "r1" st_queued 5 0 3 None None false "{}" 10 10 "acme" "u" "s" "p" None) demo_wf _ _ _ _ _)));
    [reflexivity|reflexivity|reflexivity| |reflexivity].
  exists (Some "acme"). split; reflexivity.
Defined.

Lemma tenant_isolation_witness :
  row_of (exec_cmd 300 (Ret PROD) (Cancel "r1" (Some " bolt ") 60) demo_db).2 "r1" = row_of demo_db "r1" /\
  exists msg, exec_cmd 300 (Ret PROD) (Cancel "r1" (Some " ") 60) demo_db = (Raise (TenantScopeError msg), demo_db).
Proof.
  split.
  - pose proof (tenant_isolation 300 (Ret PROD) (Cancel "r1" (Some " bolt ") 60) (Some " bolt ") "cancel" PROD demo_db
      eq_refl eq_refl demo_wf) as H.
    rewrite decide_False in H by (vm_compute; discriminate). apply H; [reflexivity|vm_compute; discriminate].
  - pose proof (tenant_isolation 300 (Ret PROD) (Cancel "r1" (Some " ") 60) (Some " ") "cancel" PROD demo_db
      eq_refl eq_refl demo_wf) as H.
    rewrite decide_True in H by (vm_compute; reflexivity). apply H. reflexivity.
Defined.

Lemma adopted_once_witness :
  adoptions "r1" (exec_cmds 300 (Ret PROD) [Adopt "r1" "t" 60; Adopt "r1" "u" 61; Adopt "r2" "t" 62] demo_db).1 <= 1.
Proof.
  apply (adopted_once 300 (Ret PROD) "r1" [Adopt "r1" "t" 60; Adopt "r1" "u" 61; Adopt "r2" "t" 62] demo_db demo_wf).
  repeat constructor.
Defined.

Lemma late_failure_revives_witness :
  exists r', row_of (exec_cmds 300 (Ret PROD)
    [DeadLetter "r3" "lost" "leased" (Some "acme") 60 "t"; Fail "r3" "w" "boom" (Some "acme") 61 "u"] demo_db).2 "r3"
    = Some r' /\ rq_status r' = st_queued.
Proof.
  refine (proj1 (late_failure_revives 300 (Ret PROD) "r3" "w" "boom" "lost" "leased" (Some "acme") 60 61 "t" "u"
    demo_db (mkRow "r3" st_leased 5 0 3 (Some "w") (Some 340%Z) false "{}" 30 40 "acme" "u" "s" "p" None)
    demo_wf _ _ _ _ _ _)); try reflexivity; exists (Some "acme"); split; reflexivity.
Defined.

Lemma dead_letter_requeue_roundtrip_witness :
  row_of (exec_cmds 300 (Ret PROD)
    [DeadLetter "r3" "lost" "leased" (Some "acme") 60 "t"; RequeueDlq "r3" (Some "acme") 61 "u"] demo_db).2 "r3" =
  Some (mkRow "r3" st_queued 5 0 3 None None false "{}" 30 61 "acme" "u" "s" "p" None).
Proof.
  exact (proj1 (proj2 (dead_letter_requeue_roundtrip 300 (Ret PROD) "r3" "lost" "leased" (Some "acme") 60 61 "t" "u"
    demo_db (mkRow "r3" st_leased 5 0 3 (Some "w") (Some 340%Z) false "{}" 30 40 "acme" "u" "s" "p" None)
    (Some "acme") demo_wf eq_refl eq_refl eq_refl eq_refl))).
Defined.

Lemma dead_letter_record_stolen_witness :
  let db1 := (exec_cmds 300 (Ret PROD) [DeadLetter "r3" "lost" "leased" (Some "acme") 60 "t";
                DeadLetter "r3" "mine" "leased" (Some "bolt") 61 "u"] demo_db).2 in
  (exec_cmd 300 (Ret PROD) (RequeueDlq "r3" (Some "acme") 62 "v") db1).1 = Ret false.
Proof.
  pose (db0 := (exec_cmds 300 (Ret PROD) [DeadLetter "r3" "lost" "leased" (Some "acme") 60 "t"] demo_db).2).
  assert (queue_wf db0) as Hwf by (apply exec_cmds_wf, demo_wf).
  pose proof (dead_letter_record_stolen 300 (Ret PROD) "r3" "mine" "leased" "acme" "bolt" (Some "acme") (Some "bolt")
    61 62 "u" "v" db0
    (mkRow "r3" st_failed 5 0 3 (Some "w") (Some 340%Z) false "{}" 30 60 "acme" "u" "s" "p" None)
    Hwf eq_refl eq_refl ltac:(discriminate) eq_refl eq_refl eq_refl) as (_ & H & _).
  exact (f_equal fst H).
Defined.

(** A worker whose lease ran out reports a failure; between its SELECT and its UPDATE
    the run is recovered and claimed by another worker.  The UPDATE names no worker: it
    takes the run from the new holder and queues it again. *)
Example fail_takes_from_holder :
  let others db := (exec_cmds 300 (Ret PROD) [ReleaseExpired 400; ClaimUpdate "x" "r3" 401] db).2 in
  let db := (RunQueue.fail_overtaken (Ret PROD) "r3" "w" "boom" (Some "acme") 402 "u" others demo_db).2 in
  (rq_worker_id <$> row_of (others demo_db) "r3") = Some (Some "x") /\
  (rq_status <$> row_of db "r3") = Some st_queued /\ (rq_worker_id <$> row_of db "r3") = Some None.
Proof. vm_compute. repeat split. Qed.
