(* ===== verification/Idempotency.v ===== *)
(** * Request idempotency ([hi_agent/server/idempotency.py],
    [agent_server/facade/idempotency_facade.py])

    The table [idempotency_records] of [IdempotencyStore] is a list of rows with
    the unique key (tenant, idempotency key).  [threading.Lock] makes the methods
    of one store atomic; other stores on the same file (other processes) can act
    between the statements of [reserve_or_replay], which takes what they do.  Clock
    readings and the time to live are integers (microseconds).  The facade hashes
    the body of a request and keeps the response of the handler as JSON; SHA-256,
    Unicode normalisation and CPython's reading of floats are parameters. *)

From stdpp Require Import base tactics option list sorting strings pretty.
From Stdlib Require Import ZArith.
From S2P Require Import Prelude PyStr PyDict PyVal Json RunContext SqlTable RunQueue.
#[local] Arguments String.append : simpl nomatch.

Record IdempotencyRecord := mkIdem {
  ir_tenant_id : string;
  ir_idempotency_key : string;
  ir_request_hash : string;
  ir_run_id : string;
  ir_status : string;
  ir_response_snapshot : string;
  ir_created_at : Z;
  ir_updated_at : Z;
  ir_expires_at : Z;
  ir_project_id : string;
  ir_user_id : string;
  ir_session_id : string;
  ir_status_code : Z
}.

Abbreviation idem_db := (list IdempotencyRecord).

Definition idem_key (r : IdempotencyRecord) : string * string := (ir_tenant_id r, ir_idempotency_key r).

(** [WHERE tenant_id = ? AND idempotency_key = ?] *)
Abbreviation of_key t k := (has_key idem_key (t, k)).

(** [IdempotencyRecord.__post_init__]; [posture] is what [Posture.from_env] gives. *)
Definition post_init (posture : outcome Posture) (r : IdempotencyRecord) : outcome IdempotencyRecord :=
  p ← posture;
  let missing := (if decide (ir_tenant_id r = "") then ["tenant_id"] else []) ++
                 (if decide (ir_idempotency_key r = "") then ["idempotency_key"] else []) ++
                 (if decide (ir_run_id r = "") then ["run_id"] else []) in
  if decide (missing = []) then Ret r
  else if is_strict p then
    Raise (OtherError "SpineCompletenessError"
      ("IdempotencyRecord constructed without required spine fields under posture=" +:+ posture_value p +:+
       ": missing=" +:+ py_repr (PList (map PStr missing)) +:+
       ". Populate at the construction site (Rule 12)."))
  else Ret r.

Inductive idem_outcome := created | replayed | conflict.

#[export] Instance idem_outcome_eq_dec : EqDecision idem_outcome.
Proof. solve_decision. Defined.

(** [_DEFAULT_STATUS_CODE_BY_TERMINAL] *)
Definition default_status_code_for (terminal_state : string) : Z :=
  if decide (terminal_state = "succeeded") then 200
  else if decide (terminal_state = "failed") then 500
  else if decide (terminal_state = "cancelled") then 499
  else if decide (terminal_state = "timed_out") then 504
  else 500.

Definition _IDENTITY_FIELDS_STRIPPED_ON_REPLAY : list string :=
  ["request_id"; "trace_id"; "x_request_id"; "_response_timestamp"].

(** The [SET] clauses. *)
Definition set_complete (status response : string) (now code : Z) (r : IdempotencyRecord) : IdempotencyRecord :=
  mkIdem (ir_tenant_id r) (ir_idempotency_key r) (ir_request_hash r) (ir_run_id r) status response
    (ir_created_at r) now (ir_expires_at r) (ir_project_id r) (ir_user_id r) (ir_session_id r) code.

Module IdempotencyStore.
Section store.
Context (posture : outcome Posture) (float_repr : string -> string).

Definition put_rows (f : idem_db -> idem_db) : PyM idem_db unit := py_modify f.

Definition purge_expired (now : Z) : PyM idem_db nat :=
  db ← py_get;
  let gone r := (ir_expires_at r <? now)%Z in
  _ ← put_rows (delete_where gone);
  mret (rowcount gone db).

(** [others1] acts between the SELECT and the DELETE (or the INSERT, when nothing
    had expired), [others2] between the DELETE and the INSERT, [others3] between
    the ROLLBACK and the last SELECT. *)
Definition reserve_or_replay (others1 others2 others3 : idem_db -> idem_db)
    (tenant_id idempotency_key request_hash run_id : string) (ttl : Z)
    (project_id user_id session_id : string) (exec_ctx : option RunExecutionContext) (now : Z) :
    PyM idem_db (idem_outcome * IdempotencyRecord) :=
  let over (f : RunExecutionContext -> string) x := match exec_ctx with Some c => or_else (f c) x | None => x end in
  let tenant_id := over ec_tenant_id tenant_id in
  let user_id := over ec_user_id user_id in
  let session_id := over ec_session_id session_id in
  let project_id := over ec_project_id project_id in
  let expires_at := (now + ttl)%Z in
  let row := mkIdem tenant_id idempotency_key request_hash run_id "pending" "" now now expires_at
               project_id user_id session_id 200 in
  db ← py_get;
  let existing := select_one (of_key tenant_id idempotency_key) db in
  _ ← put_rows others1;
  _ ← (if match existing with Some r => (ir_expires_at r <? now)%Z | None => false end
       then _ ← put_rows (delete_where (of_key tenant_id idempotency_key)); put_rows others2
       else mret tt);
  db' ← py_get;
  match select_one (of_key tenant_id idempotency_key) db' with
  | None =>
      _ ← put_rows (fun t => t ++ [row]);
      record ← py_lift (post_init posture row);
      mret (created, record)
  | Some _ =>
      _ ← put_rows others3;
      db'' ← py_get;
      match select_one (of_key tenant_id idempotency_key) db'' with
      | None =>
          py_raise (RuntimeError ("idempotency record vanished after UNIQUE conflict for key=" +:+
                                  py_repr_str idempotency_key))
      | Some r =>
          record ← py_lift (post_init posture r);
          mret (if decide (ir_request_hash record = request_hash) then replayed else conflict, record)
      end
  end.

(** [_normalize_response_for_replay] *)
Definition _normalize_response_for_replay (response_json : string) : outcome string :=
  if decide (response_json = "") then Ret response_json
  else match json_loads float_repr response_json with
       | Raise e => if is_json_error e then Ret response_json else Raise e
       | Ret (PDict payload) =>
           if existsb (fun f => od_mem f payload) _IDENTITY_FIELDS_STRIPPED_ON_REPLAY
           then Ret (json_dumps_sorted false
                  (PDict (foldl (fun d f => od_pop f d) payload _IDENTITY_FIELDS_STRIPPED_ON_REPLAY)))
           else Ret response_json
       | Ret _ => Ret response_json
       end.

Definition mark_complete (tenant_id idempotency_key response_json terminal_state : string)
    (status_code : option Z) (now : Z) : PyM idem_db unit :=
  let status := if decide (terminal_state ∈ ["succeeded"; "failed"; "cancelled"; "timed_out"])
                then terminal_state else "succeeded" in
  let resolved_code := default (default_status_code_for status) status_code in
  normalized_response ← py_lift (_normalize_response_for_replay response_json);
  put_rows (update_where (of_key tenant_id idempotency_key)
              (set_complete status normalized_response now resolved_code)).

Definition mark_failed (tenant_id idempotency_key : string) (status_code : Z) (now : Z) : PyM idem_db unit :=
  put_rows (update_where (of_key tenant_id idempotency_key)
              (fun r => set_complete "failed" (ir_response_snapshot r) now status_code r)).

Definition release (tenant_id idempotency_key : string) : PyM idem_db unit :=
  put_rows (delete_where (fun r => of_key tenant_id idempotency_key r && bool_decide (ir_status r = "pending"))).
End store.
End IdempotencyStore.

(** The facade *********************************************************************)

Definition _IDENTITY_KEYS_TO_STRIP : list string := ["request_id"; "trace_id"; "_response_timestamp"].

Section facade.
Context (sha256 nfc float_repr : string -> string) (posture : outcome Posture).

(** [_nfc_normalize]: the strings among the values, not the keys. *)
Fixpoint _nfc_normalize (v : pyval) : pyval :=
  match v with
  | PStr s => PStr (nfc s)
  | PDict d => PDict (map (fun kv => (kv.1, _nfc_normalize kv.2)) d)
  | PList l => PList (map _nfc_normalize l)
  | _ => v
  end.

Definition _canonical_body_hash (body : odict string pyval) : string :=
  sha256 (json_dumps_sorted true (_nfc_normalize (PDict body))).

Definition _strip_identity (payload : odict string pyval) : odict string pyval :=
  filter (fun kv => kv.1 ∉ _IDENTITY_KEYS_TO_STRIP) payload.

Definition error_content (error message : string) : pyval :=
  PDict [("error", PStr error); ("message", PStr message)].

(** [int(v)]; texts and floats are outside the model. *)
Definition int_of (v : pyval) : outcome Z :=
  match v with
  | PInt z => Ret z
  | PBool b => Ret (if b then 1 else 0)%Z
  | PNone | PList _ | PDict _ => Raise (TypeError "int() argument must be a number or a string")
  | PStr _ | PFloat _ => Raise (OutsideModel "int of a text or a float")
  end.

Definition _decode_snapshot (snapshot : string) : outcome (pyval * Z) :=
  if decide (snapshot = "") then Ret (error_content "ConflictError" "request still in flight", 409%Z)
  else match json_loads float_repr snapshot with
       | Raise e => if is_json_error e then Ret (error_content "InternalError" "snapshot corrupt", 500%Z)
                    else Raise e
       | Ret (PDict decoded) =>
           match od_get "body" decoded with
           | Some (PDict body) =>
               code ← int_of (default (PInt 200) (od_get "status_code" decoded));
               Ret (PDict body, code)
           | _ => Ret (error_content "InternalError" "snapshot malformed", 500%Z)
           end
       | Ret _ => Raise (OtherError "AttributeError" "no attribute 'get'")
       end.

(** What the middleware learns: the outcome, the response to replay, its status. *)
Definition facade_reserve (tenant_id key : string) (body : odict string pyval) (now : Z) :
    PyM idem_db (idem_outcome * option pyval * Z) :=
  if decide (tenant_id = "") then py_raise (ValueError "tenant_id is required for idempotency lookup")
  else if decide (key = "") then py_raise (ValueError "idempotency key must be non-empty")
  else
    '(o, record) ← IdempotencyStore.reserve_or_replay posture id id id tenant_id key
       (_canonical_body_hash body) ("reserved::" +:+ key) 86400000000 "" "" "" None now;
    match o with
    | created => mret (created, None, 0%Z)
    | replayed =>
        '(cached_body, cached_status) ← py_lift (_decode_snapshot (ir_response_snapshot record));
        mret (replayed, Some cached_body, cached_status)
    | conflict => mret (conflict, None, 409%Z)
    end.

Definition snapshot_of (status_code : Z) (response_json : odict string pyval) : string :=
  json_dumps_sorted true
    (PDict [("status_code", PInt status_code); ("body", PDict (_strip_identity response_json))]).

Definition facade_mark_complete (tenant_id key : string) (response_json : odict string pyval)
    (status_code now : Z) : PyM idem_db unit :=
  if decide (tenant_id = "" \/ key = "") then mret tt
  else IdempotencyStore.mark_complete float_repr tenant_id key (snapshot_of status_code response_json)
         "succeeded" None now.

Definition facade_release (tenant_id key : string) : PyM idem_db unit :=
  if decide (tenant_id = "" \/ key = "") then mret tt else IdempotencyStore.release tenant_id key.
End facade.

(** Lemmas *************************************************************************)

(** The row of a key, and the invariant of the table. *)
Definition idem_row (db : idem_db) (q : string * string) : option IdempotencyRecord := select_one (has_key idem_key q) db.
Definition idem_wf (db : idem_db) : Prop := NoDup (map idem_key db).

Section facts.
Context (sha256 nfc float_repr : string -> string) (posture : outcome Posture).

(** An atomic reservation: a fresh row replaces an expired one. *)
Lemma reserve_spec t k h rid ttl pr u s now db : idem_wf db ->
  let new := mkIdem t k h rid "pending" "" now now (now + ttl) pr u s 200 in
  IdempotencyStore.reserve_or_replay posture id id id t k h rid ttl pr u s None now db =
  match idem_row db (t, k) with
  | Some r =>
      if (ir_expires_at r <? now)%Z then (pair created <$> post_init posture new, delete_where (of_key t k) db ++ [new])
      else ((fun x => (if decide (ir_request_hash x = h) then replayed else conflict, x)) <$> post_init posture r, db)
  | None => (pair created <$> post_init posture new, delete_where (of_key t k) db ++ [new])
  end.
Proof.
  intros Hwf new. unfold IdempotencyStore.reserve_or_replay, IdempotencyStore.put_rows, idem_row. py_simpl.
  destruct (select_one (of_key t k) db) as [r|] eqn:Hr.
  - destruct (ir_expires_at r <? now)%Z.
    + unfold id. rewrite select_deleted. unfold new. by destruct (post_init posture _).
    + unfold id. rewrite Hr. rewrite Hr. by destruct (post_init posture r).
  - unfold id. rewrite Hr. rewrite (delete_where_id (of_key t k)) by (intros x; by apply select_one_None).
    unfold new. by destruct (post_init posture _).
Qed.

(** The table after a fresh reservation. *)
Lemma fresh_row t k new q db : idem_wf db -> idem_key new = (t, k) ->
  idem_wf (delete_where (of_key t k) db ++ [new]) /\
  idem_row (delete_where (of_key t k) db ++ [new]) q = if decide ((t, k) = q) then Some new else idem_row db q.
Proof.
  intros Hwf Hk. assert (select_one (has_key idem_key (idem_key new)) (delete_where (of_key t k) db) = None) as Hd.
  { rewrite Hk. apply select_deleted. }
  split.
  - apply insert_keys; [by apply delete_where_keys|done].
  - unfold idem_row. rewrite (select_insert idem_key) by done. rewrite Hk. case_decide as Hq; [done|].
    rewrite (select_delete idem_key) by done. destruct (select_one (has_key idem_key q) db) as [r|] eqn:Hr; [|done].
    apply select_one_Some in Hr as [_ Hr%(has_key_eq idem_key)]. unfold has_key. rewrite bool_decide_false; [done|congruence].
Qed.

(** Updates and deletions of one key. *)
Lemma update_row t k f q db : key_kept idem_key f ->
  idem_row (update_where (of_key t k) f db) q = if decide ((t, k) = q) then f <$> idem_row db q else idem_row db q.
Proof.
  intros Hf. unfold idem_row. rewrite (select_update idem_key) by done.
  destruct (select_one (has_key idem_key q) db) as [r|] eqn:Hr; [|by case_decide].
  apply select_one_Some in Hr as [_ Hr%(has_key_eq idem_key)]. simpl. unfold has_key. rewrite Hr. case_decide as Hq.
  - by rewrite bool_decide_true.
  - by rewrite bool_decide_false by congruence.
Qed.

Lemma delete_row t k p q db : idem_wf db ->
  idem_row (delete_where (fun r => of_key t k r && p r) db) q =
  match idem_row db q with
  | Some r => if decide ((t, k) = q) then (if p r then None else Some r) else Some r
  | None => None
  end.
Proof.
  intros Hwf. unfold idem_row. rewrite (select_delete idem_key) by done.
  destruct (select_one (has_key idem_key q) db) as [r|] eqn:Hr; [|done].
  apply select_one_Some in Hr as [_ Hr%(has_key_eq idem_key)]. unfold has_key. rewrite Hr. case_decide as Hq.
  - by rewrite bool_decide_true.
  - by rewrite bool_decide_false by congruence.
Qed.

(** The snapshot the facade stores, read back. *)
Lemma strip_identity_wf d : od_wf d -> od_wf (_strip_identity d).
Proof.
  unfold od_wf, od_keys, _strip_identity. induction d as [|[k v] d IH]; simpl; [done|]. intros [Hk Hd]%NoDup_cons.
  rewrite filter_cons. case_decide; [|by apply IH]. simpl. apply NoDup_cons. split; [|by apply IH].
  intros ([k' x] & -> & [_ Hin]%list_elem_of_filter)%list_elem_of_fmap. apply Hk. simpl.
  by apply (list_elem_of_fmap_2 fst) in Hin.
Qed.

Lemma strip_identity_vals (P : pyval -> Prop) d : Forall (fun kv => P kv.2) d -> Forall (fun kv => P kv.2) (_strip_identity d).
Proof. intros Hd. apply Forall_forall. intros kv [_ Hin]%list_elem_of_filter. rewrite Forall_forall in Hd. by apply Hd. Qed.

Section snapshot.
Context (code : Z) (d : odict string pyval).
Hypothesis Hfloat : float_free (PDict d) = true.
Hypothesis Hdicts : dicts_wf (PDict d).

Definition envelope : odict string pyval := [("status_code", PInt code); ("body", PDict (_strip_identity d))].

Lemma envelope_ok : float_free (PDict envelope) = true /\ dicts_wf (PDict envelope).
Proof.
  apply dicts_wf_dict in Hdicts as [Hwf Hd]. split.
  - simpl in *. rewrite andb_true_r. apply forallb_Forall_true in Hfloat. apply forallb_forall. intros kv Hin.
    apply (strip_identity_vals (fun v => float_free v = true)) in Hfloat. rewrite Forall_forall in Hfloat.
    apply Hfloat. by apply list_elem_of_In.
  - apply dicts_wf_intro; [exact (bool_decide_unpack (NoDup ["status_code"; "body"]) I)|].
    constructor; [done|]. constructor; [|done].
    apply dicts_wf_intro; [by apply strip_identity_wf|]. by apply (strip_identity_vals dicts_wf).
Qed.

Lemma loads_snapshot : exists e, json_loads float_repr (snapshot_of code d) = Ret (PDict e) /\
  forall f, od_get f e = json_canon <$> od_get f envelope.
Proof.
  destruct envelope_ok as [Hf Hwf]. unfold snapshot_of.
  rewrite json_loads_dumps by done. eexists. split; [done|]. intros f. rewrite <-od_get_map. symmetry.
  apply od_get_perm; [by apply od_wf_map, dicts_wf_dict| |by rewrite sort_items_perm].
  destruct (dicts_wf_dict _ (json_canon_wf _ Hwf)) as [H _]. exact H.
Qed.

Lemma snapshot_ne : snapshot_of code d <> "".
Proof.
  unfold snapshot_of, json_dumps_sorted. simpl. done.
Qed.

(** It has no identity field at the top and is stored as it is. *)
Lemma normalize_snapshot : IdempotencyStore._normalize_response_for_replay float_repr (snapshot_of code d) = Ret (snapshot_of code d).
Proof.
  unfold IdempotencyStore._normalize_response_for_replay. rewrite decide_False by apply snapshot_ne.
  destruct loads_snapshot as (e & -> & He).
  assert (existsb (fun f => od_mem f e) _IDENTITY_FIELDS_STRIPPED_ON_REPLAY = false) as ->; [|done].
  unfold od_mem. simpl. by rewrite !He.
Qed.

Lemma decode_snapshot_of : _decode_snapshot float_repr (snapshot_of code d) =
  Ret (json_canon (PDict (_strip_identity d)), code).
Proof.
  unfold _decode_snapshot. rewrite decide_False by apply snapshot_ne.
  destruct loads_snapshot as (e & -> & He). by rewrite !He.
Qed.
End snapshot.
End facts.
