(* ===== verification/IdempotencyHttp.v ===== *)
(** * Idempotency middleware ([agent_server/api/middleware/idempotency.py])

    [IdempotencyMiddleware.dispatch] awaits the route handler between reserving the
    key and recording the response, so requests interleave: [dispatch_begin] is the
    code before [call_next], [dispatch_finish] the code after it, and a server runs
    any sequence of arrivals, completions and purges.  What a handler answers is
    part of the sequence.  The bytes of a body are given as their text, or [None]
    when they are not valid Unicode; Starlette's responses as their status and
    content. *)

From stdpp Require Import base tactics option list sorting strings pretty.
From Stdlib Require Import ZArith Ascii.
From S2P Require Import Prelude PyStr PyDict PyVal Json RunContext SqlTable RunQueue Idempotency.
#[local] Arguments String.append : simpl nomatch.

Definition IDEMPOTENCY_HEADER : string := "Idempotency-Key".
Definition _IDEMPOTENCY_KEY_MAX_LEN : nat := 256.
Definition _MUTATING_METHODS : list string := ["POST"; "PUT"; "DELETE"; "PATCH"].

Definition upper_char (c : ascii) : ascii :=
  let n := nat_of_ascii c in if (97 <=? n) && (n <=? 122) then ascii_of_nat (n - 32) else c.
Fixpoint upper (s : string) : string :=
  match s with EmptyString => EmptyString | String c s' => String (upper_char c) (upper s') end.

Abbreviation bytes := (option string).

Record request := mkReq {
  req_method : string;
  req_path : string;
  req_key : option string;       (* the Idempotency-Key header *)
  req_tenant : option string;    (* the X-Tenant-Id header *)
  req_body : bytes
}.

Inductive http_response :=
  | JSONResponse (status_code : Z) (content : pyval)
  | Response (status_code : Z) (payload : bytes).

(** What [call_next] gives back. *)
Record handled := mkHandled { hd_status_code : Z; hd_payload : bytes }.

(** The route predicates. *)
Definition _is_runs_mutation (method path : string) : bool :=
  if decide (method ∉ _MUTATING_METHODS) then false
  else if decide (path = "/v1/runs") then bool_decide (method = "POST")
  else startswith path "/v1/runs/".

Definition _is_skills_mutation (method path : string) : bool :=
  if decide (method ∉ _MUTATING_METHODS) then false
  else bool_decide (path = "/v1/skills") || startswith path "/v1/skills/".

Definition _is_memory_write_mutation (method path : string) : bool :=
  if decide (method ∉ _MUTATING_METHODS) then false else bool_decide (path = "/v1/memory/write").

Definition _is_gates_decide_mutation (method path : string) : bool :=
  if decide (method ∉ _MUTATING_METHODS) then false else startswith path "/v1/gates/".

Definition _DEFAULT_PREDICATES : list (string -> string -> bool) :=
  [_is_runs_mutation; _is_skills_mutation; _is_memory_write_mutation; _is_gates_decide_mutation].

Section middleware.
Context (sha256 nfc float_repr : string -> string) (posture : outcome Posture) (strict : bool).

(** [json.loads] of bytes *)
Definition loads_bytes (b : bytes) : outcome pyval :=
  match b with
  | Some s => json_loads float_repr s
  | None => Raise (OtherError "UnicodeDecodeError" "")
  end.

Definition _safe_decode_body (body : bytes) : outcome (odict string pyval) :=
  match body with
  | Some "" => Ret []
  | _ =>
      match loads_bytes body with
      | Raise e =>
          if is_json_error e then Ret [("__raw_body__", PStr (default "" body))] else Raise e
      | Ret (PDict d) => Ret d
      | Ret v => Ret [("__non_dict_body__", v)]
      end
  end.

Inductive begun :=
  | Pass                              (* call_next with no idempotency *)
  | Answer (r : http_response)
  | Forward (tenant_id key : string). (* call_next, then dispatch_finish *)

Definition contract_error (fields : odict string pyval) : http_response := JSONResponse 400 (PDict fields).

Definition too_long (tenant_id key : string) : http_response :=
  contract_error
    [("error", PStr "ContractError"); ("error_category", PStr "contract_violation");
     ("message", PStr (IDEMPOTENCY_HEADER +:+ " length " +:+ pretty (String.length key) +:+
                       " exceeds max " +:+ pretty _IDEMPOTENCY_KEY_MAX_LEN));
     ("retryable", PBool false);
     ("next_action", PStr ("Use an Idempotency-Key ≤ " +:+ pretty _IDEMPOTENCY_KEY_MAX_LEN +:+
                           " characters (UUID4 / ULID / nanoid recommended)."));
     ("tenant_id", PStr tenant_id); ("detail", PStr "")].

Definition key_missing (tenant_id : string) : http_response :=
  contract_error
    [("error", PStr "ContractError");
     ("message", PStr ("missing required " +:+ IDEMPOTENCY_HEADER +:+ " header"));
     ("tenant_id", PStr tenant_id); ("detail", PStr "research/prod posture demands idempotency keys")].

Definition key_conflict (tenant_id key : string) : http_response :=
  JSONResponse 409 (PDict
    [("error", PStr "ConflictError");
     ("message", PStr (IDEMPOTENCY_HEADER +:+ "=" +:+ key +:+ " already used with a different body"));
     ("tenant_id", PStr tenant_id); ("detail", PStr "idempotency key reuse with body mismatch")]).

Definition dispatch_begin (req : request) (now : Z) : PyM idem_db begun :=
  let method := upper (req_method req) in
  if negb (existsb (fun p => p method (req_path req)) _DEFAULT_PREDICATES) then mret Pass
  else
    let key := strip (default "" (req_key req)) in
    let tenant_id := strip (default "" (req_tenant req)) in
    if decide (tenant_id = "") then mret Pass
    else if decide (key <> "" /\ _IDEMPOTENCY_KEY_MAX_LEN < String.length key) then
      mret (Answer (too_long tenant_id key))
    else if decide (key = "") then
      mret (if strict then Answer (key_missing tenant_id) else Pass)
    else
      body_dict ← py_lift (_safe_decode_body (req_body req));
      '(o, cached_body, cached_status) ← facade_reserve sha256 nfc float_repr posture tenant_id key body_dict now;
      match o with
      | replayed =>
          match cached_body with
          | Some content => mret (Answer (JSONResponse cached_status content))
          | None => py_raise (OtherError "AssertionError" "")
          end
      | conflict => mret (Answer (key_conflict tenant_id key))
      | created => mret (Forward tenant_id key)
      end.

Definition success (h : handled) : bool := (200 <=? hd_status_code h)%Z && (hd_status_code h <? 300)%Z.

(** The JSON of a response; [{}] when it is empty or not JSON. *)
Definition response_json (payload : bytes) : outcome pyval :=
  match payload with
  | Some "" => Ret (PDict [])
  | _ => match loads_bytes payload with
         | Raise e => if is_json_error e then Ret (PDict []) else Raise e
         | r => r
         end
  end.

Definition dispatch_finish (tenant_id key : string) (result : outcome handled) (now : Z) :
    PyM idem_db http_response :=
  match result with
  | Raise e =>
      if is_exception e then _ ← facade_release tenant_id key; py_raise e else py_raise e
  | Ret h =>
      if success h then
        v ← py_lift (response_json (hd_payload h));
        _ ← match v with
            | PDict d => facade_mark_complete float_repr tenant_id key d (hd_status_code h) now
            | _ => mret tt
            end;
        mret (Response (hd_status_code h) (hd_payload h))
      else
        _ ← facade_release tenant_id key;
        mret (Response (hd_status_code h) (hd_payload h))
  end.

(** A server ***********************************************************************)

(** Its table, and the requests whose handler is running. *)
Record server := mkServer { sv_db : idem_db; sv_inflight : list (nat * (string * string)) }.

Inductive http_event :=
  | Arrive (id : nat) (req : request) (now : Z)
  | Finish (id : nat) (result : outcome handled) (now : Z)
  | Purge (now : Z).

Inductive served :=
  | Passed
  | Forwarded (tenant_id key : string)
  | Answered (r : outcome http_response)
  | Finished (tenant_id key : string) (result : outcome handled) (r : outcome http_response)
  | Nothing.

Definition running_id (id : nat) (w : server) : option (string * string) :=
  snd <$> List.find (fun p => bool_decide (p.1 = id)) (sv_inflight w).

Definition serve1 (e : http_event) (w : server) : served * server :=
  match e with
  | Arrive id req now =>
      match running_id id w with
      | Some _ => (Nothing, w)
      | None =>
          match dispatch_begin req now (sv_db w) with
          | (Ret (Forward t k), db) => (Forwarded t k, mkServer db ((id, (t, k)) :: sv_inflight w))
          | (Ret (Answer r), db) => (Answered (Ret r), mkServer db (sv_inflight w))
          | (Ret Pass, db) => (Passed, mkServer db (sv_inflight w))
          | (Raise e, db) => (Answered (Raise e), mkServer db (sv_inflight w))
          end
      end
  | Finish id result now =>
      match running_id id w with
      | Some (t, k) =>
          let '(r, db) := dispatch_finish t k result now (sv_db w) in
          (Finished t k result r, mkServer db (filter (fun p => p.1 <> id) (sv_inflight w)))
      | None => (Nothing, w)
      end
  | Purge now => (Nothing, mkServer (IdempotencyStore.purge_expired now (sv_db w)).2 (sv_inflight w))
  end.

Fixpoint serve (es : list http_event) (w : server) : list served * server :=
  match es with
  | [] => ([], w)
  | e :: es' =>
      let '(s, w') := serve1 e w in
      let '(ss, w'') := serve es' w' in (s :: ss, w'')
  end.
End middleware.
