(* ===== verification/IdempotencySpec.v ===== *)
(** * Properties of request idempotency

    Theorems on [Idempotency.v] and [IdempotencyHttp.v]: over any interleaving of
    requests, a handler runs at most once per key and succeeds at most once, a
    retry gets the first response, and what goes wrong when several processes
    share the table or a handler is cancelled. *)

From stdpp Require Import base tactics option list sorting strings pretty.
From Stdlib Require Import ZArith.
From S2P Require Import Prelude PyStr PyDict PyVal Json RunContext SqlTable RunQueue Idempotency IdempotencyHttp.
#[local] Arguments String.append : simpl nomatch.

(** The time a reservation lives in the facade: a day. *)
Definition ttl : Z := 86400000000.

Definition ev_time (e : http_event) : Z :=
  match e with Arrive _ _ now | Finish _ _ now | Purge now => now end.

(** Events within a day after [T]. *)
Definition in_window (T : Z) (e : http_event) : Prop := (T <= ev_time e <= T + ttl)%Z.

(** How many handlers run for a key, and how many of them answered 2xx. *)
Definition running (w : server) (q : string * string) : nat := length (filter (fun p => p.2 = q) (sv_inflight w)).

Definition success_of (q : string * string) (s : served) : nat :=
  match s with
  | Finished t k (Ret h) _ => if decide ((t, k) = q) then if success h then 1 else 0 else 0
  | _ => 0
  end.
Definition successes (q : string * string) (ss : list served) : nat := sum_list_with (success_of q) ss.

Record server_wf (w : server) : Prop := {
  sw_db : idem_wf (sv_db w);
  sw_ids : NoDup (sv_inflight w).*1
}.

(** The key a request is guarded by, if any. *)
Definition guarded (req : request) : option (string * string) :=
  let key := strip (default "" (req_key req)) in
  let tenant_id := strip (default "" (req_tenant req)) in
  if existsb (fun p => p (upper (req_method req)) (req_path req)) _DEFAULT_PREDICATES then
    if decide (tenant_id = "" \/ key = "" \/ _IDEMPOTENCY_KEY_MAX_LEN < String.length key) then None
    else Some (tenant_id, key)
  else None.

(** What an event may do to the row of a key and the number of its handlers;
    [c] is 1 when a handler of the key answers 2xx. *)
Inductive key_step (now : Z) : nat -> option IdempotencyRecord * nat -> option IdempotencyRecord * nat -> Prop :=
  | ks_same o n : key_step now 0 (o, n) (o, n)
  | ks_reserve o n r b :
      match o with Some r0 => (ir_expires_at r0 < now)%Z | None => True end ->
      ir_expires_at r = (now + ttl)%Z -> b <= 1 -> key_step now 0 (o, n) (Some r, n + b)
  | ks_purge r n : (ir_expires_at r < now)%Z -> key_step now 0 (Some r, n) (None, n)
  | ks_release o n : key_step now 0 (o, S n) (None, n)
  | ks_finish o o' n c :
      (ir_expires_at <$> o') = (ir_expires_at <$> o) -> c <= 1 -> key_step now c (o, S n) (o', n).

Section spec.
Context (sha256 nfc float_repr : string -> string) (posture : outcome Posture) (strict : bool).
Abbreviation step e w := (serve1 sha256 nfc float_repr posture strict e w).
Abbreviation run es w := (serve sha256 nfc float_repr posture strict es w).
Abbreviation begin req now := (dispatch_begin sha256 nfc float_repr posture strict req now).
Abbreviation hash := (_canonical_body_hash sha256 nfc).

(** The code before [call_next], on a guarded request and on the others. *)
Lemma begin_unguarded req now db : guarded req = None ->
  exists b, begin req now db = (Ret b, db) /\ forall t k, b <> Forward t k.
Proof.
  unfold guarded, dispatch_begin.
  destruct (existsb _ _); cbn [negb]; [|by exists Pass].
  set (key := strip (default "" (req_key req))). set (tenant := strip (default "" (req_tenant req))). intros Hg.
  destruct (decide (tenant = "")) as [|Ht]; [by exists Pass|].
  destruct (decide (key <> "" /\ _)) as [|Hl]; [by eexists (Answer _)|].
  destruct (decide (key = "")) as [|Hk]; [destruct strict; [by eexists (Answer _)|by exists Pass]|].
  rewrite decide_False in Hg by tauto. done.
Qed.

Definition fresh_record (t k : string) (body : odict string pyval) (now : Z) : IdempotencyRecord :=
  mkIdem t k (hash body) ("reserved::" +:+ k) "pending" "" now now (now + ttl) "" "" "" 200.

Definition replay_answer (t k : string) (body : odict string pyval) (r : IdempotencyRecord) : outcome begun :=
  x ← post_init posture r;
  if decide (ir_request_hash x = hash body) then
    '(content, code) ← _decode_snapshot float_repr (ir_response_snapshot x);
    mret (Answer (JSONResponse code content))
  else mret (Answer (key_conflict t k)).

Definition forward_answer (t k : string) (body : odict string pyval) (now : Z) : outcome begun :=
  _ ← post_init posture (fresh_record t k body now); mret (Forward t k).

Lemma begin_guarded req now db t k : idem_wf db -> guarded req = Some (t, k) ->
  begin req now db =
  match _safe_decode_body float_repr (req_body req) with
  | Raise e => (Raise e, db)
  | Ret body =>
      match idem_row db (t, k) with
      | Some r =>
          if (ir_expires_at r <? now)%Z then
            (forward_answer t k body now, delete_where (of_key t k) db ++ [fresh_record t k body now])
          else (replay_answer t k body r, db)
      | None => (forward_answer t k body now, delete_where (of_key t k) db ++ [fresh_record t k body now])
      end
  end.
Proof.
  intros Hwf. unfold guarded, dispatch_begin. destruct (existsb _ _); [|done]. cbn [negb].
  set (key := strip (default "" (req_key req))). set (tenant := strip (default "" (req_tenant req))).
  case_decide as Hg; [done|]. intros [= <- <-]. apply Decidable.not_or in Hg as [Ht Hg].
  apply Decidable.not_or in Hg as [Hk Hlen].
  rewrite (decide_False (P := tenant = "")) by done. rewrite (decide_False (P := key <> "" /\ _)) by tauto.
  rewrite (decide_False (P := key = "")) by done. unfold py_lift, mbind, PyM_bind.
  destruct (_safe_decode_body _ _) as [body|e]; [|done]. unfold facade_reserve.
  rewrite (decide_False (P := tenant = "")) by done. rewrite (decide_False (P := key = "")) by done.
  unfold mbind, PyM_bind. rewrite reserve_spec by done. unfold forward_answer, replay_answer.
  change (mkIdem tenant key _ _ _ _ _ _ _ _ _ _ _) with (fresh_record tenant key body now).
  destruct (idem_row db (tenant, key)) as [r|]; [destruct (_ <? _)%Z|].
  - by destruct (post_init posture (fresh_record _ _ _ _)).
  - destruct (post_init posture r) as [x|e]; [|done]. simpl. case_decide; [|done].
    destruct (_decode_snapshot _ _) as [[content code]|e]; done.
  - by destruct (post_init posture (fresh_record _ _ _ _)).
Qed.

(** The row of a key, and its handlers, across a reservation. *)
Lemma fresh_step t k body now db q n (b : nat) : idem_wf db ->
  match idem_row db (t, k) with Some r => (ir_expires_at r < now)%Z | None => True end -> b <= 1 ->
  let db' := delete_where (of_key t k) db ++ [fresh_record t k body now] in
  idem_wf db' /\
  key_step now 0 (idem_row db q, n) (idem_row db' q, n + (if decide ((t, k) = q) then b else 0)).
Proof.
  intros Hwf Hexp Hb db'. destruct (fresh_row t k (fresh_record t k body now) q db Hwf eq_refl) as [Hwf' Hrow].
  split; [exact Hwf'|]. unfold db'. rewrite Hrow. destruct (decide ((t, k) = q)) as [<-|].
  - by apply ks_reserve.
  - rewrite Nat.add_0_r. apply ks_same.
Qed.

(** [begin] on the row of any key; [b] counts the handler it starts. *)
Lemma begin_step req now db q n : idem_wf db ->
  let '(o, db') := begin req now db in
  idem_wf db' /\
  key_step now 0 (idem_row db q, n)
    (idem_row db' q, n + match o with Ret (Forward t k) => if decide ((t, k) = q) then 1 else 0 | _ => 0 end).
Proof.
  intros Hwf. destruct (guarded req) as [[t k]|] eqn:Hg.
  - rewrite (begin_guarded req now db t k) by done. destruct (_safe_decode_body _ _) as [body|e].
    2:{ split; [done|]. rewrite Nat.add_0_r. apply ks_same. }
    assert (forall b, b <= 1 -> (match idem_row db (t, k) with Some r => (ir_expires_at r < now)%Z | None => True end) ->
      let db' := delete_where (of_key t k) db ++ [fresh_record t k body now] in
      idem_wf db' /\ key_step now 0 (idem_row db q, n) (idem_row db' q, n + (if decide ((t, k) = q) then b else 0))) as Hf.
    { intros b Hb Hexp. by apply fresh_step. }
    destruct (idem_row db (t, k)) as [r|] eqn:Hr; [destruct (Z.ltb_spec (ir_expires_at r) now)|].
    + unfold forward_answer. destruct (post_init posture _) as [x|e]; cbn [mbind outcome_bind mret outcome_ret].
      * apply Hf; [lia|done].
      * destruct (Hf 0) as [? Hs]; [lia|done|]. split; [done|]. by destruct (decide ((t, k) = q)).
    + split; [done|]. assert (match replay_answer t k body r with Ret (Forward t k) => if decide ((t, k) = q) then 1 else 0 | _ => 0 end = 0) as ->.
      { unfold replay_answer. destruct (post_init posture r) as [x|]; [|done]. simpl. destruct (decide (ir_request_hash x = _)); [|done].
        by destruct (_decode_snapshot _ _) as [[content code]|]. }
      rewrite Nat.add_0_r. apply ks_same.
    + unfold forward_answer. destruct (post_init posture _) as [x|e]; cbn [mbind outcome_bind mret outcome_ret].
      * apply Hf; [lia|done].
      * destruct (Hf 0) as [? Hs]; [lia|done|]. split; [done|]. by destruct (decide ((t, k) = q)).
  - destruct (begin_unguarded req now db Hg) as (b & -> & Hb). split; [done|].
    destruct b as [| |t k]; [..|by destruct (Hb t k)]; rewrite Nat.add_0_r; apply ks_same.
Qed.

(** The code after [call_next] on the row of a key. *)
Lemma finish_row t k result now db q : idem_wf db ->
  let db' := (dispatch_finish float_repr t k result now db).2 in
  idem_wf db' /\
  (q <> (t, k) -> idem_row db' q = idem_row db q) /\
  ((forall h, result = Ret h -> success h = false) -> idem_row db' (t, k) = None \/ idem_row db' (t, k) = idem_row db (t, k)) /\
  (forall h, result = Ret h -> success h = true -> ir_expires_at <$> idem_row db' (t, k) = ir_expires_at <$> idem_row db (t, k)).
Proof.
  intros Hwf db'.
  assert (forall db'', db'' = db \/ db'' = delete_where (fun r => of_key t k r && bool_decide (ir_status r = "pending")) db ->
    idem_wf db'' /\ (q <> (t, k) -> idem_row db'' q = idem_row db q) /\
    (idem_row db'' (t, k) = None \/ idem_row db'' (t, k) = idem_row db (t, k))) as Hrel.
  { intros db'' [->| ->]; [by auto|]. rewrite !delete_row by done. split; [by apply delete_where_keys|]. split.
    - intros Hq. destruct (idem_row db q); [|done]. by rewrite decide_False by congruence.
    - destruct (idem_row db (t, k)); [|by left]. rewrite decide_True by done. destruct (bool_decide _); auto. }
  assert ((facade_release t k db).2 = db \/
    (facade_release t k db).2 = delete_where (fun r => of_key t k r && bool_decide (ir_status r = "pending")) db) as Hr.
  { unfold facade_release. case_decide; auto. }
  unfold db', dispatch_finish. destruct result as [h|e].
  - destruct (success h) eqn:Hs.
    + assert (forall db'', db'' = db \/ (exists st resp c, db'' = update_where (of_key t k) (set_complete st resp now c) db) ->
        idem_wf db'' /\ (q <> (t, k) -> idem_row db'' q = idem_row db q) /\
        ((forall h', Ret h = Ret h' -> success h' = false) -> idem_row db'' (t, k) = None \/ idem_row db'' (t, k) = idem_row db (t, k)) /\
        (forall h', Ret h = Ret h' -> success h' = true -> ir_expires_at <$> idem_row db'' (t, k) = ir_expires_at <$> idem_row db (t, k))) as Hupd.
      { intros db'' Hdb. assert (forall P : Prop, (forall h', Ret h = Ret h' -> success h' = false) -> P) as Hno.
        { intros P Hf. specialize (Hf h eq_refl). congruence. }
        destruct Hdb as [->|(st & resp & c & ->)]; [split_and!; auto|]. rewrite !update_row by done.
        split; [unfold idem_wf; by rewrite update_keys|]. split; [intros ?; by rewrite decide_False by congruence|].
        split; [apply Hno|]. intros _ _ _. rewrite decide_True by done. by destruct (idem_row db (t, k)). }
      py_simpl. destruct (response_json _ _) as [v|e]; [|by apply Hupd; left].
      destruct v; try (by apply Hupd; left). unfold facade_mark_complete. case_decide; [by apply Hupd; left|].
      unfold IdempotencyStore.mark_complete. py_simpl. destruct (IdempotencyStore._normalize_response_for_replay _ _); [|by apply Hupd; left].
      simpl. apply Hupd. right. by eexists _, _, _.
    + py_simpl. assert ((let (o, s) := facade_release t k db in match o with Ret _ => (Ret (Response (hd_status_code h) (hd_payload h)), s) | Raise e => (Raise e, s) end).2 = (facade_release t k db).2) as Heq
        by (by destruct (facade_release t k db) as [[] ?]).
      rewrite Heq. destruct (Hrel _ Hr) as (? & ? & ?). split_and!; auto. intros h' [= <-]. congruence.
  - destruct (is_exception e); py_simpl.
    + assert ((let (o, s) := facade_release t k db in match o with Ret _ => (@Raise http_response e, s) | Raise e => (Raise e, s) end).2 = (facade_release t k db).2) as Heq
        by (by destruct (facade_release t k db) as [[] ?]).
      rewrite Heq. destruct (Hrel _ Hr) as (? & ? & ?). split_and!; auto. done.
    + split_and!; auto; done.
Qed.

(** The handlers in flight when one of them ends. *)
Lemma inflight_end (l : list (nat * (string * string))) id p : NoDup l.*1 ->
  List.find (fun p => bool_decide (p.1 = id)) l = Some p ->
  NoDup (filter (fun p => p.1 <> id) l).*1 /\
  forall q, length (filter (fun p => p.2 = q) l) =
    (if decide (p.2 = q) then 1 else 0) + length (filter (fun p => p.2 = q) (filter (fun p => p.1 <> id) l)).
Proof.
  induction l as [|p0 l IH]; [done|]. intros [Hn Hnd]%NoDup_cons. simpl. rewrite !filter_cons.
  destruct (decide (p0.1 = id)) as [Hid|Hid].
  - rewrite bool_decide_true by done. intros [= <-]. rewrite (decide_False (P := p0.1 <> id)) by auto.
    rewrite (filter_all (fun p => p.1 <> id) l).
    2:{ intros p Hp Heq. apply Hn. rewrite Hid, <-Heq. by apply list_elem_of_fmap_2. }
    split; [done|]. intros q. rewrite filter_cons. by destruct (decide (p0.2 = q)).
  - rewrite bool_decide_false by done. intros Hf. destruct (IH Hnd Hf) as [Hnd' Hlen].
    rewrite (decide_True (P := p0.1 <> id)) by done. split.
    + simpl. apply NoDup_cons. split; [|done]. intros (p' & Hp' & [_ Hin]%list_elem_of_filter)%list_elem_of_fmap.
      apply Hn. rewrite Hp'. by apply list_elem_of_fmap_2.
    + intros q. rewrite !filter_cons. specialize (Hlen q). destruct (decide (p0.2 = q)); simpl; lia.
Qed.

Lemma serve1_step e w q : server_wf w ->
  let '(s, w') := step e w in
  server_wf w' /\
  key_step (ev_time e) (success_of q s) (idem_row (sv_db w) q, running w q) (idem_row (sv_db w') q, running w' q).
Proof.
  intros [Hdb Hids]. destruct e as [id req now|id result now|now].
  - simpl. destruct (running_id id w) eqn:Hid; [by split; [|apply ks_same]|].
    pose proof (begin_step req now (sv_db w) q (running w q) Hdb) as Hb.
    destruct (begin req now (sv_db w)) as [[[| r|t k]|e] db'], Hb as [Hdb' Hs]; rewrite ?Nat.add_0_r in Hs; simpl;
      (split; [split; [done|]|]); try done.
    + simpl. apply NoDup_cons. split; [|done]. intros ([id' p'] & -> & Hin)%list_elem_of_fmap. simpl in Hid.
      unfold running_id in Hid. destruct (List.find _ _) eqn:Hf; [done|].
      pose proof (List.find_none _ _ Hf (id', p')) as Hne. rewrite list_elem_of_In in Hin. specialize (Hne Hin).
      simpl in Hne. by rewrite bool_decide_true in Hne.
    + unfold running in *. simpl. rewrite filter_cons. simpl. destruct (decide ((t, k) = q)); simpl; [|by rewrite Nat.add_0_r in Hs].
      by rewrite Nat.add_1_r in Hs.
  - simpl. unfold running_id. destruct (List.find _ _) as [[id' [t k]]|] eqn:Hf; [|by split; [|apply ks_same]]. simpl.
    destruct (inflight_end _ _ _ Hids Hf) as [Hids' Hlen]. specialize (Hlen q). simpl in Hlen.
    pose proof (finish_row t k result now (sv_db w) q Hdb) as (Hdb' & Hne & Hrel & Hsuc).
    destruct (dispatch_finish _ _ _ _ _ _) as [r db']. simpl in *. split; [by split|]. unfold running at 1. rewrite Hlen.
    change (length (filter (fun p => p.2 = q) (filter (fun p => p.1 <> id) (sv_inflight w)))) with
      (running (mkServer db' (filter (fun p => p.1 <> id) (sv_inflight w))) q). clear Hlen.
    destruct (decide ((t, k) = q)) as [<-|Hq].
    + destruct result as [h|e]; [destruct (success h) eqn:Hs|].
      * apply ks_finish; [by eapply Hsuc|lia].
      * destruct Hrel as [-> | ->]; [naive_solver|apply ks_release|]. by apply ks_finish; [|lia].
      * destruct Hrel as [-> | ->]; [naive_solver|apply ks_release|]. by apply ks_finish; [|lia].
    + rewrite Hne by congruence.
      destruct result; apply ks_same.
  - simpl. split; [split; [by apply delete_where_keys|done]|]. unfold idem_row, running. simpl.
    rewrite (select_delete idem_key) by done. destruct (select_one _ _) as [r|]; [|apply ks_same].
    destruct (Z.ltb_spec (ir_expires_at r) now); [by apply ks_purge|apply ks_same].
Qed.

(** The invariant of a key while no reservation can have expired: [c] handlers of
    it have answered 2xx. *)
Definition key_inv (E : Z) (c : nat) (s : option IdempotencyRecord * nat) : Prop :=
  match s with
  | (None, n) => n = 0 /\ c = 0
  | (Some r, n) => (E <= ir_expires_at r)%Z /\ n + c <= 1
  end.

Lemma key_step_inv T now c c' s s' : (T <= now <= T + ttl)%Z ->
  key_step now c' s s' -> key_inv (T + ttl) c s -> key_inv (T + ttl) (c + c') s'.
Proof.
  intros Hnow Hs Hi. inversion Hs; subst; simpl in *.
  - by rewrite Nat.add_0_r.
  - destruct o as [r0|]; simpl in Hi; lia.
  - lia.
  - destruct o; simpl in Hi; lia.
  - destruct o as [r|], o' as [r'|]; simplify_eq/=; lia.
Qed.

Lemma run_cons e es w : run (e :: es) w = ((step e w).1 :: (run es (step e w).2).1, (run es (step e w).2).2).
Proof. simpl. destruct (step e w) as [s w']. simpl. by destruct (run es w'). Qed.

Lemma run_app es es' w : (run (es ++ es') w).2 = (run es' (run es w).2).2.
Proof. revert w. induction es as [|e es IH]; intros w; [done|]. rewrite <-app_comm_cons, !run_cons. simpl. apply IH. Qed.

Lemma step_at e w q : server_wf w -> server_wf (step e w).2 /\
  key_step (ev_time e) (success_of q (step e w).1) (idem_row (sv_db w) q, running w q)
    (idem_row (sv_db (step e w).2) q, running (step e w).2 q).
Proof. intros Hw. pose proof (serve1_step e w q Hw) as H. by destruct (step e w). Qed.

Lemma run_wf es w : server_wf w -> server_wf (run es w).2.
Proof.
  revert w. induction es as [|e es IH]; intros w Hw; [done|]. rewrite run_cons. simpl. apply IH.
  by apply (step_at e w ("", "")).
Qed.

Lemma run_key_inv T q es : forall w c, server_wf w -> Forall (in_window T) es ->
  key_inv (T + ttl) c (idem_row (sv_db w) q, running w q) ->
  key_inv (T + ttl) (c + successes q (run es w).1) (idem_row (sv_db (run es w).2) q, running (run es w).2 q).
Proof.
  induction es as [|e es IH]; intros w c Hw Hes Hi; [by rewrite Nat.add_0_r|].
  apply Forall_cons in Hes as [He Hes]. rewrite run_cons. cbn [fst snd]. unfold successes. simpl sum_list_with.
  destruct (step_at e w q Hw) as [Hw' Hs]. rewrite Nat.add_assoc. apply IH; [done|done|].
  by eapply key_step_inv.
Qed.

(** A settled row: no handler of its key runs and it has not expired. *)
Lemma settled_step e w q r : server_wf w -> idem_row (sv_db w) q = Some r -> running w q = 0 ->
  (ev_time e <= ir_expires_at r)%Z ->
  server_wf (step e w).2 /\ idem_row (sv_db (step e w).2) q = Some r /\ running (step e w).2 q = 0.
Proof.
  intros Hw Hr Hn He. destruct (step_at e w q Hw) as [Hw' Hs]. split; [done|]. rewrite Hr, Hn in Hs.
  inversion Hs; subst; auto; lia.
Qed.

Lemma settled es : forall w q r, server_wf w -> idem_row (sv_db w) q = Some r -> running w q = 0 ->
  Forall (fun e => (ev_time e <= ir_expires_at r)%Z) es ->
  server_wf (run es w).2 /\ idem_row (sv_db (run es w).2) q = Some r /\ running (run es w).2 q = 0.
Proof.
  induction es as [|e es IH]; intros w q r Hw Hr Hn Hes; [done|]. apply Forall_cons in Hes as [He Hes].
  rewrite run_cons. cbn [fst snd]. destruct (settled_step e w q r) as (? & ? & ?); auto.
Qed.

(** The row of a key while the handler [id] that reserved it runs. *)
Lemma running_ge id w q : running_id id w = Some q -> 1 <= running w q.
Proof.
  unfold running_id, running. destruct (List.find _ _) as [p|] eqn:Hf; [|done]. simpl. intros [= <-].
  apply List.find_some in Hf as [Hin _].
  assert (p ∈ filter (fun p' => p'.2 = p.2) (sv_inflight w)) as Hp.
  { apply list_elem_of_filter. split; [done|]. by apply list_elem_of_In. }
  destruct (filter _ _); [by apply elem_of_nil in Hp|simpl; lia].
Qed.

Lemma running_id_step e id w q : running_id id w = Some q -> (forall res now, e <> Finish id res now) ->
  running_id id (step e w).2 = Some q.
Proof.
  unfold running_id. intros Hid Hne. destruct e as [id' req now|id' res now|now]; simpl; [| |done].
  - unfold running_id. destruct (List.find (fun p => bool_decide (p.1 = id')) _) as [p|] eqn:Hf; [done|]. simpl.
    destruct (begin req now (sv_db w)) as [[[| r|t k]|e] db']; try done. simpl.
    rewrite bool_decide_false; [done|]. intros ->. by rewrite Hf in Hid.
  - unfold running_id. assert (id' <> id) as Hn by (intros ->; by eapply Hne).
    destruct (List.find (fun p => bool_decide (p.1 = id')) _) as [[? [t k]]|] eqn:Hf; [|done]. simpl.
    destruct (dispatch_finish _ _ _ _ _ _). simpl. clear Hf. revert Hid. induction (sv_inflight w) as [|p rest IH]; [done|].
    simpl. rewrite filter_cons. destruct (decide (p.1 <> id')) as [Hp|Hp]; simpl.
    + by destruct (bool_decide (p.1 = id)).
    + rewrite bool_decide_false by (intros Heq; apply Hp; congruence). exact IH.
Qed.

Lemma held es : forall w id q r, server_wf w -> running_id id w = Some q -> idem_row (sv_db w) q = Some r ->
  running w q = 1 -> Forall (fun e => (ev_time e <= ir_expires_at r)%Z /\ forall res now, e <> Finish id res now) es ->
  server_wf (run es w).2 /\ running_id id (run es w).2 = Some q /\ idem_row (sv_db (run es w).2) q = Some r /\
  running (run es w).2 q = 1.
Proof.
  induction es as [|e es IH]; intros w id q r Hw Hid Hr Hn Hes; [done|].
  apply Forall_cons in Hes as [[He Hne] Hes]. rewrite run_cons. cbn [fst snd].
  destruct (step_at e w q Hw) as [Hw' Hs]. pose proof (running_id_step e id w q Hid Hne) as Hid'.
  pose proof (running_ge id _ q Hid') as Hge. rewrite Hr, Hn in Hs.
  assert (idem_row (sv_db (step e w).2) q = Some r /\ running (step e w).2 q = 1) as [Hr' Hn'].
  { inversion Hs; subst; auto; lia. }
  by apply IH.
Qed.

Lemma post_init_ok p r : posture = Ret p -> ir_tenant_id r <> "" -> ir_idempotency_key r <> "" -> ir_run_id r <> "" ->
  post_init posture r = Ret r.
Proof.
  intros -> Ht Hk Hr. unfold post_init. simpl.
  rewrite (decide_False (P := ir_tenant_id r = "")), (decide_False (P := ir_idempotency_key r = "")),
    (decide_False (P := ir_run_id r = "")) by done. by rewrite decide_True.
Qed.

Lemma guarded_ne req t k : guarded req = Some (t, k) -> t <> "" /\ k <> "".
Proof. unfold guarded. destruct (existsb _ _); [|done]. case_decide; [done|]. intros [= <- <-]. tauto. Qed.

(** What a forwarded request reserved. *)
Lemma forwarded id req now w t k : server_wf w -> (step (Arrive id req now) w).1 = Forwarded t k ->
  guarded req = Some (t, k) /\ (exists p, posture = Ret p) /\
  exists body, _safe_decode_body float_repr (req_body req) = Ret body /\
    server_wf (step (Arrive id req now) w).2 /\
    running_id id (step (Arrive id req now) w).2 = Some (t, k) /\
    idem_row (sv_db (step (Arrive id req now) w).2) (t, k) = Some (fresh_record t k body now) /\
    running (step (Arrive id req now) w).2 (t, k) = S (running w (t, k)).
Proof.
  intros Hw Hf. pose proof (step_at (Arrive id req now) w (t, k) Hw) as [Hw' _]. revert Hf Hw'.
  pose proof (sw_db _ Hw) as Hdb. simpl. destruct (running_id id w) eqn:Hid; [done|].
  destruct (guarded req) as [[t' k']|] eqn:Hg.
  2:{ destruct (begin_unguarded req now (sv_db w) Hg) as (b & -> & Hb). destruct b; try done. by destruct (Hb tenant_id key). }
  rewrite (begin_guarded req now (sv_db w) t' k') by done.
  destruct (_safe_decode_body _ _) as [body|e]; [|done].
  assert (forall o db, (o = forward_answer t' k' body now /\ db = delete_where (of_key t' k') (sv_db w) ++ [fresh_record t' k' body now])
    \/ (exists r, o = replay_answer t' k' body r) ->
    (let '(s, w') := match (o, db) with
      | (Ret (Forward t k), db) => (Forwarded t k, mkServer db ((id, (t, k)) :: sv_inflight w))
      | (Ret (Answer r), db) => (Answered (Ret r), mkServer db (sv_inflight w))
      | (Ret Pass, db) => (Passed, mkServer db (sv_inflight w))
      | (Raise e, db) => (Answered (Raise e), mkServer db (sv_inflight w))
      end in s = Forwarded t k -> server_wf w' ->
      (t', k') = (t, k) /\ (exists p, posture = Ret p) /\ server_wf w' /\ running_id id w' = Some (t, k) /\
      idem_row (sv_db w') (t, k) = Some (fresh_record t k body now) /\ running w' (t, k) = S (running w (t, k)))) as Hcase.
  { intros o db [[-> ->]|[r ->]].
    - unfold forward_answer. destruct (post_init posture _) as [x|e] eqn:Hp; [|done]. simpl. intros [= <- <-] Hw'.
      split; [done|]. split.
      { destruct posture as [p|e]; [by exists p|done]. }
      split; [done|]. split; [unfold running_id; simpl; by rewrite bool_decide_true|]. split.
      + destruct (fresh_row t' k' (fresh_record t' k' body now) (t', k') (sv_db w) Hdb eq_refl) as [_ ->].
        by rewrite decide_True.
      + unfold running. simpl. rewrite filter_cons_True by done. done.
    - unfold replay_answer. destruct (post_init posture r) as [x|]; [|done]. simpl.
      destruct (decide (ir_request_hash x = _)); [|done]. by destruct (_decode_snapshot _ _) as [[content code]|]. }
  assert (exists o db, (match idem_row (sv_db w) (t', k') with
      | Some r => if (ir_expires_at r <? now)%Z then (forward_answer t' k' body now, delete_where (of_key t' k') (sv_db w) ++ [fresh_record t' k' body now])
                  else (replay_answer t' k' body r, sv_db w)
      | None => (forward_answer t' k' body now, delete_where (of_key t' k') (sv_db w) ++ [fresh_record t' k' body now])
      end) = (o, db) /\ ((o = forward_answer t' k' body now /\ db = delete_where (of_key t' k') (sv_db w) ++ [fresh_record t' k' body now])
    \/ (exists r, o = replay_answer t' k' body r))) as (o & db & -> & Ho).
  { destruct (idem_row _ _) as [r|]; [destruct (_ <? _)%Z|]; eexists _, _; (split; [done|]); eauto. }
  specialize (Hcase o db Ho). destruct o as [[| r|t0 k0]|e]; try done. intros Hf Hw'.
  destruct (Hcase Hf Hw') as ([= -> ->] & Hp & ?). split; [done|]. split; [done|]. by exists body.
Qed.

(** A later request with a settled key. *)
Lemma settled_answer id req now w t k body r : server_wf w -> running_id id w = None ->
  guarded req = Some (t, k) -> _safe_decode_body float_repr (req_body req) = Ret body ->
  idem_row (sv_db w) (t, k) = Some r -> (now <= ir_expires_at r)%Z -> post_init posture r = Ret r ->
  step (Arrive id req now) w =
  (Answered (if decide (ir_request_hash r = hash body) then
       '(content, code) ← _decode_snapshot float_repr (ir_response_snapshot r); mret (JSONResponse code content)
     else Ret (key_conflict t k)), w).
Proof.
  intros Hw Hid Hg Hbody Hr Hnow Hp. simpl. rewrite Hid, (begin_guarded req now (sv_db w) t k), Hbody, Hr by (done || apply Hw).
  destruct (Z.ltb_spec (ir_expires_at r) now); [lia|]. unfold replay_answer. rewrite Hp. simpl. destruct w as [db fl].
  destruct (decide _); [|done]. by destruct (_decode_snapshot _ _) as [[content code]|].
Qed.

Lemma response_json_wf payload d : response_json float_repr payload = Ret (PDict d) -> dicts_wf (PDict d).
Proof.
  assert (dicts_wf (PDict [])) as Hnil by (apply dicts_wf_intro; [apply od_wf_nil|done]).
  assert (forall b, (match loads_bytes float_repr b with
    | Raise e => if is_json_error e then Ret (PDict []) else Raise e | r => r end) = Ret (PDict d) -> dicts_wf (PDict d)) as H.
  { intros b. unfold loads_bytes. destruct b as [s|]; [|done]. destruct (json_loads float_repr s) eqn:E.
    - intros [= ->]. by eapply json_loads_wf.
    - destruct (is_json_error e); [|done]. by intros [= <-]. }
  unfold response_json. destruct payload as [[|c s]|]; [by intros [= <-]|apply H..].
Qed.

Lemma finish_running id res now w t k : server_wf w -> running_id id w = Some (t, k) -> running w (t, k) = 1 ->
  running (step (Finish id res now) w).2 (t, k) = 0.
Proof.
  intros Hw Hid Hn.
  assert (sv_inflight (step (Finish id res now) w).2 = filter (fun p => p.1 <> id) (sv_inflight w)) as Hfl.
  { simpl. rewrite Hid. by destruct (dispatch_finish _ _ _ _ _ _). }
  unfold running in *. rewrite Hfl. clear Hfl. unfold running_id in Hid.
  destruct (List.find _ _) as [p|] eqn:Hfind; [|done]. simpl in Hid. injection Hid as Hid.
  destruct (inflight_end _ _ _ (sw_ids _ Hw) Hfind) as [_ Hlen]. specialize (Hlen (t, k)).
  rewrite Hn, decide_True in Hlen by done. lia.
Qed.

(** The row after the handler that reserved the key answered 2xx with an object. *)
Lemma success_row id t k h d now w r : server_wf w -> t <> "" -> k <> "" ->
  running_id id w = Some (t, k) -> running w (t, k) = 1 -> idem_row (sv_db w) (t, k) = Some r ->
  success h = true -> response_json float_repr (hd_payload h) = Ret (PDict d) -> float_free (PDict d) = true ->
  idem_row (sv_db (step (Finish id (Ret h) now) w).2) (t, k) =
    Some (set_complete "succeeded" (snapshot_of (hd_status_code h) d) now 200 r) /\
  running (step (Finish id (Ret h) now) w).2 (t, k) = 0.
Proof.
  intros Hw Ht Hk Hid Hn Hr Hs Hd Hf. split.
  - simpl. rewrite Hid, Hs. py_simpl. rewrite Hd. unfold facade_mark_complete.
    rewrite decide_False by tauto. unfold IdempotencyStore.mark_complete. py_simpl.
    rewrite normalize_snapshot; [|done|by eapply response_json_wf]. simpl. rewrite update_row by done.
    by rewrite decide_True, Hr by done.
  - by apply finish_running.
Qed.

(** C17: A key's handler runs at most once at a time and succeeds at most once.
    Over any interleaving of arrivals, handler completions (answers, errors or
    cancellations) and purges within a day, starting without a reservation of the
    key, the handlers of the key that are running and those that answered 2xx
    together never exceed one. *)
Theorem handler_at_most_once (T : Z) (q : string * string) (es : list http_event) (w : server) :
  server_wf w -> idem_row (sv_db w) q = None -> running w q = 0 -> Forall (in_window T) es ->
  running (run es w).2 q + successes q (run es w).1 <= 1.
Proof.
  intros Hw Hr Hn Hes. pose proof (run_key_inv T q es w 0 Hw Hes) as H. rewrite Hr, Hn in H.
  specialize (H (conj eq_refl eq_refl)). unfold key_inv in H. simpl in H.
  destruct (idem_row (sv_db (run es w).2) q); lia.
Qed.

(** C16: A retry gets the first response.  If a request was forwarded and its
    handler answered 2xx with a JSON object, then whatever else happens within a
    day, a request with the same key answers the recorded status and object
    without its identity fields (keys in order), if its body is the same (equal
    hashes), and the 409 of a reused key otherwise, without calling the handler. *)
Theorem retry_replays (id id' : nat) (req req' : request) (t k : string) (h : handled)
    (d body' : odict string pyval) (es1 es2 : list http_event) (now0 now1 now2 : Z) (w : server) :
  server_wf w -> running w (t, k) = 0 ->
  (step (Arrive id req now0) w).1 = Forwarded t k ->
  Forall (fun e => (ev_time e <= now0 + ttl)%Z /\ forall res now, e <> Finish id res now) es1 ->
  success h = true -> response_json float_repr (hd_payload h) = Ret (PDict d) -> float_free (PDict d) = true ->
  Forall (fun e => (ev_time e <= now0 + ttl)%Z) es2 ->
  guarded req' = Some (t, k) -> _safe_decode_body float_repr (req_body req') = Ret body' ->
  (now2 <= now0 + ttl)%Z ->
  let w2 := (run (Arrive id req now0 :: es1 ++ Finish id (Ret h) now1 :: es2) w).2 in
  running_id id' w2 = None ->
  exists body, _safe_decode_body float_repr (req_body req) = Ret body /\
    step (Arrive id' req' now2) w2 =
    (Answered (Ret (if decide (hash body = hash body')
                    then JSONResponse (hd_status_code h) (json_canon (PDict (_strip_identity d)))
                    else key_conflict t k)), w2).
Proof.
  intros Hw Hn Hf Hes1 Hs Hd Hfl Hes2 Hg Hb Hnow2 w2 Hid'.
  destruct (forwarded id req now0 w t k Hw Hf) as (Hg0 & [p Hp] & body & Hbody & Hw1 & Hid & Hrow & Hrun).
  destruct (guarded_ne _ _ _ Hg0) as [Ht Hk]. exists body. split; [done|]. rewrite Hn in Hrun.
  destruct (held es1 _ id (t, k) _ Hw1 Hid Hrow Hrun Hes1) as (Hwa & Hida & Hra & Hna).
  destruct (success_row id t k h d now1 _ _ Hwa Ht Hk Hida Hna Hra Hs Hd Hfl) as [Hrb Hnb].
  destruct (settled es2 _ (t, k) _ (proj1 (step_at _ _ (t, k) Hwa)) Hrb Hnb Hes2) as (Hwc & Hrc & _).
  assert (w2 = (run es2 (step (Finish id (Ret h) now1) (run es1 (step (Arrive id req now0) w).2).2).2).2) as Hw2.
  { unfold w2. by rewrite run_cons; cbn [snd]; rewrite run_app, run_cons. }
  rewrite <-Hw2 in *. rewrite (settled_answer id' req' now2 w2 t k body' _ Hwc Hid' Hg Hb Hrc Hnow2).
  - simpl ir_request_hash. destruct (decide (hash body = hash body')) as [Heq|]; [|done]. simpl.
    by rewrite decode_snapshot_of by (done || by eapply response_json_wf).
  - by eapply post_init_ok.
Qed.

(** A key can be stuck.  When the handler of a forwarded request is cancelled
    (the client went away), or answers 2xx with JSON that is not an object, the
    reservation stays pending with no handler running: every retry of the request
    within the day is refused with 409 "request still in flight". *)
Theorem unfinished_key_blocked (id id' : nat) (req req' : request) (t k : string) (res : outcome handled)
    (body' : odict string pyval) (es1 es2 : list http_event) (now0 now1 now2 : Z) (w : server) :
  server_wf w -> running w (t, k) = 0 ->
  (step (Arrive id req now0) w).1 = Forwarded t k ->
  Forall (fun e => (ev_time e <= now0 + ttl)%Z /\ forall res now, e <> Finish id res now) es1 ->
  (res = Raise CancelledError \/
   exists h v, res = Ret h /\ success h = true /\ response_json float_repr (hd_payload h) = Ret v /\ as_dict v = None) ->
  Forall (fun e => (ev_time e <= now0 + ttl)%Z) es2 ->
  guarded req' = Some (t, k) -> _safe_decode_body float_repr (req_body req') = Ret body' ->
  (now2 <= now0 + ttl)%Z ->
  let w2 := (run (Arrive id req now0 :: es1 ++ Finish id res now1 :: es2) w).2 in
  running_id id' w2 = None ->
  running w2 (t, k) = 0 /\
  exists body, _safe_decode_body float_repr (req_body req) = Ret body /\
    (hash body = hash body' -> step (Arrive id' req' now2) w2 =
       (Answered (Ret (JSONResponse 409 (error_content "ConflictError" "request still in flight"))), w2)).
Proof.
  intros Hw Hn Hf Hes1 Hres Hes2 Hg Hb Hnow2 w2 Hid'.
  destruct (forwarded id req now0 w t k Hw Hf) as (Hg0 & [p Hp] & body & Hbody & Hw1 & Hid & Hrow & Hrun).
  destruct (guarded_ne _ _ _ Hg0) as [Ht Hk]. rewrite Hn in Hrun.
  destruct (held es1 _ id (t, k) _ Hw1 Hid Hrow Hrun Hes1) as (Hwa & Hida & Hra & Hna).
  pose proof (finish_running id res now1 _ t k Hwa Hida Hna) as Hnb.
  assert (idem_row (sv_db (step (Finish id res now1) (run es1 (step (Arrive id req now0) w).2).2).2) (t, k) =
    Some (fresh_record t k body now0)) as Hrb.
  { rewrite <-Hra. clear -Hida Hres. revert Hida. generalize (run es1 (step (Arrive id req now0) w).2).2. intros wa Hida.
    simpl. rewrite Hida. destruct Hres as [->|(h & v & -> & Hs & Hv & Hd)]; [done|].
    simpl. rewrite Hs. py_simpl. rewrite Hv. by destruct v. }
  destruct (settled es2 _ (t, k) _ (proj1 (step_at _ _ (t, k) Hwa)) Hrb Hnb Hes2) as (Hwc & Hrc & Hnc).
  assert (w2 = (run es2 (step (Finish id res now1) (run es1 (step (Arrive id req now0) w).2).2).2).2) as Hw2.
  { unfold w2. by rewrite run_cons; cbn [snd]; rewrite run_app, run_cons. }
  rewrite <-Hw2 in *. split; [done|]. exists body. split; [done|]. intros Heq.
  rewrite (settled_answer id' req' now2 w2 t k body' _ Hwc Hid' Hg Hb Hrc Hnow2) by by eapply post_init_ok.
  simpl ir_request_hash. by rewrite decide_True.
Qed.

(** Two processes on one table can both be given an expired key.  When a second
    store reserves the key completely between the SELECT and the DELETE of the
    first, the DELETE takes the fresh reservation of the second away and both are
    told [created], although the UNIQUE constraint is documented to let exactly one
    win. *)
Theorem expired_key_created_twice (t k h h' rid rid' pr u s pr' u' s' : string) (life now now' : Z) (p : Posture)
    (db : idem_db) (r : IdempotencyRecord) :
  idem_wf db -> posture = Ret p -> t <> "" -> k <> "" -> rid <> "" -> rid' <> "" ->
  idem_row db (t, k) = Some r -> (ir_expires_at r < now)%Z -> (ir_expires_at r < now')%Z ->
  let second := IdempotencyStore.reserve_or_replay posture id id id t k h' rid' life pr' u' s' None now' in
  let first := IdempotencyStore.reserve_or_replay posture (fun db => (second db).2) id id t k h rid life pr u s None now in
  let mine := mkIdem t k h rid "pending" "" now now (now + life) pr u s 200 in
  (second db).1 = Ret (created, mkIdem t k h' rid' "pending" "" now' now' (now' + life) pr' u' s' 200) /\
  (first db).1 = Ret (created, mine) /\
  idem_row (first db).2 (t, k) = Some mine.
Proof.
  intros Hwf Hp Ht Hk Hrid Hrid' Hr Hexp Hexp' second first mine.
  set (theirs := mkIdem t k h' rid' "pending" "" now' now' (now' + life) pr' u' s' 200).
  assert (second db = (Ret (created, theirs), delete_where (of_key t k) db ++ [theirs])) as Hsec.
  { unfold second. rewrite reserve_spec, Hr by done. destruct (Z.ltb_spec (ir_expires_at r) now'); [|lia].
    by rewrite (post_init_ok p). }
  destruct (fresh_row t k theirs (t, k) db Hwf eq_refl) as [Hwf1 _].
  assert (first db = (Ret (created, mine), delete_where (of_key t k) (delete_where (of_key t k) db ++ [theirs]) ++ [mine])) as ->.
  { unfold first, IdempotencyStore.reserve_or_replay, IdempotencyStore.put_rows. py_simpl. unfold idem_row in Hr. rewrite Hr.
    destruct (Z.ltb_spec (ir_expires_at r) now); [|lia]. rewrite Hsec. unfold id. cbn [snd].
    rewrite select_deleted.
    fold mine. by rewrite (post_init_ok p). }
  rewrite Hsec. split_and!; [done|done|]. cbn [snd].
  destruct (fresh_row t k mine (t, k) _ Hwf1 eq_refl) as [_ ->]. by rewrite decide_True.
Qed.
End spec.

(** Witnesses: two requests with one key, the first answered with a run. *)
Definition post_run (body : string) : request :=
  mkReq "post" "/v1/runs" (Some " key-1 ") (Some "acme") (Some body).

Definition run_created : handled :=
  mkHandled 201 (Some (json_spaced true (PDict [("run_id", PStr "r1"); ("request_id", PStr "q7"); ("n", PInt (-3))]))).

Definition idle : server := mkServer [] [].

Lemma idle_wf : server_wf idle.
Proof. split; apply NoDup_nil_2. Qed.

Lemma handler_at_most_once_witness :
  let es := [Arrive 1 (post_run "[1,2]") 0; Arrive 2 (post_run "[1,2]") 1; Finish 1 (Ret run_created) 2;
             Purge 3; Arrive 3 (post_run "[1,2]") 4] in
  running (serve id id id (Ret PROD) true es idle).2 ("acme", "key-1") +
    successes ("acme", "key-1") (serve id id id (Ret PROD) true es idle).1 <= 1 /\
  successes ("acme", "key-1") (serve id id id (Ret PROD) true es idle).1 = 1.
Proof.
  intros es. split; [|vm_compute; reflexivity].
  apply (handler_at_most_once id id id (Ret PROD) true 0 ("acme", "key-1") es idle idle_wf eq_refl eq_refl).
  unfold es. repeat (apply Forall_cons; split; [unfold in_window, ttl; simpl; lia|]). apply Forall_nil. exact I.
Defined.

Lemma retry_replays_witness :
  exists w, serve1 id id id (Ret PROD) true (Arrive 2 (post_run "[1,2]") 50)
    (serve id id id (Ret PROD) true [Arrive 1 (post_run "[1,2]") 0; Finish 1 (Ret run_created) 9] idle).2 =
    (Answered (Ret (JSONResponse 201 (PDict [("n", PInt (-3)); ("run_id", PStr "r1")]))), w).
Proof.
  pose proof (retry_replays id id id (Ret PROD) true 1 2 (post_run "[1,2]") (post_run "[1,2]") "acme" "key-1" run_created
    [("run_id", PStr "r1"); ("request_id", PStr "q7"); ("n", PInt (-3))]
    [("__non_dict_body__", PList [PInt 1; PInt 2])] [] [] 0 9 50 idle idle_wf eq_refl) as H.
  destruct H as (body & Hb & Hs); [vm_compute; reflexivity|apply Forall_nil; exact I|reflexivity|
    vm_compute; reflexivity|reflexivity|apply Forall_nil; exact I|vm_compute; reflexivity|vm_compute; reflexivity|
    vm_compute; discriminate|vm_compute; reflexivity|].
  eexists. simpl app in Hs. rewrite Hs. vm_compute in Hb. injection Hb as <-.
  rewrite decide_True by reflexivity. reflexivity.
Defined.

Lemma unfinished_key_blocked_witness :
  exists w, serve1 id id id (Ret PROD) true (Arrive 2 (post_run "[1,2]") 50)
    (serve id id id (Ret PROD) true [Arrive 1 (post_run "[1,2]") 0; Finish 1 (Raise CancelledError) 9] idle).2 =
    (Answered (Ret (JSONResponse 409 (error_content "ConflictError" "request still in flight"))), w).
Proof.
  pose proof (unfinished_key_blocked id id id (Ret PROD) true 1 2 (post_run "[1,2]") (post_run "[1,2]") "acme" "key-1"
    (Raise CancelledError) [("__non_dict_body__", PList [PInt 1; PInt 2])] [] [] 0 9 50 idle idle_wf eq_refl) as H.
  destruct H as (_ & body & Hb & Hs); [vm_compute; reflexivity|apply Forall_nil; exact I|by left|
    apply Forall_nil; exact I|vm_compute; reflexivity|vm_compute; reflexivity|vm_compute; discriminate|
    vm_compute; reflexivity|].
  eexists. simpl app in Hs. apply Hs. vm_compute in Hb. injection Hb as <-. reflexivity.
Defined.

Lemma expired_key_created_twice_witness :
  let old := mkIdem "acme" "k" "h" "r0" "pending" "" 0 0 10 "" "" "" 200 in
  let second := IdempotencyStore.reserve_or_replay (Ret PROD) id id id "acme" "k" "h" "r2" 100 "" "" "" None 50 in
  (IdempotencyStore.reserve_or_replay (Ret PROD) (fun db => (second db).2) id id "acme" "k" "h" "r1" 100 "" "" "" None 49
     [old]).1 = Ret (created, mkIdem "acme" "k" "h" "r1" "pending" "" 49 49 149 "" "" "" 200).
Proof.
  intros old second.
  refine (proj1 (proj2 (expired_key_created_twice (Ret PROD) "acme" "k" "h" "h" "r1" "r2" "" "" "" "" "" "" 100 49 50 PROD
    [old] old _ eq_refl _ _ _ _ eq_refl _ _))); try discriminate; try reflexivity.
  apply NoDup_singleton.
Defined.
