(* ===== verification/Admission.v ===== *)
(** * Snapshot-driven admission ([agent_kernel/kernel/admission])

    The policy of a tenant and its resolution (tenant_policy.py), and the five rules of
    [SnapshotDrivenAdmissionService.admit_action] over the windows of admission times it keeps
    per run (snapshot_driven_admission.py).  Actions are read by attribute name, so any
    object may be asked about ([attributes]); [of_action] is what an [Action] of the
    contracts has.  [time.monotonic()] is an input, in microseconds; reading a file,
    rendering a path and its stem are parameters. *)

From stdpp Require Import base tactics option list strings sorting.
From Stdlib Require Import ZArith.
From S2P Require Import Prelude PyStr PyDict PyVal Json Contracts RunContext Snapshot Idempotency.
#[local] Arguments String.append : simpl nomatch.

Record TenantPolicy := mkPolicy {
  tp_policy_id : pyval;
  tp_max_allowed_risk_tier : Z;
  tp_allow_non_idempotent_remote_writes : bool;
  tp_max_actions_per_minute : Z
}.

Definition _DEFAULT_POLICY : TenantPolicy := mkPolicy (PStr "default") 3 false 120.

Definition PolicyResolutionError (msg : string) : exn := OtherError "PolicyResolutionError" msg.

(** [isinstance(e, OSError)] and [isinstance(e, (TypeError, ValueError))], among the
    exceptions that reading a file and [int] raise. *)
Definition is_os_error (e : exn) : bool := match e with OtherError cls _ => bool_decide (cls = "OSError") | _ => false end.
Definition is_field_error (e : exn) : bool := match e with TypeError _ | ValueError _ => true | _ => false end.

Module TenantPolicyResolver.
Section resolver.
(** [Path(p).read_text()], [str(Path(p))] and [Path(p).stem]. *)
Context (float_repr : string -> string) (read_text : string -> outcome string) (path_str path_stem : string -> string).

Definition policy_of_data (path : string) (data : pyval) : outcome TenantPolicy :=
  match data with
  | PDict d =>
      let fields :=
        tier ← int_of (default (PInt 3) (od_get "max_allowed_risk_tier" d));
        rate ← int_of (default (PInt 120) (od_get "max_actions_per_minute" d));
        Ret (mkPolicy (default (PStr (path_stem path)) (od_get "policy_id" d)) tier
               (py_bool (default (PBool false) (od_get "allow_non_idempotent_remote_writes" d))) rate) in
      match fields with
      | Raise e =>
          if is_field_error e then
            Raise (PolicyResolutionError ("Policy file " +:+ path_str path +:+ " contains invalid field values: " +:+ exn_text e))
          else Raise e
      | r => r
      end
  | _ => Raise (OtherError "AttributeError" "no attribute 'get'")
  end.

Definition _resolve_file (policy_ref : string) : outcome TenantPolicy :=
  let path := removeprefix "file://" policy_ref in
  match read_text path with
  | Raise e =>
      if is_os_error e then Raise (PolicyResolutionError ("Cannot read policy file " +:+ path_str path +:+ ": " +:+ exn_text e))
      else Raise e
  | Ret raw =>
      match json_loads float_repr raw with
      | Raise e =>
          if is_json_error e then
            Raise (PolicyResolutionError ("Policy file " +:+ path_str path +:+ " is not valid JSON: " +:+ exn_text e))
          else Raise e
      | Ret data => policy_of_data path data
      end
  end.

Definition resolve (policy_ref : string) : outcome TenantPolicy :=
  if decide (policy_ref = "policy:default") then Ret _DEFAULT_POLICY
  else if startswith policy_ref "file://" then _resolve_file policy_ref
  else Raise (PolicyResolutionError ("Unknown policy_ref format: " +:+ py_repr_str policy_ref +:+
         ". Supported formats: 'policy:default', 'file:///absolute/path/to/policy.json'.")).
End resolver.
End TenantPolicyResolver.

(** The attributes of an action the rules read; [None] is an attribute that is missing or
    [None]. *)
Record attributes := mkAttributes {
  at_run_id : option string;
  at_action_type : option string;
  at_tool_name : option string;
  at_mcp_server : option string;
  at_mcp_capability : option string;
  at_peer_run_id : option string;
  at_idempotency_level : option string;
  at_effect_class : option string;
  at_risk_tier : option Z
}.

(** An [Action] has slots for its fields only. *)
Definition of_action (a : Action) : attributes :=
  mkAttributes (Some (act_run_id a)) (Some (act_action_type a)) None None None None None (Some (effect_str (act_effect_class a))) None.

Definition admission_denied (reason : ReasonCode) : AdmissionResult := mkAdmissionResult false reason None None None None None.
Definition admission_ok : AdmissionResult := mkAdmissionResult true rc_ok None None None None None.

(** Sixty seconds. *)
Definition window_length : Z := 60000000.

(** [self._rate_windows] *)
Abbreviation rate_windows := (odict string (list Z)).

Fixpoint evict_before (start : Z) (window : list Z) : list Z :=
  match window with
  | t :: rest => if (t <? start)%Z then evict_before start rest else window
  | [] => []
  end.

Module SnapshotDrivenAdmissionService.
Section service.
Context (resolve : string -> outcome TenantPolicy).

Definition _check_permission_mode (a : attributes) (s : CapabilitySnapshot) : option AdmissionResult :=
  if decide (cs_permission_mode s ∈ ["readonly"; "read_only"]) then
    if decide (at_action_type a ∈ [Some "noop"; Some "read"]) then None else Some (admission_denied rc_permission_denied)
  else None.

(** A name that is given and not bound. *)
Definition unbound (name : option string) (bindings : list string) : option AdmissionResult :=
  match name with
  | Some n => if decide (n ∈ bindings) then None else Some (admission_denied rc_policy_denied)
  | None => None
  end.

Definition _check_binding_existence (a : attributes) (s : CapabilitySnapshot) : option AdmissionResult :=
  if decide (at_action_type a = Some "tool_call") then unbound (at_tool_name a) (cs_tool_bindings s)
  else if decide (at_action_type a = Some "mcp_call") then
    unbound (server ← at_mcp_server a; capability ← at_mcp_capability a; Some (server +:+ "/" +:+ capability)) (cs_mcp_bindings s)
  else if decide (at_action_type a = Some "peer_signal") then
    match cs_peer_run_bindings s with
    | [] => None
    | bindings => unbound (at_peer_run_id a) bindings
    end
  else None.

Definition _check_idempotency (a : attributes) (p : TenantPolicy) : option AdmissionResult :=
  if negb (tp_allow_non_idempotent_remote_writes p) && bool_decide (at_idempotency_level a = Some "non_idempotent") &&
     bool_decide (at_effect_class a ∈ [Some "remote_write"; Some "irreversible_write"])
  then Some (admission_denied rc_policy_denied) else None.

Definition _check_risk_tier (a : attributes) (p : TenantPolicy) : option AdmissionResult :=
  if (tp_max_allowed_risk_tier p <? default 0%Z (at_risk_tier a))%Z then Some (admission_denied rc_policy_denied) else None.

Definition _check_rate_limit (a : attributes) (p : TenantPolicy) (now : Z) : PyM rate_windows (option AdmissionResult) :=
  let run_id := default "" (at_run_id a) in
  _ ← py_modify (fun w => if od_mem run_id w then w else od_set run_id [] w);
  _ ← py_modify (fun w => od_set run_id (evict_before (now - window_length) (default [] (od_get run_id w))) w);
  w ← py_get;
  let window := default [] (od_get run_id w) in
  if (tp_max_actions_per_minute p <=? Z.of_nat (length window))%Z then mret (Some (admission_denied rc_quota_exceeded))
  else _ ← py_put (od_set run_id (window ++ [now]) w); mret None.

Definition admit_action (a : attributes) (s : CapabilitySnapshot) (now : Z) : PyM rate_windows AdmissionResult :=
  policy ← py_lift (resolve (or_else (cs_tenant_policy_ref s) "policy:default"));
  match _check_permission_mode a s with Some r => mret r | None =>
  match _check_binding_existence a s with Some r => mret r | None =>
  match _check_idempotency a policy with Some r => mret r | None =>
  match _check_risk_tier a policy with Some r => mret r | None =>
    limited ← _check_rate_limit a policy now;
    mret (default admission_ok limited)
  end end end end.
End service.
End SnapshotDrivenAdmissionService.

(** Requests to the service, in order, each with the time it is made at. *)
Record request := mkRequest { rq_attributes : attributes; rq_snapshot : CapabilitySnapshot; rq_now : Z }.

Section admission.
Context (resolve : string -> outcome TenantPolicy).
Abbreviation admit_action := (SnapshotDrivenAdmissionService.admit_action resolve).

Definition policy_of (s : CapabilitySnapshot) : outcome TenantPolicy := resolve (or_else (cs_tenant_policy_ref s) "policy:default").

(** The answers, with the requests, and the windows they leave. *)
Fixpoint serve (rs : list request) (w : rate_windows) : list (request * outcome AdmissionResult) * rate_windows :=
  match rs with
  | [] => ([], w)
  | r :: rs =>
      let '(o, w') := admit_action (rq_attributes r) (rq_snapshot r) (rq_now r) w in
      let '(os, w'') := serve rs w' in ((r, o) :: os, w'')
  end.

(** The times a run was admitted at. *)
Definition admitted_at (run_id : string) (os : list (request * outcome AdmissionResult)) : list Z :=
  omap (fun p => match p.2 with
                 | Ret x => if ar_admitted x && bool_decide (default "" (at_run_id (rq_attributes p.1)) = run_id)
                            then Some (rq_now p.1) else None
                 | Raise _ => None
                 end) os.

(** Times in an interval. *)
Definition within (lo hi t : Z) : bool := (lo <=? t)%Z && (t <=? hi)%Z.
Definition count_within (lo hi : Z) (ts : list Z) : nat := length (filter (fun t => within lo hi t = true) ts).
End admission.

(** Lemmas *************************************************************************)

Definition ascending (ts : list Z) : Prop := Sorted Z.le ts.

Lemma evict_spec start w : exists old, w = old ++ evict_before start w /\ Forall (fun t => (t < start)%Z) old.
Proof.
  induction w as [|t w (old & Hw & Ho)]; simpl; [by exists []|]. destruct (Z.ltb_spec t start).
  - exists (t :: old). simpl. rewrite <-Hw. split; [done|by constructor].
  - by exists [].
Qed.

Lemma count_app lo hi l l' : count_within lo hi (l ++ l') = count_within lo hi l + count_within lo hi l'.
Proof. unfold count_within. by rewrite filter_app, length_app. Qed.

Lemma count_none lo hi l : Forall (fun t => (t < lo)%Z) l -> count_within lo hi l = 0.
Proof.
  intros Hl. unfold count_within. rewrite filter_none; [done|]. intros t Ht Hw. rewrite Forall_forall in Hl. specialize (Hl t Ht).
  unfold within in Hw. destruct (Z.leb_spec lo t); [lia|done].
Qed.

Lemma count_le lo hi l : count_within lo hi l <= length l.
Proof. apply length_filter. Qed.

Section facts.
Context (resolve : string -> outcome TenantPolicy).
Abbreviation admit_action := (SnapshotDrivenAdmissionService.admit_action resolve).
Abbreviation policy_of := (policy_of resolve).
Abbreviation serve := (serve resolve).

(** What the rules ask of an action. *)
Definition permitted (a : attributes) (s : CapabilitySnapshot) : Prop :=
  cs_permission_mode s ∈ ["readonly"; "read_only"] -> at_action_type a ∈ [Some "noop"; Some "read"].
Definition bound (a : attributes) (s : CapabilitySnapshot) : Prop :=
  (forall n, at_action_type a = Some "tool_call" -> at_tool_name a = Some n -> n ∈ cs_tool_bindings s) /\
  (forall n c, at_action_type a = Some "mcp_call" -> at_mcp_server a = Some n -> at_mcp_capability a = Some c ->
     n +:+ "/" +:+ c ∈ cs_mcp_bindings s) /\
  (forall n, at_action_type a = Some "peer_signal" -> cs_peer_run_bindings s <> [] -> at_peer_run_id a = Some n ->
     n ∈ cs_peer_run_bindings s).
Definition repeatable (a : attributes) (p : TenantPolicy) : Prop :=
  at_idempotency_level a = Some "non_idempotent" ->
  at_effect_class a ∈ [Some "remote_write"; Some "irreversible_write"] -> tp_allow_non_idempotent_remote_writes p = true.
Definition within_risk (a : attributes) (p : TenantPolicy) : Prop := (default 0 (at_risk_tier a) <= tp_max_allowed_risk_tier p)%Z.

Lemma permission_spec a s :
  match SnapshotDrivenAdmissionService._check_permission_mode a s with
  | None => permitted a s
  | Some r => r = admission_denied rc_permission_denied /\ ~ permitted a s
  end.
Proof.
  unfold SnapshotDrivenAdmissionService._check_permission_mode, permitted.
  destruct (decide _); [destruct (decide _)|]; [done| |done]. split; [done|]. tauto.
Qed.

Lemma unbound_spec name bindings :
  match SnapshotDrivenAdmissionService.unbound name bindings with
  | None => forall n, name = Some n -> n ∈ bindings
  | Some r => r = admission_denied rc_policy_denied /\ ~ (forall n, name = Some n -> n ∈ bindings)
  end.
Proof.
  unfold SnapshotDrivenAdmissionService.unbound. destruct name as [n|]; [|done].
  destruct (decide _); [by intros ? [= <-]|]. split; [done|]. intros Hn. by apply n0, Hn.
Qed.

Lemma binding_spec a s :
  match SnapshotDrivenAdmissionService._check_binding_existence a s with
  | None => bound a s
  | Some r => r = admission_denied rc_policy_denied /\ ~ bound a s
  end.
Proof.
  unfold SnapshotDrivenAdmissionService._check_binding_existence, bound.
  destruct (decide (at_action_type a = Some "tool_call")) as [Ht|Ht].
  { rewrite Ht. pose proof (unbound_spec (at_tool_name a) (cs_tool_bindings s)) as Hu.
    destruct (SnapshotDrivenAdmissionService.unbound _ _) as [r|].
    - destruct Hu as [-> Hn]. split; [done|]. intros [H1 _]. by apply Hn; intros n; apply H1.
    - by split_and!; intros; [apply Hu| |]. }
  destruct (decide (at_action_type a = Some "mcp_call")) as [Hm|Hm].
  { rewrite Hm. match goal with |- context [SnapshotDrivenAdmissionService.unbound ?n ?l] => pose proof (unbound_spec n l) as Hu end.
    destruct (SnapshotDrivenAdmissionService.unbound _ _) as [r|].
    - destruct Hu as [-> Hn]. split; [done|]. intros (_ & H2 & _). apply Hn. intros k.
      destruct (at_mcp_server a) as [n|]; [|done]. destruct (at_mcp_capability a) as [c|]; [|done]. intros [= <-]. by apply (H2 n c).
    - split_and!; intros *; try done. intros _ Hn Hc. apply Hu. by rewrite Hn, Hc. }
  destruct (decide (at_action_type a = Some "peer_signal")) as [Hp|Hp]; [|by split_and!].
  rewrite Hp. destruct (cs_peer_run_bindings s) as [|b l]; [by split_and!|].
  pose proof (unbound_spec (at_peer_run_id a) (b :: l)) as Hu. destruct (SnapshotDrivenAdmissionService.unbound _ _) as [r|].
  - destruct Hu as [-> Hn]. split; [done|]. intros (_ & _ & H3). apply Hn. intros k. by apply H3.
  - split_and!; intros *; try done. intros _ _. apply Hu.
Qed.

Lemma idempotency_spec a p :
  match SnapshotDrivenAdmissionService._check_idempotency a p with
  | None => repeatable a p
  | Some r => r = admission_denied rc_policy_denied /\ ~ repeatable a p
  end.
Proof.
  unfold SnapshotDrivenAdmissionService._check_idempotency, repeatable.
  destruct (tp_allow_non_idempotent_remote_writes p); [done|]. simpl.
  repeat case_bool_decide; simpl; try tauto. split; [done|]. intros Hr. by specialize (Hr ltac:(done) ltac:(done)).
Qed.

Lemma risk_spec a p :
  match SnapshotDrivenAdmissionService._check_risk_tier a p with
  | None => within_risk a p
  | Some r => r = admission_denied rc_policy_denied /\ ~ within_risk a p
  end.
Proof.
  unfold SnapshotDrivenAdmissionService._check_risk_tier, within_risk.
  destruct (Z.ltb_spec (tp_max_allowed_risk_tier p) (default 0%Z (at_risk_tier a))); [split; [done|lia]|lia].
Qed.

(** The window of a run, and the one it has at a time. *)
Definition window (run_id : string) (w : rate_windows) : list Z := default [] (od_get run_id w).
Definition recent (run_id : string) (now : Z) (w : rate_windows) : list Z := evict_before (now - window_length) (window run_id w).

Lemma rate_spec a p now w :
  let rid := default "" (at_run_id a) in
  let '(o, w') := SnapshotDrivenAdmissionService._check_rate_limit a p now w in
  (forall x, x <> rid -> window x w' = window x w) /\
  if (tp_max_actions_per_minute p <=? Z.of_nat (length (recent rid now w)))%Z
  then o = Ret (Some (admission_denied rc_quota_exceeded)) /\ window rid w' = recent rid now w
  else o = Ret None /\ window rid w' = recent rid now w ++ [now].
Proof.
  intros rid. unfold SnapshotDrivenAdmissionService._check_rate_limit. fold rid. cbv [mbind PyM_bind py_modify py_get py_put mret PyM_ret].
  set (w1 := if od_mem rid w then w else od_set rid [] w).
  assert (forall x, window x w1 = window x w) as Hw1.
  { intros x. unfold w1, od_mem, window. destruct (od_get rid w) as [l|] eqn:Hr; [done|].
    destruct (decide (x = rid)) as [->|Hx]; [by rewrite od_get_set_eq, Hr|by rewrite od_get_set_ne]. }
  change (default [] (od_get rid w1)) with (window rid w1). rewrite (Hw1 rid). fold (recent rid now w).
  rewrite od_get_set_eq. simpl default. change (id (recent rid now w)) with (recent rid now w).
  destruct (_ <=? _)%Z; (split; [intros x Hx; rewrite <-(Hw1 x); unfold window; by rewrite !od_get_set_ne|split; [done|]]).
  - unfold window. by rewrite od_get_set_eq.
  - unfold window. by rewrite od_get_set_eq.
Qed.

(** What admission answers.  A policy that cannot be resolved raises and changes
    nothing.  Otherwise an action is admitted exactly when it may run in the mode of the
    snapshot, what it targets is bound, it is no forbidden write, its risk is allowed and
    the run has been admitted fewer times than the policy allows in the last minute; the
    reason of a refusal is that of the first rule it breaks; the windows of other runs
    never change, and that of the run loses only times that are over a minute old and
    gains only the time of an admission. *)
Theorem admit_exact a s now w :
  let rid := default "" (at_run_id a) in
  let '(o, w') := admit_action a s now w in
  match policy_of s with
  | Raise e => o = Raise e /\ w' = w
  | Ret p => exists r, o = Ret r /\ (forall x, x <> rid -> window x w' = window x w) /\
      let rules := permitted a s /\ bound a s /\ repeatable a p /\ within_risk a p in
      let free := (Z.of_nat (length (recent rid now w)) < tp_max_actions_per_minute p)%Z in
      (ar_admitted r = true <-> rules /\ free) /\
      (ar_reason_code r = rc_ok <-> ar_admitted r = true) /\
      (ar_reason_code r = rc_permission_denied <-> ~ permitted a s) /\
      (ar_reason_code r = rc_quota_exceeded <-> rules /\ ~ free) /\
      (ar_reason_code r = rc_policy_denied <-> permitted a s /\ ~ (bound a s /\ repeatable a p /\ within_risk a p)) /\
      (ar_admitted r = true -> window rid w' = recent rid now w ++ [now]) /\
      (ar_admitted r = false -> window rid w' = window rid w \/ window rid w' = recent rid now w)
  end.
Proof.
  intros rid. unfold SnapshotDrivenAdmissionService.admit_action. fold (policy_of s). cbv [mbind PyM_bind py_lift mret PyM_ret].
  destruct (policy_of s) as [p|e]; [|done].
  pose proof (permission_spec a s) as H1. destruct (SnapshotDrivenAdmissionService._check_permission_mode a s) as [r|].
  { destruct H1 as [-> H1]. eexists. split; [reflexivity|]. simpl. intuition congruence. }
  pose proof (binding_spec a s) as H2. destruct (SnapshotDrivenAdmissionService._check_binding_existence a s) as [r|].
  { destruct H2 as [-> H2]. eexists. split; [reflexivity|]. simpl. intuition congruence. }
  pose proof (idempotency_spec a p) as H3. destruct (SnapshotDrivenAdmissionService._check_idempotency a p) as [r|].
  { destruct H3 as [-> H3]. eexists. split; [reflexivity|]. simpl. intuition congruence. }
  pose proof (risk_spec a p) as H4. destruct (SnapshotDrivenAdmissionService._check_risk_tier a p) as [r|].
  { destruct H4 as [-> H4]. eexists. split; [reflexivity|]. simpl. intuition congruence. }
  pose proof (rate_spec a p now w) as H5. fold rid in H5. destruct (SnapshotDrivenAdmissionService._check_rate_limit a p now w) as [o w'].
  destruct H5 as [Hother H5]. destruct (Z.leb_spec (tp_max_actions_per_minute p) (Z.of_nat (length (recent rid now w)))).
  - destruct H5 as [-> Hw]. eexists. split; [reflexivity|]. simpl. intuition (congruence || lia).
  - destruct H5 as [-> Hw]. eexists. split; [reflexivity|]. simpl. intuition (congruence || lia).
Qed.

Lemma admit_windows a s now w rid :
  let '(o, w') := admit_action a s now w in
  match o with
  | Ret r =>
      if ar_admitted r && bool_decide (default "" (at_run_id a) = rid) then
        window rid w' = recent rid now w ++ [now] /\
        exists p, policy_of s = Ret p /\ (Z.of_nat (length (recent rid now w)) < tp_max_actions_per_minute p)%Z
      else window rid w' = window rid w \/ window rid w' = recent rid now w
  | Raise _ => window rid w' = window rid w
  end.
Proof.
  unfold SnapshotDrivenAdmissionService.admit_action. fold (policy_of s). cbv [mbind PyM_bind py_lift mret PyM_ret].
  destruct (policy_of s) as [p|e]; [|done].
  pose proof (permission_spec a s) as H1. destruct (SnapshotDrivenAdmissionService._check_permission_mode a s) as [r|].
  { destruct H1 as [-> _]. simpl. by left. }
  pose proof (binding_spec a s) as H2. destruct (SnapshotDrivenAdmissionService._check_binding_existence a s) as [r|].
  { destruct H2 as [-> _]. simpl. by left. }
  pose proof (idempotency_spec a p) as H3. destruct (SnapshotDrivenAdmissionService._check_idempotency a p) as [r|].
  { destruct H3 as [-> _]. simpl. by left. }
  pose proof (risk_spec a p) as H4. destruct (SnapshotDrivenAdmissionService._check_risk_tier a p) as [r|].
  { destruct H4 as [-> _]. simpl. by left. }
  pose proof (rate_spec a p now w) as H5. simpl in H5.
  destruct (SnapshotDrivenAdmissionService._check_rate_limit a p now w) as [o w']. destruct H5 as [Hother H5].
  destruct (Z.leb_spec (tp_max_actions_per_minute p) (Z.of_nat (length (recent (default "" (at_run_id a)) now w)))) as [Hfull|Hfree];
    destruct H5 as [-> Hw]; simpl default; cbn [ar_admitted admission_denied admission_ok andb id].
  - destruct (decide (rid = default "" (at_run_id a))) as [->|Hr]; [by right|left; by apply Hother].
  - case_bool_decide as Hr; [subst rid; by eauto|left; by apply Hother].
Qed.

(** The times a run was admitted at, [hist], and what the service remembers of them. *)
Definition remembers (L : Z) (rid : string) (last : Z) (hist : list Z) (w : rate_windows) : Prop :=
  (exists old, hist = old ++ window rid w /\ Forall (fun t => (t < last - window_length)%Z) old) /\
  Forall (fun t => (t <= last)%Z) hist /\
  forall t, (Z.of_nat (count_within (t - window_length) t hist) <= L)%Z.

Lemma remembers_recent L rid last now hist w w' :
  remembers L rid last hist w -> (last <= now)%Z -> window rid w' = window rid w \/ window rid w' = recent rid now w ->
  remembers L rid now hist w'.
Proof.
  intros ((old & -> & Ho) & Hl & Hc) Hn Hw. split_and!; [|eapply Forall_impl; [exact Hl|simpl; lia]|done].
  assert (Forall (fun t => (t < now - window_length)%Z) old) as Ho' by (eapply Forall_impl; [exact Ho|simpl; lia]).
  destruct Hw as [->| ->]; [by exists old|]. destruct (evict_spec (now - window_length) (window rid w)) as (gone & Hg & Hlt).
  exists (old ++ gone). rewrite <-app_assoc. unfold recent. rewrite <-Hg. split; [done|]. by apply Forall_app.
Qed.

Lemma remembers_admitted L rid last now hist w w' :
  remembers L rid last hist w -> (last <= now)%Z -> window rid w' = recent rid now w ++ [now] ->
  (Z.of_nat (length (recent rid now w)) < L)%Z -> remembers L rid now (hist ++ [now]) w'.
Proof.
  intros Hm Hn Hw Hlt. destruct (remembers_recent L rid last now hist w (od_set rid (recent rid now w) w) Hm Hn) as ((old & Hh & Ho) & Hl & Hc).
  { right. unfold window at 1. by rewrite od_get_set_eq. }
  unfold window in Hh. rewrite od_get_set_eq in Hh. simpl in Hh. change (id (recent rid now w)) with (recent rid now w) in Hh.
  split_and!.
  - exists old. by rewrite Hw, Hh, app_assoc.
  - apply Forall_app. split; [done|]. constructor; [lia|constructor].
  - intros t. rewrite count_app. destruct (Z.lt_ge_cases t now) as [Ht|Ht].
    + assert (count_within (t - window_length) t [now] = 0) as ->; [|specialize (Hc t); lia].
      unfold count_within. rewrite filter_none; [done|]. intros x Hx%list_elem_of_singleton. subst. unfold within.
      destruct (Z.leb_spec now t); [lia|by rewrite andb_false_r].
    + rewrite Hh, count_app, count_none by (eapply Forall_impl; [exact Ho|simpl; lia]).
      pose proof (count_le (t - window_length) t (recent rid now w)). pose proof (count_le (t - window_length) t [now]). simpl in *. lia.
Qed.

Lemma serve_bounded L rid rs : forall last hist w,
  remembers L rid last hist w -> Sorted Z.le (last :: map rq_now rs) ->
  (forall r p, r ∈ rs -> default "" (at_run_id (rq_attributes r)) = rid -> policy_of (rq_snapshot r) = Ret p ->
     (tp_max_actions_per_minute p <= L)%Z) ->
  forall t, (Z.of_nat (count_within (t - window_length) t (hist ++ admitted_at rid (serve rs w).1)) <= L)%Z.
Proof.
  induction rs as [|r rs IH]; intros last hist w Hm Hs Hp t; simpl.
  { rewrite app_nil_r. by apply Hm. }
  simpl in Hs. apply Sorted_inv in Hs as [Hs Hr]. inversion Hr as [|? ? Hle]; subst.
  pose proof (admit_windows (rq_attributes r) (rq_snapshot r) (rq_now r) w rid) as Ha.
  destruct (admit_action (rq_attributes r) (rq_snapshot r) (rq_now r) w) as [o w']. destruct (serve rs w') as [os w''] eqn:Hsv.
  assert (forall hist', remembers L rid (rq_now r) hist' w' ->
    (Z.of_nat (count_within (t - window_length) t (hist' ++ admitted_at rid os)) <= L)%Z) as Hrest.
  { intros hist' Hm'. pose proof (IH (rq_now r) hist' w' Hm' Hs) as Hi. rewrite Hsv in Hi. apply Hi.
    intros r' p Hr'. apply Hp. by right. }
  simpl. unfold admitted_at. cbn [omap list_omap fst snd].
  destruct o as [x|e]; [|apply Hrest, (remembers_recent L rid last _ hist w); [done..|by left]].
  destruct (ar_admitted x && bool_decide (default "" (at_run_id (rq_attributes r)) = rid)) eqn:Hx.
  - apply andb_prop in Hx as [_ Hx]. apply bool_decide_eq_true in Hx. destruct Ha as (Hw & p & Hpol & Hlt).
    rewrite cons_middle, app_assoc. apply Hrest. apply (remembers_admitted L rid last _ hist w); [done..|].
    pose proof (Hp r p ltac:(by left) Hx Hpol). lia.
  - apply Hrest, (remembers_recent L rid last _ hist w); [done..|exact Ha].
Qed.

(** C34: The rate rule keeps its promise in every minute.  Whatever is asked, of whatever
    runs and under whatever policies, as long as the clock does not run backwards and
    every policy resolved for the requests of a run allows at most [L] actions per
    minute: no interval of sixty seconds, wherever it ends, holds more than [L]
    admissions of the run (admissions that are exactly sixty seconds apart count in one
    interval). *)
Theorem rate_bounded (L : Z) (rid : string) (rs : list request) (t : Z)
  (HL : (0 <= L)%Z) (Hclock : Sorted Z.le (map rq_now rs))
  (Hpolicy : forall r p, r ∈ rs -> default "" (at_run_id (rq_attributes r)) = rid -> policy_of (rq_snapshot r) = Ret p ->
     (tp_max_actions_per_minute p <= L)%Z) :
  (Z.of_nat (count_within (t - window_length) t (admitted_at rid (serve rs []).1)) <= L)%Z.
Proof.
  destruct rs as [|r rs]; [done|].
  apply (serve_bounded L rid (r :: rs) (rq_now r) [] []); [|by constructor; [|constructor; lia]|done].
  split_and!; [by exists []|done|done].
Qed.

(** For the actions of the kernel only the mode, and the rate, of the snapshot
    count.  An [Action] has no slot for a tool, an MCP server or capability, a peer run,
    an idempotency level or a risk tier, so the binding, idempotency and risk rules find
    nothing to check: whatever the bindings of the snapshot and the writes its policy
    forbids, no action is denied by policy, and a non-idempotent irreversible write to an
    unbound tool is admitted, unless the policy allows no risk at all. *)
Theorem kernel_actions_unpoliced (act : Action) (s : CapabilitySnapshot) (p : TenantPolicy) (now : Z) (w : rate_windows)
  (Hp : policy_of s = Ret p) (Htier : (0 <= tp_max_allowed_risk_tier p)%Z) :
  exists r, (admit_action (of_action act) s now w).1 = Ret r /\ ar_reason_code r <> rc_policy_denied /\
    (ar_admitted r = true <-> permitted (of_action act) s /\
       (Z.of_nat (length (recent (act_run_id act) now w)) < tp_max_actions_per_minute p)%Z).
Proof.
  unfold SnapshotDrivenAdmissionService.admit_action. fold (policy_of s). cbv [mbind PyM_bind py_lift mret PyM_ret]. rewrite Hp.
  pose proof (permission_spec (of_action act) s) as H1.
  destruct (SnapshotDrivenAdmissionService._check_permission_mode (of_action act) s) as [r|].
  { destruct H1 as [-> H1]. eexists. split; [reflexivity|]. simpl. split; [done|]. split; [done|tauto]. }
  assert (SnapshotDrivenAdmissionService._check_binding_existence (of_action act) s = None) as ->.
  { unfold SnapshotDrivenAdmissionService._check_binding_existence. simpl. repeat destruct (decide _); try done. by destruct (cs_peer_run_bindings s). }
  assert (SnapshotDrivenAdmissionService._check_idempotency (of_action act) p = None) as ->.
  { unfold SnapshotDrivenAdmissionService._check_idempotency. simpl. by rewrite andb_false_r. }
  pose proof (risk_spec (of_action act) p) as H4. destruct (SnapshotDrivenAdmissionService._check_risk_tier (of_action act) p) as [r|].
  { destruct H4 as [_ H4]. by destruct H4. }
  pose proof (rate_spec (of_action act) p now w) as H5. simpl in H5.
  destruct (SnapshotDrivenAdmissionService._check_rate_limit (of_action act) p now w) as [o w']. destruct H5 as [_ H5].
  change (id (act_run_id act)) with (act_run_id act) in H5.
  destruct (Z.leb_spec (tp_max_actions_per_minute p) (Z.of_nat (length (recent (act_run_id act) now w)))); destruct H5 as [-> _];
    (eexists; split; [reflexivity|]; simpl; split; [done|]); split; [done|lia| |done]; by split.
Qed.
End facts.

(** Witnesses *********************************************************************)

Module AdmissionSample.
Definition snapshot : CapabilitySnapshot :=
  mkSnapshot "ref" "hash" "run-1" 0 "policy:default" "strict" ["search"] [] [] [] None None None None None None None "2026" "1" [].
Definition write : Action := mkAction "action-1" "run-1" "tool_call" IRREVERSIBLE_WRITE (Some lvl_unknown) None None None [] None None.
Definition policy : TenantPolicy := mkPolicy (PStr "two a minute") 3 false 2.
Definition resolve : string -> outcome TenantPolicy := fun _ => Ret policy.
Definition requests : list request := map (mkRequest (of_action write) snapshot) [0; 1; 2; 59999999; 60000001]%Z.

Lemma requests_ordered : Sorted Z.le (map rq_now requests).
Proof. repeat constructor; discriminate. Qed.
End AdmissionSample.

Lemma rate_bounded_witness :
  admitted_at "run-1" (serve AdmissionSample.resolve AdmissionSample.requests []).1 = [0; 1; 60000001]%Z /\
  (Z.of_nat (count_within (60000001 - window_length) 60000001
     (admitted_at "run-1" (serve AdmissionSample.resolve AdmissionSample.requests []).1)) <= 2)%Z.
Proof.
  split; [vm_compute; reflexivity|].
  apply (rate_bounded AdmissionSample.resolve 2 "run-1" AdmissionSample.requests 60000001).
  - discriminate.
  - exact AdmissionSample.requests_ordered.
  - intros r p _ _ Hp. injection Hp as <-. discriminate.
Defined.

Lemma kernel_actions_unpoliced_witness :
  exists r, (SnapshotDrivenAdmissionService.admit_action AdmissionSample.resolve (of_action AdmissionSample.write) AdmissionSample.snapshot 0 []).1 = Ret r /\
    ar_admitted r = true.
Proof.
  destruct (kernel_actions_unpoliced AdmissionSample.resolve AdmissionSample.write AdmissionSample.snapshot AdmissionSample.policy 0 [] eq_refl
    ltac:(discriminate)) as (r & Hr & _ & Hadm).
  exists r. split; [exact Hr|]. apply Hadm. split.
  - intros Hm. vm_compute in Hm. do 2 (apply elem_of_cons in Hm as [Hm|Hm]; [discriminate|]). by apply not_elem_of_nil in Hm.
  - vm_compute. reflexivity.
Defined.
