(* ===== verification/Outbox.v ===== *)
(** * Log and ledger consistency ([agent_kernel/kernel/persistence])

    The check of a run's dispatch ledger against its event log (consistency.py), the
    reconciler that repairs what it finds and its periodic sweep
    (dispatch_outbox_reconciler.py), over any lawful dispatch ledger.  How the keys of
    a run are enumerated differs per store ([DedupeKeys]): the in-memory store looks at
    its dictionary, the SQLite store asks the database.  What the event log answers is
    an input.  Log messages and the scheduling of the sweep by asyncio are left out. *)

From stdpp Require Import base tactics option list strings gmap.
From Stdlib Require Import ZArith.
From S2P Require Import Prelude PyStr PyDict PyVal Contracts DedupeStore SqliteDedupe SchemaMigration.
From S2P Require EventLog.
#[local] Arguments String.append : simpl nomatch.

Record ConsistencyViolation := mkViolation {
  cv_kind : string;
  cv_idempotency_key : option string;
  cv_dedupe_state : option DedupeState;
  cv_event_count : option nat;
  cv_detail : string
}.

Record ConsistencyReport := mkReport {
  rp_run_id : string;
  rp_violations : list ConsistencyViolation;
  rp_events_checked : nat;
  rp_dedupe_keys_checked : nat
}.

Definition is_consistent (r : ConsistencyReport) : bool := bool_decide (length (rp_violations r) = 0).

(** [_collect_dedupe_keys(store, run_id)], by the store. *)
Class DedupeKeys (S : Type) := ds_collect_keys : string -> PyM S (list string).

Definition is_operational (e : exn) : bool := match e with OperationalError _ => true | _ => false end.

Module Keys.
(** [[k for k in records if k.startswith(run_id + ":")]] *)
Definition in_memory (run_id : string) : PyM InMemory.store (list string) :=
  d ← py_get; mret (filter (fun k => startswith k (run_id +:+ ":") = true) (od_keys d)).

(** The store has one of the two tables; the statement on the other one fails.  After
    two failed statements no strategy is left. *)
Definition sqlite (run_id : string) : PyM SQLite.conn (list string) :=
  py_except is_operational
    (SQLite.execute (fun c => (Raise (OperationalError "no such table: colocated_dedupe_store"), c)))
    (fun _ => py_except is_operational
       (SQLite.execute (fun c =>
          (Ret (filter (fun k => SQLite.like_match (SQLite.like_tokens (SQLite.escape_like run_id +:+ ":%")) k = true)
                  (map dr_dispatch_idempotency_key (SQLite.visible c))), c)))
       (fun _ => mret [])).
End Keys.

#[export] Instance InMemory_keys : DedupeKeys InMemory.store := Keys.in_memory.
#[export] Instance SQLite_keys : DedupeKeys SQLite.conn := Keys.sqlite.

(** The check ***********************************************************************)

(** [s.add(x)] of a set kept as a list. *)
Definition set_add (x : string) (s : list string) : list string := if decide (x ∈ s) then s else s ++ [x].

(** One step of the loop over the events: [event_idempotency_keys], [event_types_by_key]. *)
Definition note_event (acc : list string * odict string (list string)) (ev : RuntimeEvent) :
    list string * odict string (list string) :=
  let '(keys, types) := acc in
  match ev_idempotency_key ev with
  | Some ik =>
      if decide (ik = "") then acc
      else (set_add ik keys,
            if decide (ev_event_type ev = "") then types
            else od_set ik (set_add (ev_event_type ev) (default [] (od_get ik types))) types)
  | None => acc
  end.

Definition note_events (events : list RuntimeEvent) : list string * odict string (list string) :=
  foldl note_event ([], []) events.

Definition EVIDENCE : list string := ["turn.dispatched"; "turn.effect_unknown"; "turn.effect_recorded"].

Definition orphaned (run_id key : string) (st : DedupeState) : ConsistencyViolation :=
  mkViolation "orphaned_dedupe_key" (Some key) (Some st) (Some 0)
    ("DedupeStore key " +:+ py_repr_str key +:+ " (state=" +:+ py_repr_str (state_str st) +:+ ") has no " +:+
     "matching event in the EventLog for run " +:+ py_repr_str run_id +:+ ". " +:+
     "Possible crash between reserve() and event append.").

Definition no_evidence (run_id key : string) (found : list string) : ConsistencyViolation :=
  mkViolation "unknown_effect_no_log_evidence" (Some key) (Some unknown_effect) (Some (length found))
    ("DedupeStore key " +:+ py_repr_str key +:+ " is in state 'unknown_effect' " +:+
     "but no dispatch/effect event was found in the EventLog " +:+
     "for run " +:+ py_repr_str run_id +:+ ". Human review recommended.").

Definition log_unavailable (detail : string) : ConsistencyViolation :=
  mkViolation "event_log_unavailable" None None None detail.

(** The body of the loop over the keys. *)
Definition check_record (run_id : string) (keys : list string) (types : odict string (list string)) (key : string)
    (record : option DedupeRecord) : list ConsistencyViolation :=
  match record with
  | None => []
  | Some r =>
      if decide (key ∉ keys) then [orphaned run_id key (dr_state r)]
      else if decide (dr_state r = unknown_effect) then
        let found_types := default [] (od_get key types) in
        if existsb (fun t => bool_decide (t ∈ EVIDENCE)) found_types then [] else [no_evidence run_id key found_types]
      else []
  end.

Section check.
Context {S : Type} `{DedupeStorePort S} `{DedupeKeys S}.

Fixpoint check_keys (run_id : string) (keys : list string) (types : odict string (list string)) (all : list string) :
    PyM S (list ConsistencyViolation) :=
  match all with
  | [] => mret []
  | key :: rest =>
      record ← ds_get key;
      more ← check_keys run_id keys types rest;
      mret (check_record run_id keys types key record ++ more)
  end.

Definition _detect_violations (events : list RuntimeEvent) (run_id : string) : PyM S ConsistencyReport :=
  let '(keys, types) := note_events events in
  all ← ds_collect_keys run_id;
  violations ← check_keys run_id keys types all;
  mret (mkReport run_id violations (length events) (length all)).

Definition unavailable_report (run_id detail : string) : ConsistencyReport :=
  mkReport run_id [log_unavailable detail] 0 0.

(** [loaded] is what [event_log.load(run_id)] answers. *)
Definition averify_event_dedupe_consistency (loaded : outcome (list RuntimeEvent)) (run_id : string) : PyM S ConsistencyReport :=
  match loaded with
  | Ret events => _detect_violations events run_id
  | Raise e =>
      if is_exception e then
        mret (unavailable_report run_id ("event_log.load(" +:+ py_repr_str run_id +:+ ") raised: " +:+ exn_text e))
      else py_raise e
  end.
End check.

(** What the synchronous check finds on an event log: the methods it has (with what they
    answer), and what [load] answers. *)
Record sync_log := mkSync {
  sl_list_events : option (outcome (list RuntimeEvent));
  sl_events : option (outcome (list RuntimeEvent));
  sl_load : outcome (list RuntimeEvent)
}.

Definition of_run (run_id : string) (events : list RuntimeEvent) : list RuntimeEvent :=
  filter (fun e => ev_run_id e = run_id) events.

(** [in_loop]: an event loop is running. *)
Definition sync_events (in_loop : bool) (log : sync_log) (run_id : string) : outcome (list RuntimeEvent) :=
  match sl_list_events log, sl_events log with
  | Some o, _ => fmap (of_run run_id) o
  | None, Some o => fmap (of_run run_id) o
  | None, None =>
      if in_loop then Raise (RuntimeError ("verify_event_dedupe_consistency called from async context; " +:+
                                           "use averify_event_dedupe_consistency instead."))
      else sl_load log
  end.

Definition verify_event_dedupe_consistency {S} `{DedupeStorePort S} `{DedupeKeys S} (in_loop : bool) (log : sync_log)
    (run_id : string) : PyM S ConsistencyReport :=
  match sync_events in_loop log run_id with
  | Ret events => _detect_violations events run_id
  | Raise e =>
      if is_exception e then
        mret (unavailable_report run_id ("event_log load failed for run " +:+ py_repr_str run_id +:+ ": " +:+ exn_text e))
      else py_raise e
  end.

(** The reconciler *********************************************************************)

Record ReconciliationAction := mkReconciliation {
  ra_idempotency_key : string;
  ra_violation_kind : string;
  ra_action_taken : string;
  ra_detail : string
}.

Record ReconciliationResult := mkReconciled {
  rr_run_id : string;
  rr_actions : list ReconciliationAction;
  rr_violations_found : nat;
  rr_violations_repaired : nat
}.

Definition is_clean (r : ReconciliationResult) : bool := bool_decide (rr_violations_found r = 0).

Definition _TERMINAL_STATES : list DedupeState := [acknowledged; unknown_effect].
Definition _REPAIRABLE_STATES : list DedupeState := [reserved; dispatched].

(** [repr] of a state that may be missing. *)
Definition state_repr (st : option DedupeState) : string := match st with Some s => py_repr_str (state_str s) | None => "None" end.

Definition is_state_error (e : exn) : bool := match e with DedupeStoreStateError _ => true | _ => false end.

(** [state in states] *)
Definition state_in (st : option DedupeState) (states : list DedupeState) : bool :=
  match st with Some s => bool_decide (s ∈ states) | None => false end.

Module Reconciler.
Section reconciler.
Context (event_schema_migrator : option migrator) (target_event_schema_version : option version).
Context {S : Type} `{DedupeStorePort S} `{DedupeKeys S}.

Definition orphan_action (key taken detail : string) : ReconciliationAction := mkReconciliation key "orphaned_dedupe_key" taken detail.

Definition _repair_orphaned_key (run_id key : string) (v : ConsistencyViolation) : PyM S ReconciliationAction :=
  record ← ds_get key;
  let current_state := match record with Some r => Some (dr_state r) | None => cv_dedupe_state v end in
  if state_in current_state _TERMINAL_STATES then
    mret (orphan_action key "skipped" ("Key " +:+ py_repr_str key +:+ " is already in terminal state " +:+
            state_repr current_state +:+ "; no transition required."))
  else if negb (state_in current_state _REPAIRABLE_STATES) then
    mret (orphan_action key "skipped" ("Key " +:+ py_repr_str key +:+ " has unrecognised state " +:+
            state_repr current_state +:+ "; cannot determine safe repair action."))
  else
    py_except is_state_error
      (_ ← (if decide (current_state = Some reserved) then ds_mark_dispatched key None else mret tt);
       _ ← ds_mark_unknown_effect key;
       mret (orphan_action key "marked_unknown_effect" ("Key " +:+ py_repr_str key +:+ " was in state " +:+
               state_repr current_state +:+ " with no event log evidence; " +:+
               "transitioned to 'unknown_effect' for recovery surface.")))
      (fun e => mret (orphan_action key "skipped" ("DedupeStoreStateError during repair: " +:+ exn_text e))).

Definition _repair_unknown_effect_no_evidence (run_id key : string) : ReconciliationAction :=
  mkReconciliation key "unknown_effect_no_log_evidence" "logged_for_review"
    ("Key " +:+ py_repr_str key +:+ " is 'unknown_effect' with no event log evidence for run " +:+
     py_repr_str run_id +:+ ". Logged at WARNING for human review.").

Definition _repair_violation (run_id key : string) (v : ConsistencyViolation) : PyM S ReconciliationAction :=
  if decide (cv_kind v = "orphaned_dedupe_key") then _repair_orphaned_key run_id key v
  else if decide (cv_kind v = "unknown_effect_no_log_evidence") then mret (_repair_unknown_effect_no_evidence run_id key)
  else mret (mkReconciliation key (cv_kind v) "skipped"
               ("Unknown violation kind " +:+ py_repr_str (cv_kind v) +:+ "; skipped conservatively.")).

Fixpoint repair_all (run_id : string) (vs : list ConsistencyViolation) : PyM S (list ReconciliationAction) :=
  match vs with
  | [] => mret []
  | v :: rest =>
      a ← _repair_violation run_id (default "" (cv_idempotency_key v)) v;
      more ← repair_all run_id rest;
      mret (a :: more)
  end.

Definition took_action (a : ReconciliationAction) : bool := negb (bool_decide (ra_action_taken a = "skipped")).

Definition _apply_repairs (run_id : string) (report : ConsistencyReport) : PyM S ReconciliationResult :=
  actions ← repair_all run_id (rp_violations report);
  mret (mkReconciled run_id actions (length (rp_violations report)) (length (filter (fun a => took_action a = true) actions))).

(** [_MigratingEventLogView.load] and [.list_events], when there is a migrator. *)
Definition _event_log_with_schema_migration (loaded : outcome (list RuntimeEvent)) : outcome (list RuntimeEvent) :=
  match event_schema_migrator, target_event_schema_version with
  | Some m, Some target => events ← loaded; migrate_batch m events target
  | _, _ => loaded
  end.

Definition sync_view (log : sync_log) : sync_log :=
  match event_schema_migrator, target_event_schema_version with
  | Some m, Some target =>
      let listed := match sl_list_events log, sl_events log with
                    | Some o, _ | None, Some o => events ← o; migrate_batch m events target
                    | None, None => Ret []
                    end in
      mkSync (Some listed) (Some listed) (_event_log_with_schema_migration (sl_load log))
  | _, _ => log
  end.

Definition reconcile (loaded : outcome (list RuntimeEvent)) (run_id : string) : PyM S ReconciliationResult :=
  report ← averify_event_dedupe_consistency (_event_log_with_schema_migration loaded) run_id;
  _apply_repairs run_id report.

Definition reconcile_sync (in_loop : bool) (log : sync_log) (run_id : string) : PyM S ReconciliationResult :=
  report ← verify_event_dedupe_consistency in_loop (sync_view log) run_id;
  _apply_repairs run_id report.
End reconciler.
End Reconciler.

(** The periodic sweep *****************************************************************)

Record ScheduledReconciliationResult := mkScheduled {
  sr_scanned_run_ids : list string;
  sr_violations_found : nat;
  sr_violations_repaired : nat;
  sr_finished_at_ms : Z
}.

(** What a sweep sees of the event log: [load], the keys of [_events_by_run] when it has
    that attribute, and what the query for run ids answers when it has a connection. *)
Record log_port := mkLogPort {
  lp_load : string -> outcome (list RuntimeEvent);
  lp_events_by_run : option (list string);
  lp_connection : option (outcome (list string))
}.

Definition in_memory_log (l : EventLog.event_log) : log_port :=
  mkLogPort (fun run_id => Ret (EventLog.load run_id 0 l)) (Some (od_keys (EventLog.events_by_run l))) None.

(** A sweep: the log, what the provider of run ids answers when there is one, the clock. *)
Record tick := mkTick { tk_log : log_port; tk_provided : option (outcome (option (list string))); tk_now_ms : Z }.

Record scheduler := mkScheduler {
  so_last_result : option ScheduledReconciliationResult;
  so_triggered : list (string * string * string)
}.

Module Scheduled.
Section scheduled.
Context (event_schema_migrator : option migrator) (target_event_schema_version : option version) (hook : bool).
Context {S : Type} `{DedupeStorePort S} `{DedupeKeys S}.

Definition _discover_run_ids (t : tick) : outcome (list string) :=
  match tk_provided t with
  | Some provided => fmap (default []) provided
  | None =>
      match lp_events_by_run (tk_log t), lp_connection (tk_log t) with
      | Some runs, _ => Ret runs
      | None, Some (Ret rows) => Ret rows
      | None, Some (Raise e) => if is_exception e then Ret [] else Raise e
      | None, None => Ret []
      end
  end.

(** The loop over the runs: the violations found and repaired. *)
Fixpoint sweep (log : log_port) (runs : list string) : PyM S (nat * nat) :=
  match runs with
  | [] => mret (0, 0)
  | run_id :: rest =>
      r ← Reconciler.reconcile event_schema_migrator target_event_schema_version (lp_load log run_id) run_id;
      more ← sweep log rest;
      mret (rr_violations_found r + more.1, rr_violations_repaired r + more.2)
  end.

Definition reconcile_once (t : tick) : PyM (S * scheduler) ScheduledReconciliationResult :=
  run_ids ← py_lift (_discover_run_ids t);
  totals ← py_zoom fst (fun s st => (s, st.2)) (sweep (tk_log t) run_ids);
  let summary := mkScheduled run_ids totals.1 totals.2 (tk_now_ms t) in
  _ ← py_modify (fun st => (st.1, mkScheduler (Some summary)
        (if (0 <? totals.1) && hook then so_triggered st.2 ++ [("kernel", "outbox_inconsistency_detected", "human_escalation")]
         else so_triggered st.2)));
  mret summary.

(** The body of the background task: one sweep per interval, until it is cancelled (the
    list ends) or a sweep raises. *)
Fixpoint _loop (ticks : list tick) : PyM (S * scheduler) unit :=
  match ticks with
  | [] => mret tt
  | t :: ts =>
      py_except (fun e => bool_decide (e = CancelledError)) (_ ← reconcile_once t; _loop ts) (fun _ => mret tt)
  end.
End scheduled.
End Scheduled.

(** The specification *******************************************************************)

(** The keys under which the events of a run are known. *)
Definition logged_keys (events : list RuntimeEvent) : list string :=
  omap (fun e => match ev_idempotency_key e with Some ik => if decide (ik = "") then None else Some ik | None => None end) events.

(** The log holds an event of the key that tells what became of a dispatch. *)
Definition evidence (events : list RuntimeEvent) (key : string) : Prop :=
  Exists (fun e => ev_idempotency_key e = Some key /\ key <> "" /\ ev_event_type e ∈ EVIDENCE) events.

(** What an enumeration of keys promises: it never raises and changes nothing, and it
    lists each key of the run once, or, when it could not be relied on, none at all. *)
Class DedupeKeysLaws (S : Type) `{DedupeStoreLaws S} `{DedupeKeys S} := {
  dk_belongs : string -> string -> bool;
  dk_reliable : S -> Prop;
  dk_law : forall run_id s, ds_wf s ->
    exists keys s', ds_collect_keys run_id s = (Ret keys, s') /\ ds_wf s' /\ ds_view s' = ds_view s /\ NoDup keys /\
      ((forall k, k ∈ keys <-> is_Some (ds_view s !! k) /\ dk_belongs run_id k = true) \/ (~ dk_reliable s /\ keys = []))
}.

(** The state of a key that no event explains after a repair. *)
Definition settle (st : DedupeState) : DedupeState :=
  match st with reserved | dispatched => unknown_effect | _ => st end.

Definition with_state (st : DedupeState) (r : DedupeRecord) : DedupeRecord :=
  mkRecord (dr_dispatch_idempotency_key r) (dr_operation_fingerprint r) (dr_attempt_seq r) st (dr_peer_operation_id r)
    (dr_external_ack_ref r).

Definition settled (r : DedupeRecord) : DedupeRecord := with_state (settle (dr_state r)) r.

(** A key of the run that no event carries. *)
Definition orphan (belongs : string -> bool) (events : list RuntimeEvent) (key : string) : bool :=
  belongs key && bool_decide (key ∉ logged_keys events).

(** The ledger with every orphan settled. *)
Definition repaired (belongs : string -> bool) (events : list RuntimeEvent) (m : ledger) : ledger :=
  map_imap (fun k r => Some (if orphan belongs events k then settled r else r)) m.

(** A record of a key the check reports, and one the reconciler acts on. *)
Definition reported (events : list RuntimeEvent) (key : string) (r : DedupeRecord) : Prop :=
  key ∉ logged_keys events \/ dr_state r = unknown_effect /\ ~ evidence events key.

Definition acted_on (events : list RuntimeEvent) (key : string) (r : DedupeRecord) : Prop :=
  key ∉ logged_keys events /\ dr_state r ∈ _REPAIRABLE_STATES \/
  key ∈ logged_keys events /\ dr_state r = unknown_effect /\ ~ evidence events key.

#[export] Instance evidence_dec events key : Decision (evidence events key).
Proof. unfold evidence. apply _. Defined.
#[export] Instance reported_dec events key r : Decision (reported events key r).
Proof. unfold reported. apply _. Defined.
#[export] Instance acted_on_dec events key r : Decision (acted_on events key r).
Proof. unfold acted_on. apply _. Defined.

(** How many records of the run satisfy [P]. *)
Definition count_records (belongs : string -> bool) (P : string -> DedupeRecord -> Prop) `{forall k r, Decision (P k r)} (m : ledger) : nat :=
  size (filter (fun kr => belongs kr.1 = true /\ P kr.1 kr.2) m).

(** Lemmas *************************************************************************)

Lemma elem_of_set_add x y s : y ∈ set_add x s <-> y = x \/ y ∈ s.
Proof. unfold set_add. case_decide; [set_solver|]. rewrite elem_of_app, list_elem_of_singleton. tauto. Qed.

Lemma note_events_spec events :
  let '(keys, types) := note_events events in
  (forall k, k ∈ keys <-> k ∈ logged_keys events) /\
  (forall k t, t ∈ default [] (od_get k types) <->
     exists e, e ∈ events /\ ev_idempotency_key e = Some k /\ k <> "" /\ ev_event_type e = t /\ t <> "").
Proof.
  induction events as [|e events IH] using rev_ind; [split; [done|intros k t; set_solver]|].
  unfold note_events in *. rewrite foldl_snoc. destruct (foldl note_event ([], []) events) as [keys types]. destruct IH as [IHk IHt].
  assert (forall k, k ∈ logged_keys (events ++ [e]) <-> k ∈ logged_keys events \/ ev_idempotency_key e = Some k /\ k <> "") as Hlog.
  { intros k. unfold logged_keys. rewrite omap_app, elem_of_app. simpl. destruct (ev_idempotency_key e) as [ik|]; [|set_solver].
    destruct (decide (ik = "")); [set_solver|]. rewrite list_elem_of_singleton. naive_solver. }
  assert (forall (P : RuntimeEvent -> Prop), (exists e', e' ∈ events ++ [e] /\ P e') <-> (exists e', e' ∈ events /\ P e') \/ P e) as Hex.
  { intros P. setoid_rewrite elem_of_app. setoid_rewrite list_elem_of_singleton. naive_solver. }
  unfold note_event. destruct (ev_idempotency_key e) as [ik|] eqn:Hik.
  2:{ split; [intros k; rewrite Hlog, IHk; naive_solver|]. intros k t. rewrite Hex, IHt. naive_solver. }
  destruct (decide (ik = "")) as [->|Hne].
  { split; [intros k; rewrite Hlog, IHk; naive_solver|]. intros k t. rewrite Hex, IHt. naive_solver. }
  split; [intros k; rewrite elem_of_set_add, Hlog, IHk; naive_solver|]. intros k t. rewrite Hex.
  destruct (decide (ev_event_type e = "")) as [Het|Het]; [rewrite IHt; naive_solver|].
  destruct (decide (ik = k)) as [->|Hk].
  - rewrite od_get_set_eq. simpl. unfold id. rewrite elem_of_set_add, IHt. naive_solver.
  - rewrite od_get_set_ne, IHt by done. naive_solver.
Qed.

Section facts.
Context {S : Type} `{DedupeKeysLaws S}.
Implicit Types (run_id key : string) (s : S) (events : list RuntimeEvent) (m : ledger).

(** Records only move forward, and only those of the keys in [touch] move. *)
Definition moves (touch : string -> Prop) m m' : Prop := ledger_le m m' /\ forall k, ~ touch k -> m' !! k = m !! k.

Lemma moves_refl touch m : moves touch m m.
Proof. done. Qed.

Lemma moves_trans touch m1 m2 m3 : moves touch m1 m2 -> moves touch m2 m3 -> moves touch m1 m3.
Proof. intros [L1 E1] [L2 E2]. split; [by etrans|]. intros k Hk. by rewrite E2, E1. Qed.

Lemma moves_weaken (touch touch' : string -> Prop) m m' : (forall k, touch k -> touch' k) -> moves touch m m' -> moves touch' m m'.
Proof. intros Hw [L E]. split; [done|]. intros k Hk. apply E. auto. Qed.

(** What a piece of code does to the ledger: the store stays well formed, the ledger
    moves, and the code returns, as [good] says, or the store is unavailable. *)
Definition guarded {A} (touch : string -> Prop) (op : PyM S A) s (good : A -> ledger -> Prop) : Prop :=
  ds_wf (op s).2 /\ moves touch (ds_view s) (ds_view (op s).2) /\
  match (op s).1 with Ret a => good a (ds_view (op s).2) | Raise e => ds_unavailable e end.

Lemma guarded_ret {A} touch (a : A) s (good : A -> ledger -> Prop) : ds_wf s -> good a (ds_view s) -> guarded touch (mret a) s good.
Proof. done. Qed.

Lemma guarded_mono {A} touch (op : PyM S A) s (good good' : A -> ledger -> Prop) :
  guarded touch op s good -> (forall a m, good a m -> good' a m) -> guarded touch op s good'.
Proof. intros (Hwf & Hm & Hg) Himp. split_and!; [done..|]. destruct (op s).1; auto. Qed.

Lemma guarded_weaken {A} (touch touch' : string -> Prop) (op : PyM S A) s (good : A -> ledger -> Prop) :
  (forall k, touch k -> touch' k) -> guarded touch op s good -> guarded touch' op s good.
Proof. intros Hw (Hwf & Hm & Hg). split_and!; [done|by eapply moves_weaken|done]. Qed.

Lemma guarded_bind {A B} touch (op : PyM S A) (k : A -> PyM S B) s (mid : A -> ledger -> Prop) (good : B -> ledger -> Prop) :
  guarded touch op s mid -> (forall a s', ds_wf s' -> mid a (ds_view s') -> guarded touch (k a) s' good) -> guarded touch (a ← op; k a) s good.
Proof.
  intros (Hwf & Hm & Hg) Hk. unfold guarded, mbind, PyM_bind. destruct (op s) as [[a|e] s']; simpl in *; [|done].
  destruct (Hk a s' Hwf Hg) as (Hwf' & Hm' & Hg'). split_and!; [done|by eapply moves_trans|done].
Qed.

(** A handler of state errors never runs. *)
Lemma guarded_except {A} touch (op : PyM S A) h s good : guarded touch op s good -> guarded touch (py_except is_state_error op h) s good.
Proof.
  intros (Hwf & Hm & Hg). unfold guarded, py_except. destruct (op s) as [[a|e] s']; simpl in *; [done|].
  destruct (is_state_error e) eqn:He; [|done]. destruct e; try discriminate. by apply ds_unavailable_not_state in Hg.
Qed.

Lemma guarded_get touch key s : ds_wf s -> guarded touch (ds_get key) s (fun r m => r = ds_view s !! key /\ m = ds_view s).
Proof.
  intros Hwf. destruct (ds_get_law key s Hwf) as [Hwf' Hor]. unfold guarded.
  destruct (ds_get key s) as [[r|e] s']; simpl in *; destruct Hor as [[= -> Hv]|(e' & He & Hu & Hv)]; simplify_eq; rewrite Hv; done.
Qed.

Lemma guarded_mark (touch : string -> Prop) (op : PyM S unit) target key s r :
  implements ds_view ds_wf ds_unavailable op (LedgerSpec.mark target None None key) -> ds_wf s -> touch key ->
  ds_view s !! key = Some r -> may_mark target (dr_state r) = true ->
  guarded touch op s (fun _ m => m = <[key := with_state target r]> (ds_view s)).
Proof.
  intros Himp Hwf Ht Hr Hmay. destruct (Himp s Hwf) as [Hwf' Hor]. unfold LedgerSpec.mark in Hor. rewrite Hr, Hmay in Hor.
  unfold guarded. destruct (op s) as [o s']; simpl in *. destruct Hor as [[= -> Hv]|(e & -> & Hu & Hv)]; rewrite Hv; [|done].
  split_and!; [done| |done]. split; [apply (ledger_le_insert _ _ r); [done|]; repeat split; simpl; auto using may_mark_step|].
  intros k Hk. rewrite lookup_insert_ne; [done|]. by intros ->.
Qed.

(** The check **************************************************************************)

Lemma guarded_check_keys touch run_id keys types all s : ds_wf s ->
  guarded touch (check_keys run_id keys types all) s (fun vs m => m = ds_view s /\
    vs = all ≫= (fun k => check_record run_id keys types k (ds_view s !! k))).
Proof.
  revert s. induction all as [|k all IH]; intros s Hwf; [by apply guarded_ret|]. cbn [check_keys].
  eapply guarded_bind; [by apply guarded_get|]. intros r s1 Hwf1 [-> Hv1].
  eapply guarded_bind; [by apply IH|]. intros vs s2 Hwf2 [Hv2 ->]. apply guarded_ret; [done|].
  rewrite Hv2, !Hv1. by split.
Qed.

(** What the check reports of a key, by what the log holds. *)
Lemma check_record_spec run_id events k r :
  let '(keys, types) := note_events events in
  exists vs, check_record run_id keys types k (Some r) = vs /\
    ((vs = [orphaned run_id k (dr_state r)] /\ k ∉ logged_keys events) \/
     (vs = [no_evidence run_id k (default [] (od_get k types))] /\ k ∈ logged_keys events /\ dr_state r = unknown_effect /\ ~ evidence events k) \/
     (vs = [] /\ k ∈ logged_keys events /\ (dr_state r = unknown_effect -> evidence events k))).
Proof.
  pose proof (note_events_spec events) as Hn. destruct (note_events events) as [keys types]. destruct Hn as [Hk Ht].
  eexists. split; [reflexivity|]. unfold check_record. destruct (decide (k ∉ keys)) as [Hno|Hin].
  { left. split; [done|]. by rewrite <-Hk. }
  apply dec_stable in Hin. rewrite Hk in Hin. destruct (decide (dr_state r = unknown_effect)) as [Hu|Hu]; [|by do 2 right].
  assert (existsb (fun t => bool_decide (t ∈ EVIDENCE)) (default [] (od_get k types)) = true <-> evidence events k) as He.
  { rewrite existsb_exists. setoid_rewrite bool_decide_eq_true. setoid_rewrite <-list_elem_of_In. setoid_rewrite Ht. unfold evidence. rewrite Exists_exists. split.
    - intros (t & (e & ? & ? & ? & <- & ?) & ?). eauto 6.
    - intros (e & He & Hi & Hne & Hev). exists (ev_event_type e). split; [|done]. exists e. split_and!; try done.
      intros Hz. rewrite Hz in Hev. unfold EVIDENCE in Hev. set_solver. }
  destruct (existsb _ _); [do 2 right; split_and!; try done; tauto|right; left]. split_and!; try done.
  intros Hev. by apply He in Hev.
Qed.

(** The repairs **************************************************************************)

Lemma repairable_iff st : st ∈ _REPAIRABLE_STATES <-> st = reserved \/ st = dispatched.
Proof. unfold _REPAIRABLE_STATES. rewrite elem_of_cons, list_elem_of_singleton. done. Qed.

Lemma settled_id r : dr_state r ∉ _REPAIRABLE_STATES -> settled r = r.
Proof. rewrite repairable_iff. unfold settled, with_state. destruct r as [? ? ? [] ? ?]; simpl; tauto. Qed.

Lemma terminal_not_repairable st : st ∈ _TERMINAL_STATES -> st ∉ _REPAIRABLE_STATES.
Proof. rewrite repairable_iff. unfold _TERMINAL_STATES. rewrite elem_of_cons, list_elem_of_singleton. destruct st; naive_solver. Qed.

Lemma guarded_orphan run_id key v s r : ds_wf s -> ds_view s !! key = Some r ->
  guarded (eq key) (Reconciler._repair_orphaned_key run_id key v) s
    (fun a m => m = <[key := settled r]> (ds_view s) /\ Reconciler.took_action a = bool_decide (dr_state r ∈ _REPAIRABLE_STATES)).
Proof.
  intros Hwf Hr. unfold Reconciler._repair_orphaned_key. eapply guarded_bind; [by apply guarded_get|].
  intros o s1 Hwf1 [-> Hv1]. rewrite <-Hv1 in Hr |- *. clear Hwf Hv1 s. rename s1 into s. rewrite Hr. cbn [state_in].
  destruct (bool_decide (dr_state r ∈ _TERMINAL_STATES)) eqn:Ht.
  { apply bool_decide_eq_true, terminal_not_repairable in Ht.
    apply guarded_ret; [done|]. rewrite settled_id, insert_id, bool_decide_eq_false_2; done. }
  destruct (bool_decide (dr_state r ∈ _REPAIRABLE_STATES)) eqn:Hrep; cbn [negb].
  2:{ apply bool_decide_eq_false in Hrep. apply guarded_ret; [done|]. rewrite settled_id, insert_id; done. }
  apply bool_decide_eq_true in Hrep. apply guarded_except.
  set (mid := <[key := with_state dispatched r]> (ds_view s)).
  eapply (guarded_bind _ _ _ _ (fun _ m => m = mid)).
  { unfold mid. destruct (decide (Some (dr_state r) = Some reserved)) as [Hd|Hd].
    - eapply guarded_mono; [eapply guarded_mark; [apply ds_mark_dispatched_law|done..|]; injection Hd as ->; done|done].
    - apply guarded_ret; [done|]. assert (dr_state r = dispatched) as Hst.
      { apply repairable_iff in Hrep as [?|?]; congruence. }
      assert (with_state dispatched r = r) as ->; [by unfold with_state; rewrite <-Hst; destruct r|]. by rewrite insert_id. }
  intros [] s1 Hwf2 Hv1. eapply guarded_bind.
  { eapply guarded_mark; [apply ds_mark_unknown_effect_law|done|done| |]; [rewrite Hv1; apply lookup_insert_eq|done]. }
  intros [] s2 Hwf3 Hv2. apply guarded_ret; [done|]. split; [|done]. rewrite Hv2, Hv1. unfold mid. rewrite insert_insert_eq.
  f_equal. unfold settled, with_state. simpl. f_equal.
  by apply repairable_iff in Hrep as [->| ->].
Qed.

(** [P] holds of the record of a key. *)
Definition at_key (P : string -> DedupeRecord -> Prop) `{forall k r, Decision (P k r)} m key : bool :=
  match m !! key with Some r => bool_decide (P key r) | None => false end.

Lemma count_at_key (belongs : string -> bool) (P : string -> DedupeRecord -> Prop) `{forall k r, Decision (P k r)} m ks :
  NoDup ks -> (forall k, k ∈ ks <-> is_Some (m !! k) /\ belongs k = true) ->
  length (filter (fun k => at_key P m k = true) ks) = count_records belongs P m.
Proof.
  intros Hnd Hks. unfold count_records. rewrite <-size_dom.
  assert (dom (filter (fun kr : string * DedupeRecord => belongs kr.1 = true /\ P kr.1 kr.2) m) =
          (list_to_set (filter (fun k => at_key P m k = true) ks) : gset string)) as ->.
  { apply set_eq. intros k. rewrite elem_of_dom, elem_of_list_to_set, list_elem_of_filter, Hks. unfold at_key. split.
    - intros [r [Hr [Hb Hp]]%map_lookup_filter_Some]. simpl in *. rewrite Hr, bool_decide_eq_true. eauto.
    - intros (Hp & [r Hr] & Hb). rewrite Hr, bool_decide_eq_true in Hp. exists r. apply map_lookup_filter_Some. eauto. }
  symmetry. apply size_list_to_set. by apply NoDup_filter.
Qed.

Lemma elem_of_tail (k k' : string) ks (l : list string) : k ∈ l -> (k' ∈ ks /\ k' ∉ l) <-> (k' ∈ k :: ks /\ k' ∉ l).
Proof. intros Hk. rewrite elem_of_cons. split; [tauto|]. by intros [[->|?] ?]. Qed.

(** All the repairs of a run, on the records [m0] the check found. *)
Lemma guarded_repairs run_id events m0 ks : forall s, ds_wf s -> NoDup ks ->
  (forall k, k ∈ ks -> ds_view s !! k = m0 !! k /\ is_Some (m0 !! k)) ->
  let '(keys, types) := note_events events in
  let vs := ks ≫= (fun k => check_record run_id keys types k (m0 !! k)) in
  length vs = length (filter (fun k => at_key (reported events) m0 k = true) ks) /\
  guarded (fun k => k ∈ ks /\ k ∉ logged_keys events) (Reconciler.repair_all run_id vs) s (fun acts m =>
    (forall k, m !! k = if decide (k ∈ ks /\ k ∉ logged_keys events) then settled <$> m0 !! k else ds_view s !! k) /\
    length (filter (fun a => Reconciler.took_action a = true) acts) = length (filter (fun k => at_key (acted_on events) m0 k = true) ks)).
Proof.
  pose proof (check_record_spec run_id events) as Hspec. destruct (note_events events) as [keys types].
  induction ks as [|k ks IH]; intros s Hwf Hnd Hks.
  { split; [done|]. apply guarded_ret; [done|]. split; [|done]. intros k. rewrite decide_False; [done|set_solver]. }
  apply NoDup_cons in Hnd as [Hk Hnd]. destruct (Hks k ltac:(by left)) as [Hvk [r Hr]].
  cbn zeta in *. destruct (Hspec k r) as (v & Hv & Hcase). rewrite bind_cons, Hr, Hv, !filter_cons, length_app.
  assert (at_key (reported events) m0 k = bool_decide (reported events k r)) as -> by (unfold at_key; by rewrite Hr).
  assert (at_key (acted_on events) m0 k = bool_decide (acted_on events k r)) as -> by (unfold at_key; by rewrite Hr).
  assert (forall s', ds_wf s' -> (forall k', k' ∈ ks -> ds_view s' !! k' = m0 !! k' /\ is_Some (m0 !! k')) ->
    length (ks ≫= (fun k => check_record run_id keys types k (m0 !! k))) =
      length (filter (fun k => at_key (reported events) m0 k = true) ks) /\
    guarded (fun k' => k' ∈ k :: ks /\ k' ∉ logged_keys events)
      (Reconciler.repair_all run_id (ks ≫= (fun k => check_record run_id keys types k (m0 !! k)))) s' (fun acts m =>
      (forall k', m !! k' = if decide (k' ∈ ks /\ k' ∉ logged_keys events) then settled <$> m0 !! k' else ds_view s' !! k') /\
      length (filter (fun a => Reconciler.took_action a = true) acts) =
        length (filter (fun k => at_key (acted_on events) m0 k = true) ks))) as Hrest.
  { intros s' Hwf' Hks'. destruct (IH s' Hwf' Hnd Hks') as [Hl Hg]. split; [done|]. eapply guarded_weaken; [|exact Hg]. set_solver. }
  clear IH. pose proof (proj1 (Hrest s Hwf (fun k' Hk' => Hks k' (list_elem_of_further _ _ _ Hk')))) as Hlen.
  destruct Hcase as [[-> Hno]|[(-> & Hin & Hu & Hne)|(-> & Hin & Hue)]].
  - assert (reported events k r) as Hrep by (by left).
    assert (acted_on events k r <-> dr_state r ∈ _REPAIRABLE_STATES) as Hact by (unfold acted_on; tauto).
    rewrite bool_decide_eq_true_2 by done. rewrite decide_True by done. split; [cbn [length]; by rewrite Hlen|]. simpl app. cbn [Reconciler.repair_all].
    eapply (guarded_bind _ _ _ _ (fun a m => m = <[k := settled r]> (ds_view s) /\
      Reconciler.took_action a = bool_decide (dr_state r ∈ _REPAIRABLE_STATES))).
    { eapply (guarded_weaken (eq k)); [intros ? <-; split; [by left|done]|]. unfold Reconciler._repair_violation. cbn [orphaned cv_kind].
      rewrite decide_True by done. apply guarded_orphan; [done|by rewrite <-Hr]. }
    intros a s1 Hwf1 [Hv1 Ha]. eapply guarded_bind; [apply Hrest; [done|]|].
    { intros k' Hk'. rewrite Hv1, lookup_insert_ne by (by intros ->). apply Hks. by right. }
    intros acts s2 Hwf2 [Hv2 Hl]. apply guarded_ret; [done|]. split.
    + intros k'. rewrite Hv2, Hv1. destruct (decide (k' = k)) as [->|Hne].
      * rewrite decide_False by tauto. rewrite decide_True by (split; [by left|done]). by rewrite lookup_insert_eq, Hr.
      * rewrite lookup_insert_ne by done. apply decide_ext. rewrite elem_of_cons. tauto.
    + rewrite filter_cons, Ha. destruct (decide (dr_state r ∈ _REPAIRABLE_STATES)) as [Hd|Hd].
      * rewrite !bool_decide_eq_true_2 by tauto. rewrite !decide_True by done. simpl. by rewrite Hl.
      * rewrite !bool_decide_eq_false_2 by tauto. rewrite !decide_False by done. done.
  - assert (reported events k r) as Hrep by (by right).
    assert (acted_on events k r) as Hact by (right; done).
    rewrite !bool_decide_eq_true_2 by done. rewrite !decide_True by done. split; [cbn [length]; by rewrite Hlen|]. simpl app. cbn [Reconciler.repair_all].
    unfold Reconciler._repair_violation. cbn [no_evidence cv_kind]. rewrite decide_False, decide_True by done.
    eapply guarded_bind; [apply (guarded_ret _ _ _ (fun a m => m = ds_view s /\ Reconciler.took_action a = true)); done|].
    intros a s1 Hwf1 [Hv1 Ha]. eapply guarded_bind; [apply Hrest; [done|]|].
    { intros k' Hk'. rewrite Hv1. apply Hks. by right. }
    intros acts s2 Hwf2 [Hv2 Hl]. apply guarded_ret; [done|]. split.
    + intros k'. rewrite Hv2, Hv1. by apply decide_ext, elem_of_tail.
    + rewrite filter_cons, Ha, decide_True by done. simpl. by rewrite Hl.
  - assert (~ reported events k r) as Hrep by (unfold reported; tauto).
    assert (~ acted_on events k r) as Hact by (unfold acted_on; tauto).
    rewrite !bool_decide_eq_false_2 by done. rewrite !decide_False by done. simpl app. destruct (Hrest s Hwf) as [Hl Hg].
    { intros k' Hk'. apply Hks. by right. }
    split; [done|]. eapply guarded_mono; [exact Hg|]. intros acts m [Hm Ha]. split; [|done].
    intros k'. rewrite Hm. by apply decide_ext, elem_of_tail.
Qed.

Lemma lookup_repaired belongs events m k :
  repaired belongs events m !! k = (if orphan belongs events k then settled <$> m !! k else m !! k).
Proof. unfold repaired. rewrite map_lookup_imap. destruct (m !! k), (orphan belongs events k); done. Qed.

Lemma orphan_true belongs events k : orphan belongs events k = true <-> belongs k = true /\ k ∉ logged_keys events.
Proof. unfold orphan. by rewrite andb_true_iff, bool_decide_eq_true. Qed.

Section reconcile.
Context (mig : option migrator) (target : option version).
Abbreviation migrated := (Reconciler._event_log_with_schema_migration mig target).

Lemma guarded_reconcile run_id loaded events s : ds_wf s -> migrated loaded = Ret events ->
  guarded (fun k => dk_belongs run_id k = true /\ k ∉ logged_keys events) (Reconciler.reconcile mig target loaded run_id) s
    (fun res m =>
      m = repaired (dk_belongs run_id) events (ds_view s) /\
      rr_violations_found res = count_records (dk_belongs run_id) (reported events) (ds_view s) /\
      rr_violations_repaired res = count_records (dk_belongs run_id) (acted_on events) (ds_view s) \/
      ~ dk_reliable s /\ m = ds_view s /\ rr_violations_found res = 0 /\ rr_violations_repaired res = 0).
Proof.
  intros Hwf Hl. unfold Reconciler.reconcile, averify_event_dedupe_consistency. rewrite Hl. unfold _detect_violations.
  pose proof (guarded_repairs run_id events (ds_view s)) as Hrep. destruct (note_events events) as [keys types].
  destruct (dk_law run_id s Hwf) as (ks & s1 & Hc & Hwf1 & Hv1 & Hnd & Hks).
  set (touch := fun k => dk_belongs run_id k = true /\ k ∉ logged_keys events).
  eapply (guarded_bind touch _ _ _ (fun rep m => m = ds_view s /\
    rp_violations rep = ks ≫= (fun k => check_record run_id keys types k (ds_view s !! k)))).
  { eapply (guarded_bind touch _ _ _ (fun a m => a = ks /\ m = ds_view s)).
    { unfold guarded. rewrite Hc. simpl. by rewrite Hv1. }
    intros a s2 Hwf2 [-> Hv2]. eapply guarded_bind; [by apply guarded_check_keys|].
    intros vs s3 Hwf3 [Hv3 ->]. apply guarded_ret; [done|]. by rewrite Hv3, Hv2. }
  intros rep s2 Hwf2 [Hv2 Hrp]. unfold Reconciler._apply_repairs. rewrite Hrp.
  destruct Hks as [Hks|[Hun ->]].
  2:{ apply guarded_ret; [done|]. right. by rewrite Hv2. }
  destruct (Hrep ks s2 Hwf2 Hnd) as [Hfound Hg].
  { intros k [Hk _]%Hks. by rewrite Hv2. }
  eapply guarded_bind; [eapply guarded_weaken; [|exact Hg]; intros k [[_ Hk]%Hks ?]; by split|].
  intros acts s3 Hwf3 [Hv3 Hacts]. apply guarded_ret; [done|]. left. simpl. rewrite Hfound, Hacts.
  split_and!; [|apply count_at_key; [exact Hnd|exact Hks]..]. apply map_eq. intros k. rewrite Hv3, Hv2, lookup_repaired.
  destruct (orphan (dk_belongs run_id) events k) eqn:Ho.
  - apply orphan_true in Ho as [Hb Hno]. destruct (ds_view s !! k) as [r|] eqn:Hr; [|by case_decide].
    rewrite decide_True; [done|]. rewrite Hks, Hr. by split.
  - rewrite decide_False; [done|]. intros [[_ Hb]%Hks Hno]. by rewrite (proj2 (orphan_true _ _ _)) in Ho.
Qed.

Lemma count_records_repaired belongs events m :
  count_records belongs (reported events) (repaired belongs events m) = count_records belongs (reported events) m.
Proof.
  unfold count_records. rewrite <-!size_dom. f_equal. apply set_eq. intros k. rewrite !elem_of_dom. unfold is_Some.
  setoid_rewrite map_lookup_filter_Some. simpl. setoid_rewrite lookup_repaired. destruct (orphan belongs events k) eqn:Ho; [|done].
  apply orphan_true in Ho as [Hb Hno]. split.
  - intros (r & Hr & _ & _). destruct (m !! k) as [r'|]; [|done]. exists r'. split_and!; [done..|by left].
  - intros (r & -> & _ & _). exists (settled r). split_and!; [done..|by left].
Qed.

Lemma repaired_twice belongs events m : repaired belongs events (repaired belongs events m) = repaired belongs events m.
Proof.
  apply map_eq. intros k. rewrite !lookup_repaired. destruct (orphan _ _ _); [|done]. destruct (m !! k) as [r|]; [|done]. simpl.
  f_equal. unfold settled, with_state. simpl. f_equal. by destruct (dr_state r).
Qed.
End reconcile.
End facts.

(** The stores enumerate as promised. *)

Lemma mem_keys_law run_id (d : InMemory.store) : od_wf d ->
  exists keys d', ds_collect_keys run_id d = (Ret keys, d') /\ od_wf d' /\ mem_view d' = mem_view d /\ NoDup keys /\
    ((forall k, k ∈ keys <-> is_Some (mem_view d !! k) /\ startswith k (run_id +:+ ":") = true) \/ (~ True /\ keys = [])).
Proof.
  intros Hwf. eexists _, d. split; [reflexivity|]. split_and!; [done..|by apply NoDup_filter|]. left. intros k.
  rewrite list_elem_of_filter, mem_view_get, od_get_is_Some. tauto.
Qed.

#[export] Instance InMemory_keys_laws : DedupeKeysLaws InMemory.store.
Proof. exact (Build_DedupeKeysLaws InMemory.store InMemory_port InMemory_laws InMemory_keys (fun run_id k => startswith k (run_id +:+ ":")) (fun _ => True) mem_keys_law). Defined.

Ltac sql_fault fs := destruct fs as [|[] fs]; simpl.

Lemma sqlite_keys_law run_id (c : SQLite.conn) : sql_wf c ->
  exists keys c', ds_collect_keys run_id c = (Ret keys, c') /\ sql_wf c' /\ sql_view c' = sql_view c /\ NoDup keys /\
    ((forall k, k ∈ keys <-> is_Some (sql_view c !! k) /\ startswith (lower k) (lower (run_id +:+ ":")) = true) \/
     (~ SQLite.failures c = [] /\ keys = [])).
Proof.
  destruct c as [t w fs]. unfold sql_wf. simpl. intros [-> Hnd].
  set (hits := filter (fun k => SQLite.like_match (SQLite.like_tokens (SQLite.escape_like run_id +:+ ":%")) k = true)
                 (map dr_dispatch_idempotency_key t)).
  assert (NoDup hits /\ forall k, k ∈ hits <-> is_Some (table_view t !! k) /\ startswith (lower k) (lower (run_id +:+ ":")) = true)
    as [Hn Hh].
  { split; [by apply NoDup_filter|]. intros k. unfold hits. rewrite list_elem_of_filter, like_run_prefix, <-row_of_view.
    rewrite <-not_eq_None_Some, row_of_None. split; [tauto|]. intros [Hk ?]. split; [done|]. by apply dec_stable. }
  assert (forall fs', exists keys c', py_except is_operational
       (SQLite.execute (fun c => (Ret (filter (fun k => SQLite.like_match (SQLite.like_tokens (SQLite.escape_like run_id +:+ ":%")) k = true)
                  (map dr_dispatch_idempotency_key (SQLite.visible c))), c)))
       (fun _ => mret []) (SQLite.mkConn t None fs') = (Ret keys, c') /\
       (SQLite.working c' = None /\ NoDup (map dr_dispatch_idempotency_key (SQLite.committed c'))) /\ sql_view c' = table_view t /\
       (keys = hits \/ (fs' <> [] /\ keys = []))) as Hsecond.
  { intros fs'. unfold py_except, SQLite.execute. sql_fault fs'; eexists _, _; (split; [reflexivity|]); split_and!; try done; auto. }
  unfold ds_collect_keys, SQLite_keys, Keys.sqlite. unfold py_except at 1. unfold SQLite.execute at 1. simpl SQLite.failures.
  assert (forall keys (fs1 fs2 : list SQLite.fault), (fs1 <> [] -> fs2 <> []) -> keys = hits \/ (fs1 <> [] /\ keys = []) ->
    NoDup keys /\ ((forall k, k ∈ keys <-> is_Some (table_view t !! k) /\ startswith (lower k) (lower (run_id +:+ ":")) = true) \/
     (fs2 <> [] /\ keys = []))) as Hend.
  { intros keys fs1 fs2 Hf [->|[? ->]]; [by auto|]. split; [constructor|right; auto]. }
  destruct fs as [|f fs]; [|destruct f]; simpl;
    match goal with |- context [SQLite.mkConn _ None ?fs'] => destruct (Hsecond fs') as (keys & c' & Hc & Hwf & Hv & Hk) end;
    exists keys, c'; (split; [exact Hc|]); (split; [exact Hwf|]); (split; [exact Hv|]); (eapply Hend; [|exact Hk]); auto.
Qed.

#[export] Instance SQLite_keys_laws : DedupeKeysLaws SQLite.conn.
Proof.
  exact (Build_DedupeKeysLaws SQLite.conn SQLite_port SQLite_laws SQLite_keys (fun run_id k => startswith (lower k) (lower (run_id +:+ ":"))) (fun c => SQLite.failures c = [])
    sqlite_keys_law).
Defined.

Lemma settled_settled r : settled (settled r) = settled r.
Proof. unfold settled, with_state. simpl. f_equal. by destruct (dr_state r). Qed.

Lemma settled_state r : dr_state (settled r) ∉ _REPAIRABLE_STATES.
Proof. rewrite repairable_iff. unfold settled, with_state. simpl. destruct (dr_state r); simpl; naive_solver. Qed.

Lemma settled_le r : record_le r (settled r).
Proof.
  unfold settled, with_state. repeat split; simpl.
  destruct (dr_state r); simpl; [apply (rtc_l _ _ dispatched); [constructor|apply rtc_once; constructor]|apply rtc_once; constructor|apply rtc_refl..].
Qed.

(** Sweeps of the in-memory stores. *)
Section sweep.
Context (l : EventLog.event_log).

Definition mem_belongs (run_id k : string) : bool := startswith k (run_id +:+ ":").
Definition run_events (run_id : string) : list RuntimeEvent := EventLog.load run_id 0 l.
Definition swept (runs : list string) (m : ledger) : ledger :=
  foldl (fun m run_id => repaired (mem_belongs run_id) (run_events run_id) m) m runs.

Lemma lookup_swept runs m k :
  swept runs m !! k = (if existsb (fun run_id => orphan (mem_belongs run_id) (run_events run_id) k) runs then settled <$> m !! k else m !! k).
Proof.
  unfold swept. revert m. induction runs as [|run_id runs IH]; intros m; [done|]. simpl. rewrite IH, lookup_repaired.
  destruct (orphan _ _ _); simpl; [|done]. destruct (existsb _ _); [|done]. destruct (m !! k); simpl; [|done]. by rewrite settled_settled.
Qed.

Lemma sweep_mem runs (d : InMemory.store) : od_wf d ->
  exists totals d', Scheduled.sweep None None (in_memory_log l) runs d = (Ret totals, d') /\ od_wf d' /\ mem_view d' = swept runs (mem_view d).
Proof.
  revert d. induction runs as [|run_id runs IH]; intros d Hwf; [by eexists _, _|].
  pose proof (guarded_reconcile None None run_id (Ret (run_events run_id)) (run_events run_id) d) as Hr.
  destruct (Hr Hwf eq_refl) as (Hwf1 & _ & Hg).
  cbn [Scheduled.sweep in_memory_log lp_load]. change (Ret (EventLog.load run_id 0 l)) with (Ret (run_events run_id)).
  unfold mbind at 1, PyM_bind at 1. destruct (Reconciler.reconcile None None (Ret (run_events run_id)) run_id d) as [[res|e] d1]; [|done].
  simpl in Hwf1, Hg. destruct Hg as [(Hv & _ & _)|[Hn _]]; [|by destruct Hn].
  destruct (IH d1 Hwf1) as (totals & d2 & Hs & Hwf2 & Hv2). unfold mbind at 1, PyM_bind at 1. rewrite Hs.
  eexists _, d2. split; [reflexivity|]. split; [done|]. rewrite Hv2, Hv. done.
Qed.
End sweep.

(** Properties ********************************************************************)

(** C29: A reconciliation pass is an exact repair.  Over any lawful dispatch ledger,
    whatever events the (migrated) log answers for the run, given that loading it succeeds: the pass either raises the store's
    own exception, or it returns with the ledger in which each record of the run that no
    event carries has moved from reserved or dispatched to unknown_effect and nothing
    else has changed, and it counts the records it reports and those it acts on; only a
    store whose enumeration of keys could not be relied on may instead be left as it
    was, and then the run is reported clean.  Even a pass that raises moves records only
    forward and only those of the run that no event carries. *)
Theorem reconcile_exact {S} `{DedupeKeysLaws S} (mig : option migrator) (target : option version)
    (run_id : string) (loaded : outcome (list RuntimeEvent)) (events : list RuntimeEvent) (s : S)
    (Hwf : ds_wf s) (Hlog : Reconciler._event_log_with_schema_migration mig target loaded = Ret events) :
  let '(o, s') := Reconciler.reconcile mig target loaded run_id s in
  ds_wf s' /\ ledger_le (ds_view s) (ds_view s') /\
  (forall k, ~ (dk_belongs run_id k = true /\ k ∉ logged_keys events) -> ds_view s' !! k = ds_view s !! k) /\
  match o with
  | Raise e => ds_unavailable e
  | Ret res =>
      ds_view s' = repaired (dk_belongs run_id) events (ds_view s) /\
      rr_violations_found res = count_records (dk_belongs run_id) (reported events) (ds_view s) /\
      rr_violations_repaired res = count_records (dk_belongs run_id) (acted_on events) (ds_view s) \/
      ~ dk_reliable s /\ ds_view s' = ds_view s /\ is_clean res = true
  end.
Proof.
  destruct (guarded_reconcile mig target run_id loaded events s Hwf Hlog) as (Hwf' & [Hle Hother] & Hg).
  destruct (Reconciler.reconcile mig target loaded run_id s) as [[res|e] s']; split_and!; try done.
  destruct Hg as [Hg|(Hn & Hv & Hf & _)]; [by left|right]. split_and!; [done..|]. unfold is_clean. by rewrite Hf.
Qed.

(** C30: Reconciliation ends the records of dispatches that are still running, and is never
    satisfied.  The record of a dispatch in flight, whose key no event of the log carries
    yet, is moved to unknown_effect, so the acknowledgement that follows is refused; and
    a second pass over the same log changes nothing but finds exactly as many violations
    as the first, so a run that needed a repair is never reported clean again. *)
Theorem in_flight_overtaken {S} `{DedupeKeysLaws S} (mig : option migrator) (target : option version)
    (run_id key : string) (ack : option string) (loaded : outcome (list RuntimeEvent)) (events : list RuntimeEvent)
    (r : DedupeRecord) (s s1 : S) (res : ReconciliationResult)
    (Hwf : ds_wf s) (Hreliable : dk_reliable s)
    (Hlog : Reconciler._event_log_with_schema_migration mig target loaded = Ret events)
    (Hkey : ds_view s !! key = Some r) (Hstate : dr_state r = dispatched)
    (Hrun : dk_belongs run_id key = true) (Hno : key ∉ logged_keys events)
    (Hpass : Reconciler.reconcile mig target loaded run_id s = (Ret res, s1)) :
  ds_view s1 !! key = Some (with_state unknown_effect r) /\
  (forall e, (ds_mark_acknowledged key ack s1).1 = Raise e -> e = cannot_transition unknown_effect acknowledged \/ ds_unavailable e) /\
  (ds_mark_acknowledged key ack s1).1 <> Ret tt /\
  is_clean res = false /\
  forall res2 s2, dk_reliable s1 -> Reconciler.reconcile mig target loaded run_id s1 = (Ret res2, s2) ->
    ds_view s2 = ds_view s1 /\ rr_violations_found res2 = rr_violations_found res.
Proof.
  destruct (guarded_reconcile mig target run_id loaded events s Hwf Hlog) as (Hwf1 & _ & Hg). rewrite Hpass in *. simpl in *.
  destruct Hg as [(Hv & Hf & _)|[Hn _]]; [|done].
  assert (ds_view s1 !! key = Some (with_state unknown_effect r)) as Hk.
  { rewrite Hv, lookup_repaired, (proj2 (orphan_true _ _ _)), Hkey by done. simpl. unfold settled. by rewrite Hstate. }
  split; [done|]. destruct (ds_mark_acknowledged_law key ack s1 Hwf1) as [_ Hor]. unfold LedgerSpec.mark in Hor. rewrite Hk in Hor. simpl in Hor.
  split; [intros e He; destruct Hor as [[= Ho _]|(e' & Ho & Hu & _)]; rewrite Ho in He; injection He as <-; auto|].
  split; [by destruct Hor as [[= -> _]|(e' & -> & _)]|]. split.
  - unfold is_clean. apply bool_decide_eq_false. rewrite Hf. intros Hz. unfold count_records in Hz. apply map_size_empty_inv in Hz.
    assert (filter (fun kr : string * DedupeRecord => dk_belongs run_id kr.1 = true /\ reported events kr.1 kr.2) (ds_view s) !! key = Some r) as Hin.
    { apply map_lookup_filter_Some. split; [done|]. split; [done|]. by left. }
    by rewrite Hz, lookup_empty in Hin.
  - intros res2 s2 Hr1 Hpass2. destruct (guarded_reconcile mig target run_id loaded events s1 Hwf1 Hlog) as (_ & _ & Hg2).
    rewrite Hpass2 in Hg2. simpl in Hg2. destruct Hg2 as [(Hv2 & Hf2 & _)|[Hn _]]; [|done]. split.
    + by rewrite Hv2, Hv, repaired_twice.
    + by rewrite Hf2, Hf, Hv, count_records_repaired.
Qed.

(** A sweep of the in-memory stores settles every run the log knows.  It always
    completes and keeps its summary; afterwards no record of such a run whose key no
    event of the run carries is reserved or dispatched, records only moved forward, and
    the records that every run they belong to has an event for are as they were. *)
Theorem sweep_settles (l : EventLog.event_log) (hook : bool) (now : Z) (d : InMemory.store) (sch : scheduler) (Hwf : od_wf d) :
  let runs := od_keys (EventLog.events_by_run l) in
  exists summary d' triggered,
    Scheduled.reconcile_once None None hook (mkTick (in_memory_log l) None now) (d, sch) =
      (Ret summary, (d', mkScheduler (Some summary) triggered)) /\
    sr_scanned_run_ids summary = runs /\ od_wf d' /\ ledger_le (mem_view d) (mem_view d') /\
    (forall run_id k r, run_id ∈ runs -> startswith k (run_id +:+ ":") = true -> k ∉ logged_keys (EventLog.load run_id 0 l) ->
       mem_view d' !! k = Some r -> dr_state r ∉ _REPAIRABLE_STATES) /\
    (forall k, (forall run_id, run_id ∈ runs -> startswith k (run_id +:+ ":") = true -> k ∈ logged_keys (EventLog.load run_id 0 l)) ->
       mem_view d' !! k = mem_view d !! k).
Proof.
  intros runs. destruct (sweep_mem l runs d Hwf) as (totals & d' & Hs & Hwf' & Hv).
  eexists _, d', _. split.
  { unfold Scheduled.reconcile_once. cbv [mbind PyM_bind py_lift Scheduled._discover_run_ids tk_provided tk_log lp_events_by_run in_memory_log
      py_zoom py_modify mret PyM_ret fst snd]. fold (in_memory_log l). fold runs. change (mkLogPort _ _ _) with (in_memory_log l). rewrite Hs. reflexivity. }
  split; [done|]. split; [done|]. rewrite Hv. split_and!.
  - intros k r Hr. rewrite lookup_swept, Hr. destruct (existsb _ _); simpl; [exists (settled r); split; [done|apply settled_le]|by exists r].
  - intros run_id k r Hrun Hb Hno. rewrite lookup_swept.
    assert (existsb (fun run_id => orphan (mem_belongs run_id) (run_events l run_id) k) runs = true) as ->.
    { apply existsb_exists. exists run_id. rewrite <-list_elem_of_In. split; [done|]. by apply orphan_true. }
    destruct (mem_view d !! k) as [r0|]; simpl; [|done]. intros [= <-]. apply settled_state.
  - intros k Hk. rewrite lookup_swept.
    assert (existsb (fun run_id => orphan (mem_belongs run_id) (run_events l run_id) k) runs = false) as ->; [|done].
    apply not_true_iff_false. rewrite existsb_exists. intros (run_id & Hrun%list_elem_of_In & [Hb Hno]%orphan_true).
    by apply Hno, Hk.
Qed.

(** Witnesses *********************************************************************)

Module Sample.
Definition event (key : option string) (type : string) : RuntimeEvent :=
  mkRuntimeEvent "run-1" "evt-1" 1 type ec_fact authoritative_fact "run-1" wake_actor "2026-01-01T00:00:00Z" key None None "1".

(** A dispatch in flight, and a settled one the log knows. *)
Definition in_flight : DedupeRecord := mkRecord "run-1:a" "fp" 1 dispatched None None.
Definition store : InMemory.store := [("run-1:a", in_flight); ("run-1:b", mkRecord "run-1:b" "fp" 1 acknowledged None None)].
Definition events : list RuntimeEvent := [event (Some "run-1:b") "turn.dispatched"; event (Some "fingerprint") "turn.dispatched"].
Definition log : EventLog.event_log := EventLog.mkLog [("run-1", events)] [("run-1", 3%Z)] 1.

Lemma store_wf : od_wf store.
Proof. apply (bool_decide_unpack (NoDup (od_keys store))). vm_compute. exact I. Qed.
End Sample.

Lemma reconcile_exact_witness :
  let '(o, s') := Reconciler.reconcile None None (Ret Sample.events) "run-1" Sample.store in
  match o with
  | Ret res => ds_view s' = repaired (dk_belongs "run-1") Sample.events (ds_view Sample.store) \/ ~ True /\ is_clean res = true
  | Raise e => False
  end.
Proof.
  pose proof (@reconcile_exact InMemory.store InMemory_port InMemory_laws InMemory_keys InMemory_keys_laws None None "run-1" (Ret Sample.events) Sample.events Sample.store Sample.store_wf eq_refl) as Hr.
  destruct (Reconciler.reconcile None None (Ret Sample.events) "run-1" Sample.store) as [[res|e] s'].
  - destruct Hr as (_ & _ & _ & [(Hv & _)|(Hn & _ & Hc)]); [left; exact Hv|right; split; [exact Hn|exact Hc]].
  - destruct Hr as (_ & _ & _ & He). exact He.
Defined.

Lemma in_flight_overtaken_witness :
  exists res s1, Reconciler.reconcile None None (Ret Sample.events) "run-1" Sample.store = (Ret res, s1) /\ is_clean res = false /\
    ds_view s1 !! "run-1:a" = Some (with_state unknown_effect Sample.in_flight).
Proof.
  eexists _, _. split; [vm_compute; reflexivity|].
  match goal with |- is_clean ?res = false /\ ds_view ?s1 !! _ = _ =>
    destruct (@in_flight_overtaken InMemory.store InMemory_port InMemory_laws InMemory_keys InMemory_keys_laws None None "run-1" "run-1:a" None (Ret Sample.events) Sample.events Sample.in_flight Sample.store s1 res
      Sample.store_wf I eq_refl) as (Hk & _ & _ & Hc & _)
  end.
  - reflexivity.
  - reflexivity.
  - reflexivity.
  - apply (bool_decide_unpack _). vm_compute. exact I.
  - vm_compute. reflexivity.
  - split; [exact Hc|exact Hk].
Defined.

Lemma sweep_settles_witness :
  exists summary d' triggered,
    Scheduled.reconcile_once None None true (mkTick (in_memory_log Sample.log) None 5) (Sample.store, mkScheduler None []) =
      (Ret summary, (d', mkScheduler (Some summary) triggered)) /\
    ledger_le (mem_view Sample.store) (mem_view d').
Proof.
  destruct (sweep_settles Sample.log true 5 Sample.store (mkScheduler None []) Sample.store_wf)
    as (summary & d' & triggered & Hs & _ & _ & Hle & _).
  exists summary, d', triggered. split; [exact Hs|exact Hle].
Defined.
