(* ===== verification/TaskRegistry.v ===== *)
(** * Task registry and its event log ([agent_kernel/kernel/task_manager])

    [TaskRegistry] keeps tasks, an index of tasks by session and one of running
    attempts by run, each an ordered dictionary, and appends an event to its
    appender for the changes that recovery replays.  The appender is
    [InMemoryTaskEventLog], which drops its oldest quarter when full; its payloads
    are the fields the registry writes.  Locks make the methods atomic; clock
    readings (milliseconds of [_now_ms], texts of [isoformat]) are arguments. *)

From stdpp Require Import base tactics option list strings.
From Stdlib Require Import ZArith.
From S2P Require Import Prelude PyStr PyDict PyVal Contracts.
#[local] Arguments String.append : simpl nomatch.

(** Contracts ([contracts.py]) *)

Inductive TaskLifecycleState :=
  | ts_pending | ts_running | ts_completed | ts_failed | ts_restarting | ts_reflecting | ts_escalated | ts_aborted.

#[export] Instance TaskLifecycleState_eq_dec : EqDecision TaskLifecycleState.
Proof. solve_decision. Defined.

Inductive ExhaustedPolicy := ex_reflect | ex_escalate | ex_abort.

#[export] Instance ExhaustedPolicy_eq_dec : EqDecision ExhaustedPolicy.
Proof. solve_decision. Defined.

Record TaskRestartPolicy := mkPolicy {
  rp_max_attempts : Z;
  rp_backoff_base_ms : Z;
  rp_max_backoff_ms : Z;
  rp_on_exhausted : ExhaustedPolicy;
  rp_heartbeat_timeout_ms : Z
}.

Inductive TaskKind := tk_root | tk_plan_step | tk_parallel_branch | tk_speculative_candidate.

Record TaskDescriptor := mkDescriptor {
  td_task_id : string;
  td_session_id : string;
  td_task_kind : TaskKind;
  td_goal_description : string;
  td_parent_task_id : option string;
  td_dependency_task_ids : list string;
  td_restart_policy : TaskRestartPolicy;
  td_metadata : odict string pyval
}.

Inductive attempt_outcome := ao_completed | ao_failed | ao_cancelled.

#[export] Instance attempt_outcome_eq_dec : EqDecision attempt_outcome.
Proof. solve_decision. Defined.

Record TaskAttempt := mkAttempt {
  ta_attempt_id : string;
  ta_task_id : string;
  ta_run_id : string;
  ta_attempt_seq : Z;
  ta_started_at : string;
  ta_completed_at : option string;
  ta_outcome : option attempt_outcome;
  ta_failure : option FailureEnvelope;
  ta_reflection_output : option string
}.

Record TaskHealthStatus := mkHealth {
  th_task_id : string;
  th_lifecycle_state : TaskLifecycleState;
  th_current_run_id : option string;
  th_attempt_seq : Z;
  th_max_attempts : Z;
  th_last_heartbeat_ms : option Z;
  th_consecutive_missed_beats : Z;
  th_is_stalled : bool
}.

(** Events ([event_log.py]) *)

(** The restart policy as [register] writes it into the payload. *)
Record policy_payload := mkPolicyPayload {
  pp_max_attempts : Z;
  pp_backoff_base_ms : Z;
  pp_on_exhausted : ExhaustedPolicy;
  pp_heartbeat_timeout_ms : Z
}.

Inductive task_event :=
  | task_registered (task_id session_id : string) (task_kind : TaskKind) (goal_description : string)
      (parent_task_id : option string) (dependency_task_ids : list string) (metadata : odict string pyval)
      (restart_policy : policy_payload)
  | task_attempt_started (attempt_id task_id run_id : string) (attempt_seq : Z) (started_at : string)
  | task_attempt_completed (task_id run_id : string) (outcome : attempt_outcome)
  | task_attempt_failed (task_id run_id : string) (outcome : attempt_outcome)
  | task_state (task_id : string) (state : TaskLifecycleState).

Record task_log := mkTaskLog { tl_events : list task_event; tl_max_events : nat }.

(** [append_task_event] *)
Definition append_task_event (e : task_event) (l : task_log) : task_log :=
  let kept := if tl_max_events l <=? length (tl_events l)
              then drop (1 `max` (tl_max_events l / 4)) (tl_events l) else tl_events l in
  mkTaskLog (kept ++ [e]) (tl_max_events l).

(** The registry *******************************************************************)

Record task_entry := mkEntry {
  te_descriptor : TaskDescriptor;
  te_lifecycle_state : TaskLifecycleState;
  te_attempts : list TaskAttempt;
  te_last_heartbeat_ms : option Z;
  te_consecutive_missed_beats : Z
}.

Record task_registry := mkRegistry {
  tr_tasks : odict string task_entry;
  tr_session_index : odict string (list string);
  tr_run_index : odict string string;
  tr_max_tasks : nat;
  tr_log : option task_log
}.

Definition empty_registry (max_tasks : nat) (log : option task_log) : task_registry :=
  mkRegistry [] [] [] max_tasks log.

Definition put_tasks (f : odict string task_entry -> odict string task_entry) (r : task_registry) : task_registry :=
  mkRegistry (f (tr_tasks r)) (tr_session_index r) (tr_run_index r) (tr_max_tasks r) (tr_log r).
Definition put_runs (f : odict string string -> odict string string) (r : task_registry) : task_registry :=
  mkRegistry (tr_tasks r) (tr_session_index r) (f (tr_run_index r)) (tr_max_tasks r) (tr_log r).

(** [entry.<field> = ...] on the entry object of a task. *)
Definition put_entry (task_id : string) (e : task_entry) : task_registry -> task_registry :=
  put_tasks (od_set task_id e).

Definition set_state (st : TaskLifecycleState) (e : task_entry) : task_entry :=
  mkEntry (te_descriptor e) st (te_attempts e) (te_last_heartbeat_ms e) (te_consecutive_missed_beats e).
Definition set_attempts (l : list TaskAttempt) (e : task_entry) : task_entry :=
  mkEntry (te_descriptor e) (te_lifecycle_state e) l (te_last_heartbeat_ms e) (te_consecutive_missed_beats e).
Definition set_beat (t : option Z) (missed : Z) (e : task_entry) : task_entry :=
  mkEntry (te_descriptor e) (te_lifecycle_state e) (te_attempts e) t missed.

(** [_emit] *)
Definition _emit (ev : task_event) (r : task_registry) : task_registry :=
  mkRegistry (tr_tasks r) (tr_session_index r) (tr_run_index r) (tr_max_tasks r) (append_task_event ev <$> tr_log r).

Definition evictable (e : task_entry) : bool :=
  bool_decide (te_lifecycle_state e ∈ [ts_completed; ts_aborted; ts_escalated]).

(** The body of the loop of [_evict_if_needed]. *)
Definition evict_task (r : task_registry) (tid : string) : task_registry :=
  match od_get tid (tr_tasks r) with
  | None => r
  | Some e =>
      let sid := td_session_id (te_descriptor e) in
      mkRegistry (od_pop tid (tr_tasks r))
        (match od_get sid (tr_session_index r) with
         | Some ids => od_set sid (filter (fun t => t <> tid) ids) (tr_session_index r)
         | None => tr_session_index r
         end)
        (tr_run_index r) (tr_max_tasks r) (tr_log r)
  end.

Definition _evict_if_needed (r : task_registry) : task_registry :=
  if length (tr_tasks r) <? tr_max_tasks r then r
  else
    let terminal := fst <$> filter (fun kv => evictable kv.2 = true) (tr_tasks r) in
    foldl evict_task r (take (1 `max` (length terminal / 2)) terminal).

Definition registered_event (d : TaskDescriptor) : task_event :=
  let p := td_restart_policy d in
  task_registered (td_task_id d) (td_session_id d) (td_task_kind d) (td_goal_description d) (td_parent_task_id d)
    (td_dependency_task_ids d) (td_metadata d)
    (mkPolicyPayload (rp_max_attempts p) (rp_backoff_base_ms p) (rp_on_exhausted p) (rp_heartbeat_timeout_ms p)).

(** [register] once the id is known to be new. *)
Definition add_task (d : TaskDescriptor) (r : task_registry) : task_registry :=
  let r1 := _evict_if_needed r in
  _emit (registered_event d)
    (mkRegistry (od_set (td_task_id d) (mkEntry d ts_pending [] None 0) (tr_tasks r1))
       (od_set (td_session_id d) (default [] (od_get (td_session_id d) (tr_session_index r1)) ++ [td_task_id d])
          (tr_session_index r1))
       (tr_run_index r1) (tr_max_tasks r1) (tr_log r1)).

Definition register (descriptor : TaskDescriptor) : PyM task_registry unit :=
  r ← py_get;
  if od_mem (td_task_id descriptor) (tr_tasks r) then
    py_raise (ValueError ("Task '" +:+ td_task_id descriptor +:+
      "' is already registered. Use a different task_id or call update_state() instead."))
  else py_modify (add_task descriptor).

Definition start_attempt (attempt : TaskAttempt) (now : Z) : PyM task_registry unit :=
  r ← py_get;
  match od_get (ta_task_id attempt) (tr_tasks r) with
  | None => py_raise (KeyError (ta_task_id attempt))
  | Some entry =>
      _ ← py_modify (put_entry (ta_task_id attempt)
            (set_beat (Some now) (te_consecutive_missed_beats entry)
              (set_state ts_running (set_attempts (te_attempts entry ++ [attempt]) entry))));
      _ ← py_modify (put_runs (od_set (ta_run_id attempt) (ta_task_id attempt)));
      py_modify (_emit (task_attempt_started (ta_attempt_id attempt) (ta_task_id attempt) (ta_run_id attempt)
                          (ta_attempt_seq attempt) (ta_started_at attempt)))
  end.

(** The attempt [complete_attempt] closes. *)
Definition open_attempt (run_id : string) (a : TaskAttempt) : bool :=
  bool_decide (ta_run_id a = run_id) && bool_decide (ta_outcome a = None).

Definition close_attempt (outcome : attempt_outcome) (failure : option FailureEnvelope) (now_iso : string)
    (a : TaskAttempt) : TaskAttempt :=
  mkAttempt (ta_attempt_id a) (ta_task_id a) (ta_run_id a) (ta_attempt_seq a) (ta_started_at a) (Some now_iso)
    (Some outcome) (if decide (outcome = ao_completed) then None else failure) (ta_reflection_output a).

Definition complete_attempt (task_id run_id : string) (outcome : attempt_outcome)
    (failure : option FailureEnvelope) (now_iso : string) (r : task_registry) : task_registry :=
  match od_get task_id (tr_tasks r) with
  | None => r
  | Some entry =>
      if existsb (open_attempt run_id) (te_attempts entry) then
        let updated := map (fun a => if open_attempt run_id a then close_attempt outcome failure now_iso a else a)
                         (te_attempts entry) in
        let state := if decide (outcome = ao_completed) then ts_completed else ts_failed in
        _emit ((if decide (outcome = ao_completed) then task_attempt_completed else task_attempt_failed)
                 task_id run_id outcome)
          (put_runs (od_pop run_id) (put_entry task_id (set_state state (set_attempts updated entry)) r))
      else r
  end.

(** The states [update_state] writes an event for. *)
Definition emitted (st : TaskLifecycleState) : bool :=
  bool_decide (st ∈ [ts_restarting; ts_reflecting; ts_completed; ts_escalated; ts_aborted]).

Definition update_state (task_id : string) (state : TaskLifecycleState) (r : task_registry) : task_registry :=
  match od_get task_id (tr_tasks r) with
  | None => r
  | Some entry =>
      let r' := put_entry task_id (set_state state entry) r in
      if emitted state then _emit (task_state task_id state) r' else r'
  end.

(** The time a heartbeat records: after the last one even when the clock is not. *)
Definition next_beat (entry : task_entry) (now : Z) : Z :=
  match te_last_heartbeat_ms entry with
  | Some last => if (now <=? last)%Z then (last + 1)%Z else now
  | None => now
  end.

Definition heartbeat (task_id : string) (now : Z) (r : task_registry) : task_registry :=
  match od_get task_id (tr_tasks r) with
  | None => r
  | Some entry => put_entry task_id (set_beat (Some (next_beat entry now)) 0 entry) r
  end.

Definition heartbeat_for_run (run_id : string) (now : Z) (r : task_registry) : task_registry :=
  match od_get run_id (tr_run_index r) with
  | None => r
  | Some task_id => heartbeat task_id now r
  end.

Definition get (task_id : string) (r : task_registry) : option TaskDescriptor :=
  te_descriptor <$> od_get task_id (tr_tasks r).

Definition current_run (e : task_entry) : option string :=
  match last (te_attempts e) with
  | Some a => match ta_outcome a with None => Some (ta_run_id a) | Some _ => None end
  | None => None
  end.

Definition monitored (e : task_entry) : bool :=
  bool_decide (te_lifecycle_state e ∈ [ts_running; ts_restarting]).

(** Whether a task is overdue at [now]. *)
Definition overdue (now : Z) (e : task_entry) : bool :=
  match te_last_heartbeat_ms e with
  | Some last => monitored e && (rp_heartbeat_timeout_ms (td_restart_policy (te_descriptor e)) <? now - last)%Z
  | None => false
  end.

Definition health (task_id : string) (e : task_entry) (stalled : bool) : TaskHealthStatus :=
  mkHealth task_id (te_lifecycle_state e) (current_run e) (Z.of_nat (length (te_attempts e)))
    (rp_max_attempts (td_restart_policy (te_descriptor e))) (te_last_heartbeat_ms e)
    (te_consecutive_missed_beats e) stalled.

Definition get_health (task_id : string) (now : Z) (r : task_registry) : option TaskHealthStatus :=
  (fun e => health task_id e (overdue now e)) <$> od_get task_id (tr_tasks r).

Definition get_attempts (task_id : string) (r : task_registry) : list TaskAttempt :=
  match od_get task_id (tr_tasks r) with Some e => te_attempts e | None => [] end.

Definition list_session_tasks (session_id : string) (r : task_registry) : list TaskDescriptor :=
  omap (fun tid => te_descriptor <$> od_get tid (tr_tasks r)) (default [] (od_get session_id (tr_session_index r))).

Definition get_task_id_for_run (run_id : string) (r : task_registry) : option string := od_get run_id (tr_run_index r).

Definition missed (now : Z) (e : task_entry) : task_entry :=
  if overdue now e then set_beat (te_last_heartbeat_ms e) (te_consecutive_missed_beats e + 1) e else e.

Definition get_stalled_tasks (now : Z) (r : task_registry) : list TaskHealthStatus * task_registry :=
  (map (fun kv => health kv.1 (missed now kv.2) true) (filter (fun kv => overdue now kv.2 = true) (tr_tasks r)),
   put_tasks (map (fun kv => (kv.1, missed now kv.2))) r).

(** Recovery *)

Definition replay_event (now : Z) (now_iso : string) (ev : task_event) (r : task_registry) : task_registry :=
  match ev with
  | task_registered task_id session_id kind goal parent deps metadata p =>
      let policy := mkPolicy (pp_max_attempts p) (pp_backoff_base_ms p) 30000 (pp_on_exhausted p)
                      (pp_heartbeat_timeout_ms p) in
      (register (mkDescriptor task_id session_id kind goal parent deps policy metadata) r).2
  | task_attempt_started attempt_id task_id run_id seq started_at =>
      let attempt := mkAttempt attempt_id task_id run_id seq started_at None None None None in
      if existsb (fun a => bool_decide (ta_attempt_id a = attempt_id) ||
                           (bool_decide (ta_run_id a = run_id) && bool_decide (ta_attempt_seq a = seq)))
           (get_attempts task_id r)
      then r else (start_attempt attempt now r).2
  | task_attempt_completed task_id run_id outcome | task_attempt_failed task_id run_id outcome =>
      complete_attempt task_id run_id outcome None now_iso r
  | task_state task_id state => update_state task_id state r
  end.

(** [replay_into_registry]: the number of events replayed, and the registry. *)
Definition replay_into_registry (now : Z) (now_iso : string) (l : task_log) (r : task_registry) : nat * task_registry :=
  (length (tl_events l), foldl (fun r ev => replay_event now now_iso ev r) r (tl_events l)).

(** Calls *)
Inductive task_op :=
  | Register (descriptor : TaskDescriptor)
  | StartAttempt (attempt : TaskAttempt) (now : Z)
  | CompleteAttempt (task_id run_id : string) (outcome : attempt_outcome) (failure : option FailureEnvelope)
      (now_iso : string)
  | UpdateState (task_id : string) (state : TaskLifecycleState)
  | Heartbeat (task_id : string) (now : Z)
  | HeartbeatForRun (run_id : string) (now : Z)
  | GetStalled (now : Z).

Definition exec_op (op : task_op) (r : task_registry) : task_registry :=
  match op with
  | Register d => (register d r).2
  | StartAttempt a now => (start_attempt a now r).2
  | CompleteAttempt t k o f iso => complete_attempt t k o f iso r
  | UpdateState t st => update_state t st r
  | Heartbeat t now => heartbeat t now r
  | HeartbeatForRun k now => heartbeat_for_run k now r
  | GetStalled now => (get_stalled_tasks now r).2
  end.

Definition exec_ops (ops : list task_op) (r : task_registry) : task_registry := foldl (fun r op => exec_op op r) r ops.

(** What the events record of a registry: everything but heartbeats, the end time,
    failure and reflection of attempts, and the backoff cap of policies. *)
Definition strip_descriptor (d : TaskDescriptor) : TaskDescriptor :=
  let p := td_restart_policy d in
  mkDescriptor (td_task_id d) (td_session_id d) (td_task_kind d) (td_goal_description d) (td_parent_task_id d)
    (td_dependency_task_ids d)
    (mkPolicy (rp_max_attempts p) (rp_backoff_base_ms p) 30000 (rp_on_exhausted p) (rp_heartbeat_timeout_ms p))
    (td_metadata d).
Definition strip_attempt (a : TaskAttempt) : TaskAttempt :=
  mkAttempt (ta_attempt_id a) (ta_task_id a) (ta_run_id a) (ta_attempt_seq a) (ta_started_at a) None (ta_outcome a)
    None None.
Definition strip_entry (e : task_entry) : task_entry :=
  mkEntry (strip_descriptor (te_descriptor e)) (te_lifecycle_state e) (map strip_attempt (te_attempts e)) None 0.
Definition strip (r : task_registry) : task_registry :=
  mkRegistry (map (fun kv => (kv.1, strip_entry kv.2)) (tr_tasks r)) (tr_session_index r) (tr_run_index r)
    (tr_max_tasks r) None.

(** Calls the events determine: attempts are new when they start, and a state set
    by [update_state] is one it writes an event for. *)
Definition same_attempt (a b : TaskAttempt) : bool :=
  bool_decide (ta_attempt_id b = ta_attempt_id a) ||
  (bool_decide (ta_run_id b = ta_run_id a) && bool_decide (ta_attempt_seq b = ta_attempt_seq a)).

Definition op_recorded (op : task_op) (r : task_registry) : Prop :=
  match op with
  | StartAttempt a _ => ta_outcome a = None /\ existsb (same_attempt a) (get_attempts (ta_task_id a) r) = false
  | UpdateState _ st => emitted st = true
  | _ => True
  end.

Fixpoint recorded (ops : list task_op) (r : task_registry) : Prop :=
  match ops with
  | [] => True
  | op :: ops' => op_recorded op r /\ recorded ops' (exec_op op r)
  end.

(** The events of a call. *)
Definition emits (op : task_op) (r : task_registry) : list task_event :=
  match op with
  | Register d => if od_mem (td_task_id d) (tr_tasks r) then [] else [registered_event d]
  | StartAttempt a _ =>
      if od_mem (ta_task_id a) (tr_tasks r) then
        [task_attempt_started (ta_attempt_id a) (ta_task_id a) (ta_run_id a) (ta_attempt_seq a) (ta_started_at a)]
      else []
  | CompleteAttempt t k o _ _ =>
      if existsb (open_attempt k) (get_attempts t r) then
        [(if decide (o = ao_completed) then task_attempt_completed else task_attempt_failed) t k o]
      else []
  | UpdateState t st => if od_mem t (tr_tasks r) && emitted st then [task_state t st] else []
  | _ => []
  end.

(** Lemmas *************************************************************************)

(** Dictionaries under a map of their values. *)
Section od_map.
Context {V W : Type} (f : V -> W).
Abbreviation mapv := (map (fun kv : string * V => (kv.1, f kv.2))).

Lemma od_set_mapv k v d : od_set k (f v) (mapv d) = mapv (od_set k v d).
Proof. induction d as [|[k' v'] d IH]; simpl; [done|]. case_decide; simpl; [done|]. by rewrite IH. Qed.

Lemma od_pop_mapv k d : od_pop k (mapv d) = mapv (od_pop k d).
Proof. induction d as [|[k' v'] d IH]; simpl; [done|]. case_decide; simpl; [done|]. by rewrite IH. Qed.

Lemma od_mem_mapv k d : od_mem k (mapv d) = od_mem k d.
Proof. unfold od_mem. rewrite od_get_map. by destruct (od_get k d). Qed.
End od_map.

Lemma strip_attempt_idemp a : strip_attempt (strip_attempt a) = strip_attempt a.
Proof. done. Qed.

Lemma strip_descriptor_idemp d : strip_descriptor (strip_descriptor d) = strip_descriptor d.
Proof. done. Qed.

Lemma strip_entry_idemp e : strip_entry (strip_entry e) = strip_entry e.
Proof. unfold strip_entry. simpl. f_equal. rewrite map_map. by apply map_ext. Qed.

Lemma strip_registry_idemp r : strip (strip r) = strip r.
Proof. unfold strip. simpl. f_equal. rewrite map_map. apply map_ext. intros kv. simpl. by rewrite strip_entry_idemp. Qed.

Lemma strip_get t r : od_get t (tr_tasks (strip r)) = strip_entry <$> od_get t (tr_tasks r).
Proof. apply od_get_map. Qed.

Lemma strip_mem t r : od_mem t (tr_tasks (strip r)) = od_mem t (tr_tasks r).
Proof. apply od_mem_mapv. Qed.

(** Eviction *)
Lemma evict_task_log r tid : tr_log (evict_task r tid) = tr_log r /\ tr_max_tasks (evict_task r tid) = tr_max_tasks r.
Proof. unfold evict_task. by destruct (od_get tid (tr_tasks r)). Qed.

Lemma evict_log r : tr_log (_evict_if_needed r) = tr_log r /\ tr_max_tasks (_evict_if_needed r) = tr_max_tasks r.
Proof.
  unfold _evict_if_needed. destruct (_ <? _); [done|]. generalize (take (1 `max` (length (fst <$> filter (fun kv => evictable kv.2 = true) (tr_tasks r)) / 2))
    (fst <$> filter (fun kv => evictable kv.2 = true) (tr_tasks r))). intros l. revert r.
  induction l as [|t l IH]; intros r; [done|]. simpl. destruct (IH (evict_task r t)) as [-> ->]. apply evict_task_log.
Qed.

Lemma strip_evict_task r tid : strip (evict_task r tid) = evict_task (strip r) tid.
Proof.
  unfold evict_task. rewrite strip_get. destruct (od_get tid (tr_tasks r)) as [e|]; [|done]. simpl.
  unfold strip. simpl. by rewrite od_pop_mapv.
Qed.

Lemma strip_terminal r :
  fst <$> filter (fun kv => evictable kv.2 = true) (tr_tasks (strip r)) =
  fst <$> filter (fun kv => evictable kv.2 = true) (tr_tasks r).
Proof.
  unfold strip. cbn [tr_tasks]. induction (tr_tasks r) as [|[k e] d IH]; [done|]. cbn [map fst snd].
  rewrite !filter_cons. cbn [fst snd]. change (evictable (strip_entry e)) with (evictable e).
  case_decide; [|exact IH]. by rewrite !fmap_cons, IH.
Qed.

Lemma strip_length r : length (tr_tasks (strip r)) = length (tr_tasks r).
Proof. apply length_map. Qed.

Lemma strip_evict r : strip (_evict_if_needed r) = _evict_if_needed (strip r).
Proof.
  unfold _evict_if_needed. rewrite strip_terminal, strip_length. change (tr_max_tasks (strip r)) with (tr_max_tasks r).
  destruct (_ <? _); [done|].
  generalize (take (1 `max` (length (fst <$> filter (fun kv => evictable kv.2 = true) (tr_tasks r)) / 2))
    (fst <$> filter (fun kv => evictable kv.2 = true) (tr_tasks r))). intros l. revert r.
  induction l as [|t l IH]; intros r; [done|]. simpl. by rewrite IH, strip_evict_task.
Qed.

(** The log grows by the events of a call. *)
Definition append_events (es : list task_event) (l : task_log) : task_log := foldl (fun l e => append_task_event e l) l es.

Lemma exec_log op r : tr_log (exec_op op r) = append_events (emits op r) <$> tr_log r.
Proof.
  assert (forall o : option task_log, o = append_events [] <$> o) as Hid by (by intros []).
  destruct op as [d|a now|t k o f iso|t st|t now|k now|now]; simpl.
  - unfold register. py_simpl. destruct (od_mem _ _); [apply Hid|]. unfold add_task. simpl.
    rewrite (proj1 (evict_log r)). done.
  - unfold start_attempt, od_mem. py_simpl. destruct (od_get _ _); [done|apply Hid].
  - unfold complete_attempt, get_attempts. destruct (od_get t _) as [e|]; [|apply Hid].
    by destruct (existsb _ _); [|apply Hid].
  - unfold update_state, od_mem. destruct (od_get t _); [|apply Hid]. by destruct (emitted st); [|apply Hid].
  - unfold heartbeat. destruct (od_get t _); apply Hid.
  - unfold heartbeat_for_run, heartbeat. destruct (od_get k _); [|apply Hid]. destruct (od_get _ _); apply Hid.
  - apply Hid.
Qed.

Lemma append_events_room es l : length (tl_events l) + length es <= tl_max_events l ->
  append_events es l = mkTaskLog (tl_events l ++ es) (tl_max_events l).
Proof.
  revert l. induction es as [|e es IH]; intros [evs n]; simpl; [by rewrite app_nil_r|].
  intros Hlen. rewrite IH; unfold append_task_event; simpl.
  - destruct (Nat.leb_spec n (length evs)); [lia|]. by rewrite <-app_assoc.
  - destruct (Nat.leb_spec n (length evs)); [lia|]. rewrite length_app. simpl. lia.
Qed.

Lemma emits_le op r : length (emits op r) <= 1.
Proof. destruct op; simpl; repeat case_match; simpl; lia. Qed.

(** Every call acts on what the events record in the same way. *)
Lemma strip_put_entry t e r : strip (put_entry t e r) = put_entry t (strip_entry e) (strip r).
Proof. unfold strip, put_entry, put_tasks. simpl. by rewrite od_set_mapv. Qed.

Lemma strip_put_runs f r : strip (put_runs f r) = put_runs f (strip r).
Proof. done. Qed.

Lemma strip_emit e r : strip (_emit e r) = strip r.
Proof. done. Qed.

Lemma strip_tasks_idemp r : map (fun kv => (kv.1, strip_entry kv.2)) (tr_tasks (strip r)) = tr_tasks (strip r).
Proof. exact (f_equal tr_tasks (strip_registry_idemp r)). Qed.

Lemma strip_add d r : strip (add_task d r) = strip (add_task (strip_descriptor d) (strip r)).
Proof.
  unfold add_task. rewrite <-strip_evict. rewrite !strip_emit. set (r1 := _evict_if_needed r).
  unfold strip at 1 2. cbn [tr_tasks tr_session_index tr_run_index tr_max_tasks].
  rewrite <-!od_set_mapv, strip_tasks_idemp. done.
Qed.

(** A closed attempt keeps its identity, an open one stays open. *)
Lemma strip_open k a : open_attempt k (strip_attempt a) = open_attempt k a.
Proof. done. Qed.

Lemma strip_existsb (p : TaskAttempt -> bool) l : (forall a, p (strip_attempt a) = p a) ->
  existsb p (map strip_attempt l) = existsb p l.
Proof. intros Hp. induction l as [|a l IH]; simpl; [done|]. by rewrite Hp, IH. Qed.

Lemma strip_attempts t r : get_attempts t (strip r) = map strip_attempt (get_attempts t r).
Proof. unfold get_attempts. rewrite strip_get. by destruct (od_get t (tr_tasks r)). Qed.

Lemma strip_start a now r : strip (start_attempt a now r).2 = strip (start_attempt (strip_attempt a) now (strip r)).2.
Proof.
  unfold start_attempt. py_simpl. rewrite (od_get_map strip_entry). destruct (od_get _ _) as [e|]; simpl; [|by rewrite strip_registry_idemp].
  unfold strip, put_entry, put_tasks, put_runs, _emit. simpl. rewrite <-!od_set_mapv. f_equal. f_equal.
  - unfold strip_entry. simpl. by rewrite !map_app, map_map.
  - rewrite map_map. apply map_ext. intros [k x]. simpl. by rewrite strip_entry_idemp.
Qed.

Lemma strip_complete t k o f f' iso iso' r :
  strip (complete_attempt t k o f iso r) = strip (complete_attempt t k o f' iso' (strip r)).
Proof.
  unfold complete_attempt. rewrite strip_get. destruct (od_get t _) as [e|]; simpl; [|by rewrite strip_registry_idemp].
  rewrite strip_existsb by done. destruct (existsb _ _); [|by rewrite strip_registry_idemp].
  rewrite !strip_emit. unfold strip, put_entry, put_tasks, put_runs. simpl. rewrite <-!od_set_mapv. f_equal. f_equal.
  - unfold strip_entry. simpl. rewrite !map_map. f_equal. apply map_ext. intros a.
    rewrite strip_open. by destruct (open_attempt k a).
  - rewrite map_map. apply map_ext. intros [k' x]. simpl. by rewrite strip_entry_idemp.
Qed.

Lemma strip_update t st r : strip (update_state t st r) = strip (update_state t st (strip r)).
Proof.
  unfold update_state. rewrite strip_get. destruct (od_get t _) as [e|]; simpl; [|by rewrite strip_registry_idemp].
  assert (strip (put_entry t (set_state st e) r) = strip (put_entry t (set_state st (strip_entry e)) (strip r))) as Heq.
  { rewrite !strip_put_entry, strip_registry_idemp. f_equal. unfold strip_entry. simpl. by rewrite map_map. }
  by destruct (emitted st).
Qed.

Lemma strip_beat t e b m r : od_get t (tr_tasks r) = Some e -> strip (put_entry t (set_beat b m e) r) = strip r.
Proof.
  intros He. rewrite strip_put_entry. unfold put_entry, put_tasks, strip. simpl. f_equal.
  rewrite od_set_mapv. assert (forall d : odict string task_entry, od_get t d = Some e ->
    map (fun kv => (kv.1, strip_entry kv.2)) (od_set t (set_beat b m e) d) = map (fun kv => (kv.1, strip_entry kv.2)) d) as H.
  { clear. induction d as [|[k x] d IH]; simpl; [done|]. case_decide; intros Hg; simpl; [by simplify_eq|by rewrite IH]. }
  by apply H.
Qed.

Abbreviation replay now iso := (foldl (fun r ev => replay_event now iso ev r)).

Lemma existsb_ext {A} (p q : A -> bool) l : (forall a, p a = q a) -> existsb p l = existsb q l.
Proof. intros H. induction l as [|a l IH]; simpl; [done|]. by rewrite H, IH. Qed.

(** Replaying the events of a call does what the call did, on registries that agree
    on what events record. *)
Lemma replay_call op r r' now iso : strip r = strip r' -> op_recorded op r ->
  strip (exec_op op r) = strip (replay now iso r' (emits op r)).
Proof.
  intros Heq Hop. assert (forall t, od_mem t (tr_tasks r) = od_mem t (tr_tasks r')) as Hmem.
  { intros t. by rewrite <-(strip_mem t r), Heq, strip_mem. }
  destruct op as [d|a now'|t k o f iso'|t st|t now'|k now'|now']; simpl.
  - unfold register. py_simpl. destruct (od_mem (td_task_id d) (tr_tasks r)) eqn:Hm; [done|]. simpl. unfold register.
    py_simpl. rewrite <-Hmem, Hm. simpl. rewrite strip_add, Heq. symmetry. by rewrite strip_add.
  - destruct Hop as [Ho Hnew]. destruct (od_mem _ _) eqn:Hm; simpl.
    + assert (existsb (fun b => bool_decide (ta_attempt_id b = ta_attempt_id a) ||
        (bool_decide (ta_run_id b = ta_run_id a) && bool_decide (ta_attempt_seq b = ta_attempt_seq a)))
        (get_attempts (ta_task_id a) r') = false) as ->.
      { rewrite <-Hnew. fold (same_attempt a). rewrite <-(strip_existsb (same_attempt a)) by done.
        rewrite <-(strip_existsb (same_attempt a) (get_attempts _ r)) by done. by rewrite <-!strip_attempts, Heq. }
      rewrite (strip_start a now' r), Heq. symmetry. rewrite (strip_start _ now r'). destruct a as [? ? ? ? ? ? o ? ?].
      simpl in Ho. subst o. unfold start_attempt, strip_attempt. py_simpl.
      destruct (od_get _ (map _ _)) as [e|]; [|done]. cbn [snd]. by rewrite !strip_emit, !strip_put_runs, !strip_put_entry.
    + unfold start_attempt. py_simpl. unfold od_mem in Hm. by destruct (od_get _ _).
  - assert (existsb (open_attempt k) (get_attempts t r) = existsb (open_attempt k) (get_attempts t r')) as He.
    { rewrite <-(strip_existsb (open_attempt k)) by done.
      rewrite <-(strip_existsb (open_attempt k) (get_attempts t r')) by done. by rewrite <-!strip_attempts, Heq. }
    destruct (existsb _ (get_attempts t r)) eqn:Hx.
    + assert (strip (complete_attempt t k o f iso' r) = strip (complete_attempt t k o None iso r')) as Hc.
      { rewrite (strip_complete t k o f None iso' iso r), Heq. symmetry. apply strip_complete. }
      by destruct (decide (o = ao_completed)).
    + unfold complete_attempt. unfold get_attempts in Hx. destruct (od_get t (tr_tasks r)) as [e|]; [|done]. by rewrite Hx.
  - simpl in Hop. rewrite Hop, andb_true_r. destruct (od_mem t (tr_tasks r)) eqn:Hm; simpl.
    + rewrite strip_update, Heq. symmetry. apply strip_update.
    + unfold update_state. unfold od_mem in Hm. by destruct (od_get t (tr_tasks r)).
  - unfold heartbeat. destruct (od_get t (tr_tasks r)) as [e|] eqn:He; [|done]. by rewrite (strip_beat _ e).
  - unfold heartbeat_for_run, heartbeat. destruct (od_get k (tr_run_index r)) as [t|]; [|done].
    destruct (od_get t (tr_tasks r)) as [e|] eqn:He; [|done]. by rewrite (strip_beat _ e).
  - rewrite <-Heq. unfold strip, put_tasks. simpl. f_equal. rewrite map_map. apply map_ext. intros [t e]. simpl. f_equal.
    unfold missed. by destruct (overdue now' e).
Qed.

(** The registry rebuilt from the events agrees with the one that wrote them. *)
Lemma replay_calls ops : forall r r' evs N now iso, tr_log r = Some (mkTaskLog evs N) ->
  length evs + length ops <= N -> strip r = strip (replay now iso r' evs) -> recorded ops r ->
  exists evs', tr_log (exec_ops ops r) = Some (mkTaskLog evs' N) /\ strip (exec_ops ops r) = strip (replay now iso r' evs').
Proof.
  induction ops as [|op ops IH]; intros r r' evs N now iso Hlog Hlen Heq Hok; [by exists evs|].
  destruct Hok as [Hop Hok]. simpl in Hlen. pose proof (emits_le op r) as He.
  apply (IH (exec_op op r) r' (evs ++ emits op r) N now iso).
  - rewrite exec_log, Hlog. simpl. rewrite append_events_room; [done|simpl; lia].
  - rewrite length_app. lia.
  - rewrite foldl_app. by apply replay_call.
  - done.
Qed.

(** Sessions ***********************************************************************)

(** The index of a session lists its tasks in the order of the registry. *)
Definition session_ids (sid : string) (tasks : odict string task_entry) : list string :=
  fst <$> filter (fun kv => td_session_id (te_descriptor kv.2) = sid) tasks.

Record registry_wf (r : task_registry) : Prop := {
  rw_tasks : od_wf (tr_tasks r);
  rw_ids : Forall (fun kv => td_task_id (te_descriptor kv.2) = kv.1) (tr_tasks r);
  rw_attempts : Forall (fun kv => Forall (fun a => ta_task_id a = kv.1) (te_attempts kv.2)) (tr_tasks r);
  rw_sessions : forall sid, default [] (od_get sid (tr_session_index r)) = session_ids sid (tr_tasks r)
}.

(** Changing an entry but not its descriptor. *)
Lemma session_ids_set sid t e e' d : od_get t d = Some e -> te_descriptor e' = te_descriptor e ->
  session_ids sid (od_set t e' d) = session_ids sid d.
Proof.
  intros He Hd. unfold session_ids. revert He. induction d as [|[k x] d IH]; [done|]. simpl. case_decide as Hk.
  - intros [= ->]. rewrite !filter_cons. simpl. rewrite Hd. by case_decide; simplify_eq/=.
  - intros He. rewrite !filter_cons. simpl. case_decide; [|by apply IH]. rewrite !fmap_cons. f_equal. by apply IH.
Qed.

Lemma Forall_set {V} (P : string * V -> Prop) k v d : Forall P d -> P (k, v) -> Forall P (od_set k v d).
Proof.
  intros Hd Hv. induction Hd as [|[k' v'] d Hx Hd IH]; simpl; [by repeat constructor|].
  case_decide; constructor; try done.
Qed.

Lemma put_entry_wf t e e' r : registry_wf r -> od_get t (tr_tasks r) = Some e -> te_descriptor e' = te_descriptor e ->
  Forall (fun a => ta_task_id a = t) (te_attempts e') -> registry_wf (put_entry t e' r).
Proof.
  intros [Hw Hi Ha Hs] He Hd Hatt. pose proof (od_get_Some _ _ _ He) as Hin. rewrite Forall_forall in Hi.
  pose proof (Hi _ Hin) as Hid. rewrite <-Forall_forall in Hi. split; simpl.
  - by apply od_wf_set.
  - apply Forall_set; [done|]. simpl in *. by rewrite Hd.
  - by apply Forall_set.
  - intros sid. rewrite Hs. symmetry. by eapply session_ids_set.
Qed.

Lemma put_runs_wf f r : registry_wf r -> registry_wf (put_runs f r).
Proof. intros []. by split. Qed.

Lemma emit_wf ev r : registry_wf r -> registry_wf (_emit ev r).
Proof. intros []. by split. Qed.

Lemma od_pop_Forall {V} (P : string * V -> Prop) k d : Forall P d -> Forall P (od_pop k d).
Proof. intros Hd. induction Hd as [|[k' v] d Hx Hd IH]; simpl; [done|]. by case_decide; [|constructor]. Qed.

Lemma session_ids_elem sid t d : t ∈ session_ids sid d -> t ∈ od_keys d.
Proof. intros (kv & -> & [_ Hin]%list_elem_of_filter)%list_elem_of_fmap. by apply list_elem_of_fmap_2. Qed.

Lemma session_ids_pop sid t d : od_wf d ->
  session_ids sid (od_pop t d) = filter (fun x => x <> t) (session_ids sid d).
Proof.
  unfold session_ids. induction d as [|[k e] d IH]; [done|]. intros [Hn Hwf]%NoDup_cons. cbn [od_pop].
  assert (k = t -> filter (fun x => x <> t) (session_ids sid d) = session_ids sid d) as Hall.
  { intros ->. apply filter_all. intros x Hx ->. by apply Hn, (session_ids_elem sid). }
  unfold session_ids in Hall. destruct (decide (t = k)) as [->|Hk].
  - rewrite filter_cons. cbn [fst snd]. case_decide; [|by rewrite Hall].
    rewrite fmap_cons, filter_cons. cbn [fst snd]. rewrite (decide_False (P := k <> k)) by (intros []; done). by rewrite Hall.
  - rewrite !filter_cons. cbn [fst snd]. case_decide; [|by apply IH].
    rewrite !fmap_cons, filter_cons. cbn [fst snd]. rewrite decide_True by congruence. f_equal. by apply IH.
Qed.

(** Eviction takes a task out of the registry and of its session. *)
Lemma evict_task_wf r t : registry_wf r -> registry_wf (evict_task r t).
Proof.
  intros [Hw Hi Ha Hs]. unfold evict_task. destruct (od_get t (tr_tasks r)) as [e|] eqn:He; [|by split].
  split; simpl; [by apply od_wf_pop|by apply od_pop_Forall|by apply od_pop_Forall|]. intros sid.
  rewrite session_ids_pop, <-Hs by done. set (s := td_session_id (te_descriptor e)).
  destruct (decide (s = sid)) as [<-|Hne].
  - destruct (od_get s (tr_session_index r)) as [ids|] eqn:Hg; [by rewrite od_get_set_eq|by rewrite Hg].
  - assert (filter (fun x => x <> t) (default [] (od_get sid (tr_session_index r))) = default [] (od_get sid (tr_session_index r))) as ->.
    { apply filter_all. intros x Hx ->. rewrite Hs in Hx.
      apply list_elem_of_fmap in Hx as ([k e'] & Hk & [Hsid Hin]%list_elem_of_filter). simpl in *. subst k.
      pose proof (od_get_elem _ _ _ Hw Hin). unfold s in Hne. congruence. }
    destruct (od_get s (tr_session_index r)) as [ids|]; [by rewrite od_get_set_ne|done].
Qed.

Lemma evict_if_needed_wf r : registry_wf r -> registry_wf (_evict_if_needed r).
Proof.
  unfold _evict_if_needed. destruct (_ <? _); [done|].
  generalize (take (1 `max` (length (fst <$> filter (fun kv => evictable kv.2 = true) (tr_tasks r)) / 2))
    (fst <$> filter (fun kv => evictable kv.2 = true) (tr_tasks r))). intros l. revert r.
  induction l as [|t l IH]; intros r Hr; [done|]. by apply IH, evict_task_wf.
Qed.

Lemma evict_task_mem r t x : od_mem x (tr_tasks r) = false -> od_mem x (tr_tasks (evict_task r t)) = false.
Proof.
  unfold evict_task, od_mem. destruct (od_get t (tr_tasks r)); [|done]. simpl. intros Hx.
  destruct (od_get x (tr_tasks r)) eqn:Hg; [done|]. destruct (od_get x (od_pop t _)) eqn:Hp; [|done].
  assert (x ∈ od_keys (tr_tasks r)) as Hin. { apply (od_keys_pop_sub t). apply od_get_is_Some. by rewrite Hp. }
  apply od_get_None in Hg. done.
Qed.

Lemma evict_mem r x : od_mem x (tr_tasks r) = false -> od_mem x (tr_tasks (_evict_if_needed r)) = false.
Proof.
  unfold _evict_if_needed. destruct (_ <? _); [done|].
  generalize (take (1 `max` (length (fst <$> filter (fun kv => evictable kv.2 = true) (tr_tasks r)) / 2))
    (fst <$> filter (fun kv => evictable kv.2 = true) (tr_tasks r))). intros l. revert r.
  induction l as [|t l IH]; intros r Hr; [done|]. by apply IH, evict_task_mem.
Qed.

Lemma add_task_wf d r : registry_wf r -> od_mem (td_task_id d) (tr_tasks r) = false -> registry_wf (add_task d r).
Proof.
  intros Hr Hm. apply (evict_mem r) in Hm. pose proof (evict_if_needed_wf r Hr) as Hw. unfold add_task. apply emit_wf.
  set (r1 := _evict_if_needed r) in *. destruct Hw as [Hw Hi Ha Hs].
  assert (td_task_id d ∉ od_keys (tr_tasks r1)) as Hk.
  { apply od_get_None. unfold od_mem in Hm. by destruct (od_get _ _). }
  split; simpl.
  - by apply od_wf_set.
  - by apply Forall_set.
  - by apply Forall_set.
  - intros sid. rewrite (od_set_new _ _ (tr_tasks r1)) by done. unfold session_ids. rewrite filter_app, fmap_app, filter_cons.
    simpl. case_decide as Hsid.
    + subst sid. rewrite od_get_set_eq. simpl. rewrite Hs. done.
    + rewrite od_get_set_ne by done. rewrite Hs, app_nil_r. done.
Qed.

Lemma get_attempts_task r t e : registry_wf r -> od_get t (tr_tasks r) = Some e -> Forall (fun a => ta_task_id a = t) (te_attempts e).
Proof. intros Hr He. pose proof (rw_attempts _ Hr) as Ha. rewrite Forall_forall in Ha. apply (Ha (t, e)). by apply od_get_Some. Qed.

Lemma exec_op_wf op r : registry_wf r -> registry_wf (exec_op op r).
Proof.
  intros Hr. destruct op as [d|a now'|t k o f iso'|t st|t now'|k now'|now']; simpl.
  - unfold register. py_simpl. destruct (od_mem _ _) eqn:Hm; [done|]. by apply add_task_wf.
  - unfold start_attempt. py_simpl. destruct (od_get _ _) as [e|] eqn:He; [|done]. apply emit_wf, put_runs_wf.
    eapply put_entry_wf; [done|done|done|]. simpl. apply Forall_app. split; [by eapply get_attempts_task|by apply Forall_singleton].
  - unfold complete_attempt. destruct (od_get t _) as [e|] eqn:He; [|done]. destruct (existsb _ _); [|done].
    apply emit_wf, put_runs_wf. eapply put_entry_wf; [done|done|done|]. simpl. apply Forall_map.
    pose proof (get_attempts_task r t e Hr He) as Ha. eapply Forall_impl; [exact Ha|]. intros a. simpl. by case_match.
  - unfold update_state. destruct (od_get t _) as [e|] eqn:He; [|done].
    assert (registry_wf (put_entry t (set_state st e) r)) as Hw.
    { eapply put_entry_wf; [done|done|done|]. exact (get_attempts_task r t e Hr He). }
    destruct (emitted st); [by apply emit_wf|done].
  - unfold heartbeat. destruct (od_get t _) as [e|] eqn:He; [|done].
    eapply put_entry_wf; [done|done|done|]. exact (get_attempts_task r t e Hr He).
  - unfold heartbeat_for_run, heartbeat. destruct (od_get k _) as [t|]; [|done].
    destruct (od_get t _) as [e|] eqn:He; [|done]. eapply put_entry_wf; [done|done|done|]. exact (get_attempts_task r t e Hr He).
  - destruct Hr as [Hw Hi Ha Hs].
    assert (forall e, te_descriptor (missed now' e) = te_descriptor e /\ te_attempts (missed now' e) = te_attempts e) as Hmiss.
    { intros e. unfold missed. by destruct (overdue now' e). }
    split; simpl.
    + by apply od_wf_map.
    + apply Forall_map. eapply Forall_impl; [exact Hi|]. intros [k e]. simpl. by destruct (Hmiss e) as [-> _].
    + apply Forall_map. eapply Forall_impl; [exact Ha|]. intros [k e]. simpl. by destruct (Hmiss e) as [_ ->].
    + intros sid. rewrite Hs. unfold session_ids. clear -Hmiss. induction (tr_tasks r) as [|[k e] d IH]; [done|].
      cbn [map fst snd]. rewrite !filter_cons. cbn [fst snd]. destruct (Hmiss e) as [-> _]. case_decide; [|exact IH].
      rewrite !fmap_cons. f_equal. exact IH.
Qed.
