(* ===== verification/TaskRegistrySpec.v ===== *)
(** * What the task registry promises

    The tasks survive until they are over, the session index lists the tasks of the
    registry, and replaying the event log rebuilds the registry.  Each theorem is
    stated over arbitrary sequences of calls ([exec_ops]). *)

From stdpp Require Import base tactics option list strings.
From Stdlib Require Import ZArith.
From S2P Require Import Prelude PyStr PyDict PyVal Contracts TaskRegistry.
#[local] Arguments String.append : simpl nomatch.

Lemma exec_ops_wf ops : forall r, registry_wf r -> registry_wf (exec_ops ops r).
Proof. induction ops as [|op ops IH]; intros r Hr; [done|]. by apply IH, exec_op_wf. Qed.

Lemma empty_registry_wf max_tasks log : registry_wf (empty_registry max_tasks log).
Proof. split; simpl; [apply od_wf_nil|by apply Forall_nil|by apply Forall_nil|done]. Qed.

(** Eviction removes tasks that are over, and no others. *)
Lemma evict_task_other r tid t : t <> tid -> od_get t (tr_tasks (evict_task r tid)) = od_get t (tr_tasks r).
Proof. intros Ht. unfold evict_task. destruct (od_get tid (tr_tasks r)); [|done]. by apply od_get_pop_ne. Qed.

Lemma evict_keeps r t e : od_wf (tr_tasks r) -> od_get t (tr_tasks r) = Some e -> evictable e = false ->
  od_get t (tr_tasks (_evict_if_needed r)) = Some e.
Proof.
  intros Hwf He Hev. unfold _evict_if_needed. destruct (_ <? _); [done|].
  set (terminal := fst <$> filter (fun kv => evictable kv.2 = true) (tr_tasks r)).
  assert (t ∉ take (1 `max` (length terminal / 2)) terminal) as Hnot.
  { intros ([k x] & Hk & [Hx Hin]%list_elem_of_filter)%(subseteq_take _ terminal)%list_elem_of_fmap. simpl in *. subst.
    apply od_get_elem in Hin; [|done]. congruence. }
  revert Hnot. generalize (take (1 `max` (length terminal / 2)) terminal). intros l. clear terminal Hwf. revert r He.
  induction l as [|tid l IH]; intros r He Hnot; [done|]. apply not_elem_of_cons in Hnot as [Ht Hl]. simpl.
  apply IH; [|done]. by rewrite evict_task_other.
Qed.

(** What a call may do to an attempt: close it while it is open. *)
Definition attempt_step (a a' : TaskAttempt) : Prop :=
  a' = a \/ (ta_outcome a = None /\ exists o f now_iso, a' = close_attempt o f now_iso a).

(** What a call may do to an entry: its task is the same, its history only grows. *)
Definition entry_step (e e' : task_entry) : Prop :=
  te_descriptor e' = te_descriptor e /\
  exists old new, te_attempts e' = old ++ new /\ Forall2 attempt_step (te_attempts e) old.

Lemma attempts_refl l : Forall2 attempt_step l l.
Proof. induction l; constructor; [by left|done]. Qed.

Lemma entry_step_same e e' : te_descriptor e' = te_descriptor e -> te_attempts e' = te_attempts e -> entry_step e e'.
Proof. intros Hd Ha. split; [done|]. exists (te_attempts e), []. rewrite app_nil_r. split; [done|apply attempts_refl]. Qed.

Lemma put_keeps t0 e0 e0' r t e : od_get t0 (tr_tasks r) = Some e0 -> entry_step e0 e0' ->
  od_get t (tr_tasks r) = Some e -> exists e', od_get t (tr_tasks (put_entry t0 e0' r)) = Some e' /\ entry_step e e'.
Proof.
  intros He0 Hstep He. destruct (decide (t0 = t)) as [->|Hne].
  - rewrite He0 in He. injection He as ->. exists e0'. split; [apply od_get_set_eq|done].
  - exists e. split; [|by apply entry_step_same]. simpl. by rewrite od_get_set_ne.
Qed.

Lemma close_step k o f iso l :
  Forall2 attempt_step l (map (fun a => if open_attempt k a then close_attempt o f iso a else a) l).
Proof.
  induction l as [|a l IH]; simpl; constructor; [|done]. destruct (open_attempt k a) eqn:Ho; [right|by left].
  unfold open_attempt in Ho. apply andb_true_iff in Ho as [_ Ho%bool_decide_eq_true]. eauto.
Qed.

Lemma op_keeps op r t e : registry_wf r -> od_get t (tr_tasks r) = Some e ->
  (evictable e = true -> forall d, op <> Register d) ->
  exists e', od_get t (tr_tasks (exec_op op r)) = Some e' /\ entry_step e e'.
Proof.
  intros Hr He Hop. assert (exists e', od_get t (tr_tasks r) = Some e' /\ entry_step e e') as Hid
    by (exists e; split; [done|by apply entry_step_same]).
  assert (forall t0 e0 b m, od_get t0 (tr_tasks r) = Some e0 ->
    exists e', od_get t (tr_tasks (put_entry t0 (set_beat b m e0) r)) = Some e' /\ entry_step e e') as Hbeat.
  { intros t0 e0 b m He0. apply (put_keeps t0 e0); [done| |done]. by apply entry_step_same. }
  destruct op as [d|a now|t0 k o f iso|t0 st|t0 now|k now|now]; simpl.
  - unfold register. py_simpl. destruct (od_mem (td_task_id d) (tr_tasks r)) eqn:Hm; [done|].
    exists e. split; [|by apply entry_step_same]. simpl. rewrite od_get_set_ne.
    + apply evict_keeps; [apply Hr|done|]. destruct (evictable e) eqn:Hev; [|done]. by destruct (Hop eq_refl d).
    + intros Heq. unfold od_mem in Hm. by rewrite Heq, He in Hm.
  - unfold start_attempt. py_simpl. destruct (od_get (ta_task_id a) (tr_tasks r)) as [e0|] eqn:He0; [|done]. simpl.
    refine (put_keeps (ta_task_id a) e0 _ r t e He0 _ He). split; [done|]. simpl. eexists _, _.
    split; [done|apply attempts_refl].
  - unfold complete_attempt. destruct (od_get t0 (tr_tasks r)) as [e0|] eqn:He0; [|done].
    destruct (existsb _ _); [|done]. refine (put_keeps t0 e0 _ r t e He0 _ He). split; [done|]. simpl. eexists _, [].
    rewrite app_nil_r. split; [done|apply close_step].
  - unfold update_state. destruct (od_get t0 (tr_tasks r)) as [e0|] eqn:He0; [|done].
    assert (exists e', od_get t (tr_tasks (put_entry t0 (set_state st e0) r)) = Some e' /\ entry_step e e') as Hput.
    { refine (put_keeps t0 e0 _ r t e He0 _ He). by apply entry_step_same. }
    by destruct (emitted st).
  - unfold heartbeat. destruct (od_get t0 (tr_tasks r)) as [e0|] eqn:He0; [by apply Hbeat|done].
  - unfold heartbeat_for_run, heartbeat. destruct (od_get k (tr_run_index r)) as [t0|]; [|done].
    destruct (od_get t0 (tr_tasks r)) as [e0|] eqn:He0; [by apply Hbeat|done].
  - exists (missed now e). split; [|by unfold missed; destruct (overdue now e); apply entry_step_same].
    rewrite od_get_map. by rewrite He.
Qed.

(** A task is never lost before it is over.  In every reachable registry, a
    registered task is kept by every call with the same descriptor, except that
    registering another task may evict it once it is completed, aborted or
    escalated.  Its history of attempts only grows, and a call changes an attempt
    of it only by closing it while it is open. *)
Theorem active_task_kept (ops : list task_op) (max_tasks : nat) (log : option task_log) (op : task_op) (t : string)
    (e : task_entry) :
  let r := exec_ops ops (empty_registry max_tasks log) in
  od_get t (tr_tasks r) = Some e ->
  (te_lifecycle_state e ∈ [ts_completed; ts_aborted; ts_escalated] -> forall d, op <> Register d) ->
  exists e', od_get t (tr_tasks (exec_op op r)) = Some e' /\ entry_step e e'.
Proof.
  intros r He Hop. apply op_keeps; [apply exec_ops_wf, empty_registry_wf|done|].
  intros Hev%bool_decide_eq_true. by apply Hop.
Qed.

(** The registry keeps its tasks and their sessions consistent.  In every
    reachable registry task ids are unique and each is the id of its descriptor,
    every attempt belongs to the task it is recorded under, and
    [list_session_tasks] answers exactly the descriptors of the registered tasks of
    the session, in the order of registration. *)
Theorem session_tasks (ops : list task_op) (max_tasks : nat) (log : option task_log) (sid : string) :
  let r := exec_ops ops (empty_registry max_tasks log) in
  NoDup (od_keys (tr_tasks r)) /\
  (forall t e, od_get t (tr_tasks r) = Some e ->
    td_task_id (te_descriptor e) = t /\ Forall (fun a => ta_task_id a = t) (te_attempts e)) /\
  list_session_tasks sid r = filter (fun d => td_session_id d = sid) (te_descriptor ∘ snd <$> tr_tasks r).
Proof.
  intros r. assert (registry_wf r) as [Hw Hi Ha Hs] by apply exec_ops_wf, empty_registry_wf. split; [done|]. split.
  - intros t e He%od_get_Some. rewrite Forall_forall in Hi, Ha. by split; [apply (Hi _ He)|apply (Ha _ He)].
  - unfold list_session_tasks. rewrite Hs. unfold session_ids.
    assert (forall l : list (string * task_entry), (forall k x, (k, x) ∈ l -> od_get k (tr_tasks r) = Some x) ->
      omap (fun tid => te_descriptor <$> od_get tid (tr_tasks r))
        (fst <$> filter (fun kv => td_session_id (te_descriptor kv.2) = sid) l) =
      filter (fun d => td_session_id d = sid) (te_descriptor ∘ snd <$> l)) as Hl.
    { induction l as [|[k x] l IH]; intros Hin; [done|]. rewrite fmap_cons, !filter_cons. cbn [fst snd compose].
      case_decide; (try rewrite fmap_cons; simpl).
      - rewrite (Hin k x) by left. simpl. f_equal. apply IH. intros k' x' Hk. apply Hin. by right.
      - apply IH. intros k' x' Hk. apply Hin. by right. }
    apply Hl. intros k x Hin. by apply od_get_elem.
Qed.

(** C18: Recovery rebuilds the registry, as far as the events record it.  After calls that
    are no more than the event log holds, that start only attempts which are new and
    that set states only to those the registry writes events for, replaying the log into a fresh registry gives the same
    tasks in the same order with the same states and attempts, the same sessions
    and the same running attempts, all compared without what the events do not record: heartbeats,
    the end time, failure and reflection of attempts and the cap of the backoff. *)
Theorem replay_restores (ops : list task_op) (max_tasks N : nat) (log' : option task_log) (now : Z) (now_iso : string) :
  let r := exec_ops ops (empty_registry max_tasks (Some (mkTaskLog [] N))) in
  length ops <= N ->
  recorded ops (empty_registry max_tasks (Some (mkTaskLog [] N))) ->
  exists l, tr_log r = Some l /\
    strip (replay_into_registry now now_iso l (empty_registry max_tasks log')).2 = strip r.
Proof.
  intros r Hlen Hok.
  destruct (replay_calls ops (empty_registry max_tasks (Some (mkTaskLog [] N))) (empty_registry max_tasks log') [] N now
              now_iso eq_refl Hlen eq_refl Hok) as (evs & Hlog & Hstrip).
  exists (mkTaskLog evs N). by split.
Qed.

(** Witnesses. *)
Definition sample_policy : TaskRestartPolicy := mkPolicy 3 1000 5000 ex_escalate 60000.
Definition sample_task (t : string) : TaskDescriptor := mkDescriptor t "s1" tk_plan_step "goal" None [] sample_policy [].
Definition sample_ops : list task_op :=
  [Register (sample_task "t1"); Register (sample_task "t2");
   StartAttempt (mkAttempt "a1" "t1" "r1" 1 "2024" None None None None) 5; HeartbeatForRun "r1" 9;
   CompleteAttempt "t1" "r1" ao_failed None "2025"; UpdateState "t1" ts_restarting; GetStalled 100000;
   StartAttempt (mkAttempt "a2" "t1" "r2" 2 "2026" None None None None) 20].

Lemma active_task_kept_witness :
  let r := exec_ops sample_ops (empty_registry 2 None) in
  (te_lifecycle_state <$> od_get "t1" (tr_tasks r)) = Some ts_running /\
  exists e e', od_get "t1" (tr_tasks r) = Some e /\
    od_get "t1" (tr_tasks (exec_op (Register (sample_task "t3")) r)) = Some e' /\ entry_step e e'.
Proof.
  set (r := exec_ops sample_ops (empty_registry 2 None)). split; [vm_compute; reflexivity|].
  set (e := default (mkEntry (sample_task "t1") ts_pending [] None 0) (od_get "t1" (tr_tasks r))).
  destruct (active_task_kept sample_ops 2 None (Register (sample_task "t3")) "t1" e) as (e' & He' & Hs).
  - vm_compute. reflexivity.
  - intros Hin. exfalso. apply (bool_decide_eq_false_1 (ts_running ∈ [ts_completed; ts_aborted; ts_escalated])); [reflexivity|exact Hin].
  - exists e, e'. split; [vm_compute; reflexivity|]. by split.
Defined.

Lemma replay_restores_witness :
  let r := exec_ops sample_ops (empty_registry 2 (Some (mkTaskLog [] 10))) in
  length (tr_tasks r) = 2 /\ exists l, tr_log r = Some l /\ length (tl_events l) = 6 /\
    strip (replay_into_registry 7 "2027" l (empty_registry 2 None)).2 = strip r.
Proof.
  split; [vm_compute; reflexivity|].
  destruct (replay_restores sample_ops 2 10 None 7 "2027") as (l & Hl & Hs).
  - vm_compute. lia.
  - vm_compute. repeat split.
  - exists l. split; [exact Hl|]. split; [|exact Hs]. vm_compute in Hl. injection Hl as <-. reflexivity.
Defined.
