(* ===== verification/TaskRestart.v ===== *)
(** * Watchdog and restart policy

    [TaskWatchdog] ([agent_kernel/kernel/task_manager/watchdog.py]) over the task
    registry, and [RestartPolicyEngine] ([hi_agent/task_mgmt/restart_policy.py]),
    which reaches the tasks through injected callables: the class [TaskStore],
    implemented by the registry and by the dictionaries of
    [hi_agent/config/runtime_builder.py].  What the stall handler, the retry
    launcher and the reflection handler do is given by their outcomes; a sleep of
    the engine is recorded in milliseconds, with its task.  [handle_failure] is one call that
    nothing overlaps; [failure_begin] and [failure_end] are its parts before and after it waits,
    and [engine_run] runs any number of calls interleaved. *)

From stdpp Require Import base tactics option list strings pretty.
From Stdlib Require Import ZArith.
From S2P Require Import Prelude PyStr PyDict PyVal Contracts TaskRegistry.
#[local] Arguments String.append : simpl nomatch.

(** The watchdog *******************************************************************)

(** [watchdog_once]: the tasks processed.  [on_stall] is the outcome of the handler
    per task and run, [None] when none is configured. *)
Definition watchdog_once (on_stall : option (string -> string -> outcome unit)) (now : Z) (r : task_registry) :
    outcome (list string) * task_registry :=
  let '(stalled, r') := get_stalled_tasks now r in
  let fix go l :=
    match l with
    | [] => Ret []
    | h :: l' =>
        match th_current_run_id h with
        | None => go l'
        | Some run =>
            match default (Ret tt) ((fun f => f (th_task_id h) run) <$> on_stall) with
            | Ret _ => cons (th_task_id h) <$> go l'
            | Raise e => if is_exception e then go l' else Raise e
            end
        end
    end in
  (go stalled, r').

(** [on_run_lifecycle_transition]; the other hooks are [heartbeat_for_run]. *)
Definition on_run_lifecycle_transition (run_id to_state : string) (now : Z) (now_iso : string)
    (r : task_registry) : task_registry :=
  let r1 := heartbeat_for_run run_id now r in
  if decide (to_state ∈ ["completed"; "aborted"]) then
    match get_task_id_for_run run_id r1 with
    | Some task_id =>
        if decide (task_id = "") then r1
        else complete_attempt task_id run_id (if decide (to_state = "completed") then ao_completed else ao_failed)
               None now_iso r1
    | None => r1
    end
  else r1.

(** The restart engine *************************************************************)

Inductive RestartAction := ra_retry | ra_reflect | ra_escalate | ra_abort.

#[export] Instance RestartAction_eq_dec : EqDecision RestartAction.
Proof. solve_decision. Defined.

Record RestartDecision := mkRestart {
  rd_task_id : string;
  rd_action : RestartAction;
  rd_next_attempt_seq : option Z;
  rd_reason : string;
  rd_reflection_prompt : option string
}.

Definition action_of (p : ExhaustedPolicy) : RestartAction :=
  match p with ex_reflect => ra_reflect | ex_escalate => ra_escalate | ex_abort => ra_abort end.
Definition policy_str (p : ExhaustedPolicy) : string :=
  match p with ex_reflect => "reflect" | ex_escalate => "escalate" | ex_abort => "abort" end.

(** [_decide]: the part for failures that may be retried, and the function. *)
Definition decide_retry (policy : TaskRestartPolicy) (task_id : string) (attempt_seq : Z)
    (failure_reason stage_id : string) : RestartDecision :=
  let of_max := pretty attempt_seq +:+ "/" +:+ pretty (rp_max_attempts policy) in
  let stage := if decide (stage_id = "") then "unknown" else stage_id in
  if (attempt_seq <? rp_max_attempts policy)%Z then
    if decide (rp_on_exhausted policy = ex_reflect) then
      mkRestart task_id ra_reflect (Some (attempt_seq + 1)%Z) ("attempt " +:+ of_max +:+ " failed; reflecting")
        (Some ("Attempt " +:+ pretty attempt_seq +:+ " failed: " +:+ failure_reason +:+ ". Stage: " +:+ stage +:+
               ". Identify what went wrong and correct it in the next attempt."))
    else
      mkRestart task_id ra_retry (Some (attempt_seq + 1)%Z) ("attempt " +:+ of_max +:+ " failed; retrying") None
  else
    mkRestart task_id (action_of (rp_on_exhausted policy)) None
      ("retry budget exhausted (" +:+ of_max +:+ "); on_exhausted=" +:+ policy_str (rp_on_exhausted policy))
      (if decide (rp_on_exhausted policy = ex_reflect) then
         Some ("Previous attempt " +:+ pretty attempt_seq +:+ " failed: " +:+ failure_reason +:+ ". Stage: " +:+ stage +:+
               ". Identify what went wrong and how to correct it in the next attempt.")
       else None).

Definition _decide (policy : TaskRestartPolicy) (task_id : string) (attempt_seq : Z)
    (failure : option FailureEnvelope) (stage_id : string) : RestartDecision :=
  match failure with
  | Some f =>
      match fe_retryability f with
      | non_retryable =>
          mkRestart task_id (action_of (rp_on_exhausted policy)) None
            ("failure marked non_retryable: " +:+ fe_failure_code f) None
      | _ =>
          decide_retry policy task_id attempt_seq
            (if decide (fe_failure_code f = "") then "unknown" else fe_failure_code f) stage_id
      end
  | None => decide_retry policy task_id attempt_seq "unknown" stage_id
  end.

(** The callables the engine is built with. *)
Class TaskStore (S : Type) := {
  store_attempts : string -> S -> list TaskAttempt;
  store_policy : string -> S -> option TaskRestartPolicy;
  store_update : string -> TaskLifecycleState -> S -> S;
  store_record : TaskAttempt -> PyM S unit
}.

(** What the engine relies on. *)
Class TaskStoreLaws (S : Type) `{TaskStore S} := {
  update_keeps t st s t' : store_attempts t' (store_update t st s) = store_attempts t' s /\
    store_policy t' (store_update t st s) = store_policy t' s;
  record_adds a s t : store_policy t (store_record a s).2 = store_policy t s /\
    store_attempts t (store_record a s).2 =
      (if decide (ta_task_id a = t) then
         match (store_record a s).1 with Ret _ => store_attempts t s ++ [a] | Raise _ => store_attempts t s end
       else store_attempts t s)
}.

(** Outcomes of the collaborators during one call: the launcher ([None] when there
    is none), whether reflection is configured with a context and its outcome, and
    the id and time of a new attempt. *)
Record engine_env := mkEnv {
  env_launch : option (outcome (option string));
  env_reflect : option (outcome unit);
  env_attempt_id : string;
  env_started_at : string
}.

(** The delay before a retry. *)
Definition retry_delay_ms (policy : TaskRestartPolicy) (next_seq : Z) : Z :=
  Z.min (rp_backoff_base_ms policy * 2 ^ (Z.max 0 (next_seq - 2))) (rp_max_backoff_ms policy).

Section engine.
Context {S : Type} `{TaskStore S}.

(** The tasks, and the sleeps of the engine with the tasks they were for. *)
Abbreviation world := (S * list (string * Z))%type.
Definition store_op {A} (m : PyM S A) : PyM world A := py_zoom fst (fun s w => (s, w.2)) m.
Definition set_task (t : string) (st : TaskLifecycleState) : PyM world unit := store_op (py_modify (store_update t st)).

Definition launch_sleep (task_id : string) (policy : TaskRestartPolicy) (next_seq : Z) : PyM world unit :=
  let delay_ms := retry_delay_ms policy next_seq in
  if (0 <? delay_ms)%Z then py_modify (fun w : world => (w.1, w.2 ++ [(task_id, delay_ms)])) else mret tt.

(** What follows the answer of the launcher. *)
Definition launch_end (env : engine_env) (task_id : string) (next_seq : Z) (launch : outcome (option string)) : PyM world bool :=
  match launch with
  | Raise e => if is_exception e then mret false else py_raise e
  | Ret None => mret false
  | Ret (Some new_run_id) =>
      _ ← store_op (store_record
            (mkAttempt (env_attempt_id env) task_id new_run_id next_seq (env_started_at env) None None None None));
      _ ← set_task task_id ts_restarting;
      mret true
  end.

Definition _launch_retry (env : engine_env) (task_id : string) (policy : TaskRestartPolicy) (next_seq : Z) :
    PyM world bool :=
  match env_launch env with
  | None => mret false
  | Some launch =>
      _ ← launch_sleep task_id policy next_seq;
      launch_end env task_id next_seq launch
  end.

(** What follows the launch of a retry. *)
Definition retry_end (task_id : string) (decision : RestartDecision) (launched : bool) : PyM world RestartDecision :=
  if launched then mret decision
  else
    _ ← set_task task_id ts_aborted;
    mret (mkRestart task_id ra_abort None
            (rd_reason decision +:+ "; retry launch failed and task moved to aborted") None).

(** What follows the answer of the reflection handler. *)
Definition reflect_end (decision : RestartDecision) (reflected : option (outcome unit)) : PyM world RestartDecision :=
  match reflected with
  | Some (Raise e) => if is_exception e then mret decision else py_raise e
  | _ => mret decision
  end.

Definition answer (task_id : string) (effective : RestartDecision) : RestartDecision :=
  mkRestart task_id (rd_action effective) (rd_next_attempt_seq effective) (rd_reason effective) None.

(** The whole method, when no other call of the engine runs while it awaits. *)
Definition handle_failure (env : engine_env) (task_id : string) (failure : option FailureEnvelope) :
    PyM world RestartDecision :=
  w ← py_get;
  match store_policy task_id w.1 with
  | None => mret (mkRestart task_id ra_abort None "task_id not found or no restart policy" None)
  | Some policy =>
      let attempt_seq := Z.of_nat (length (store_attempts task_id w.1)) in
      let decision := _decide policy task_id attempt_seq failure "" in
      effective ← match rd_action decision with
        | ra_retry =>
            _ ← set_task task_id ts_restarting;
            launched ← _launch_retry env task_id policy (attempt_seq + 1);
            retry_end task_id decision launched
        | ra_reflect =>
            _ ← set_task task_id ts_reflecting;
            reflect_end decision (env_reflect env)
        | ra_escalate => _ ← set_task task_id ts_escalated; mret decision
        | ra_abort => _ ← set_task task_id ts_aborted; mret decision
        end;
      mret (answer task_id effective)
  end.

(** The method split at its awaits: what it does before it waits for the sleep and the
    launcher, or for the reflection handler, and what it does then.  In between other
    calls of the engine may run. *)
Inductive waiting :=
  | WLaunch (next_seq : Z) (decision : RestartDecision)
  | WReflect (decision : RestartDecision).

Definition failure_begin (launcher reflects : bool) (task_id : string) (failure : option FailureEnvelope) :
    PyM world (waiting + RestartDecision) :=
  w ← py_get;
  match store_policy task_id w.1 with
  | None => mret (inr (mkRestart task_id ra_abort None "task_id not found or no restart policy" None))
  | Some policy =>
      let attempt_seq := Z.of_nat (length (store_attempts task_id w.1)) in
      let decision := _decide policy task_id attempt_seq failure "" in
      match rd_action decision with
      | ra_retry =>
          _ ← set_task task_id ts_restarting;
          if launcher then
            _ ← launch_sleep task_id policy (attempt_seq + 1);
            mret (inl (WLaunch (attempt_seq + 1) decision))
          else
            effective ← retry_end task_id decision false;
            mret (inr (answer task_id effective))
      | ra_reflect =>
          _ ← set_task task_id ts_reflecting;
          mret (if reflects then inl (WReflect decision) else inr (answer task_id decision))
      | ra_escalate => _ ← set_task task_id ts_escalated; mret (inr (answer task_id decision))
      | ra_abort => _ ← set_task task_id ts_aborted; mret (inr (answer task_id decision))
      end
  end.

Definition failure_end (env : engine_env) (task_id : string) (x : waiting) : PyM world RestartDecision :=
  effective ← match x with
    | WLaunch next_seq decision =>
        launched ← launch_end env task_id next_seq (default (Ret None) (env_launch env));
        retry_end task_id decision launched
    | WReflect decision => reflect_end decision (env_reflect env)
    end;
  mret (answer task_id effective).

(** Calls that overlap: those that wait, with their tasks, and what happens next. *)
Record engine_system := mkSystem { es_world : world; es_waiting : list (string * waiting) }.

Inductive engine_label :=
  | EBegin (launcher reflects : bool) (task_id : string) (failure : option FailureEnvelope)
  | EEnd (i : nat) (env : engine_env).

Definition engine_next (y : engine_system) (l : engine_label) : engine_system :=
  match l with
  | EBegin launcher reflects task_id failure =>
      let '(r, w) := failure_begin launcher reflects task_id failure (es_world y) in
      mkSystem w (match r with Ret (inl x) => es_waiting y ++ [(task_id, x)] | _ => es_waiting y end)
  | EEnd i env =>
      match es_waiting y !! i with
      | Some (task_id, x) => mkSystem (failure_end env task_id x (es_world y)).2 (base.delete i (es_waiting y))
      | None => y
      end
  end.

Definition engine_run (ls : list engine_label) (y : engine_system) : engine_system := foldl engine_next y ls.
End engine.

(** The registry as the store of the engine. *)
#[export] Instance registry_store (now : Z) : TaskStore task_registry := {
  store_attempts := get_attempts;
  store_policy t r := td_restart_policy <$> get t r;
  store_update := update_state;
  store_record a := start_attempt a now
}.

(** The dictionaries of [build_restart_policy_engine]: attempts and states per task,
    one policy for all. *)
#[export] Instance builder_store (policy : TaskRestartPolicy) :
    TaskStore (odict string (list TaskAttempt) * odict string TaskLifecycleState) := {
  store_attempts t s := default [] (od_get t s.1);
  store_policy _ _ := Some policy;
  store_update t st s := (s.1, od_set t st s.2);
  store_record a := py_modify (fun s => (od_set (ta_task_id a) (default [] (od_get (ta_task_id a) s.1) ++ [a]) s.1, s.2))
}.

(** Lemmas *************************************************************************)

Lemma get_put_entry t e r t' : od_get t' (tr_tasks (put_entry t e r)) = if decide (t = t') then Some e else od_get t' (tr_tasks r).
Proof. simpl. case_decide; [subst; apply od_get_set_eq|by apply od_get_set_ne]. Qed.

(** A call that rewrites the entry of one task. *)
Lemma update_entry t st r t' : od_get t' (tr_tasks (update_state t st r)) =
  if decide (t = t') then set_state st <$> od_get t' (tr_tasks r) else od_get t' (tr_tasks r).
Proof.
  unfold update_state. destruct (od_get t (tr_tasks r)) as [e|] eqn:He.
  - assert (od_get t' (tr_tasks (put_entry t (set_state st e) r)) =
      if decide (t = t') then set_state st <$> od_get t' (tr_tasks r) else od_get t' (tr_tasks r)) as Hp.
    { rewrite get_put_entry. case_decide; [|done]. subst. by rewrite He. }
    by destruct (emitted st).
  - case_decide; [|done]. subst. by rewrite He.
Qed.

Lemma start_entry a now r t' : od_get t' (tr_tasks (start_attempt a now r).2) =
  if decide (ta_task_id a = t') then
    (fun e => set_beat (Some now) (te_consecutive_missed_beats e) (set_state ts_running (set_attempts (te_attempts e ++ [a]) e)))
      <$> od_get t' (tr_tasks r)
  else od_get t' (tr_tasks r).
Proof.
  unfold start_attempt. py_simpl. destruct (od_get (ta_task_id a) (tr_tasks r)) as [e|] eqn:He.
  - simpl. case_decide; [subst; by rewrite od_get_set_eq, He|by rewrite od_get_set_ne].
  - case_decide; [|done]. subst. by rewrite He.
Qed.

Lemma start_outcome a now r : (start_attempt a now r).1 =
  match od_get (ta_task_id a) (tr_tasks r) with Some _ => Ret tt | None => Raise (KeyError (ta_task_id a)) end.
Proof. unfold start_attempt. py_simpl. by destruct (od_get _ _). Qed.

#[export] Instance registry_laws now : TaskStoreLaws task_registry (H := registry_store now).
Proof.
  split.
  - intros t st s t'. simpl. unfold get_attempts, get. rewrite update_entry. case_decide; [|done].
    by destruct (od_get t' (tr_tasks s)).
  - intros a s t. simpl. unfold get_attempts, get. rewrite start_entry, start_outcome. case_decide as Ht; [subst|done].
    by destruct (od_get (ta_task_id a) (tr_tasks s)).
Qed.

#[export] Instance builder_laws policy : TaskStoreLaws _ (H := builder_store policy).
Proof.
  split; [done|]. intros a s t. simpl. split; [done|]. case_decide as Ht.
  - subst. by rewrite od_get_set_eq.
  - by rewrite od_get_set_ne.
Qed.

Section bounded.
Context {S : Type} `{TaskStoreLaws S}.
Implicit Types (w : S * list (string * Z)).

Definition fail_call : Type := engine_env * string * option FailureEnvelope.
Definition handle_all (calls : list fail_call) w : S * list (string * Z) :=
  foldl (fun w '(env, t, f) => (handle_failure env t f w).2) w calls.

(** A sleep within the cap of the policy of its task. *)
Definition capped (s : S) (d : string * Z) : Prop := exists p, store_policy d.1 s = Some p /\ (0 < d.2 <= rp_max_backoff_ms p)%Z.

(** What a step of the engine keeps: policies, sleeps within their caps, and the
    attempts of every task, but for one new attempt of [t] if [add]. *)
Definition engine_step (t : string) (add : bool) w w' : Prop :=
  (forall t', store_policy t' w'.1 = store_policy t' w.1) /\
  (Forall (capped w.1) w.2 -> Forall (capped w.1) w'.2) /\
  (forall t', t' <> t -> store_attempts t' w'.1 = store_attempts t' w.1) /\
  length (store_attempts t w'.1) <= length (store_attempts t w.1) + (if add then 1 else 0).

Lemma engine_step_refl t add w : engine_step t add w w.
Proof. repeat split; auto. destruct add; lia. Qed.

Lemma capped_ext s s' l : (forall t, store_policy t s' = store_policy t s) -> Forall (capped s') l <-> Forall (capped s) l.
Proof.
  intros Hp. split; intros Hl; (eapply Forall_impl; [exact Hl|]); intros d (p & Ht & Hd); exists p; (split; [|done]).
  - by rewrite <-Hp.
  - by rewrite Hp.
Qed.

Lemma engine_step_trans t a b w1 w2 w3 : engine_step t a w1 w2 -> engine_step t b w2 w3 -> (a && b = false) ->
  engine_step t (a || b) w1 w3.
Proof.
  intros (Hp & Hc & Ho & Hn) (Hp' & Hc' & Ho' & Hn') Hab. repeat split.
  - intros t'. by rewrite Hp'.
  - intros Hw. apply (capped_ext w2.1 w1.1); [done|]. apply Hc'. apply (capped_ext w2.1 w1.1); [done|]. by apply Hc.
  - intros t' Ht. rewrite Ho' by done. by apply Ho.
  - destruct a, b; simpl in *; try done; lia.
Qed.

Lemma set_task_ret t st w : set_task t st w = (Ret tt, (store_update t st w.1, w.2)).
Proof. done. Qed.

Lemma set_task_step t st w : engine_step t false w (set_task t st w).2.
Proof.
  unfold set_task, store_op, py_zoom. simpl. repeat split; simpl; auto.
  - intros t'. by apply update_keeps.
  - intros t' _. by apply update_keeps.
  - destruct (update_keeps t st w.1 t) as [-> _]. lia.
Qed.

Lemma sleep_step t p n w : store_policy t w.1 = Some p ->
  exists w', launch_sleep t p n w = (Ret tt, w') /\ engine_step t false w w' /\ store_policy t w'.1 = Some p.
Proof.
  intros Hp. unfold launch_sleep. destruct (Z.ltb_spec 0 (retry_delay_ms p n)) as [Hd|]; [|exists w; split_and!; [done|apply engine_step_refl|done]].
  eexists. split; [done|]. split; [|done]. repeat split; simpl; auto; [|lia]. intros Hc. apply Forall_app. split; [done|].
  apply Forall_singleton. exists p. split; [done|]. split; [done|]. simpl. unfold retry_delay_ms. lia.
Qed.

Lemma launch_end_step env t n launch w : engine_step t true w (launch_end env t n launch w).2.
Proof.
  destruct launch as [[k|]|e]; [|apply engine_step_refl|simpl; destruct (is_exception e); apply engine_step_refl]. simpl.
  set (a := mkAttempt _ t k n _ _ _ _ _). unfold mbind, PyM_bind.
  assert (engine_step t true w (store_op (store_record a) w).2) as Hr.
  { unfold store_op, py_zoom. destruct (store_record a w.1) as [o s'] eqn:Hrec.
    assert (s' = (store_record a w.1).2) as -> by (by rewrite Hrec). repeat split; simpl; auto.
    - intros t'. by apply (record_adds a w.1 t').
    - intros t' Hne. destruct (record_adds a w.1 t') as [_ ->]. by rewrite decide_False by (intros Heq; by apply Hne).
    - destruct (record_adds a w.1 t) as [_ ->]. rewrite decide_True by done.
      destruct (store_record a w.1).1; [rewrite length_app; simpl; lia|lia]. }
  destruct (store_op (store_record a) w) as [[x|e] w2]; simpl in Hr; [|done].
  pose proof (set_task_step t ts_restarting w2) as Hs. rewrite set_task_ret in *.
  exact (engine_step_trans t true false w w2 _ Hr Hs eq_refl).
Qed.

Lemma retry_end_step t d launched w : engine_step t false w (retry_end t d launched w).2.
Proof. destruct launched; [apply engine_step_refl|]. apply (set_task_step t ts_aborted w). Qed.

Lemma reflect_end_state d o w : (reflect_end d o w).2 = w.
Proof. unfold reflect_end. by destruct o as [[[]|e]|]; [|destruct (is_exception e)|]. Qed.

(** A call and what follows it. *)
Lemma engine_step_bind {A B} t a b (m : PyM (S * list (string * Z)) A) (k : A -> PyM (S * list (string * Z)) B) w :
  a && b = false -> engine_step t a w (m w).2 -> (forall x w', engine_step t b w' (k x w').2) -> engine_step t (a || b) w ((m ≫= k) w).2.
Proof.
  intros Hab Hm Hk. unfold mbind, PyM_bind. destruct (m w) as [[x|e] w']; simpl in Hm.
  - by apply (engine_step_trans t a b w w').
  - pose proof (engine_step_trans t a b w w' w' Hm (engine_step_refl t b w') Hab). done.
Qed.

Lemma launch_step env t p n w : store_policy t w.1 = Some p -> engine_step t true w (_launch_retry env t p n w).2.
Proof.
  intros Hp. unfold _launch_retry. destruct (env_launch env) as [launch|]; [|apply engine_step_refl].
  apply (engine_step_bind t false true); [done| |intros; apply launch_end_step].
  by destruct (sleep_step t p n w Hp) as (w' & -> & Hw & _).
Qed.

Lemma handle_step env t f w :
  match store_policy t w.1 with
  | None => (handle_failure env t f w).2 = w
  | Some p => engine_step t
      (bool_decide (rd_action (_decide p t (Z.of_nat (length (store_attempts t w.1))) f "") = ra_retry))
      w (handle_failure env t f w).2
  end.
Proof.
  unfold handle_failure. cbv beta iota delta [mbind PyM_bind mret PyM_ret py_get]. destruct (store_policy t w.1) as [p|] eqn:Hp; [|done].
  set (d := _decide p t _ f ""). assert (forall st, store_policy t (set_task t st w).2.1 = Some p) as Hp1.
  { intros st. rewrite <-Hp. by apply (set_task_step t st w). }
  destruct (rd_action d) eqn:Ha;
    [rewrite bool_decide_true by done|rewrite bool_decide_false by done..].
  - pose proof (set_task_step t ts_restarting w) as Hs. specialize (Hp1 ts_restarting).
    rewrite set_task_ret in *. cbn [snd fst] in *. set (w1 := (store_update t ts_restarting w.1, w.2)) in *.
    pose proof (launch_step env t p (Z.of_nat (length (store_attempts t w.1)) + 1) w1 Hp1) as Hl.
    pose proof (engine_step_trans t false true w w1 _ Hs Hl eq_refl) as Hlaunched.
    destruct (_launch_retry env t p _ w1) as [[b|e] w2]; cbn [snd] in *; [|exact Hlaunched].
    pose proof (retry_end_step t d b w2) as Hr. destruct (retry_end t d b w2) as [[x|e] w3]; cbn [snd] in *;
      exact (engine_step_trans t true false w w2 w3 Hlaunched Hr eq_refl).
  - pose proof (set_task_step t ts_reflecting w) as Hs. rewrite set_task_ret in *. pose proof (reflect_end_state d (env_reflect env)
      (store_update t ts_reflecting w.1, w.2)) as Hr. by destruct (reflect_end _ _ _) as [[x|e] w1]; cbn in Hr; subst w1.
  - apply (set_task_step t ts_escalated w).
  - apply (set_task_step t ts_aborted w).
Qed.

(** A retry is decided only while attempts remain, and never under [reflect]. *)
Lemma decide_retry_only p t n f stage : rd_action (_decide p t n f stage) = ra_retry ->
  (n < rp_max_attempts p)%Z /\ rp_on_exhausted p <> ex_reflect.
Proof.
  assert (forall x, action_of x <> ra_retry) as Hx by (by intros []).
  assert (forall r, rd_action (decide_retry p t n r stage) = ra_retry -> (n < rp_max_attempts p)%Z /\ rp_on_exhausted p <> ex_reflect) as H'.
  { intros r. unfold decide_retry. destruct (Z.ltb_spec n (rp_max_attempts p)); [|intros Ha; by apply Hx in Ha].
    case_decide; [done|by split]. }
  unfold _decide. destruct f as [f|]; [|apply H']. destruct (fe_retryability f); [apply H'| |apply H'].
  intros Ha. by apply Hx in Ha.
Qed.

Lemma handle_all_policy calls : forall w t, store_policy t (handle_all calls w).1 = store_policy t w.1.
Proof.
  induction calls as [|[[env t'] f] calls IH]; intros w t; [done|]. simpl. rewrite IH.
  pose proof (handle_step env t' f w) as Hs. destruct (store_policy t' w.1) as [p|] eqn:Hp; [|by rewrite Hs].
  by apply Hs.
Qed.

(** The method is its first segment and, when that waits, its last one. *)
Lemma handle_failure_split env t f w : handle_failure env t f w =
  (r ← failure_begin (bool_decide (is_Some (env_launch env))) (bool_decide (is_Some (env_reflect env))) t f;
   match r with inl x => failure_end env t x | inr d => mret d end) w.
Proof.
  unfold handle_failure, failure_begin, mbind, PyM_bind, py_get. destruct (store_policy t w.1) as [p|]; [|done].
  destruct (rd_action _); [| |done..].
  - unfold _launch_retry, failure_end, mbind, PyM_bind. destruct (env_launch env) as [launch|]; [|done]. rewrite bool_decide_true by done. rewrite !set_task_ret.
    unfold launch_sleep. by destruct (0 <? _)%Z.
  - unfold failure_end, mbind, PyM_bind. rewrite !set_task_ret. by destruct (env_reflect env) as [[[]|e]|]; [| |done].
Qed.

Lemma failure_begin_step launcher reflects t f w :
  let '(r, w') := failure_begin launcher reflects t f w in
  engine_step t false w w' /\
  match r with
  | Ret (inl (WLaunch _ _)) => exists p, store_policy t w.1 = Some p /\ (Z.of_nat (length (store_attempts t w.1)) < rp_max_attempts p)%Z
  | Ret _ => True
  | Raise _ => False
  end.
Proof.
  unfold failure_begin. cbv beta iota delta [mbind PyM_bind mret PyM_ret py_get].
  destruct (store_policy t w.1) as [p|] eqn:Hp; [|split; [apply engine_step_refl|done]].
  set (d := _decide p t _ f ""). destruct (rd_action d) eqn:Ha.
  - pose proof (set_task_step t ts_restarting w) as Hs. rewrite set_task_ret in *. cbn [snd] in Hs.
    destruct launcher.
    + destruct (sleep_step t p (Z.of_nat (length (store_attempts t w.1)) + 1) (store_update t ts_restarting w.1, w.2)) as (w' & -> & Hw & _).
      { cbn. destruct (update_keeps t ts_restarting w.1 t) as [_ ->]. done. }
      split; [exact (engine_step_trans t false false w _ w' Hs Hw eq_refl)|]. exists p. split; [done|]. by eapply decide_retry_only.
    + unfold retry_end. cbv beta iota delta [mbind PyM_bind mret PyM_ret]. rewrite set_task_ret. split; [|done].
      exact (engine_step_trans t false false w _ _ Hs (set_task_step t ts_aborted _) eq_refl).
  - rewrite set_task_ret. split; [apply (set_task_step t ts_reflecting w)|by destruct reflects].
  - rewrite set_task_ret. split; [apply (set_task_step t ts_escalated w)|done].
  - rewrite set_task_ret. split; [apply (set_task_step t ts_aborted w)|done].
Qed.

Lemma end_step env t x w : engine_step t (match x with WLaunch _ _ => true | WReflect _ => false end) w (failure_end env t x w).2.
Proof.
  unfold failure_end. destruct x as [n d|d].
  - apply (engine_step_bind t true false); [done| |intros; apply engine_step_refl].
    apply (engine_step_bind t true false); [done|apply launch_end_step|intros; apply retry_end_step].
  - apply (engine_step_bind t false false); [done| |intros; apply engine_step_refl]. rewrite reflect_end_state. apply engine_step_refl.
Qed.

(** Overlapping calls *************************************************************)

(** The call waits to start an attempt of the task. *)
Definition launches (t : string) (k : string * waiting) : Prop :=
  k.1 = t /\ match k.2 with WLaunch _ _ => True | WReflect _ => False end.
#[export] Instance launches_dec t k : Decision (launches t k).
Proof. unfold launches. destruct k.2; apply _. Defined.

Definition launching (t : string) (y : engine_system (S := S)) : nat := length (filter (launches t) (es_waiting y)).

(** The most calls that wait at a time to start an attempt of the task. *)
Fixpoint overlap (t : string) (ls : list engine_label) (y : engine_system (S := S)) : nat :=
  launching t y `max` match ls with [] => 0 | l :: ls' => overlap t ls' (engine_next y l) end.

Lemma filter_delete_length {A} (Q : A -> Prop) `{!forall x, Decision (Q x)} (l : list A) i x : l !! i = Some x ->
  length (filter Q l) = length (filter Q (base.delete i l)) + (if decide (Q x) then 1 else 0).
Proof.
  intros Hi. rewrite <-(take_drop_middle l i x Hi) at 1. rewrite delete_take_drop, !filter_app, filter_cons, !length_app.
  case_decide; simpl; lia.
Qed.

(** One step: attempts and launches in flight grow together only when attempts are left. *)
Lemma next_step t p l y : store_policy t (es_world y).1 = Some p ->
  let n := length (store_attempts t (es_world y).1) in
  let y' := engine_next y l in
  let n' := length (store_attempts t (es_world y').1) in
  (forall t', store_policy t' (es_world y').1 = store_policy t' (es_world y).1) /\
  (Forall (capped (es_world y).1) (es_world y).2 -> Forall (capped (es_world y).1) (es_world y').2) /\
  (n' + launching t y' <= n + launching t y \/
   (Z.of_nat n < rp_max_attempts p)%Z /\ n' <= n /\ launching t y' = Datatypes.S (launching t y)).
Proof.
  intros Hp n y' n'. unfold n, n', y'. clear n n' y'. destruct l as [launcher reflects t' f|i env]; cbn [engine_next].
  - pose proof (failure_begin_step launcher reflects t' f (es_world y)) as Hb.
    destruct (failure_begin launcher reflects t' f (es_world y)) as [r w']. destruct Hb as [(Hpol & Hcap & Hoth & Hlen) Hr]. cbn [es_world].
    split_and!; [done|done|]. assert (length (store_attempts t w'.1) <= length (store_attempts t (es_world y).1)) as Hle.
    { destruct (decide (t' = t)) as [->|]; [lia|by rewrite Hoth]. }
    unfold launching. cbn [es_waiting]. destruct r as [[x|d]|e]; [|left; lia|done]. rewrite filter_app, length_app, filter_cons.
    case_decide as Hx; simpl; [|left; lia]. destruct Hx as [Ht Hx]. cbn in Ht, Hx. subst t'. destruct x as [k d|d]; [|done].
    right. destruct Hr as (p' & Hp' & Hlt). rewrite Hp in Hp'. injection Hp' as <-. split_and!; [done|done|lia].
  - destruct (es_waiting y !! i) as [[t' x]|] eqn:Hi; [|split_and!; [done|done|left; lia]]. cbn [es_world].
    destruct (end_step env t' x (es_world y)) as (Hpol & Hcap & Hoth & Hlen). split_and!; [done|done|]. left.
    unfold launching. cbn [es_waiting]. rewrite (filter_delete_length (launches t) (es_waiting y) i (t', x) Hi).
    destruct (decide (t' = t)) as [->|Hne].
    + destruct x; [rewrite decide_True by done|rewrite decide_False by (by intros [_ []])]; lia.
    + rewrite Hoth by done. rewrite decide_False by (by intros [? _]). lia.
Qed.
End bounded.

(** C19: Retries are bounded.  However often the failures of tasks are handled, however
    the handling calls overlap while they sleep, launch or reflect, and whatever the
    launcher answers, a task gets no more attempts than its policy allows if its retries
    do not overlap, and one more for each further retry in flight at the same time (it
    keeps those it had); every sleep before a retry is positive and within the backoff cap
    of the policy of its task.  This holds for any store that meets the interface, the
    registry and the dictionaries of the builder among them. *)
Theorem retries_bounded (S : Type) (H : TaskStore S) (L : TaskStoreLaws S) (ls : list engine_label) (s : S) (t : string)
    (p : TaskRestartPolicy) :
  store_policy t s = Some p ->
  let y := engine_run ls (mkSystem (s, []) []) in
  let extra := pred (overlap t ls (mkSystem (s, []) [])) in
  length (store_attempts t (es_world y).1) <= length (store_attempts t s) `max` (Z.to_nat (rp_max_attempts p) + extra) /\
  Forall (capped s) (es_world y).2.
Proof.
  intros Hp. assert (forall ls b (y : engine_system (S := S)), store_policy t (es_world y).1 = Some p -> Forall (capped (es_world y).1) (es_world y).2 ->
    Z.to_nat (rp_max_attempts p) + pred (overlap t ls y) <= b ->
    length (store_attempts t (es_world y).1) + launching t y <= b ->
    length (store_attempts t (es_world (engine_run ls y)).1) <= b /\ Forall (capped (es_world y).1) (es_world (engine_run ls y)).2) as Hall.
  { clear ls Hp. induction ls as [|l ls IH]; intros b y Hp Hc Hov Hb; [split; [simpl; lia|done]|]. simpl in Hov.
    destruct (next_step t p l y Hp) as (Hpol & Hcap & Hstep). cbn [engine_run foldl].
    destruct (IH b (engine_next y l)) as [Hn Hf]; [by rewrite Hpol|apply (capped_ext (es_world y).1); [done|by apply Hcap]|lia| |].
    { destruct Hstep as [Hle|(Hlt & Hn & Hl)]; [lia|]. assert (Datatypes.S (launching t y) <= overlap t ls (engine_next y l)) by (rewrite <-Hl; destruct ls; simpl; lia). lia. }
    split; [exact Hn|]. by apply (capped_ext (es_world y).1 (es_world (engine_next y l)).1). }
  apply (Hall ls _ (mkSystem (s, []) [])); [done|by apply Forall_nil|cbn; lia|cbn; lia].
Qed.

(** With the default exhaustion policy [reflect] a task is never retried:
    whatever fails and however many attempts remain, no attempt is started,
    although [on_exhausted] is documented as the action taken when the attempts are
    used up. *)
Theorem reflect_never_retries (S : Type) (H : TaskStore S) (L : TaskStoreLaws S) (calls : list fail_call) (s : S) (t : string)
    (p : TaskRestartPolicy) :
  store_policy t s = Some p -> rp_on_exhausted p = ex_reflect ->
  length (store_attempts t (handle_all calls (s, [])).1) <= length (store_attempts t s).
Proof.
  intros Hp Hr. assert (forall calls (w : S * list (string * Z)), store_policy t w.1 = Some p ->
    length (store_attempts t (handle_all calls w).1) <= length (store_attempts t w.1)) as Hall.
  { clear calls Hp. induction calls as [|[[env t'] f] calls IH]; intros w Hp; [done|]. simpl.
    pose proof (handle_step env t' f w) as Hs. destruct (store_policy t' w.1) as [p'|] eqn:Hp'; [|rewrite Hs; by apply IH].
    destruct Hs as (Hpol & _ & Hoth & Hlen). etrans; [apply IH; by rewrite Hpol|].
    destruct (decide (t' = t)) as [->|Hne]; [|by rewrite Hoth by done]. assert (p' = p) as -> by congruence.
    rewrite bool_decide_false in Hlen; [lia|]. intros Ha. by apply decide_retry_only in Ha as [_ Ha]. }
  by apply (Hall calls (s, [])).
Qed.

(** Whether the envelope of a failure allows a retry. *)
Definition may_retry (failure : option FailureEnvelope) : bool :=
  match failure with
  | Some f => match fe_retryability f with non_retryable => false | _ => true end
  | None => true
  end.

(** The plan for a failure of a task with [n] attempts: the action answered, the
    state of the task, the run of the new attempt and the sleep. *)
Definition failure_plan (p : TaskRestartPolicy) (n : Z) (failure : option FailureEnvelope)
    (launch : option (outcome (option string))) : RestartAction * TaskLifecycleState * option string * list Z :=
  let over := match rp_on_exhausted p with
              | ex_reflect => (ra_reflect, ts_reflecting, None, [])
              | ex_escalate => (ra_escalate, ts_escalated, None, [])
              | ex_abort => (ra_abort, ts_aborted, None, [])
              end in
  if may_retry failure && (n <? rp_max_attempts p)%Z && negb (bool_decide (rp_on_exhausted p = ex_reflect)) then
    let sleep := match launch with
                 | Some _ => let d := retry_delay_ms p (n + 1) in if (0 <? d)%Z then [d] else []
                 | None => []
                 end in
    match launch with
    | Some (Ret (Some run)) => (ra_retry, ts_restarting, Some run, sleep)
    | _ => (ra_abort, ts_aborted, None, sleep)
    end
  else over.

Lemma decide_plan p t n f stage : rd_action (_decide p t n f stage) =
  if may_retry f && (n <? rp_max_attempts p)%Z && negb (bool_decide (rp_on_exhausted p = ex_reflect)) then ra_retry
  else action_of (rp_on_exhausted p).
Proof.
  assert (forall reason, rd_action (decide_retry p t n reason stage) =
    if (n <? rp_max_attempts p)%Z && negb (bool_decide (rp_on_exhausted p = ex_reflect)) then ra_retry
    else action_of (rp_on_exhausted p)) as Hr.
  { intros reason. unfold decide_retry. destruct (n <? _)%Z; [|done]. simpl. case_decide as Hx.
    - by rewrite Hx.
    - by rewrite bool_decide_false. }
  unfold _decide, may_retry. destruct f as [f|]; [|apply Hr]. by destruct (fe_retryability f).
Qed.

(** The state and the attempts of a task of the registry. *)
Definition task_view (t : string) (r : task_registry) : option (TaskLifecycleState * list TaskAttempt) :=
  (fun e => (te_lifecycle_state e, te_attempts e)) <$> od_get t (tr_tasks r).

Lemma update_view t st r t' : task_view t' (update_state t st r) =
  if decide (t = t') then (fun v => (st, v.2)) <$> task_view t' r else task_view t' r.
Proof. unfold task_view. rewrite update_entry. case_decide; [|done]. by destruct (od_get t' (tr_tasks r)). Qed.

Lemma start_view a now r t' : task_view t' (start_attempt a now r).2 =
  if decide (ta_task_id a = t') then (fun v => (ts_running, v.2 ++ [a])) <$> task_view t' r else task_view t' r.
Proof. unfold task_view. rewrite start_entry. case_decide; [|done]. by destruct (od_get t' (tr_tasks r)). Qed.

(** The launch of a retry, on the registry. *)
Lemma launch_view now env t p n r sl st atts : task_view t r = Some (st, atts) ->
  (forall e, env_launch env = Some (Raise e) -> is_exception e = true) ->
  let sleep := if (0 <? retry_delay_ms p n)%Z then [retry_delay_ms p n] else [] in
  let '(run, slept) := match env_launch env with
    | Some (Ret (Some k)) => (Some k, sleep) | Some _ => (None, sleep) | None => (None, []) end in
  exists r', _launch_retry (H := registry_store now) env t p n (r, sl) = (Ret (match run with Some _ => true | None => false end), (r', sl ++ map (pair t) slept)) /\
    task_view t r' = Some (match run with
      | Some k => (ts_restarting, atts ++ [mkAttempt (env_attempt_id env) t k n (env_started_at env) None None None None])
      | None => (st, atts) end) /\
    (forall t', t' <> t -> task_view t' r' = task_view t' r).
Proof.
  intros Hv Hexc. unfold _launch_retry. destruct (env_launch env) as [launch|]; [|exists r; by rewrite app_nil_r].
  set (sleep := if (0 <? _)%Z then _ else _).
  assert (launch_sleep t p n (r, sl) = (Ret tt, (r, sl ++ map (pair t) sleep))) as Hbind.
  { unfold launch_sleep, sleep. destruct (0 <? _)%Z; [done|]. by rewrite app_nil_r. }
  destruct launch as [[k|]|e]; unfold mbind at 1, PyM_bind at 1; rewrite Hbind; clear Hbind; unfold launch_end.
  - set (a := mkAttempt _ t k n _ _ _ _ _). unfold store_op, py_zoom, mbind, PyM_bind. simpl.
    pose proof (start_outcome a now r) as Hout. pose proof (start_view a now r) as Hview. simpl in Hout, Hview.
    unfold task_view in Hv. destruct (od_get t (tr_tasks r)) as [e0|] eqn:He0; [|done].
    destruct (start_attempt a now r) as [o r1]. simpl in Hout, Hview. subst o. eexists. split; [done|]. split.
    + rewrite update_view, decide_True, Hview, decide_True by done. unfold task_view. rewrite He0.
      injection Hv as Hst Ha. simpl. by rewrite Ha.
    + intros t' Ht. rewrite update_view, decide_False, Hview, decide_False by congruence. done.
  - by exists r.
  - rewrite (Hexc e eq_refl). by exists r.
Qed.

(** The registry after a failure is handled as planned.  The answered action,
    the state of the task, its new attempt (numbered after those it has, for the run
    the launcher gave) and the sleep are those of [failure_plan]: a retryable failure
    with attempts left is retried after the backoff unless the policy is [reflect],
    a retry that cannot be launched aborts the task, and any other failure takes the
    action of the policy.  The other tasks keep their states and attempts. *)
Theorem failure_handled (now : Z) (env : engine_env) (t : string) (failure : option FailureEnvelope) (r : task_registry)
    (sl : list (string * Z)) (d : TaskDescriptor) :
  get t r = Some d ->
  (forall e, env_launch env = Some (Raise e) \/ env_reflect env = Some (Raise e) -> is_exception e = true) ->
  let atts := get_attempts t r in
  let n := Z.of_nat (length atts) in
  let '(action, st, run, slept) := failure_plan (td_restart_policy d) n failure (env_launch env) in
  exists answer r',
    handle_failure (H := registry_store now) env t failure (r, sl) = (Ret answer, (r', sl ++ map (pair t) slept)) /\
    rd_task_id answer = t /\ rd_action answer = action /\
    task_view t r' = Some (st, atts ++ match run with
      | Some k => [mkAttempt (env_attempt_id env) t k (n + 1) (env_started_at env) None None None None]
      | None => [] end) /\
    (forall t', t' <> t -> task_view t' r' = task_view t' r).
Proof.
  intros Hd Hexc atts n. set (p := td_restart_policy d). pose proof (decide_plan p t n failure "") as Hact.
  assert (exists st0, task_view t r = Some (st0, atts)) as [st0 Hv].
  { unfold get in Hd. unfold task_view, atts, get_attempts. destruct (od_get t (tr_tasks r)); [by eexists|done]. }
  unfold failure_plan, handle_failure. cbv beta iota delta [mbind PyM_bind mret PyM_ret py_get].
  cbn [fst snd store_policy store_attempts registry_store]. rewrite Hd. cbn [fmap option_fmap option_map].
  fold p atts n. set (dec := _decide p t n failure "") in *.
  destruct (may_retry failure && _ && _) eqn:Hc.
  - rewrite Hact. rewrite set_task_ret. cbn [fst snd].
    pose proof (launch_view now env t p (n + 1) (update_state t ts_restarting r) sl ts_restarting atts) as Hl.
    rewrite update_view, decide_True, Hv in Hl by done. specialize (Hl eq_refl (fun e He => Hexc e (or_introl He))).
    assert (forall t', t' <> t -> task_view t' (update_state t ts_restarting r) = task_view t' r) as Hup.
    { intros t' Ht. by rewrite update_view, decide_False by congruence. }
    cbn [store_update registry_store].
    destruct (env_launch env) as [[[k|]|e]|] eqn:He; destruct Hl as (r' & -> & Hr' & Ho).
    1: { eexists _, r'. split; [reflexivity|]. split; [done|]. split; [done|]. split; [done|]. intros t' Ht. by rewrite Ho, Hup. }
    all: unfold retry_end; cbv beta iota delta [mbind PyM_bind mret PyM_ret]; rewrite set_task_ret;
      eexists _, _; split; [reflexivity|]; split; [done|]; split; [done|];
      cbn [store_update registry_store fst]; split;
      [rewrite update_view, decide_True, Hr' by done; by rewrite app_nil_r
      |intros t' Ht; rewrite update_view, decide_False by congruence; by rewrite Ho, Hup].
  - rewrite Hact.
    assert (forall st t', task_view t' (update_state t st r) = if decide (t = t') then Some (st, atts) else task_view t' r) as Hup.
    { intros st t'. rewrite update_view. destruct (decide (t = t')) as [<-|]; [by rewrite Hv|done]. }
    destruct (rp_on_exhausted p) eqn:Hx; cbn [action_of]; rewrite set_task_ret; cbn [fst snd store_update registry_store];
      rewrite !app_nil_r.
    + assert (forall e, env_reflect env = Some (Raise e) -> is_exception e = true) as Hr by (intros e He; apply Hexc; by right).
      unfold reflect_end; destruct (env_reflect env) as [[[]|e]|]; try rewrite (Hr e eq_refl); eexists _, _; (split; [reflexivity|]);
        (split; [done|]); (split; [exact Hact|]); (split; [by rewrite Hup, decide_True by done|]);
        intros t' Ht; by rewrite Hup, decide_False by congruence.
    + eexists _, _. do 2 (split; [reflexivity|]). split; [exact Hact|]. split; [by rewrite Hup, decide_True by done|].
      intros t' Ht. by rewrite Hup, decide_False by congruence.
    + eexists _, _. do 2 (split; [reflexivity|]). split; [exact Hact|]. split; [by rewrite Hup, decide_True by done|].
      intros t' Ht. by rewrite Hup, decide_False by congruence.
Qed.

(** Witnesses. *)
Definition sample_registry : task_registry :=
  exec_ops [Register (mkDescriptor "t1" "s1" tk_root "goal" None [] (mkPolicy 2 1000 5000 ex_escalate 60000) []);
            StartAttempt (mkAttempt "a1" "t1" "r1" 1 "2024" None None None None) 5;
            CompleteAttempt "t1" "r1" ao_failed None "2025"] (empty_registry 10 None).
Definition sample_env : engine_env := mkEnv (Some (Ret (Some "r2"))) None "a2" "2026".

(** Three failures one after another, the first two launched. *)
Definition one_by_one : list engine_label :=
  [EBegin true false "t1" None; EEnd 0 sample_env; EBegin true false "t1" None; EBegin true false "t1" None].
(** Two failures whose retries overlap. *)
Definition overlapping : list engine_label :=
  [EBegin true false "t1" None; EBegin true false "t1" None; EEnd 0 sample_env; EEnd 0 (mkEnv (Some (Ret (Some "r3"))) None "a3" "2027")].

Lemma retries_bounded_witness :
  let y := engine_run (H := registry_store 7) one_by_one (mkSystem (sample_registry, []) []) in
  overlap (H := registry_store 7) "t1" one_by_one (mkSystem (sample_registry, []) []) = 1 /\
  length (get_attempts "t1" (es_world y).1) <= 1 `max` (2 + 0) /\ Forall (capped (H := registry_store 7) sample_registry) (es_world y).2.
Proof.
  split; [vm_compute; reflexivity|].
  exact (retries_bounded task_registry (registry_store 7) (registry_laws 7) one_by_one sample_registry "t1"
           (mkPolicy 2 1000 5000 ex_escalate 60000) eq_refl).
Defined.

(** The limit of two attempts is passed when two retries overlap: each counted the
    attempts before the other recorded its own, and both are numbered two. *)
Example overlapping_retries :
  let y := engine_run (H := registry_store 7) overlapping (mkSystem (sample_registry, []) []) in
  ta_attempt_seq <$> get_attempts "t1" (es_world y).1 = [1%Z; 2%Z; 2%Z] /\ es_waiting y = [] /\
  (es_world y).2 = [("t1", 1000%Z); ("t1", 1000%Z)].
Proof. vm_compute. repeat split. Qed.

Lemma failure_handled_witness :
  exists answer r',
    handle_failure (H := registry_store 7) sample_env "t1" None (sample_registry, []) = (Ret answer, (r', [("t1", 1000%Z)])) /\
    rd_action answer = ra_retry /\ (fst <$> task_view "t1" r') = Some ts_restarting /\
    length (get_attempts "t1" r') = 2.
Proof.
  destruct (failure_handled 7 sample_env "t1" None sample_registry []
    (mkDescriptor "t1" "s1" tk_root "goal" None [] (mkPolicy 2 1000 5000 ex_escalate 60000) []))
    as (answer & r' & Hh & Ht & Ha & Hv & Ho).
  - vm_compute. reflexivity.
  - intros e [He|He]; discriminate He.
  - exists answer, r'. split; [exact Hh|]. split; [exact Ha|]. split; [rewrite Hv; reflexivity|].
    unfold get_attempts. unfold task_view in Hv. destruct (od_get "t1" (tr_tasks r')) as [e|]; [|discriminate Hv].
    injection Hv as _ Hatt. rewrite Hatt. reflexivity.
Defined.
