(* ===== verification/TaskDag.v ===== *)
(** * Task DAG and its executor ([hi_agent/task_decomposition])

    [TaskDAG] (dag.py): nodes by id, successors as sets; cycle detection on every new
    edge, ready nodes, topological order and levels.  [DAGExecutor] (executor.py)
    runs ready nodes step by step and rolls back dependencies of a failed node.
    Nodes are the objects of the dictionary, reached by their id.  Python sets are
    finite sets iterated in some order ([SetOrder]); the recursion limit left to
    [has_cycle] is [depth]; [TaskContract] is carried, never read.  The executed
    callback sees the node and the calls before it. *)

From stdpp Require Import base tactics option list strings gmap pretty.
From Stdlib Require Import ZArith.
From S2P Require Import Prelude PyStr PyDict PyVal Graph.
#[local] Arguments String.append : simpl nomatch.

Inductive TaskNodeState := PENDING | READY | RUNNING | COMPLETED | FAILED | ROLLED_BACK | SKIPPED.

#[export] Instance TaskNodeState_eq_dec : EqDecision TaskNodeState.
Proof. solve_decision. Defined.

(** [state.value] *)
Definition state_value (st : TaskNodeState) : string :=
  match st with
  | PENDING => "pending" | READY => "ready" | RUNNING => "running" | COMPLETED => "completed"
  | FAILED => "failed" | ROLLED_BACK => "rolled_back" | SKIPPED => "skipped"
  end.

Section dag.
Context `{!SetOrder} {TaskContract : Type}.

Record TaskNode := mkNode {
  node_id : string;
  task_contract : TaskContract;
  node_state : TaskNodeState;
  dependencies : list string;
  dependents : list string;
  node_result : option (odict string pyval);
  failure_reason : option string;
  retry_count : Z;
  max_retries : Z;
  rollback_policy : string
}.

Record TaskDAG := mkDag { dg_nodes : odict string TaskNode; dg_edges : odict string (gset string) }.

Definition empty_dag : TaskDAG := mkDag [] [].

(** Assignments to fields of a node object. *)
Definition set_node_state (st : TaskNodeState) (n : TaskNode) : TaskNode :=
  mkNode (node_id n) (task_contract n) st (dependencies n) (dependents n) (node_result n) (failure_reason n)
    (retry_count n) (max_retries n) (rollback_policy n).
Definition set_node_result (v : option (odict string pyval)) (n : TaskNode) : TaskNode :=
  mkNode (node_id n) (task_contract n) (node_state n) (dependencies n) (dependents n) v (failure_reason n)
    (retry_count n) (max_retries n) (rollback_policy n).
Definition set_failure_reason (v : option string) (n : TaskNode) : TaskNode :=
  mkNode (node_id n) (task_contract n) (node_state n) (dependencies n) (dependents n) (node_result n) v
    (retry_count n) (max_retries n) (rollback_policy n).
Definition set_dependencies (l : list string) (n : TaskNode) : TaskNode :=
  mkNode (node_id n) (task_contract n) (node_state n) l (dependents n) (node_result n) (failure_reason n)
    (retry_count n) (max_retries n) (rollback_policy n).
Definition set_dependents (l : list string) (n : TaskNode) : TaskNode :=
  mkNode (node_id n) (task_contract n) (node_state n) (dependencies n) l (node_result n) (failure_reason n)
    (retry_count n) (max_retries n) (rollback_policy n).

Definition upd_node (nid : string) (f : TaskNode -> TaskNode) (g : TaskDAG) : TaskDAG :=
  match od_get nid (dg_nodes g) with
  | Some n => mkDag (od_set nid (f n) (dg_nodes g)) (dg_edges g)
  | None => g
  end.
Definition put_edges (f : odict string (gset string) -> odict string (gset string)) (g : TaskDAG) : TaskDAG :=
  mkDag (dg_nodes g) (f (dg_edges g)).

(** [self._edges.get(nid, set())] *)
Definition targets (g : TaskDAG) (nid : string) : gset string := default ∅ (od_get nid (dg_edges g)).
Definition succ (g : TaskDAG) (nid : string) : list string := set_iter (targets g nid).

(** [add_node] *)
Definition add_node (node : TaskNode) : PyM TaskDAG unit :=
  g ← py_get;
  if od_mem (node_id node) (dg_nodes g) then py_raise (ValueError ("Node '" +:+ node_id node +:+ "' already exists in DAG"))
  else py_put (mkDag (od_set (node_id node) node (dg_nodes g)) (od_set (node_id node) (targets g (node_id node)) (dg_edges g))).

(** [has_cycle] *)
Definition has_cycle (depth : nat) (g : TaskDAG) : outcome bool :=
  (dfs_any (succ g) depth (od_keys (dg_nodes g)) (all_white (od_keys (dg_nodes g)))).1.

(** [add_edge]: the edge, the check, then the lists of the nodes. *)
Definition append_new (x : string) (l : list string) : list string := if decide (x ∈ l) then l else l ++ [x].

Definition add_edge (depth : nat) (from_id to_id : string) : PyM TaskDAG unit :=
  g ← py_get;
  if negb (od_mem from_id (dg_nodes g)) then py_raise (ValueError ("Source node '" +:+ from_id +:+ "' not in DAG"))
  else if negb (od_mem to_id (dg_nodes g)) then py_raise (ValueError ("Target node '" +:+ to_id +:+ "' not in DAG"))
  else
    _ ← py_modify (put_edges (od_set from_id (targets g from_id ∪ {[to_id]})));
    g' ← py_get;
    cyclic ← py_lift (has_cycle depth g');
    if (cyclic : bool) then
      _ ← py_modify (put_edges (od_set from_id (targets g' from_id ∖ {[to_id]})));
      py_raise (ValueError ("Edge '" +:+ from_id +:+ "' -> '" +:+ to_id +:+ "' would create a cycle"))
    else
      _ ← py_modify (upd_node from_id (fun n => set_dependents (append_new to_id (dependents n)) n));
      py_modify (upd_node to_id (fun n => set_dependencies (append_new from_id (dependencies n)) n)).

Definition get_node (nid : string) : PyM TaskDAG TaskNode :=
  g ← py_get;
  match od_get nid (dg_nodes g) with
  | Some n => mret n
  | None => py_raise (KeyError ("Node '" +:+ nid +:+ "' not found in DAG"))
  end.

(** [all(self._nodes[dep].state == COMPLETED for dep in deps)] *)
Fixpoint all_completed (g : TaskDAG) (deps : list string) : outcome bool :=
  match deps with
  | [] => Ret true
  | dep :: deps =>
      match od_get dep (dg_nodes g) with
      | None => Raise (KeyError dep)
      | Some n => if decide (node_state n = COMPLETED) then all_completed g deps else Ret false
      end
  end.

(** [get_ready_nodes], as ids of the nodes. *)
Fixpoint ready_among (g : TaskDAG) (nodes : list TaskNode) : outcome (list TaskNode) :=
  match nodes with
  | [] => Ret []
  | n :: nodes =>
      if decide (node_state n = PENDING) then
        all_deps_done ← all_completed g (dependencies n);
        rest ← ready_among g nodes;
        Ret (if (all_deps_done : bool) then n :: rest else rest)
      else ready_among g nodes
  end.

Definition get_ready_nodes (g : TaskDAG) : outcome (list TaskNode) := ready_among g (dg_nodes g).*2.

(** The transitions. *)
Definition cannot_mark (nid what : string) (st : TaskNodeState) : exn :=
  ValueError ("Cannot mark '" +:+ nid +:+ "' as " +:+ what +:+ " from state " +:+ state_value st).

Definition mark_running (nid : string) : PyM TaskDAG unit :=
  n ← get_node nid;
  if decide (node_state n ∈ [PENDING; READY]) then py_modify (upd_node nid (set_node_state RUNNING))
  else py_raise (cannot_mark nid "running" (node_state n)).

Definition mark_completed (nid : string) (result : option (odict string pyval)) : PyM TaskDAG unit :=
  n ← get_node nid;
  if decide (node_state n = RUNNING) then
    py_modify (upd_node nid (fun n => set_node_result result (set_node_state COMPLETED n)))
  else py_raise (cannot_mark nid "completed" (node_state n)).

Definition mark_failed (nid reason : string) : PyM TaskDAG unit :=
  n ← get_node nid;
  if decide (node_state n = RUNNING) then
    py_modify (upd_node nid (fun n => set_failure_reason (Some reason) (set_node_state FAILED n)))
  else py_raise (cannot_mark nid "failed" (node_state n)).

(** [topological_sort] and [get_parallel_groups]; the targets of all edge sets. *)
Definition all_targets (g : TaskDAG) : list string := (dg_edges g).*2 ≫= set_iter.

Definition topological_sort (g : TaskDAG) : outcome (list string) :=
  in_degree ← in_degrees (od_keys (dg_nodes g)) (all_targets g);
  result ← kahn (succ g) (length (dg_nodes g)) (sort_ids (zero_nodes in_degree)) [] in_degree;
  if decide (length result = length (dg_nodes g)) then Ret result else Raise (ValueError "DAG contains a cycle").

Definition get_parallel_groups (g : TaskDAG) : outcome (list (list string)) :=
  if decide (dg_nodes g = []) then Ret []
  else
    in_degree ← in_degrees (od_keys (dg_nodes g)) (all_targets g);
    levels (fun nid => sort_ids (succ g nid)) (length (dg_nodes g)) (sort_ids (zero_nodes in_degree)) in_degree.

(** [get_subgraph]: the nodes collected from the roots, their clones and edges. *)
Definition unvisited_succ (g : TaskDAG) (visited : list string) (nid : string) : list string :=
  filter (fun t => t ∉ visited) (succ g nid).

Definition collect_dependents (g : TaskDAG) (root_ids : list string) : list string :=
  bfs (unvisited_succ g) (length root_ids + sum_list_with (fun kv => size kv.2) (dg_edges g)) [] root_ids.

Definition clone_within (collected : gset string) (n : TaskNode) : TaskNode :=
  set_dependencies (filter (fun d => d ∈ collected) (dependencies n))
    (set_dependents (filter (fun d => d ∈ collected) (dependents n)) n).

Definition get_subgraph (g : TaskDAG) (root_ids : list string) : outcome TaskDAG :=
  match List.find (fun rid => negb (od_mem rid (dg_nodes g))) root_ids with
  | Some rid => Raise (KeyError ("Root node '" +:+ rid +:+ "' not found in DAG"))
  | None =>
      let collected : gset string := list_to_set (collect_dependents g root_ids) in
      let ids := set_iter collected in
      nodes ← mapM (fun nid => from_option Ret (Raise (KeyError nid)) (od_get nid (dg_nodes g))) ids;
      Ret (mkDag (foldl (fun d n => od_set (node_id n) (clone_within collected n) d) [] nodes)
             (map (fun nid => (nid, targets g nid ∩ collected)) ids))
  end.

Definition is_complete (g : TaskDAG) : bool :=
  forallb (fun n => bool_decide (node_state n ∈ [COMPLETED; SKIPPED])) (dg_nodes g).*2.
Definition is_failed (g : TaskDAG) : bool := existsb (fun n => bool_decide (node_state n = FAILED)) (dg_nodes g).*2.

(** [validate]: the issues. *)
Definition dangling (g : TaskDAG) (nid what : string) (deps : list string) : list string :=
  map (fun dep => "Node '" +:+ nid +:+ "' references unknown " +:+ what +:+ " '" +:+ dep +:+ "'")
    (filter (fun dep => od_mem dep (dg_nodes g) = false) deps).

Definition orphan (g : TaskDAG) (nid : string) : bool :=
  negb (existsb (fun kv => bool_decide (nid ∈ kv.2)) (dg_edges g)) && bool_decide (targets g nid = ∅).

Definition validate (depth : nat) (g : TaskDAG) : outcome (list string) :=
  if decide (dg_nodes g = []) then Ret ["DAG has no nodes"]
  else
    cyclic ← has_cycle depth g;
    Ret ((if (cyclic : bool) then ["DAG contains a cycle"] else []) ++
         ((dg_nodes g) ≫= fun kv => dangling g kv.1 "dependency" (dependencies kv.2) ++
                                   dangling g kv.1 "dependent" (dependents kv.2)) ++
         (if decide (1 < length (dg_nodes g)) then
            map (fun nid => "Node '" +:+ nid +:+ "' is an orphan (no edges)")
              (filter (fun nid => orphan g nid = true) (od_keys (dg_nodes g)))
          else [])).

(** The executor ([executor.py]) *)

Record DAGProgress := mkProgress {
  pg_completed : nat;
  pg_total : nat;
  pg_running : list string;
  pg_failed : list string
}.

Record DAGStepResult := mkStepResult {
  sr_dispatched : list string;
  sr_completed : list string;
  sr_failed : list string;
  sr_is_terminal : bool
}.

Record DAGResult := mkDagResult {
  rs_success : bool;
  rs_completed_nodes : list string;
  rs_failed_nodes : list string;
  rs_rolled_back_nodes : list string;
  rs_total_steps : nat
}.

(** The executor: the DAG, [_rolled_back], and the calls of [execute_fn] so far. *)
Record executor := mkExecutor { ex_dag : TaskDAG; ex_rolled_back : list string; ex_calls : list string }.

Definition on_dag {A} (m : PyM TaskDAG A) : PyM executor A :=
  py_zoom ex_dag (fun g x => mkExecutor g (ex_rolled_back x) (ex_calls x)) m.

(** The nodes in a state, by id. *)
Definition ids_in (st : TaskNodeState) (g : TaskDAG) : list string :=
  fst <$> filter (fun kv : string * TaskNode => node_state kv.2 = st) (dg_nodes g).

Definition _has_running (g : TaskDAG) : bool := negb (bool_decide (ids_in RUNNING g = [])).

Definition _make_progress (g : TaskDAG) : DAGProgress :=
  mkProgress (length (ids_in COMPLETED g)) (length (dg_nodes g)) (ids_in RUNNING g) (ids_in FAILED g).

(** [rollback]: the loop over nodes to roll back, and the nodes. *)
Fixpoint roll_back_each (nids : list string) : PyM TaskDAG (list string) :=
  match nids with
  | [] => mret []
  | nid :: nids =>
      n ← get_node nid;
      if decide (node_state n = COMPLETED) then
        _ ← py_modify (upd_node nid (set_node_state ROLLED_BACK));
        rest ← roll_back_each nids; mret (nid :: rest)
      else roll_back_each nids
  end.

Definition deps_of (g : TaskDAG) (nid : string) : list string := from_option dependencies [] (od_get nid (dg_nodes g)).

(** The transitive dependencies in the order the cascade visits them; rolling a node
    back does not change dependencies. *)
Definition cascade_order (g : TaskDAG) (deps : list string) : list string :=
  bfs (fun _ nid => deps_of g nid) (length deps + sum_list_with (fun kv => length (dependencies kv.2)) (dg_nodes g)) [] deps.

Definition rollback (failed_node_id : string) : PyM TaskDAG (list string) :=
  failed_node ← get_node failed_node_id;
  g ← py_get;
  if decide (rollback_policy failed_node = "none") then mret []
  else if decide (rollback_policy failed_node = "compensate") then roll_back_each (dependencies failed_node)
  else roll_back_each (cascade_order g (dependencies failed_node)).

Section run.
Context (execute_fn : list string -> TaskNode -> outcome (odict string pyval)).
Context (on_progress : option (DAGProgress -> outcome unit)) (str_exc : exn -> string).

(** [self.execute_fn(node)] *)
Definition call (nid : string) : PyM executor (odict string pyval) :=
  x ← py_get;
  n ← on_dag (get_node nid);
  _ ← py_modify (fun x => mkExecutor (ex_dag x) (ex_rolled_back x) (ex_calls x ++ [nid]));
  py_lift (execute_fn (ex_calls x) n).

(** "Apply rollback policy." *)
Definition apply_rollback_policy (node : TaskNode) : PyM executor unit :=
  if decide (rollback_policy node ∈ ["compensate"; "cascade"]) then
    ids ← on_dag (rollback (node_id node));
    py_modify (fun x => mkExecutor (ex_dag x) (ex_rolled_back x ++ ids) (ex_calls x))
  else mret tt.

(** One ready node: whether it completed. *)
Definition exec_node (node : TaskNode) : PyM executor bool :=
  _ ← on_dag (mark_running (node_id node));
  r ← py_catch (result ← call (node_id node); on_dag (mark_completed (node_id node) (Some result)));
  match r with
  | inl _ => mret true
  | inr exc =>
      _ ← on_dag (mark_failed (node_id node) (str_exc exc));
      _ ← apply_rollback_policy node;
      mret false
  end.

(** The loop over ready nodes: the ids that completed and those that failed. *)
Fixpoint exec_ready (ready : list TaskNode) : PyM executor (list string * list string) :=
  match ready with
  | [] => mret ([], [])
  | node :: ready =>
      ok ← exec_node node;
      rest ← exec_ready ready;
      mret (if (ok : bool) then (node_id node :: rest.1, rest.2) else (rest.1, node_id node :: rest.2))
  end.

Definition step : PyM executor DAGStepResult :=
  x ← py_get;
  ready ← py_lift (get_ready_nodes (ex_dag x));
  if bool_decide (length ready = 0) && negb (_has_running (ex_dag x)) then mret (mkStepResult [] [] [] true)
  else
    outcomes ← exec_ready ready;
    x' ← py_get;
    _ ← py_lift (match on_progress with Some f => f (_make_progress (ex_dag x')) | None => Ret tt end);
    is_terminal ← py_lift (if is_complete (ex_dag x') then Ret true
                           else if is_failed (ex_dag x') then
                             (fun l : list TaskNode => bool_decide (length l = 0)) <$> get_ready_nodes (ex_dag x')
                           else Ret false);
    mret (mkStepResult (node_id <$> ready) outcomes.1 outcomes.2 is_terminal).

(** The [while True] of [run_to_completion], [None] when [fuel] steps do not end it:
    the number of steps. *)
Fixpoint run_steps (fuel : nat) : PyM executor (option nat) :=
  match fuel with
  | 0 => mret None
  | S fuel =>
      result ← step;
      if sr_is_terminal result then mret (Some 1)
      else rest ← run_steps fuel; mret (S <$> rest)
  end.

Definition run_to_completion (fuel : nat) : PyM executor (option DAGResult) :=
  total_steps ← run_steps fuel;
  x ← py_get;
  mret ((fun n => mkDagResult (is_complete (ex_dag x)) (ids_in COMPLETED (ex_dag x)) (ids_in FAILED (ex_dag x))
                    (ex_rolled_back x) n) <$> total_steps).
End run.
End dag.
