(* ===== verification/TaskDagSpec.v ===== *)
(** * What the task DAG promises

    Cycle detection, orders and sub-DAGs of [TaskDAG], over the graph lemmas, for
    every order of iteration over sets. *)

From stdpp Require Import base tactics option list strings gmap relations sorting.
From Stdlib Require Import ZArith.
From S2P Require Import Prelude PyStr PyDict PyVal Graph TaskDag.
#[local] Arguments String.append : simpl nomatch.

Section spec.
Context `{!SetOrder} {C : Type}.
Abbreviation task_node := (@TaskNode C).
Abbreviation task_dag := (@TaskDAG C).
Implicit Types (g : task_dag) (n : task_node).

(** The ids of a DAG, and what holds of its dictionaries. *)
Definition ids g : list string := od_keys (dg_nodes g).

Record dag_wf g : Prop := {
  dw_nodes : od_wf (dg_nodes g);
  dw_ids : Forall (fun kv => node_id kv.2 = kv.1) (dg_nodes g);
  dw_edges : od_keys (dg_edges g) = ids g;
  dw_targets : forall u v, v ∈ targets g u -> v ∈ ids g
}.

Lemma elem_of_succ g u v : v ∈ succ g u <-> v ∈ targets g u.
Proof. apply elem_of_set_iter. Qed.

Lemma succ_ids g u v : dag_wf g -> u ∈ ids g -> v ∈ succ g u -> v ∈ ids g.
Proof. intros Hg _ Hv%elem_of_succ. by eapply dw_targets. Qed.

Lemma succ_outside g u : dag_wf g -> u ∉ ids g -> succ g u = [].
Proof. intros Hg Hu. apply (succ_of_outside (dg_edges g)). by rewrite (dw_edges g Hg). Qed.

Lemma all_targets_succ g : dag_wf g -> all_targets g = ids g ≫= succ g.
Proof.
  intros Hg. rewrite <-(dw_edges g Hg). unfold all_targets, od_keys.
  assert (od_wf (dg_edges g)) as Hwf by (unfold od_wf; rewrite (dw_edges g Hg); apply dw_nodes, Hg).
  assert (forall l : odict string (gset string), (forall k s, (k, s) ∈ l -> od_get k (dg_edges g) = Some s) ->
    l.*2 ≫= set_iter = l.*1 ≫= succ g) as Hl.
  { induction l as [|[k s] l IH]; intros Hin; [done|]. rewrite !fmap_cons, !bind_cons. cbn [fst snd]. rewrite IH.
    - f_equal. unfold succ, targets. by rewrite (Hin k s) by by left.
    - intros k' s' Hk. apply Hin. by right. }
  apply Hl. intros k s Hin. by apply od_get_elem.
Qed.

Lemma cycle_dec g depth : dag_wf g -> length (dg_nodes g) <= depth ->
  exists b, has_cycle depth g = Ret b /\ (if b then exists x, tc (edge (succ g)) x x else acyclic (succ g)).
Proof.
  intros Hg Hd. apply dfs_any_cycle.
  - intros u v. by apply succ_ids.
  - intros u. by apply succ_outside.
  - unfold od_keys. by rewrite length_fmap.
Qed.

Lemma NoDup_ids g : dag_wf g -> NoDup (ids g).
Proof. apply dw_nodes. Qed.

Lemma length_ids g : length (ids g) = length (dg_nodes g).
Proof. apply length_fmap. Qed.

(** The topological order of the ids: every edge goes forward. *)
Definition topological g (l : list string) : Prop :=
  l ≡ₚ ids g /\ forall l1 v l2, l = l1 ++ v :: l2 -> forall u, v ∈ targets g u -> u ∈ l1.

Lemma targets_source g u v : dag_wf g -> v ∈ targets g u -> u ∈ ids g.
Proof.
  intros Hg Hv%elem_of_succ. destruct (decide (u ∈ ids g)) as [|Hu]; [done|].
  rewrite (succ_outside g u Hg Hu) in Hv. by apply not_elem_of_nil in Hv.
Qed.

Lemma topological_sort_result g : dag_wf g ->
  (acyclic (succ g) -> exists l, topological_sort g = Ret l /\ topological g l) /\
  (~ acyclic (succ g) -> topological_sort g = Raise (ValueError "DAG contains a cycle")).
Proof.
  intros Hg. pose proof (fun u v => succ_ids g u v Hg) as Hclosed. pose proof (NoDup_ids g Hg) as Hnd.
  destruct (kahn_start (succ g) (ids g) Hnd Hclosed (all_targets g)) as (d & Hd & Hinv & _).
  { by rewrite all_targets_succ. }
  destruct (kahn_spec (succ g) (ids g) Hnd Hclosed (length (dg_nodes g)) (sort_ids (zero_nodes d)) [] d) as (l & Hl & Hex).
  { eapply kahn_inv_perm; [|done]. symmetry. apply merge_sort_Permutation. }
  { by rewrite length_ids. }
  destruct (exhausted_acyclic (succ g) (ids g) Hnd Hclosed l (fun u => succ_outside g u Hg) Hex) as [Hiff Hperm].
  rewrite length_ids in Hiff. unfold topological_sort. fold (ids g). rewrite Hd. simpl. rewrite Hl. simpl. split.
  - intros Ha. rewrite decide_True by by apply Hiff. exists l. split; [done|]. split; [by apply Hperm|].
    intros l1 v l2 Heq u Hu. destruct Hex as (_ & _ & Hord & _). apply (Hord l1 v l2 Heq u).
    + by eapply targets_source.
    + by apply elem_of_succ.
  - intros Hc. rewrite decide_False; [done|]. by rewrite Hiff.
Qed.

(** The levels: a partition of the ids, each node after the levels of all its
    dependencies and right after the level of one of them. *)
Definition levelled g (groups : list (list string)) : Prop :=
  concat groups ≡ₚ ids g /\ layered (succ g) (ids g) [] [] groups.

Lemma parallel_groups_result g : dag_wf g -> acyclic (succ g) ->
  exists groups, get_parallel_groups g = Ret groups /\ levelled g groups.
Proof.
  intros Hg Ha. unfold get_parallel_groups. destruct (decide (dg_nodes g = [])) as [Hnil|Hne].
  { exists []. split; [done|]. split; [|done]. unfold ids. by rewrite Hnil. }
  pose proof (fun u v => succ_ids g u v Hg) as Hclosed. pose proof (NoDup_ids g Hg) as Hnd.
  destruct (kahn_start (succ g) (ids g) Hnd Hclosed (all_targets g)) as (d & Hd & Hinv & _).
  { by rewrite all_targets_succ. }
  destruct (levels_spec (succ g) (ids g) Hnd Hclosed (fun nid => sort_ids (succ g nid))
    (fun u => merge_sort_Permutation _ _) (length (dg_nodes g)) (sort_ids (zero_nodes d)) [] [] d) as (groups & Hl & Hex & Hlay).
  { eapply kahn_inv_perm; [|done]. symmetry. apply merge_sort_Permutation. }
  { by rewrite length_ids. }
  { done. }
  exists groups. fold (ids g). rewrite Hd. simpl. rewrite Hl. split; [done|]. split; [|done].
  by apply (exhausted_acyclic (succ g) (ids g) Hnd Hclosed (concat groups) (fun u => succ_outside g u Hg) Hex).
Qed.

(** Assignments to node objects keep the graph. *)
Lemma upd_node_get nid f g x : od_get x (dg_nodes (upd_node nid f g)) =
  if decide (nid = x) then f <$> od_get x (dg_nodes g) else od_get x (dg_nodes g).
Proof.
  unfold upd_node. destruct (od_get nid (dg_nodes g)) as [n|] eqn:Hn; simpl.
  - case_decide as Hx; [|by apply od_get_set_ne]. subst. by rewrite od_get_set_eq, Hn.
  - case_decide as Hx; [|done]. subst. by rewrite Hn.
Qed.

Lemma upd_node_ids nid f g : ids (upd_node nid f g) = ids g.
Proof.
  unfold upd_node, ids. destruct (od_get nid (dg_nodes g)) as [n|] eqn:Hn; [|done]. simpl. rewrite od_keys_set.
  rewrite decide_True; [done|]. apply od_get_is_Some. by rewrite Hn.
Qed.

Lemma upd_node_edges nid f g : dg_edges (upd_node nid f g) = dg_edges g.
Proof. unfold upd_node. by destruct (od_get nid (dg_nodes g)). Qed.

Lemma upd_node_targets nid f g u : targets (upd_node nid f g) u = targets g u.
Proof. unfold targets. by rewrite upd_node_edges. Qed.

Lemma Forall_od_set {V} (P : string * V -> Prop) k v (d : odict string V) : Forall P d -> P (k, v) -> Forall P (od_set k v d).
Proof.
  intros Hd Hv. induction Hd as [|[k' v'] d Hx Hd IH]; simpl; [by repeat constructor|]. by case_decide; constructor.
Qed.

Lemma upd_node_wf nid f g : (forall n, node_id (f n) = node_id n) -> dag_wf g -> dag_wf (upd_node nid f g).
Proof.
  intros Hf [Hw Hi He Ht]. split.
  - unfold upd_node. destruct (od_get nid (dg_nodes g)); [by apply od_wf_set|done].
  - unfold upd_node. destruct (od_get nid (dg_nodes g)) as [n|] eqn:Hn; [|done]. apply Forall_od_set; [done|]. simpl.
    rewrite Hf. apply od_get_Some in Hn. rewrite Forall_forall in Hi. exact (Hi _ Hn).
  - by rewrite upd_node_edges, upd_node_ids.
  - intros u v. rewrite upd_node_targets, upd_node_ids. apply Ht.
Qed.

(** Adding an edge to the sets. *)
Lemma put_edge_targets g u s x : targets (put_edges (od_set u s) g) x = if decide (u = x) then s else targets g x.
Proof.
  unfold targets. simpl. destruct (decide (u = x)) as [<-|Hne]; [by rewrite od_get_set_eq|by rewrite od_get_set_ne].
Qed.

Lemma put_edge_wf g u s : dag_wf g -> u ∈ ids g -> (forall v, v ∈ s -> v ∈ ids g) -> dag_wf (put_edges (od_set u s) g).
Proof.
  intros [Hw Hi He Ht] Hu Hs. split; [done|done| |].
  - simpl. rewrite od_keys_set, He, decide_True by done. done.
  - intros x v. rewrite put_edge_targets. case_decide; [apply Hs|apply Ht].
Qed.

Lemma od_set_id {V} k (v : V) (d : odict string V) : od_get k d = Some v -> od_set k v d = d.
Proof.
  induction d as [|[k' v'] d IH]; [done|]. simpl. destruct (decide (k = k')) as [->|]; [by intros [= ->]|].
  intros Hg. by rewrite IH.
Qed.

(** A cycle through a new edge is a path back along the old ones. *)
Lemma new_edge_cycle (R R' : string -> string -> Prop) a b : (forall x y, R' x y <-> R x y \/ (x = a /\ y = b)) ->
  (forall x, ~ tc R x x) -> (exists x, tc R' x x) <-> rtc R b a.
Proof.
  intros HR Hac. split.
  - assert (forall x y, rtc R' x y -> rtc R x y \/ (rtc R x a /\ rtc R b y)) as Hsplit.
    { intros x y Hxy. induction Hxy as [x|x y z Hxy Hyz IH]; [by left|]. apply HR in Hxy as [Hxy|[-> ->]].
      - destruct IH as [Hr|[Hr1 Hr2]]; [left; by eapply rtc_l|right; split; [by eapply rtc_l|done]].
      - right. split; [done|]. by destruct IH as [|[]]. }
    intros [x (y & Hxy & Hyx)%tc_first]. apply HR in Hxy as [Hxy|[-> ->]].
    + destruct (Hsplit y x Hyx) as [Hr|[Hr1 Hr2]].
      * exfalso. apply (Hac x). apply (tc_rtc_r x y x); [by apply tc_once|done].
      * transitivity x; [done|]. by eapply rtc_l.
    + destruct (Hsplit b a Hyx) as [|[]]; done.
  - intros Hba. exists b. assert (rtc R' b a) as Hba'.
    { assert (forall x y, R x y -> R' x y) as Hsub by (intros x y Hxy; apply HR; by left). clear HR Hac.
      induction Hba as [|x y z Hxy Hyz IH]; [done|]. by eapply rtc_l; [apply Hsub|]. }
    eapply tc_rtc_l; [exact Hba'|]. apply tc_once, HR. by right.
Qed.

Definition cycle_error (from_id to_id : string) : exn :=
  ValueError ("Edge '" +:+ from_id +:+ "' -> '" +:+ to_id +:+ "' would create a cycle").

Definition linked (from_id to_id : string) g : task_dag :=
  upd_node to_id (fun n => set_dependencies (append_new from_id (dependencies n)) n)
    (upd_node from_id (fun n => set_dependents (append_new to_id (dependents n)) n)
      (put_edges (od_set from_id (targets g from_id ∪ {[to_id]})) g)).

Lemma linked_targets from_id to_id g x :
  targets (linked from_id to_id g) x = if decide (from_id = x) then targets g from_id ∪ {[to_id]} else targets g x.
Proof. unfold linked. rewrite !upd_node_targets. apply put_edge_targets. Qed.

Lemma linked_wf from_id to_id g : dag_wf g -> from_id ∈ ids g -> to_id ∈ ids g -> dag_wf (linked from_id to_id g).
Proof.
  intros Hg Hf Ht. unfold linked. do 2 (apply upd_node_wf; [done|]). apply put_edge_wf; [done..|].
  intros v [Hv|Hv%elem_of_singleton]%elem_of_union; [by eapply dw_targets|by subst].
Qed.

Lemma edge_ext g g' x y : (forall x, targets g x = targets g' x) -> edge (succ g) x y -> edge (succ g') x y.
Proof. intros Heq. unfold edge. rewrite !elem_of_succ. by rewrite Heq. Qed.

Lemma acyclic_ext g g' : (forall x, targets g x = targets g' x) -> acyclic (succ g) -> acyclic (succ g').
Proof.
  intros Heq Ha. assert (forall x y, tc (edge (succ g')) x y -> tc (edge (succ g)) x y) as Htc.
  { intros x y Hxy. induction Hxy as [x y Hxy|x y z Hxy _ IH]; [apply tc_once|eapply tc_l; [|done]];
      (apply (edge_ext g' g); [intros w; by rewrite Heq|done]). }
  intros x Hx. by apply (Ha x), Htc.
Qed.

(** Adding an edge between nodes: refused, with nothing changed, exactly when there
    is a path back. *)
Lemma add_edge_result depth g from_id to_id : dag_wf g -> acyclic (succ g) -> length (dg_nodes g) <= depth ->
  from_id ∈ ids g -> to_id ∈ ids g ->
  (rtc (edge (succ g)) to_id from_id /\ add_edge depth from_id to_id g = (Raise (cycle_error from_id to_id), g)) \/
  (~ rtc (edge (succ g)) to_id from_id /\ add_edge depth from_id to_id g = (Ret tt, linked from_id to_id g) /\
   acyclic (succ (linked from_id to_id g))).
Proof.
  intros Hg Ha Hd Hf Ht. unfold add_edge.
  assert (forall x, x ∈ ids g -> od_mem x (dg_nodes g) = true) as Hmem by (intros x Hx; by apply od_mem_true).
  cbv beta iota delta [mbind PyM_bind py_get py_modify py_lift]. rewrite (Hmem _ Hf), (Hmem _ Ht). cbv beta iota delta [negb].
  set (g1 := put_edges (od_set from_id (targets g from_id ∪ {[to_id]})) g) in *.
  assert (dag_wf g1) as Hg1.
  { apply put_edge_wf; [done..|]. intros v [Hv|Hv%elem_of_singleton]%elem_of_union; [by eapply dw_targets|by subst]. }
  assert (forall x y, edge (succ g1) x y <-> edge (succ g) x y \/ (x = from_id /\ y = to_id)) as Hedge.
  { intros x y. unfold edge. rewrite !elem_of_succ. unfold g1. rewrite put_edge_targets.
    destruct (decide (from_id = x)) as [<-|Hne]; [|naive_solver]. rewrite elem_of_union, elem_of_singleton. naive_solver. }
  pose proof (new_edge_cycle _ _ from_id to_id Hedge Ha) as Hcyc.
  destruct (cycle_dec g1 depth Hg1) as (b & Hb & Hiff); [done|]. rewrite Hb. destruct b.
  - left. apply Hcyc in Hiff as Hr. split; [done|]. unfold py_raise. f_equal.
    assert (to_id ∉ targets g from_id) as Hnew.
    { intros Hin. apply (Ha from_id). eapply tc_rtc_r; [|done]. by apply tc_once, elem_of_succ. }
    unfold g1. rewrite put_edge_targets, decide_True by done. unfold put_edges. simpl. rewrite od_set_set.
    destruct g as [nodes edges]. simpl. f_equal. apply od_set_id. unfold targets. simpl.
    assert (from_id ∈ od_keys edges) as Hk by (pose proof (dw_edges _ Hg) as He; simpl in He; by rewrite He). apply od_get_is_Some in Hk as [s Hs].
    unfold targets in Hnew. simpl in Hnew. rewrite Hs in Hnew |- *. simpl in *. f_equal. set_solver.
  - right. split; [|split; [done|]].
    + intros Hr. apply Hcyc in Hr as [x Hx]. by apply (Hiff x).
    + apply (acyclic_ext g1); [|done]. intros x. unfold linked. by rewrite !upd_node_targets.
Qed.

(** Calls that build and drive a DAG. *)
Inductive dag_op :=
  | AddNode (n : task_node)
  | AddEdge (from_id to_id : string)
  | MarkRunning (nid : string)
  | MarkCompleted (nid : string) (result : option (odict string pyval))
  | MarkFailed (nid reason : string).

Definition exec_op (depth : nat) (g : task_dag) (op : dag_op) : task_dag :=
  match op with
  | AddNode n => (add_node n g).2
  | AddEdge u v => (add_edge depth u v g).2
  | MarkRunning nid => (mark_running nid g).2
  | MarkCompleted nid r => (mark_completed nid r g).2
  | MarkFailed nid r => (mark_failed nid r g).2
  end.

(** A node is added without dependencies of its own: [add_edge] writes them. *)
Definition fresh_op (op : dag_op) : Prop :=
  match op with AddNode n => dependencies n = [] /\ dependents n = [] | _ => True end.

(** The lists of the nodes mirror the edges. *)
Definition mirrored g : Prop := forall u n, od_get u (dg_nodes g) = Some n ->
  NoDup (dependents n) /\ NoDup (dependencies n) /\
  (forall v, v ∈ dependents n <-> v ∈ targets g u) /\ (forall v, v ∈ dependencies n <-> u ∈ targets g v).

Definition dag_ok g : Prop := dag_wf g /\ acyclic (succ g) /\ mirrored g.

Lemma elem_of_append_new x y l : x ∈ append_new y l <-> x ∈ l \/ x = y.
Proof.
  unfold append_new. case_decide; [naive_solver|]. rewrite elem_of_app, list_elem_of_singleton. done.
Qed.

Lemma NoDup_append_new y l : NoDup l -> NoDup (append_new y l).
Proof.
  intros Hl. unfold append_new. case_decide as Hy; [done|]. apply NoDup_app. split; [done|]. split; [|apply NoDup_singleton].
  intros x Hx ->%list_elem_of_singleton. done.
Qed.

(** Calls that change only the state of nodes. *)
Lemma upd_state_ok nid f g : (forall n, node_id (f n) = node_id n /\ dependencies (f n) = dependencies n /\ dependents (f n) = dependents n) ->
  dag_ok g -> dag_ok (upd_node nid f g) /\ length (dg_nodes (upd_node nid f g)) = length (dg_nodes g).
Proof.
  intros Hf (Hw & Ha & Hm). split; [split; [|split]|].
  - apply upd_node_wf; [|done]. intros n. by apply Hf.
  - apply (acyclic_ext g); [|done]. intros x. by rewrite upd_node_targets.
  - intros u n. rewrite upd_node_get. intros Hu.
    assert (exists n0, od_get u (dg_nodes g) = Some n0 /\ dependencies n = dependencies n0 /\ dependents n = dependents n0) as
      (n0 & Hn0 & -> & ->).
    { case_decide; [|by exists n]. destruct (od_get u (dg_nodes g)) as [n0|]; [|done]. simpl in Hu. injection Hu as <-.
      exists n0. split; [done|]. by apply Hf. }
    destruct (Hm u n0 Hn0) as (H1 & H2 & H3 & H4). split; [done|]. split; [done|].
    split; intros v; rewrite upd_node_targets; auto.
  - rewrite <-!length_ids. by rewrite upd_node_ids.
Qed.

Lemma linked_mirrored from_id to_id g : mirrored g -> mirrored (linked from_id to_id g).
Proof.
  intros Hm u n. set (g1 := put_edges (od_set from_id (targets g from_id ∪ {[to_id]})) g).
  intros Hu. unfold linked in Hu. rewrite !upd_node_get in Hu. fold g1 in Hu. change (dg_nodes g1) with (dg_nodes g) in Hu.
  assert (exists n0, od_get u (dg_nodes g) = Some n0 /\
    dependents n = (if decide (from_id = u) then append_new to_id (dependents n0) else dependents n0) /\
    dependencies n = (if decide (to_id = u) then append_new from_id (dependencies n0) else dependencies n0)) as
    (n0 & Hn0 & Hd & Hs).
  { destruct (od_get u (dg_nodes g)) as [n0|]; [|by repeat case_decide]. exists n0. split; [done|].
    destruct (decide (to_id = u)), (decide (from_id = u)); simpl in Hu; injection Hu as <-; done. }
  destruct (Hm u n0 Hn0) as (H1 & H2 & H3 & H4). rewrite Hd, Hs. split; [|split; [|split]].
  - destruct (decide (from_id = u)); [by apply NoDup_append_new|done].
  - destruct (decide (to_id = u)); [by apply NoDup_append_new|done].
  - intros v. rewrite linked_targets. destruct (decide (from_id = u)) as [<-|Hne].
    + rewrite elem_of_append_new, H3. set_solver.
    + apply H3.
  - intros v. rewrite linked_targets. destruct (decide (to_id = u)) as [<-|Hne].
    + rewrite elem_of_append_new, H4. destruct (decide (from_id = v)) as [<-|]; set_solver.
    + rewrite H4. destruct (decide (from_id = v)) as [<-|]; set_solver.
Qed.

Lemma add_node_ok n g : dependencies n = [] -> dependents n = [] -> dag_ok g ->
  dag_ok (add_node n g).2 /\ length (dg_nodes (add_node n g).2) <= S (length (dg_nodes g)).
Proof.
  intros Hdeps Hdts (Hw & Ha & Hm). unfold add_node. cbv beta iota delta [mbind PyM_bind py_get py_put py_raise].
  destruct (od_mem (node_id n) (dg_nodes g)) eqn:Hmem; [split; [by split|simpl; lia]|]. cbn [snd].
  assert (node_id n ∉ ids g) as Hnew by (intros Hin; apply od_mem_true in Hin; congruence).
  set (g' := mkDag _ _). assert (forall x, targets g' x = targets g x) as Ht.
  { intros x. unfold targets at 1. simpl. destruct (decide (node_id n = x)) as [<-|Hne]; [by rewrite od_get_set_eq|].
    by rewrite od_get_set_ne. }
  assert (forall x, x ∈ ids g' <-> x = node_id n \/ x ∈ ids g) as Hids by (intros x; apply elem_of_keys_set).
  destruct Hw as [Hn Hi He Htg]. split; [split; [split|split]|].
  - by apply od_wf_set.
  - by apply Forall_od_set.
  - unfold g', ids. simpl. rewrite !od_keys_set. rewrite He. done.
  - intros u v. rewrite Ht, Hids. intros Hv. right. by eapply Htg.
  - by apply (acyclic_ext g).
  - intros u m. simpl. destruct (decide (node_id n = u)) as [<-|Hne].
    + rewrite od_get_set_eq. intros [= <-]. rewrite Hdeps, Hdts. split; [apply NoDup_nil_2|]. split; [apply NoDup_nil_2|].
      split; intros v; rewrite Ht; (split; [by intros []%not_elem_of_nil|]); intros Hv; exfalso; apply Hnew; [|by eapply Htg].
      eapply targets_source; [by split|done].
    + rewrite od_get_set_ne by done. intros Hm'. destruct (Hm u m Hm') as (H1 & H2 & H3 & H4).
      split; [done|]. split; [done|]. split; intros v; rewrite Ht; auto.
  - unfold g'. simpl. rewrite od_set_length. case_match; lia.
Qed.

Lemma add_edge_missing depth u v g : u ∉ ids g \/ v ∉ ids g -> (add_edge depth u v g).2 = g.
Proof.
  intros Hmiss. unfold add_edge. cbv beta iota delta [mbind PyM_bind py_get].
  destruct (od_mem u (dg_nodes g)) eqn:Hu; [|done]. destruct (od_mem v (dg_nodes g)) eqn:Hv; [|done].
  apply od_mem_true in Hu, Hv. by destruct Hmiss.
Qed.

Lemma exec_op_ok depth op g : length (dg_nodes g) <= depth -> fresh_op op -> dag_ok g ->
  dag_ok (exec_op depth g op) /\ length (dg_nodes (exec_op depth g op)) <= S (length (dg_nodes g)).
Proof.
  intros Hd Hf Hok. assert (forall f nid, (forall n, node_id (f n) = node_id n /\ dependencies (f n) = dependencies n /\
    dependents (f n) = dependents n) -> dag_ok (upd_node nid f g) /\ length (dg_nodes (upd_node nid f g)) <= S (length (dg_nodes g))) as Hupd.
  { intros f nid Hn. destruct (upd_state_ok nid f g Hn Hok) as [H1 H2]. split; [done|lia]. }
  assert (dag_ok g /\ length (dg_nodes g) <= S (length (dg_nodes g))) as Hid by (split; [done|lia]).
  destruct op as [n|u v|nid|nid r|nid r]; simpl.
  - destruct Hf. by apply add_node_ok.
  - destruct Hok as (Hw & Ha & Hm). destruct (decide (u ∈ ids g)) as [Hu|Hu], (decide (v ∈ ids g)) as [Hv|Hv].
    + destruct (add_edge_result depth g u v Hw Ha Hd Hu Hv) as [[_ ->]|(_ & -> & Ha')]; [done|]. simpl.
      split; [split; [by apply linked_wf|split; [done|by apply linked_mirrored]]|].
      rewrite <-!length_ids. unfold linked. rewrite !upd_node_ids. apply Nat.le_succ_diag_r.
    + by rewrite add_edge_missing by by right.
    + by rewrite add_edge_missing by by left.
    + by rewrite add_edge_missing by by left.
  - unfold mark_running, get_node. py_simpl. destruct (od_get nid (dg_nodes g)) as [n|]; [|done].
    case_match; [by apply Hupd|done].
  - unfold mark_completed, get_node. py_simpl. destruct (od_get nid (dg_nodes g)) as [n|]; [|done].
    case_match; [by apply Hupd|done].
  - unfold mark_failed, get_node. py_simpl. destruct (od_get nid (dg_nodes g)) as [n|]; [|done].
    case_match; [by apply Hupd|done].
Qed.

(** Sub-DAGs ***********************************************************************)

Lemma pending_targets g : dag_wf g ->
  pending (succ g) [] (ids g) = sum_list_with (fun kv : string * gset string => size kv.2) (dg_edges g).
Proof.
  intros Hg. rewrite <-(dw_edges g Hg). apply pending_succ_of. unfold od_wf. rewrite (dw_edges g Hg). apply dw_nodes, Hg.
Qed.

(** The collected ids are those the roots reach. *)
Lemma collect_reach g roots : dag_wf g ->
  forall x, x ∈ collect_dependents g roots <-> exists r, r ∈ roots /\ rtc (edge (succ g)) r x.
Proof.
  intros Hg. apply (bfs_reach (succ g) (unvisited_succ g)) with (U := ids g).
  - by intros v c x [_ Hx]%list_elem_of_filter.
  - intros v c x Hx. destruct (decide (x ∈ v)); [by left|]. right. by apply list_elem_of_filter.
  - intros v c. apply length_filter.
  - intros c. destruct (decide (c ∈ ids g)); [by left|]. right. by apply succ_outside.
  - by rewrite pending_targets.
Qed.

Lemma reach_ids g roots x : dag_wf g -> roots ⊆ ids g -> (exists r, r ∈ roots /\ rtc (edge (succ g)) r x) -> x ∈ ids g.
Proof.
  intros Hg Hr (r & Hin & Hrx). apply Hr in Hin. induction Hrx as [|a b c Hab Hbc IH]; [done|]. apply IH.
  by apply (succ_ids g a).
Qed.

Lemma mapM_nodes g l : l ⊆ ids g ->
  exists nodes : list task_node, mapM (fun nid => from_option Ret (Raise (KeyError nid)) (od_get nid (dg_nodes g))) l = Ret nodes /\
    Forall2 (fun nid n => od_get nid (dg_nodes g) = Some n) l nodes.
Proof.
  induction l as [|nid l IH]; intros Hl; [by exists []|]. destruct IH as (nodes & Hm & Hf); [intros x Hx; apply Hl; by right|].
  assert (nid ∈ ids g) as [n Hn]%od_get_is_Some by (apply Hl; by left). exists (n :: nodes). split; [|by constructor].
  cbn [mapM]. unfold mbind, mret, outcome_bind, outcome_ret in *. rewrite Hn. simpl. by rewrite Hm.
Qed.

Lemma foldl_od_set {V} (f : task_node -> V) nodes : forall d, NoDup (od_keys d ++ (node_id <$> nodes)) ->
  foldl (fun d n => od_set (node_id n) (f n) d) d nodes = d ++ ((fun n => (node_id n, f n)) <$> nodes).
Proof.
  induction nodes as [|n nodes IH]; intros d Hnd; [by rewrite app_nil_r|]. simpl. rewrite od_set_new.
  - rewrite IH, <-app_assoc; [done|]. unfold od_keys. rewrite fmap_app, <-app_assoc. done.
  - intros Hin. apply NoDup_app in Hnd as (_ & Hd & _). apply (Hd _ Hin). rewrite fmap_cons. by left.
Qed.

(** The nodes of a sub-DAG, and its dictionaries. *)
Definition restricts g s (inside : gset string) : Prop :=
  (forall x, od_get x (dg_nodes s) = (if decide (x ∈ inside) then clone_within inside <$> od_get x (dg_nodes g) else None)) /\
  (forall x, targets s x = if decide (x ∈ inside) then targets g x ∩ inside else ∅) /\
  (forall x, x ∈ ids s <-> x ∈ inside).

Lemma get_map_keys {V} (f : string -> V) l x : od_get x (map (fun k => (k, f k)) l) = if decide (x ∈ l) then Some (f x) else None.
Proof.
  induction l as [|k l IH]; [done|]. simpl. destruct (decide (x = k)) as [->|Hne]; [by rewrite decide_True by by left|].
  rewrite IH. destruct (decide (x ∈ l)); [by rewrite decide_True by by right|]. rewrite decide_False; [done|].
  by intros [|]%elem_of_cons.
Qed.

Lemma get_found_nodes g (f : task_node -> task_node) l nodes x : dag_wf g ->
  Forall2 (fun nid n => od_get nid (dg_nodes g) = Some n) l nodes ->
  od_get x ((fun n => (node_id n, f n)) <$> nodes) = (if decide (x ∈ l) then f <$> od_get x (dg_nodes g) else None) /\
  node_id <$> nodes = l.
Proof.
  intros Hg Hf. assert (forall k n, od_get k (dg_nodes g) = Some n -> node_id n = k) as Hid.
  { intros k n Hk%od_get_Some. pose proof (dw_ids g Hg) as Hi. rewrite Forall_forall in Hi. exact (Hi _ Hk). }
  induction Hf as [|nid n l nodes Hn Hf [IH1 IH2]]; [done|]. rewrite !fmap_cons. cbn [od_get]. rewrite (Hid _ _ Hn), IH2.
  split; [|done]. destruct (decide (x = nid)) as [->|Hne]; [rewrite decide_True by (by left); by rewrite Hn|].
  rewrite IH1. destruct (decide (x ∈ l)); [by rewrite decide_True by by right|]. rewrite decide_False; [done|].
  by intros [|]%elem_of_cons.
Qed.

Lemma get_subgraph_result g roots : dag_wf g -> roots ⊆ ids g ->
  exists s, get_subgraph g roots = Ret s /\ dag_wf s /\ restricts g s (list_to_set (collect_dependents g roots)).
Proof.
  intros Hg Hroots. set (inside := list_to_set (collect_dependents g roots) : gset string). unfold get_subgraph.
  assert (List.find (fun rid => negb (od_mem rid (dg_nodes g))) roots = None) as ->.
  { destruct (List.find _ roots) as [r|] eqn:Hfind; [|done]. apply List.find_some in Hfind as [Hr Hm].
    rewrite <-list_elem_of_In in Hr. apply Hroots, od_mem_true in Hr. by rewrite Hr in Hm. }
  fold inside. assert (forall x, x ∈ set_iter inside <-> x ∈ inside) as Hin by (intros x; rewrite set_iter_perm; apply elem_of_elements).
  assert (set_iter inside ⊆ ids g) as Hsub.
  { intros x Hx%Hin%elem_of_list_to_set. by apply (reach_ids g roots), collect_reach. }
  assert (NoDup (set_iter inside)) as Hnd by (rewrite set_iter_perm; apply NoDup_elements).
  destruct (mapM_nodes g _ Hsub) as (nodes & Hmap & Hf). cbv zeta. rewrite Hmap. eexists. split; [done|].
  set (s := mkDag _ _). pose proof (fun x => get_found_nodes g (clone_within inside) _ nodes x Hg Hf) as Hnodes.
  destruct (Hnodes "") as [_ Hids].
  assert (dg_nodes s = (fun n => (node_id n, clone_within inside n)) <$> nodes) as Hs.
  { unfold s. cbn [dg_nodes]. rewrite foldl_od_set; [done|]. by rewrite Hids. }
  assert (ids s = set_iter inside) as Hids'.
  { unfold ids, od_keys. rewrite Hs, <-list_fmap_compose. exact Hids. }
  assert (forall x, targets s x = if decide (x ∈ inside) then targets g x ∩ inside else ∅) as Ht.
  { intros x. unfold s, targets at 1. cbn [dg_edges]. rewrite get_map_keys.
    destruct (decide (x ∈ inside)) as [Hx|Hx]; [by rewrite decide_True by by apply Hin|].
    rewrite decide_False; [done|]. by rewrite Hin. }
  split.
  - split.
    + unfold od_wf. fold (ids s). by rewrite Hids'.
    + rewrite Hs. apply Forall_fmap, Forall_true. done.
    + rewrite Hids'. unfold s, od_keys. cbn [dg_edges]. clear. induction (set_iter inside) as [|x l IH]; [done|].
      cbn [map]. rewrite fmap_cons. by f_equal.
    + intros u v. rewrite Ht, Hids', Hin. case_decide; set_solver.
  - split; [|split; [done|]].
    + intros x. rewrite Hs. destruct (Hnodes x) as [-> _].
      destruct (decide (x ∈ inside)) as [Hx|Hx]; [by rewrite decide_True by by apply Hin|].
      rewrite decide_False; [done|]. by rewrite Hin.
    + intros x. rewrite Hids'. apply Hin.
Qed.

(** A sub-DAG of a good DAG is good. *)
Lemma restricts_ok g s inside : dag_ok g -> dag_wf s -> restricts g s inside -> dag_ok s.
Proof.
  intros (Hw & Ha & Hm) Hs (Hn & Ht & Hi). split; [done|]. split.
  - assert (forall x y, tc (edge (succ s)) x y -> tc (edge (succ g)) x y) as Htc.
    { intros x y Hxy. assert (forall a b, edge (succ s) a b -> edge (succ g) a b) as Hedge.
      { intros a b. unfold edge. rewrite !elem_of_succ, Ht. case_decide; set_solver. }
      induction Hxy as [x y Hxy|x y z Hxy _ IH]; [by apply tc_once, Hedge|]. eapply tc_l; [by apply Hedge|done]. }
    intros x Hx. by apply (Ha x), Htc.
  - intros u n. rewrite Hn. destruct (decide (u ∈ inside)) as [Hu|]; [|done].
    destruct (od_get u (dg_nodes g)) as [n0|] eqn:Hn0; [|done]. intros [= <-]. destruct (Hm u n0 Hn0) as (H1 & H2 & H3 & H4).
    cbn [dependents dependencies clone_within set_dependencies set_dependents].
    split; [by apply NoDup_filter|]. split; [by apply NoDup_filter|]. split; intros v; rewrite list_elem_of_filter, Ht.
    + rewrite H3, decide_True by done. set_solver.
    + rewrite H4. destruct (decide (v ∈ inside)); set_solver.
Qed.
End spec.

Section built.
Context `{!SetOrder} {C : Type}.

Lemma exec_ops_ok depth ops : forall g : @TaskDAG C, Forall fresh_op ops -> length (dg_nodes g) + length ops <= depth -> dag_ok g ->
  dag_ok (foldl (exec_op depth) g ops) /\ length (dg_nodes (foldl (exec_op depth) g ops)) <= depth.
Proof.
  induction ops as [|op ops IH]; intros g Hf Hlen Hok; [split; [done|simpl in *; lia]|]. simpl in Hlen.
  apply Forall_cons in Hf as [Hop Hf]. destruct (exec_op_ok depth op g) as [Hok' Hlen']; [lia|done|done|].
  apply IH; [done|lia|done].
Qed.

Lemma empty_dag_ok : dag_ok (empty_dag (TaskContract := C)).
Proof.
  split; [split; [apply od_wf_nil|by apply Forall_nil|done|]|split].
  - intros u v. unfold targets. simpl. set_solver.
  - intros x (y & Hy & _)%tc_first. unfold edge in Hy. rewrite elem_of_succ in Hy. unfold targets in Hy. simpl in Hy. set_solver.
  - by intros u n.
Qed.

Lemma built_ok depth ops : Forall fresh_op ops -> length ops <= depth ->
  dag_ok (foldl (exec_op depth) (empty_dag (TaskContract := C)) ops) /\
  length (dg_nodes (foldl (exec_op depth) (empty_dag (TaskContract := C)) ops)) <= depth.
Proof. intros Hf Hl. apply exec_ops_ok; [done|done|apply empty_dag_ok]. Qed.
End built.

(** A DAG that its methods built is one.  Whatever nodes and edges were added
    and whatever calls were refused, within the recursion limit, there is no cycle,
    the lists of the nodes mirror the edges, the cycle check answers so, the
    topological sort returns every id once with every edge forward, and the
    parallel groups partition the ids, each node after the groups of all its
    dependencies and right after the group of one of them. *)
Theorem dag_built `{!SetOrder} (C : Type) (depth : nat) (ops : list (dag_op (C := C))) :
  Forall fresh_op ops -> length ops <= depth ->
  let g := foldl (exec_op depth) empty_dag ops in
  acyclic (succ g) /\ mirrored g /\ has_cycle depth g = Ret false /\
  (exists l, topological_sort g = Ret l /\ topological g l) /\
  (exists groups, get_parallel_groups g = Ret groups /\ levelled g groups).
Proof.
  intros Hf Hl g. destruct (built_ok depth ops Hf Hl) as [(Hw & Ha & Hm) Hlen]. fold g in Hw, Ha, Hm, Hlen.
  split; [done|]. split; [done|]. split; [|split].
  - destruct (cycle_dec g depth Hw Hlen) as (b & Hb & Hc). destruct b; [|done]. destruct Hc as [x Hx]. by apply Ha in Hx.
  - by apply topological_sort_result.
  - by apply parallel_groups_result.
Qed.

(** An edge is refused exactly when it would close a cycle.  Between two nodes
    of a DAG that its methods built, [add_edge] raises and changes nothing when
    there is a path from the target back to the source, and adds the edge and
    nothing else otherwise. *)
Theorem add_edge_exact `{!SetOrder} (C : Type) (depth : nat) (ops : list (dag_op (C := C))) (from_id to_id : string) :
  Forall fresh_op ops -> length ops <= depth ->
  let g := foldl (exec_op depth) empty_dag ops in
  from_id ∈ ids g -> to_id ∈ ids g ->
  (rtc (edge (succ g)) to_id from_id -> add_edge depth from_id to_id g = (Raise (cycle_error from_id to_id), g)) /\
  (~ rtc (edge (succ g)) to_id from_id -> exists g', add_edge depth from_id to_id g = (Ret tt, g') /\ ids g' = ids g /\
    forall u v, v ∈ targets g' u <-> v ∈ targets g u \/ (u = from_id /\ v = to_id)).
Proof.
  intros Hf Hl g Hu Hv. destruct (built_ok depth ops Hf Hl) as [(Hw & Ha & Hm) Hlen]. fold g in Hw, Ha, Hm, Hlen.
  destruct (add_edge_result depth g from_id to_id Hw Ha Hlen Hu Hv) as [[Hr He]|(Hr & He & _)]; (split; [|]); try done.
  intros _. eexists. split; [exact He|]. split; [unfold linked; by rewrite !upd_node_ids|].
  intros u v. rewrite linked_targets. destruct (decide (from_id = u)) as [<-|Hne]; [|naive_solver].
  rewrite elem_of_union, elem_of_singleton. naive_solver.
Qed.

(** A sub-DAG is what its roots reach.  For ids of a DAG that its methods built,
    [get_subgraph] returns a DAG with the same guarantees whose ids are exactly those
    reachable from the roots, once each, with the edges among them, and whose nodes
    are those of the DAG with the ids outside dropped from their lists. *)
Theorem subgraph_exact `{!SetOrder} (C : Type) (depth : nat) (ops : list (dag_op (C := C))) (roots : list string) :
  Forall fresh_op ops -> length ops <= depth ->
  let g := foldl (exec_op depth) empty_dag ops in
  roots ⊆ ids g ->
  exists s inside, get_subgraph g roots = Ret s /\ dag_ok s /\
    (forall x, x ∈ ids s <-> exists r, r ∈ roots /\ rtc (edge (succ g)) r x) /\
    (forall u v, v ∈ targets s u <-> u ∈ ids s /\ v ∈ targets g u) /\
    (forall x, x ∈ ids s -> od_get x (dg_nodes s) = clone_within inside <$> od_get x (dg_nodes g)) /\
    (forall x, x ∈ inside <-> x ∈ ids s).
Proof.
  intros Hf Hl g Hroots. destruct (built_ok depth ops Hf Hl) as [Hok _]. fold g in Hok. pose proof Hok as (Hw & _).
  destruct (get_subgraph_result g roots Hw Hroots) as (s & Hs & Hsw & Hr). set (inside := list_to_set (collect_dependents g roots)) in Hr.
  pose proof (restricts_ok g s inside Hok Hsw Hr) as Hsok. destruct Hr as (Hn & Ht & Hi).
  assert (forall x, x ∈ ids s <-> exists r, r ∈ roots /\ rtc (edge (succ g)) r x) as Hreach.
  { intros x. rewrite Hi. unfold inside. rewrite elem_of_list_to_set. by apply collect_reach. }
  exists s, inside. split; [done|]. split; [done|]. split; [done|]. split; [|split].
  - intros u v. rewrite Ht, Hi. destruct (decide (u ∈ inside)) as [Hu|Hu]; [|set_solver]. rewrite elem_of_intersection.
    split; [naive_solver|]. intros [_ Hv]. split; [done|]. apply Hi, Hreach. apply Hi, Hreach in Hu as (r & Hr & Hru).
    exists r. split; [done|]. eapply rtc_r; [done|]. by apply elem_of_succ.
  - intros x Hx%Hi. by rewrite Hn, decide_True.
  - intros x. by rewrite Hi.
Qed.

(** Witnesses: the diamond [a -> b, c -> d]. *)
Definition plain_node (nid policy : string) : @TaskNode unit := mkNode nid tt PENDING [] [] None None 0 2 policy.
Definition diamond : list (dag_op (C := unit)) :=
  [AddNode (plain_node "a" "compensate"); AddNode (plain_node "b" "compensate"); AddNode (plain_node "c" "compensate");
   AddNode (plain_node "d" "compensate"); AddEdge "a" "b"; AddEdge "a" "c"; AddEdge "b" "d"; AddEdge "c" "d"; AddEdge "d" "a"].

Lemma diamond_fresh : Forall fresh_op diamond.
Proof. repeat constructor. Qed.

Lemma dag_built_witness :
  let g := foldl (exec_op 100) empty_dag diamond in
  acyclic (succ g) /\ topological_sort g = Ret ["a"; "b"; "c"; "d"] /\
  get_parallel_groups g = Ret [["a"]; ["b"; "c"]; ["d"]].
Proof.
  pose proof (dag_built unit 100 diamond diamond_fresh) as H. destruct H as (Ha & _).
  - simpl. lia.
  - split; [exact Ha|]. split; vm_compute; reflexivity.
Defined.

Lemma add_edge_exact_witness :
  let g := foldl (exec_op 100) empty_dag diamond in
  add_edge 100 "d" "a" g = (Raise (cycle_error "d" "a"), g).
Proof.
  destruct (add_edge_exact unit 100 diamond "d" "a" diamond_fresh) as [H _].
  - simpl. lia.
  - apply (bool_decide_eq_true_1 ("d" ∈ ids (foldl (exec_op 100) empty_dag diamond))). vm_compute. reflexivity.
  - apply (bool_decide_eq_true_1 ("a" ∈ ids (foldl (exec_op 100) empty_dag diamond))). vm_compute. reflexivity.
  - apply H. apply (rtc_l _ "a" "b" "d"); [|apply rtc_once]; unfold edge; apply elem_of_succ.
    + apply (bool_decide_eq_true_1 ("b" ∈ targets (foldl (exec_op 100) empty_dag diamond) "a")). vm_compute. reflexivity.
    + apply (bool_decide_eq_true_1 ("d" ∈ targets (foldl (exec_op 100) empty_dag diamond) "b")). vm_compute. reflexivity.
Defined.

Lemma subgraph_exact_witness :
  exists s, get_subgraph (foldl (exec_op 100) empty_dag diamond) ["b"] = Ret s /\ ids s = ["b"; "d"] /\ dag_ok s.
Proof.
  destruct (subgraph_exact unit 100 diamond ["b"] diamond_fresh) as (s & inside & Hs & Hok & _).
  - simpl. lia.
  - intros x Hx. apply list_elem_of_singleton in Hx as ->.
    apply (bool_decide_eq_true_1 ("b" ∈ ids (foldl (exec_op 100) empty_dag diamond))). vm_compute. reflexivity.
  - exists s. split; [exact Hs|]. split; [|exact Hok]. vm_compute in Hs. injection Hs as <-. reflexivity.
Defined.

(** The recursion limit: an edge for which the check runs out of stack stays, so that
    with two calls left a chain of three nodes can be closed to a cycle. *)
Lemma cycle_past_recursion_limit :
  let g := foldl (exec_op 2) empty_dag
    [AddNode (plain_node "a" "none"); AddNode (plain_node "b" "none"); AddNode (plain_node "c" "none");
     AddEdge "a" "b"; AddEdge "b" "c"; AddEdge "c" "a"] in
  (add_edge 2 "c" "a" g).1 = Raise RecursionError /\ topological_sort g = Raise (ValueError "DAG contains a cycle").
Proof. vm_compute. split; reflexivity. Qed.
