(* ===== verification/TaskDagExec.v ===== *)
(** * What the DAG executor promises

    Lemmas on one node, one step and whole runs of [DAGExecutor], whose callback
    raises only exceptions that [except Exception] catches. *)

From stdpp Require Import base tactics option list strings gmap relations sorting.
From Stdlib Require Import ZArith.
From S2P Require Import Prelude PyStr PyDict PyVal Graph TaskDag TaskDagSpec.
#[local] Arguments String.append : simpl nomatch.

Section exec.
Context `{!SetOrder} {C : Type}.
Abbreviation task_node := (@TaskNode C).
Abbreviation task_dag := (@TaskDAG C).
Implicit Types (g : task_dag) (n : task_node).

(** The state of a node, and what a run never changes of it. *)
Definition st g (u : string) : option TaskNodeState := node_state <$> od_get u (dg_nodes g).
Definition fixed_part n : string * list string * string := (node_id n, dependencies n, rollback_policy n).
Definition same_shape g g' : Prop :=
  ids g' = ids g /\ forall u, fixed_part <$> od_get u (dg_nodes g') = fixed_part <$> od_get u (dg_nodes g).

(** States change as rolling back changes them. *)
Definition rolled g g' : Prop := forall v, st g' v = st g v \/ (st g v = Some COMPLETED /\ st g' v = Some ROLLED_BACK).

(** What a run relies on: ids are keys and dependencies are nodes. *)
Definition deps_ok g : Prop := od_wf (dg_nodes g) /\
  forall u n, od_get u (dg_nodes g) = Some n -> node_id n = u /\ dependencies n ⊆ ids g.

Lemma same_shape_refl g : same_shape g g.
Proof. done. Qed.

Lemma same_shape_trans g1 g2 g3 : same_shape g1 g2 -> same_shape g2 g3 -> same_shape g1 g3.
Proof. intros [H1 H2] [H3 H4]. split; [by rewrite H3|]. intros u. by rewrite H4, H2. Qed.

Lemma same_shape_get g g' u n : same_shape g g' -> od_get u (dg_nodes g) = Some n ->
  exists n', od_get u (dg_nodes g') = Some n' /\ fixed_part n' = fixed_part n.
Proof.
  intros [_ Hs] Hn. specialize (Hs u). rewrite Hn in Hs. destruct (od_get u (dg_nodes g')) as [n'|]; [|done].
  exists n'. split; [done|]. exact (Some_inj _ _ Hs).
Qed.

Lemma same_shape_sym g g' : same_shape g g' -> same_shape g' g.
Proof. intros [H1 H2]. split; [done|]. intros u. by rewrite H2. Qed.

Lemma same_shape_deps g g' : same_shape g g' -> deps_ok g -> deps_ok g'.
Proof.
  intros Hs [Hw Hd]. pose proof Hs as [Hids _]. split; [unfold od_wf; unfold ids in Hids; by rewrite Hids|].
  intros u n Hn. destruct (same_shape_get g' g u n (same_shape_sym _ _ Hs) Hn) as (n0 & Hn0 & Hf).
  injection Hf as Hf1 Hf2 _. rewrite <-Hf1, <-Hf2, Hids. by apply Hd.
Qed.

Lemma upd_shape u f g : (forall n, fixed_part (f n) = fixed_part n) -> same_shape g (upd_node u f g).
Proof.
  intros Hf. split; [apply upd_node_ids|]. intros v. rewrite upd_node_get. case_decide; [|done].
  destruct (od_get v (dg_nodes g)) as [n|]; [|done]. simpl. by rewrite Hf.
Qed.

Lemma upd_st u f s g v : (forall n, node_state (f n) = s) ->
  st (upd_node u f g) v = if decide (u = v) then (fun _ => s) <$> st g v else st g v.
Proof.
  intros Hf. unfold st. rewrite upd_node_get. case_decide; [|done]. destruct (od_get v (dg_nodes g)) as [n|]; [|done].
  simpl. by rewrite Hf.
Qed.

Lemma st_node g u n : od_get u (dg_nodes g) = Some n -> st g u = Some (node_state n).
Proof. intros Hn. unfold st. by rewrite Hn. Qed.

Lemma ids_node g u : u ∈ ids g -> exists n, od_get u (dg_nodes g) = Some n.
Proof. intros Hu. apply od_get_is_Some in Hu as [n Hn]. by exists n. Qed.

Lemma rolled_trans g1 g2 g3 : rolled g1 g2 -> rolled g2 g3 -> rolled g1 g3.
Proof.
  intros H1 H2 v. destruct (H1 v) as [E1|[E1 E1']], (H2 v) as [E2|[E2 E2']]; try (rewrite <-E1; by auto).
  right. by rewrite E2.
Qed.

(** Rolling back *)
Lemma roll_back_each_spec nids : forall g, nids ⊆ ids g ->
  exists out g', roll_back_each nids g = (Ret out, g') /\ same_shape g g' /\ rolled g g'.
Proof.
  induction nids as [|u nids IH]; intros g Hsub; [exists [], g; split; [done|split; [done|by left]]|].
  destruct (ids_node g u) as [n Hn]; [apply Hsub; by left|].
  assert (nids ⊆ ids g) as Hsub' by (intros x Hx; apply Hsub; by right).
  cbn [roll_back_each]. unfold get_node. cbv beta iota delta [mbind mret PyM_bind PyM_ret py_get py_modify]. rewrite Hn.
  destruct (decide (node_state n = COMPLETED)) as [Hst|Hst].
  - set (g1 := upd_node u (set_node_state ROLLED_BACK) g).
    assert (same_shape g g1) as Hs1 by by apply upd_shape.
    destruct (IH g1) as (out & g' & -> & Hs & Hr); [by rewrite (proj1 Hs1)|]. exists (u :: out), g'.
    split; [done|]. split; [by eapply same_shape_trans|]. eapply rolled_trans; [|done]. intros v.
    unfold g1. rewrite (upd_st u _ ROLLED_BACK) by done. destruct (decide (u = v)) as [<-|]; [right|by left].
    rewrite (st_node g u n Hn), Hst. done.
  - destruct (IH g Hsub') as (out & g' & -> & Hs & Hr). by exists out, g'.
Qed.

Lemma pending_deps g : od_wf (dg_nodes g) ->
  pending (deps_of g) [] (ids g) = sum_list_with (fun kv : string * task_node => length (dependencies kv.2)) (dg_nodes g).
Proof.
  intros Hwf. unfold ids, od_keys.
  assert (forall l : odict string task_node, (forall k n, (k, n) ∈ l -> od_get k (dg_nodes g) = Some n) ->
    pending (deps_of g) [] l.*1 = sum_list_with (fun kv : string * task_node => length (dependencies kv.2)) l) as Hl.
  { induction l as [|[k n] l IH]; intros Hin; [done|]. rewrite fmap_cons. cbn [pending sum_list_with fst snd].
    rewrite decide_False by apply not_elem_of_nil. rewrite IH by (intros k' s' Hk; apply Hin; by right).
    unfold deps_of. by rewrite (Hin k n) by by left. }
  apply Hl. intros k n Hin. by apply od_get_elem.
Qed.

Lemma cascade_ids g deps : deps_ok g -> deps ⊆ ids g -> cascade_order g deps ⊆ ids g.
Proof.
  intros [Hw Hd] Hdeps x Hx. unfold cascade_order in Hx. rewrite <-pending_deps in Hx by done.
  apply (bfs_reach (deps_of g) (fun _ nid => deps_of g nid)) with (U := ids g) in Hx; [| |by right|done| |done].
  - destruct Hx as (r & Hr%Hdeps & Hrx). induction Hrx as [|a b c Hab Hbc IH]; [done|]. apply IH.
    unfold edge, deps_of in Hab. destruct (ids_node g a Hr) as [n Hn]. rewrite Hn in Hab. by apply (Hd a n Hn).
  - done.
  - intros c. destruct (decide (c ∈ ids g)); [by left|]. right. unfold deps_of. by rewrite (proj2 (od_get_None _ _)).
Qed.

Lemma rollback_spec g u : deps_ok g -> u ∈ ids g ->
  exists out g', rollback u g = (Ret out, g') /\ same_shape g g' /\ rolled g g'.
Proof.
  intros Hg Hu. destruct (ids_node g u Hu) as [n Hn]. destruct (proj2 Hg u n Hn) as [_ Hdeps].
  unfold rollback, get_node. cbv beta iota delta [mbind PyM_bind py_get mret PyM_ret]. rewrite Hn.
  destruct (decide (rollback_policy n = "none")); [exists [], g; split; [done|split; [done|by left]]|].
  destruct (decide (rollback_policy n = "compensate")); apply roll_back_each_spec; [done|]. by apply cascade_ids.
Qed.

(** The transitions, where they are allowed. *)
Lemma mark_running_ret g u : st g u = Some PENDING -> mark_running u g = (Ret tt, upd_node u (set_node_state RUNNING) g).
Proof.
  unfold st, mark_running, get_node. py_simpl. destruct (od_get u (dg_nodes g)) as [n|]; [|done]. simpl. by intros [= ->].
Qed.

Lemma mark_completed_ret g u r : st g u = Some RUNNING ->
  mark_completed u r g = (Ret tt, upd_node u (fun n => set_node_result r (set_node_state COMPLETED n)) g).
Proof.
  unfold st, mark_completed, get_node. py_simpl. destruct (od_get u (dg_nodes g)) as [n|]; [|done]. simpl. by intros [= ->].
Qed.

Lemma mark_failed_ret g u r : st g u = Some RUNNING ->
  mark_failed u r g = (Ret tt, upd_node u (fun n => set_failure_reason (Some r) (set_node_state FAILED n)) g).
Proof.
  unfold st, mark_failed, get_node. py_simpl. destruct (od_get u (dg_nodes g)) as [n|]; [|done]. simpl. by intros [= ->].
Qed.

Lemma apply_rollback_spec node g rb calls : deps_ok g -> node_id node ∈ ids g ->
  exists g' rb', apply_rollback_policy node (mkExecutor g rb calls) = (Ret tt, mkExecutor g' rb' calls) /\
    same_shape g g' /\ rolled g g'.
Proof.
  intros Hg Hu. unfold apply_rollback_policy. destruct (decide _); [|exists g, rb; split; [done|split; [done|by left]]].
  destruct (rollback_spec g (node_id node) Hg Hu) as (out & g' & Hrb & Hs & Hr). exists g', (rb ++ out). split; [|done].
  unfold mbind, PyM_bind, on_dag, py_zoom. cbn [ex_dag ex_calls ex_rolled_back]. by rewrite Hrb.
Qed.

(** Ready nodes *)
Lemma all_completed_spec g deps : deps ⊆ ids g ->
  exists b, all_completed g deps = Ret b /\ (b = true <-> forall d, d ∈ deps -> st g d = Some COMPLETED).
Proof.
  induction deps as [|d deps IH]; intros Hsub.
  { exists true. split; [done|]. split; [|done]. by intros _ d ?%not_elem_of_nil. }
  destruct (ids_node g d) as [n Hn]; [apply Hsub; by left|]. simpl. rewrite Hn.
  destruct IH as (b & -> & Hb); [intros y Hy; apply Hsub; by right|].
  destruct (decide (node_state n = COMPLETED)) as [Hst|Hst].
  - exists b. split; [done|]. rewrite Hb. split.
    + intros Hall y [->|Hy]%elem_of_cons; [by rewrite (st_node g d n Hn), Hst|by apply Hall].
    + intros Hall y Hy. apply Hall. by right.
  - exists false. split; [done|]. split; [done|]. intros Hall. specialize (Hall d ltac:(by left)).
    rewrite (st_node g d n Hn) in Hall. congruence.
Qed.

(** A node is ready: pending, its dependencies completed. *)
Definition is_ready g n : Prop :=
  node_state n = PENDING /\ forall d, d ∈ dependencies n -> st g d = Some COMPLETED.

Lemma get_ready_spec g : deps_ok g -> exists l, get_ready_nodes g = Ret l /\ NoDup (node_id <$> l) /\
  forall n, n ∈ l <-> (exists u, od_get u (dg_nodes g) = Some n) /\ is_ready g n.
Proof.
  intros [Hw Hd]. unfold get_ready_nodes.
  assert (forall nodes : odict string task_node, NoDup nodes.*1 -> (forall k n, (k, n) ∈ nodes -> od_get k (dg_nodes g) = Some n) ->
    exists l, ready_among g nodes.*2 = Ret l /\ NoDup (node_id <$> l) /\
      (forall n, n ∈ l <-> n ∈ nodes.*2 /\ is_ready g n)) as Hl.
  { induction nodes as [|[k n] nodes IH]; intros Hnd Hin.
    { exists []. split; [done|]. split; [apply NoDup_nil_2|]. intros n. split; [intros []%not_elem_of_nil|by intros [[]%not_elem_of_nil _]]. }
    rewrite fmap_cons in Hnd. apply NoDup_cons in Hnd as [Hk Hnd].
    destruct IH as (l & Hl & Hnl & Hml); [done|intros k' n' Hk'; apply Hin; by right|].
    pose proof (Hin k n ltac:(by left)) as Hn. destruct (Hd k n Hn) as [Hid Hdeps].
    assert (k ∉ node_id <$> l) as Hkl.
    { intros (m & Hm & [Hm2 _]%Hml)%list_elem_of_fmap. apply list_elem_of_fmap in Hm2 as ([k' m'] & -> & Hkm). simpl in Hm.
      destruct (Hd k' m') as [Hid' _]; [apply Hin; by right|]. apply Hk. rewrite Hm, Hid'. by apply (list_elem_of_fmap_2 fst _ (k', m')). }
    rewrite fmap_cons. cbn [ready_among snd]. destruct (decide (node_state n = PENDING)) as [Hp|Hp].
    - destruct (all_completed_spec g (dependencies n) Hdeps) as (b & -> & Hb). simpl. rewrite Hl. simpl.
      eexists. split; [done|]. destruct b.
      + split; [rewrite fmap_cons; constructor; [by rewrite Hid|done]|]. intros m. rewrite elem_of_cons, elem_of_cons, Hml. split.
        * intros [->|[Hm Hr]]; [split; [by left|]; split; [done|by apply Hb]|split; [by right|done]].
        * intros [[->|Hm] Hr]; [by left|by right].
      + split; [done|]. intros m. rewrite elem_of_cons, Hml. split; [naive_solver|]. intros [[->|Hm] Hr]; [|done].
        exfalso. destruct Hr as [_ Hr]. apply Hb in Hr. done.
    - exists l. split; [done|]. split; [done|]. intros m. rewrite elem_of_cons, Hml. split; [naive_solver|].
      intros [[->|Hm] Hr]; [|done]. by destruct Hr. }
  destruct (Hl (dg_nodes g)) as (l & Hr & Hn & Hm); [done|intros k n; by apply od_get_elem|].
  exists l. split; [done|]. split; [done|]. intros n. rewrite Hm. split; intros [Hin Hrd]; (split; [|done]).
  - apply list_elem_of_fmap in Hin as ([k n'] & -> & Hin). exists k. by apply od_get_elem.
  - destruct Hin as [u Hu%od_get_Some]. by apply (list_elem_of_fmap_2 snd _ (u, n)).
Qed.

Lemma elem_of_ids_in s g u : od_wf (dg_nodes g) -> u ∈ ids_in s g <-> st g u = Some s.
Proof.
  intros Hw. unfold ids_in, st. split.
  - intros ([k n] & -> & [Hs Hin]%list_elem_of_filter)%list_elem_of_fmap. simpl in *.
    rewrite (od_get_elem k n _ Hw Hin). simpl. by rewrite Hs.
  - destruct (od_get u (dg_nodes g)) as [n|] eqn:Hn; [|done]. simpl. intros [= Hs]. apply list_elem_of_fmap.
    exists (u, n). split; [done|]. apply list_elem_of_filter. split; [done|by apply od_get_Some].
Qed.

Lemma NoDup_ids_in s g : od_wf (dg_nodes g) -> NoDup (ids_in s g).
Proof.
  intros Hw. unfold ids_in. eapply sublist_NoDup; [exact Hw|apply fmap_sublist, sublist_filter].
Qed.

Section run.
Context (execute_fn : list string -> task_node -> outcome (odict string pyval)).
Context (on_progress : option (DAGProgress -> outcome unit)) (str_exc : exn -> string).
Context (polite : forall calls n e, execute_fn calls n = Raise e -> is_exception e = true).
Context (progress_ok : forall f p, on_progress = Some f -> f p = Ret tt).
Implicit Types x : executor (TaskContract := C).

(** What running the node [u] does; [b]: it completed. *)
Definition node_ran u (b : bool) x x' : Prop :=
  same_shape (ex_dag x) (ex_dag x') /\ ex_calls x' = ex_calls x ++ [u] /\
  st (ex_dag x') u = Some (if b then COMPLETED else FAILED) /\
  (forall v, v <> u -> st (ex_dag x') v = st (ex_dag x) v \/
     (b = false /\ st (ex_dag x) v = Some COMPLETED /\ st (ex_dag x') v = Some ROLLED_BACK)) /\
  (b = false -> exists n e, node_id n = u /\ execute_fn (ex_calls x) n = Raise e).

Lemma exec_node_spec node x : deps_ok (ex_dag x) -> st (ex_dag x) (node_id node) = Some PENDING ->
  exists b x', exec_node execute_fn str_exc node x = (Ret b, x') /\ node_ran (node_id node) b x x'.
Proof.
  intros Hg Hst. set (u := node_id node) in *. destruct x as [g rb calls]. simpl in Hg, Hst.
  unfold exec_node. fold u. cbv beta iota delta [on_dag py_zoom mbind PyM_bind py_catch]. cbn [ex_dag].
  rewrite (mark_running_ret g u Hst). cbv beta iota. set (g1 := upd_node u (set_node_state RUNNING) g).
  assert (same_shape g g1) as Hs1 by by apply upd_shape.
  assert (forall v, st g1 v = if decide (u = v) then (fun _ => RUNNING) <$> st g v else st g v) as Hst1 by (intros v; by apply upd_st).
  assert (st g1 u = Some RUNNING) as Hr by (rewrite Hst1, decide_True, Hst by done; done).
  pose proof (same_shape_deps g g1 Hs1 Hg) as Hg1.
  destruct (od_get u (dg_nodes g1)) as [n1|] eqn:Hn1; [|unfold st in Hr; by rewrite Hn1 in Hr].
  destruct (proj2 Hg1 u n1 Hn1) as [Hid _].
  unfold call, on_dag, py_zoom, get_node. cbv beta iota delta [mbind PyM_bind py_get py_modify py_lift mret PyM_ret]. cbn [ex_dag ex_calls ex_rolled_back].
  rewrite Hn1. cbn [ex_dag ex_calls ex_rolled_back]. destruct (execute_fn calls n1) as [r|e] eqn:Hexec; cbn [ex_dag ex_calls ex_rolled_back].
  - rewrite (mark_completed_ret g1 u) by done. eexists true, _. split; [reflexivity|]. cbn [ex_dag ex_calls ex_rolled_back].
    split; [|split; [done|split; [|split; [|done]]]].
    + eapply same_shape_trans; [done|]. by apply upd_shape.
    + cbn [ex_dag]. rewrite (upd_st u _ COMPLETED), decide_True, Hr by done. done.
    + intros v Hv. left. cbn [ex_dag]. rewrite (upd_st u _ COMPLETED), decide_False by (done || congruence).
      by rewrite Hst1, decide_False by congruence.
  - rewrite (polite _ _ _ Hexec). cbn [ex_dag ex_calls ex_rolled_back]. rewrite (mark_failed_ret g1 u) by done.
    set (g2 := upd_node u _ g1). assert (same_shape g1 g2) as Hs2 by by apply upd_shape.
    assert (forall v, st g2 v = if decide (u = v) then Some FAILED else st g v) as Hst2.
    { intros v. unfold g2. rewrite (upd_st u _ FAILED), Hst1 by done. destruct (decide (u = v)) as [<-|]; [|done]. by rewrite Hst. }
    destruct (apply_rollback_spec node g2 rb (calls ++ [u])) as (g3 & rb3 & -> & Hs3 & Hr3).
    { by eapply same_shape_deps. }
    { rewrite (proj1 Hs2). apply od_get_is_Some. fold u. by rewrite Hn1. }
    eexists false, _. split; [reflexivity|]. cbn [ex_dag ex_calls ex_rolled_back].
    split; [|split; [done|split; [|split]]]; cbn [ex_dag].
    + eapply same_shape_trans; [done|]. by eapply same_shape_trans.
    + destruct (Hr3 u) as [->|[Hc _]]; [|rewrite Hst2, decide_True in Hc by done; done]. by rewrite Hst2, decide_True.
    + intros v Hv. assert (st g2 v = st g v) as Hv2 by (rewrite Hst2; by rewrite decide_False by congruence).
      destruct (Hr3 v) as [->|[Hc Hc']]; [by left|right; by rewrite <-Hv2].
    + intros _. by exists n1, e.
Qed.

(** What running a batch of nodes does. *)
Definition never_raises : Prop := forall calls n e, execute_fn calls n <> Raise e.

Definition batch_ran (us : list string) x x' : Prop :=
  same_shape (ex_dag x) (ex_dag x') /\ ex_calls x' = ex_calls x ++ us /\
  (forall v, v ∈ us -> exists s, st (ex_dag x') v = Some s /\ s ∈ [COMPLETED; FAILED; ROLLED_BACK]) /\
  (forall v, v ∉ us -> st (ex_dag x') v = st (ex_dag x) v \/
     (st (ex_dag x) v = Some COMPLETED /\ st (ex_dag x') v = Some ROLLED_BACK)) /\
  (never_raises -> forall v, st (ex_dag x') v = if decide (v ∈ us) then Some COMPLETED else st (ex_dag x) v).

Lemma batch_ran_nil x : batch_ran [] x x.
Proof.
  split; [done|]. split; [by rewrite app_nil_r|]. split; [by intros v ?%not_elem_of_nil|]. split; [by left|].
  intros _ v. by rewrite decide_False by apply not_elem_of_nil.
Qed.

Lemma batch_ran_cons u b us x x1 x2 : u ∉ us -> node_ran u b x x1 -> batch_ran us x1 x2 -> batch_ran (u :: us) x x2.
Proof.
  intros Hu (Hs1 & Hc1 & Hu1 & Ho1 & Hf1) (Hs2 & Hc2 & Hus2 & Ho2 & Hok2). split; [|split; [|split; [|split]]].
  - by eapply same_shape_trans.
  - by rewrite Hc2, Hc1, <-app_assoc.
  - intros v [->|Hv]%elem_of_cons; [|by apply Hus2]. destruct (Ho2 u Hu) as [->|[_ ->]]; [rewrite Hu1|].
    + exists (if b then COMPLETED else FAILED). split; [done|]. destruct b; set_solver.
    + exists ROLLED_BACK. split; [done|]. set_solver.
  - intros v [Hne Hv]%not_elem_of_cons. destruct (Ho2 v Hv) as [->|[Hc Hr]]; destruct (Ho1 v Hne) as [H1|(_ & H1 & H1')].
    + by left.
    + right. by rewrite H1'.
    + right. by rewrite <-H1.
    + congruence.
  - intros Hnr v. assert (b = true) as ->.
    { destruct b; [done|]. destruct (Hf1 eq_refl) as (n & e & _ & He). by apply Hnr in He. }
    rewrite (Hok2 Hnr v). destruct (decide (v ∈ us)) as [Hv|Hv]; [by rewrite decide_True by by right|].
    destruct (decide (v = u)) as [->|Hne]; [by rewrite decide_True by by left|].
    rewrite decide_False by by intros [|]%elem_of_cons. by destruct (Ho1 v Hne) as [|[]].
Qed.

Lemma exec_ready_spec ready : forall x, deps_ok (ex_dag x) -> NoDup (node_id <$> ready) ->
  (forall n, n ∈ ready -> st (ex_dag x) (node_id n) = Some PENDING) ->
  exists out x', exec_ready execute_fn str_exc ready x = (Ret out, x') /\ batch_ran (node_id <$> ready) x x'.
Proof.
  induction ready as [|node ready IH]; intros x Hg Hnd Hp; [exists ([], []), x; split; [done|apply batch_ran_nil]|].
  rewrite fmap_cons in Hnd. apply NoDup_cons in Hnd as [Hu Hnd].
  destruct (exec_node_spec node x Hg) as (b & x1 & Hx1 & Hran); [apply Hp; by left|].
  destruct (IH x1) as (out & x2 & Hx2 & Hbatch); [|done| |].
  - eapply same_shape_deps; [apply Hran|done].
  - intros n Hn. destruct Hran as (_ & _ & _ & Ho & _).
    assert (st (ex_dag x) (node_id n) = Some PENDING) as Hpn by (apply Hp; by right).
    destruct (Ho (node_id n)) as [->|(_ & Hc & _)]; [|done|congruence].
    intros Heq. apply Hu. rewrite <-Heq. by apply list_elem_of_fmap_2.
  - cbn [exec_ready]. unfold mbind, PyM_bind. rewrite Hx1, Hx2. eexists _, x2. split; [done|].
    rewrite fmap_cons. by eapply batch_ran_cons.
Qed.

(** A step, when no node is left running: nothing is ready and it is terminal, or the
    ready nodes run. *)
Definition idle g : Prop := forall v, st g v <> Some RUNNING.

Definition step_end x' (res : DAGStepResult) : Prop :=
  sr_is_terminal res = true -> is_complete (ex_dag x') = true \/ get_ready_nodes (ex_dag x') = Ret [].

Lemma step_spec x : deps_ok (ex_dag x) -> idle (ex_dag x) ->
  (get_ready_nodes (ex_dag x) = Ret [] /\ step execute_fn on_progress str_exc x = (Ret (mkStepResult [] [] [] true), x)) \/
  exists l res x', get_ready_nodes (ex_dag x) = Ret l /\ l <> [] /\
    step execute_fn on_progress str_exc x = (Ret res, x') /\ batch_ran (node_id <$> l) x x' /\ step_end x' res.
Proof.
  intros Hg Hidle. destruct (get_ready_spec (ex_dag x) Hg) as (l & Hl & Hnd & Hin).
  assert (_has_running (ex_dag x) = false) as Hrun.
  { unfold _has_running. rewrite bool_decide_true; [done|]. destruct (ids_in RUNNING (ex_dag x)) as [|u us] eqn:Hu; [done|].
    exfalso. apply (Hidle u), (elem_of_ids_in RUNNING); [apply Hg|]. rewrite Hu. by left. }
  unfold step. cbv beta iota delta [mbind PyM_bind py_get py_lift]. rewrite Hl. rewrite Hrun.
  destruct (bool_decide (length l = 0)) eqn:Hlen; cbn [andb negb].
  - left. apply bool_decide_eq_true, nil_length_inv in Hlen as ->. done.
  - right. apply bool_decide_eq_false in Hlen. assert (l <> []) as Hne by (by intros ->).
    destruct (exec_ready_spec l x Hg Hnd) as (out & x' & -> & Hran).
    { intros n Hn. apply Hin in Hn as [[u Hu] [Hst _]]. destruct (proj2 Hg u n Hu) as [-> _]. by rewrite (st_node _ u n Hu), Hst. }
    assert (match on_progress with Some f => f (_make_progress (ex_dag x')) | None => Ret tt end = Ret tt) as ->.
    { destruct on_progress as [f|] eqn:Hf; [by apply progress_ok|done]. }
    cbv beta iota. destruct (get_ready_spec (ex_dag x')) as (l' & Hl' & _).
    { eapply same_shape_deps; [apply Hran|done]. }
    rewrite Hl'. unfold step_end. destruct (is_complete (ex_dag x')) eqn:Hcomp.
    + eexists l, _, x'. split; [done|]. split; [done|]. split; [reflexivity|]. split; [done|]. intros _. by left.
    + destruct (is_failed (ex_dag x')); (eexists l, _, x'; split; [done|]; split; [done|]; split; [reflexivity|]; split; [done|]).
      * cbn. intros ->%bool_decide_eq_true%nil_length_inv. right. done.
      * done.
Qed.

(** The node was completed, and may have been rolled back since. *)
Definition succeeded (s : option TaskNodeState) : Prop := s = Some COMPLETED \/ s = Some ROLLED_BACK.

(** A run from [g0] so far, with the calls [us]. *)
Record ran g0 (us : list string) x : Prop := {
  rn_shape : same_shape g0 (ex_dag x);
  rn_calls : ex_calls x = us;
  rn_once : NoDup us;
  rn_pending : forall v, v ∈ us -> st g0 v = Some PENDING;
  rn_over : forall v, v ∈ us -> exists s, st (ex_dag x) v = Some s /\ s ∈ [COMPLETED; FAILED; ROLLED_BACK];
  rn_other : forall v, v ∉ us -> st (ex_dag x) v = st g0 v \/
    (st g0 v = Some COMPLETED /\ st (ex_dag x) v = Some ROLLED_BACK);
  rn_order : forall l1 v l2, us = l1 ++ v :: l2 -> forall d, d ∈ deps_of g0 v -> st g0 d = Some COMPLETED \/ d ∈ l1;
  rn_done : forall v d, v ∈ us -> d ∈ deps_of g0 v -> succeeded (st (ex_dag x) d);
  rn_success : never_raises -> forall v, st (ex_dag x) v = if decide (v ∈ us) then Some COMPLETED else st g0 v
}.

Lemma ran_start g0 rb : ran g0 [] (mkExecutor g0 rb []).
Proof.
  split; try done; [apply NoDup_nil_2|by intros v ?%not_elem_of_nil|by intros v ?%not_elem_of_nil|by left| |].
  - by intros [|].
  - by intros v d ?%not_elem_of_nil.
Qed.

Lemma ran_idle g0 us x : idle g0 -> ran g0 us x -> idle (ex_dag x).
Proof.
  intros Hi Hr v Hv. destruct (decide (v ∈ us)) as [Hin|Hin].
  - destruct (rn_over _ _ _ Hr v Hin) as (s & Hs & Hs'). rewrite Hs in Hv. injection Hv as ->.
    apply (bool_decide_eq_false_1 (RUNNING ∈ [COMPLETED; FAILED; ROLLED_BACK])); [reflexivity|done].
  - destruct (rn_other _ _ _ Hr v Hin) as [Heq|[_ Heq]]; [rewrite Heq in Hv; by apply (Hi v)|congruence].
Qed.

(** A pending node of the run has not been called. *)
Lemma ran_pending g0 us x v : ran g0 us x -> st (ex_dag x) v = Some PENDING -> v ∉ us /\ st g0 v = Some PENDING.
Proof.
  intros Hr Hv. assert (v ∉ us) as Hin.
  { intros Hin. destruct (rn_over _ _ _ Hr v Hin) as (s & Hs & Hs'). rewrite Hs in Hv. injection Hv as ->.
    apply (bool_decide_eq_false_1 (PENDING ∈ [COMPLETED; FAILED; ROLLED_BACK])); [reflexivity|done]. }
  split; [done|]. destruct (rn_other _ _ _ Hr v Hin) as [Heq|[_ Heq]]; congruence.
Qed.

Lemma same_shape_deps_of g g' u : same_shape g g' -> deps_of g' u = deps_of g u.
Proof.
  intros [_ Hs]. specialize (Hs u). unfold deps_of. destruct (od_get u (dg_nodes g')) as [n'|], (od_get u (dg_nodes g)) as [n|]; try done.
  apply Some_inj in Hs. by injection Hs.
Qed.

Lemma ready_pending g l v : deps_ok g -> get_ready_nodes g = Ret l -> v ∈ node_id <$> l ->
  st g v = Some PENDING /\ forall d, d ∈ deps_of g v -> st g d = Some COMPLETED.
Proof.
  intros Hg Hl Hv. destruct (get_ready_spec g Hg) as (l' & Hl' & _ & Hin). rewrite Hl in Hl'. injection Hl' as <-.
  apply list_elem_of_fmap in Hv as (n & -> & [[u Hu] [Hst Hdeps]]%Hin). destruct (proj2 Hg u n Hu) as [-> _].
  split; [by rewrite (st_node g u n Hu), Hst|]. intros d. unfold deps_of. rewrite Hu. apply Hdeps.
Qed.

Lemma ran_step g0 us x x' l : deps_ok g0 -> ran g0 us x -> get_ready_nodes (ex_dag x) = Ret l ->
  batch_ran (node_id <$> l) x x' -> ran g0 (us ++ (node_id <$> l)) x'.
Proof.
  intros Hg0 Hr Hl (Hs & Hc & Hover & Hother & Hok). pose proof (same_shape_deps _ _ (rn_shape _ _ _ Hr) Hg0) as Hg.
  set (new := node_id <$> l) in *. pose proof (fun v => ready_pending _ l v Hg Hl) as Hready. fold new in Hready.
  assert (NoDup new) as Hnd.
  { destruct (get_ready_spec _ Hg) as (l' & Hl' & Hnd & _). rewrite Hl in Hl'. injection Hl' as <-. exact Hnd. }
  assert (forall v, v ∈ new -> v ∉ us /\ st g0 v = Some PENDING) as Hnew.
  { intros v Hv. apply (ran_pending g0 us x); [done|]. by apply Hready. }
  assert (forall v d, v ∈ new -> d ∈ deps_of g0 v -> st g0 d = Some COMPLETED \/ d ∈ us) as Hdeps.
  { intros v d Hv Hd. rewrite <-(same_shape_deps_of _ _ v (rn_shape _ _ _ Hr)) in Hd.
    destruct (Hready v Hv) as [_ Hcd]. specialize (Hcd d Hd). destruct (decide (d ∈ us)) as [|Hdu]; [by right|left].
    destruct (rn_other _ _ _ Hr d Hdu) as [Heq|[_ Heq]]; congruence. }
  split.
  - eapply same_shape_trans; [apply Hr|done].
  - by rewrite Hc, (rn_calls _ _ _ Hr).
  - apply NoDup_app. split; [apply Hr|]. split; [|done]. intros v Hv Hv'. by destruct (Hnew v Hv').
  - intros v [Hv|Hv]%elem_of_app; [by apply (rn_pending _ _ _ Hr)|by apply Hnew].
  - intros v Hv. destruct (decide (v ∈ new)) as [Hvn|Hvn]; [by apply Hover|]. apply elem_of_app in Hv as [Hv|Hv]; [|done].
    destruct (rn_over _ _ _ Hr v Hv) as (s & Hst & Hin). destruct (Hother v Hvn) as [->|[_ ->]]; [by exists s|].
    exists ROLLED_BACK. split; [done|]. set_solver.
  - intros v [Hv Hvn]%not_elem_of_app. destruct (rn_other _ _ _ Hr v Hv) as [H1|[H1 H1']], (Hother v Hvn) as [H2|[H2 H2']].
    + left. congruence.
    + right. split; congruence.
    + right. split; congruence.
    + congruence.
  - intros l1 v l2 Heq d Hd. destruct (app_eq_inv _ _ _ _ Heq) as [(k & -> & Hk)|(k & -> & Hk)].
    + destruct k as [|w k]; simpl in Hk.
      * apply Hdeps in Hd; [|rewrite <-Hk; by left]. by rewrite app_nil_r in Hd.
      * injection Hk as <- ->. by apply (rn_order _ _ _ Hr l1 v k).
    + apply Hdeps in Hd; [|rewrite Hk; apply elem_of_app; right; by left]. destruct Hd as [|Hd]; [by left|right].
      apply elem_of_app. by left.
  - intros v d Hv Hd. assert (succeeded (st (ex_dag x) d)) as Hsx.
    { apply elem_of_app in Hv as [Hv|Hv]; [by apply (rn_done _ _ _ Hr v)|]. left. apply (Hready v Hv).
      by rewrite (same_shape_deps_of _ _ v (rn_shape _ _ _ Hr)). }
    assert (d ∉ new) as Hdn.
    { intros Hdn. destruct (Hready d Hdn) as [Hpd _]. rewrite Hpd in Hsx. by destruct Hsx. }
    destruct (Hother d Hdn) as [->|[_ ->]]; [done|by right].
  - intros Hnr v. rewrite (Hok Hnr v), (rn_success _ _ _ Hr Hnr v). destruct (decide (v ∈ new)) as [Hv|Hv].
    + by rewrite decide_True by (apply elem_of_app; by right).
    + destruct (decide (v ∈ us)) as [Hu|Hu]; [by rewrite decide_True by (apply elem_of_app; by left)|].
      rewrite decide_False; [done|]. by intros [|]%elem_of_app.
Qed.

(** Each step takes the ready nodes from the pending ones. *)
Lemma batch_pending us x x' : deps_ok (ex_dag x) -> batch_ran us x x' -> NoDup us ->
  (forall v, v ∈ us -> st (ex_dag x) v = Some PENDING) ->
  length (ids_in PENDING (ex_dag x)) = length us + length (ids_in PENDING (ex_dag x')).
Proof.
  intros Hg Hb Hnd Hp. assert (deps_ok (ex_dag x')) as Hg' by (eapply same_shape_deps; [apply Hb|done]).
  destruct Hb as (Hs & _ & Hover & Hother & _).
  rewrite <-length_app. apply Permutation_length, NoDup_Permutation.
  - apply NoDup_ids_in, Hg.
  - apply NoDup_app. split; [done|]. split; [|apply NoDup_ids_in, Hg']. intros v Hv Hv'.
    apply elem_of_ids_in in Hv'; [|apply Hg']. destruct (Hover v Hv) as (s & Hst & Hin). rewrite Hst in Hv'. injection Hv' as ->.
    apply (bool_decide_eq_false_1 (PENDING ∈ [COMPLETED; FAILED; ROLLED_BACK])); [reflexivity|done].
  - intros v. rewrite elem_of_app, !elem_of_ids_in by (apply Hg || apply Hg'). split.
    + intros Hv. destruct (decide (v ∈ us)) as [|Hnot]; [by left|right]. destruct (Hother v Hnot) as [->|[Hc _]]; [done|congruence].
    + intros [Hv|Hv]; [by apply Hp|]. destruct (decide (v ∈ us)) as [Hin|Hnot]; [by apply Hp|].
      destruct (Hother v Hnot) as [<-|[_ Hc]]; [done|congruence].
Qed.

(** Nothing is left to do. *)
Definition run_over g : Prop := forall v, st g v = Some PENDING -> exists d, d ∈ deps_of g v /\ st g d <> Some COMPLETED.

Lemma complete_state g v s : od_wf (dg_nodes g) -> is_complete g = true -> st g v = Some s -> s ∈ [COMPLETED; SKIPPED].
Proof.
  intros Hw Hc Hv. unfold st in Hv. destruct (od_get v (dg_nodes g)) as [n|] eqn:Hn; [|done]. injection Hv as <-.
  unfold is_complete in Hc. rewrite forallb_forall in Hc. apply od_get_Some in Hn.
  specialize (Hc n). rewrite <-list_elem_of_In in Hc. eapply bool_decide_eq_true, Hc. by apply (list_elem_of_fmap_2 snd _ (v, n)).
Qed.

Lemma run_over_end g : deps_ok g -> is_complete g = true \/ get_ready_nodes g = Ret [] -> run_over g.
Proof.
  intros Hg [Hc|Hl] v Hv.
  - apply (complete_state g v PENDING) in Hc; [|apply Hg|done]. exfalso.
    apply (bool_decide_eq_false_1 (PENDING ∈ [COMPLETED; SKIPPED])); [reflexivity|done].
  - destruct (get_ready_spec g Hg) as (l & Hl' & _ & Hin). rewrite Hl in Hl'. injection Hl' as <-.
    unfold deps_of. unfold st in Hv. destruct (od_get v (dg_nodes g)) as [n|] eqn:Hn; [|done]. injection Hv as Hst. simpl.
    destruct (decide (Exists (fun d => st g d <> Some COMPLETED) (dependencies n))) as [Hex|Hno].
    + apply Exists_exists in Hex as (d & Hd & Hne). by exists d.
    + exfalso. assert (n ∈ ([] : list task_node)) as []%not_elem_of_nil. apply Hin. split; [by exists v|]. split; [done|].
      intros d Hd. destruct (decide (st g d = Some COMPLETED)) as [|Hne]; [done|]. exfalso. apply Hno, Exists_exists. by exists d.
Qed.

Lemma run_steps_spec g0 : deps_ok g0 -> idle g0 -> forall fuel us x, ran g0 us x ->
  length (ids_in PENDING (ex_dag x)) < fuel ->
  exists k us' x', run_steps execute_fn on_progress str_exc fuel x = (Ret (Some k), x') /\
    k <= S (length (ids_in PENDING (ex_dag x))) /\ ran g0 us' x' /\ run_over (ex_dag x').
Proof.
  intros Hg0 Hi0. induction fuel as [|fuel IH]; intros us x Hr Hf; [lia|].
  pose proof (same_shape_deps _ _ (rn_shape _ _ _ Hr) Hg0) as Hg. cbn [run_steps]. unfold mbind, PyM_bind.
  destruct (step_spec x Hg (ran_idle _ _ _ Hi0 Hr)) as [[Hl Hstep]|(l & res & x' & Hl & Hne & Hstep & Hb & Hend)]; rewrite Hstep.
  - exists 1, us, x. cbn [sr_is_terminal]. split; [done|]. split; [lia|]. split; [done|]. apply run_over_end; [done|by right].
  - pose proof (ran_step g0 us x x' l Hg0 Hr Hl Hb) as Hr'.
    pose proof (same_shape_deps _ _ (rn_shape _ _ _ Hr') Hg0) as Hg'.
    destruct (get_ready_spec _ Hg) as (l' & Hl' & Hnd & _). rewrite Hl in Hl'. injection Hl' as <-.
    pose proof (batch_pending _ _ _ Hg Hb Hnd (fun v Hv => proj1 (ready_pending _ l v Hg Hl Hv))) as Hlen.
    assert (0 < length (node_id <$> l)) as Hpos by (destruct l; [done|rewrite length_fmap; simpl; lia]).
    destruct (sr_is_terminal res) eqn:Hterm.
    + exists 1, (us ++ (node_id <$> l)), x'. split; [done|]. split; [lia|]. split; [done|]. apply run_over_end; [done|]. by apply Hend.
    + destruct (IH _ x' Hr') as (k & us' & x2 & Hrun & Hk & Hr2 & Hover); [lia|]. rewrite Hrun.
      exists (S k), us', x2. split; [done|]. split; [lia|]. by split.
Qed.
End run.
End exec.

(** Between DAGs that methods built and what a run relies on. *)
Lemma dag_ok_deps `{!SetOrder} {C : Type} (g : @TaskDAG C) : dag_ok g -> deps_ok g.
Proof.
  intros (Hw & _ & Hm). split; [apply Hw|]. intros u n Hn. split.
  - pose proof (dw_ids g Hw) as Hi. rewrite Forall_forall in Hi. apply od_get_Some in Hn. exact (Hi _ Hn).
  - intros d Hd. destruct (Hm u n Hn) as (_ & _ & _ & H4). apply H4 in Hd. by eapply targets_source.
Qed.

Lemma deps_of_targets `{!SetOrder} {C : Type} (g : @TaskDAG C) u d : dag_ok g -> u ∈ ids g -> d ∈ deps_of g u <-> u ∈ targets g d.
Proof.
  intros (_ & _ & Hm) Hu. destruct (ids_node g u Hu) as [n Hn]. unfold deps_of. rewrite Hn. by apply (Hm u n Hn).
Qed.

Lemma st_ids `{!SetOrder} {C : Type} (g : @TaskDAG C) u s : st g u = Some s -> u ∈ ids g.
Proof. intros Hs. apply od_get_is_Some. unfold st in Hs. destruct (od_get u (dg_nodes g)); [by eexists|done]. Qed.

Lemma complete_iff `{!SetOrder} {C : Type} (g : @TaskDAG C) : deps_ok g ->
  is_complete g = true <-> forall v, v ∈ ids g -> exists s, st g v = Some s /\ s ∈ [COMPLETED; SKIPPED].
Proof.
  intros [Hw Hd]. split.
  - intros Hc v Hv. destruct (ids_node g v Hv) as [n Hn]. exists (node_state n). rewrite (st_node g v n Hn). split; [done|].
    apply (complete_state g v); [done|done|by apply st_node].
  - intros Hall. unfold is_complete. apply forallb_forall. intros n Hin. rewrite <-list_elem_of_In in Hin.
    apply list_elem_of_fmap in Hin as ([k m] & -> & Hk). apply od_get_elem in Hk; [|done]. simpl.
    destruct (Hall k) as (s & Hs & Hs'); [apply od_get_is_Some; by rewrite Hk|]. rewrite (st_node g k m Hk) in Hs.
    injection Hs as <-. by apply bool_decide_eq_true.
Qed.

(** C20: A run of a DAG ends and keeps the order.  For a DAG that its methods built, with
    no node left running when the run begins, an [execute_fn] that raises nothing but
    [Exception]s and an [on_progress] that does not raise (a node left running makes the
    loop spin, see [run_spins]), [run_to_completion] ends within one step more than there
    are pending nodes.  It calls only pending nodes, each at most once, and only after each
    dependency was completed before the run, or was called before and succeeded: no
    dependency of a called node ends as failed, skipped or pending, though it may have been
    rolled back.  It reports success exactly when every node is completed or skipped, and a
    node left pending has a dependency that is not completed. *)
Theorem dag_run_ends `{!SetOrder} (C : Type) (depth : nat) (ops : list (dag_op (C := C)))
    (execute_fn : list string -> TaskNode -> outcome (odict string pyval))
    (on_progress : option (DAGProgress -> outcome unit)) (str_exc : exn -> string) :
  Forall fresh_op ops -> length ops <= depth ->
  let g := foldl (exec_op depth) empty_dag ops in
  idle g ->
  (forall calls n e, execute_fn calls n = Raise e -> is_exception e = true) ->
  (forall f p, on_progress = Some f -> f p = Ret tt) ->
  let pending := length (ids_in PENDING g) in
  exists res x, run_to_completion execute_fn on_progress str_exc (S pending) (mkExecutor g [] []) = (Ret (Some res), x) /\
    rs_total_steps res <= S pending /\
    NoDup (ex_calls x) /\ (forall v, v ∈ ex_calls x -> st g v = Some PENDING) /\
    (forall l1 v l2, ex_calls x = l1 ++ v :: l2 -> forall d, v ∈ targets g d ->
       (st g d = Some COMPLETED \/ d ∈ l1) /\ succeeded (st (ex_dag x) d)) /\
    (rs_success res = true <-> forall v, v ∈ ids g -> exists s, st (ex_dag x) v = Some s /\ s ∈ [COMPLETED; SKIPPED]) /\
    (forall v, st (ex_dag x) v = Some PENDING -> exists d, v ∈ targets g d /\ st (ex_dag x) d <> Some COMPLETED).
Proof.
  intros Hf Hl g Hidle Hpolite Hprog pending. destruct (built_ok depth ops Hf Hl) as [Hok _]. fold g in Hok.
  pose proof (dag_ok_deps g Hok) as Hg.
  destruct (run_steps_spec execute_fn on_progress str_exc Hpolite Hprog g Hg Hidle (S pending) [] (mkExecutor g [] []))
    as (k & us & x & Hrun & Hk & Hr & Hover); [apply ran_start|simpl; lia|].
  unfold run_to_completion. cbv beta iota delta [mbind PyM_bind py_get mret PyM_ret]. rewrite Hrun.
  eexists _, x. split; [reflexivity|]. split; [exact Hk|]. rewrite (rn_calls _ _ _ _ Hr).
  assert (forall v, st g v = Some PENDING -> v ∈ ids g) as Hid by (intros v; apply st_ids).
  split; [apply Hr|]. split; [apply Hr|]. split; [|split].
  - intros l1 v l2 Heq d Hd. assert (v ∈ us) as Hv by (rewrite Heq; apply elem_of_app; right; by left).
    assert (d ∈ deps_of g v) as Hdv by (apply deps_of_targets; [done|by apply Hid, (rn_pending _ _ _ _ Hr)|done]).
    split; [by apply (rn_order _ _ _ _ Hr l1 v l2 Heq)|by apply (rn_done _ _ _ _ Hr v)].
  - cbn. rewrite complete_iff by (eapply same_shape_deps; [apply Hr|done]). by rewrite (proj1 (rn_shape _ _ _ _ Hr)).
  - intros v Hv. destruct (Hover v Hv) as (d & Hd & Hn). exists d. split; [|done].
    rewrite (same_shape_deps_of _ _ v (rn_shape _ _ _ _ Hr)) in Hd. apply deps_of_targets; [done| |done].
    rewrite <-(proj1 (rn_shape _ _ _ _ Hr)). by eapply st_ids.
Qed.

(** A DAG whose callbacks succeed is run completely.  When every node of a built
    DAG is pending and no callback raises, [run_to_completion] reports success,
    every node is completed, and the callbacks were called once for every node, in a
    topological order. *)
Theorem dag_run_succeeds `{!SetOrder} (C : Type) (depth : nat) (ops : list (dag_op (C := C)))
    (execute_fn : list string -> TaskNode -> outcome (odict string pyval))
    (on_progress : option (DAGProgress -> outcome unit)) (str_exc : exn -> string) :
  Forall fresh_op ops -> length ops <= depth ->
  let g := foldl (exec_op depth) empty_dag ops in
  (forall v, v ∈ ids g -> st g v = Some PENDING) ->
  (forall calls n e, execute_fn calls n <> Raise e) ->
  (forall f p, on_progress = Some f -> f p = Ret tt) ->
  exists res x, run_to_completion execute_fn on_progress str_exc (S (length (dg_nodes g))) (mkExecutor g [] []) = (Ret (Some res), x) /\
    rs_success res = true /\ topological g (ex_calls x) /\ (forall v, v ∈ ids g -> st (ex_dag x) v = Some COMPLETED).
Proof.
  intros Hf Hl g Hall Hnr Hprog. destruct (built_ok depth ops Hf Hl) as [Hok _]. fold g in Hok. pose proof Hok as (Hw & Ha & _).
  pose proof (dag_ok_deps g Hok) as Hg.
  assert (idle g) as Hidle by (intros v Hv; pose proof (st_ids g v _ Hv) as Hin; rewrite (Hall v Hin) in Hv; done).
  assert (length (ids_in PENDING g) <= length (dg_nodes g)) as Hlen.
  { unfold ids_in. rewrite length_fmap. apply length_filter. }
  assert (forall calls n e, execute_fn calls n = Raise e -> is_exception e = true) as Hpol by (intros calls n e He; by apply Hnr in He).
  destruct (run_steps_spec execute_fn on_progress str_exc Hpol Hprog g Hg Hidle (S (length (dg_nodes g))) [] (mkExecutor g [] []))
    as (k & us & x & Hrun & Hk & Hr & Hover); [apply ran_start|simpl; lia|].
  pose proof (rn_success _ _ _ _ Hr Hnr) as Hst. pose proof (proj1 (rn_shape _ _ _ _ Hr)) as Hids.
  assert (us ⊆ ids g) as Hsub by (intros v Hv; apply (st_ids g v PENDING), (rn_pending _ _ _ _ Hr v Hv)).
  assert (forall v, v ∈ ids g -> v ∈ us) as Hcalled.
  { intros v Hv. destruct (decide (v ∈ us)) as [|Hnot]; [done|]. exfalso.
    destruct (no_source_cycle (succ g) (filter (fun u => u ∉ us) (ids g))) as [y Hy]; [| |by apply (Ha y)].
    - intros Hnil. assert (v ∈ filter (fun u => u ∉ us) (ids g)) as Hin by by apply list_elem_of_filter.
      rewrite Hnil in Hin. by apply not_elem_of_nil in Hin.
    - intros w [Hw' Hwi]%list_elem_of_filter.
      assert (st (ex_dag x) w = Some PENDING) as Hp by (rewrite Hst, decide_False by done; by apply Hall).
      destruct (Hover w Hp) as (d & Hd & Hnc). rewrite (same_shape_deps_of _ _ w (rn_shape _ _ _ _ Hr)) in Hd.
      apply deps_of_targets in Hd; [|done|done]. exists d. split; [|by apply elem_of_succ]. apply list_elem_of_filter.
      split; [|by eapply targets_source]. intros Hdu. apply Hnc. by rewrite Hst, decide_True. }
  assert (forall v, v ∈ ids g -> st (ex_dag x) v = Some COMPLETED) as Hdone.
  { intros v Hv. by rewrite Hst, decide_True by by apply Hcalled. }
  unfold run_to_completion. cbv beta iota delta [mbind PyM_bind py_get mret PyM_ret]. rewrite Hrun.
  eexists _, x. split; [reflexivity|]. cbn [rs_success]. rewrite (rn_calls _ _ _ _ Hr). split; [|split; [split|done]].
  - apply complete_iff; [eapply same_shape_deps; [apply Hr|done]|]. intros v Hv. rewrite Hids in Hv. exists COMPLETED.
    split; [by apply Hdone|]. by left.
  - apply NoDup_Permutation; [apply Hr|by apply NoDup_ids|]. intros v. split; [apply Hsub|apply Hcalled].
  - intros l1 v l2 Heq u Hu. destruct (rn_order _ _ _ _ Hr l1 v l2 Heq u) as [Hc|]; [|rewrite (Hall u) in Hc|done].
    + apply deps_of_targets; [done| |done]. apply Hsub. rewrite Heq. apply elem_of_app. right. by left.
    + done.
    + by eapply targets_source.
Qed.

Lemma idle_ids `{!SetOrder} {C : Type} (g : @TaskDAG C) : deps_ok g -> ids_in RUNNING g = [] -> idle g.
Proof. intros [Hw _] Hnil v Hv. apply elem_of_ids_in in Hv; [|done]. rewrite Hnil in Hv. by apply not_elem_of_nil in Hv. Qed.

Lemma all_pending_ids `{!SetOrder} {C : Type} (g : @TaskDAG C) : deps_ok g -> ids_in PENDING g = ids g ->
  forall v, v ∈ ids g -> st g v = Some PENDING.
Proof. intros [Hw _] Hids v Hv. apply elem_of_ids_in; [done|]. by rewrite Hids. Qed.

(** Witnesses: the diamond, with a callback that fails at [b], and one that does not. *)
Definition fail_at_b (calls : list string) (n : @TaskNode unit) : outcome (odict string pyval) :=
  if decide (node_id n = "b") then Raise (RuntimeError "boom") else Ret [].

Lemma diamond_deps : deps_ok (foldl (exec_op 100) empty_dag diamond).
Proof. apply dag_ok_deps, built_ok; [apply diamond_fresh|simpl; lia]. Qed.

Lemma dag_run_ends_witness :
  exists res x, run_to_completion fail_at_b None (fun _ => "boom") 5 (mkExecutor (foldl (exec_op 100) empty_dag diamond) [] []) =
    (Ret (Some res), x) /\ ex_calls x = ["a"; "b"; "c"] /\ rs_success res = false /\
    exists d, "d" ∈ targets (foldl (exec_op 100) empty_dag diamond) d /\ st (ex_dag x) d <> Some COMPLETED.
Proof.
  destruct (dag_run_ends unit 100 diamond fail_at_b None (fun _ => "boom")) as (res & x & Hrun & _ & _ & _ & _ & _ & Hp).
  - apply diamond_fresh.
  - simpl. lia.
  - apply idle_ids; [apply diamond_deps|vm_compute; reflexivity].
  - intros calls n e. unfold fail_at_b. destruct (decide _); [|discriminate]. intros [= <-]. reflexivity.
  - discriminate.
  - exists res, x. split; [exact Hrun|]. vm_compute in Hrun. injection Hrun as <- <-.
    split; [reflexivity|]. split; [reflexivity|]. apply Hp. vm_compute. reflexivity.
Defined.

Lemma dag_run_succeeds_witness :
  exists res x, run_to_completion (fun _ _ => Ret []) None (fun _ => "") 5 (mkExecutor (foldl (exec_op 100) empty_dag diamond) [] []) =
    (Ret (Some res), x) /\ rs_success res = true /\ ex_calls x = ["a"; "b"; "c"; "d"].
Proof.
  destruct (dag_run_succeeds unit 100 diamond (fun _ _ => Ret []) None (fun _ => "")) as (res & x & Hrun & Hok & _).
  - apply diamond_fresh.
  - simpl. lia.
  - apply all_pending_ids; [apply diamond_deps|vm_compute; reflexivity].
  - discriminate.
  - discriminate.
  - exists res, x. split; [exact Hrun|]. split; [exact Hok|]. vm_compute in Hrun. injection Hrun as <- <-. reflexivity.
Defined.

(** A node rolled back by a failure of the same step is still built upon: [b] fails
    and rolls [a] back, and [c], ready at the start of the step, runs and completes. *)
Lemma sibling_runs_after_rollback :
  let x := (run_to_completion fail_at_b None (fun _ => "boom") 5
              (mkExecutor (foldl (exec_op 100) empty_dag diamond) [] [])).2 in
  st (ex_dag x) "a" = Some ROLLED_BACK /\ st (ex_dag x) "c" = Some COMPLETED /\ ex_rolled_back x = ["a"].
Proof. vm_compute. repeat split. Qed.

(** A run never ends while a node is left running, nothing is ready and none failed:
    [while True] steps forever. *)
Lemma run_spins `{!SetOrder} (C : Type) (execute_fn : list string -> @TaskNode C -> outcome (odict string pyval)) str_exc
    (x : executor (TaskContract := C)) :
  get_ready_nodes (ex_dag x) = Ret [] -> _has_running (ex_dag x) = true -> is_complete (ex_dag x) = false ->
  is_failed (ex_dag x) = false -> forall fuel, run_steps execute_fn None str_exc fuel x = (Ret None, x).
Proof.
  intros Hl Hr Hc Hf. induction fuel as [|fuel IH]; [done|]. cbn [run_steps]. unfold step.
  cbv beta iota delta [mbind PyM_bind py_get py_lift mret PyM_ret]. rewrite Hl, Hr. cbn [negb exec_ready].
  rewrite andb_false_r. cbv beta iota delta [mret PyM_ret]. rewrite Hc, Hf. cbn [sr_is_terminal]. by rewrite IH.
Qed.
