(* ===== verification/StageGraph.v ===== *)
(** * Stage graph ([hi_agent/trajectory/stage_graph.py])

    The directed graph of stage transitions that a run follows, its validations and
    its traversal order, over the loops of [Graph]. *)

From stdpp Require Import base tactics option list strings gmap relations sorting pretty.
From Stdlib Require Import ZArith.
From S2P Require Import Prelude PyStr PyDict Graph.
#[local] Arguments String.append : simpl nomatch.

(** [CTSBudget] ([hi_agent/contracts/cts_budget.py]) *)
Record CTSBudget := mkBudget { l0_raw_tokens : Z; l1_summary_tokens : Z; l2_index_tokens : Z }.
Definition total_tokens (b : CTSBudget) : Z := (l0_raw_tokens b + l1_summary_tokens b + l2_index_tokens b)%Z.

Record ValidationReport := mkReport {
  is_valid : bool;
  unreachable_stages : list string;
  dead_end_stages : list string;
  terminal_unreachable_stages : list string;
  incomplete_gates : list string;
  budget_violations : list string
}.

Record StageGraph := mkStageGraph {
  transitions : odict string (gset string);
  backtrack_edges : odict string string
}.

Definition empty_stage_graph : StageGraph := mkStageGraph [] [].

Section stage_graph.
Context `{!SetOrder}.

(** [d.setdefault(k, set())] *)
Definition setdefault (k : string) (d : odict string (gset string)) : odict string (gset string) :=
  if od_mem k d then d else od_set k ∅ d.

Definition add_edge (source target : string) (g : StageGraph) : StageGraph :=
  let t := transitions g in
  mkStageGraph (setdefault target (od_set source (targets_of t source ∪ {[target]}) t)) (backtrack_edges g).

Definition successors (g : StageGraph) (stage_id : string) : gset string := targets_of (transitions g) stage_id.

Definition add_backtrack (source target : string) (g : StageGraph) : StageGraph :=
  mkStageGraph (transitions g) (od_set source target (backtrack_edges g)).

Definition get_backtrack (g : StageGraph) (stage_id : string) : option string := od_get stage_id (backtrack_edges g).

(** [edges.get(current, set()) - visited] *)
Definition unvisited (edges : odict string (gset string)) (visited : list string) (current : string) : list string :=
  set_iter (targets_of edges current ∖ list_to_set visited).

(** Enough rounds for a loop from [roots]. *)
Definition rounds (edges : odict string (gset string)) (roots : list string) : nat :=
  length roots + sum_list_with (fun kv => size kv.2) edges.

(** The loop of [validate_reachability]. *)
Fixpoint find_terminal (edges : odict string (gset string)) (terminal : string) (fuel : nat) (visited queue : list string) : bool :=
  match fuel, queue with
  | S fuel, current :: queue =>
      if decide (current = terminal) then true
      else if decide (current ∈ visited) then find_terminal edges terminal fuel visited queue
      else find_terminal edges terminal fuel (visited ++ [current]) (queue ++ unvisited edges (visited ++ [current]) current)
  | _, _ => false
  end.

Definition validate_reachability (g : StageGraph) (start_stage terminal_stage : string) : bool :=
  let t := transitions g in
  if negb (od_mem start_stage t) || negb (od_mem terminal_stage t) then false
  else find_terminal t terminal_stage (rounds t [start_stage]) [] [start_stage].

Definition has_deadlock (g : StageGraph) (terminal_stages : gset string) : bool :=
  existsb (fun kv => bool_decide (kv.1 ∉ terminal_stages) && bool_decide (kv.2 = ∅)) (transitions g).

(** [sorted(set(self.transitions) - visited)] *)
Definition stages_outside (g : StageGraph) (visited : list string) : list string :=
  sort_ids (filter (fun s => s ∉ visited) (od_keys (transitions g))).

Definition validate_reachability_from (g : StageGraph) (initial_stage : string) : list string :=
  let t := transitions g in
  if decide (t = []) then []
  else if od_mem initial_stage t then
    stages_outside g (bfs (unvisited t) (rounds t [initial_stage]) [] [initial_stage])
  else sort_ids (od_keys t).

(** The reverse adjacency. *)
Definition add_reverse (src tgt : string) (r : odict string (gset string)) : odict string (gset string) :=
  od_set tgt (targets_of r tgt ∪ {[src]}) r.

Definition reverse (t : odict string (gset string)) : odict string (gset string) :=
  foldl (fun r kv => foldl (fun r tgt => add_reverse kv.1 tgt r) r (set_iter kv.2)) (map (fun kv => (kv.1, ∅)) t) t.

Definition validate_terminal_reachability (g : StageGraph) (terminal_stages : gset string) : list string :=
  let t := transitions g in
  if decide (t = []) then []
  else
    let roots := filter (fun s => od_mem s t = true) (set_iter terminal_stages) in
    stages_outside g (bfs (unvisited (reverse t)) (rounds (reverse t) roots) [] roots).

Definition validate_gate_completeness (g : StageGraph) (gate_stages : odict string string) : list string :=
  filter (fun s => size (successors g s) < 2) (sort_ids (od_keys gate_stages)).

Definition validate_cts_budget (b : CTSBudget) : list string :=
  let check (name : string) (n : Z) := if (n <=? 0)%Z then [name +:+ " must be positive, got " +:+ pretty n] else [] in
  check "l0_raw_tokens" (l0_raw_tokens b) ++ check "l1_summary_tokens" (l1_summary_tokens b) ++
  check "l2_index_tokens" (l2_index_tokens b) ++ check "total_tokens" (total_tokens b).

Definition validate_no_dead_ends (g : StageGraph) (terminal_stages : gset string) : list string :=
  sort_ids (fst <$> filter (fun kv : string * gset string => kv.1 ∉ terminal_stages /\ kv.2 = ∅) (transitions g)).

Definition validate_all (g : StageGraph) (initial_stage : string) (terminal_stages : gset string)
    (gate_stages : option (odict string string)) (budget : option CTSBudget) : ValidationReport :=
  let unreachable := validate_reachability_from g initial_stage in
  let dead_ends := validate_no_dead_ends g terminal_stages in
  let terminal_unreachable := validate_terminal_reachability g terminal_stages in
  let gates := match gate_stages with Some gs => validate_gate_completeness g gs | None => [] end in
  let violations := match budget with Some b => validate_cts_budget b | None => [] end in
  mkReport (forallb (fun l : list string => bool_decide (l = [])) [unreachable; dead_ends; terminal_unreachable; gates; violations])
    unreachable dead_ends terminal_unreachable gates violations.

(** The start [trace_order] chooses: the least root, or the least stage. *)
Definition count_up (t : odict string (gset string)) : degrees :=
  foldl (fun d target => od_set target (default 0 (od_get target d) + 1)%Z d) (map (fun kv => (kv.1, 0%Z)) t) (t.*2 ≫= set_iter).

Definition default_start (t : odict string (gset string)) : option string :=
  match sort_ids (zero_nodes (count_up t)) with
  | root :: _ => Some root
  | [] => head (sort_ids (od_keys t))
  end.

Definition sorted_unvisited (t : odict string (gset string)) (visited : list string) (current : string) : list string :=
  filter (fun s => s ∉ visited) (sort_ids (succ_of t current)).

Definition trace_order (g : StageGraph) (start_stage : option string) : list string :=
  let t := transitions g in
  if decide (t = []) then []
  else
    match (match start_stage with Some s => Some s | None => default_start t end) with
    | Some start => if od_mem start t then bfs (sorted_unvisited t) (rounds t [start]) [] [start] else []
    | None => []
    end.
End stage_graph.

(** [build_trace_stage_graph] ([hi_agent/samples/trace_pipeline.py]) *)
Definition build_trace_stage_graph `{!SetOrder} : StageGraph :=
  add_edge "S4_synthesize" "S5_review" (add_edge "S3_build" "S4_synthesize"
    (add_edge "S2_gather" "S3_build" (add_edge "S1_understand" "S2_gather" empty_stage_graph))).

(** Lemmas *************************************************************************)

Section facts.
Context `{!SetOrder}.
Implicit Types (t : odict string (gset string)) (g : StageGraph).

(** There are transitions from one stage to another. *)
Definition leads_to t : string -> string -> Prop := rtc (edge (succ_of t)).

Lemma edge_targets t u v : edge (succ_of t) u v <-> v ∈ targets_of t u.
Proof. apply elem_of_set_iter. Qed.

Lemma stages_outside_elem g visited s : s ∈ stages_outside g visited <-> s ∈ od_keys (transitions g) /\ s ∉ visited.
Proof. unfold stages_outside, sort_ids. rewrite merge_sort_Permutation, list_elem_of_filter. naive_solver. Qed.

Lemma visited_from t roots : od_wf t ->
  forall x, x ∈ bfs (unvisited t) (rounds t roots) [] roots <-> exists r, r ∈ roots /\ leads_to t r x.
Proof.
  intros Hw. apply (bfs_reach (succ_of t) (unvisited t)) with (U := od_keys t).
  - intros v c x. unfold unvisited, succ_of. rewrite !elem_of_set_iter. set_solver.
  - intros v c x. unfold unvisited, succ_of. rewrite !elem_of_set_iter. intros Hx. destruct (decide (x ∈ v)); [by left|right].
    apply elem_of_difference. split; [done|]. by rewrite elem_of_list_to_set.
  - intros v c. unfold unvisited, succ_of. rewrite !length_set_iter. apply subseteq_size. set_solver.
  - intros c. destruct (decide (c ∈ od_keys t)); [by left|right]. by apply succ_of_outside.
  - by rewrite pending_succ_of.
Qed.

(** Only stages lead on. *)
Lemma leads_from_stage t u v : leads_to t u v -> u = v \/ u ∈ od_keys t.
Proof.
  intros [|x y z Hxy _]; [by left|right]. destruct (decide (x ∈ od_keys t)) as [|Hx]; [done|].
  unfold edge in Hxy. rewrite succ_of_outside in Hxy by done. by apply not_elem_of_nil in Hxy.
Qed.

Lemma unreachable_elem g initial s : od_wf (transitions g) ->
  s ∈ validate_reachability_from g initial <-> s ∈ od_keys (transitions g) /\ ~ leads_to (transitions g) initial s.
Proof.
  intros Hw. unfold validate_reachability_from. destruct (decide (transitions g = [])) as [->|Hne].
  { split; [by intros []%not_elem_of_nil|by intros [[]%not_elem_of_nil _]]. }
  destruct (od_mem initial (transitions g)) eqn:Hm.
  - rewrite stages_outside_elem, visited_from by done. split; intros [Hs Hn]; (split; [done|]).
    + intros Hl. apply Hn. exists initial. split; [by left|done].
    + intros (r & ->%list_elem_of_singleton & Hl). done.
  - unfold sort_ids. rewrite merge_sort_Permutation. split; [|naive_solver]. intros Hs. split; [done|].
    assert (initial ∉ od_keys (transitions g)) as Hni by (intros Hin%od_mem_true; congruence).
    intros [->|Hin]%leads_from_stage; done.
Qed.

(** The reverse adjacency *)
Lemma add_reverse_targets src tgt r y x : x ∈ targets_of (add_reverse src tgt r) y <-> x ∈ targets_of r y \/ (y = tgt /\ x = src).
Proof.
  unfold add_reverse, targets_of at 1. destruct (decide (tgt = y)) as [<-|Hne].
  - rewrite od_get_set_eq. simpl. set_solver.
  - rewrite od_get_set_ne by done. fold (targets_of r y). naive_solver.
Qed.

Lemma add_reverse_all src tgts : forall r y x,
  x ∈ targets_of (foldl (fun r tgt => add_reverse src tgt r) r tgts) y <-> x ∈ targets_of r y \/ (y ∈ tgts /\ x = src).
Proof.
  induction tgts as [|tgt tgts IH]; intros r y x; simpl; [split; [by left|by intros [|[[]%not_elem_of_nil _]]]|].
  rewrite IH, add_reverse_targets, elem_of_cons. naive_solver.
Qed.

Lemma reverse_wf t : od_wf t -> od_wf (reverse t).
Proof.
  intros Hw. unfold reverse. assert (forall src tgts r, od_wf r -> od_wf (foldl (fun r tgt => add_reverse src tgt r) r tgts)) as Hone.
  { intros src tgts. induction tgts as [|tgt tgts IH]; intros r Hr; [done|]. apply IH. by apply od_wf_set. }
  assert (forall l r, od_wf r -> od_wf (foldl (fun r (kv : string * gset string) =>
    foldl (fun r tgt => add_reverse kv.1 tgt r) r (set_iter kv.2)) r l)) as Hall.
  { induction l as [|kv l IH]; intros r Hr; [done|]. apply IH. by apply Hone. }
  apply Hall. unfold od_wf, od_keys in *. clear Hone Hall. induction t as [|[k s] t IH]; [done|]. cbn [map].
  rewrite !fmap_cons in *. apply NoDup_cons in Hw as [Hk Hw]. constructor; [|by apply IH]. simpl in *. intros Hin. apply Hk.
  clear -Hin. induction t as [|[k' s'] t IH]; [done|]. cbn [map] in Hin. rewrite fmap_cons in *. cbn [fst] in *.
  apply elem_of_cons in Hin as [->|Hin]; [by left|right; by apply IH].
Qed.

Lemma reverse_targets t u v : od_wf t -> u ∈ targets_of (reverse t) v <-> v ∈ targets_of t u.
Proof.
  intros Hw. unfold reverse.
  assert (forall l r, (u ∈ targets_of (foldl (fun r (kv : string * gset string) =>
    foldl (fun r tgt => add_reverse kv.1 tgt r) r (set_iter kv.2)) r l) v <->
    u ∈ targets_of r v \/ exists s, (u, s) ∈ l /\ v ∈ s)) as Hl.
  { induction l as [|[k s] l IH]; intros r; simpl.
    - split; [by left|]. by intros [|(s & []%not_elem_of_nil & _)].
    - rewrite IH, add_reverse_all, elem_of_set_iter. setoid_rewrite elem_of_cons. split.
      + intros [[Hr|[Hv ->]]|(s' & Hin & Hv)]; [by left|right; exists s; split; [by left|done]|right; exists s'; split; [by right|done]].
      + intros [Hr|(s' & [[= -> ->]|Hin] & Hv)]; [left; by left|left; by right|right; by exists s']. }
  rewrite Hl. assert (u ∉ targets_of (map (fun kv : string * gset string => (kv.1, ∅)) t) v) as Hinit.
  { unfold targets_of. destruct (od_get v (map _ t)) as [s|] eqn:Hs; [|set_solver]. apply od_get_Some in Hs.
    apply list_elem_of_In, in_map_iff in Hs as (kv & [= _ <-] & _). set_solver. }
  unfold targets_of at 2. destruct (od_get u t) as [s|] eqn:Hs.
  - split; [|intros Hv; right; exists s; split; [by apply od_get_Some|done]].
    intros [|(s' & Hin & Hv)]; [done|]. apply od_get_elem in Hin; [|done]. simpl. congruence.
  - split; [|set_solver]. intros [|(s' & Hin & Hv)]; [done|]. apply od_get_elem in Hin; [|done]. congruence.
Qed.

Lemma leads_reverse t u v : od_wf t -> leads_to (reverse t) u v <-> leads_to t v u.
Proof.
  intros Hw. assert (forall t1 t2, (forall u v, u ∈ targets_of t1 v -> v ∈ targets_of t2 u) -> forall u v,
    leads_to t1 u v -> leads_to t2 v u) as Hdir.
  { intros t1 t2 He x y Hxy. induction Hxy as [x|x y z Hxy _ IH]; [done|]. eapply rtc_r; [exact IH|].
    apply edge_targets, He, edge_targets. done. }
  split; apply Hdir; intros x y Hxy; by apply reverse_targets.
Qed.

Lemma terminal_unreachable_elem g terminals s : od_wf (transitions g) ->
  s ∈ validate_terminal_reachability g terminals <->
  s ∈ od_keys (transitions g) /\
    ~ exists r, r ∈ terminals /\ r ∈ od_keys (transitions g) /\ leads_to (transitions g) s r.
Proof.
  intros Hw. unfold validate_terminal_reachability. destruct (decide (transitions g = [])) as [->|Hne].
  { split; [by intros []%not_elem_of_nil|by intros [[]%not_elem_of_nil _]]. }
  rewrite stages_outside_elem, visited_from by by apply reverse_wf.
  assert ((exists r, r ∈ filter (fun s => od_mem s (transitions g) = true) (set_iter terminals) /\ leads_to (reverse (transitions g)) r s) <->
    exists r, r ∈ terminals /\ r ∈ od_keys (transitions g) /\ leads_to (transitions g) s r) as ->; [|done].
  split; intros (r & Hr).
  - destruct Hr as [[Hm Hin]%list_elem_of_filter Hl]. exists r. split; [by apply elem_of_set_iter|].
    split; [by apply od_mem_true|]. by apply leads_reverse.
  - destruct Hr as (Hin & Hk & Hl). exists r. split; [|by apply leads_reverse].
    apply list_elem_of_filter. split; [by apply od_mem_true|by apply elem_of_set_iter].
Qed.

Lemma dead_end_elem g terminals s : od_wf (transitions g) ->
  s ∈ validate_no_dead_ends g terminals <-> s ∈ od_keys (transitions g) /\ s ∉ terminals /\ successors g s = ∅.
Proof.
  intros Hw. unfold validate_no_dead_ends, sort_ids, successors, targets_of. rewrite merge_sort_Permutation. split.
  - intros ([k v] & -> & [[Hk Hv] Hin]%list_elem_of_filter)%list_elem_of_fmap. simpl in *.
    rewrite (od_get_elem k v _ Hw Hin). split; [by apply (list_elem_of_fmap_2 fst _ (k, v))|done].
  - intros ([v Hv]%od_get_is_Some & Ht & He). rewrite Hv in He. simpl in He. apply list_elem_of_fmap. exists (s, v).
    split; [done|]. apply list_elem_of_filter. split; [done|by apply od_get_Some].
Qed.

Lemma incomplete_gate_elem g gates s : s ∈ validate_gate_completeness g gates <-> s ∈ od_keys gates /\ size (successors g s) < 2.
Proof. unfold validate_gate_completeness, sort_ids. rewrite list_elem_of_filter, merge_sort_Permutation. naive_solver. Qed.

Lemma budget_ok b : validate_cts_budget b = [] <-> (0 < l0_raw_tokens b /\ 0 < l1_summary_tokens b /\ 0 < l2_index_tokens b)%Z.
Proof.
  unfold validate_cts_budget, total_tokens. repeat case_match; rewrite ?Z.leb_le, ?Z.leb_gt in *; simpl; (split; [|]); try done; lia.
Qed.

Lemma empty_iff {A} (l : list A) : l = [] <-> forall x, x ∉ l.
Proof. split; [intros ->; apply not_elem_of_nil|]. destruct l as [|x l]; [done|]. intros Hn. destruct (Hn x). by left. Qed.

(** The search for the terminal finds it exactly when the collection would. *)
Lemma bfs_visited next fuel : forall visited queue x, x ∈ visited -> x ∈ bfs next fuel visited queue.
Proof.
  induction fuel as [|fuel IH]; intros visited queue x Hx; [done|]. destruct queue as [|c queue]; [done|]. simpl.
  case_decide; apply IH; [done|]. apply elem_of_app. by left.
Qed.

Lemma find_terminal_bfs t terminal fuel : forall visited queue, terminal ∉ visited ->
  find_terminal t terminal fuel visited queue = bool_decide (terminal ∈ bfs (unvisited t) fuel visited queue).
Proof.
  induction fuel as [|fuel IH]; intros visited queue Hv; [by rewrite bool_decide_false|].
  destruct queue as [|c queue]; [by rewrite bool_decide_false|]. simpl. destruct (decide (c = terminal)) as [->|Hne].
  - rewrite decide_False by done. symmetry. apply bool_decide_true, bfs_visited, elem_of_app. right. by left.
  - destruct (decide (c ∈ visited)); [by apply IH|]. apply IH. intros [Hin|Hin%list_elem_of_singleton]%elem_of_app; congruence.
Qed.

(** The start of a traversal *)
Lemma count_up_get ts : forall (d : degrees) v, 
  default 0%Z (od_get v (foldl (fun d target => od_set target (default 0 (od_get target d) + 1)%Z d) d ts)) =
  (default 0%Z (od_get v d) + Z.of_nat (occ v ts))%Z.
Proof.
  induction ts as [|x ts IH]; intros d v; simpl; [change (occ v []) with 0; lia|]. rewrite IH, occ_cons.
  destruct (decide (x = v)) as [->|Hne]; [rewrite od_get_set_eq; simpl; lia|]. rewrite od_get_set_ne by done. lia.
Qed.

Lemma count_up_keys ts : forall (d : degrees), od_wf d ->
  let d' := foldl (fun d target => od_set target (default 0 (od_get target d) + 1)%Z d) d ts in
  od_wf d' /\ forall v, v ∈ od_keys d' <-> v ∈ od_keys d \/ v ∈ ts.
Proof.
  induction ts as [|x ts IH]; intros d Hd; simpl; [split; [done|]; intros v; split; [by left|by intros [|[]%not_elem_of_nil]]|].
  destruct (IH (od_set x (default 0 (od_get x d) + 1)%Z d)) as [Hw Hk]; [by apply od_wf_set|]. split; [done|].
  intros v. rewrite Hk, elem_of_keys_set, elem_of_cons. naive_solver.
Qed.

(** The default start is a stage, and one without incoming transitions if there is any. *)
Lemma default_start_spec t : od_wf t -> t <> [] ->
  exists s, default_start t = Some s /\ s ∈ od_keys t /\
    forall r, r ∈ od_keys t -> (forall u, r ∉ targets_of t u) -> forall u, s ∉ targets_of t u.
Proof.
  intros Hw Hne. set (ts := t.*2 ≫= set_iter).
  assert (forall u v, v ∈ targets_of t u -> v ∈ ts) as Hts.
  { intros u v. unfold targets_of. destruct (od_get u t) as [s|] eqn:Hs; [|set_solver]. simpl. intros Hv.
    apply list_elem_of_bind. exists s. split; [by apply elem_of_set_iter|]. apply od_get_Some in Hs.
    by apply (list_elem_of_fmap_2 snd _ (u, s)). }
  assert (forall v, v ∈ ts -> exists u, v ∈ targets_of t u) as Hts'.
  { intros v (s & Hv & Hs)%list_elem_of_bind. apply list_elem_of_fmap in Hs as ([u s'] & -> & Hin). exists u.
    unfold targets_of. rewrite (od_get_elem u s' _ Hw Hin). by apply elem_of_set_iter. }
  assert (od_keys (map (fun kv : string * gset string => (kv.1, 0%Z)) t) = od_keys t) as Hk0.
  { unfold od_keys. clear. induction t as [|kv t IH]; [done|]. cbn [map]. rewrite !fmap_cons. by f_equal. }
  destruct (count_up_keys ts (map (fun kv : string * gset string => (kv.1, 0%Z)) t)) as [Hcw Hck]; [unfold od_wf; by rewrite Hk0|].
  change (od_wf (count_up t)) in Hcw. rewrite Hk0 in Hck.
  assert (forall v, v ∈ od_keys (count_up t) <-> v ∈ od_keys t \/ v ∈ ts) as Hck' by exact Hck. clear Hck. rename Hck' into Hck.
  assert (forall v, v ∈ zero_nodes (count_up t) <-> v ∈ od_keys t /\ v ∉ ts) as Hz.
  { intros v. rewrite zero_nodes_elem by done.
    pose proof (count_up_get ts (map (fun kv : string * gset string => (kv.1, 0%Z)) t) v) as Hv.
    change (foldl _ _ ts) with (count_up t) in Hv.
    assert (default 0%Z (od_get v (map (fun kv : string * gset string => (kv.1, 0%Z)) t)) = 0%Z) as H0.
    { set (d0 := map (fun kv : string * gset string => (kv.1, 0%Z)) t). destruct (od_get v d0) as [n|] eqn:Hn; [|done]. simpl.
      by apply od_get_Some, list_elem_of_In, in_map_iff in Hn as (kv & [= _ <-] & _). }
    rewrite H0, Z.add_0_l in Hv. rewrite <-(occ_pos v ts). split.
    - intros Hg. rewrite Hg in Hv. simpl in Hv. assert (v ∈ od_keys (count_up t)) as Hin by (apply od_get_is_Some; by rewrite Hg).
      apply Hck in Hin. rewrite <-(occ_pos v ts) in Hin. destruct Hin as [|Ho]; [split; [done|]|]; lia.
    - intros [Hin Ho]. assert (v ∈ od_keys (count_up t)) as [n Hn]%od_get_is_Some by (apply Hck; by left).
      rewrite Hn in Hv |- *. simpl in Hv. f_equal. lia. }
  unfold default_start. destruct (sort_ids (zero_nodes (count_up t))) as [|root roots] eqn:Hroots.
  - destruct t as [|[k s] t'] eqn:Ht; [done|]. rewrite <-Ht in *.
    assert (sort_ids (od_keys t) ≡ₚ od_keys t) as Hp by apply merge_sort_Permutation.
    destruct (sort_ids (od_keys t)) as [|s0 l] eqn:Hs0; [apply Permutation_nil_l in Hp; by rewrite Ht in Hp|].
    exists s0. split; [done|]. split; [rewrite <-Hp; by left|]. intros r Hr Hno. exfalso.
    assert (r ∈ zero_nodes (count_up t)) as Hin. { apply Hz. split; [done|]. intros [u Hu]%Hts'. by apply (Hno u). }
    assert (r ∈ sort_ids (zero_nodes (count_up t))) as Hin' by (unfold sort_ids; by rewrite merge_sort_Permutation).
    rewrite Hroots in Hin'. by apply not_elem_of_nil in Hin'.
  - exists root. split; [done|]. assert (root ∈ sort_ids (zero_nodes (count_up t))) as Hin by (rewrite Hroots; by left).
    unfold sort_ids in Hin. rewrite merge_sort_Permutation in Hin. apply Hz in Hin as [Hk Hnt].
    split; [done|]. intros r _ _ u Hu. by apply Hnt, (Hts u).
Qed.
End facts.

(** Validation means what it says.  [validate_all] calls a graph valid exactly
    when every stage is reachable from the initial one, every stage reaches a
    terminal stage of the graph, no other stage is without successors, every gate
    has two, and the layers of the budget are positive. *)
Theorem validate_all_exact `{!SetOrder} (g : StageGraph) (initial : string) (terminals : gset string)
    (gates : option (odict string string)) (budget : option CTSBudget) :
  od_wf (transitions g) ->
  is_valid (validate_all g initial terminals gates budget) = true <->
    (forall s, s ∈ od_keys (transitions g) ->
      leads_to (transitions g) initial s /\
      (exists r, r ∈ terminals /\ r ∈ od_keys (transitions g) /\ leads_to (transitions g) s r) /\
      (s ∉ terminals -> successors g s <> ∅)) /\
    (forall gs s, gates = Some gs -> s ∈ od_keys gs -> 2 <= size (successors g s)) /\
    (forall b, budget = Some b -> 0 < l0_raw_tokens b /\ 0 < l1_summary_tokens b /\ 0 < l2_index_tokens b)%Z.
Proof.
  intros Hw. assert (forall P : Prop, Decision P -> ~ ~ P -> P) as Hnn by (intros P [Hp|Hp]; [done|by intros []]).
  assert (forall u v, Decision (leads_to (transitions g) u v)) as Hld.
  { intros u v. destruct (decide (v ∈ bfs (unvisited (transitions g)) (rounds (transitions g) [u]) [] [u])) as [Hv|Hv];
      rewrite visited_from in Hv by done; [left|right].
    - by destruct Hv as (r & ->%list_elem_of_singleton & Hl).
    - intros Hl. apply Hv. exists u. split; [by left|done]. }
  unfold validate_all, is_valid. cbn [forallb]. rewrite !andb_true_iff, !bool_decide_eq_true, !empty_iff.
  setoid_rewrite (unreachable_elem g initial); [|done]. setoid_rewrite (dead_end_elem g terminals); [|done].
  setoid_rewrite (terminal_unreachable_elem g terminals); [|done]. split.
  - intros (Hu & Hd & Ht & Hg & Hb & _). split; [|split].
    + intros s Hs. split; [|split].
      * apply (Hnn _ (Hld initial s)). intros Hn. by apply (Hu s).
      * assert (Decision (exists r, r ∈ terminals /\ r ∈ od_keys (transitions g) /\ leads_to (transitions g) s r)) as Hex.
        { destruct (decide (Exists (fun r => r ∈ od_keys (transitions g) /\ leads_to (transitions g) s r) (elements terminals)))
            as [He|He]; rewrite Exists_exists in He; setoid_rewrite elem_of_elements in He; [left|right]; done. }
        apply (Hnn _ Hex). intros Hn. by apply (Ht s).
      * intros Hnt He. by apply (Hd s).
    + intros gs s -> Hs. destruct (decide (size (successors g s) < 2)) as [Hlt|]; [|lia].
      destruct (Hg s). by apply incomplete_gate_elem.
    + intros b ->. apply budget_ok. apply empty_iff. exact Hb.
  - intros (Hall & Hgate & Hbudget). split; [|split; [|split; [|split; [|split; [|done]]]]].
    + intros s [Hs Hn]. by apply Hn, Hall.
    + intros s (Hs & Hnt & He). by apply (Hall s Hs).
    + intros s [Hs Hn]. by apply Hn, Hall.
    + destruct gates as [gs|]; [|apply empty_iff; done]. intros s [Hs Hlt]%incomplete_gate_elem. specialize (Hgate gs s eq_refl Hs). lia.
    + destruct budget as [b|]; [|apply empty_iff; done]. apply empty_iff, budget_ok. by apply Hbudget.
Qed.

(** The traversal order visits what the start reaches.  From a stage of the
    graph, [trace_order] lists exactly the stages it leads to, each once; without a
    start it takes a stage without incoming transitions if there is one; and
    [validate_reachability] holds exactly of two stages the first of which leads to
    the second. *)
Theorem trace_order_exact `{!SetOrder} (g : StageGraph) :
  od_wf (transitions g) -> transitions g <> [] ->
  (forall start, start ∈ od_keys (transitions g) ->
    NoDup (trace_order g (Some start)) /\
    forall s, s ∈ trace_order g (Some start) <-> leads_to (transitions g) start s) /\
  (exists start, trace_order g None = trace_order g (Some start) /\ start ∈ od_keys (transitions g) /\
    forall r, r ∈ od_keys (transitions g) -> (forall u, r ∉ successors g u) -> forall u, start ∉ successors g u) /\
  (forall start terminal, validate_reachability g start terminal = true <->
    start ∈ od_keys (transitions g) /\ terminal ∈ od_keys (transitions g) /\ leads_to (transitions g) start terminal).
Proof.
  intros Hw Hne. split; [|split].
  - intros start Hs. unfold trace_order. rewrite decide_False by done. apply od_mem_true in Hs. rewrite Hs.
    destruct (bfs_reach (succ_of (transitions g)) (sorted_unvisited (transitions g))) with
      (U := od_keys (transitions g)) (roots := [start]) (fuel := rounds (transitions g) [start]) as [Hnd Hin].
    + intros v c x. unfold sorted_unvisited, sort_ids. rewrite list_elem_of_filter, merge_sort_Permutation. naive_solver.
    + intros v c x Hx. destruct (decide (x ∈ v)); [by left|right]. unfold sorted_unvisited, sort_ids.
      by rewrite list_elem_of_filter, merge_sort_Permutation.
    + intros v c. unfold sorted_unvisited, sort_ids. etrans; [apply length_filter|]. by rewrite merge_sort_Permutation.
    + intros c. destruct (decide (c ∈ od_keys (transitions g))); [by left|right]. by apply succ_of_outside.
    + by rewrite pending_succ_of.
    + split; [done|]. intros s. rewrite Hin. split; [by intros (r & ->%list_elem_of_singleton & Hl)|].
      intros Hl. exists start. split; [by left|done].
  - destruct (default_start_spec (transitions g) Hw Hne) as (start & Hd & Hk & Hr). exists start.
    unfold trace_order. by rewrite Hd.
  - intros start terminal. unfold validate_reachability. rewrite <-!od_mem_true.
    destruct (od_mem start (transitions g)), (od_mem terminal (transitions g)); cbn [negb orb]; [|naive_solver..].
    rewrite find_terminal_bfs by apply not_elem_of_nil. rewrite bool_decide_eq_true, visited_from by done. split.
    + intros (r & ->%list_elem_of_singleton & Hl). done.
    + intros (_ & _ & Hl). exists start. split; [by left|done].
Qed.

Lemma trace_graph_wf : od_wf (transitions build_trace_stage_graph).
Proof. apply (bool_decide_eq_true_1 (NoDup (od_keys (transitions build_trace_stage_graph)))). vm_compute. reflexivity. Qed.

Lemma validate_all_exact_witness :
  is_valid (validate_all build_trace_stage_graph "S1_understand" {["S5_review"]} None (Some (mkBudget 1 2 3))) = true /\
  leads_to (transitions build_trace_stage_graph) "S1_understand" "S3_build".
Proof.
  assert (is_valid (validate_all build_trace_stage_graph "S1_understand" {["S5_review"]} None (Some (mkBudget 1 2 3))) = true) as Hv
    by (vm_compute; reflexivity).
  split; [exact Hv|].
  apply (proj1 (validate_all_exact build_trace_stage_graph "S1_understand" {["S5_review"]} None (Some (mkBudget 1 2 3))
    trace_graph_wf) Hv).
  apply (bool_decide_eq_true_1 ("S3_build" ∈ od_keys (transitions build_trace_stage_graph))). vm_compute. reflexivity.
Defined.

Lemma trace_order_exact_witness :
  trace_order build_trace_stage_graph None = ["S1_understand"; "S2_gather"; "S3_build"; "S4_synthesize"; "S5_review"] /\
  leads_to (transitions build_trace_stage_graph) "S1_understand" "S5_review".
Proof.
  split; [vm_compute; reflexivity|].
  apply (proj1 (proj2 (proj2 (trace_order_exact build_trace_stage_graph trace_graph_wf ltac:(discriminate)))
    "S1_understand" "S5_review")).
  vm_compute. reflexivity.
Defined.
