(* ===== verification/RunState.v ===== *)
(** * States of runs ([hi_agent/server/run_state_transitions.py],
    [hi_agent/state_machine/machine.py], [hi_agent/state_machine/definitions.py])

    The one write path to the state of a run of the server, and the generic state
    machine with the six machines the package defines with it.  A log line is left
    out; a callback of a machine is a function of the two states that returns or
    raises. *)

From stdpp Require Import base tactics option list strings gmap relations.
From Stdlib Require Import ZArith.
From S2P Require Import Prelude PyStr PyDict PyVal Graph StageGraph.
#[local] Arguments String.append : simpl nomatch.

(** [sorted(s)] in a message. *)
Definition repr_sorted (l : list string) : string := py_repr (PList (map PStr (sorted_set l))).

(** The legal graph of [ManagedRun.state] ******************************************)

Definition _LEGAL_TRANSITIONS : odict string (list string) :=
  [("created", ["running"; "failed"; "cancelled"]);
   ("running", ["completed"; "failed"; "cancelled"; "active"; "waiting"; "recovering";
                "aborted"; "queue_timeout"; "queue_full"]);
   ("completed", []);
   ("failed", []);
   ("cancelled", []);
   ("active", ["completed"; "failed"; "cancelled"]);
   ("waiting", ["completed"; "failed"; "cancelled"]);
   ("recovering", ["completed"; "failed"; "cancelled"]);
   ("aborted", []);
   ("queue_timeout", []);
   ("queue_full", [])].

Definition _TERMINAL_STATES : list string :=
  ["completed"; "failed"; "cancelled"; "aborted"; "queue_timeout"; "queue_full"].

Definition is_terminal (state : string) : bool := bool_decide (state ∈ _TERMINAL_STATES).

(** [transition(run, target_state)] on the [state] of the run [run_id]. *)
Definition transition (run_id target_state : string) : PyM string unit :=
  current_state ← py_get;
  if decide (current_state = target_state) then mret tt
  else if decide (current_state ∈ _TERMINAL_STATES /\ target_state ∈ _TERMINAL_STATES) then mret tt
  else match od_get current_state _LEGAL_TRANSITIONS with
       | None =>
           py_raise (ValueError ("Unknown current state " +:+ py_repr_str current_state +:+ " for run " +:+
             py_repr_str run_id +:+ "; legal states: " +:+ repr_sorted (od_keys _LEGAL_TRANSITIONS)))
       | Some allowed =>
           if decide (target_state ∈ allowed) then py_put target_state
           else py_raise (ValueError ("Illegal state transition " +:+ py_repr_str current_state +:+ " -> " +:+
             py_repr_str target_state +:+ " for run " +:+ py_repr_str run_id +:+ ". Allowed from " +:+
             py_repr_str current_state +:+ ": " +:+ repr_sorted allowed))
       end.

(** The state after each of a series of calls, whose errors are caught. *)
Fixpoint states_after (run_id state : string) (targets : list string) : list string :=
  match targets with
  | [] => []
  | t :: targets => let s := (transition run_id t state).2 in s :: states_after run_id s targets
  end.

(** The generic machine ************************************************************)

Record StateMachine := mkMachine {
  sm_name : string;
  sm_states : gset string;
  sm_current : string;
  sm_transitions : odict string (gset string);
  sm_terminal : gset string;
  sm_history : list (string * string * string);
  sm_callbacks : list (string -> string -> outcome unit)
}.

(** [StateMachine.__init__] *)
Definition new_machine (name : string) (states : gset string) (initial : string)
    (transitions : odict string (gset string)) (terminal : option (gset string)) : outcome StateMachine :=
  if decide (initial ∈ states) then
    Ret (mkMachine name states initial transitions (default ∅ terminal) [] [])
  else Raise (ValueError ("Initial state " +:+ py_repr_str initial +:+ " not in states")).

Definition sm_is_terminal (m : StateMachine) : bool := bool_decide (sm_current m ∈ sm_terminal m).

Definition can_transition (m : StateMachine) (to_state : string) : bool :=
  bool_decide (to_state ∈ sm_states m) && bool_decide (to_state ∈ targets_of (sm_transitions m) (sm_current m)).

Definition available_transitions (m : StateMachine) : gset string := targets_of (sm_transitions m) (sm_current m).

Definition moved (to_state : string) (m : StateMachine) : StateMachine :=
  mkMachine (sm_name m) (sm_states m) to_state (sm_transitions m) (sm_terminal m)
    (sm_history m ++ [(sm_current m, to_state, sm_name m)]) (sm_callbacks m).

(** [for cb in self._callbacks: cb(from_state, to_state)] *)
Fixpoint run_callbacks (cbs : list (string -> string -> outcome unit)) (from_state to_state : string) : outcome unit :=
  match cbs with
  | [] => Ret tt
  | cb :: cbs => _ ← cb from_state to_state; run_callbacks cbs from_state to_state
  end.

Definition machine_transition (to_state : string) : PyM StateMachine unit :=
  m ← py_get;
  if can_transition m to_state then
    _ ← py_put (moved to_state m);
    py_lift (run_callbacks (sm_callbacks m) (sm_current m) to_state)
  else py_raise (OtherError "InvalidTransitionError" ("[" +:+ sm_name m +:+ "] Cannot transition from " +:+
         py_repr_str (sm_current m) +:+ " to " +:+ py_repr_str to_state)).

Definition on_transition (callback : string -> string -> outcome unit) : PyM StateMachine unit :=
  py_modify (fun m => mkMachine (sm_name m) (sm_states m) (sm_current m) (sm_transitions m) (sm_terminal m)
                        (sm_history m) (sm_callbacks m ++ [callback])).

(** Calls on a machine, their errors caught. *)
Inductive machine_call :=
  | CallTransition (to_state : string)
  | CallOn (callback : string -> string -> outcome unit).

Definition do_call (m : StateMachine) (c : machine_call) : StateMachine :=
  match c with CallTransition t => (machine_transition t m).2 | CallOn cb => (on_transition cb m).2 end.

(** The machines of the package ****************************************************)

Definition run_state_machine : outcome StateMachine :=
  new_machine "run" {["created"; "active"; "waiting"; "recovering"; "completed"; "failed"; "aborted"; "cancelled"]} "created"
    [("created", {["active"; "cancelled"]});
     ("active", {["waiting"; "completed"; "failed"; "aborted"; "cancelled"]});
     ("waiting", {["active"; "recovering"; "aborted"; "cancelled"]});
     ("recovering", {["active"; "failed"; "aborted"; "cancelled"]})]
    (Some {["completed"; "failed"; "aborted"; "cancelled"]}).

Definition stage_state_machine : outcome StateMachine :=
  new_machine "stage" {["pending"; "active"; "blocked"; "completed"; "failed"]} "pending"
    [("pending", {["active"]});
     ("active", {["blocked"; "completed"; "failed"]});
     ("blocked", {["active"; "failed"]})]
    (Some {["completed"; "failed"]}).

Definition branch_state_machine : outcome StateMachine :=
  new_machine "branch" {["proposed"; "active"; "pruned"; "waiting"; "succeeded"; "failed"]} "proposed"
    [("proposed", {["active"; "pruned"]});
     ("active", {["pruned"; "waiting"; "succeeded"; "failed"]});
     ("waiting", {["active"; "pruned"]})]
    (Some {["pruned"; "succeeded"; "failed"]}).

Definition action_state_machine : outcome StateMachine :=
  new_machine "action"
    {["prepared"; "dispatched"; "acknowledged"; "succeeded"; "effect_unknown"; "failed"; "compensated"]} "prepared"
    [("prepared", {["dispatched"]});
     ("dispatched", {["acknowledged"; "failed"; "effect_unknown"]});
     ("acknowledged", {["succeeded"; "failed"; "effect_unknown"; "compensated"]})]
    (Some {["succeeded"; "effect_unknown"; "failed"; "compensated"]}).

Definition wait_state_machine : outcome StateMachine :=
  new_machine "wait" {["none"; "external_callback"; "human_review"; "scheduled_resume"]} "none"
    [("none", {["external_callback"; "human_review"; "scheduled_resume"]});
     ("external_callback", {["none"]});
     ("human_review", {["none"]});
     ("scheduled_resume", {["none"]})]
    None.

Definition review_state_machine : outcome StateMachine :=
  new_machine "review" {["not_required"; "requested"; "in_review"; "approved"; "rejected"]} "not_required"
    [("not_required", {["requested"]});
     ("requested", {["in_review"]});
     ("in_review", {["approved"; "rejected"]})]
    (Some {["approved"; "rejected"]}).

(** Lemmas *************************************************************************)

(** An edge of the legal graph. *)
Definition legal (s t : string) : Prop := t ∈ default [] (od_get s _LEGAL_TRANSITIONS).
#[export] Instance legal_dec s t : Decision (legal s t).
Proof. unfold legal. apply _. Defined.

(** The longest legal path from a state. *)
Definition state_rank (s : string) : nat :=
  if decide (s = "created") then 3 else if decide (s = "running") then 2
  else if decide (s ∈ ["active"; "waiting"; "recovering"]) then 1 else 0.

Lemma legal_edges s t : legal s t -> (s, t) ∈ (_LEGAL_TRANSITIONS ≫= fun kv => pair kv.1 <$> kv.2).
Proof.
  unfold legal. destruct (od_get s _LEGAL_TRANSITIONS) as [l|] eqn:Hs; [|by intros []%not_elem_of_nil].
  intros Ht. apply list_elem_of_bind. exists (s, l). split; [by apply list_elem_of_fmap_2|by apply od_get_Some].
Qed.

(** Facts of the finite graph, by evaluation. *)
Lemma legal_forall (P : string -> string -> Prop) `{!forall s t, Decision (P s t)} :
  bool_decide (Forall (fun e => P e.1 e.2) (_LEGAL_TRANSITIONS ≫= fun kv => pair kv.1 <$> kv.2)) = true ->
  forall s t, legal s t -> P s t.
Proof. intros Hb%bool_decide_eq_true s t Hl. rewrite Forall_forall in Hb. exact (Hb (s, t) (legal_edges s t Hl)). Qed.

Ltac legal_by_eval P :=
  refine (@legal_forall P (fun s t => ltac:(cbv beta; apply _)) _); vm_compute; reflexivity.

Lemma legal_rank s t : legal s t -> state_rank t < state_rank s.
Proof. revert s t. legal_by_eval (fun s t => state_rank t < state_rank s). Qed.

Lemma legal_not_terminal s t : legal s t -> s ∉ _TERMINAL_STATES.
Proof. revert s t. legal_by_eval (fun s _ : string => s ∉ _TERMINAL_STATES). Qed.

(** What a call does: the edge, nothing, or an error with nothing changed. *)
Lemma transition_spec rid t s :
  match transition rid t s with
  | (Ret _, s') => (legal s t /\ s' = t) \/ (s' = s /\ (s = t \/ (s ∈ _TERMINAL_STATES /\ t ∈ _TERMINAL_STATES)))
  | (Raise e, s') => s' = s /\ is_value_error e = true /\ ~ legal s t /\ s <> t /\
      ~ (s ∈ _TERMINAL_STATES /\ t ∈ _TERMINAL_STATES)
  end.
Proof.
  unfold transition, legal. cbv [mbind PyM_bind py_get py_put py_raise mret PyM_ret].
  destruct (decide (s = t)) as [Hst|Hst]; [by right; split; [|left]|].
  destruct (decide (s ∈ _TERMINAL_STATES /\ t ∈ _TERMINAL_STATES)) as [Hb|Hb]; [by right; split; [|right]|].
  destruct (od_get s _LEGAL_TRANSITIONS) as [l|]; simpl.
  - destruct (decide (t ∈ l)); [by left|]. by split_and!.
  - split_and!; try done. apply not_elem_of_nil.
Qed.

Lemma transition_ok rid t s : legal s t -> transition rid t s = (Ret tt, t).
Proof.
  intros Hl. pose proof (transition_spec rid t s) as Ht. destruct (transition rid t s) as [[[]|e] s'].
  - destruct Ht as [[_ ->]|[-> [->|[Hs _]]]]; [done| |by apply legal_not_terminal in Hl].
    by apply legal_rank in Hl; lia.
  - by destruct Ht as (_ & _ & Hn & _).
Qed.

Lemma transition_state rid t s : (transition rid t s).2 = if decide (legal s t) then t else s.
Proof.
  destruct (decide (legal s t)) as [Hl|Hl]; [by rewrite transition_ok|].
  pose proof (transition_spec rid t s) as Ht. destruct (transition rid t s) as [[[]|e] s']; [|by destruct Ht].
  by destruct Ht as [[]|[-> _]].
Qed.

(** How often the state changes along a series of states. *)
Fixpoint changes (s : string) (l : list string) : nat :=
  match l with [] => 0 | t :: l => (if decide (s = t) then 0 else 1) + changes t l end.

Lemma changes_le rid targets : forall s, changes s (states_after rid s targets) <= state_rank s.
Proof.
  induction targets as [|t targets IH]; intros s; [simpl; lia|]. cbn [states_after changes].
  cbv zeta. rewrite transition_state. destruct (decide (legal s t)) as [Hl|Hl].
  - apply legal_rank in Hl. specialize (IH t). destruct (decide (s = t)); lia.
  - specialize (IH s). rewrite decide_True by done. lia.
Qed.

Lemma terminal_stays rid targets : forall s, s ∈ _TERMINAL_STATES -> Forall (fun s' => s' = s) (states_after rid s targets).
Proof.
  induction targets as [|t targets IH]; intros s Hs; [constructor|]. cbn [states_after]. cbv zeta.
  rewrite transition_state, decide_False by (by intros Hl%legal_not_terminal). constructor; [done|by apply IH].
Qed.

(** Machines ***********************************************************************)

(** A path of recorded moves. *)
Fixpoint path (m : StateMachine) (s : string) (h : list (string * string * string)) (t : string) : Prop :=
  match h with
  | [] => s = t
  | (a, b, n) :: h => a = s /\ n = sm_name m /\ b ∈ sm_states m /\ b ∈ targets_of (sm_transitions m) a /\ path m b h t
  end.

Lemma path_app m h1 h2 : forall s t u, path m s h1 t -> path m t h2 u -> path m s (h1 ++ h2) u.
Proof.
  induction h1 as [|[[a b] n] h1 IH]; intros s t u; simpl; [by intros ->|].
  intros (-> & -> & Hb & Hs & Hp) H2. split_and!; try done. by apply (IH b t u).
Qed.

(** The constant part of a machine. *)
Definition same_shape (m m' : StateMachine) : Prop :=
  sm_name m' = sm_name m /\ sm_states m' = sm_states m /\ sm_transitions m' = sm_transitions m /\
  sm_terminal m' = sm_terminal m.

Lemma path_shape m m' h : same_shape m m' -> forall s t, path m s h t -> path m' s h t.
Proof.
  intros (Hn & Hs & Ht & _). induction h as [|[[a b] n] h IH]; intros s t; simpl; [done|].
  rewrite Hn, Hs, Ht. intros (-> & -> & Hb & He & Hp). split_and!; try done. by apply IH.
Qed.

Definition machine_inv (m0 m : StateMachine) : Prop :=
  same_shape m0 m /\ sm_current m ∈ sm_states m /\ path m (sm_current m0) (sm_history m) (sm_current m).

Lemma do_call_inv m0 m c : machine_inv m0 m -> machine_inv m0 (do_call m c).
Proof.
  intros (Hsh & Hc & Hp). destruct c as [t|cb]; simpl.
  2: { split; [done|]. split; [done|]. by apply (path_shape m). }
  unfold machine_transition.
  cbv [mbind PyM_bind py_get py_put py_raise py_lift]. unfold can_transition.
  destruct (bool_decide (t ∈ sm_states m)) eqn:Hin; simpl; [|done].
  destruct (bool_decide (t ∈ targets_of (sm_transitions m) (sm_current m))) eqn:He; simpl; [|done].
  apply bool_decide_eq_true in Hin, He. split; [done|]. split; [done|]. simpl.
  apply path_app with (sm_current m); [|by simpl]. by apply (path_shape m).
Qed.

(** Machines whose graph is sound, as a test. *)
Definition sound_machine (m : StateMachine) : bool :=
  let t := sm_transitions m in
  let reached := bfs (unvisited t) (rounds t [sm_current m]) [] [sm_current m] in
  let goals := if decide (sm_terminal m = ∅) then [sm_current m] else elements (sm_terminal m) in
  let ending := bfs (unvisited (reverse t)) (rounds (reverse t) goals) [] goals in
  bool_decide (od_wf t) &&
  bool_decide (list_to_set reached = sm_states m) &&
  bool_decide (Forall (fun s => s ∈ ending) (elements (sm_states m))) &&
  bool_decide (Forall (fun s => targets_of t s = ∅) (elements (sm_terminal m))) &&
  bool_decide (sm_terminal m ⊆ sm_states m).

Lemma sound_machine_true m : sound_machine m = true ->
  (forall s, s ∈ sm_states m <-> leads_to (sm_transitions m) (sm_current m) s) /\
  (forall s, s ∈ sm_states m -> exists t, leads_to (sm_transitions m) s t /\
     if decide (sm_terminal m = ∅) then t = sm_current m else t ∈ sm_terminal m) /\
  (forall s, s ∈ sm_terminal m -> s ∈ sm_states m /\ targets_of (sm_transitions m) s = ∅).
Proof.
  unfold sound_machine. cbv zeta. rewrite !andb_true_iff, !bool_decide_eq_true, !Forall_forall.
  intros ((((Hw & Hreach) & Hend) & Hterm) & Hsub). split; [|split].
  - intros s. rewrite <-Hreach, elem_of_list_to_set, visited_from by done. split.
    + by intros (r & ->%list_elem_of_singleton & Hl).
    + intros Hl. exists (sm_current m). split; [by left|done].
  - intros s Hs%elem_of_elements%Hend. rewrite visited_from in Hs by (by apply reverse_wf).
    destruct Hs as (r & Hr & Hl). apply (leads_reverse _ r s Hw) in Hl. exists r. split; [done|].
    case_decide; [by apply list_elem_of_singleton in Hr|by apply elem_of_elements].
  - intros s Hs. split; [set_solver|]. apply Hterm. by apply elem_of_elements.
Qed.

Definition machines : list StateMachine :=
  omap (fun o => match o with Ret m => Some m | Raise _ => None end)
    [run_state_machine; stage_state_machine; branch_state_machine; action_state_machine;
     wait_state_machine; review_state_machine].

Lemma machines_sound : length machines = 6 /\ Forall (fun m => sound_machine m = true) machines.
Proof. split; [reflexivity|]. repeat constructor; vm_compute; reflexivity. Qed.

(** The two descriptions of the life of a run disagree: the machine lets a waiting run
    become active, the write path of the server does not, and the machine has no state
    running. *)
Lemma run_graphs_differ :
  (match run_state_machine with
   | Ret m => "active" ∈ targets_of (sm_transitions m) "waiting" /\ "running" ∉ sm_states m
   | Raise _ => False
   end) /\ ~ legal "waiting" "active" /\ ~ legal "created" "active".
Proof.
  split; [split|split];
    match goal with |- ?P => apply (bool_decide_eq_true_1 P); vm_compute; reflexivity end.
Qed.

(** Properties *********************************************************************)

(** The state of a run of the server settles.  A call of [transition] follows an
    edge of the legal graph, does nothing (same state, or between two terminal states),
    or raises [ValueError] and changes nothing; whatever calls are made, with whatever
    targets, the state changes at most three times from [created] (never more often than
    the longest path of the graph), and once terminal it never changes again. *)
Theorem run_state_settles (rid s : string) :
  (forall t, match transition rid t s with
     | (Ret _, s') => (legal s t /\ s' = t) \/ (s' = s /\ (s = t \/ (s ∈ _TERMINAL_STATES /\ t ∈ _TERMINAL_STATES)))
     | (Raise e, s') => s' = s /\ is_value_error e = true /\ ~ legal s t /\ s <> t /\
         ~ (s ∈ _TERMINAL_STATES /\ t ∈ _TERMINAL_STATES)
     end) /\
  (forall targets, changes s (states_after rid s targets) <= state_rank s /\ state_rank s <= 3) /\
  (is_terminal s = true -> forall targets, Forall (fun s' => s' = s) (states_after rid s targets)).
Proof.
  split; [intros t; apply transition_spec|]. split.
  - intros targets. split; [apply changes_le|]. unfold state_rank. repeat case_decide; lia.
  - intros Hs targets. apply terminal_stays. by apply bool_decide_eq_true in Hs.
Qed.

Lemma run_state_settles_witness :
  states_after "r" "completed" ["cancelled"; "running"; "failed"] = ["completed"; "completed"; "completed"] /\
  Forall (fun s' => s' = "completed") (states_after "r" "completed" ["cancelled"; "running"; "failed"]).
Proof.
  split; [vm_compute; reflexivity|].
  apply (proj2 (proj2 (run_state_settles "r" "completed"))). vm_compute. reflexivity.
Defined.

(** A machine stays what its constructor made it.  After any calls of [transition]
    and [on_transition], refused calls and raising callbacks included, its current state
    is one of its states and its history is exactly a path of allowed moves from the
    initial state to the current one; and of each of the six machines of the package the
    states are exactly what the initial state reaches, no terminal state has an exit, and
    every state leads to a terminal one (of the wait machine: back to [none]). *)
Theorem machine_history_is_path name states initial transitions terminal m0 :
  new_machine name states initial transitions terminal = Ret m0 ->
  (forall calls, let m := foldl do_call m0 calls in
     sm_current m ∈ states /\ path m initial (sm_history m) (sm_current m)) /\
  (m0 ∈ machines ->
     (forall s, s ∈ states <-> leads_to transitions initial s) /\
     (forall s, s ∈ states -> exists t, leads_to transitions s t /\
        if decide (sm_terminal m0 = ∅) then t = initial else t ∈ sm_terminal m0) /\
     (forall s, s ∈ sm_terminal m0 -> s ∈ states /\ targets_of transitions s = ∅)).
Proof.
  unfold new_machine. destruct (decide (initial ∈ states)) as [Hin|]; [|done]. intros [= <-]. split.
  - intros calls. set (m0 := mkMachine _ _ _ _ _ _ _).
    assert (machine_inv m0 (foldl do_call m0 calls)) as ((_ & Hs & _) & Hc & Hp).
    { assert (machine_inv m0 m0) as H0 by done. revert H0. generalize m0 at 2 4. induction calls as [|c calls IH]; intros m Hm; [done|].
      simpl. apply IH. by apply do_call_inv. }
    rewrite Hs in Hc. done.
  - intros Hm. destruct machines_sound as [_ Hall]. rewrite Forall_forall in Hall. by apply Hall, sound_machine_true in Hm.
Qed.

Lemma machine_history_is_path_witness :
  match stage_state_machine with
  | Ret m0 =>
      let m := foldl do_call m0 [CallTransition "active"; CallTransition "pending"; CallTransition "blocked"] in
      sm_history m = [("pending", "active", "stage"); ("active", "blocked", "stage")] /\
      path m "pending" (sm_history m) (sm_current m)
  | Raise _ => False
  end.
Proof.
  cbv beta iota delta [stage_state_machine].
  destruct (new_machine "stage" _ "pending" _ _) as [m0|] eqn:Hm; [|by vm_compute in Hm].
  split.
  - injection Hm as <-. vm_compute. reflexivity.
  - apply (proj1 (machine_history_is_path _ _ _ _ _ _ Hm) [CallTransition "active"; CallTransition "pending"; CallTransition "blocked"]).
Defined.
