(* ===== verification/RunStore.v ===== *)
(** * Durable run records ([hi_agent/server/run_store.py])

    The table [run_records] of [SQLiteRunStore] as the list of its rows in insertion
    order, with the primary key [run_id].  The lock of the store makes every method
    atomic; clock readings are arguments (integers, microseconds); times are the
    REAL columns, [0] for a run that has not finished. *)

From stdpp Require Import base tactics option list sorting strings.
From Stdlib Require Import ZArith.
From S2P Require Import Prelude PyStr PyVal RunContext SqlTable.
#[local] Arguments String.append : simpl nomatch.

Record RunRecord := mkRunRecord {
  rr_run_id : string;
  rr_tenant_id : string;
  rr_task_contract_json : string;
  rr_status : string;
  rr_priority : Z;
  rr_attempt_count : Z;
  rr_cancellation_flag : bool;
  rr_result_summary : string;
  rr_error_summary : string;
  rr_created_at : Z;
  rr_updated_at : Z;
  rr_user_id : string;
  rr_session_id : string;
  rr_project_id : string;
  rr_finished_at : Z;
  rr_parent_run_id : string;
  rr_attempt_id : string;
  rr_phase_id : string
}.

(** [RunRecord.__post_init__] *)
Definition run_record_post_init (posture : outcome Posture) (r : RunRecord) : outcome RunRecord :=
  _ ← require_fields posture [("run_id", rr_run_id r); ("tenant_id", rr_tenant_id r)]
        (fun p missing => ValueError ("RunRecord constructed without required spine fields under posture=" +:+
           posture_value p +:+ ": missing=" +:+ py_repr (PList (map PStr missing)) +:+
           ". Populate the fields at the construction site (Rule 12)."));
  Ret r.

(** [_check_run_store_tenant_scope] *)
Definition _check_run_store_tenant_scope (posture : outcome Posture) (workspace : option string) (method : string) :
    outcome (option string) :=
  if decide (strip (default "" workspace) = "") then
    p ← posture;
    if is_strict p then
      Raise (TenantScopeError ("SQLiteRunStore." +:+ method +:+
        " requires workspace (tenant_id) under posture=" +:+ posture_value p +:+
        ". Pass workspace=<tenant_id> to scope the mutation; defense-in-depth (W34+ D.2 mirror)."))
    else Ret None
  else Ret workspace.

Abbreviation run_db := (list RunRecord).

(** Conditions of the [WHERE] clauses. *)
Abbreviation with_run_id run_id := (has_key rr_run_id run_id).
Definition of_tenant (scoped : option string) (r : RunRecord) : bool :=
  match scoped with Some t => bool_decide (rr_tenant_id r = t) | None => true end.
Definition row_of (run_id : string) (scoped : option string) (r : RunRecord) : bool :=
  with_run_id run_id r && of_tenant scoped r.

(** [if session_id:] *)
Definition in_session (session_id : option string) (r : RunRecord) : bool :=
  negb (truthy session_id) || bool_decide (Some (rr_session_id r) = session_id).

(** The [SET] clauses: status, cancellation flag, summaries and times. *)
Definition set_row (status : string) (flag : bool) (result error : string) (updated finished : Z) (r : RunRecord) : RunRecord :=
  mkRunRecord (rr_run_id r) (rr_tenant_id r) (rr_task_contract_json r) status (rr_priority r) (rr_attempt_count r)
    flag result error (rr_created_at r) updated (rr_user_id r) (rr_session_id r) (rr_project_id r) finished
    (rr_parent_run_id r) (rr_attempt_id r) (rr_phase_id r).
Definition set_record_cancelled (now : Z) (r : RunRecord) : RunRecord :=
  set_row "cancelled" true (rr_result_summary r) (rr_error_summary r) now now r.
Definition set_record_completed (result_summary : string) (now : Z) (r : RunRecord) : RunRecord :=
  set_row "completed" (rr_cancellation_flag r) result_summary (rr_error_summary r) now now r.
Definition set_record_failed (error_summary : string) (now : Z) (r : RunRecord) : RunRecord :=
  set_row "failed" (rr_cancellation_flag r) (rr_result_summary r) error_summary now now r.
Definition set_record_running (now : Z) (r : RunRecord) : RunRecord :=
  set_row "running" (rr_cancellation_flag r) (rr_result_summary r) (rr_error_summary r) now (rr_finished_at r) r.

(** The identity fields [upsert] takes from the context where the record has none. *)
Definition fill_spine (exec_ctx : option RunExecutionContext) (r : RunRecord) : RunRecord :=
  match exec_ctx with
  | None => r
  | Some c =>
      let legacy x := bool_decide (x = "" \/ x = "__legacy__") in
      mkRunRecord (or_else (rr_run_id r) (ec_run_id c)) (or_else (rr_tenant_id r) (ec_tenant_id c))
        (rr_task_contract_json r) (rr_status r) (rr_priority r) (rr_attempt_count r) (rr_cancellation_flag r)
        (rr_result_summary r) (rr_error_summary r) (rr_created_at r) (rr_updated_at r)
        (if legacy (rr_user_id r) then or_else (ec_user_id c) (rr_user_id r) else rr_user_id r)
        (if legacy (rr_session_id r) then or_else (ec_session_id c) (rr_session_id r) else rr_session_id r)
        (or_else (rr_project_id r) (ec_project_id c)) (rr_finished_at r) (rr_parent_run_id r) (rr_attempt_id r)
        (rr_phase_id r)
  end.

(** [ORDER BY created_at ASC] and [DESC] *)
Definition older (r r' : RunRecord) : Prop := (rr_created_at r <= rr_created_at r')%Z.
Definition newer (r r' : RunRecord) : Prop := (rr_created_at r' <= rr_created_at r)%Z.
#[export] Instance older_dec r r' : Decision (older r r').
Proof. unfold older. apply _. Defined.
#[export] Instance newer_dec r r' : Decision (newer r r').
Proof. unfold newer. apply _. Defined.

Module RunStore.
Section store.
Context (posture : outcome Posture).

Definition put_rows (f : run_db -> run_db) : PyM run_db unit := py_modify f.

(** [_row_to_record], on the rows of an answer. *)
Definition row_to_record : RunRecord -> outcome RunRecord := run_record_post_init posture.
Fixpoint rows_to_records (rows : list RunRecord) : outcome (list RunRecord) :=
  match rows with
  | [] => Ret []
  | r :: rows => r ← row_to_record r; rs ← rows_to_records rows; Ret (r :: rs)
  end.
Definition fetch_one (row : option RunRecord) : outcome (option RunRecord) :=
  match row with None => Ret None | Some r => r ← row_to_record r; Ret (Some r) end.

Definition upsert (record : RunRecord) (exec_ctx : option RunExecutionContext) : PyM run_db unit :=
  let record := fill_spine exec_ctx record in
  put_rows (fun t => delete_where (with_run_id (rr_run_id record)) t ++ [record]).

Definition get (run_id : string) (workspace : option string) : PyM run_db (option RunRecord) :=
  t ← py_get;
  py_lift (fetch_one (select_one (row_of run_id workspace) t)).

Definition get_for_tenant (run_id : string) (workspace : option string) : PyM run_db (option RunRecord) :=
  match workspace with
  | None => py_raise (ValueError "get_for_tenant requires a non-None workspace; use get() for process-internal lookups (all callers must be audited)")
  | Some _ => get run_id workspace
  end.

Definition list_by_tenant (tenant_id : string) : PyM run_db (list RunRecord) :=
  t ← py_get;
  py_lift (rows_to_records (merge_sort older (filter (fun r => rr_tenant_id r = tenant_id) t))).

Definition get_by_workspace (run_id tenant_id user_id session_id : string) : PyM run_db (option RunRecord) :=
  t ← py_get;
  py_lift (fetch_one (select_one (fun r => with_run_id run_id r &&
    bool_decide (rr_tenant_id r = tenant_id /\ rr_user_id r = user_id /\ rr_session_id r = session_id)) t)).

Definition list_by_workspace (tenant_id user_id : string) (session_id : option string) : PyM run_db (list RunRecord) :=
  t ← py_get;
  py_lift (rows_to_records (merge_sort newer (filter (fun r => rr_tenant_id r = tenant_id /\ rr_user_id r = user_id /\
    in_session session_id r = true) t))).

Definition update_run (method : string) (set : RunRecord -> RunRecord) (run_id : string) (workspace : option string) :
    PyM run_db unit :=
  effective ← py_lift (_check_run_store_tenant_scope posture workspace method);
  put_rows (update_where (row_of run_id effective) set).

Definition mark_cancelled (run_id : string) (workspace : option string) (now : Z) : PyM run_db unit :=
  update_run "mark_cancelled" (set_record_cancelled now) run_id workspace.
Definition mark_complete (run_id result_summary : string) (workspace : option string) (now : Z) : PyM run_db unit :=
  update_run "mark_complete" (set_record_completed result_summary now) run_id workspace.
Definition mark_failed (run_id error_summary : string) (workspace : option string) (now : Z) : PyM run_db unit :=
  update_run "mark_failed" (set_record_failed error_summary now) run_id workspace.
Definition mark_running (run_id : string) (workspace : option string) (now : Z) : PyM run_db unit :=
  update_run "mark_running" (set_record_running now) run_id workspace.

Definition is_cancelled (run_id : string) (workspace : option string) : PyM run_db bool :=
  workspace ← py_lift (_check_run_store_tenant_scope posture workspace "is_cancelled");
  t ← py_get;
  mret (match select_one (row_of run_id workspace) t with Some r => rr_cancellation_flag r | None => false end).

Definition list_runs_by_project (tenant_id project_id : string) : PyM run_db (list RunRecord) :=
  t ← py_get;
  py_lift (rows_to_records (merge_sort older
    (filter (fun r => rr_tenant_id r = tenant_id /\ rr_project_id r = project_id) t))).

Definition delete (run_id : string) (workspace : option string) : PyM run_db unit :=
  workspace ← py_lift (_check_run_store_tenant_scope posture workspace "delete");
  put_rows (delete_where (row_of run_id workspace)).

Definition list_pending : PyM run_db (list RunRecord) :=
  t ← py_get;
  py_lift (rows_to_records (merge_sort older (filter (fun r => rr_status r ∈ ["queued"; "running"]) t))).
End store.
End RunStore.

(** Lemmas *************************************************************************)

Definition run_wf (t : run_db) : Prop := NoDup (map rr_run_id t).
Definition run_row (t : run_db) (run_id : string) : option RunRecord := select_one (with_run_id run_id) t.

(** The calls that change the table. *)
Inductive store_cmd :=
  | Upsert (record : RunRecord) (exec_ctx : option RunExecutionContext)
  | MarkCancelled (run_id : string) (workspace : option string) (now : Z)
  | MarkComplete (run_id result_summary : string) (workspace : option string) (now : Z)
  | MarkFailed (run_id error_summary : string) (workspace : option string) (now : Z)
  | MarkRunning (run_id : string) (workspace : option string) (now : Z)
  | DeleteRun (run_id : string) (workspace : option string).

(** The run, the workspace and the name of a call other than [Upsert], and what it does
    to a row. *)
Definition scoped_call (c : store_cmd) : option (string * option string * string * (RunRecord -> option RunRecord)) :=
  match c with
  | Upsert _ _ => None
  | MarkCancelled i w now => Some (i, w, "mark_cancelled", fun r => Some (set_record_cancelled now r))
  | MarkComplete i s w now => Some (i, w, "mark_complete", fun r => Some (set_record_completed s now r))
  | MarkFailed i s w now => Some (i, w, "mark_failed", fun r => Some (set_record_failed s now r))
  | MarkRunning i w now => Some (i, w, "mark_running", fun r => Some (set_record_running now r))
  | DeleteRun i w => Some (i, w, "delete", fun _ => None)
  end.

Definition exec_store (posture : outcome Posture) (c : store_cmd) : PyM run_db unit :=
  match c with
  | Upsert r x => RunStore.upsert r x
  | MarkCancelled i w now => RunStore.mark_cancelled posture i w now
  | MarkComplete i s w now => RunStore.mark_complete posture i s w now
  | MarkFailed i s w now => RunStore.mark_failed posture i s w now
  | MarkRunning i w now => RunStore.mark_running posture i w now
  | DeleteRun i w => RunStore.delete posture i w
  end.

Lemma row_of_select t i scoped : run_wf t ->
  select_one (row_of i scoped) t = match run_row t i with Some r => if of_tenant scoped r then Some r else None | None => None end.
Proof. apply (select_and rr_run_id t i (of_tenant scoped)). Qed.

Lemma upsert_wf t r : run_wf t -> run_wf (delete_where (with_run_id (rr_run_id r)) t ++ [r]).
Proof. intros Hw. apply insert_keys; [by apply delete_where_keys|apply select_deleted]. Qed.

Lemma upsert_row t r i : run_wf t ->
  run_row (delete_where (with_run_id (rr_run_id r)) t ++ [r]) i = if decide (rr_run_id r = i) then Some r else run_row t i.
Proof.
  intros Hw. unfold run_row. rewrite (select_insert rr_run_id) by apply select_deleted. case_decide as Hi; [done|].
  rewrite (select_delete rr_run_id) by done. destruct (select_one (has_key rr_run_id i) t) as [r'|] eqn:Hr; [|done].
  apply select_one_Some in Hr as [_ Hr%(has_key_eq rr_run_id)]. unfold has_key. rewrite bool_decide_false; [done|congruence].
Qed.

(** An update or a deletion, on the row of a run. *)
Definition scope_row (i : string) (scoped : option string) (f : RunRecord -> option RunRecord) (j : string) (r : option RunRecord) :
    option RunRecord :=
  r ≫= fun r => if bool_decide (i = j) && of_tenant scoped r then f r else Some r.

Lemma row_of_hit i scoped j r : rr_run_id r = j -> row_of i scoped r = bool_decide (i = j) && of_tenant scoped r.
Proof.
  intros <-. unfold row_of, has_key. f_equal. destruct (decide (rr_run_id r = i)) as [->|Hn].
  - by rewrite !bool_decide_true.
  - rewrite !bool_decide_false; congruence.
Qed.

Lemma update_run_row t i scoped f j : run_wf t -> key_kept rr_run_id f ->
  run_row (update_where (row_of i scoped) f t) j = scope_row i scoped (fun r => Some (f r)) j (run_row t j).
Proof.
  intros Hw Hf. unfold run_row, scope_row. rewrite (select_update rr_run_id) by done.
  destruct (select_one (has_key rr_run_id j) t) as [r|] eqn:Hr; [|done]. simpl.
  apply select_one_Some in Hr as [_ Hr%(has_key_eq rr_run_id)]. rewrite (row_of_hit _ _ j) by done. by case_match.
Qed.

Lemma delete_run_row t i scoped j : run_wf t ->
  run_row (delete_where (row_of i scoped) t) j = scope_row i scoped (fun _ => None) j (run_row t j).
Proof.
  intros Hw. unfold run_row, scope_row. rewrite (select_delete rr_run_id) by done.
  destruct (select_one (has_key rr_run_id j) t) as [r|] eqn:Hr; [|done]. simpl.
  apply select_one_Some in Hr as [_ Hr%(has_key_eq rr_run_id)]. by rewrite (row_of_hit _ _ j).
Qed.

(** A call other than [Upsert]: refused, or the change of the row of its run. *)
Lemma scoped_call_spec posture c i w m f t : run_wf t -> scoped_call c = Some (i, w, m, f) ->
  match _check_run_store_tenant_scope posture w m with
  | Raise e => exec_store posture c t = (Raise e, t)
  | Ret scoped => exists t', exec_store posture c t = (Ret tt, t') /\ run_wf t' /\
      forall j, run_row t' j = scope_row i scoped f j (run_row t j)
  end.
Proof.
  intros Hw Hc. assert (forall set, key_kept rr_run_id set -> f = (fun r => Some (set r)) ->
    exec_store posture c = RunStore.update_run posture m set i w -> match _check_run_store_tenant_scope posture w m with
    | Raise e => exec_store posture c t = (Raise e, t)
    | Ret scoped => exists t', exec_store posture c t = (Ret tt, t') /\ run_wf t' /\
        forall j, run_row t' j = scope_row i scoped f j (run_row t j) end) as Hupd.
  { intros set Hk -> ->. unfold RunStore.update_run, RunStore.put_rows. cbv [mbind PyM_bind py_lift py_modify].
    destruct (_check_run_store_tenant_scope posture w m) as [scoped|e]; [|done]. eexists. split; [done|].
    split; [unfold run_wf; by rewrite (update_keys rr_run_id)|]. intros j. by apply update_run_row. }
  destruct c; [done|..]; injection Hc as <- <- <- <-; try (eapply Hupd; [|reflexivity|reflexivity]; by intros []).
  cbn [exec_store]. unfold RunStore.delete, RunStore.put_rows. cbv [mbind PyM_bind py_lift py_modify].
  destruct (_check_run_store_tenant_scope posture workspace "delete") as [scoped|e]; [|done]. eexists. split; [done|].
  split; [by apply delete_where_keys|]. intros j. by apply delete_run_row.
Qed.

Definition blank (w : option string) : bool := bool_decide (strip (default "" w) = "").

Lemma tenant_scope_spec posture w m : _check_run_store_tenant_scope posture w m =
  if blank w then
    match posture with
    | Ret DEV => Ret None
    | Ret _ => match _check_run_store_tenant_scope posture w m with Raise e => Raise e | _ => Ret None end
    | Raise e => Raise e
    end
  else Ret w.
Proof.
  unfold _check_run_store_tenant_scope, blank. case_decide as Hb; [rewrite bool_decide_true by done|by rewrite bool_decide_false].
  by destruct posture as [[]|].
Qed.

Lemma tenant_scope_strict p w m : blank w = true -> is_strict p = true ->
  exists msg, _check_run_store_tenant_scope (Ret p) w m = Raise (TenantScopeError msg).
Proof.
  unfold blank, _check_run_store_tenant_scope. intros Hb%bool_decide_eq_true Hs. rewrite decide_True by done.
  cbn [mbind outcome_bind]. rewrite Hs. by eexists.
Qed.

Lemma scope_row_eq i scoped f r : scope_row i scoped f i (Some r) = if of_tenant scoped r then f r else Some r.
Proof. unfold scope_row. simpl. by rewrite bool_decide_true. Qed.

Lemma scope_row_ne i scoped f j r : i <> j -> scope_row i scoped f j r = r.
Proof. intros Hij. unfold scope_row. destruct r as [r|]; simpl; [|done]. by rewrite bool_decide_false. Qed.

(** Properties *********************************************************************)

(** What every mutating call does to the table of runs.  Keys stay unique.
    [upsert] puts the record, completed from the context, in the place of the run's row
    and touches no other.  Every other call, given a tenant, changes the row of its run
    exactly when that row is the tenant's, and nothing else; without a tenant it is
    refused with the table unchanged under a strict posture, and acts on the run
    whoever owns it under [dev]. *)
Theorem run_store_exact (posture : outcome Posture) (c : store_cmd) (t : run_db) : run_wf t ->
  let '(res, t') := exec_store posture c t in
  run_wf t' /\
  match scoped_call c with
  | None =>
      forall r x, c = Upsert r x -> res = Ret tt /\
        forall j, run_row t' j = if decide (rr_run_id (fill_spine x r) = j) then Some (fill_spine x r) else run_row t j
  | Some (i, w, m, f) =>
      (blank w = false -> res = Ret tt /\ forall j r, run_row t j = Some r ->
         run_row t' j = if decide (i = j /\ Some (rr_tenant_id r) = w) then f r else Some r) /\
      (blank w = true -> forall p, posture = Ret p -> is_strict p = true ->
         t' = t /\ exists msg, res = Raise (TenantScopeError msg)) /\
      (blank w = true -> posture = Ret DEV -> res = Ret tt /\ forall j r, run_row t j = Some r ->
         run_row t' j = if decide (i = j) then f r else Some r) /\
      (forall j, run_row t j = None -> run_row t' j = None)
  end.
Proof.
  intros Hw. destruct (scoped_call c) as [[[[i w] m] f]|] eqn:Hc.
  - pose proof (scoped_call_spec posture c i w m f t Hw Hc) as Hs. pose proof (tenant_scope_spec posture w m) as Hts.
    destruct (_check_run_store_tenant_scope posture w m) as [scoped|e] eqn:Hm.
    + destruct Hs as (t' & -> & Hw' & Hrow). split; [done|]. split_and!.
      * intros Hb. rewrite Hb in Hts. injection Hts as ->. split; [done|]. intros j r Hr. rewrite Hrow, Hr.
        destruct (decide (i = j)) as [->|Hij].
        -- rewrite scope_row_eq. destruct w as [w|]; [|done]. unfold of_tenant.
           destruct (decide (rr_tenant_id r = w)) as [<-|Hrw].
           ++ by rewrite bool_decide_true, decide_True.
           ++ rewrite bool_decide_false by done. rewrite decide_False; [done|]. intros [_ [= Heq]]. by apply Hrw.
        -- rewrite scope_row_ne, decide_False by (try done; by intros []). done.
      * intros Hb p -> Hp. destruct (tenant_scope_strict p w m Hb Hp) as (msg & Hr). congruence.
      * intros Hb ->. rewrite Hb in Hts. injection Hts as ->. split; [done|]. intros j r Hr. rewrite Hrow, Hr.
        case_decide as Hij; [subst i; by rewrite scope_row_eq|by rewrite scope_row_ne].
      * intros j Hj. by rewrite Hrow, Hj.
    + rewrite Hs. split; [done|]. split_and!; [| | |done].
      * intros Hb. by rewrite Hb in Hts.
      * intros Hb p -> Hp. split; [done|]. destruct (tenant_scope_strict p w m Hb Hp) as (msg & Hr).
        exists msg. congruence.
      * intros Hb ->. by rewrite Hb in Hts.
  - destruct c as [r x| | | | |]; try done. cbn [exec_store]. unfold RunStore.upsert, RunStore.put_rows. cbv [py_modify].
    split; [by apply upsert_wf|]. intros r' x' [= <- <-]. split; [done|]. intros j. by apply upsert_row.
Qed.

Definition sample_record : RunRecord :=
  mkRunRecord "r1" "" "{}" "queued" 5 0 false "" "" 10 10 "__legacy__" "" "" 0 "" "a1" "".
Definition sample_ctx : RunExecutionContext := mkExecCtx "acme" "u" "" "p" "" "r1" "" "a1" "" "" "" "".

Lemma run_store_exact_witness :
  let t := (RunStore.upsert sample_record (Some sample_ctx) []).2 in
  (forall r, run_row t "r1" = Some r ->
    run_row (exec_store (Ret PROD) (MarkRunning "r1" (Some "other") 20) t).2 "r1" = Some r) /\
  is_Some (run_row t "r1").
Proof.
  cbv zeta. split; [|vm_compute; by eexists]. intros r Hr.
  pose proof (run_store_exact (Ret PROD) (MarkRunning "r1" (Some "other") 20)
    (RunStore.upsert sample_record (Some sample_ctx) []).2) as Hex.
  destruct (exec_store (Ret PROD) _ _) as [res t'].
  destruct Hex as (_ & Hrow & _); [apply NoDup_singleton|].
  destruct (Hrow eq_refl) as [_ Hj]. simpl snd. rewrite (Hj "r1" r Hr). apply decide_False.
  intros [_ Hw]. vm_compute in Hr. injection Hr as <-. vm_compute in Hw. discriminate.
Defined.
