(* ===== verification/EventStore.v ===== *)
(** * Durable event store ([hi_agent/server/event_store.py])

    The table [run_events] of [SQLiteEventStore] as the list of its rows in the order
    of their ids, with [event_id] unique.  The lock of the store makes every method
    atomic.  The trace id of the current context is an argument; times are integers
    (microseconds).  Metrics and taps are left out. *)

From stdpp Require Import base tactics option list sorting strings.
From Stdlib Require Import ZArith.
From S2P Require Import Prelude PyStr PyVal RunContext SqlTable.
#[local] Arguments String.append : simpl nomatch.

Record StoredEvent := mkEvent {
  se_event_id : string;
  se_run_id : string;
  se_sequence : Z;
  se_event_type : string;
  se_payload_json : string;
  se_tenant_id : string;
  se_user_id : string;
  se_session_id : string;
  se_trace_id : string;
  se_created_at : Z;
  se_parent_run_id : string;
  se_attempt_id : string;
  se_phase_id : string
}.

(** [StoredEvent.__post_init__] *)
Definition event_post_init (posture : outcome Posture) (e : StoredEvent) : outcome StoredEvent :=
  _ ← require_fields posture
        [("run_id", se_run_id e); ("event_id", se_event_id e); ("tenant_id", se_tenant_id e)]
        (fun p missing => ValueError ("StoredEvent constructed without required spine fields under posture=" +:+
           posture_value p +:+ ": missing=" +:+ py_repr (PList (map PStr missing)) +:+
           ". Populate the fields at the construction site (Rule 12)."));
  Ret e.

Abbreviation event_db := (list StoredEvent).

(** The identity fields [append] takes from the context, and the trace id. *)
Definition fill_event (exec_ctx : option RunExecutionContext) (trace_id : option string) (e : StoredEvent) : StoredEvent :=
  let over (f : RunExecutionContext -> string) (x : string) := match exec_ctx with Some c => or_else (f c) x | None => x end in
  mkEvent (se_event_id e) (over ec_run_id (se_run_id e)) (se_sequence e) (se_event_type e) (se_payload_json e)
    (over ec_tenant_id (se_tenant_id e)) (over ec_user_id (se_user_id e)) (over ec_session_id (se_session_id e))
    (or_else (se_trace_id e) (default "" trace_id)) (se_created_at e) (se_parent_run_id e) (se_attempt_id e)
    (se_phase_id e).

(** [AND column = ?], when a filter is given. *)
Definition matches (filter : option string) (x : string) : bool :=
  match filter with Some v => bool_decide (x = v) | None => true end.

(** [ORDER BY sequence ASC] *)
Definition earlier (e e' : StoredEvent) : Prop := (se_sequence e <= se_sequence e')%Z.
#[export] Instance earlier_dec e e' : Decision (earlier e e').
Proof. unfold earlier. apply _. Defined.

Module EventStore.
Section store.
Context (posture : outcome Posture).

Definition append (event : StoredEvent) (exec_ctx : option RunExecutionContext) (trace_id : option string) :
    PyM event_db unit :=
  let event := fill_event exec_ctx trace_id event in
  py_modify (fun t => if select_one (has_key se_event_id (se_event_id event)) t then t else t ++ [event]).

(** [_row_to_event], on the rows of an answer. *)
Fixpoint rows_to_events (rows : list StoredEvent) : outcome (list StoredEvent) :=
  match rows with
  | [] => Ret []
  | r :: rows => e ← event_post_init posture r; es ← rows_to_events rows; Ret (e :: es)
  end.

Definition list_since (run_id : string) (since_sequence : Z) (last_id : option Z)
    (tenant_id user_id session_id : option string) : PyM event_db (list StoredEvent) :=
  let threshold := default since_sequence last_id in
  t ← py_get;
  py_lift (rows_to_events (merge_sort earlier (filter (fun e =>
    se_run_id e = run_id /\ (threshold < se_sequence e)%Z /\ matches tenant_id (se_tenant_id e) = true /\
    matches user_id (se_user_id e) = true /\ matches session_id (se_session_id e) = true) t))).

(** [LIMIT ? OFFSET ?], which are not negative here. *)
Definition _get_events_rows (run_id : string) (tenant_id_filter : option string) (offset limit : nat) :
    PyM event_db (list StoredEvent) :=
  t ← py_get;
  mret (take limit (drop offset (filter (fun e => se_run_id e = run_id /\
    (truthy tenant_id_filter = true -> Some (se_tenant_id e) = tenant_id_filter)) t))).

Definition get_events (run_id : string) (tenant_id : option string) (offset limit : nat) :
    PyM event_db (list StoredEvent) :=
  if truthy tenant_id then _get_events_rows run_id tenant_id offset limit
  else
    p ← py_lift posture;
    if is_strict p then
      py_raise (ValueError "EventStore.get_events requires tenant_id under research/prod posture; pass tenant_id=ctx.tenant_id from TenantContext, or use get_events_unsafe() with explicit process-internal scope.")
    else _get_events_rows run_id tenant_id offset limit.

Definition get_events_unsafe (run_id : string) (offset limit : nat) : PyM event_db (list StoredEvent) :=
  _get_events_rows run_id None offset limit.

(** The greatest of a list, [-1] of none. *)
Definition max_of (l : list Z) : Z :=
  match l with [] => (-1)%Z | z :: l => foldl Z.max z l end.

Definition max_sequence (run_id : string) (tenant_id : option string) : PyM event_db Z :=
  scoped ← (if decide (strip (default "" tenant_id) = "") then
              p ← py_lift posture;
              if is_strict p then
                py_raise (ValueError ("SQLiteEventStore.max_sequence requires tenant_id under posture=" +:+ posture_value p +:+
                  "; cross-tenant sequence reads are forbidden (W34+ defense-in-depth)."))
              else mret None
            else mret tenant_id);
  t ← py_get;
  mret (max_of (se_sequence <$> filter (fun e => se_run_id e = run_id /\ matches scoped (se_tenant_id e) = true) t)).
End store.
End EventStore.
