(* ===== verification/RunManager.v ===== *)
(** * Run manager of the server ([hi_agent/server/run_manager.py])

    [RunManager]: the runs of one server process, its bounded queue (or the durable
    run queue), its worker, the threads that execute runs, and the stores it writes
    to.  The fields of [ManagedRun] that are set once are its [run_spec].  A method is
    state-passing code over [manager] per block of code between which other threads
    can run (a block under the lock, a call of a store, which locks itself); the
    threads, the worker and the calls of clients are a step function over a pool of
    threads.  What an executor returns or raises, the clock and fresh identifiers are
    inputs.  The stores are those of this process alone.  A time is an integer
    (microseconds); ISO texts of it and the rendering of floats are parameters.
    Logs, metrics, traces on disk and the post-mortem engine are left out. *)

From stdpp Require Import base tactics option list sorting strings gmap pretty.
From Stdlib Require Import ZArith.
From S2P Require Import Prelude PyStr PyDict PyVal Json RunContext SqlTable RunQueue Idempotency RunState RunStore EventStore.
#[local] Arguments String.append : simpl nomatch.

(** Values of [RunState] ([hi_agent/contracts/run.py]). *)
Definition _VALID_RESULT_STATES : list string :=
  ["created"; "active"; "waiting"; "recovering"; "completed"; "failed"; "aborted"; "running"; "cancelled";
   "queue_timeout"; "queue_full"].

Definition _run_state_to_terminal (state : string) : string :=
  if decide (state ∈ ["completed"; "succeeded"]) then "succeeded"
  else if decide (state = "cancelled") then "cancelled"
  else if decide (state ∈ ["timed_out"; "queue_timeout"]) then "timed_out"
  else "failed".

Definition _run_state_to_status_code (state : string) : Z := default_status_code_for (_run_state_to_terminal state).

(** What an executor returns: its [status] and [error] where it has them, [to_dict()]
    or itself as JSON ([None] when it cannot be serialised), [str] of it (empty when it
    is falsy), and the two fields [to_dict] of the manager reads. *)
Record exec_result := mkResult {
  er_status : option string;
  er_error : option string;
  er_payload : option pyval;
  er_text : string;
  er_llm_fallback_count : option Z;
  er_finished_at : option string
}.

(** How the call of an executor ends. *)
Inductive exec_outcome :=
  | Returned (r : exec_result)
  | Raised (e : exn) (text : string).

Record run_spec := mkSpec {
  rs_run_id : string;
  rs_task_contract : odict string pyval;
  rs_tenant_id : string;
  rs_created_at : string;
  rs_user_id : string;
  rs_session_id : string;
  rs_project_id : string;
  rs_idempotency_key : option string;
  rs_outcome : string;
  rs_response_snapshot : string;
  rs_response_status_code : Z;
  rs_trace_id : string;
  rs_parent_run_id : string;
  rs_attempt_id : string;
  rs_phase_id : string;
  rs_profile_id : string
}.

Record ManagedRun := mkRun {
  mr_spec : run_spec;
  mr_state : string;
  mr_result : option exec_result;
  mr_error : option string;
  mr_updated_at : string;
  mr_finished_at : option string;
  mr_current_stage : option string;
  mr_stage_updated_at : option string;
  mr_started_at : option string
}.

Abbreviation mr_run_id r := (rs_run_id (mr_spec r)).
Abbreviation mr_tenant_id r := (rs_tenant_id (mr_spec r)).

Definition set_run_state (s : string) (r : ManagedRun) : ManagedRun :=
  mkRun (mr_spec r) s (mr_result r) (mr_error r) (mr_updated_at r) (mr_finished_at r) (mr_current_stage r)
    (mr_stage_updated_at r) (mr_started_at r).
Definition set_run_result (x : exec_result) (r : ManagedRun) : ManagedRun :=
  mkRun (mr_spec r) (mr_state r) (Some x) (mr_error r) (mr_updated_at r) (mr_finished_at r) (mr_current_stage r)
    (mr_stage_updated_at r) (mr_started_at r).
Definition set_run_error (e : string) (r : ManagedRun) : ManagedRun :=
  mkRun (mr_spec r) (mr_state r) (mr_result r) (Some e) (mr_updated_at r) (mr_finished_at r) (mr_current_stage r)
    (mr_stage_updated_at r) (mr_started_at r).
Definition set_updated_at (t : string) (r : ManagedRun) : ManagedRun :=
  mkRun (mr_spec r) (mr_state r) (mr_result r) (mr_error r) t (mr_finished_at r) (mr_current_stage r)
    (mr_stage_updated_at r) (mr_started_at r).
Definition set_finished_at (t : string) (r : ManagedRun) : ManagedRun :=
  mkRun (mr_spec r) (mr_state r) (mr_result r) (mr_error r) (mr_updated_at r) (Some t) (mr_current_stage r)
    (mr_stage_updated_at r) (mr_started_at r).
Definition set_started (t : string) (r : ManagedRun) : ManagedRun :=
  mkRun (mr_spec r) (mr_state r) (mr_result r) (mr_error r) t (mr_finished_at r) (mr_current_stage r)
    (mr_stage_updated_at r) (Some t).
Definition set_stage (stage t : string) (r : ManagedRun) : ManagedRun :=
  mkRun (mr_spec r) (mr_state r) (mr_result r) (mr_error r) (mr_updated_at r) (mr_finished_at r) (Some stage) (Some t)
    (mr_started_at r).

(** A new run. *)
Definition new_run (s : run_spec) (now : string) : ManagedRun := mkRun s "created" None None now None None None None.

(** [ManagedRun.__post_init__] *)
Definition managed_run_post_init (posture : outcome Posture) (r : ManagedRun) : outcome ManagedRun :=
  _ ← require_fields posture [("run_id", mr_run_id r); ("tenant_id", mr_tenant_id r)]
        (fun p missing => ValueError ("ManagedRun constructed without required spine fields under posture=" +:+
           posture_value p +:+ ": missing=" +:+ py_repr (PList (map PStr missing)) +:+
           ". Populate tenant_id from the authenticated workspace (Rule 12)."));
  Ret r.

(** [RunExecutionContext.from_managed_run] ([hi_agent/context/run_execution_context.py]); a
    project id of the task contract that is no text is outside the model. *)
Definition from_managed_run (r : ManagedRun) : RunExecutionContext :=
  let s := mr_spec r in
  let contract_project := match od_get "project_id" (rs_task_contract s) with Some (PStr p) => p | _ => "" end in
  mkExecCtx (rs_tenant_id s) (rs_user_id s) (rs_session_id s) (or_else (rs_project_id s) contract_project)
    (rs_profile_id s) (rs_run_id s) (rs_parent_run_id s) (rs_attempt_id s) (rs_phase_id s)
    (default "" (mr_current_stage r)) "" "".

(** An item of the in-memory queue: priority, sequence number, run. *)
Definition queue_item : Type := Z * nat * string.
Definition item_run (i : queue_item) : string := i.2.

(** The order of the queue; sequence numbers differ. *)
Definition item_le (i j : queue_item) : bool := (i.1.1 <? j.1.1)%Z || ((i.1.1 =? j.1.1)%Z && (i.1.2 <=? j.1.2)).

(** The least item and the others. *)
Fixpoint pop_least (q : list queue_item) : option (queue_item * list queue_item) :=
  match q with
  | [] => None
  | i :: q =>
      match pop_least q with
      | None => Some (i, [])
      | Some (j, q') => if item_le i j then Some (i, q) else Some (j, i :: q')
      end
  end.

Record manager := mkManager {
  m_runs : odict string ManagedRun;
  m_permits : nat;
  m_active_count : Z;
  m_active_run_ids : gset string;
  m_queue : list queue_item;
  m_queue_seq : nat;
  m_pending_executors : gset string;
  m_tokens : odict string string;
  m_cancelled : list string;
  m_shutdown : bool;
  m_event_seqs : odict string Z;
  m_run_store : run_db;
  m_idempotency : idem_db;
  m_run_queue : queue_db;
  m_event_store : event_db;
  m_executor_calls : list string
}.

Section setters.
Context (m : manager).
Definition set_runs (x : odict string ManagedRun) : manager :=
  mkManager x (m_permits m) (m_active_count m) (m_active_run_ids m) (m_queue m) (m_queue_seq m) (m_pending_executors m)
    (m_tokens m) (m_cancelled m) (m_shutdown m) (m_event_seqs m) (m_run_store m) (m_idempotency m) (m_run_queue m)
    (m_event_store m) (m_executor_calls m).
Definition set_permits (x : nat) : manager :=
  mkManager (m_runs m) x (m_active_count m) (m_active_run_ids m) (m_queue m) (m_queue_seq m) (m_pending_executors m)
    (m_tokens m) (m_cancelled m) (m_shutdown m) (m_event_seqs m) (m_run_store m) (m_idempotency m) (m_run_queue m)
    (m_event_store m) (m_executor_calls m).
Definition set_active (n : Z) (ids : gset string) : manager :=
  mkManager (m_runs m) (m_permits m) n ids (m_queue m) (m_queue_seq m) (m_pending_executors m)
    (m_tokens m) (m_cancelled m) (m_shutdown m) (m_event_seqs m) (m_run_store m) (m_idempotency m) (m_run_queue m)
    (m_event_store m) (m_executor_calls m).
Definition set_queue (x : list queue_item) (seq : nat) : manager :=
  mkManager (m_runs m) (m_permits m) (m_active_count m) (m_active_run_ids m) x seq (m_pending_executors m)
    (m_tokens m) (m_cancelled m) (m_shutdown m) (m_event_seqs m) (m_run_store m) (m_idempotency m) (m_run_queue m)
    (m_event_store m) (m_executor_calls m).
Definition set_pending (x : gset string) : manager :=
  mkManager (m_runs m) (m_permits m) (m_active_count m) (m_active_run_ids m) (m_queue m) (m_queue_seq m) x
    (m_tokens m) (m_cancelled m) (m_shutdown m) (m_event_seqs m) (m_run_store m) (m_idempotency m) (m_run_queue m)
    (m_event_store m) (m_executor_calls m).
Definition set_tokens (x : odict string string) (c : list string) : manager :=
  mkManager (m_runs m) (m_permits m) (m_active_count m) (m_active_run_ids m) (m_queue m) (m_queue_seq m)
    (m_pending_executors m) x c (m_shutdown m) (m_event_seqs m) (m_run_store m) (m_idempotency m) (m_run_queue m)
    (m_event_store m) (m_executor_calls m).
Definition set_shutdown (x : bool) : manager :=
  mkManager (m_runs m) (m_permits m) (m_active_count m) (m_active_run_ids m) (m_queue m) (m_queue_seq m)
    (m_pending_executors m) (m_tokens m) (m_cancelled m) x (m_event_seqs m) (m_run_store m) (m_idempotency m)
    (m_run_queue m) (m_event_store m) (m_executor_calls m).
Definition set_run_store (x : run_db) : manager :=
  mkManager (m_runs m) (m_permits m) (m_active_count m) (m_active_run_ids m) (m_queue m) (m_queue_seq m)
    (m_pending_executors m) (m_tokens m) (m_cancelled m) (m_shutdown m) (m_event_seqs m) x (m_idempotency m)
    (m_run_queue m) (m_event_store m) (m_executor_calls m).
Definition set_idempotency (x : idem_db) : manager :=
  mkManager (m_runs m) (m_permits m) (m_active_count m) (m_active_run_ids m) (m_queue m) (m_queue_seq m)
    (m_pending_executors m) (m_tokens m) (m_cancelled m) (m_shutdown m) (m_event_seqs m) (m_run_store m) x
    (m_run_queue m) (m_event_store m) (m_executor_calls m).
Definition set_run_queue (x : queue_db) : manager :=
  mkManager (m_runs m) (m_permits m) (m_active_count m) (m_active_run_ids m) (m_queue m) (m_queue_seq m)
    (m_pending_executors m) (m_tokens m) (m_cancelled m) (m_shutdown m) (m_event_seqs m) (m_run_store m)
    (m_idempotency m) x (m_event_store m) (m_executor_calls m).
Definition set_events (seqs : odict string Z) (x : event_db) : manager :=
  mkManager (m_runs m) (m_permits m) (m_active_count m) (m_active_run_ids m) (m_queue m) (m_queue_seq m)
    (m_pending_executors m) (m_tokens m) (m_cancelled m) (m_shutdown m) seqs (m_run_store m) (m_idempotency m)
    (m_run_queue m) x (m_executor_calls m).
Definition called (run_id : string) : manager :=
  mkManager (m_runs m) (m_permits m) (m_active_count m) (m_active_run_ids m) (m_queue m) (m_queue_seq m)
    (m_pending_executors m) (m_tokens m) (m_cancelled m) (m_shutdown m) (m_event_seqs m) (m_run_store m)
    (m_idempotency m) (m_run_queue m) (m_event_store m) (m_executor_calls m ++ [run_id]).
End setters.

(** What the environment gives a step: the time, as text and as a number, fresh
    identifiers, and the trace id of the current context. *)
Record tick := mkTick {
  tk_iso : string;
  tk_now : Z;
  tk_event_id : string;
  tk_trace : option string;
  tk_run_id : string;
  tk_attempt_id : string
}.

(** [d.get(k, "")] of a text. *)
Definition str_field (k : string) (d : odict string pyval) : outcome string :=
  match od_get k d with
  | None => Ret ""
  | Some (PStr s) => Ret s
  | Some _ => Raise (OutsideModel ("field " +:+ k +:+ " that is no text"))
  end.

Definition opt_text_field (k : string) (d : odict string pyval) : outcome (option string) :=
  match od_get k d with
  | None | Some PNone => Ret None
  | Some (PStr s) => Ret (Some s)
  | Some _ => Raise (OutsideModel ("field " +:+ k +:+ " that is no text"))
  end.

(** [_hash_payload] ([hi_agent/server/idempotency.py]) *)
Definition _hash_payload (sha256 : string -> string) (payload : odict string pyval) : string :=
  sha256 (json_dumps_sorted true (PDict payload)).

(** The tenant of a new run, from the authenticated workspace and the body. *)
Definition resolve_tenant (posture : outcome Posture) (workspace : option TenantContext) (body_tenant_id : string) :
    outcome string :=
  p ← posture;
  let middleware := default "" (tc_tenant_id <$> workspace) in
  if is_strict p && bool_decide (workspace = None) then
    Raise (ValueError "authenticated workspace required under research/prod posture; pass a TenantContext via workspace=")
  else if is_strict p && negb (bool_decide (middleware = "")) && negb (bool_decide (body_tenant_id = "")) &&
          negb (bool_decide (body_tenant_id = middleware)) then
    Raise (TenantScopeError ("RunManager.create_run: body tenant_id=" +:+ py_repr_str body_tenant_id +:+
      " differs from authenticated middleware tenant_id=" +:+ py_repr_str middleware +:+
      "; refusing under research/prod posture (W35-T3)."))
  else if decide (middleware <> "") then Ret middleware
  else if decide (body_tenant_id <> "") then Ret body_tenant_id
  else if is_strict p then
    Raise (TenantScopeError "RunManager.create_run: tenant_id is required under research/prod posture but neither task_contract.tenant_id nor workspace.tenant_id is set (T-12'/W35-T3).")
  else Ret "default".

Definition _owns (run : ManagedRun) (ctx : TenantContext) : bool :=
  bool_decide (mr_tenant_id run = tc_tenant_id ctx) && bool_decide (rs_user_id (mr_spec run) = tc_user_id ctx) &&
  (bool_decide (tc_session_id ctx = "") || bool_decide (rs_session_id (mr_spec run) = tc_session_id ctx)).

Definition owned_by (workspace : option TenantContext) (run : ManagedRun) : bool :=
  match workspace with None => true | Some ctx => _owns run ctx end.

Definition _task_id_exists_unlocked (m : manager) (task_id : string) (workspace : option TenantContext) : bool :=
  existsb (fun kv => match od_get "task_id" (rs_task_contract (mr_spec kv.2)) with
                     | Some (PStr t) => bool_decide (t = task_id)
                     | _ => false
                     end && owned_by workspace kv.2) (m_runs m).

(** An event of the event bus, as [_on_stage_event] reads it. *)
Record bus_event := mkBusEvent { be_type : string; be_payload : pyval; be_run_id : string }.

(** Threads: where each one is, between two blocks of code.  [TSeq] to [TPend] are calls
    of [start_run], [TCancel*] of [cancel_run], [TBegin] to [TReplay] a thread in
    [_execute_run] or [_execute_run_durable] (with the exception that is leaving it), [THeart*]
    a lease heartbeat for the run thread at an index, [TAbandon*] a call of [shutdown].  A
    dead thread may still hold a slot of the semaphore and be counted as active. *)
Inductive thread :=
  | TSeq (rid : string)
  | TPut (rid : string) (priority : Z) (seq : nat)
  | TReject (rid : string)
  | TPend (rid : string)
  | TCancelQueue (rid : string)
  | TCancelStore (rid : string)
  | TCancelToken (rid : string)
  | TBegin (rid : string)
  | TMark (rid : string)
  | TLease (rid : string)
  | TAcquired (rid : string)
  | TStarted (rid : string)
  | TCall (rid : string)
  | TApply (rid : string) (r : exec_result)
  | TQueueEnd (rid : string)
  | TExcept (rid : string) (e : exn) (text : string)
  | TQueueFail (rid : string) (text : string)
  | TFinally (rid : string) (leaving : option exn)
  | TSync (rid : string) (leaving : option exn)
  | TRelease (rid : string) (leaving : option exn)
  | TFinal (rid : string) (leaving : option exn)
  | TTerminal (rid : string) (leaving : option exn)
  | TReplay (rid : string) (leaving : option exn)
  | TFinished (rid : string) (leaving : option exn)
  | THeart (rid : string) (owner : nat)
  | THeartLost (rid : string) (owner : nat)
  | THeartEvent (rid : string) (owner : nat)
  | THeartDlq (rid : string) (owner : nat)
  | TShutdown
  | TAbandon (rids : list string)
  | TAbandonStore (rid : string) (rids : list string)
  | TAbandonState (rid : string) (rids : list string)
  | TEnd
  | TDead (slot counted : bool) (rid : string) (e : exn).

(** The worker: where it is, its idle cycles, and its counts of releases. *)
Inductive worker_pc :=
  | WLoop
  | WClaim
  | WIdle
  | WLookup (rid : string)
  | WNoExecutor (rid : string)
  | WFail (rid reason tenant_id : string)
  | WAcquire (rid : string)
  | WQueueTimeout (rid : string)
  | WTimeout (rid : string)
  | WSpawn (rid : string)
  | WExit.

Record worker := mkWorker { w_pc : worker_pc; w_idle : nat; w_releases : odict string nat }.

Definition idle_limit : nat := 20.
Definition max_executor_releases : nat := 50.

Module RunManager.
Section manager.
(** [max_concurrent], [queue_size]; whether the durable run queue, the run store, the
    idempotency store and the event store are wired; the lease time of the queue. *)
Context (max_concurrent queue_size : nat) (durable has_store has_idempotency has_events : bool)
  (lease_timeout : Z) (posture : outcome Posture) (sha256 float_repr : string -> string)
  (iso_of_ts : Z -> string) (elapsed : Z -> Z -> pyval) (get_fallback_events : string -> list pyval).

Definition init (store : run_db) (idem : idem_db) (rq : queue_db) (events : event_db) : manager :=
  mkManager [] max_concurrent 0 ∅ [] 0 ∅ [] [] false [] store idem rq events [].

(** Calls of the stores. *)
Definition on_store {A} (c : PyM run_db A) : PyM manager A := py_zoom m_run_store (fun t m => set_run_store m t) c.
Definition on_idempotency {A} (c : PyM idem_db A) : PyM manager A :=
  py_zoom m_idempotency (fun t m => set_idempotency m t) c.
Definition on_queue {A} (c : PyM queue_db A) : PyM manager A := py_zoom m_run_queue (fun t m => set_run_queue m t) c.
Definition on_events {A} (c : PyM event_db A) : PyM manager A :=
  py_zoom m_event_store (fun t m => set_events m (m_event_seqs m) t) c.

(** The run object of an id, and an assignment to its fields. *)
Definition run_object (rid : string) : PyM manager ManagedRun :=
  m ← py_get;
  match od_get rid (m_runs m) with
  | Some r => mret r
  | None => py_raise (OutsideModel "a run that is not registered")
  end.
Definition assign (rid : string) (f : ManagedRun -> ManagedRun) : PyM manager unit :=
  py_modify (fun m => match od_get rid (m_runs m) with
                      | Some r => set_runs m (od_set rid (f r) (m_runs m))
                      | None => m
                      end).

Definition _transition_state (rid target : string) : PyM manager unit :=
  r ← run_object rid;
  match transition rid target (mr_state r) with
  | (Ret _, s) => assign rid (set_run_state s)
  | (Raise e, _) => py_raise e
  end.

(** [_publish_run_event] *)
Definition next_sequence (rid : string) : PyM manager Z :=
  m ← py_get;
  seed ← (if od_mem rid (m_event_seqs m) then mret 0%Z
          else py_except is_exception
                 (last ← on_events (EventStore.max_sequence posture rid None); mret (last + 1)%Z)
                 (fun _ => mret 0%Z));
  let seqs := if od_mem rid (m_event_seqs m) then m_event_seqs m else od_set rid seed (m_event_seqs m) in
  let seq := default 0%Z (od_get rid seqs) in
  _ ← py_modify (fun m => set_events m (od_set rid (seq + 1)%Z seqs) (m_event_store m));
  mret seq.

Definition _publish_run_event (rid event_type : string) (payload : odict string pyval) (tk : tick) : PyM manager unit :=
  if has_events then
    run ← run_object rid;
    seq ← next_sequence rid;
    let s := mr_spec run in
    event ← py_lift (event_post_init posture
      (mkEvent (tk_event_id tk) rid seq event_type (json_spaced true (PDict payload)) (rs_tenant_id s)
         (or_else (rs_user_id s) "__legacy__") (or_else (rs_session_id s) "__legacy__") "" (tk_now tk)
         (rs_parent_run_id s) (rs_attempt_id s) (rs_phase_id s)));
    py_suppress (on_events (EventStore.append event None (tk_trace tk)))
  else mret tt.

(** [create_run] **************************************************************)

(** The reservation of an idempotency key: the id of the run to create, or the stub to
    answer with. *)
Definition reserve (body : odict string pyval) (workspace : option TenantContext) (tenant_id project_id : string)
    (idempotency_key : option string) (tk : tick) : PyM manager (string + ManagedRun) :=
  if has_idempotency && truthy idempotency_key then
    let key := default "" idempotency_key in
    '(outcome, record) ← on_idempotency (IdempotencyStore.reserve_or_replay posture id id id tenant_id key
      (_hash_payload sha256 (od_pop "idempotency_key" body)) (tk_run_id tk) 86400000000 project_id
      (default "" (tc_user_id <$> workspace)) (default "" (tc_session_id <$> workspace)) None (tk_now tk));
    match outcome with
    | conflict => py_raise (ValueError "idempotency_conflict")
    | replayed =>
        stub ← py_lift (managed_run_post_init posture
          (new_run (mkSpec (ir_run_id record) body tenant_id "" "" "" "" (Some key) "replayed"
             (ir_response_snapshot record) (ir_status_code record) "" "" "" "" "") ""));
        mret (inr stub)
    | created => mret (inl (tk_run_id tk))
    end
  else mret (inl (tk_run_id tk)).

(** The check for a duplicate task id and the insertion, under the lock. *)
Definition insert_run (run : ManagedRun) (task_id : string) (workspace : option TenantContext) (tenant_id : string) :
    PyM manager unit :=
  m ← py_get;
  if negb (bool_decide (task_id = "")) && _task_id_exists_unlocked m task_id workspace then
    _ ← (match rs_idempotency_key (mr_spec run) with
         | Some key => if has_idempotency then on_idempotency (IdempotencyStore.release tenant_id key) else mret tt
         | None => mret tt
         end);
    py_raise (ValueError ("run with task_id '" +:+ task_id +:+ "' already exists in workspace"))
  else py_put (set_runs m (od_set (mr_run_id run) run (m_runs m))).

(** The record and the queue entry of a new run. *)
Definition persist_run (run : ManagedRun) (body : odict string pyval) (workspace : option TenantContext)
    (tenant_id project_id : string) (tk : tick) : PyM manager unit :=
  let s := mr_spec run in
  let user := tc_user_id <$> workspace in
  let session := tc_session_id <$> workspace in
  let priority := int_of (default (PInt 5) (od_get "priority" body)) in
  let exec_ctx := mkExecCtx tenant_id (default "" user) (default "" session) project_id (rs_profile_id s) (rs_run_id s) ""
                    (rs_attempt_id s) (rs_phase_id s) "" "" "" in
  _ ← (if has_store then
         p ← py_lift priority;
         record ← py_lift (run_record_post_init posture
           (mkRunRecord (rs_run_id s) tenant_id (json_spaced true (PDict body)) "queued" p 0 false "" "" (tk_now tk) (tk_now tk)
              (default "__legacy__" user) (default "__legacy__" session) project_id 0 "" (rs_attempt_id s) (rs_phase_id s)));
         on_store (RunStore.upsert record (Some exec_ctx))
       else mret tt);
  if durable then
    p ← py_lift priority;
    on_queue (RunQueue.enqueue (rs_run_id s) p (json_spaced true (PDict body)) tenant_id (default "" user)
                (default "" session) project_id (tk_now tk))
  else mret tt.

Definition create_run (body : odict string pyval) (workspace : option TenantContext) (tk : tick) : PyM manager ManagedRun :=
  idempotency_key ← py_lift (opt_text_field "idempotency_key" body);
  body_tenant_id ← py_lift (str_field "tenant_id" body);
  tenant_id ← py_lift (resolve_tenant posture workspace body_tenant_id);
  project_id ← py_lift (str_field "project_id" body);
  reserved ← reserve body workspace tenant_id project_id idempotency_key tk;
  match reserved with
  | inr stub => mret stub
  | inl run_id =>
      let key := if has_idempotency && truthy idempotency_key then idempotency_key else None in
      run ← py_lift (managed_run_post_init posture
        (new_run (mkSpec run_id body (default "" (tc_tenant_id <$> workspace)) (tk_iso tk) (default "" (tc_user_id <$> workspace))
           (default "" (tc_session_id <$> workspace)) project_id key "created" "" 0 (default "" (tk_trace tk)) ""
           (tk_attempt_id tk) (py_str (default (PStr "") (od_get "phase_id" body)))
           (py_str (default (PStr "") (od_get "profile_id" body)))) (tk_iso tk)));
      task_id ← py_lift (str_field "task_id" body);
      _ ← insert_run run task_id workspace tenant_id;
      _ ← _publish_run_event run_id "run_queued" [("state", PStr "created"); ("created_at", PStr (tk_iso tk))] tk;
      _ ← persist_run run body workspace tenant_id project_id tk;
      mret run
  end.

(** Reads *********************************************************************)

Definition get_run (rid : string) (workspace : option TenantContext) : PyM manager (option ManagedRun) :=
  m ← py_get;
  mret (match od_get rid (m_runs m) with
        | Some run => if owned_by workspace run then Some run else None
        | None => None
        end).

Definition list_runs (workspace : option TenantContext) : PyM manager (list ManagedRun) :=
  m ← py_get;
  mret (filter (fun r => owned_by workspace r = true) (m_runs m).*2).

Definition queue_depth : PyM manager nat := m ← py_get; mret (length (m_queue m)).

(** [get_status]: active, queued, capacity, and the utilisation as a fraction. *)
Definition get_status : PyM manager (Z * nat * nat * (nat * nat)) :=
  m ← py_get;
  let queued := length (m_queue m) in
  mret (m_active_count m, queued, max_concurrent, if decide (queue_size = 0) then (0, 1) else (queued, queue_size)).

(** The newest event of a run, as [to_dict] reads it; errors of the store are logged. *)
Definition last_event (rid : string) : PyM manager (option StoredEvent) :=
  if has_events then
    py_except is_exception
      (events ← on_events (EventStore.list_since posture rid 0 None None None None); mret (last events))
      (fun _ => mret None)
  else mret None.

Definition opt_val {A} (f : A -> pyval) (x : option A) : pyval := match x with Some a => f a | None => PNone end.

(** [to_dict]; [None] for a result that is no JSON. *)
Definition to_dict (rid : string) (tk : tick) : PyM manager (option pyval) :=
  run ← run_object rid;
  last ← last_event rid;
  let s := mr_spec run in
  let result := match mr_result run with Some r => er_payload r | None => Some PNone end in
  let finished_at := match mr_result run ≫= er_finished_at with Some t => Some t | None => mr_finished_at run end in
  mret ((fun payload => PDict
    [("run_id", PStr (rs_run_id s)); ("task_contract", PDict (rs_task_contract s)); ("state", PStr (mr_state run));
     ("result", payload); ("error", opt_val PStr (mr_error run)); ("created_at", PStr (rs_created_at s));
     ("updated_at", PStr (mr_updated_at run)); ("current_stage", opt_val PStr (mr_current_stage run));
     ("stage_updated_at", opt_val PStr (mr_stage_updated_at run));
     ("llm_fallback_count", PInt (default 0%Z (mr_result run ≫= er_llm_fallback_count)));
     ("finished_at", opt_val PStr finished_at); ("fallback_events", PList (get_fallback_events (rs_run_id s)));
     ("started_at", opt_val PStr (mr_started_at run)); ("last_heartbeat_at", PNone);
     ("last_event_offset", opt_val (fun e => PInt (se_sequence e)) last);
     ("last_event_at", opt_val (fun e => PStr (iso_of_ts (se_created_at e))) last); ("current_action_id", PNone);
     ("no_progress_seconds", opt_val (fun e => elapsed (tk_now tk) (se_created_at e)) last)]) <$> result).

(** Observers and tokens ******************************************************)

Definition _on_stage_event (ev : bus_event) (tk : tick) : PyM manager unit :=
  if decide (be_type ev ∈ ["stage_start"; "StageStateChanged"]) then
    let payload :=
      match be_payload ev with
      | PStr text => if decide (text = "") then Some (PDict []) else
                     match json_loads float_repr text with Ret v => Some v | Raise _ => None end
      | v => Some (if py_bool v then v else PDict [])
      end in
    match payload with
    | Some (PDict d) =>
        if decide (be_type ev = "StageStateChanged" /\ as_str (pd_get d "to_state") <> Some "active") then mret tt
        else
          let name := if py_bool (pd_get d "stage_name") then pd_get d "stage_name" else pd_get d "stage_id" in
          if negb (py_bool name) || bool_decide (be_run_id ev = "") then mret tt
          else match name with
               | PStr stage => assign (be_run_id ev) (set_stage stage (tk_iso tk))
               | _ => py_raise (OutsideModel "a stage name that is no text")
               end
    | _ => mret tt
    end
  else mret tt.

Definition register_cancellation_token (rid token : string) : PyM manager unit :=
  py_modify (fun m => set_tokens m (od_set rid token (m_tokens m)) (m_cancelled m)).
Definition unregister_cancellation_token (rid : string) : PyM manager unit :=
  py_modify (fun m => set_tokens m (od_pop rid (m_tokens m)) (m_cancelled m)).

(** [start_run]: its first block, the sequence number, [put_nowait], the rejection, and the
    executor it leaves for the durable queue. *)
Definition start_check (rid : string) : PyM manager bool :=
  m ← py_get;
  mret (match od_get rid (m_runs m) with Some r => bool_decide (mr_state r = "created") | None => false end).

(** The priority and the sequence number of the queue item. *)
Definition start_seq (rid : string) : PyM manager (Z * nat) :=
  run ← run_object rid;
  priority ← py_lift (int_of (default (PInt 5) (od_get "priority" (rs_task_contract (mr_spec run)))));
  m ← py_get;
  _ ← py_put (set_queue m (m_queue m) (S (m_queue_seq m)));
  mret (priority, m_queue_seq m).

(** [false] for [queue.Full]; a queue of size zero has no bound. *)
Definition put_nowait (rid : string) (priority : Z) (seq : nat) : PyM manager bool :=
  m ← py_get;
  if negb (queue_size =? 0) && (queue_size <=? length (m_queue m)) then mret false
  else _ ← py_put (set_queue m (m_queue m ++ [(priority, seq, rid)]) (m_queue_seq m)); mret true.

Definition fail_run (rid error : string) (tk : tick) : PyM manager unit :=
  _ ← _transition_state rid "failed";
  assign rid (fun r => set_updated_at (tk_iso tk) (set_run_error error r)).

Definition QueueSaturatedError (depth : nat) : exn :=
  OtherError "QueueSaturatedError" ("Queue saturated: " +:+ pretty depth +:+ "/" +:+ pretty queue_size).

Definition start_reject (rid : string) (tk : tick) : PyM manager unit :=
  _ ← fail_run rid "queue_full" tk;
  m ← py_get;
  py_raise (QueueSaturatedError (length (m_queue m))).

Definition start_pending (rid : string) : PyM manager unit :=
  py_modify (fun m => set_pending m (m_pending_executors m ∪ {[rid]})).

(** [cancel_run]: the state, the durable queue, the run store, the token. *)
Definition cancel_state (rid : string) (workspace : option TenantContext) (tk : tick) : PyM manager bool :=
  run ← get_run rid workspace;
  match run with
  | None => mret false
  | Some r =>
      if decide (mr_state r ∈ ["created"; "running"]) then
        _ ← _transition_state rid "cancelled";
        _ ← assign rid (set_updated_at (tk_iso tk));
        mret true
      else mret false
  end.

Definition tenant_of (rid : string) : PyM manager string := run ← run_object rid; mret (mr_tenant_id run).

Definition cancel_queue (rid : string) (tk : tick) : PyM manager unit :=
  if durable then
    py_suppress (tenant ← tenant_of rid; on_queue (RunQueue.cancel posture rid (Some tenant) (tk_now tk)))
  else mret tt.

Definition cancel_store (rid : string) (tk : tick) : PyM manager unit :=
  if has_store then py_suppress (on_store (RunStore.mark_cancelled posture rid None (tk_now tk))) else mret tt.

Definition cancel_token (rid : string) : PyM manager unit :=
  py_modify (fun m => match od_get rid (m_tokens m) with
                      | Some token => set_tokens m (m_tokens m) (m_cancelled m ++ [token])
                      | None => m
                      end).

(** The blocks of [_execute_run] and [_execute_run_durable] ***********************)

Definition enter (rid : string) : PyM manager unit :=
  py_modify (fun m => set_active m (m_active_count m + 1) (m_active_run_ids m ∪ {[rid]})).

Definition execute_begin (rid : string) (tk : tick) : PyM manager unit :=
  _ ← enter rid;
  _ ← _transition_state rid "running";
  assign rid (set_started (tk_iso tk)).

Definition execute_mark (rid : string) (tk : tick) : PyM manager unit :=
  if has_store then on_store (RunStore.mark_running posture rid None (tk_now tk)) else mret tt.

Definition execute_acquired (rid : string) (tk : tick) : PyM manager unit :=
  _publish_run_event rid "lease_acquired" [("worker_id", PStr "run_manager"); ("state", PStr "running")] tk.

Definition started_payload (run : ManagedRun) : odict string pyval :=
  [("state", PStr "running"); ("started_at", PStr (mr_updated_at run))].

Definition execute_started (rid : string) (tk : tick) : PyM manager unit :=
  run ← run_object rid;
  _publish_run_event rid "run_started" (started_payload run) tk.

(** The state a result leads to, and the error it leaves. *)
Definition result_state (r : exec_result) : string :=
  match er_status r with
  | Some status => if decide (status = "completed") then "completed"
                   else if decide (status ∈ _VALID_RESULT_STATES) then status else "failed"
  | None => "completed"
  end.

Definition execute_apply (rid : string) (r : exec_result) (tk : tick) : PyM manager unit :=
  _ ← _transition_state rid (result_state r);
  _ ← (match er_status r with
       | Some status => if decide (status = "completed") then mret tt
                        else assign rid (set_run_error (or_else (default "" (er_error r)) status))
       | None => mret tt
       end);
  assign rid (fun run => set_updated_at (tk_iso tk) (set_run_result r run)).

Definition execute_queue_end (rid : string) (tk : tick) : PyM manager unit :=
  run ← run_object rid;
  if decide (mr_state run = "completed") then
    on_queue (RunQueue.complete posture rid "run_manager" (Some (mr_tenant_id run)) (tk_now tk))
  else on_queue (RunQueue.fail posture rid "run_manager" (default "" (mr_error run)) (Some (mr_tenant_id run)) (tk_now tk) (tk_iso tk)).

Definition execute_queue_fail (rid text : string) (tk : tick) : PyM manager unit :=
  tenant ← tenant_of rid;
  on_queue (RunQueue.fail posture rid "run_manager" text (Some tenant) (tk_now tk) (tk_iso tk)).

Definition execute_finally (rid : string) (tk : tick) : PyM manager unit :=
  _ ← py_modify (fun m => set_active m (m_active_count m - 1) (m_active_run_ids m ∖ {[rid]}));
  assign rid (fun r => match mr_finished_at r with None => set_finished_at (tk_iso tk) r | Some _ => r end).

Definition execute_sync (rid : string) (tk : tick) : PyM manager unit :=
  if has_store then
    run ← run_object rid;
    if decide (mr_state run = "completed") then
      on_store (RunStore.mark_complete posture rid (default "" (er_text <$> mr_result run)) None (tk_now tk))
    else if decide (mr_state run = "cancelled") then on_store (RunStore.mark_cancelled posture rid None (tk_now tk))
    else on_store (RunStore.mark_failed posture rid (default "" (mr_error run)) None (tk_now tk))
  else mret tt.

Definition release_slot : PyM manager unit := py_modify (fun m => set_permits m (S (m_permits m))).

Definition execute_final (rid : string) (tk : tick) : PyM manager unit :=
  run ← run_object rid;
  _publish_run_event rid "run_finalized"
    [("state", PStr (mr_state run)); ("finished_at", opt_val PStr (mr_finished_at run))] tk.

Definition terminal_event (state : string) : string :=
  if decide (state = "completed") then "run_completed"
  else if decide (state = "cancelled") then "run_cancelled" else "run_failed".

Definition execute_terminal (rid : string) (tk : tick) : PyM manager unit :=
  run ← run_object rid;
  _publish_run_event rid (terminal_event (mr_state run))
    [("state", PStr (mr_state run)); ("error", PStr (default "" (mr_error run)));
     ("finished_at", opt_val PStr (mr_finished_at run))] tk.

Definition execute_replay (rid : string) (tk : tick) : PyM manager unit :=
  run ← run_object rid;
  match rs_idempotency_key (mr_spec run) with
  | Some key =>
      if has_idempotency then
        d ← to_dict rid tk;
        match d with
        | None => py_raise (TypeError "the result of the run is not JSON serializable")
        | Some v =>
            on_idempotency (IdempotencyStore.mark_complete float_repr (mr_tenant_id run) key (json_spaced true v)
              (_run_state_to_terminal (mr_state run)) (Some (_run_state_to_status_code (mr_state run))) (tk_now tk))
        end
      else mret tt
  | None => mret tt
  end.

(** The blocks of the lease heartbeat. *)
Definition heart_beat (rid : string) (tk : tick) : PyM manager bool :=
  tenant ← tenant_of rid;
  renewed ← on_queue (RunQueue.heartbeat lease_timeout posture rid "run_manager" (Some tenant) (tk_now tk));
  if (renewed : bool) then
    run ← run_object rid;
    _ ← _publish_run_event rid "heartbeat_renewed" [("worker_id", PStr "run_manager"); ("state", PStr (mr_state run))] tk;
    mret true
  else mret false.

Definition heart_lost (rid : string) : PyM manager unit :=
  run ← run_object rid;
  if decide (mr_state run = "running") then
    _ ← _transition_state rid "failed";
    assign rid (set_run_error "lease_lost: heartbeat renewal denied")
  else mret tt.

Definition heart_event (rid : string) (tk : tick) : PyM manager unit :=
  _publish_run_event rid "lease_lost" [("reason", PStr "heartbeat_renewal_denied"); ("state", PStr "failed")] tk.

Definition heart_dlq (rid : string) (tk : tick) : PyM manager unit :=
  py_suppress (tenant ← tenant_of rid;
    on_queue (RunQueue.dead_letter posture rid "lease_lost" "running" (Some tenant) (tk_now tk) (tk_iso tk))).

(** [shutdown] and [drain]: the flag, and the blocks for each run that is abandoned. *)
Definition begin_shutdown : PyM manager unit := py_modify (fun m => set_pending (set_shutdown m true) ∅).
Definition drain : PyM manager unit := py_modify (fun m => set_shutdown m true).

Definition abandon_queue (rid : string) (tk : tick) : PyM manager unit :=
  if durable then
    m ← py_get;
    let tenant := match od_get rid (m_runs m) with Some r => mr_tenant_id r | None => "" end in
    py_suppress (on_queue (RunQueue.fail posture rid "run_manager" "server_shutdown" (Some tenant) (tk_now tk) (tk_iso tk)))
  else mret tt.

Definition abandon_store (rid : string) (tk : tick) : PyM manager unit :=
  if has_store then py_suppress (on_store (RunStore.mark_failed posture rid "server_shutdown" None (tk_now tk))) else mret tt.

Definition abandon_state (rid : string) : PyM manager unit :=
  m ← py_get;
  match od_get rid (m_runs m) with
  | Some r =>
      if decide (mr_state r ∈ ["completed"; "failed"; "cancelled"]) then mret tt
      else _ ← _transition_state rid "failed"; assign rid (set_run_error "server_shutdown")
  | None => mret tt
  end.

(** The steps *****************************************************************)

(** A thread and the threads it has started, or the thread an exception makes of it. *)
Definition goto (t : thread) : PyM manager (thread * list thread) := mret (t, []).

(** Where the exception [e] takes a thread: out of the code before the [try], into the
    handler, or out of the [finally]. *)
Definition unwind (t : thread) (e : exn) : thread :=
  match t with
  | TBegin rid | TMark rid | TLease rid | TAcquired rid | TStarted rid => TDead true true rid e
  | TCall rid | TExcept rid _ _ | TQueueFail rid _ => TFinally rid (Some e)
  | TApply rid _ | TQueueEnd rid => if is_exception e then TExcept rid e (exn_text e) else TFinally rid (Some e)
  | TFinally rid _ => TDead true true rid e
  | TSync rid _ | TRelease rid _ => TDead true false rid e
  | TFinal rid _ | TTerminal rid _ | TReplay rid _ => TDead false false rid e
  | THeart rid owner | THeartLost rid owner | THeartEvent rid owner | THeartDlq rid owner =>
      if is_exception e then THeart rid owner else TEnd
  | _ => TEnd
  end.

(** The next block of a thread; [self] is its index in the pool, [stopped] says that the
    run thread a heartbeat belongs to has come to its [finally], [o] is how a call of an
    executor ends. *)
Definition block (self : nat) (stopped : bool) (tk : tick) (o : exec_outcome) (t : thread) : PyM manager (thread * list thread) :=
  match t with
  | TSeq rid => '(priority, seq) ← start_seq rid; goto (TPut rid priority seq)
  | TPut rid priority seq => ok ← put_nowait rid priority seq; goto (if (ok : bool) then TEnd else TReject rid)
  | TReject rid => _ ← start_reject rid tk; goto TEnd
  | TPend rid => _ ← start_pending rid; goto TEnd
  | TCancelQueue rid => _ ← cancel_queue rid tk; goto (TCancelStore rid)
  | TCancelStore rid => _ ← cancel_store rid tk; goto (TCancelToken rid)
  | TCancelToken rid => _ ← cancel_token rid; goto TEnd
  | TBegin rid => _ ← execute_begin rid tk; goto (TMark rid)
  | TMark rid => _ ← execute_mark rid tk; goto (if durable then TLease rid else TStarted rid)
  | TLease rid => mret (TAcquired rid, [THeart rid self])
  | TAcquired rid => _ ← execute_acquired rid tk; goto (TStarted rid)
  | TStarted rid => _ ← execute_started rid tk; goto (TCall rid)
  | TCall rid =>
      _ ← py_modify (fun m => called m rid);
      match o with
      | Returned r => goto (TApply rid r)
      | Raised e text => goto (if is_exception e then TExcept rid e text else TFinally rid (Some e))
      end
  | TApply rid r => _ ← execute_apply rid r tk; goto (if durable then TQueueEnd rid else TFinally rid None)
  | TQueueEnd rid => _ ← execute_queue_end rid tk; goto (TFinally rid None)
  | TExcept rid _ text => _ ← fail_run rid text tk; goto (if durable then TQueueFail rid text else TFinally rid None)
  | TQueueFail rid text => _ ← execute_queue_fail rid text tk; goto (TFinally rid None)
  | TFinally rid x => _ ← execute_finally rid tk; goto (TSync rid x)
  | TSync rid x => _ ← execute_sync rid tk; goto (TRelease rid x)
  | TRelease rid x => _ ← release_slot; goto (TFinal rid x)
  | TFinal rid x => _ ← execute_final rid tk; goto (TTerminal rid x)
  | TTerminal rid x => _ ← execute_terminal rid tk; goto (TReplay rid x)
  | TReplay rid x => _ ← execute_replay rid tk; goto (TFinished rid x)
  | THeart rid owner =>
      if stopped then goto TEnd
      else renewed ← heart_beat rid tk; goto (if (renewed : bool) then THeart rid owner else THeartLost rid owner)
  | THeartLost rid owner => _ ← heart_lost rid; goto (THeartEvent rid owner)
  | THeartEvent rid owner => _ ← heart_event rid tk; goto (THeartDlq rid owner)
  | THeartDlq rid owner => _ ← heart_dlq rid tk; goto TEnd
  | TShutdown => m ← py_get; goto (TAbandon (elements (m_active_run_ids m)))
  | TAbandon [] => goto TEnd
  | TAbandon (rid :: rids) => _ ← abandon_queue rid tk; goto (TAbandonStore rid rids)
  | TAbandonStore rid rids => _ ← abandon_store rid tk; goto (TAbandonState rid rids)
  | TAbandonState rid rids => _ ← abandon_state rid; goto (TAbandon rids)
  | TFinished _ _ | TEnd | TDead _ _ _ _ => goto t
  end.

(** Has the run thread come to its [finally]? *)
Definition past_try (t : option thread) : bool :=
  match t with
  | Some (TSync _ _ | TRelease _ _ | TFinal _ _ | TTerminal _ _ | TReplay _ _ | TFinished _ _ | TDead _ false _ _) => true
  | _ => false
  end.

(** The manager, its threads, and its worker, when one is alive. *)
Record system := mkSys { s_mgr : manager; s_threads : list thread; s_worker : option worker }.

Definition thread_step (i : nat) (tk : tick) (o : exec_outcome) (s : system) : system :=
  match s_threads s !! i with
  | None => s
  | Some t =>
      let stopped := match t with THeart _ owner => past_try (s_threads s !! owner) | _ => false end in
      match block i stopped tk o t (s_mgr s) with
      | (Ret (t', new), m) => mkSys m (<[i := t']> (s_threads s) ++ new) (s_worker s)
      | (Raise e, m) => mkSys m (<[i := unwind t e]> (s_threads s)) (s_worker s)
      end
  end.

(** The worker: its next place and idle count, its releases, and the thread it starts. *)
Definition to_pc (w : worker) (pc : worker_pc) : option worker := Some (mkWorker pc (w_idle w) (w_releases w)).
Definition awake (pc : worker_pc) (releases : odict string nat) : option worker := Some (mkWorker pc 0 releases).

Definition can_stop (m : manager) : bool :=
  bool_decide (m_active_count m = 0%Z) &&
  (if durable then bool_decide (m_pending_executors m = ∅) else bool_decide (m_queue m = [])).

Definition worker_block (timed_out : bool) (tk : tick) (w : worker) : PyM manager (option worker * list thread) :=
  let next pc : PyM manager (option worker * list thread) := mret (to_pc w pc, []) in
  match w_pc w with
  | WLoop =>
      m ← py_get;
      if m_shutdown m then next WExit
      else if durable then _ ← on_queue (RunQueue.release_expired_leases (tk_now tk)); next WClaim
      else match pop_least (m_queue m) with
           | None => mret (Some (mkWorker WIdle (S (w_idle w)) (w_releases w)), [])
           | Some (item, rest) =>
               _ ← py_put (set_queue m rest (m_queue_seq m));
               mret (awake (WAcquire (item_run item)) (w_releases w), [])
           end
  | WClaim =>
      claim ← on_queue (RunQueue.claim_next lease_timeout "run_manager" (tk_now tk) id);
      match claim with
      | None => mret (Some (mkWorker WIdle (S (w_idle w)) (w_releases w)), [])
      | Some (rid, _) => mret (awake (WLookup rid) (w_releases w), [])
      end
  | WIdle =>
      m ← py_get;
      if bool_decide (idle_limit <= w_idle w) && can_stop m then next WExit else next WLoop
  | WLookup rid =>
      m ← py_get;
      _ ← py_put (set_pending m (m_pending_executors m ∖ {[rid]}));
      match od_get rid (m_runs m) with
      | None => next (WFail rid "run_not_found" "")
      | Some run =>
          if decide (rid ∈ m_pending_executors m) then mret (awake (WAcquire rid) (od_pop rid (w_releases w)), [])
          else next (WNoExecutor rid)
      end
  | WNoExecutor rid =>
      tenant ← tenant_of rid;
      let releases := default 0 (od_get rid (w_releases w)) in
      if max_executor_releases <=? releases then
        mret (awake (WFail rid "executor_register_timeout" tenant) (od_pop rid (w_releases w)), [])
      else
        released ← on_queue (RunQueue.release_lease rid "run_manager" (tk_now tk));
        if (released : bool) then mret (awake WLoop (od_set rid (S releases) (w_releases w)), [])
        else mret (awake (WFail rid "executor_not_found" tenant) (od_pop rid (w_releases w)), [])
  | WFail rid reason tenant =>
      _ ← on_queue (RunQueue.fail posture rid "run_manager" reason (Some tenant) (tk_now tk) (tk_iso tk));
      next WLoop
  | WAcquire rid =>
      m ← py_get;
      match m_permits m with
      | S n => _ ← py_put (set_permits m n); next (WSpawn rid)
      | 0 => if timed_out then next (if durable then WQueueTimeout rid else WTimeout rid) else next (WAcquire rid)
      end
  | WQueueTimeout rid =>
      tenant ← tenant_of rid;
      _ ← on_queue (RunQueue.fail posture rid "run_manager" "queue_timeout" (Some tenant) (tk_now tk) (tk_iso tk));
      next (WTimeout rid)
  | WTimeout rid => _ ← fail_run rid "queue_timeout" tk; next WLoop
  | WSpawn rid => mret (to_pc w WLoop, [TBegin rid])
  | WExit => mret (None, [])
  end.

(** An exception ends the worker. *)
Definition worker_step (timed_out : bool) (tk : tick) (s : system) : system :=
  match s_worker s with
  | None => s
  | Some w =>
      match worker_block timed_out tk w (s_mgr s) with
      | (Ret (w', new), m) => mkSys m (s_threads s ++ new) w'
      | (Raise _, m) => mkSys m (s_threads s) None
      end
  end.

Definition fresh_worker : worker := mkWorker WLoop 0 [].

(** [_ensure_worker_started] *)
Definition _ensure_worker_started (s : system) : system :=
  match s_worker s with
  | Some _ => s
  | None => mkSys (set_shutdown (s_mgr s) false) (s_threads s) (Some fresh_worker)
  end.

(** What can happen: calls of clients, a block of a thread, a block of the worker. *)
Inductive label :=
  | LCreate (body : odict string pyval) (workspace : option TenantContext) (tk : tick)
  | LStart (rid : string)
  | LCancel (rid : string) (workspace : option TenantContext) (tk : tick)
  | LRegister (rid token : string)
  | LUnregister (rid : string)
  | LStage (ev : bus_event) (tk : tick)
  | LThread (i : nat) (tk : tick) (o : exec_outcome)
  | LWorker (timed_out : bool) (tk : tick)
  | LShutdown
  | LDrain.

Definition on_mgr {A} (c : PyM manager A) (s : system) : system := mkSys (c (s_mgr s)).2 (s_threads s) (s_worker s).
Definition spawn (t : thread) (s : system) : system := mkSys (s_mgr s) (s_threads s ++ [t]) (s_worker s).

Definition step (s : system) (l : label) : system :=
  match l with
  | LCreate body ws tk => on_mgr (create_run body ws tk) s
  | LStart rid =>
      match (start_check rid (s_mgr s)).1 with
      | Ret true => spawn (if durable then TPend rid else TSeq rid) (_ensure_worker_started s)
      | _ => s
      end
  | LCancel rid ws tk =>
      let s' := on_mgr (cancel_state rid ws tk) s in
      match (cancel_state rid ws tk (s_mgr s)).1 with Ret true => spawn (TCancelQueue rid) s' | _ => s' end
  | LRegister rid token => on_mgr (register_cancellation_token rid token) s
  | LUnregister rid => on_mgr (unregister_cancellation_token rid) s
  | LStage ev tk => on_mgr (_on_stage_event ev tk) s
  | LThread i tk o => thread_step i tk o s
  | LWorker timed_out tk => worker_step timed_out tk s
  | LShutdown => spawn TShutdown (on_mgr begin_shutdown s)
  | LDrain => on_mgr drain s
  end.

Definition start (store : run_db) (idem : idem_db) (rq : queue_db) (events : event_db) : system :=
  mkSys (init store idem rq events) [] None.

Definition run_labels : system -> list label -> system := foldl step.
End manager.
End RunManager.
