(* ===== verification/RunManagerSpec.v ===== *)
(** * Guarantees of the run manager

    What every sequence of steps of [RunManager] keeps: the accounting of the slots of
    the semaphore, the runs' identities and the legal graph of their states, one call of
    an executor per start; how an execution ends; how the queue drains; and what a run
    cancelled in the queue or a strict posture costs. *)

From stdpp Require Import base tactics option list sorting strings gmap relations.
From Stdlib Require Import ZArith.
From S2P Require Import Prelude PyStr PyDict PyVal Json RunContext SqlTable RunQueue Idempotency RunState RunStore EventStore RunManager.
#[local] Arguments String.append : simpl nomatch.
Create HintDb calm.

(** Case analysis down to the primitives. *)
Ltac keeps_step :=
  match goal with
  | |- keeps _ (mret _) => apply keeps_ret; apply _
  | |- keeps _ (py_raise _) => apply keeps_raise; apply _
  | |- keeps _ py_get => apply keeps_get; apply _
  | |- keeps _ (py_lift _) => apply keeps_lift; apply _
  | |- keeps _ (_ ≫= _) => apply keeps_bind; [apply _| |intros ?]
  | |- keeps _ (py_except _ _ _) => apply keeps_except; [apply _| |intros ?]
  | |- keeps _ (py_suppress _) => apply keeps_suppress; [apply _|]
  | |- keeps _ (if ?b then _ else _) => destruct b
  | |- keeps _ (let '(_, _) := ?p in _) => destruct p
  | |- keeps _ (match ?x with _ => _ end) => destruct x
  end.

(** The part of the manager the threads schedule by. *)
Definition control (m : manager) :=
  (m_permits m, m_active_count m, m_active_run_ids m, m_queue m, m_pending_executors m, m_shutdown m, m_executor_calls m).
Definition same_control (m m' : manager) : Prop := control m = control m'.

#[export] Instance same_control_pre : PreOrder same_control.
Proof. split; [done|]. intros x y z. unfold same_control. congruence. Qed.

(** Runs keep their identity, their states follow the legal graph, and the time a run
    finished is written once. *)
Definition run_evolves (r r' : ManagedRun) : Prop :=
  mr_spec r' = mr_spec r /\ rtc legal (mr_state r) (mr_state r') /\
  (mr_finished_at r <> None -> mr_finished_at r' = mr_finished_at r).

#[export] Instance run_evolves_pre : PreOrder run_evolves.
Proof.
  split; [by intros r; split_and!|]. intros r1 r2 r3 (Hs1 & Hl1 & Hf1) (Hs2 & Hl2 & Hf2).
  split_and!; [congruence|by etrans|]. intros Hf. rewrite Hf2; [by apply Hf1|]. by rewrite Hf1.
Qed.

Definition evolves (m m' : manager) : Prop :=
  forall rid r, od_get rid (m_runs m) = Some r -> exists r', od_get rid (m_runs m') = Some r' /\ run_evolves r r'.

#[export] Instance evolves_pre : PreOrder evolves.
Proof.
  split.
  - intros m rid r Hr. by exists r.
  - intros m1 m2 m3 H1 H2 rid r Hr. destruct (H1 rid r Hr) as (r2 & Hr2 & He2).
    destruct (H2 rid r2 Hr2) as (r3 & Hr3 & He3). exists r3. split; [done|by etrans].
Qed.

(** Code that schedules nothing. *)
Definition calm (m m' : manager) : Prop := same_control m m' /\ evolves m m'.

#[export] Instance calm_pre : PreOrder calm.
Proof.
  split; [by intros m; split|]. intros m1 m2 m3 [] []. by split; etrans.
Qed.

Lemma calm_evolves {A} (c : PyM manager A) : keeps calm c -> keeps evolves c.
Proof. intros Hc m. apply Hc. Qed.

Lemma evolves_same m m' : m_runs m' = m_runs m -> evolves m m'.
Proof. intros Hr rid r Hg. exists r. by rewrite Hr. Qed.

Lemma evolves_set rid f m : (forall r, od_get rid (m_runs m) = Some r -> run_evolves r (f r)) ->
  evolves m (RunManager.assign rid f m).2.
Proof.
  intros Hf. unfold RunManager.assign, py_modify. simpl. destruct (od_get rid (m_runs m)) as [r|] eqn:Hr; [|done].
  specialize (Hf r eq_refl). intros rid' r' Hr'. simpl. destruct (decide (rid = rid')) as [<-|Hne].
  - rewrite od_get_set_eq. exists (f r). rewrite Hr in Hr'. by injection Hr' as <-.
  - rewrite od_get_set_ne by done. by exists r'.
Qed.

Lemma control_assign rid f m : same_control m (RunManager.assign rid f m).2.
Proof. unfold RunManager.assign, py_modify. simpl. by destruct (od_get rid (m_runs m)). Qed.

Lemma calm_assign rid f : (forall r, run_evolves r (f r)) -> keeps calm (RunManager.assign rid f).
Proof. intros Hf m. split; [apply control_assign|]. apply evolves_set. intros r _. apply Hf. Qed.

Lemma calm_run_object rid : keeps calm (RunManager.run_object rid).
Proof. unfold RunManager.run_object. repeat keeps_step. Qed.

Lemma calm_transition rid t : keeps calm (RunManager._transition_state rid t).
Proof.
  intros m. unfold RunManager._transition_state, RunManager.run_object. cbv [mbind PyM_bind py_get mret PyM_ret].
  destruct (od_get rid (m_runs m)) as [r|] eqn:Hr; [|done].
  pose proof (transition_spec rid t (mr_state r)) as Ht. destruct (transition rid t (mr_state r)) as [[[]|e] s']; [|done].
  split; [apply control_assign|]. apply evolves_set. intros r0 Hr0. rewrite Hr in Hr0. injection Hr0 as <-.
  split_and!; [done| |done]. simpl. destruct Ht as [[Hl ->]|[-> _]]; [by apply rtc_once|done].
Qed.

Lemma calm_modify f : (forall m, control (f m) = control m /\ m_runs (f m) = m_runs m) -> keeps calm (py_modify f).
Proof.
  intros Hf. apply keeps_modify. intros m. destruct (Hf m) as [Hc Hr]. split; [done|by apply evolves_same].
Qed.

Lemma calm_on_store {A} (c : PyM run_db A) : keeps calm (RunManager.on_store c).
Proof. apply keeps_zoom. intros t m. split; [done|by apply evolves_same]. Qed.
Lemma calm_on_idempotency {A} (c : PyM idem_db A) : keeps calm (RunManager.on_idempotency c).
Proof. apply keeps_zoom. intros t m. split; [done|by apply evolves_same]. Qed.
Lemma calm_on_queue {A} (c : PyM queue_db A) : keeps calm (RunManager.on_queue c).
Proof. apply keeps_zoom. intros t m. split; [done|by apply evolves_same]. Qed.
Lemma calm_on_events {A} (c : PyM event_db A) : keeps calm (RunManager.on_events c).
Proof. apply keeps_zoom. intros t m. split; [done|by apply evolves_same]. Qed.

#[export] Hint Resolve calm_run_object calm_transition calm_on_store calm_on_idempotency calm_on_queue calm_on_events : calm.
#[export] Hint Extern 1 (keeps calm (RunManager.assign _ _)) =>
  apply calm_assign; intros ?; repeat case_match; (split_and!; [reflexivity|reflexivity|by intros]) : calm.
#[export] Hint Extern 1 (keeps calm (py_modify _)) =>
  apply calm_modify; intros ?; split; repeat case_match; reflexivity : calm.

Ltac calm_tac := repeat first [solve [auto with calm] | keeps_step].

Section slots.
Context (max_concurrent queue_size : nat) (durable has_store has_idempotency has_events : bool)
  (lease_timeout : Z) (posture : outcome Posture) (sha256 float_repr : string -> string)
  (iso_of_ts : Z -> string) (elapsed : Z -> Z -> pyval) (get_fallback_events : string -> list pyval).

Abbreviation block := (RunManager.block queue_size durable has_store has_idempotency has_events lease_timeout posture
  float_repr iso_of_ts elapsed get_fallback_events).
Abbreviation worker_block := (RunManager.worker_block durable lease_timeout posture).
Abbreviation step := (RunManager.step queue_size durable has_store has_idempotency has_events lease_timeout posture
  sha256 float_repr iso_of_ts elapsed get_fallback_events).
Abbreviation run_labels := (RunManager.run_labels queue_size durable has_store has_idempotency has_events lease_timeout
  posture sha256 float_repr iso_of_ts elapsed get_fallback_events).
Abbreviation start := (RunManager.start max_concurrent).


(** Code that schedules nothing, block by block. *)
Lemma calm_next_sequence rid : keeps calm (RunManager.next_sequence posture rid).
Proof. unfold RunManager.next_sequence. calm_tac. Qed.

Lemma calm_publish rid ty d tk : keeps calm (RunManager._publish_run_event has_events posture rid ty d tk).
Proof. unfold RunManager._publish_run_event. pose proof (calm_next_sequence rid). calm_tac. Qed.

Lemma calm_fail_run rid e tk : keeps calm (RunManager.fail_run rid e tk).
Proof. unfold RunManager.fail_run. calm_tac. Qed.

Lemma calm_tenant_of rid : keeps calm (RunManager.tenant_of rid).
Proof. unfold RunManager.tenant_of. calm_tac. Qed.

#[local] Hint Resolve calm_next_sequence calm_publish calm_fail_run calm_tenant_of : calm.

Lemma calm_cancel_state rid ws tk : keeps calm (RunManager.cancel_state rid ws tk).
Proof. unfold RunManager.cancel_state, RunManager.get_run. calm_tac. Qed.
Lemma calm_cancel_queue rid tk : keeps calm (RunManager.cancel_queue durable posture rid tk).
Proof. unfold RunManager.cancel_queue. calm_tac. Qed.
Lemma calm_cancel_store rid tk : keeps calm (RunManager.cancel_store has_store posture rid tk).
Proof. unfold RunManager.cancel_store. calm_tac. Qed.
Lemma calm_cancel_token rid : keeps calm (RunManager.cancel_token rid).
Proof. unfold RunManager.cancel_token. calm_tac. Qed.
Lemma calm_start_seq rid : keeps calm (RunManager.start_seq rid).
Proof.
  intros m. unfold RunManager.start_seq, RunManager.run_object. cbv [mbind PyM_bind py_get py_put py_raise py_lift mret PyM_ret].
  destruct (od_get rid (m_runs m)) as [r|]; [|done]. destruct (int_of _); [|done]. split; [done|by apply evolves_same].
Qed.
Lemma calm_start_reject rid tk : keeps calm (RunManager.start_reject queue_size rid tk).
Proof. unfold RunManager.start_reject. calm_tac. Qed.
Lemma calm_execute_mark rid tk : keeps calm (RunManager.execute_mark has_store posture rid tk).
Proof. unfold RunManager.execute_mark. calm_tac. Qed.
Lemma calm_execute_acquired rid tk : keeps calm (RunManager.execute_acquired has_events posture rid tk).
Proof. unfold RunManager.execute_acquired. calm_tac. Qed.
Lemma calm_execute_started rid tk : keeps calm (RunManager.execute_started has_events posture rid tk).
Proof. unfold RunManager.execute_started. calm_tac. Qed.
Lemma calm_execute_apply rid r tk : keeps calm (RunManager.execute_apply rid r tk).
Proof. unfold RunManager.execute_apply. calm_tac. Qed.
Lemma calm_execute_queue_end rid tk : keeps calm (RunManager.execute_queue_end posture rid tk).
Proof. unfold RunManager.execute_queue_end. calm_tac. Qed.
Lemma calm_execute_queue_fail rid text tk : keeps calm (RunManager.execute_queue_fail posture rid text tk).
Proof. unfold RunManager.execute_queue_fail. calm_tac. Qed.
Lemma calm_execute_sync rid tk : keeps calm (RunManager.execute_sync has_store posture rid tk).
Proof. unfold RunManager.execute_sync. calm_tac. Qed.
Lemma calm_execute_final rid tk : keeps calm (RunManager.execute_final has_events posture rid tk).
Proof. unfold RunManager.execute_final. calm_tac. Qed.
Lemma calm_execute_terminal rid tk : keeps calm (RunManager.execute_terminal has_events posture rid tk).
Proof. unfold RunManager.execute_terminal. calm_tac. Qed.
Lemma calm_to_dict rid tk : keeps calm (RunManager.to_dict has_events posture iso_of_ts elapsed get_fallback_events rid tk).
Proof. unfold RunManager.to_dict, RunManager.last_event. calm_tac. Qed.
#[local] Hint Resolve calm_to_dict : calm.
Lemma calm_execute_replay rid tk :
  keeps calm (RunManager.execute_replay has_idempotency has_events posture float_repr iso_of_ts elapsed get_fallback_events rid tk).
Proof. unfold RunManager.execute_replay. calm_tac. Qed.
Lemma calm_heart_beat rid tk : keeps calm (RunManager.heart_beat has_events lease_timeout posture rid tk).
Proof. unfold RunManager.heart_beat. calm_tac. Qed.
Lemma calm_heart_lost rid : keeps calm (RunManager.heart_lost rid).
Proof. unfold RunManager.heart_lost. calm_tac. Qed.
Lemma calm_heart_event rid tk : keeps calm (RunManager.heart_event has_events posture rid tk).
Proof. unfold RunManager.heart_event. calm_tac. Qed.
Lemma calm_heart_dlq rid tk : keeps calm (RunManager.heart_dlq posture rid tk).
Proof. unfold RunManager.heart_dlq. calm_tac. Qed.
Lemma calm_abandon_queue rid tk : keeps calm (RunManager.abandon_queue durable posture rid tk).
Proof. unfold RunManager.abandon_queue. calm_tac. Qed.
Lemma calm_abandon_store rid tk : keeps calm (RunManager.abandon_store has_store posture rid tk).
Proof. unfold RunManager.abandon_store. calm_tac. Qed.
Lemma calm_abandon_state rid : keeps calm (RunManager.abandon_state rid).
Proof. unfold RunManager.abandon_state. calm_tac. Qed.
Lemma calm_on_stage_event ev tk : keeps calm (RunManager._on_stage_event float_repr ev tk).
Proof. unfold RunManager._on_stage_event. calm_tac. Qed.
#[local] Hint Resolve calm_cancel_state calm_cancel_queue calm_cancel_store calm_cancel_token calm_start_seq calm_start_reject
  calm_execute_mark calm_execute_acquired calm_execute_started calm_execute_apply calm_execute_queue_end
  calm_execute_queue_fail calm_execute_sync calm_execute_final calm_execute_terminal calm_execute_replay calm_heart_beat
  calm_heart_lost calm_heart_event calm_heart_dlq calm_abandon_queue calm_abandon_store calm_abandon_state
  calm_on_stage_event : calm.

(** The blocks of a thread that schedule nothing. *)
Definition calm_thread (t : thread) : bool :=
  match t with
  | TPut _ _ _ | TPend _ | TBegin _ | TCall _ | TFinally _ _ | TRelease _ _ => false
  | _ => true
  end.

Lemma calm_block self stopped tk o t : calm_thread t = true -> keeps calm (block self stopped tk o t).
Proof. intros Ht. destruct t; try discriminate; cbn [RunManager.block]; unfold RunManager.goto; calm_tac. Qed.

(** Slots of the semaphore and the count of active runs ****************************)

(** The slots a thread, or the worker, holds; whether it is counted as active. *)
Definition slot (t : thread) : nat :=
  match t with
  | TBegin _ | TMark _ | TLease _ | TAcquired _ | TStarted _ | TCall _ | TApply _ _ | TQueueEnd _ | TExcept _ _ _
  | TQueueFail _ _ | TFinally _ _ | TSync _ _ | TRelease _ _ => 1
  | TDead true _ _ _ => 1
  | _ => 0
  end.
Definition counted (t : thread) : nat :=
  match t with
  | TMark _ | TLease _ | TAcquired _ | TStarted _ | TCall _ | TApply _ _ | TQueueEnd _ | TExcept _ _ _ | TQueueFail _ _
  | TFinally _ _ => 1
  | TDead true true _ _ => 1
  | _ => 0
  end.
Definition worker_slot (w : option worker) : nat :=
  match w with Some w => match w_pc w with WSpawn _ => 1 | _ => 0 end | None => 0 end.

Abbreviation slots ts := (sum_list_with slot ts).
Abbreviation counts ts := (sum_list_with counted ts).

Lemma sum_insert (f : thread -> nat) ts i t t' : ts !! i = Some t ->
  sum_list_with f (<[i := t']> ts) + f t = sum_list_with f ts + f t'.
Proof.
  revert i. induction ts as [|x ts IH]; intros [|i]; simpl; try done; [intros [= ->]; lia|].
  intros Hi. specialize (IH i Hi). lia.
Qed.

Lemma sum_app (f : thread -> nat) ts ts' : sum_list_with f (ts ++ ts') = sum_list_with f ts + sum_list_with f ts'.
Proof. induction ts as [|x ts IH]; simpl; [done|]. rewrite IH. lia. Qed.

Lemma sum_elem (f : thread -> nat) ts i t : ts !! i = Some t -> f t <= sum_list_with f ts.
Proof. revert i. induction ts as [|x ts IH]; intros [|i]; simpl; try done; [intros [= ->]; lia|]. intros Hi%IH. lia. Qed.

(** What a block leaves of a thread, in one form for its return and its exception. *)
Definition block_end (t : thread) (r : outcome (thread * list thread)) : thread * list thread :=
  match r with Ret x => x | Raise e => (RunManager.unwind t e, []) end.

(** Compute the result of a block from those of its pieces. *)
Ltac block_cases :=
  cbn [RunManager.block]; unfold RunManager.goto, mbind, PyM_bind, mret, PyM_ret;
  repeat (case_match; try done); simplify_eq/=.

(** What a thread, the worker or the manager still owes to a run: calls of an executor that
    are to come or have been made. *)
Definition owes (rid : string) (t : thread) : nat :=
  match t with
  | TSeq r | TPut r _ _ | TPend r | TBegin r | TMark r | TLease r | TAcquired r | TStarted r | TCall r =>
      if decide (r = rid) then 1 else 0
  | _ => 0
  end.
Definition worker_owes (rid : string) (w : option worker) : nat :=
  match w with
  | Some w => match w_pc w with WAcquire r | WSpawn r => if decide (r = rid) then 1 else 0 | _ => 0 end
  | None => 0
  end.
Definition queued (rid : string) (q : list queue_item) : nat := sum_list_with (fun i => if decide (item_run i = rid) then 1 else 0) q.
Definition calls_of (rid : string) (l : list string) : nat := sum_list_with (fun r => if decide (r = rid) then 1 else 0) l.
Definition load (rid : string) (m : manager) : nat :=
  queued rid (m_queue m) + (if decide (rid ∈ m_pending_executors m) then 1 else 0) + calls_of rid (m_executor_calls m).

Lemma calm_block_end self stopped tk o t m : calm_thread t = true ->
  let '(t', new) := block_end t (block self stopped tk o t m).1 in
  slot t' = slot t /\ counted t' = counted t /\ slots new = 0 /\ counts new = 0 /\
  forall rid, owes rid t' + sum_list_with (owes rid) new <= owes rid t.
Proof.
  intros Ht. destruct t; try discriminate; block_cases.
  all: try (by destruct (is_exception e)); split_and!; try lia; intros rid'; simpl; case_decide; try lia.
Qed.

(** The accounts of a block: [m], [t] before it, [m'], [t'], [new] after it. *)
Definition accounts (m : manager) (t : thread) (m' : manager) (t' : thread) (new : list thread) : Prop :=
  m_permits m' + slot t' + slots new = m_permits m + slot t /\
  (m_active_count m' - Z.of_nat (counted t' + counts new) = m_active_count m - Z.of_nat (counted t))%Z /\
  forall rid, load rid m' + owes rid t' + sum_list_with (owes rid) new <= load rid m + owes rid t.

Lemma control_counts m m' : same_control m m' -> m_permits m' = m_permits m /\ m_active_count m' = m_active_count m.
Proof. unfold same_control, control. by intros [= -> ->]. Qed.

Lemma load_control rid m m' : same_control m m' -> load rid m' = load rid m.
Proof. unfold same_control, control, load. by intros [= _ _ _ -> -> _ ->]. Qed.

Lemma accounts_calm m t m' t' new : same_control m m' ->
  slot t' = slot t -> counted t' = counted t -> slots new = 0 -> counts new = 0 ->
  (forall rid, owes rid t' + sum_list_with (owes rid) new <= owes rid t) -> accounts m t m' t' new.
Proof.
  intros Hc Hs Hn Hs' Hn' Ho. destruct (control_counts m m' Hc) as [Hp Ha]. split_and!; [lia|lia|].
  intros rid. rewrite (load_control rid m m') by done. specialize (Ho rid). lia.
Qed.

Lemma queued_app rid q q' : queued rid (q ++ q') = queued rid q + queued rid q'.
Proof. unfold queued. induction q as [|i q IH]; simpl; [done|]. rewrite IH. lia. Qed.
Lemma calls_app rid l l' : calls_of rid (l ++ l') = calls_of rid l + calls_of rid l'.
Proof. unfold calls_of. induction l as [|i l IH]; simpl; [done|]. rewrite IH. lia. Qed.

(** The blocks that schedule. *)
Lemma accounts_begin rid tk m : let '(r, m') := RunManager.execute_begin rid tk m in
  match r with
  | Ret _ => accounts m (TBegin rid) m' (TMark rid) []
  | Raise e => accounts m (TBegin rid) m' (TDead true true rid e) []
  end.
Proof.
  unfold RunManager.execute_begin. cbv [mbind PyM_bind RunManager.enter py_modify].
  set (m1 := set_active _ _ _). assert (accounts m (TBegin rid) m1 (TMark rid) []) as H1.
  { split_and!; simpl; [lia|lia|]. intros rid'. unfold load, m1. simpl. case_decide; lia. }
  assert (forall m2 (t : thread), same_control m1 m2 -> slot t = 1 -> counted t = 1 ->
    (forall rid', owes rid' t <= owes rid' (TMark rid)) -> accounts m (TBegin rid) m2 t []) as Hm.
  { intros m2 t Hc Hs Hn Ho. destruct H1 as (Hp & Ha & Hl). destruct (control_counts _ _ Hc) as [Hp2 Ha2]. split_and!.
    - simpl slot in *. simpl sum_list_with in *. lia.
    - simpl counted in *. simpl sum_list_with in *. lia.
    - intros rid'. rewrite (load_control rid' m1 m2) by done. specialize (Hl rid'). specialize (Ho rid'). simpl in *. lia. }
  pose proof (calm_transition rid "running" m1) as [Ht _].
  destruct (RunManager._transition_state rid "running" m1) as [[[]|e] m2]; simpl in Ht.
  - pose proof (calm_assign rid (set_started (tk_iso tk)) ltac:(intros r; by split_and!) m2) as [Hs _].
    destruct (RunManager.assign rid (set_started (tk_iso tk)) m2) as [[[]|e] m3]; simpl in Hs;
      (apply Hm; [by etrans|done|done|intros rid'; simpl; lia]).
  - apply Hm; [done..|]. intros rid'. simpl. lia.
Qed.

Lemma accounts_finally rid x tk m : let '(r, m') := RunManager.execute_finally rid tk m in
  r = Ret tt /\ accounts m (TFinally rid x) m' (TSync rid x) [].
Proof.
  unfold RunManager.execute_finally. cbv [mbind PyM_bind py_modify]. set (m1 := set_active _ _ _).
  pose proof (control_assign rid (fun r => match mr_finished_at r with None => set_finished_at (tk_iso tk) r | Some _ => r end) m1) as Hc.
  unfold RunManager.assign, py_modify in *. simpl in Hc |- *. split; [done|].
  assert (accounts m (TFinally rid x) m1 (TSync rid x) []) as (Hp & Ha & Hl).
  { split_and!; simpl; [lia|lia|]. intros rid'. unfold load. simpl. lia. }
  destruct (control_counts _ _ Hc) as [Hp2 Ha2]. split_and!; [by rewrite Hp2|by rewrite Ha2|].
  intros rid'. rewrite (load_control rid' m1) by done. apply Hl.
Qed.

Lemma accounts_put rid priority seq m : let '(r, m') := RunManager.put_nowait queue_size rid priority seq m in
  match r with
  | Ret ok => accounts m (TPut rid priority seq) m' (if ok : bool then TEnd else TReject rid) []
  | Raise e => accounts m (TPut rid priority seq) m' TEnd []
  end.
Proof.
  unfold RunManager.put_nowait. cbv [mbind PyM_bind py_get py_put mret PyM_ret].
  destruct (negb _ && _).
  - split_and!; simpl; [lia|lia|]. intros rid'. case_decide; lia.
  - split_and!; simpl; [lia|lia|]. intros rid'. unfold load. simpl. rewrite queued_app. unfold queued at 2. simpl.
    unfold item_run. simpl. case_decide; lia.
Qed.

Lemma block_accounts self stopped tk o t m :
  let '(r, m') := block self stopped tk o t m in
  let '(t', new) := block_end t r in accounts m t m' t' new.
Proof.
  destruct (calm_thread t) eqn:Ht.
  - pose proof (calm_block self stopped tk o t Ht m) as [Hc _]. pose proof (calm_block_end self stopped tk o t m Ht) as He.
    destruct (block self stopped tk o t m) as [r m']. simpl in *. destruct (block_end t r) as [t' new].
    destruct He as (Hs & Hn & Hs' & Hn' & Ho). by apply accounts_calm.
  - destruct t; try discriminate; cbn [RunManager.block]; unfold RunManager.goto; cbv [mbind PyM_bind mret PyM_ret].
    + pose proof (accounts_put rid priority seq m) as Ha.
      destruct (RunManager.put_nowait queue_size rid priority seq m) as [[ok|e] m']; [|exact Ha]. by destruct ok.
    + cbn. split_and!; simpl; [lia|lia|]. intros rid'. unfold load. simpl.
      destruct (decide (rid = rid')) as [->|Hne]; repeat case_decide; try lia; set_solver.
    + pose proof (accounts_begin rid tk m) as Ha. destruct (RunManager.execute_begin rid tk m) as [[[]|e] m']; exact Ha.
    + cbn. assert (forall t', (slot t' = 1 /\ counted t' = 1 /\ forall rid', owes rid' t' = 0) -> accounts m (TCall rid) (called m rid) t' []) as Hc.
      { intros t' (Hs & Hn & Ho). split_and!; simpl; [lia|rewrite Hn; lia|]. intros rid'. unfold load. simpl.
        rewrite calls_app. unfold calls_of at 2. simpl. rewrite Ho. case_decide; lia. }
      destruct o as [r|e text]; [by apply Hc|]. destruct (is_exception e); by apply Hc.
    + pose proof (accounts_finally rid leaving tk m) as Ha.
      destruct (RunManager.execute_finally rid tk m) as [r m']. destruct Ha as [-> Ha]. exact Ha.
    + cbn. split_and!; simpl; [lia|lia|]. intros rid'. unfold load. simpl. lia.
Qed.

(** The worker ********************************************************************)

Lemma pop_least_None q : pop_least q = None -> q = [].
Proof. destruct q as [|i q]; [done|]. simpl. destruct (pop_least q) as [[j q']|]; [by destruct (item_le i j)|done]. Qed.

Lemma pop_least_perm q : forall i rest, pop_least q = Some (i, rest) -> q ≡ₚ i :: rest.
Proof.
  induction q as [|j q IH]; intros i rest; simpl; [done|]. destruct (pop_least q) as [[k q']|] eqn:Hq.
  - specialize (IH k q' eq_refl). destruct (item_le j k); intros [= <- <-]; [done|]. rewrite IH. by constructor.
  - intros [= <- <-]. by apply pop_least_None in Hq as ->.
Qed.

Lemma queued_perm rid q q' : q ≡ₚ q' -> queued rid q = queued rid q'.
Proof. intros Hp. unfold queued. induction Hp; simpl; lia. Qed.

Lemma on_queue_control {A} (c : PyM queue_db A) m r m' : RunManager.on_queue c m = (r, m') -> same_control m m'.
Proof. intros Hq. pose proof (calm_on_queue c m) as [Hc _]. by rewrite Hq in Hc. Qed.

Lemma fail_run_control rid e tk m r m' : RunManager.fail_run rid e tk m = (r, m') -> same_control m m'.
Proof. intros Hq. pose proof (calm_fail_run rid e tk m) as [Hc _]. by rewrite Hq in Hc. Qed.

Lemma tenant_of_control rid m r m' : RunManager.tenant_of rid m = (r, m') -> same_control m m'.
Proof. intros Hq. pose proof (calm_tenant_of rid m) as [Hc _]. by rewrite Hq in Hc. Qed.

Definition worker_end (r : outcome (option worker * list thread)) : option worker * list thread :=
  match r with Ret x => x | Raise _ => (None, []) end.

Definition worker_accounts (m : manager) (w : worker) (m' : manager) (w' : option worker) (new : list thread) : Prop :=
  m_permits m' + worker_slot w' + slots new = m_permits m + worker_slot (Some w) /\
  m_active_count m' = m_active_count m /\ counts new = 0 /\
  forall rid, load rid m' + worker_owes rid w' + sum_list_with (owes rid) new <= load rid m + worker_owes rid (Some w).

Lemma worker_accounts_calm m w m' w' : same_control m m' -> worker_slot w' = worker_slot (Some w) ->
  (forall rid, worker_owes rid w' <= worker_owes rid (Some w)) -> worker_accounts m w m' w' [].
Proof.
  intros Hc Hs Ho. destruct (control_counts m m' Hc) as [Hp Ha]. split_and!; [|done|done|].
  - rewrite Hp, Hs. apply Nat.add_0_r.
  - intros rid. rewrite (load_control rid m m') by done. specialize (Ho rid). change (sum_list_with _ []) with 0. lia.
Qed.

Ltac worker_calls :=
  repeat match goal with
  | H : RunManager.on_queue _ _ = _ |- _ => apply on_queue_control in H
  | H : RunManager.fail_run _ _ _ _ = _ |- _ => apply fail_run_control in H
  | H : RunManager.tenant_of _ _ = _ |- _ => apply tenant_of_control in H
  end.

(** Taking the executor of a run, or finding none. *)
Lemma load_taken rid rid' m : load rid' (set_pending m (m_pending_executors m ∖ {[rid]})) +
    (if decide (rid ∈ m_pending_executors m) then if decide (rid = rid') then 1 else 0 else 0) <= load rid' m.
Proof.
  unfold load. simpl. destruct (decide (rid' ∈ m_pending_executors m ∖ {[rid]})) as [Hin|Hin].
  - apply elem_of_difference in Hin as [Hin Hn]. rewrite (decide_True (P := rid' ∈ m_pending_executors m)) by done.
    rewrite (decide_False (P := rid = rid')) by set_solver. destruct (decide (rid ∈ _)); lia.
  - destruct (decide (rid ∈ m_pending_executors m)) as [Hr|]; [|destruct (decide (rid' ∈ _)); lia].
    destruct (decide (rid = rid')) as [->|]; [rewrite decide_True by done; lia|]. destruct (decide (rid' ∈ _)); lia.
Qed.

Lemma worker_block_accounts timed_out tk w m :
  let '(r, m') := worker_block timed_out tk w m in
  let '(w', new) := worker_end r in worker_accounts m w m' w' new.
Proof.
  destruct w as [pc idle releases]. unfold RunManager.worker_block, RunManager.to_pc, RunManager.awake. cbn [w_pc w_idle w_releases].
  cbv [mbind PyM_bind mret PyM_ret py_get py_put py_raise].
  destruct pc; repeat (case_match; try done); simplify_eq/=; worker_calls;
    try (apply worker_accounts_calm; [first [done|by etrans|by repeat (etrans; [eassumption|])]|done|intros rid'; simpl; repeat match goal with |- context [decide ?P] => destruct (decide P) end; lia]).
  - split_and!; [simpl; lia|done|done|]. intros rid'. unfold load. simpl m_queue. simpl m_pending_executors.
    simpl m_executor_calls. rewrite (queued_perm rid' (m_queue m) (q :: l)) by (by apply pop_least_perm). simpl. lia.
  - split_and!; [simpl; lia|done|done|]. intros rid'. pose proof (load_taken rid rid' m) as Hl.
    rewrite decide_True in Hl by done. simpl. lia.
  - split_and!; [simpl; lia|done|done|]. intros rid'. pose proof (load_taken rid rid' m). simpl. lia.
  - split_and!; [simpl; lia|done|done|]. intros rid'. pose proof (load_taken rid rid' m). simpl. lia.
  - split_and!; [simpl; lia|done|done|]. intros rid'. unfold load. simpl. lia.
  - split_and!; [simpl; lia|done|done|]. intros rid'. unfold load. simpl. lia.
Qed.

(** Creating a run ****************************************************************)

(** Every run but one evolves. *)
Definition grows (rid0 : string) (m m' : manager) : Prop :=
  same_control m m' /\ forall rid r, rid <> rid0 -> od_get rid (m_runs m) = Some r ->
    exists r', od_get rid (m_runs m') = Some r' /\ run_evolves r r'.

#[local] Instance grows_pre rid0 : PreOrder (grows rid0).
Proof.
  split; [by intros m; split; [|intros rid r; exists r]|]. intros m1 m2 m3 [Hc1 H1] [Hc2 H2]. split; [by etrans|].
  intros rid r Hne Hr. destruct (H1 rid r Hne Hr) as (r2 & Hr2 & He2). destruct (H2 rid r2 Hne Hr2) as (r3 & Hr3 & He3).
  exists r3. split; [done|by etrans].
Qed.

Lemma calm_grows {A} rid0 (c : PyM manager A) : keeps calm c -> keeps (grows rid0) c.
Proof. intros Hc. apply (keeps_impl _ calm); [done|]. intros m m' [Hs He]. split; [done|]. intros rid r _. apply He. Qed.

Lemma reserve_result body ws t p key tk m x m' :
  RunManager.reserve has_idempotency posture sha256 body ws t p key tk m = (Ret (inl x), m') -> x = tk_run_id tk.
Proof.
  unfold RunManager.reserve. destruct (has_idempotency && truthy key); [|by intros [= <- _]].
  cbv [mbind PyM_bind mret PyM_ret py_raise py_lift].
  destruct (RunManager.on_idempotency _ m) as [[[[] r]|e] m1]; [by intros [= <- _]| |done|done].
  by destruct (managed_run_post_init _ _).
Qed.

Lemma calm_reserve body ws t p key tk : keeps calm (RunManager.reserve has_idempotency posture sha256 body ws t p key tk).
Proof. unfold RunManager.reserve. calm_tac. Qed.

Lemma calm_persist run body ws t p tk : keeps calm (RunManager.persist_run durable has_store posture run body ws t p tk).
Proof. unfold RunManager.persist_run. calm_tac. Qed.

Lemma insert_run_grows run task ws t : keeps (grows (mr_run_id run)) (RunManager.insert_run has_idempotency run task ws t).
Proof.
  unfold RunManager.insert_run. apply keeps_get_bind. intros m. destruct (negb _ && _).
  - revert m. match goal with |- forall m, grows _ m (?c m).2 => change (keeps (grows (mr_run_id run)) c) end.
    apply calm_grows. calm_tac.
  - split; [done|]. intros rid r Hne Hr. exists r. simpl. by rewrite od_get_set_ne.
Qed.

Lemma create_run_grows body ws tk : keeps (grows (tk_run_id tk))
  (RunManager.create_run durable has_store has_idempotency has_events posture sha256 body ws tk).
Proof.
  unfold RunManager.create_run. repeat (apply keeps_bind; [apply _|apply keeps_lift; apply _|intros ?]).
  apply keeps_bind_result; [apply _|apply calm_grows, calm_reserve|].
  intros [x|stub] m m' Hx; [|apply keeps_ret; apply _]. apply reserve_result in Hx as ->.
  apply keeps_bind_result; [apply _|apply keeps_lift; apply _|]. intros run m1 m1' Hrun.
  assert (mr_run_id run = tk_run_id tk) as Hid.
  { unfold py_lift, managed_run_post_init in Hrun. destruct (require_fields _ _ _); [|done].
    injection Hrun as <- _. done. }
  apply keeps_bind; [apply _|apply keeps_lift; apply _|intros task].
  apply keeps_bind; [apply _|rewrite <-Hid; apply insert_run_grows|intros _].
  apply calm_grows. pose proof calm_persist. calm_tac.
Qed.

Lemma create_run_evolves body ws tk m : od_get (tk_run_id tk) (m_runs m) = None ->
  evolves m (RunManager.create_run durable has_store has_idempotency has_events posture sha256 body ws tk m).2.
Proof.
  intros Hf rid r Hr. destruct (create_run_grows body ws tk m) as [_ Hg]. apply Hg; [congruence|done].
Qed.

(** Systems ************************************************************************)

Abbreviation mgr := RunManager.s_mgr.
Abbreviation threads := RunManager.s_threads.
Abbreviation wkr := RunManager.s_worker.
Abbreviation thread_step := (RunManager.thread_step queue_size durable has_store has_idempotency has_events lease_timeout posture
  float_repr iso_of_ts elapsed get_fallback_events).
Abbreviation worker_step := (RunManager.worker_step durable lease_timeout posture).

Definition slots_inv (s : RunManager.system) : Prop :=
  m_permits (mgr s) + slots (threads s) + worker_slot (wkr s) = max_concurrent /\
  m_active_count (mgr s) = Z.of_nat (counts (threads s)).

Definition sys_load (rid : string) (s : RunManager.system) : nat :=
  load rid (mgr s) + sum_list_with (owes rid) (threads s) + worker_owes rid (wkr s).

(** A step of a thread, in one form. *)
Lemma thread_step_eq i tk o s t : threads s !! i = Some t ->
  exists stopped, thread_step i tk o s =
    let '(r, m) := block i stopped tk o t (mgr s) in
    let '(t', new) := block_end t r in RunManager.mkSys m (<[i := t']> (threads s) ++ new) (wkr s).
Proof.
  intros Hi. unfold RunManager.thread_step. rewrite Hi.
  exists (match t with THeart _ owner => RunManager.past_try (threads s !! owner) | _ => false end). cbv zeta.
  destruct (block i _ tk o t (mgr s)) as [[[t' new]|e] m]; simpl; [done|]. by rewrite app_nil_r.
Qed.

Lemma thread_step_accounts i tk o s : (threads s !! i = None /\ thread_step i tk o s = s) \/
  exists t t' new, threads s !! i = Some t /\ threads (thread_step i tk o s) = <[i := t']> (threads s) ++ new /\
    wkr (thread_step i tk o s) = wkr s /\ accounts (mgr s) t (mgr (thread_step i tk o s)) t' new.
Proof.
  destruct (threads s !! i) as [t|] eqn:Hi; [right|left; unfold RunManager.thread_step; by rewrite Hi].
  destruct (thread_step_eq i tk o s t Hi) as [stopped ->]. pose proof (block_accounts i stopped tk o t (mgr s)) as Ha.
  destruct (block i stopped tk o t (mgr s)) as [r m]. destruct (block_end t r) as [t' new] eqn:He.
  exists t, t', new. by split_and!.
Qed.

Lemma worker_step_accounts b tk s : (wkr s = None /\ worker_step b tk s = s) \/
  exists w new, wkr s = Some w /\ threads (worker_step b tk s) = threads s ++ new /\
    worker_accounts (mgr s) w (mgr (worker_step b tk s)) (wkr (worker_step b tk s)) new.
Proof.
  unfold RunManager.worker_step. destruct (wkr s) as [w|] eqn:Hw; [right|by left].
  pose proof (worker_block_accounts b tk w (mgr s)) as Ha. destruct (worker_block b tk w (mgr s)) as [[[w' new]|e] m]; simpl in *.
  - by exists w, new.
  - exists w, []. by rewrite app_nil_r.
Qed.

(** The steps of clients: they start threads that hold no slot. *)
Definition client_accounts (s s' : RunManager.system) (started : string -> nat) : Prop :=
  exists new, threads s' = threads s ++ new /\ slots new = 0 /\ counts new = 0 /\
    m_permits (mgr s') = m_permits (mgr s) /\ m_active_count (mgr s') = m_active_count (mgr s) /\
    worker_slot (wkr s') = worker_slot (wkr s) /\
    forall rid, load rid (mgr s') + sum_list_with (owes rid) new + worker_owes rid (wkr s') <=
      load rid (mgr s) + worker_owes rid (wkr s) + started rid.

Definition started (l : RunManager.label) (rid : string) : nat :=
  match l with RunManager.LStart r => if decide (r = rid) then 1 else 0 | _ => 0 end.

Lemma client_calm s m' new started : same_control (mgr s) m' -> slots new = 0 -> counts new = 0 ->
  (forall rid, sum_list_with (owes rid) new <= started rid) ->
  client_accounts s (RunManager.mkSys m' (threads s ++ new) (wkr s)) started.
Proof.
  intros Hc Hs Hn Ho. exists new. destruct (control_counts _ _ Hc) as [Hp Ha]. split_and!; try done.
  intros rid. simpl. rewrite (load_control rid _ _ Hc). specialize (Ho rid). lia.
Qed.

(** A call that only runs code on the manager. *)
Lemma client_on_mgr {A} s (c : PyM manager A) started : same_control (mgr s) (c (mgr s)).2 ->
  client_accounts s (RunManager.on_mgr c s) started.
Proof.
  intros Hc. unfold RunManager.on_mgr. rewrite <-(app_nil_r (threads s)). apply client_calm; try done. intros rid. simpl. lia.
Qed.

Lemma client_start s rid : client_accounts s (step s (RunManager.LStart rid)) (started (RunManager.LStart rid)).
Proof.
  cbn [RunManager.step]. destruct (RunManager.start_check rid (mgr s)).1 as [[]|].
  2,3: destruct s as [m ts w]; rewrite <-(app_nil_r ts) at 2; apply client_calm; try done; intros rid'; simpl; lia.
  exists [if durable then TPend rid else TSeq rid]. unfold RunManager.spawn, RunManager._ensure_worker_started.
  destruct (wkr s) as [w|] eqn:Hw; simpl; rewrite ?Hw; (split_and!; [done|by destruct durable|by destruct durable|done|done|done|]).
  - intros rid'. destruct durable; simpl; lia.
  - intros rid'. unfold load. simpl. destruct durable; simpl; lia.
Qed.

Lemma client_step s l : match l with RunManager.LThread _ _ _ | RunManager.LWorker _ _ => False | _ => True end ->
  client_accounts s (step s l) (started l).
Proof.
  intros Hl. destruct l as [body ws tk|rid|rid ws tk|rid token|rid|ev tk| | | |]; try done; cbn [RunManager.step].
  - apply client_on_mgr. apply (create_run_grows body ws tk).
  - apply client_start.
  - pose proof (calm_cancel_state rid ws tk (mgr s)) as [Hc _].
    destruct (RunManager.cancel_state rid ws tk (mgr s)).1 as [[]|]; [|by apply client_on_mgr..].
    apply (client_calm s _ [TCancelQueue rid]); try done.
  - by apply client_on_mgr.
  - by apply client_on_mgr.
  - apply client_on_mgr. apply (calm_on_stage_event ev tk).
  - exists [TShutdown]. split_and!; try done. intros rid. unfold load. simpl.
    rewrite (decide_False (P := rid ∈ (∅ : gset string))) by set_solver. destruct (decide (rid ∈ m_pending_executors _)); lia.
  - exists []. unfold RunManager.on_mgr, RunManager.drain. simpl. rewrite app_nil_r. split_and!; try done.
    intros rid. unfold load. simpl. lia.
Qed.

Lemma step_slots s l : slots_inv s -> slots_inv (step s l).
Proof.
  intros [Hp Ha]. assert (forall s', client_accounts s s' (started l) -> slots_inv s') as Hclient.
  { intros s' (new & Ht & Hs & Hn & Hp' & Ha' & Hw & _). split.
    - rewrite Hp', Hw, Ht, sum_app. lia.
    - rewrite Ha', Ht, sum_app. lia. }
  destruct l; try (apply Hclient, client_step; done).
  - cbn [RunManager.step]. destruct (thread_step_accounts i tk o s) as [[_ ->]|(t & t' & new & Hi & Ht & Hw & Hp' & Ha' & _)]; [done|].
    pose proof (sum_insert slot (threads s) i t t' Hi). pose proof (sum_insert counted (threads s) i t t' Hi).
    split; rewrite ?Ht, ?Hw, !sum_app; lia.
  - cbn [RunManager.step]. destruct (worker_step_accounts timed_out tk s) as [[_ ->]|(w & new & Hw & Ht & Hp' & Ha' & Hn & _)]; [done|].
    rewrite Hw in Hp. split; rewrite ?Ht, !sum_app; lia.
Qed.

Lemma step_load rid s l : sys_load rid (step s l) <= sys_load rid s + started l rid.
Proof.
  unfold sys_load. assert (forall s', client_accounts s s' (started l) -> sys_load rid s' <= sys_load rid s + started l rid) as Hclient.
  { intros s' (new & Ht & _ & _ & _ & _ & _ & Ho). unfold sys_load. rewrite Ht, sum_app. specialize (Ho rid). lia. }
  destruct l; try (apply Hclient, client_step; done).
  - cbn [RunManager.step]. destruct (thread_step_accounts i tk o s) as [[_ ->]|(t & t' & new & Hi & Ht & Hw & _ & _ & Ho)]; [simpl; lia|].
    pose proof (sum_insert (owes rid) (threads s) i t t' Hi). specialize (Ho rid). rewrite Ht, Hw, sum_app. simpl. lia.
  - cbn [RunManager.step]. destruct (worker_step_accounts timed_out tk s) as [[_ ->]|(w & new & Hw & Ht & _ & _ & _ & Ho)]; [simpl; lia|].
    specialize (Ho rid). rewrite Ht, Hw, sum_app. simpl started. lia.
Qed.

(** The runs of a system ***********************************************************)

(** A relation that code which schedules nothing keeps, and changes of the schedule too,
    is kept by every block but the call of an executor. *)
Section quiet.
Context (R : manager -> manager -> Prop) {HR : PreOrder R}.
Hypothesis Hcalm : forall m m', calm m m' -> R m m'.
Hypothesis Hsame : forall m m', m_runs m' = m_runs m -> m_executor_calls m' = m_executor_calls m -> R m m'.

Lemma calm_quiet {A} (c : PyM manager A) : keeps calm c -> keeps R c.
Proof. intros Hc. by apply (keeps_impl _ calm). Qed.

Lemma block_quiet self stopped tk o t : (forall rid, t <> TCall rid) -> keeps R (block self stopped tk o t).
Proof.
  intros Hcall. destruct (calm_thread t) eqn:Ht; [by apply calm_quiet, calm_block|].
  destruct t; try discriminate; cbn [RunManager.block]; unfold RunManager.goto;
    (apply keeps_bind; [apply _| |intros ?; repeat keeps_step]).
  - unfold RunManager.put_nowait. apply keeps_get_bind. intros m. destruct (negb _ && _); [reflexivity|]. by apply Hsame.
  - apply keeps_modify. intros m. by apply Hsame.
  - unfold RunManager.execute_begin, RunManager.enter.
    apply keeps_bind; [apply _|apply keeps_modify; intros m; by apply Hsame|intros _]. apply calm_quiet. calm_tac.
  - by destruct (Hcall rid).
  - unfold RunManager.execute_finally. apply keeps_bind; [apply _|apply keeps_modify; intros m; by apply Hsame|intros _].
    apply calm_quiet. auto with calm.
  - apply keeps_modify. intros m. by apply Hsame.
Qed.

Lemma result_quiet {A} (c : PyM manager A) m r m' : keeps calm c -> c m = (r, m') -> R m m'.
Proof. intros Hc Hr. specialize (Hc m). rewrite Hr in Hc. by apply Hcalm. Qed.

Lemma worker_quiet timed_out tk w : keeps R (worker_block timed_out tk w).
Proof.
  intros m. destruct w as [pc idle releases]. unfold RunManager.worker_block, RunManager.to_pc, RunManager.awake. cbn [w_pc w_idle w_releases].
  cbv [mbind PyM_bind mret PyM_ret py_get py_put py_raise].
  destruct pc; repeat (case_match; try reflexivity); simplify_eq/=;
    repeat match goal with H : _ ?m0 = (_, _) |- _ => apply result_quiet in H; [|solve [auto with calm]] end;
    first [reflexivity|by etrans|by apply Hsame].
Qed.

(** A step that is no call of an executor and no creation. *)
Lemma step_quiet s l :
  match l with
  | RunManager.LCreate _ _ _ => False
  | RunManager.LThread i _ _ => forall rid, threads s !! i <> Some (TCall rid)
  | _ => True
  end -> R (mgr s) (mgr (step s l)).
Proof.
  intros Hl. destruct l as [body ws tk|rid|rid ws tk|rid token|rid|ev tk|i tk o|b tk| |]; cbn [RunManager.step]; [done|..].
  - destruct (RunManager.start_check rid (mgr s)).1 as [[]|]; try reflexivity. unfold RunManager._ensure_worker_started.
    simpl. destruct (wkr s); [reflexivity|]. by apply Hsame.
  - pose proof (calm_cancel_state rid ws tk (mgr s)) as Hc%Hcalm.
    by destruct (RunManager.cancel_state rid ws tk (mgr s)).1 as [[]|].
  - by apply Hsame.
  - by apply Hsame.
  - apply Hcalm, (calm_on_stage_event ev tk).
  - destruct (threads s !! i) as [t|] eqn:Hi; [|unfold RunManager.thread_step; by rewrite Hi].
    destruct (thread_step_eq i tk o s t Hi) as [stopped ->].
    pose proof (block_quiet i stopped tk o t ltac:(intros rid ->; by apply (Hl rid)) (mgr s)) as He.
    destruct (block i stopped tk o t (mgr s)) as [r m]. by destruct (block_end t r).
  - unfold RunManager.worker_step. destruct (wkr s) as [w|]; [|reflexivity]. pose proof (worker_quiet b tk w (mgr s)) as He.
    by destruct (worker_block b tk w (mgr s)) as [[[]|] m].
  - by apply Hsame.
  - by apply Hsame.
Qed.
End quiet.

(** A new run has an id no run has. *)
Definition fresh (s : RunManager.system) (l : RunManager.label) : Prop :=
  match l with RunManager.LCreate _ _ tk => od_get (tk_run_id tk) (m_runs (mgr s)) = None | _ => True end.

(** The call of an executor only records itself. *)
Lemma call_step i tk o s rid : threads s !! i = Some (TCall rid) -> mgr (thread_step i tk o s) = called (mgr s) rid.
Proof.
  intros Hi. destruct (thread_step_eq i tk o s _ Hi) as [stopped ->]. cbn.
  destruct o as [|e text]; [done|]. by destruct (is_exception e).
Qed.

Lemma step_evolves s l : fresh s l -> evolves (mgr s) (mgr (step s l)).
Proof.
  intros Hf. destruct l as [body ws tk| | | | | |i tk o| | |] eqn:Hl; [by apply create_run_evolves| | | | | | | | |];
    try (apply (step_quiet evolves); [by intros m m' []|by intros; apply evolves_same|done]).
  destruct (threads s !! i) as [[]|] eqn:Hi; try (apply (step_quiet evolves);
    [by intros m m' []|by intros; apply evolves_same|intros rid' Hr; congruence]).
  cbn [RunManager.step]. rewrite (call_step i tk o s rid Hi). by apply evolves_same.
Qed.

Fixpoint all_fresh (s : RunManager.system) (ls : list RunManager.label) : Prop :=
  match ls with [] => True | l :: ls => fresh s l /\ all_fresh (step s l) ls end.

Lemma labels_evolve ls : forall s, all_fresh s ls -> evolves (mgr s) (mgr (run_labels s ls)).
Proof.
  induction ls as [|l ls IH]; intros s; [done|]. intros [Hf Hfs]. etrans; [by apply step_evolves|]. by apply IH.
Qed.

(** Calls of executors, and dead threads *******************************************)

Definition same_calls (m m' : manager) : Prop := m_executor_calls m' = m_executor_calls m.
#[local] Instance same_calls_pre : PreOrder same_calls.
Proof. split; [done|]. intros x y z. unfold same_calls. congruence. Qed.

Lemma calm_calls m m' : calm m m' -> same_calls m m'.
Proof. intros [Hc _]. unfold same_control, control in Hc. unfold same_calls. by injection Hc. Qed.

Lemma step_calls s l : (forall i rid, threads s !! i = Some (TCall rid) -> False) ->
  m_executor_calls (mgr (step s l)) = m_executor_calls (mgr s).
Proof.
  intros Hn. destruct l as [body ws tk| | | | | |i tk o| | |].
  1: { destruct (create_run_grows body ws tk (mgr s)) as [Hc _]. unfold same_control, control in Hc. by injection Hc. }
  all: apply (step_quiet same_calls calm_calls); try done. intros rid Hi. by apply (Hn i rid).
Qed.

Definition dead_slot (t : thread) : nat := match t with TDead true _ _ _ => 1 | _ => 0 end.
Abbreviation dead_slots ts := (sum_list_with dead_slot ts).

Lemma dead_slot_le t : dead_slot t <= slot t.
Proof. by destruct t as [| | | | | | | | | | | | | | | | | | | | | | | | | | | | | | | | |[] ? ? ?]; simpl; lia. Qed.

Lemma dead_stays i s l b c rid e : threads s !! i = Some (TDead b c rid e) -> threads (step s l) !! i = Some (TDead b c rid e).
Proof.
  intros Hi. assert (forall s', client_accounts s s' (started l) -> threads s' !! i = Some (TDead b c rid e)) as Hclient.
  { intros s' (new & -> & _). by apply lookup_app_l_Some. }
  destruct l as [| | | | | |j tk o|w tk| |]; try (apply Hclient, client_step; done); cbn [RunManager.step].
  - destruct (threads s !! j) as [t|] eqn:Hj; [|unfold RunManager.thread_step; by rewrite Hj].
    destruct (thread_step_eq j tk o s t Hj) as [stopped ->]. destruct (decide (i = j)) as [<-|Hne].
    + rewrite Hi in Hj. injection Hj as <-. cbn. rewrite app_nil_r. rewrite list_lookup_insert_eq; [done|]. by apply lookup_lt_Some in Hi.
    + destruct (block j stopped tk o t (mgr s)) as [r m]. destruct (block_end t r) as [t' new]. cbn.
      apply lookup_app_l_Some. by rewrite list_lookup_insert_ne.
  - destruct (worker_step_accounts w tk s) as [[_ ->]|(w0 & new & _ & -> & _)]; [done|]. by apply lookup_app_l_Some.
Qed.

Lemma dead_slots_mono s l : dead_slots (threads s) <= dead_slots (threads (step s l)).
Proof.
  assert (forall s', client_accounts s s' (started l) -> dead_slots (threads s) <= dead_slots (threads s')) as Hclient.
  { intros s' (new & -> & _). rewrite sum_app. lia. }
  destruct l as [| | | | | |j tk o|w tk| |]; try (apply Hclient, client_step; done); cbn [RunManager.step].
  - destruct (threads s !! j) as [t|] eqn:Hj; [|unfold RunManager.thread_step; by rewrite Hj].
    destruct (thread_step_eq j tk o s t Hj) as [stopped ->]. destruct (decide (dead_slot t = 0)) as [Ht|Ht].
    + destruct (block j stopped tk o t (mgr s)) as [r m]. destruct (block_end t r) as [t' new]. cbn.
      pose proof (sum_insert dead_slot (threads s) j t t' Hj). rewrite sum_app. lia.
    + destruct t; try done. cbn. rewrite app_nil_r. pose proof (sum_insert dead_slot (threads s) j _ (TDead slot0 counted0 rid e) Hj). lia.
  - destruct (worker_step_accounts w tk s) as [[_ ->]|(w0 & new & _ & -> & _)]; [done|]. rewrite sum_app. lia.
Qed.

(** With every slot held by dead threads nothing runs. *)
Definition wedged (s : RunManager.system) : Prop := slots_inv s /\ max_concurrent <= dead_slots (threads s).

Lemma wedged_step s l : wedged s -> wedged (step s l) /\ m_executor_calls (mgr (step s l)) = m_executor_calls (mgr s).
Proof.
  intros [Hs Hd]. split; [split; [by apply step_slots|]; pose proof (dead_slots_mono s l); lia|].
  apply step_calls. intros i rid Hi. destruct Hs as [Hp _].
  assert (forall ts, ts !! i = Some (TCall rid) -> dead_slots ts < slots ts) as Hlt; [|specialize (Hlt _ Hi); lia].
  clear. intros ts. revert i. induction ts as [|t ts IH]; intros [|i]; simpl; try done.
  - intros [= ->]. simpl. assert (forall ts, dead_slots ts <= slots ts) as Hle; [|specialize (Hle ts); lia].
    clear. induction ts as [|t ts IH]; simpl; [done|]. pose proof (dead_slot_le t). lia.
  - intros Hi%IH. pose proof (dead_slot_le t). lia.
Qed.

End slots.
