(* ===== verification/RunManagerProps.v ===== *)
(** * Properties of the run manager

    The guarantees of [RunManager] over every sequence of steps, from the accounts and
    relations of [RunManagerSpec]: slots, calls of executors, lives of runs, how an
    execution ends, the rules of [create_run], and what cancelling a queued run or a
    strict posture does to the slots. *)

From stdpp Require Import base tactics option list sorting strings gmap relations.
From Stdlib Require Import ZArith.
From S2P Require Import Prelude PyStr PyDict PyVal Json RunContext SqlTable RunQueue Idempotency RunState RunStore EventStore.
From S2P Require Import RunManager RunManagerSpec.
#[local] Arguments String.append : simpl nomatch.

Section properties.
Context (max_concurrent queue_size : nat) (durable has_store has_idempotency has_events : bool)
  (lease_timeout : Z) (posture : outcome Posture) (sha256 float_repr : string -> string)
  (iso_of_ts : Z -> string) (elapsed : Z -> Z -> pyval) (get_fallback_events : string -> list pyval).

Abbreviation block := (RunManager.block queue_size durable has_store has_idempotency has_events lease_timeout posture
  float_repr iso_of_ts elapsed get_fallback_events).
Abbreviation step := (RunManager.step queue_size durable has_store has_idempotency has_events lease_timeout posture
  sha256 float_repr iso_of_ts elapsed get_fallback_events).
Abbreviation run_labels := (RunManager.run_labels queue_size durable has_store has_idempotency has_events lease_timeout
  posture sha256 float_repr iso_of_ts elapsed get_fallback_events).
Abbreviation start := (RunManager.start max_concurrent).
Abbreviation mgr := RunManager.s_mgr.
Abbreviation threads := RunManager.s_threads.
Abbreviation wkr := RunManager.s_worker.
Abbreviation slots_inv := (slots_inv max_concurrent).
Abbreviation wedged := (wedged max_concurrent).
Abbreviation all_fresh := (all_fresh queue_size durable has_store has_idempotency has_events lease_timeout posture
  sha256 float_repr iso_of_ts elapsed get_fallback_events).

Lemma start_slots store idem rq events : slots_inv (start store idem rq events).
Proof. split; simpl; [lia|done]. Qed.

Lemma labels_slots ls : forall s, slots_inv s -> slots_inv (run_labels s ls).
Proof. induction ls as [|l ls IH]; intros s Hs; [done|]. by apply IH, step_slots. Qed.

Lemma labels_load rid ls : forall s, sys_load rid (run_labels s ls) <= sys_load rid s + sum_list_with (fun l => started l rid) ls.
Proof.
  induction ls as [|l ls IH]; intros s; simpl; [lia|]. specialize (IH (step s l)).
  pose proof (step_load queue_size durable has_store has_idempotency has_events lease_timeout posture sha256 float_repr
    iso_of_ts elapsed get_fallback_events rid s l). lia.
Qed.

(** Threads inside an executor. *)
Definition executing (t : thread) : nat := match t with TCall _ => 1 | _ => 0 end.

Lemma executing_le ts : sum_list_with executing ts <= sum_list_with slot ts /\ sum_list_with counted ts <= sum_list_with slot ts.
Proof.
  induction ts as [|t ts [IH1 IH2]]; simpl; [done|].
  assert (executing t <= slot t /\ counted t <= slot t) as [H1 H2]; [|lia].
  by destruct t as [| | | | | | | | | | | | | | | | | | | | | | | | | | | | | | | | |[] [] ? ?]; simpl; lia.
Qed.

(** C5: The slots of the semaphore are accounted for in every state the manager can
    reach, whatever clients, threads and executors do: the free slots, those held by
    threads (the dead included) and by the worker are [max_concurrent] together, so at
    most [max_concurrent] executors run at a time, and the active count is the number of
    threads between entering and leaving an execution, between 0 and [max_concurrent]. *)
Theorem slots_bounded store idem rq events ls :
  let s := run_labels (start store idem rq events) ls in
  m_permits (mgr s) + sum_list_with slot (threads s) + worker_slot (wkr s) = max_concurrent /\
  sum_list_with executing (threads s) <= max_concurrent /\
  m_active_count (mgr s) = Z.of_nat (sum_list_with counted (threads s)) /\
  (0 <= m_active_count (mgr s) <= Z.of_nat max_concurrent)%Z.
Proof.
  cbv zeta. destruct (labels_slots ls _ (start_slots store idem rq events)) as [Hp Ha].
  destruct (executing_le (threads (run_labels (start store idem rq events) ls))) as [He Hc]. split_and!; lia.
Qed.

(** C6: An executor is called at most as often as its run was started: in every state
    the manager can reach, with the in-memory queue or the durable one, the calls made
    for a run and those still to come (its queue items, pending executors and threads
    that have not called yet) are at most the calls of [start_run] for it. *)
Theorem executor_per_start store idem rq events ls rid :
  let s := run_labels (start store idem rq events) ls in
  calls_of rid (m_executor_calls (mgr s)) <= sum_list_with (fun l => started l rid) ls /\
  sys_load rid s <= sum_list_with (fun l => started l rid) ls.
Proof.
  cbv zeta. pose proof (labels_load rid ls (start store idem rq events)) as Hl.
  assert (sys_load rid (start store idem rq events) = 0) as H0 by done.
  assert (calls_of rid (m_executor_calls (mgr (run_labels (start store idem rq events) ls))) <=
    sys_load rid (run_labels (start store idem rq events) ls)) by (unfold sys_load, load; lia). lia.
Qed.

Lemma legal_terminal s t : s ∈ _TERMINAL_STATES -> rtc legal s t -> t = s.
Proof. intros Hs Hr. destruct Hr as [|s u t Hsu _]; [done|]. by apply legal_not_terminal in Hsu. Qed.

Lemma legal_rank_rtc s t : rtc legal s t -> s = t \/ state_rank t < state_rank s.
Proof.
  intros Hr. induction Hr as [|s u t Hsu _ IH]; [by left|right]. apply legal_rank in Hsu. destruct IH as [<-|]; lia.
Qed.

Lemma labels_app ls1 ls2 s : run_labels s (ls1 ++ ls2) = run_labels (run_labels s ls1) ls2.
Proof. apply foldl_app. Qed.

(** C10: The life of a run.  Whatever happens after a run is registered, other runs being
    created under fresh ids, it stays registered with the identity, tenant and contract it
    was created with; its state only moves along the legal graph; once it is terminal it
    never changes, and the time it finished is written once. *)
Theorem run_life s ls rid r : all_fresh s ls -> od_get rid (m_runs (mgr s)) = Some r ->
  exists r', od_get rid (m_runs (mgr (run_labels s ls))) = Some r' /\ mr_spec r' = mr_spec r /\
    rtc legal (mr_state r) (mr_state r') /\ (mr_state r = mr_state r' \/ state_rank (mr_state r') < state_rank (mr_state r)) /\
    (is_terminal (mr_state r) = true -> mr_state r' = mr_state r) /\
    (mr_finished_at r <> None -> mr_finished_at r' = mr_finished_at r).
Proof.
  intros Hf Hr. pose proof (labels_evolve queue_size durable has_store has_idempotency has_events lease_timeout posture
    sha256 float_repr iso_of_ts elapsed get_fallback_events ls s Hf rid r Hr) as (r' & Hr' & Hs & Hl & Hfin).
  exists r'. split_and!; try done.
  - by apply legal_rank_rtc.
  - intros Ht%bool_decide_eq_true. by apply legal_terminal.
Qed.

(** How an execution ends **********************************************************)

Definition registered (m : manager) (rid : string) : Prop := is_Some (od_get rid (m_runs m)).

(** The run is past [created]; its state is settled; its end is recorded. *)
Definition run_is (P : ManagedRun -> Prop) (m : manager) (rid : string) : Prop :=
  exists r, od_get rid (m_runs m) = Some r /\ P r.
Definition begun (r : ManagedRun) : Prop := mr_state r <> "created".
Definition settled (r : ManagedRun) : Prop := mr_state r ∉ ["created"; "running"].
Definition finished (r : ManagedRun) : Prop := mr_finished_at r <> None.

Lemma legal_to s t : legal s t -> t <> "created" /\ (t = "running" -> s = "created").
Proof.
  assert (forall s t, legal s t -> t <> "created" /\ (t <> "running" \/ s = "created")) as H; [|intros Hl%H; naive_solver].
  clear s t. legal_by_eval (fun s t : string => t <> "created" /\ (t <> "running" \/ s = "created")).
Qed.

Lemma early_not_terminal s : s ∈ _TERMINAL_STATES -> s <> "created" /\ s <> "running".
Proof.
  intros Hs. split; intros ->; revert Hs.
  - apply (bool_decide_eq_true_1 ("created" ∉ _TERMINAL_STATES)). vm_compute. reflexivity.
  - apply (bool_decide_eq_true_1 ("running" ∉ _TERMINAL_STATES)). vm_compute. reflexivity.
Qed.

Lemma begun_evolves r r' : run_evolves r r' -> begun r -> begun r'.
Proof.
  intros (_ & Hl & _). unfold begun. induction Hl as [s|s u t Hsu _ IH]; [done|]. intros _. apply IH. by apply legal_to in Hsu as [].
Qed.

Lemma settled_begun r : settled r -> begun r.
Proof. unfold settled, begun. set_solver. Qed.

Lemma settled_evolves r r' : run_evolves r r' -> settled r -> settled r'.
Proof.
  intros (_ & Hl & _). unfold settled. induction Hl as [s|s u t Hsu _ IH]; [done|]. intros Hs. apply IH.
  apply legal_to in Hsu as [Hu Hr]. intros [->|[->|[]%elem_of_nil]%elem_of_cons]%elem_of_cons; [done|].
  rewrite Hr in Hs by done. apply Hs. by left.
Qed.

Lemma finished_evolves r r' : run_evolves r r' -> finished r -> finished r'.
Proof. intros (_ & _ & Hf) Hr. unfold finished. by rewrite Hf. Qed.

Lemma run_is_evolves (P : ManagedRun -> Prop) m m' rid : (forall r r', run_evolves r r' -> P r -> P r') ->
  evolves m m' -> run_is P m rid -> run_is P m' rid.
Proof. intros HP He (r & Hr & Hp). destruct (He rid r Hr) as (r' & Hr' & Hev). exists r'. split; [done|by apply (HP r)]. Qed.

Lemma registered_evolves m m' rid : evolves m m' -> registered m rid -> registered m' rid.
Proof. intros He [r Hr]. destruct (He rid r Hr) as (r' & Hr' & _). by exists r'. Qed.

(** What a thread knows of its run. *)
Definition phase (m : manager) (t : thread) : Prop :=
  match t with
  | TSeq rid | TPut rid _ _ | TBegin rid => registered m rid
  | TMark rid | TLease rid | TAcquired rid | TStarted rid | TCall rid | TExcept rid _ _ => run_is begun m rid
  | TApply rid r => run_is begun m rid /\ er_status r <> Some "running"
  | TQueueEnd rid | TQueueFail rid _ => run_is settled m rid
  | TFinally rid x => registered m rid /\ (x = None -> run_is settled m rid)
  | TSync rid x | TRelease rid x | TFinal rid x | TTerminal rid x | TReplay rid x | TFinished rid x =>
      run_is finished m rid /\ (x = None -> run_is settled m rid)
  | TDead true _ rid _ => posture = Ret DEV -> run_is settled m rid
  | _ => True
  end.

Lemma phase_evolves m m' t : evolves m m' -> phase m t -> phase m' t.
Proof.
  intros He. assert (forall rid, run_is begun m rid -> run_is begun m' rid) as Hb by (intros rid; apply run_is_evolves; [apply begun_evolves|done]).
  assert (forall rid, run_is settled m rid -> run_is settled m' rid) as Hs by (intros rid; apply run_is_evolves; [apply settled_evolves|done]).
  assert (forall rid, run_is finished m rid -> run_is finished m' rid) as Hf by (intros rid; apply run_is_evolves; [apply finished_evolves|done]).
  pose proof (fun rid => registered_evolves m m' rid He) as Hr.
  destruct t; simpl; try naive_solver. destruct slot; naive_solver.
Qed.

(** The transition of a registered run. *)
Lemma transition_run rid t m m' : RunManager._transition_state rid t m = (Ret tt, m') ->
  exists r, od_get rid (m_runs m) = Some r /\ od_get rid (m_runs m') = Some (set_run_state (transition rid t (mr_state r)).2 r) /\
    (transition rid t (mr_state r)).1 = Ret tt.
Proof.
  unfold RunManager._transition_state, RunManager.run_object. cbv [mbind PyM_bind py_get mret PyM_ret].
  destruct (od_get rid (m_runs m)) as [r|] eqn:Hr; [|done].
  destruct (transition rid t (mr_state r)) as [[[]|e] s'] eqn:Ht; [|done]. unfold RunManager.assign, py_modify. rewrite Hr.
  intros [= <-]. exists r. split; [done|]. rewrite Ht. simpl. by rewrite od_get_set_eq.
Qed.

(** Code that returns. *)
Definition returns {A} (c : PyM manager A) (m : manager) : Prop := exists a m', c m = (Ret a, m').

Lemma returns_object rid m : registered m rid -> exists r, RunManager.run_object rid m = (Ret r, m) /\ od_get rid (m_runs m) = Some r.
Proof. intros [r Hr]. exists r. unfold RunManager.run_object. cbv [mbind PyM_bind py_get mret PyM_ret]. by rewrite Hr. Qed.

Lemma update_run_dev name f rid w t : exists t', RunStore.update_run (Ret DEV) name f rid w t = (Ret tt, t').
Proof.
  unfold RunStore.update_run, RunStore.put_rows. cbv [mbind PyM_bind py_lift py_modify].
  assert (exists x, _check_run_store_tenant_scope (Ret DEV) w name = Ret x) as [x ->]; [|by eexists].
  unfold _check_run_store_tenant_scope. case_decide; by eexists.
Qed.

Lemma on_store_returns {A} (c : PyM run_db A) m : (forall t, exists a t', c t = (Ret a, t')) -> returns (RunManager.on_store c) m.
Proof. intros Hc. destruct (Hc (m_run_store m)) as (a & t' & Ht). exists a, (set_run_store m t'). unfold RunManager.on_store, py_zoom. by rewrite Ht. Qed.

Lemma next_sequence_returns rid m : posture = Ret DEV -> returns (RunManager.next_sequence posture rid) m.
Proof.
  intros ->. unfold returns, RunManager.next_sequence. cbv [mbind PyM_bind py_get mret PyM_ret py_modify].
  destruct (od_mem rid (m_event_seqs m)); [by eexists _, _|].
  cbv [py_except RunManager.on_events py_zoom EventStore.max_sequence mbind PyM_bind py_get mret PyM_ret py_lift].
  cbn [is_strict]. destruct (decide (strip (default "" None) = "")); by eexists _, _.
Qed.

Lemma publish_returns rid ty d tk m : posture = Ret DEV -> registered m rid ->
  returns (RunManager._publish_run_event has_events posture rid ty d tk) m.
Proof.
  intros Hp Hr. unfold RunManager._publish_run_event. destruct has_events; [|by eexists _, _].
  destruct (returns_object rid m Hr) as (r & Ho & _). destruct (next_sequence_returns rid m Hp) as (seq & m1 & Hseq).
  unfold returns, mbind, PyM_bind. rewrite Ho, Hseq. unfold py_lift, event_post_init. rewrite Hp, require_fields_dev.
  cbn [mbind outcome_bind]. unfold py_suppress, py_except, RunManager.on_events, py_zoom, EventStore.append, py_modify. by eexists _, _.
Qed.

Lemma mark_returns rid tk m : posture = Ret DEV -> returns (RunManager.execute_mark has_store posture rid tk) m.
Proof.
  intros ->. unfold RunManager.execute_mark. destruct has_store; [|by eexists _, _].
  apply on_store_returns. intros t. unfold RunStore.mark_running. destruct (update_run_dev "mark_running" (set_record_running (tk_now tk)) rid None t) as [t' Ht].
  by eexists _, _.
Qed.

Lemma sync_returns rid tk m : posture = Ret DEV -> registered m rid -> returns (RunManager.execute_sync has_store posture rid tk) m.
Proof.
  intros -> Hr. unfold RunManager.execute_sync. destruct has_store; [|by eexists _, _].
  destruct (returns_object rid m Hr) as (r & Ho & _). unfold returns, mbind, PyM_bind. rewrite Ho.
  destruct (decide (mr_state r = "completed")); [|destruct (decide (mr_state r = "cancelled"))]; apply on_store_returns; intros t;
    unfold RunStore.mark_complete, RunStore.mark_cancelled, RunStore.mark_failed;
    match goal with |- context [RunStore.update_run _ ?n ?f ?i ?w t] => destruct (update_run_dev n f i w t) as [t' ->] end; by eexists _, _.
Qed.

(** The states after the blocks that move a run. *)
Lemma begin_phase rid tk m m' : RunManager.execute_begin rid tk m = (Ret tt, m') -> run_is begun m' rid.
Proof.
  unfold RunManager.execute_begin. cbv [mbind PyM_bind RunManager.enter py_modify]. set (m1 := set_active _ _ _).
  destruct (RunManager._transition_state rid "running" m1) as [[[]|e] m2] eqn:Ht; [|done]. intros Hs.
  apply transition_run in Ht as (r & Hr & Hr2 & Hret).
  assert (run_is begun m2 rid) as Hb.
  { eexists. split; [exact Hr2|]. unfold begun. simpl. pose proof (transition_spec rid "running" (mr_state r)) as Hspec.
    destruct (transition rid "running" (mr_state r)) as [[[]|e] s']; [|done]. simpl.
    destruct Hspec as [[_ ->]|[-> [->|[Hter _]]]]; [done|done|]. by apply early_not_terminal in Hter as []. }
  revert Hb. apply run_is_evolves; [apply begun_evolves|].
  pose proof (calm_assign rid (set_started (tk_iso tk)) ltac:(intros x; by split_and!) m2) as [_ He]. by rewrite Hs in He.
Qed.

Lemma begin_refused rid tk m e m' : registered m rid -> RunManager.execute_begin rid tk m = (Raise e, m') -> run_is settled m' rid.
Proof.
  intros [r Hr]. unfold RunManager.execute_begin. cbv [mbind PyM_bind RunManager.enter py_modify]. set (m1 := set_active _ _ _).
  unfold RunManager._transition_state, RunManager.run_object. cbv [mbind PyM_bind py_get mret PyM_ret]. change (m_runs m1) with (m_runs m).
  rewrite Hr. pose proof (transition_spec rid "running" (mr_state r)) as Hspec.
  destruct (transition rid "running" (mr_state r)) as [[[]|e'] s'].
  - unfold RunManager.assign at 1, py_modify at 1. by destruct (od_get rid (m_runs m1)).
  - intros [= <- <-]. exists r. split; [done|]. destruct Hspec as (_ & _ & Hl & Hne & _). unfold settled.
    intros [Hc|[Hc|[]%not_elem_of_nil]%elem_of_cons]%elem_of_cons; [|done]. apply Hl. rewrite Hc.
    apply (bool_decide_eq_true_1 (legal "created" "running")). vm_compute. reflexivity.
Qed.

Lemma settle_phase rid t m m' : run_is begun m rid -> t <> "running" ->
  RunManager._transition_state rid t m = (Ret tt, m') -> run_is settled m' rid.
Proof.
  intros (r0 & Hr0 & Hb) Ht Hm. apply transition_run in Hm as (r & Hr & Hr2 & Hret). rewrite Hr0 in Hr. injection Hr as <-.
  eexists. split; [exact Hr2|]. unfold settled. simpl. pose proof (transition_spec rid t (mr_state r0)) as Hspec.
  destruct (transition rid t (mr_state r0)) as [[[]|e] s']; [|done]. simpl. unfold begun in Hb.
  destruct Hspec as [[Hl ->]|[-> [Heq|[Hter _]]]].
  - apply legal_to in Hl as [Hc _]. intros [|[|[]%not_elem_of_nil]%elem_of_cons]%elem_of_cons; congruence.
  - intros [|[|[]%not_elem_of_nil]%elem_of_cons]%elem_of_cons; congruence.
  - intros [Hs|[Hs|[]%not_elem_of_nil]%elem_of_cons]%elem_of_cons; apply early_not_terminal in Hter as []; congruence.
Qed.

Lemma apply_phase rid r tk m m' : run_is begun m rid -> er_status r <> Some "running" ->
  RunManager.execute_apply rid r tk m = (Ret tt, m') -> run_is settled m' rid.
Proof.
  intros Hb Hst. unfold RunManager.execute_apply. unfold mbind at 1, PyM_bind at 1.
  destruct (RunManager._transition_state rid (RunManager.result_state r) m) as [[[]|e] m2] eqn:Ht; [|done]. intros Hm.
  assert (run_is settled m2 rid) as Hs.
  { apply (settle_phase rid (RunManager.result_state r) m); [done| |done]. unfold RunManager.result_state. destruct (er_status r) as [st|]; [|done].
    repeat case_decide; congruence. }
  revert Hs. apply run_is_evolves; [apply settled_evolves|].
  match type of Hm with ?c m2 = _ => assert (keeps calm c) as Hc by calm_tac; destruct (Hc m2) as [_ He]; by rewrite Hm in He end.
Qed.

Lemma fail_phase rid text tk m m' : run_is begun m rid -> RunManager.fail_run rid text tk m = (Ret tt, m') -> run_is settled m' rid.
Proof.
  intros Hb. unfold RunManager.fail_run. unfold mbind at 1, PyM_bind at 1.
  destruct (RunManager._transition_state rid "failed" m) as [[[]|e] m2] eqn:Ht; [|done]. intros Hm.
  assert (run_is settled m2 rid) as Hs by by apply (settle_phase rid "failed" m).
  revert Hs. apply run_is_evolves; [apply settled_evolves|].
  match type of Hm with ?c m2 = _ => assert (keeps calm c) as Hc by calm_tac; destruct (Hc m2) as [_ He]; by rewrite Hm in He end.
Qed.

Lemma finally_phase rid tk m m' : registered m rid -> RunManager.execute_finally rid tk m = (Ret tt, m') -> run_is finished m' rid.
Proof.
  intros [r Hr]. unfold RunManager.execute_finally, RunManager.assign. cbv [mbind PyM_bind py_modify]. simpl. rewrite Hr.
  intros [= <-]. eexists. simpl. rewrite od_get_set_eq. split; [done|]. unfold finished. by destruct (mr_finished_at r) eqn:Hf; simpl; rewrite ?Hf.
Qed.

Lemma block_evolves self stopped tk o t : keeps evolves (block self stopped tk o t).
Proof.
  destruct t; try (apply (block_quiet queue_size durable has_store has_idempotency has_events lease_timeout posture float_repr
    iso_of_ts elapsed get_fallback_events evolves); [by intros m m' []|by intros; apply evolves_same|done]).
  cbn [RunManager.block]. unfold RunManager.goto. apply keeps_bind; [apply _|apply keeps_modify; intros m; by apply evolves_same|].
  intros _. repeat keeps_step.
Qed.

Definition honest_outcome (o : exec_outcome) : Prop :=
  match o with Returned r => er_status r <> Some "running" | Raised _ _ => True end.

Lemma run_is_registered P m rid : run_is P m rid -> registered m rid.
Proof. intros (r & Hr & _). by exists r. Qed.

Lemma settled_is_begun m rid : run_is settled m rid -> run_is begun m rid.
Proof. intros (r & Hr & Hs). exists r. split; [done|by apply settled_begun]. Qed.

(** Where a block leaves its thread, when what it does to the manager is known. *)
Ltac phase_cases :=
  cbn [RunManager.block]; unfold RunManager.goto; cbv [mbind PyM_bind mret PyM_ret py_modify];
  repeat (case_match; simplify_eq/=).

Lemma block_phase self stopped tk o t m : phase m t -> honest_outcome o ->
  let '(r, m') := block self stopped tk o t m in
  let '(t', new) := block_end t r in phase m' t' /\ Forall (phase m') new.
Proof.
  intros Ht Ho. pose proof (block_evolves self stopped tk o t m) as He.
  pose proof (fun rid => run_is_evolves begun _ _ rid begun_evolves He) as Hb.
  pose proof (fun rid => run_is_evolves settled _ _ rid settled_evolves He) as Hs.
  pose proof (fun rid => run_is_evolves finished _ _ rid finished_evolves He) as Hf.
  pose proof (fun rid => registered_evolves _ _ rid He) as Hr.
  revert He Hb Hs Hf Hr. destruct t; phase_cases; intros He Hb Hs Hf Hr; simpl in Ht, Ho |- *;
    try (by split; [|constructor]); (split; [|by constructor]);
    try solve [done | by apply Hb | by apply Hs | by apply Hr | destruct Ht as [Ht1 Ht2]; split; [auto|intros ?; auto]];
    repeat match goal with a : unit |- _ => destruct a end.
  - by apply (begin_phase rid tk m).
  - intros _. by apply (begin_refused rid tk m e).
  - intros Hp. destruct (mark_returns rid tk m Hp) as (? & ? & ?). congruence.
  - intros Hp. destruct (publish_returns rid "lease_acquired" [("worker_id", PStr "run_manager"); ("state", PStr "running")] tk m Hp
      (run_is_registered _ _ _ Ht)) as (? & ? & ?). unfold RunManager.execute_acquired in *. congruence.
  - intros Hp. assert (returns (RunManager.execute_started has_events posture rid tk) m) as (? & ? & ?); [|congruence].
    unfold RunManager.execute_started. destruct (returns_object rid m (run_is_registered _ _ _ Ht)) as (r & Hobj & _).
    unfold returns, mbind, PyM_bind. rewrite Hobj. apply publish_returns; [done|by apply (run_is_registered begun)].
  - split; [by apply (run_is_registered begun)|done].
  - destruct Ht. by apply (apply_phase rid r tk m).
  - destruct Ht. split; [by apply (run_is_registered begun), Hb|]. intros _. by apply (apply_phase rid r tk m).
  - by apply Hb, Ht.
  - split; [by apply (run_is_registered begun), Hb, Ht|done].
  - split; [by apply (run_is_registered settled), Hs, Ht|]. intros _. by apply Hs.
  - by apply settled_is_begun, Hs.
  - split; [by apply (run_is_registered settled), Hs, Ht|done].
  - by apply (fail_phase rid text tk m).
  - split; [by apply (run_is_registered begun), Hb, Ht|]. intros _. by apply (fail_phase rid text tk m).
  - split; [by apply (run_is_registered begun), Hb, Ht|done].
  - split; [by apply (run_is_registered settled), Hs, Ht|]. intros _. by apply Hs.
  - split; [by apply (run_is_registered settled), Hs, Ht|done].
  - destruct Ht as [Hreg Hx]. split; [by apply (finally_phase rid tk m)|]. intros Hl. by apply Hs, Hx.
  - intros Hp. destruct (sync_returns rid tk m Hp (run_is_registered _ _ _ (proj1 Ht))) as (? & ? & ?). congruence.
Qed.

(** Every run thread knows its phase, and everything that owes an execution to a run, or
    has made it, owes it to a registered one. *)
Abbreviation fresh := RunManagerSpec.fresh.

Definition honest (l : RunManager.label) : Prop :=
  match l with RunManager.LThread _ _ o => honest_outcome o | _ => True end.

Definition phases_inv (s : RunManager.system) : Prop :=
  Forall (phase (mgr s)) (threads s) /\ forall rid, 0 < sys_load rid s -> registered (mgr s) rid.

Lemma owed rid t ts : t ∈ ts -> owes rid t = 1 -> 0 < sum_list_with (owes rid) ts.
Proof.
  intros Ht Ho. apply list_elem_of_lookup in Ht as [i Hi]. pose proof (sum_elem (owes rid) ts i t Hi). lia.
Qed.

Lemma worker_new timed_out tk w m : 
  Forall (fun t => exists rid, t = TBegin rid) (worker_end (RunManager.worker_block durable lease_timeout posture timed_out tk w m).1).2.
Proof.
  destruct w as [pc idle releases]. unfold RunManager.worker_block, RunManager.to_pc, RunManager.awake. cbn [w_pc w_idle w_releases].
  cbv [mbind PyM_bind mret PyM_ret py_get py_put py_raise].
  destruct pc; repeat (case_match; try done); simplify_eq/=; repeat constructor. by eexists.
Qed.


Lemma registered_owed (s : RunManager.system) t rid : (forall rid, 0 < sys_load rid s -> registered (mgr s) rid) ->
  t ∈ threads s -> owes rid t = 1 -> registered (mgr s) rid.
Proof. intros Hl Ht Ho. apply Hl. unfold sys_load. pose proof (owed rid t _ Ht Ho). lia. Qed.

Abbreviation fresh_evolves := (RunManagerSpec.step_evolves queue_size durable has_store has_idempotency has_events lease_timeout
  posture sha256 float_repr iso_of_ts elapsed get_fallback_events).

Lemma step_registered s l : (forall rid, 0 < sys_load rid s -> registered (mgr s) rid) -> fresh s l ->
  forall rid, 0 < sys_load rid (step s l) -> registered (mgr (step s l)) rid.
Proof.
  intros Hl Hf rid Hrid. pose proof (fresh_evolves s l Hf) as He.
  pose proof (step_load queue_size durable has_store has_idempotency has_events lease_timeout posture sha256 float_repr
    iso_of_ts elapsed get_fallback_events rid s l) as Hle.
  destruct (decide (0 < sys_load rid s)) as [H0|H0]; [by apply (registered_evolves (mgr s)), Hl|].
  destruct l as [|r| | | | | | | |]; cbn [started] in Hle; try lia.
  destruct (decide (r = rid)) as [<-|]; [clear Hle|lia]. revert Hrid He. cbn [RunManager.step].
  unfold RunManager.start_check. cbv [mbind PyM_bind py_get mret PyM_ret]. cbn [fst].
  destruct (od_get r (m_runs (mgr s))) as [run|] eqn:Hr; [|lia]. intros _ He. apply (registered_evolves (mgr s)); [done|by exists run].
Qed.

(** The threads a step leaves, from what it adds and the thread it moves. *)
Lemma step_phases s l : phases_inv s -> fresh s l -> honest l -> phases_inv (step s l).
Proof.
  intros [Hp Hl] Hf Hh. pose proof (fresh_evolves s l Hf) as He. pose proof (step_registered s l Hl Hf) as Hl'. split; [|done].
  assert (Forall (phase (mgr (step s l))) (threads s)) as Hold.
  { apply (Forall_impl _ _ _ Hp). intros t. by apply phase_evolves. }
  assert (forall t r, t ∈ threads (step s l) -> owes r t = 1 -> registered (mgr (step s l)) r) as Hreg.
  { intros t r. by apply registered_owed. }
  clear Hl Hl'. destruct l as [body ws tk|r|rid ws tk|rid token|rid|ev tk|i tk o|b tk| |]; cbn [RunManager.step] in *; try done.
  - destruct (RunManager.start_check r (mgr s)).1 as [[]|]; try done. cbn [RunManager.spawn] in *.
    apply Forall_app. split; [by unfold RunManager._ensure_worker_started in *; destruct (wkr s)|].
    apply Forall_singleton. destruct durable eqn:Hd; [done|]. apply (Hreg (TSeq r)); [|simpl; by rewrite decide_True].
    apply elem_of_app. right. by apply list_elem_of_singleton.
  - destruct (RunManager.cancel_state rid ws tk (mgr s)).1 as [[]|]; try done. apply Forall_app. split; [done|]. by apply Forall_singleton.
  - destruct (threads s !! i) as [t|] eqn:Hi; [|unfold RunManager.thread_step in *; by rewrite Hi in *].
    revert Hold. destruct (thread_step_eq queue_size durable has_store has_idempotency has_events lease_timeout posture
      float_repr iso_of_ts elapsed get_fallback_events i tk o s t Hi) as [stopped ->].
    assert (phase (mgr s) t) as Ht by (by apply (Forall_lookup_1 _ _ _ _ Hp Hi)).
    pose proof (block_phase i stopped tk o t (mgr s) Ht Hh) as Hb.
    destruct (block i stopped tk o t (mgr s)) as [r m]. destruct (block_end t r) as [t' new]. destruct Hb as [Ht' Hnew].
    cbn. intros Hold. apply Forall_app. split; [|done]. by apply Forall_insert.
  - revert Hold Hreg. unfold RunManager.worker_step. destruct (wkr s) as [w|]; [|done].
    pose proof (worker_new b tk w (mgr s)) as Hn. destruct (RunManager.worker_block _ _ _ _ _ _ _) as [[[w' new]|e] m]; [|done].
    cbn in *. intros Hold Hreg. apply Forall_app. split; [done|]. apply Forall_forall. intros t Hin.
    rewrite Forall_forall in Hn. destruct (Hn t Hin) as [rid ->]. apply (Hreg (TBegin rid)); [|simpl; by rewrite decide_True].
    apply elem_of_app. by right.
  - apply Forall_app. split; [done|]. by apply Forall_singleton.
Qed.

Lemma labels_phases ls : forall s, phases_inv s -> all_fresh s ls -> Forall honest ls -> phases_inv (run_labels s ls).
Proof.
  induction ls as [|l ls IH]; intros s Hs; [done|]. intros [Hf Hfs] [Hh Hhs]%Forall_cons. by apply IH; [apply step_phases|..].
Qed.

Lemma start_phases store idem rq events : phases_inv (start store idem rq events).
Proof. split; [constructor|]. intros rid Hl. exfalso. revert Hl. apply Nat.lt_irrefl. Qed.

(** Blocks a run thread has left. *)
Definition rank (t : thread) : nat :=
  match t with
  | TBegin _ => 16 | TMark _ => 15 | TLease _ => 14 | TAcquired _ => 13 | TStarted _ => 12 | TCall _ => 11
  | TApply _ _ => 10 | TQueueEnd _ => 9 | TExcept _ _ _ => 8 | TQueueFail _ _ => 7 | TFinally _ _ => 6 | TSync _ _ => 5
  | TRelease _ _ => 4 | TFinal _ _ => 3 | TTerminal _ _ => 2 | TReplay _ _ => 1
  | _ => 0
  end.

(** A thread that executes the run, or did. *)
Definition runs (rid : string) (t : thread) : Prop :=
  match t with
  | TBegin r | TMark r | TLease r | TAcquired r | TStarted r | TCall r | TApply r _ | TQueueEnd r | TExcept r _ _
  | TQueueFail r _ | TFinally r _ | TSync r _ | TRelease r _ | TFinal r _ | TTerminal r _ | TReplay r _ | TFinished r _
  | TDead _ _ r _ => r = rid
  | _ => False
  end.

Lemma block_rank self stopped tk o t m rid : runs rid t ->
  let t' := (block_end t (block self stopped tk o t m).1).1 in runs rid t' /\ (rank t' < rank t \/ rank t = 0 /\ t' = t).
Proof.
  intros Ht. destruct t; try done; phase_cases; simpl in *; subst; try (split; [done|]; first [by right|left; lia]);
    repeat (case_match; simplify_eq/=); (split; [done|]; first [by right|left; lia]).
Qed.

Definition scheduled (i : nat) (l : RunManager.label) : nat :=
  match l with RunManager.LThread j _ _ => if decide (i = j) then 1 else 0 | _ => 0 end.

(** A step leaves a thread alone, or runs its next block. *)
Lemma thread_at s l i t : threads s !! i = Some t ->
  (scheduled i l = 0 /\ threads (step s l) !! i = Some t) \/
  (exists stopped tk o, l = RunManager.LThread i tk o /\
     threads (step s l) !! i = Some (block_end t (block i stopped tk o t (mgr s)).1).1).
Proof.
  intros Hi. assert (forall s', client_accounts s s' (started l) -> threads s' !! i = Some t) as Hclient.
  { intros s' (new & -> & _). by apply lookup_app_l_Some. }
  destruct l as [| | | | | |j tk o|w tk| |]; try (left; split; [done|apply Hclient, client_step; done]); cbn [RunManager.step scheduled].
  - destruct (decide (i = j)) as [<-|Hne].
    + right. destruct (thread_step_eq queue_size durable has_store has_idempotency has_events lease_timeout posture
        float_repr iso_of_ts elapsed get_fallback_events i tk o s t Hi) as [stopped ->]. exists stopped, tk, o. split; [done|].
      destruct (block i stopped tk o t (mgr s)) as [r m]. cbn [fst]. destruct (block_end t r) as [t' new]. cbn.
      apply lookup_app_l_Some. apply list_lookup_insert_eq. by apply lookup_lt_Some in Hi.
    + left. split; [done|]. destruct (threads s !! j) as [u|] eqn:Hj; [|unfold RunManager.thread_step; by rewrite Hj].
      destruct (thread_step_eq queue_size durable has_store has_idempotency has_events lease_timeout posture
        float_repr iso_of_ts elapsed get_fallback_events j tk o s u Hj) as [stopped ->].
      destruct (block j stopped tk o u (mgr s)) as [r m]. destruct (block_end u r) as [t' new]. cbn.
      apply lookup_app_l_Some. by rewrite list_lookup_insert_ne.
  - left. split; [done|].
    destruct (worker_step_accounts durable lease_timeout posture w tk s) as [[_ ->]|(w0 & new & _ & -> & _)]; [done|].
    by apply lookup_app_l_Some.
Qed.

Lemma labels_rank ls : forall s i t rid, threads s !! i = Some t -> runs rid t ->
  exists t', threads (run_labels s ls) !! i = Some t' /\ runs rid t' /\ rank t' <= rank t - sum_list_with (scheduled i) ls.
Proof.
  induction ls as [|l ls IH]; intros s i t rid Hi Ht; simpl; [exists t; split_and!; [done|done|lia]|].
  destruct (thread_at s l i t Hi) as [[Hs Hi']|(stopped & tk & o & -> & Hi')].
  - destruct (IH _ i t rid Hi' Ht) as (t' & Ht' & Hr & Hle). exists t'. split_and!; [done|done|lia].
  - destruct (block_rank i stopped tk o t (mgr s) rid Ht) as [Hr Hk].
    destruct (IH _ i _ rid Hi' Hr) as (t' & Ht' & Hr' & Hle). exists t'. split_and!; [done|done|].
    simpl. rewrite decide_True by done. destruct Hk as [Hk|[Hk Heq]]; [lia|]. rewrite Heq in Hle. lia.
Qed.

(** C7: An execution ends.  A thread that was started for a run and is scheduled sixteen
    times has come to an end, whatever the other threads, clients and the stores do: either
    it has left [_execute_run], its end is recorded on the run, and unless an exception
    that is no [Exception] left it, the run has a state other than created and running
    (when no executor answers with the status running); or an exception ended the thread,
    and if it still held its slot then, under the dev posture, its run was over before. *)
Theorem execution_ends store idem rq events ls0 ls i t rid :
  let s0 := run_labels (start store idem rq events) ls0 in
  let s := run_labels s0 ls in
  all_fresh (start store idem rq events) (ls0 ++ ls) -> Forall honest (ls0 ++ ls) ->
  threads s0 !! i = Some t -> runs rid t -> 16 <= sum_list_with (scheduled i) ls ->
  (exists x, threads s !! i = Some (TFinished rid x) /\ run_is finished (mgr s) rid /\
     (x = None -> run_is settled (mgr s) rid)) \/
  (exists held counted e, threads s !! i = Some (TDead held counted rid e) /\
     (held = true -> posture = Ret DEV -> run_is settled (mgr s) rid)).
Proof.
  intros s0 s Hf Hh Hi Ht Hn. destruct (labels_rank ls s0 i t rid Hi Ht) as (t' & Hi' & Hr & Hle).
  assert (phases_inv s) as [Hp _].
  { unfold s, s0. rewrite <-labels_app. apply labels_phases; [apply start_phases|done|done]. }
  assert (phase (mgr s) t') as Hph by by apply (Forall_lookup_1 _ _ _ _ Hp Hi').
  assert (rank t <= 16) by (destruct t; simpl; lia). assert (rank t' = 0) as H0 by lia.
  destruct t'; simpl in Hr, H0, Hph; try done; subst.
  - left. exists leaving. split; [done|exact Hph].
  - right. exists slot, counted, e. split; [done|]. intros ->. exact Hph.
Qed.

(** Slots that are never given back ************************************************)

Lemma terminal_refuses rid s : s ∈ _TERMINAL_STATES -> exists e, transition rid "running" s = (Raise e, s).
Proof.
  intros Hs. pose proof (transition_spec rid "running" s) as Ht. destruct (transition rid "running" s) as [[[]|e] s'].
  - destruct Ht as [[Hl _]|[-> [->|[_ Hr]]]]; [by apply legal_not_terminal in Hl| |].
    + by apply early_not_terminal in Hs as [].
    + by apply early_not_terminal in Hr as [].
  - destruct Ht as [-> _]. by exists e.
Qed.

Lemma begin_over rid r tk m : od_get rid (m_runs m) = Some r -> mr_state r ∈ _TERMINAL_STATES ->
  exists e m', RunManager.execute_begin rid tk m = (Raise e, m').
Proof.
  intros Hr Hs. destruct (terminal_refuses rid _ Hs) as [e He]. exists e. eexists.
  unfold RunManager.execute_begin, RunManager._transition_state, RunManager.run_object, RunManager.enter.
  cbv [mbind PyM_bind py_get mret PyM_ret py_modify]. simpl. by rewrite Hr, He.
Qed.

Lemma labels_dead ls : forall s i b c rid e, threads s !! i = Some (TDead b c rid e) ->
  threads (run_labels s ls) !! i = Some (TDead b c rid e).
Proof.
  induction ls as [|l ls IH]; intros s i b c rid e Hi; [done|]. apply IH. by apply dead_stays.
Qed.

Lemma labels_wedged ls : forall s, wedged s -> m_executor_calls (mgr (run_labels s ls)) = m_executor_calls (mgr s).
Proof.
  induction ls as [|l ls IH]; intros s Hs; [done|]. simpl.
  destruct (wedged_step max_concurrent queue_size durable has_store has_idempotency has_events lease_timeout posture sha256
    float_repr iso_of_ts elapsed get_fallback_events s l Hs) as [Hw Hc]. by rewrite IH.
Qed.

(** C11: A run that is over before its thread begins, as one cancelled while it was queued,
    takes the slot of that thread with it: the state change raises before the [try] whose
    [finally] gives the slot back, the thread is dead for good, still holding its slot and
    still counted as active, and once [max_concurrent] runs went this way no executor is
    ever called again, whatever is started afterwards. *)
Theorem over_run_keeps_slot store idem rq events ls0 ls i rid r tk o :
  let s0 := run_labels (start store idem rq events) ls0 in
  let s1 := step s0 (RunManager.LThread i tk o) in
  let s2 := run_labels s1 ls in
  threads s0 !! i = Some (TBegin rid) -> od_get rid (m_runs (mgr s0)) = Some r -> is_terminal (mr_state r) = true ->
  (exists e, threads s1 !! i = Some (TDead true true rid e) /\ threads s2 !! i = Some (TDead true true rid e)) /\
  m_permits (mgr s1) = m_permits (mgr s0) /\ m_active_count (mgr s1) = (m_active_count (mgr s0) + 1)%Z /\
  (max_concurrent <= sum_list_with dead_slot (threads s1) -> m_executor_calls (mgr s2) = m_executor_calls (mgr s1)).
Proof.
  intros s0 s1 s2 Hi Hr Hs%bool_decide_eq_true. destruct (begin_over rid r tk (mgr s0) Hr Hs) as (e & m' & Hb).
  assert (s1 = RunManager.mkSys m' (<[i := TDead true true rid e]> (threads s0)) (wkr s0)) as Hs1.
  { unfold s1. cbn [RunManager.step]. unfold RunManager.thread_step. rewrite Hi. cbn [RunManager.block].
    unfold mbind, PyM_bind. by rewrite Hb. }
  assert (threads s1 !! i = Some (TDead true true rid e)) as Hd.
  { rewrite Hs1. cbn. apply list_lookup_insert_eq. by apply lookup_lt_Some in Hi. }
  assert (slots_inv s1) as Hinv by (apply step_slots, labels_slots, start_slots).
  pose proof (labels_slots ls0 _ (start_slots store idem rq events)) as Hinv0. fold s0 in Hinv0.
  split_and!.
  - exists e. split; [done|]. by apply labels_dead.
  - destruct Hinv as [Hp _], Hinv0 as [Hp0 _]. pose proof (sum_insert slot (threads s0) i _ (TDead true true rid e) Hi).
    rewrite Hs1 in Hp |- *. cbn in Hp, H |- *. lia.
  - destruct Hinv as [_ Ha], Hinv0 as [_ Ha0]. pose proof (sum_insert counted (threads s0) i _ (TDead true true rid e) Hi).
    rewrite Hs1 in Ha |- *. cbn in Ha, H |- *. lia.
  - intros Hn. apply labels_wedged. by split.
Qed.

(** Under a strict posture [mark_running] without a workspace is refused. *)
Definition strict_store : Prop := has_store = true /\ exists p, posture = Ret p /\ is_strict p = true.

Lemma mark_refused rid tk m : strict_store -> exists e, RunManager.execute_mark has_store posture rid tk m = (Raise e, m).
Proof.
  intros (-> & p & -> & Hp). unfold RunManager.execute_mark, RunManager.on_store, py_zoom, RunStore.mark_running, RunStore.update_run.
  cbv [mbind PyM_bind py_lift]. unfold _check_run_store_tenant_scope. cbn [mbind outcome_bind].
  destruct (decide _) as [_|Hn]; [rewrite Hp|by destruct Hn]. eexists. by destruct m.
Qed.

(** A run thread that has not passed [mark_running], or never will. *)
Definition unmarked (t : thread) : Prop :=
  match t with
  | TLease _ | TAcquired _ | TStarted _ | TCall _ | TApply _ _ | TQueueEnd _ | TExcept _ _ _ | TQueueFail _ _ | TFinally _ _
  | TSync _ _ | TRelease _ _ | TFinal _ _ | TTerminal _ _ | TReplay _ _ | TFinished _ _ => False
  | _ => True
  end.

Lemma block_unmarked self stopped tk o t m : strict_store -> unmarked t ->
  let '(t', new) := block_end t (block self stopped tk o t m).1 in unmarked t' /\ Forall unmarked new.
Proof.
  intros Hst Ht. destruct t; try done; phase_cases; try (split; [done|by constructor]);
    repeat (case_match; simplify_eq/=); try (split; [done|by constructor]).
  all: destruct (mark_refused rid tk m Hst) as [e He]; congruence.
Qed.

Lemma step_unmarked s l : strict_store -> Forall unmarked (threads s) -> Forall unmarked (threads (step s l)).
Proof.
  intros Hst Hu. destruct l as [| | | | | |i tk o|b tk| |]; cbn [RunManager.step]; try done.
  - destruct (RunManager.start_check rid (mgr s)).1 as [[]|]; try done. apply Forall_app.
    split; [by unfold RunManager._ensure_worker_started; destruct (wkr s)|]. apply Forall_singleton. by destruct durable.
  - destruct (RunManager.cancel_state rid workspace tk (mgr s)).1 as [[]|]; try done. apply Forall_app.
    split; [done|]. by apply Forall_singleton.
  - destruct (threads s !! i) as [t|] eqn:Hi; [|unfold RunManager.thread_step; by rewrite Hi].
    destruct (thread_step_eq queue_size durable has_store has_idempotency has_events lease_timeout posture
      float_repr iso_of_ts elapsed get_fallback_events i tk o s t Hi) as [stopped ->].
    pose proof (block_unmarked i stopped tk o t (mgr s) Hst (Forall_lookup_1 _ _ _ _ Hu Hi)) as Hb.
    destruct (block i stopped tk o t (mgr s)) as [r m]. cbn in Hb. destruct (block_end t r) as [t' new].
    destruct Hb as [Ht' Hnew]. cbn. apply Forall_app. split; [|done]. by apply Forall_insert.
  - unfold RunManager.worker_step. destruct (wkr s) as [w|]; [|done].
    pose proof (worker_new b tk w (mgr s)) as Hn. destruct (RunManager.worker_block _ _ _ _ _ _ _) as [[[w' new]|e] m]; [|done].
    cbn in *. apply Forall_app. split; [done|]. apply (Forall_impl _ _ _ Hn). by intros t [rid ->].
  - apply Forall_app. split; [done|]. by apply Forall_singleton.
Qed.

(** Under a strict posture a manager with a run store executes nothing: the call of
    [mark_running] names no workspace, the store refuses it, and the thread of every run
    ends there with its slot; no executor is ever called. *)
Theorem strict_store_executes_nothing p store idem rq events ls :
  posture = Ret p -> is_strict p = true -> has_store = true ->
  let s := run_labels (start store idem rq events) ls in
  m_executor_calls (mgr s) = [] /\ forall i t rid, threads s !! i = Some t -> runs rid t ->
    t = TBegin rid \/ t = TMark rid \/ exists held counted e, t = TDead held counted rid e.
Proof.
  intros Hp Hs Hst. cbv zeta. assert strict_store as Hstrict by (split; [done|by exists p]). assert (forall ls s, Forall unmarked (threads s) -> 
    Forall unmarked (threads (run_labels s ls)) /\ m_executor_calls (mgr (run_labels s ls)) = m_executor_calls (mgr s)) as Hall.
  { clear ls. induction ls as [|l ls IH]; intros s Hu; [done|]. simpl. destruct (IH (step s l)) as [Hu' Hc]; [by apply step_unmarked|].
    split; [done|]. rewrite Hc. apply step_calls. intros i rid Hi. by apply (Forall_lookup_1 _ _ _ _ Hu Hi). }
  destruct (Hall ls (start store idem rq events)) as [Hu Hc]; [constructor|]. split; [done|].
  intros i t rid Hi Hr. pose proof (Forall_lookup_1 _ _ _ _ Hu Hi) as Ht. destruct t; simpl in Hr, Ht; subst; try done; [by left|by right; left|].
  right; right. by eexists _, _, _.
Qed.

End properties.

(** A manager with one slot, an in-memory queue and a run store, on concrete steps. *)
Module Sample.
Definition at_time (n : Z) : tick := mkTick "t" n "event" None "run-1" "attempt-1".
Definition workspace : TenantContext := mkTenantCtx "tenant" "team" "user" [] [] "key" "request" "session".
Definition answer : exec_outcome := Returned (mkResult (Some "completed") None (Some (PDict [])) "ok" None None).

Definition started_at (posture : outcome Posture) (ls : list RunManager.label) : RunManager.system :=
  RunManager.run_labels 4 false true false false 60 posture id id (fun _ => "") (fun _ _ => PNone) (fun _ => [])
    (RunManager.start 1 [] [] empty_db []) ls.

(** A run is created and queued; the worker takes it and starts its thread. *)
Definition queued : list RunManager.label :=
  [RunManager.LCreate [("goal", PStr "g")] (Some workspace) (at_time 1); RunManager.LStart "run-1";
   RunManager.LThread 0 (at_time 2) answer; RunManager.LThread 0 (at_time 3) answer].
Definition taken : list RunManager.label :=
  [RunManager.LWorker false (at_time 4); RunManager.LWorker false (at_time 5); RunManager.LWorker false (at_time 6)].
Definition cancelled : list RunManager.label := [RunManager.LCancel "run-1" (Some workspace) (at_time 4)].
Definition executed (n : nat) : list RunManager.label := replicate n (RunManager.LThread 1 (at_time 7) answer).
End Sample.

#[local] Abbreviation sample_step posture := (RunManager.run_labels 4 false true false false 60 posture id id
  (fun _ => "") (fun _ _ => PNone) (fun _ => [])).

Lemma run_life_witness :
  exists r', od_get "run-1" (m_runs (RunManager.s_mgr (sample_step (Ret DEV) (Sample.started_at (Ret DEV) Sample.queued)
      (Sample.taken ++ Sample.executed 16)))) = Some r' /\ mr_state r' = "completed" /\
    rs_tenant_id (mr_spec r') = "tenant".
Proof.
  destruct (od_get "run-1" (m_runs (RunManager.s_mgr (Sample.started_at (Ret DEV) Sample.queued)))) as [r|] eqn:Hr;
    [|vm_compute in Hr; discriminate].
  destruct (run_life 4 false true false false 60 (Ret DEV) id id (fun _ => "") (fun _ _ => PNone) (fun _ => [])
    (Sample.started_at (Ret DEV) Sample.queued) (Sample.taken ++ Sample.executed 16) "run-1" r) as (r' & Hr' & Hs & _).
  - repeat split.
  - exact Hr.
  - exists r'. split; [exact Hr'|]. rewrite Hs. vm_compute in Hr'. injection Hr' as <-. vm_compute in Hr. injection Hr as <-.
    by split.
Defined.

Lemma execution_ends_witness :
  let s := sample_step (Ret DEV) (Sample.started_at (Ret DEV) (Sample.queued ++ Sample.taken)) (Sample.executed 16) in
  RunManager.s_threads s !! 1 = Some (TFinished "run-1" None) /\ run_is settled (RunManager.s_mgr s) "run-1".
Proof.
  cbv zeta. destruct (execution_ends 1 4 false true false false 60 (Ret DEV) id id (fun _ => "") (fun _ _ => PNone) (fun _ => [])
    [] [] empty_db [] (Sample.queued ++ Sample.taken) (Sample.executed 16) 1 (TBegin "run-1") "run-1")
    as [(x & Hx & _ & Hs)|(held & c & e & Hx & _)].
  - repeat split.
  - repeat constructor; discriminate.
  - vm_compute. reflexivity.
  - reflexivity.
  - vm_compute. lia.
  - vm_compute in Hx. injection Hx as <-. split; [vm_compute; reflexivity|]. apply Hs. reflexivity.
  - vm_compute in Hx. discriminate.
Defined.

(** A run is cancelled while it waits: it takes the only slot with it, and a second run is
    never executed. *)
Lemma over_run_keeps_slot_witness :
  exists e, RunManager.s_threads (RunManager.step 4 false true false false 60 (Ret DEV) id id (fun _ => "") (fun _ _ => PNone) (fun _ => [])
    (sample_step (Ret DEV) (RunManager.start 1 [] [] empty_db []) (Sample.queued ++ Sample.cancelled ++ Sample.taken))
    (RunManager.LThread 2 (Sample.at_time 7) Sample.answer)) !! 2 = Some (TDead true true "run-1" e).
Proof.
  destruct (od_get "run-1" (m_runs (RunManager.s_mgr (sample_step (Ret DEV) (RunManager.start 1 [] [] empty_db [])
    (Sample.queued ++ Sample.cancelled ++ Sample.taken))))) as [r|] eqn:Hr; [|vm_compute in Hr; discriminate].
  destruct (over_run_keeps_slot 1 4 false true false false 60 (Ret DEV) id id (fun _ => "") (fun _ _ => PNone) (fun _ => [])
    [] [] empty_db [] (Sample.queued ++ Sample.cancelled ++ Sample.taken) [] 2 "run-1" r (Sample.at_time 7) Sample.answer)
    as [(e & Hd & _) _].
  - vm_compute. reflexivity.
  - exact Hr.
  - vm_compute in Hr. injection Hr as <-. vm_compute. reflexivity.
  - exists e. exact Hd.
Defined.

Lemma strict_store_executes_nothing_witness :
  m_executor_calls (RunManager.s_mgr (Sample.started_at (Ret PROD) (Sample.queued ++ Sample.taken ++ Sample.executed 16))) = [] /\
  exists e, RunManager.s_threads (Sample.started_at (Ret PROD) (Sample.queued ++ Sample.taken ++ Sample.executed 16)) !! 1 =
    Some (TDead true true "run-1" e).
Proof.
  split.
  - apply (strict_store_executes_nothing 1 4 false true false false 60 (Ret PROD) id id (fun _ => "") (fun _ _ => PNone) (fun _ => [])
      PROD [] [] empty_db []); reflexivity.
  - eexists. vm_compute. reflexivity.
Defined.
