(* ===== verification/RunManagerCreate.v ===== *)
(** * Creating runs

    What [create_run] guarantees: the run belongs to the authenticated workspace, and an
    idempotency key gives one run.  The reservation of a key outlives every step of the
    system of [RunManager] until it expires, so a retry finds the run of the first call. *)

From stdpp Require Import base tactics option list sorting strings gmap.
From Stdlib Require Import ZArith.
From S2P Require Import Prelude PyStr PyDict PyVal Json RunContext SqlTable RunQueue Idempotency RunState RunStore EventStore.
From S2P Require Import RunManager RunManagerSpec RunManagerProps.
#[local] Arguments String.append : simpl nomatch.
Create HintDb key.

(** The row of a key: what was asked, the run it was given, and when it expires. *)
Definition reserved (q : string * string) (h rid : string) (expires : Z) (db : idem_db) : Prop :=
  idem_wf db /\ exists r, idem_row db q = Some r /\ ir_request_hash r = h /\ ir_run_id r = rid /\ ir_expires_at r = expires.

Lemma set_complete_kept status response now code : key_kept idem_key (set_complete status response now code).
Proof. by intros r. Qed.

Lemma reserved_complete q h rid E float_repr t k response terminal code now db : reserved q h rid E db ->
  reserved q h rid E (IdempotencyStore.mark_complete float_repr t k response terminal code now db).2.
Proof.
  intros [Hwf (r & Hr & Hh & Hid & He)]. unfold IdempotencyStore.mark_complete, IdempotencyStore.put_rows.
  cbv [mbind PyM_bind py_lift py_modify]. destruct (IdempotencyStore._normalize_response_for_replay float_repr response) as [x|e]; [|by split; [|exists r]].
  simpl. match goal with |- context [update_where _ ?f _] => set (g := f) end.
  assert (key_kept idem_key g) as Hg by apply set_complete_kept. split.
  - unfold idem_wf. by rewrite update_keys.
  - rewrite update_row by done. rewrite Hr. case_decide; [|by exists r]. by eexists.
Qed.

Section create.
Context (queue_size : nat) (durable has_store has_idempotency has_events : bool)
  (lease_timeout : Z) (posture : outcome Posture) (sha256 float_repr : string -> string)
  (iso_of_ts : Z -> string) (elapsed : Z -> Z -> pyval) (get_fallback_events : string -> list pyval).

Abbreviation block := (RunManager.block queue_size durable has_store has_idempotency has_events lease_timeout posture
  float_repr iso_of_ts elapsed get_fallback_events).
Abbreviation step := (RunManager.step queue_size durable has_store has_idempotency has_events lease_timeout posture
  sha256 float_repr iso_of_ts elapsed get_fallback_events).
Abbreviation run_labels := (RunManager.run_labels queue_size durable has_store has_idempotency has_events lease_timeout
  posture sha256 float_repr iso_of_ts elapsed get_fallback_events).
Abbreviation create_run := (RunManager.create_run durable has_store has_idempotency has_events posture sha256).
Abbreviation mgr := RunManager.s_mgr.
Abbreviation threads := RunManager.s_threads.
Abbreviation wkr := RunManager.s_worker.

(** Reservations ******************************************************************)

Section kept.
Context (q : string * string) (h rid : string) (E : Z).

Definition keeps_key (m m' : manager) : Prop := reserved q h rid E (m_idempotency m) -> reserved q h rid E (m_idempotency m').

#[local] Instance keeps_key_pre : PreOrder keeps_key.
Proof. unfold keeps_key. split; [by intros m|]. intros x y z. auto. Qed.

Lemma key_same m m' : m_idempotency m' = m_idempotency m -> keeps_key m m'.
Proof. unfold keeps_key. by intros ->. Qed.

(** Everything that calls no idempotency store. *)
Ltac key_at :=
  first [solve [cbv [mbind PyM_bind py_put mret PyM_ret]; by apply key_same]
        | match goal with |- keeps_key ?m (?c ?m).2 => let Hc := fresh in enough (keeps keeps_key c) as Hc; [apply Hc|] end].
Ltac key_step :=
  first [apply keeps_get_bind; intros ?; repeat case_match; key_at
        | progress keeps_step | apply keeps_zoom; intros; by apply key_same
        | apply keeps_modify; intros ?; simpl; repeat case_match; by apply key_same].

Lemma key_assign x f : keeps keeps_key (RunManager.assign x f).
Proof. unfold RunManager.assign. key_step. Qed.
Lemma key_transition x t : keeps keeps_key (RunManager._transition_state x t).
Proof. unfold RunManager._transition_state, RunManager.run_object. pose proof key_assign. repeat first [done|key_step]. Qed.
Lemma key_publish x ty d tk : keeps keeps_key (RunManager._publish_run_event has_events posture x ty d tk).
Proof.
  unfold RunManager._publish_run_event, RunManager.next_sequence, RunManager.run_object, RunManager.on_events. repeat key_step.
Qed.
Lemma key_fail x e tk : keeps keeps_key (RunManager.fail_run x e tk).
Proof. unfold RunManager.fail_run. pose proof key_assign. pose proof key_transition. repeat first [done|key_step]. Qed.
Lemma key_complete t k response terminal code now :
  keeps keeps_key (RunManager.on_idempotency (IdempotencyStore.mark_complete float_repr t k response terminal code now)).
Proof.
  intros m Hr. unfold RunManager.on_idempotency, py_zoom.
  pose proof (reserved_complete q h rid E float_repr t k response terminal code now (m_idempotency m) Hr) as Hc.
  by destruct (IdempotencyStore.mark_complete _ _ _ _ _ _ _ _).
Qed.
#[local] Hint Resolve key_assign key_transition key_publish key_fail key_complete : key.

Ltac key_tac := repeat first [solve [auto with key] | key_step].

Lemma key_block self stopped tk o t : keeps keeps_key (block self stopped tk o t).
Proof.
  destruct t; cbn [RunManager.block]; unfold RunManager.goto;
    unfold RunManager.start_seq, RunManager.put_nowait, RunManager.start_reject, RunManager.start_pending, RunManager.cancel_queue,
      RunManager.cancel_store, RunManager.cancel_token, RunManager.execute_begin, RunManager.enter, RunManager.execute_mark,
      RunManager.execute_acquired, RunManager.execute_started, RunManager.execute_apply, RunManager.execute_queue_end,
      RunManager.execute_queue_fail, RunManager.execute_finally, RunManager.execute_sync, RunManager.release_slot,
      RunManager.execute_final, RunManager.execute_terminal, RunManager.execute_replay, RunManager.heart_beat,
      RunManager.heart_lost, RunManager.heart_event, RunManager.heart_dlq, RunManager.abandon_queue, RunManager.abandon_store,
      RunManager.abandon_state, RunManager.tenant_of, RunManager.run_object, RunManager.on_queue, RunManager.on_store,
      RunManager.to_dict, RunManager.last_event, RunManager.on_events; key_tac.
Qed.

Lemma key_worker timed_out tk w : keeps keeps_key (RunManager.worker_block durable lease_timeout posture timed_out tk w).
Proof.
  destruct w as [pc idle releases]. unfold RunManager.worker_block, RunManager.to_pc, RunManager.awake. cbn [w_pc w_idle w_releases].
  unfold RunManager.tenant_of, RunManager.run_object, RunManager.on_queue. destruct pc; key_tac.
Qed.

Lemma keeps_key_bind {A B} (c : PyM manager A) (k : A -> PyM manager B) : keeps keeps_key c ->
  (forall a m m', reserved q h rid E (m_idempotency m) -> c m = (Ret a, m') -> keeps keeps_key (k a)) -> keeps keeps_key (c ≫= k).
Proof.
  intros Hc Hk m Hr. unfold mbind, PyM_bind. pose proof (Hc m Hr) as Hm. destruct (c m) as [[a|e] m'] eqn:Hcm; [|done].
  by apply (Hk a m m' Hr Hcm m').
Qed.

(** A reservation of another key, or of this one before it expires. *)
Lemma reserved_other t k h' rid' p u s now db : reserved q h rid E db -> (now <= E)%Z ->
  let '(r, db') := IdempotencyStore.reserve_or_replay posture id id id t k h' rid' 86400000000 p u s None now db in
  reserved q h rid E db' /\ match r with Ret (created, _) => (t, k) <> q | _ => True end.
Proof.
  intros [Hwf (r & Hr & Hh & Hid & He)] Hnow. rewrite (reserve_spec posture t k h' rid' 86400000000 p u s now db Hwf).
  assert (forall new, idem_key new = (t, k) -> (t, k) <> q -> reserved q h rid E (delete_where (of_key t k) db ++ [new])) as Hnew.
  { intros new Hk Hne. destruct (fresh_row t k new q db Hwf Hk) as [Hwf' Hrow]. split; [done|].
    rewrite Hrow, decide_False by done. by exists r. }
  destruct (decide ((t, k) = q)) as [<-|Hne].
  - rewrite Hr. destruct (Z.ltb_spec (ir_expires_at r) now); [lia|]. split; [by split; [|exists r]|].
    destruct (post_init posture r); simpl; [|done]. by case_decide.
  - destruct (idem_row db (t, k)) as [x|]; [destruct (ir_expires_at x <? now)%Z|];
      (split; [first [by apply Hnew|by split; [|exists r]]|]); by destruct (post_init _ _); simpl; try case_decide.
Qed.

Lemma key_reserve body ws t p k tk : (tk_now tk <= E)%Z ->
  keeps keeps_key (RunManager.reserve has_idempotency posture sha256 body ws t p k tk).
Proof.
  intros Ht. unfold RunManager.reserve. destruct (has_idempotency && truthy k); [|key_tac].
  apply keeps_key_bind; [|intros [o x] ? ? ? ?; destruct o; key_tac].
  intros m Hr. unfold RunManager.on_idempotency, py_zoom.
  match goal with |- context [IdempotencyStore.reserve_or_replay _ _ _ _ ?t ?k ?h' ?r ?ttl ?p ?u ?s None ?n ?db] =>
    pose proof (reserved_other t k h' r p u s n db Hr Ht) as Hres; destruct (IdempotencyStore.reserve_or_replay _ _ _ _ _ _ _ _ _ _ _ _ _ _ _) end.
  by destruct Hres.
Qed.

(** A new run under this key is not made while its row is there. *)
Lemma reserve_other_key body ws t p k tk m x m' : (tk_now tk <= E)%Z -> reserved q h rid E (m_idempotency m) ->
  has_idempotency && truthy k = true ->
  RunManager.reserve has_idempotency posture sha256 body ws t p k tk m = (Ret (inl x), m') -> (t, default "" k) <> q.
Proof.
  intros Ht Hr Hk. unfold RunManager.reserve. rewrite Hk. unfold mbind, PyM_bind, RunManager.on_idempotency, py_zoom.
  match goal with |- context [IdempotencyStore.reserve_or_replay _ _ _ _ ?t ?k ?h' ?r ?ttl ?p ?u ?s None ?n ?db] =>
    pose proof (reserved_other t k h' r p u s n db Hr Ht) as Hres; destruct (IdempotencyStore.reserve_or_replay _ _ _ _ _ _ _ _ _ _ _ _ _ _ _) end.
  destruct Hres as [_ Hne]. destruct o as [[[] y]|e]; [done| |done|done].
  cbv [py_lift mret PyM_ret]. by destruct (managed_run_post_init _ _).
Qed.

Lemma key_release t k : (t, k) <> q -> keeps keeps_key (RunManager.on_idempotency (IdempotencyStore.release t k)).
Proof.
  intros Hne m [Hwf (r & Hr & Hh & Hid & He)]. unfold RunManager.on_idempotency, py_zoom, IdempotencyStore.release, IdempotencyStore.put_rows, py_modify.
  simpl. split; [by apply delete_where_keys|]. exists r. by rewrite delete_row, Hr, decide_False.
Qed.

Lemma key_persist run body ws t p tk : keeps keeps_key (RunManager.persist_run durable has_store posture run body ws t p tk).
Proof. unfold RunManager.persist_run, RunManager.on_store, RunManager.on_queue. key_tac. Qed.
#[local] Hint Resolve key_persist : key.

(** The end of [create_run]. *)
Lemma key_tail (run r : ManagedRun) x ty d tk body ws t p m m' :
  (_ ← RunManager._publish_run_event has_events posture x ty d tk;
   _ ← RunManager.persist_run durable has_store posture run body ws t p tk; mret run) m = (Ret r, m') ->
  r = run /\ keeps_key m m'.
Proof.
  pose proof (key_publish x ty d tk m) as Hp. cbv [mbind PyM_bind mret PyM_ret].
  destruct (RunManager._publish_run_event has_events posture x ty d tk m) as [[[]|e] m1]; [|done].
  pose proof (key_persist run body ws t p tk m1) as Hq.
  destruct (RunManager.persist_run durable has_store posture run body ws t p tk m1) as [[[]|e] m2]; [|done].
  intros [= <- <-]. split; [done|by etrans].
Qed.

Lemma key_create body ws tk : (tk_now tk <= E)%Z -> keeps keeps_key (create_run body ws tk).
Proof.
  intros Ht. unfold RunManager.create_run. repeat (apply keeps_key_bind; [apply keeps_lift; apply _|intros ? ? ? _ _]).
  apply keeps_key_bind; [by apply key_reserve|]. intros [x|stub] mr mr' Hr Hx; [|key_tac].
  apply keeps_key_bind; [key_tac|]. intros run n1 n1' _ Hrun. apply keeps_key_bind; [key_tac|]. intros task _ _ _ _.
  apply keeps_key_bind; [|intros _ _ _ _ _; key_tac].
  assert (rs_idempotency_key (mr_spec run) = if has_idempotency && truthy a then a else None) as Hkey.
  { unfold py_lift, managed_run_post_init in Hrun. destruct (require_fields _ _ _); [|done]. by injection Hrun as <- _. }
  unfold RunManager.insert_run. apply keeps_get_bind. intros mi. destruct (negb _ && _); [|by apply key_same].
  match goal with |- keeps_key ?m (?c ?m).2 => enough (keeps keeps_key c) as Hc by apply Hc end.
  apply keeps_bind; [apply _| |intros _; key_tac]. rewrite Hkey.
  destruct (has_idempotency && truthy a) eqn:Hka; [|key_tac]. destruct a as [key|]; [|key_tac].
  pose proof (reserve_other_key body ws a1 a2 (Some key) tk mr x mr' Ht Hr Hka Hx). case_match; [by apply key_release|key_tac].
Qed.
Definition in_time (l : RunManager.label) : Prop :=
  match l with RunManager.LCreate _ _ tk => (tk_now tk <= E)%Z | _ => True end.

Lemma step_key s l : in_time l -> keeps_key (mgr s) (mgr (step s l)).
Proof.
  intros Ht. destruct l as [body ws tk|x|x ws tk|x token|x|ev tk|i tk o|b tk| |]; cbn [RunManager.step].
  - by apply key_create.
  - destruct (RunManager.start_check x (mgr s)).1 as [[]|]; try by apply key_same. unfold RunManager._ensure_worker_started.
    destruct (wkr s); by apply key_same.
  - assert (keeps keeps_key (RunManager.cancel_state x ws tk)) as Hc.
    { unfold RunManager.cancel_state, RunManager.get_run. key_tac. }
    destruct (RunManager.cancel_state x ws tk (mgr s)).1 as [[]|]; apply Hc.
  - by apply key_same.
  - by apply key_same.
  - assert (keeps keeps_key (RunManager._on_stage_event float_repr ev tk)) as Hc.
    { unfold RunManager._on_stage_event. key_tac. }
    apply Hc.
  - destruct (threads s !! i) as [t|] eqn:Hi; [|unfold RunManager.thread_step; rewrite Hi; by apply key_same].
    destruct (thread_step_eq queue_size durable has_store has_idempotency has_events lease_timeout posture
      float_repr iso_of_ts elapsed get_fallback_events i tk o s t Hi) as [stopped ->].
    pose proof (key_block i stopped tk o t (mgr s)) as Hb.
    destruct (block i stopped tk o t (mgr s)) as [r m]. by destruct (block_end t r).
  - unfold RunManager.worker_step. destruct (wkr s) as [w|]; [|by apply key_same].
    pose proof (key_worker b tk w (mgr s)) as Hw. by destruct (RunManager.worker_block _ _ _ _ _ _ _) as [[[w' new]|e] m].
  - by apply key_same.
  - by apply key_same.
Qed.

Lemma labels_key ls : forall s, Forall in_time ls -> reserved q h rid E (m_idempotency (mgr s)) ->
  reserved q h rid E (m_idempotency (mgr (run_labels s ls))).
Proof.
  induction ls as [|l ls IH]; intros s; [done|]. intros [Ht Hts]%Forall_cons Hr. apply IH; [done|]. by apply step_key.
Qed.
End kept.

(** What a call makes of a key ****************************************************)

Lemma post_init_fields r r' : ir_tenant_id r' = ir_tenant_id r -> ir_idempotency_key r' = ir_idempotency_key r ->
  ir_run_id r' = ir_run_id r -> post_init posture r = Ret r -> post_init posture r' = Ret r'.
Proof.
  unfold post_init. intros -> -> ->. destruct posture as [p|e]; [|done]. cbn [mbind outcome_bind].
  destruct (decide (_ = [])); [done|]. by destruct (is_strict p).
Qed.

(** The reservation a created run leaves. *)
Lemma reserve_created body ws t p k tk m x m' : idem_wf (m_idempotency m) -> has_idempotency && truthy k = true ->
  RunManager.reserve has_idempotency posture sha256 body ws t p k tk m = (Ret (inl x), m') ->
  let h := _hash_payload sha256 (od_pop "idempotency_key" body) in
  x = tk_run_id tk /\ reserved (t, default "" k) h x (tk_now tk + 86400000000) (m_idempotency m') /\
  forall r, idem_key r = (t, default "" k) -> ir_run_id r = x -> post_init posture r = Ret r.
Proof.
  intros Hwf Hk. unfold RunManager.reserve. rewrite Hk. unfold mbind, PyM_bind, RunManager.on_idempotency, py_zoom.
  rewrite reserve_spec by done. set (key := default "" k). set (new := mkIdem _ _ _ _ _ _ _ _ _ _ _ _ _).
  assert (forall db', db' = delete_where (of_key t key) (m_idempotency m) ++ [new] -> post_init posture new = Ret new ->
    forall m', m_idempotency m' = db' -> tk_run_id tk = tk_run_id tk /\
    reserved (t, key) (_hash_payload sha256 (od_pop "idempotency_key" body)) (tk_run_id tk) (tk_now tk + 86400000000) (m_idempotency m') /\
    forall r, idem_key r = (t, key) -> ir_run_id r = tk_run_id tk -> post_init posture r = Ret r) as Hnew.
  { intros db' -> Hp m2 ->. split; [done|]. destruct (fresh_row t key new (t, key) _ Hwf eq_refl) as [Hwf' Hrow]. split.
    - split; [done|]. exists new. by rewrite Hrow, decide_True.
    - intros r [= Ht Hkk] Hr. by apply (post_init_fields new). }
  assert (forall y, post_init posture new = Ret y -> y = new) as Hy.
  { intros y. unfold post_init. destruct posture as [p0|e]; [|done]. cbn [mbind outcome_bind].
    repeat case_match; congruence. }
  destruct (idem_row (m_idempotency m) (t, key)) as [r|]; [destruct (ir_expires_at r <? tk_now tk)%Z|].
  2: { destruct (post_init posture r); simpl; [|done]. case_decide; [|done]. cbv [py_lift mret PyM_ret].
       by destruct (managed_run_post_init _ _). }
  all: destruct (post_init posture new) as [y|e] eqn:Hp; simpl; [|done]; intros [= <- <-]; apply (Hnew _ eq_refl);
    [by rewrite (Hy y eq_refl)|done].
Qed.

Lemma managed_ok r run : post_init posture r = Ret r -> ir_tenant_id r = mr_tenant_id run -> ir_run_id r = mr_run_id run ->
  managed_run_post_init posture run = Ret run.
Proof.
  unfold post_init, managed_run_post_init, require_fields. intros Hp <- <-. destruct posture as [p|e]; [|done].
  cbn [mbind outcome_bind] in *. destruct (decide (_ = [])) as [Hm|Hm] in Hp.
  - apply app_eq_nil in Hm as [Ht Hm]. apply app_eq_nil in Hm as [_ Hr].
    destruct (decide (ir_tenant_id r = "")), (decide (ir_run_id r = "")); try done.
    rewrite decide_True; [done|]. unfold missing_fields. by rewrite !filter_cons_False by done.
  - destruct (is_strict p); [done|]. by destruct (decide (missing_fields _ = [])).
Qed.

(** A later call with the key: the run of the first one, or a conflict, and nothing else. *)
Lemma reserve_again body ws t p k tk m h rid E : reserved (t, default "" k) h rid E (m_idempotency m) -> (tk_now tk <= E)%Z ->
  has_idempotency && truthy k = true ->
  (forall r, idem_key r = (t, default "" k) -> ir_run_id r = rid -> post_init posture r = Ret r) ->
  if decide (_hash_payload sha256 (od_pop "idempotency_key" body) = h) then
    exists stub, RunManager.reserve has_idempotency posture sha256 body ws t p k tk m = (Ret (inr stub), m) /\
      mr_run_id stub = rid /\ rs_outcome (mr_spec stub) = "replayed"
  else RunManager.reserve has_idempotency posture sha256 body ws t p k tk m = (Raise (ValueError "idempotency_conflict"), m).
Proof.
  intros [Hwf (r & Hr & Hh & Hid & He)] Ht Hk Hpost. unfold RunManager.reserve. rewrite Hk. unfold mbind, PyM_bind, RunManager.on_idempotency, py_zoom.
  rewrite reserve_spec by done. rewrite Hr. destruct (Z.ltb_spec (ir_expires_at r) (tk_now tk)); [lia|].
  assert (idem_key r = (t, default "" k)) as Hkey by (apply select_one_Some in Hr as [_ Hr]; by apply (has_key_eq idem_key) in Hr).
  rewrite (Hpost r Hkey Hid). simpl. rewrite Hh.
  assert (set_idempotency m (m_idempotency m) = m) as -> by by destruct m.
  destruct (decide (_ = h)) as [Heq|Hne]; destruct (decide _) as [Heq2|Hne2]; try congruence; [|done].
  unfold py_lift. rewrite (managed_ok r); [| |by injection Hkey|done].
  - eexists. split; [reflexivity|]. by split.
  - by apply Hpost.
Qed.
Lemma insert_returns run task ws t m a m' : RunManager.insert_run has_idempotency run task ws t m = (Ret a, m') ->
  m' = set_runs m (od_set (mr_run_id run) run (m_runs m)).
Proof.
  unfold RunManager.insert_run. cbv [mbind PyM_bind py_get py_put py_raise mret PyM_ret]. destruct (negb _ && _).
  - repeat case_match; by intros.
  - by intros [= _ <-].
Qed.

(** The fields of a body that decide who creates the run and under which key. *)
Definition asks (body : odict string pyval) (ws : option TenantContext) (k t p : string) : Prop :=
  opt_text_field "idempotency_key" body = Ret (Some k) /\ k <> "" /\
  (body_tenant_id ← str_field "tenant_id" body; resolve_tenant posture ws body_tenant_id) = Ret t /\
  str_field "project_id" body = Ret p.

Lemma asks_create body ws k t p tk m : asks body ws k t p ->
  create_run body ws tk m =
  (reserved ← RunManager.reserve has_idempotency posture sha256 body ws t p (Some k) tk;
   match reserved with
   | inr stub => mret stub
   | inl run_id =>
      let key := if has_idempotency && truthy (Some k) then Some k else None in
      run ← py_lift (managed_run_post_init posture
        (new_run (mkSpec run_id body (default "" (tc_tenant_id <$> ws)) (tk_iso tk) (default "" (tc_user_id <$> ws))
           (default "" (tc_session_id <$> ws)) p key "created" "" 0 (default "" (tk_trace tk)) ""
           (tk_attempt_id tk) (py_str (default (PStr "") (od_get "phase_id" body)))
           (py_str (default (PStr "") (od_get "profile_id" body)))) (tk_iso tk)));
      task_id ← py_lift (str_field "task_id" body);
      _ ← RunManager.insert_run has_idempotency run task_id ws t;
      _ ← RunManager._publish_run_event has_events posture run_id "run_queued" [("state", PStr "created"); ("created_at", PStr (tk_iso tk))] tk;
      _ ← RunManager.persist_run durable has_store posture run body ws t p tk;
      mret run
   end) m.
Proof.
  intros (Hk & _ & Ht & Hp). unfold RunManager.create_run. rewrite Hk, Hp.
  destruct (str_field "tenant_id" body) as [b|e]; [|done]. change (resolve_tenant posture ws b = Ret t) in Ht.
  cbv [mbind PyM_bind py_lift]. by rewrite Ht.
Qed.

Lemma truthy_Some k : k <> "" -> truthy (Some k) = true.
Proof. intros Hk. unfold truthy. simpl. by rewrite bool_decide_false. Qed.

Lemma managed_same run run' : managed_run_post_init posture run = Ret run' -> run' = run.
Proof. unfold managed_run_post_init. destruct (require_fields _ _ _); [|done]. by intros [= ->]. Qed.

Lemma reserve_stub body ws t p k tk m stub m' :
  RunManager.reserve has_idempotency posture sha256 body ws t p k tk m = (Ret (inr stub), m') ->
  rs_outcome (mr_spec stub) = "replayed" /\ mr_tenant_id stub = t.
Proof.
  unfold RunManager.reserve. destruct (has_idempotency && truthy k); [|done]. cbv [mbind PyM_bind mret PyM_ret py_raise py_lift].
  destruct (RunManager.on_idempotency _ m) as [[[[] r]|e] m1]; try done.
  destruct (managed_run_post_init posture _) as [run|e] eqn:Hrun; [|done]. apply managed_same in Hrun as ->. by intros [= <- _].
Qed.

Lemma create_reserves body ws k t p tk m r m' : idem_wf (m_idempotency m) -> has_idempotency = true -> asks body ws k t p ->
  create_run body ws tk m = (Ret r, m') -> rs_outcome (mr_spec r) <> "replayed" ->
  let rid := mr_run_id r in
  reserved (t, k) (_hash_payload sha256 (od_pop "idempotency_key" body)) rid (tk_now tk + 86400000000) (m_idempotency m') /\
  forall x, idem_key x = (t, k) -> ir_run_id x = rid -> post_init posture x = Ret x.
Proof.
  intros Hwf Hh Ha. rewrite (asks_create body ws k t p tk m Ha). destruct Ha as (_ & Hk & _ & _).
  assert (has_idempotency && truthy (Some k) = true) as Hgo by (by rewrite Hh, truthy_Some).
  unfold mbind at 1, PyM_bind at 1.
  destruct (RunManager.reserve has_idempotency posture sha256 body ws t p (Some k) tk m) as [[[x|stub]|e] m1] eqn:Hres; [| |done].
  - destruct (reserve_created body ws t p (Some k) tk m x m1 Hwf Hgo Hres) as (-> & Hr & Hpost). simpl default in Hr, Hpost.
    intros Hc _. cbv zeta. revert Hc. unfold mbind at 1, PyM_bind at 1, py_lift at 1.
    match goal with |- context [managed_run_post_init _ ?run0] => set (run := run0) end.
    destruct (managed_run_post_init posture run) as [run1|e] eqn:Hrun; [|done].
    apply managed_same in Hrun as ->.
    unfold mbind at 1, PyM_bind at 1, py_lift at 1. destruct (str_field "task_id" body) as [task|]; [|done].
    unfold mbind at 1, PyM_bind at 1. destruct (RunManager.insert_run has_idempotency run task ws t m1) as [[a|] m2] eqn:Hins; [|done].
    apply insert_returns in Hins. intros Hc.
    apply (key_tail (t, k) (_hash_payload sha256 (od_pop "idempotency_key" body)) (tk_run_id tk) (tk_now tk + 86400000000)) in Hc
      as [-> Hkeep]. split; [|done]. apply Hkeep. by rewrite Hins.
  - intros [= <- _] Hne. by apply reserve_stub in Hres as [].
Qed.

(** C8: One run for a key.  After a call of [create_run] under an idempotency key has
    created a run, whatever clients, threads and the worker do for the day the reservation
    lasts (the end of the run included), the same request creates nothing: it is answered
    with the run of the first call and changes no state; another request under the key is
    refused as a conflict and changes no state. *)
Theorem create_once s ls body ws k t p tk1 tk2 r1 m1 :
  has_idempotency = true -> asks body ws k t p -> idem_wf (m_idempotency (mgr s)) ->
  create_run body ws tk1 (mgr s) = (Ret r1, m1) -> rs_outcome (mr_spec r1) <> "replayed" ->
  Forall (in_time (tk_now tk1 + 86400000000)) ls -> (tk_now tk2 <= tk_now tk1 + 86400000000)%Z ->
  let s' := run_labels (step s (RunManager.LCreate body ws tk1)) ls in
  (exists stub, create_run body ws tk2 (mgr s') = (Ret stub, mgr s') /\
     mr_run_id stub = mr_run_id r1 /\ rs_outcome (mr_spec stub) = "replayed" /\ mr_tenant_id stub = t) /\
  (forall body2, asks body2 ws k t p ->
     _hash_payload sha256 (od_pop "idempotency_key" body2) <> _hash_payload sha256 (od_pop "idempotency_key" body) ->
     create_run body2 ws tk2 (mgr s') = (Raise (ValueError "idempotency_conflict"), mgr s')).
Proof.
  intros Hh Ha Hwf Hc Hne Hls Ht s'. destruct (create_reserves body ws k t p tk1 (mgr s) r1 m1 Hwf Hh Ha Hc Hne) as [Hr Hpost].
  assert (has_idempotency && truthy (Some k) = true) as Hgo by (destruct Ha as (_ & Hk & _); by rewrite Hh, truthy_Some).
  assert (reserved (t, k) (_hash_payload sha256 (od_pop "idempotency_key" body)) (mr_run_id r1) (tk_now tk1 + 86400000000)
    (m_idempotency (mgr s'))) as Hr'.
  { apply labels_key; [done|]. cbn [RunManager.step RunManager.on_mgr RunManager.s_mgr]. by rewrite Hc. }
  assert (forall b, asks b ws k t p -> _) as Hagain by (intros b Hb;
    exact (reserve_again b ws t p (Some k) tk2 (mgr s') _ _ _ Hr' Ht Hgo Hpost)).
  split.
  - rewrite (asks_create body ws k t p) by done. specialize (Hagain body Ha). rewrite decide_True in Hagain by done.
    destruct Hagain as (stub & Hres & Hid & Ho). exists stub. unfold mbind at 1, PyM_bind at 1. rewrite Hres.
    split_and!; [done..|]. by apply reserve_stub in Hres as [_ ?].
  - intros body2 Hb Hhash. rewrite (asks_create body2 ws k t p) by done. specialize (Hagain body2 Hb).
    rewrite decide_False in Hagain by done. unfold mbind at 1, PyM_bind at 1. by rewrite Hagain.
Qed.

(** The tenant of what a call creates ***********************************************)

(** Rows are added for one owner only. *)
Definition rows_for {R T} (owner : R -> T) (t : T) (l l' : list R) : Prop :=
  forall row, row ∈ l' -> row ∈ l \/ owner row = t.

#[local] Instance rows_for_pre {R T} (owner : R -> T) t : PreOrder (rows_for owner t).
Proof. split; [by intros l row; left|]. intros l1 l2 l3 H1 H2 row [Hr|Hr]%H2; [by apply H1|by right]. Qed.

(** What a state has more than an earlier one: at most the run [rid], and rows of the run
    store, the run queue, the idempotency table and the event store, all of the
    workspace; new events are those of the run. *)
Definition adds_for (ctx : TenantContext) (rid : string) (m m' : manager) : Prop :=
  (forall x, x <> rid -> od_get x (m_runs m') = od_get x (m_runs m)) /\
  (forall r, od_get rid (m_runs m') = Some r -> od_get rid (m_runs m) = Some r \/ (_owns r ctx = true /\ mr_state r = "created")) /\
  rows_for rr_tenant_id (tc_tenant_id ctx) (m_run_store m) (m_run_store m') /\
  rows_for rq_tenant_id (tc_tenant_id ctx) (q_rows (m_run_queue m)) (q_rows (m_run_queue m')) /\
  rows_for ir_tenant_id (tc_tenant_id ctx) (m_idempotency m) (m_idempotency m') /\
  rows_for (fun e => (se_tenant_id e, se_run_id e)) (tc_tenant_id ctx, rid) (m_event_store m) (m_event_store m').

#[local] Instance adds_for_pre ctx rid : PreOrder (adds_for ctx rid).
Proof.
  split; [by intros m; split_and!; auto; try reflexivity|].
  intros m1 m2 m3 (A1 & B1 & C1 & D1 & E1 & F1) (A2 & B2 & C2 & D2 & E2 & F2).
  split_and!; [| |by etrans..].
  - intros x Hx. by rewrite A2, A1.
  - intros r [Hr|Hr]%B2; [|by right]. by apply B1.
Qed.

Lemma adds_same ctx rid m m' : m_runs m' = m_runs m -> m_run_store m' = m_run_store m -> m_run_queue m' = m_run_queue m ->
  m_idempotency m' = m_idempotency m -> m_event_store m' = m_event_store m -> adds_for ctx rid m m'.
Proof. unfold adds_for. intros -> -> -> -> ->. split_and!; auto; reflexivity. Qed.

Ltac adds_tac := repeat first [progress keeps_step | apply keeps_zoom; intros; by apply adds_same
  | apply keeps_modify; intros ?; by apply adds_same].

(** Calls of one table that add rows for the tenant only. *)
Lemma adds_idempotency {B} ctx rid (c : PyM idem_db B) : keeps (rows_for ir_tenant_id (tc_tenant_id ctx)) c ->
  keeps (adds_for ctx rid) (RunManager.on_idempotency c).
Proof.
  intros Hc m. unfold RunManager.on_idempotency, py_zoom. specialize (Hc (m_idempotency m)). destruct (c _) as [o t].
  split_and!; simpl; auto; reflexivity.
Qed.

Lemma adds_events {B} ctx rid (c : PyM event_db B) :
  keeps (rows_for (fun e => (se_tenant_id e, se_run_id e)) (tc_tenant_id ctx, rid)) c -> keeps (adds_for ctx rid) (RunManager.on_events c).
Proof.
  intros Hc m. unfold RunManager.on_events, py_zoom. specialize (Hc (m_event_store m)). destruct (c _) as [o t].
  split_and!; simpl; auto; reflexivity.
Qed.

Lemma delete_rows_for {R T} (owner : R -> T) t (p : R -> bool) l : rows_for owner t l (delete_where p l).
Proof. intros row [_ Hr]%list_elem_of_filter. by left. Qed.

Lemma adds_reserve ctx rid body ws t p k tk : t = tc_tenant_id ctx ->
  keeps (adds_for ctx rid) (RunManager.reserve has_idempotency posture sha256 body ws t p k tk).
Proof.
  intros ->. unfold RunManager.reserve. destruct (_ && _); [|adds_tac].
  apply keeps_bind; [apply _| |intros [[] ?]; adds_tac]. apply adds_idempotency. unfold IdempotencyStore.reserve_or_replay. cbv zeta.
  repeat first [progress keeps_step | apply keeps_modify; intros ?; first [reflexivity | apply delete_rows_for]].
  apply keeps_modify. intros l row [Hr| ->%list_elem_of_singleton]%elem_of_app; [by left|by right].
Qed.

Lemma adds_sequence ctx rid x t : keeps (adds_for ctx rid) (RunManager.on_events (EventStore.max_sequence posture x t)).
Proof.
  apply adds_events. unfold EventStore.max_sequence. repeat first [progress keeps_step | apply keeps_modify; reflexivity].
Qed.

Lemma adds_publish ctx run m ty d tk : od_get (mr_run_id run) (m_runs m) = Some run -> mr_tenant_id run = tc_tenant_id ctx ->
  adds_for ctx (mr_run_id run) m (RunManager._publish_run_event has_events posture (mr_run_id run) ty d tk m).2.
Proof.
  intros Hr Ht. unfold RunManager._publish_run_event. destruct has_events; [|reflexivity].
  unfold mbind at 1, PyM_bind at 1, RunManager.run_object. unfold mbind at 1, PyM_bind at 1, py_get. rewrite Hr. cbn [mret PyM_ret].
  match goal with |- adds_for _ _ ?m (?c ?m).2 => enough (keeps (adds_for ctx (mr_run_id run)) c) as Hc by apply Hc end.
  apply keeps_bind; [apply _| |intros seq].
  { unfold RunManager.next_sequence. repeat first [progress keeps_step | apply keeps_modify; intros ?; by apply adds_same | apply adds_sequence]. }
  apply keeps_bind_result; [apply _|adds_tac|]. intros event m1 m1' He. unfold py_lift, event_post_init in He.
  destruct (require_fields _ _ _); [|done]. injection He as <- _. apply keeps_suppress; [apply _|]. apply adds_events.
  apply keeps_modify. intros l. case_match; [reflexivity|]. intros row [Hin| ->%list_elem_of_singleton]%elem_of_app; [by left|right].
  simpl. by rewrite <-Ht.
Qed.

(** The insertion, and the event that announces the run. *)
Lemma adds_insert ctx run task ws t ty d tk : _owns run ctx = true -> mr_state run = "created" ->
  keeps (adds_for ctx (mr_run_id run))
    (_ ← RunManager.insert_run has_idempotency run task ws t; RunManager._publish_run_event has_events posture (mr_run_id run) ty d tk).
Proof.
  intros Ho Hs m. unfold RunManager.insert_run. unfold mbind at 2, PyM_bind at 2, py_get. unfold mbind at 1, PyM_bind at 1.
  destruct (negb _ && _).
  - match goal with |- adds_for _ _ ?m (match ?c with _ => _ end).2 => destruct c as [[x|e] m'] eqn:Hc end;
      [by apply bind_Ret_inv in Hc as (? & ? & _ & Hc)|]. cbn.
    match type of Hc with ?c _ = _ => enough (keeps (adds_for ctx (mr_run_id run)) c) as Hk by (specialize (Hk m); by rewrite Hc in Hk) end.
    apply keeps_bind; [apply _| |intros; adds_tac]. destruct (rs_idempotency_key _); [|adds_tac]. destruct has_idempotency; [|adds_tac].
    apply adds_idempotency. apply keeps_modify. intros l. apply delete_rows_for.
  - cbn [py_put]. set (m1 := set_runs m _).
    assert (adds_for ctx (mr_run_id run) m m1) as H1.
    { split_and!; simpl; auto; try reflexivity.
      - intros x Hx. by rewrite od_get_set_ne.
      - rewrite od_get_set_eq. intros r [= <-]. by right. }
    etrans; [exact H1|]. apply adds_publish; [apply od_get_set_eq|].
    unfold _owns in Ho. rewrite !andb_true_iff, bool_decide_eq_true in Ho. by destruct Ho as [[? _] _].
Qed.

Lemma adds_persist ctx rid run body ws t p tk : t <> "" -> t = tc_tenant_id ctx ->
  keeps (adds_for ctx rid) (RunManager.persist_run durable has_store posture run body ws t p tk).
Proof.
  intros Ht ->. unfold RunManager.persist_run. apply keeps_bind; [apply _| |intros _].
  - destruct has_store; [|adds_tac]. apply keeps_bind; [apply _|adds_tac|intros pr].
    apply keeps_bind_result; [apply _|adds_tac|]. intros record m m' Hrec.
    assert (rr_tenant_id record = tc_tenant_id ctx) as Hten.
    { unfold py_lift, run_record_post_init in Hrec. destruct (require_fields _ _ _); [|done]. by injection Hrec as <- _. }
    intros n. unfold RunManager.on_store, py_zoom, RunStore.upsert, RunStore.put_rows, py_modify. split_and!; simpl; auto; try reflexivity.
    intros row [[_ Hin]%list_elem_of_filter| ->%list_elem_of_singleton]%elem_of_app; [by left|right].
    simpl. rewrite Hten. unfold or_else. by rewrite decide_False.
  - destruct durable; [|adds_tac]. apply keeps_bind; [apply _|adds_tac|intros pr]. intros n.
    unfold RunManager.on_queue, py_zoom, RunQueue.enqueue, RunQueue.put_rows, py_modify. split_and!; simpl; auto; try reflexivity.
    intros row. destruct (select_one _ _); [by left|]. intros [Hin| ->%list_elem_of_singleton]%elem_of_app; [by left|by right].
Qed.
Lemma resolve_strict p ctx b t : posture = Ret p -> is_strict p = true -> resolve_tenant posture (Some ctx) b = Ret t ->
  tc_tenant_id ctx <> "" -> t = tc_tenant_id ctx.
Proof.
  intros Hpo Hs. unfold resolve_tenant. rewrite Hpo. cbn [mbind outcome_bind]. simpl default. rewrite Hs, bool_decide_false by done.
  cbn [andb]. intros Hr Hne. change (id (tc_tenant_id ctx)) with (tc_tenant_id ctx) in Hr.
  destruct (_ && _ && _); [done|]. rewrite decide_True in Hr by done. by injection Hr.
Qed.

Lemma strict_run_tenant p run : posture = Ret p -> is_strict p = true -> mr_tenant_id run = "" ->
  exists e, managed_run_post_init posture run = Raise e.
Proof.
  intros -> Hs Ht. unfold managed_run_post_init, require_fields. cbn [mbind outcome_bind]. rewrite Hs, Ht.
  destruct (decide (missing_fields _ = [])) as [Hm|]; [|by eexists]. exfalso. unfold missing_fields in Hm.
  apply fmap_nil_inv in Hm. assert (("tenant_id", "") ∈ ([] : list (string * string))) as Hin; [|by apply elem_of_nil in Hin].
  rewrite <-Hm. apply list_elem_of_filter. split; [done|]. right. by left.
Qed.

Lemma strict_workspace p ctx : posture = Ret p -> is_strict p = true -> tenant_context_post_init posture ctx = Ret ctx -> tc_tenant_id ctx <> "".
Proof.
  intros Hp Hs Hc Hempty. revert Hc. unfold tenant_context_post_init. rewrite Hp, Hempty. cbn. by rewrite Hs.
Qed.

(** C9: Runs belong to the authenticated workspace.  Under a strict posture, where no
    workspace without a tenant can be made, [create_run] without a workspace, or with a
    tenant in the body that is not the workspace's, raises and changes nothing.  In every
    other case, errors included, it leaves all registered runs but the new one as they
    were, the new one is the workspace's (its tenant, user and session) in state created,
    and every row it adds to the run store, the run queue, the idempotency table and the
    event store carries the tenant of the workspace, the events the id of the run. *)
Theorem create_run_workspace p ctx body tk m :
  posture = Ret p -> is_strict p = true -> tenant_context_post_init posture ctx = Ret ctx ->
  (exists e, create_run body None tk m = (Raise e, m)) /\
  (forall t, od_get "tenant_id" body = Some (PStr t) -> t <> "" -> t <> tc_tenant_id ctx ->
     exists e, create_run body (Some ctx) tk m = (Raise e, m)) /\
  adds_for ctx (tk_run_id tk) m (create_run body (Some ctx) tk m).2.
Proof.
  intros Hp Hs Hctx. pose proof (strict_workspace p ctx Hp Hs Hctx) as Hne. split_and!.
  - unfold RunManager.create_run. cbv [mbind PyM_bind py_lift].
    destruct (opt_text_field _ body); [|by eexists]. destruct (str_field "tenant_id" body); [|by eexists].
    unfold resolve_tenant. rewrite Hp. cbn [mbind outcome_bind]. rewrite Hs, bool_decide_true by done. by eexists.
  - intros t Hb Ht Hdiff. unfold RunManager.create_run. cbv [mbind PyM_bind py_lift].
    destruct (opt_text_field _ body); [|by eexists]. assert (str_field "tenant_id" body = Ret t) as -> by (unfold str_field; by rewrite Hb).
    unfold resolve_tenant. rewrite Hp. cbn [mbind outcome_bind]. simpl default. rewrite Hs, !bool_decide_false by done. by eexists.
  - revert m. change (keeps (adds_for ctx (tk_run_id tk)) (create_run body (Some ctx) tk)). unfold RunManager.create_run.
    apply keeps_bind; [apply _|adds_tac|intros key]. apply keeps_bind; [apply _|adds_tac|intros b].
    apply keeps_bind_result; [apply _|adds_tac|]. intros t m0 m0' Ht. unfold py_lift in Ht. injection Ht as Ht _.
    pose proof (resolve_strict p ctx b t Hp Hs Ht Hne) as Hten.
    apply keeps_bind; [apply _|adds_tac|intros project].
    apply keeps_bind_result; [apply _|by apply adds_reserve|]. intros [x|stub] mr mr' Hx; [|adds_tac]. apply reserve_result in Hx as ->.
    apply keeps_bind_result; [apply _|adds_tac|]. intros run m1 m1' Hrun. unfold py_lift in Hrun. injection Hrun as Hrun _.
    pose proof (managed_same _ _ Hrun) as Heq.
    assert (mr_run_id run = tk_run_id tk /\ mr_state run = "created" /\ _owns run ctx = true) as (Hid & Hst & Ho).
    { rewrite Heq. split_and!; [done|done|]. unfold _owns. simpl. rewrite !andb_true_iff, orb_true_iff, !bool_decide_eq_true. auto. }
    apply keeps_bind; [apply _|adds_tac|intros task]. rewrite <-Hid. intros m2.
    match goal with |- adds_for _ _ _ ((?i ≫= (fun _ => ?q ≫= ?k)) _).2 => assert ((i ≫= (fun _ => q ≫= k)) m2 = ((i ≫= fun _ => q) ≫= k) m2) as -> end.
    { unfold mbind, PyM_bind. by destruct (RunManager.insert_run _ _ _ _ _ m2) as [[]]. }
    revert m2. match goal with |- forall m2, adds_for _ _ m2 (?c m2).2 => change (keeps (adds_for ctx (mr_run_id run)) c) end.
    apply keeps_bind; [apply _|by apply adds_insert|intros _].
    apply keeps_bind; [apply _|apply adds_persist; congruence|intros _]. adds_tac.
Qed.

End create.

(** The key of a run that has ended still answers with the run. *)
Module KeySample.
Definition body : odict string pyval := [("goal", PStr "g"); ("idempotency_key", PStr "key-1")].
Definition other : odict string pyval := [("goal", PStr "h"); ("idempotency_key", PStr "key-1")].
Definition retry : tick := mkTick "t" 50 "event" None "run-2" "attempt-2".
Definition idle : RunManager.system := RunManager.start 1 [] [] empty_db [].
Definition work : list RunManager.label :=
  [RunManager.LStart "run-1"; RunManager.LThread 0 (Sample.at_time 2) Sample.answer; RunManager.LThread 0 (Sample.at_time 3) Sample.answer]
  ++ Sample.taken ++ Sample.executed 16.
Definition create (body : odict string pyval) (tk : tick) : PyM manager ManagedRun :=
  RunManager.create_run false true true false (Ret DEV) id body (Some Sample.workspace) tk.
Definition later : RunManager.system :=
  RunManager.run_labels 4 false true true false 60 (Ret DEV) id id (fun _ => "") (fun _ _ => PNone) (fun _ => [])
    (RunManager.step 4 false true true false 60 (Ret DEV) id id (fun _ => "") (fun _ _ => PNone) (fun _ => [])
       idle (RunManager.LCreate body (Some Sample.workspace) (Sample.at_time 1))) work.
End KeySample.

Lemma create_once_witness :
  let m := RunManager.s_mgr KeySample.later in
  (exists stub, KeySample.create KeySample.body KeySample.retry m = (Ret stub, m) /\ mr_run_id stub = "run-1") /\
  KeySample.create KeySample.other KeySample.retry m = (Raise (ValueError "idempotency_conflict"), m) /\
  mr_state <$> od_get "run-1" (m_runs m) = Some "completed".
Proof.
  cbv zeta. destruct (KeySample.create KeySample.body (Sample.at_time 1) (RunManager.s_mgr KeySample.idle)) as [[r1|e] m1] eqn:Hc;
    [|vm_compute in Hc; discriminate].
  destruct (create_once 4 false true true false 60 (Ret DEV) id id (fun _ => "") (fun _ _ => PNone) (fun _ => [])
    KeySample.idle KeySample.work KeySample.body (Some Sample.workspace) "key-1" "tenant" "" (Sample.at_time 1) KeySample.retry r1 m1)
    as [(stub & Hs & Hid & _) Hother].
  - reflexivity.
  - split_and!; [vm_compute; reflexivity|discriminate|vm_compute; reflexivity|vm_compute; reflexivity].
  - apply NoDup_nil_2.
  - exact Hc.
  - vm_compute in Hc. injection Hc as <- _. discriminate.
  - repeat constructor.
  - vm_compute. discriminate.
  - split; [|split].
    + exists stub. unfold KeySample.create, KeySample.later. split; [exact Hs|]. rewrite Hid. vm_compute in Hc. injection Hc as <- _. reflexivity.
    + unfold KeySample.create, KeySample.later. apply (Hother KeySample.other).
      * split_and!; [vm_compute; reflexivity|discriminate|vm_compute; reflexivity|vm_compute; reflexivity].
      * vm_compute. discriminate.
    + vm_compute. reflexivity.
Defined.

Lemma create_run_workspace_witness :
  (exists e, RunManager.create_run false true true false (Ret PROD) id KeySample.body None (Sample.at_time 1)
     (RunManager.s_mgr KeySample.idle) = (Raise e, RunManager.s_mgr KeySample.idle)) /\
  adds_for Sample.workspace "run-1" (RunManager.s_mgr KeySample.idle)
    (RunManager.create_run false true true false (Ret PROD) id KeySample.body (Some Sample.workspace) (Sample.at_time 1)
       (RunManager.s_mgr KeySample.idle)).2.
Proof.
  destruct (create_run_workspace false true true false (Ret PROD) id PROD Sample.workspace KeySample.body (Sample.at_time 1)
    (RunManager.s_mgr KeySample.idle) eq_refl eq_refl eq_refl) as (H1 & _ & H3). split; [exact H1|exact H3].
Defined.
