(* ===== verification/RunActor.v ===== *)
(** * Run actor ([agent_kernel/substrate/temporal/run_actor_workflow.py])

    [RunActorWorkflow]: the only authority over the life of a run.  It turns signals
    into commits of the event log, follows the projection, decides once per commit, has
    the turn engine run the action of a commit, records what the turn did, and consults
    the recovery gate when it failed.  The log, the projection service and the decision
    deduper are the ones of the kernel ([EventLog], [Projection], a set of fingerprints);
    the turn engine, the recovery gate, the stores it writes to, the clock and the
    workflow runtime are ports over a world of their own.  A handler is atomic, as it is
    over services that answer at once.  Peer authorisation is peer_auth.py. *)

From stdpp Require Import base tactics option list sets strings pretty.
From Stdlib Require Import ZArith.
From S2P Require Import Prelude PyStr PyDict PyVal Contracts EventLog SchemaMigration Projection Snapshot DispatchPolicy DedupeStore.
From S2P Require Import TurnEngine Compensation Recovery.
#[local] Arguments String.append : simpl nomatch.
#[local] Open Scope Z_scope.

(** Signals and the start payload ******************************************************)

Record ActorSignal := mkSignal {
  sg_signal_type : string;
  sg_signal_payload : option (odict string pyval);
  sg_caused_by : option string;
  sg_signal_token : option string;
  sg_from_peer_run_id : option string
}.

Record RunInput := mkRunInput {
  in_run_id : string;
  in_session_id : option string;
  in_parent_run_id : option string;
  in_pending_signals : option (list (odict string pyval));
  in_policy_versions : option RunPolicyVersions;
  in_initial_stage_id : option string
}.

(** The dictionary a buffered signal is carried over as. *)
Definition serialize_signal (s : ActorSignal) : odict string pyval := [
  ("signal_type", PStr (sg_signal_type s));
  ("signal_payload", opt_val PDict (sg_signal_payload s));
  ("caused_by", opt_val PStr (sg_caused_by s));
  ("signal_token", opt_val PStr (sg_signal_token s));
  ("from_peer_run_id", opt_val PStr (sg_from_peer_run_id s))
].

Definition SIGNAL_FIELDS : list string := ["signal_type"; "signal_payload"; "caused_by"; "signal_token"; "from_peer_run_id"].

(** A field that is a string or absent. *)
Definition opt_field (raw : odict string pyval) (name : string) : outcome (option string) :=
  match default PNone (od_get name raw) with
  | PNone => Ret None
  | PStr s => Ret (Some s)
  | _ => Raise (OutsideModel name)
  end.

(** [ActorSignal( **raw )] *)
Definition deserialize_signal (raw : odict string pyval) : outcome ActorSignal :=
  if negb (forallb (fun k => bool_decide (k ∈ SIGNAL_FIELDS)) (od_keys raw)) then
    Raise (TypeError "ActorSignal.__init__() got an unexpected keyword argument")
  else
    match od_get "signal_type" raw with
    | None => Raise (TypeError "ActorSignal.__init__() missing 1 required positional argument: 'signal_type'")
    | Some (PStr type) =>
        payload ← match default PNone (od_get "signal_payload" raw) with
                  | PNone => Ret None
                  | PDict d => Ret (Some d)
                  | _ => Raise (OutsideModel "signal_payload")
                  end;
        caused_by ← opt_field raw "caused_by";
        token ← opt_field raw "signal_token";
        peer ← opt_field raw "from_peer_run_id";
        mret (mkSignal type payload caused_by token peer)
    | Some _ => Raise (OutsideModel "signal_type")
    end.

Record TurnIntentRecord := mkIntentRecord {
  it_run_id : string;
  it_intent_commit_ref : string;
  it_decision_ref : string;
  it_decision_fingerprint : string;
  it_dispatch_dedupe_key : option string;
  it_host_kind : option HostKind;
  it_outcome_kind : TurnOutcomeKind;
  it_written_at : string
}.

Record RecoveryOutcome := mkRecoveryOutcome {
  ro_run_id : string;
  ro_action_id : option string;
  ro_recovery_mode : RecoveryMode;
  ro_outcome_state : string;
  ro_written_at : string;
  ro_operator_escalation_ref : option string;
  ro_emitted_event_ids : list string
}.

(** Helpers with no effects *************************************************************)

Definition _SIGNAL_EVENT_TYPE_MAP : odict string string := [
  ("resume_from_snapshot", "run.resume_requested");
  ("cancel_requested", "run.cancel_requested");
  ("hard_failure", "run.recovery_aborted");
  ("timeout", "run.waiting_external");
  ("recovery_succeeded", "run.recovery_succeeded");
  ("recovery_aborted", "run.recovery_aborted");
  ("plan_submitted", "run.plan_submitted");
  ("approval_submitted", "run.approval_submitted");
  ("speculation_committed", "run.speculation_committed");
  ("child_run_completed", "run.child_run_completed")
].

Definition _signal_event_type (signal_type : string) : string :=
  default ("signal." +:+ signal_type) (od_get signal_type _SIGNAL_EVENT_TYPE_MAP).

(** [d.setdefault(k, v)] *)
Definition od_setdefault (k : string) (v : pyval) (d : odict string pyval) : odict string pyval :=
  if od_mem k d then d else od_set k v d.

Definition _normalize_signal_payload (signal_type : string) (signal_payload : option (odict string pyval)) :
    option (odict string pyval) :=
  let normalized_payload := default [] signal_payload in
  let normalized_payload :=
    if decide (signal_type = "cancel_requested") then od_setdefault "reason" (PStr "cancel_requested") normalized_payload
    else if decide (signal_type = "hard_failure") then
      od_setdefault "reason" (PStr "hard_failure") (od_setdefault "mode" (PStr "abort") normalized_payload)
    else if decide (signal_type = "timeout") then
      od_setdefault "reason" (PStr "timeout") (od_setdefault "mode" (PStr "human_escalation") normalized_payload)
    else normalized_payload in
  match normalized_payload with [] => None | d => Some d end.

Definition turn_state_str (s : TurnState) : string :=
  match s with
  | collecting => "collecting" | intent_committed => "intent_committed" | reasoning => "reasoning"
  | snapshot_built => "snapshot_built" | admission_checked => "admission_checked" | dispatch_blocked => "dispatch_blocked"
  | ts_dispatched => "dispatched" | dispatch_acknowledged => "dispatch_acknowledged" | effect_unknown => "effect_unknown"
  | effect_recorded => "effect_recorded" | recovery_pending => "recovery_pending" | completed_noop => "completed_noop"
  | reasoning_failed => "reasoning_failed" | dedupe_degraded => "dedupe_degraded"
  end.

Definition outcome_str (k : TurnOutcomeKind) : string :=
  match k with out_noop => "noop" | out_blocked => "blocked" | out_dispatched => "dispatched" | out_recovery_pending => "recovery_pending" end.

Definition level_str (l : ExternalIdempotencyLevel) : string :=
  match l with lvl_guaranteed => "guaranteed" | lvl_best_effort => "best_effort" | lvl_unknown => "unknown" end.

Definition retry_str (p : RemoteRetryPolicy) : string := match p with no_auto_retry => "no_auto_retry" | bounded_retry => "bounded_retry" end.

Definition policy_reason_str (r : policy_reason) : string :=
  match r with
  | missing_remote_idempotency_contract => "missing_remote_idempotency_contract"
  | validated_remote_contract => "validated_remote_contract"
  | remote_contract_constrained => "remote_contract_constrained"
  end.

Definition stage_str (s : FailedStage) : string :=
  match s with
  | stage_admission => "admission" | stage_execution => "execution" | stage_verification => "verification"
  | stage_reconciliation => "reconciliation" | stage_callback => "callback"
  end.

Definition failure_class_str (c : FailureClass) : string :=
  match c with
  | fc_deterministic => "deterministic" | fc_transient => "transient" | fc_policy => "policy"
  | fc_side_effect => "side_effect" | fc_unknown => "unknown"
  end.

Definition source_str (s : FailureEvidenceSource) : string :=
  match s with
  | src_external_ack_ref => "external_ack_ref" | src_evidence_ref => "evidence_ref"
  | src_local_inference => "local_inference" | src_none => "none"
  end.

Definition _build_remote_policy_decision_payload (r : TurnResult) : option (odict string pyval) :=
  match tr_remote_policy_decision r with
  | None => None
  | Some d => Some [
      ("effective_idempotency_level", PStr (level_str (rpd_effective_idempotency_level d)));
      ("default_retry_policy", PStr (retry_str (rpd_default_retry_policy d)));
      ("auto_retry_enabled", PBool (rpd_auto_retry_enabled d));
      ("can_claim_guaranteed", PBool (rpd_can_claim_guaranteed d));
      ("reason", PStr (policy_reason_str (rpd_reason d)))]
  end.

Definition _extract_turn_emitted_states (events : list TurnStateEvent) : list string := map (fun e => turn_state_str (tse_state e)) events.

Definition _build_recovery_input_payload (r : TurnResult) : odict string pyval :=
  match tr_recovery_input r with
  | None => []
  | Some e => [
      ("failure_code", PStr (fe_failure_code e));
      ("failed_stage", PStr (stage_str (fe_failed_stage e)));
      ("failed_component", PStr (fe_failed_component e));
      ("failure_class", PStr (failure_class_str (fe_failure_class e)));
      ("evidence_priority_source", PStr (source_str (fe_evidence_priority_source e)));
      ("evidence_priority_ref", opt_val PStr (fe_evidence_priority_ref e))]
  end.

(** [if value is not None: payload[key] = value] *)
Definition set_some {A} (key : string) (f : A -> pyval) (value : option A) (payload : odict string pyval) : odict string pyval :=
  match value with Some v => od_set key (f v) payload | None => payload end.

Definition _build_turn_outcome_payload (r : TurnResult) : odict string pyval :=
  let payload : odict string pyval := [
    ("state", PStr (turn_state_str (tr_state r)));
    ("outcome_kind", PStr (outcome_str (tr_outcome_kind r)));
    ("decision_ref", PStr (tr_decision_ref r));
    ("decision_fingerprint", PStr (tr_decision_fingerprint r))] in
  let payload := set_some "intent_commit_ref" PStr (tr_intent_commit_ref r) payload in
  let payload := set_some "dispatch_dedupe_key" PStr (tr_dispatch_dedupe_key r) payload in
  let payload := set_some "host_kind" (fun h => PStr (host_str h)) (tr_host_kind r) payload in
  let payload := set_some "remote_policy_decision" PDict (_build_remote_policy_decision_payload r) payload in
  let emitted_states := _extract_turn_emitted_states (tr_emitted_events r) in
  let payload := match emitted_states with [] => payload | l => od_set "emitted_states" (PList (map PStr l)) payload end in
  let payload := set_some "action_commit" PDict (tr_action_commit r) payload in
  match tr_recovery_input r with
  | Some _ => od_set "recovery_input" (PDict (_build_recovery_input_payload r)) payload
  | None => payload
  end.

Definition _turn_outcome_event_type (k : TurnOutcomeKind) : string :=
  match k with
  | out_dispatched => "run.dispatching"
  | out_recovery_pending => "run.recovering"
  | out_blocked | out_noop => "run.ready"
  end.

Definition _recovery_event_type (m : RecoveryMode) : string :=
  match m with
  | abort => "run.recovery_aborted"
  | human_escalation => "run.waiting_external"
  | static_compensation | reflect_and_retry => "run.recovering"
  end.

Definition _recovery_outcome_state (m : RecoveryMode) : string :=
  match m with abort => "aborted" | human_escalation => "escalated" | _ => "executed" end.

Definition _assert_no_derived_diagnostic_authority_input (commit : ActionCommit) : outcome unit :=
  if existsb (fun e => bool_decide (ev_event_authority e = derived_diagnostic)) (ac_events commit) then
    Raise (ValueError "derived_diagnostic events must not enter authority input path.")
  else Ret tt.

Definition _assert_single_dispatch_attempt_in_turn (r : TurnResult) : outcome unit :=
  if (1 <? Z.of_nat (length (filter (fun e => tse_state e = ts_dispatched) (tr_emitted_events r)))) then
    Raise (RuntimeError "Single turn must not contain multiple authoritative dispatch attempts.")
  else Ret tt.

Definition _assert_recovery_gate_is_read_only (before_offset after_offset : Z) : outcome unit :=
  if decide (after_offset = before_offset) then Ret tt
  else Raise (RuntimeError "Recovery gate must be read-only and cannot append runtime events directly.").

Definition _assert_recovery_event_type_allowed (event_type : string) : outcome unit :=
  if decide (event_type ∈ ["run.recovering"; "run.waiting_external"; "run.recovery_aborted"]) then Ret tt
  else Raise (RuntimeError ("Recovery event type is not allowed for lifecycle safety: " +:+ event_type)).

(** [commit.events[-1].commit_offset] *)
Definition last_offset (commit : ActionCommit) : outcome Z :=
  match last (ac_events commit) with
  | Some e => Ret (ev_commit_offset e)
  | None => Raise (OtherError "IndexError" "list index out of range")
  end.

Definition _workflow_id_for_parent_run (parent_run_id workflow_id_prefix : string) : string :=
  let prefix := workflow_id_prefix +:+ ":" in
  if startswith parent_run_id prefix then parent_run_id else prefix +:+ parent_run_id.

(** [is_peer_run_authorized] of peer_auth.py *)
Definition is_peer_run_authorized (peer_run_id : string) (snapshot : CapabilitySnapshot) (active_child_runs : list string) : bool :=
  match cs_peer_run_bindings snapshot with
  | [] => match active_child_runs with [] => false | l => bool_decide (peer_run_id ∈ l) end
  | bindings => bool_decide (peer_run_id ∈ bindings)
  end.


(** The actor ***************************************************************************)

(** The fields the workflow changes.  No method sets [_last_snapshot]. *)
Record actor := mkActor {
  a_run_id : option string;
  a_session_id : option string;
  a_parent_run_id : option string;
  a_policy_versions : option RunPolicyVersions;
  a_active_stage_id : option string;
  a_last_projection : option RunProjection;
  a_last_snapshot : option CapabilitySnapshot;
  a_pending_signals : list ActorSignal;
  a_signal_sequence : Z;
  a_seen_signal_tokens : list string;
  a_history_event_count : Z
}.

Definition new_actor : actor := mkActor None None None None None None None [] 0 [] 0.

(** The services and the workflow runtime, over a world [T].  The gate may reach the
    event log.  [ap_before_append] is what an append may fail on, before anything is
    stored.  [ap_continue_as_new] and [ap_signal_parent] are the runtime's. *)
Record actor_ports (T : Type) := mkActorPorts {
  ap_run_turn : TurnInput -> Action -> PyM T TurnResult;
  ap_decide : RecoveryInput -> PyM (event_log * T) RecoveryDecision;
  ap_on_action_success : option (EffectClass -> PyM T unit);
  ap_mark_unknown_effect : string -> PyM T unit;
  ap_write_intent : option (TurnIntentRecord -> PyM T unit);
  ap_write_outcome : option (RecoveryOutcome -> PyM T unit);
  ap_before_append : ActionCommit -> PyM T unit;
  ap_now : T -> string * T;
  ap_in_workflow : bool;
  ap_signal_parent : string -> odict string pyval -> PyM T unit;
  ap_is_temporal_error : exn -> bool;
  ap_continue_as_new : RunInput -> PyM T unit;
  ap_workflow_id_prefix : string;
  ap_history_event_threshold : Z
}.
Arguments ap_run_turn {T}. Arguments ap_decide {T}. Arguments ap_on_action_success {T}. Arguments ap_mark_unknown_effect {T}.
Arguments ap_write_intent {T}. Arguments ap_write_outcome {T}. Arguments ap_before_append {T}. Arguments ap_now {T}.
Arguments ap_in_workflow {T}. Arguments ap_signal_parent {T}. Arguments ap_is_temporal_error {T}. Arguments ap_continue_as_new {T}.
Arguments ap_workflow_id_prefix {T}. Arguments ap_history_event_threshold {T}.

(** The actor beside its services; [aw_turns] records the calls of [run_turn], each with
    the fingerprint of its decision. *)
Record aworld (T : Type) := mkAW {
  aw_actor : actor;
  aw_log : event_log;
  aw_cache : projections;
  aw_fingerprints : list string;
  aw_turns : list (string * TurnInput);
  aw_rest : T
}.
Arguments mkAW {T}. Arguments aw_actor {T}. Arguments aw_log {T}. Arguments aw_cache {T}. Arguments aw_fingerprints {T}.
Arguments aw_turns {T}. Arguments aw_rest {T}.

(** The decision deduper of minimal_runtime.py. *)
Module InMemoryDecisionDeduper.
Definition seen (fingerprint : string) : PyM (list string) bool := s ← py_get; mret (bool_decide (fingerprint ∈ s)).
Definition mark (fingerprint : string) : PyM (list string) unit :=
  py_modify (fun s => if decide (fingerprint ∈ s) then s else s ++ [fingerprint]).
End InMemoryDecisionDeduper.

Module RunActor.
Section workflow.
Context {T : Type} (config : projection_config) (ports : actor_ports T).
Abbreviation world := (aworld T).

Definition on_rest {A} (m : PyM T A) : PyM world A :=
  py_zoom aw_rest (fun t w => mkAW (aw_actor w) (aw_log w) (aw_cache w) (aw_fingerprints w) (aw_turns w) t) m.
Definition on_log {A} (m : PyM event_log A) : PyM world A :=
  py_zoom aw_log (fun l w => mkAW (aw_actor w) l (aw_cache w) (aw_fingerprints w) (aw_turns w) (aw_rest w)) m.
Definition on_log_rest {A} (m : PyM (event_log * T) A) : PyM world A :=
  py_zoom (fun w => (aw_log w, aw_rest w))
    (fun lt w => mkAW (aw_actor w) lt.1 (aw_cache w) (aw_fingerprints w) (aw_turns w) lt.2) m.
Definition on_fingerprints {A} (m : PyM (list string) A) : PyM world A :=
  py_zoom aw_fingerprints (fun f w => mkAW (aw_actor w) (aw_log w) (aw_cache w) f (aw_turns w) (aw_rest w)) m.
Definition on_actor (f : actor -> actor) : PyM world unit :=
  py_modify (fun w => mkAW (f (aw_actor w)) (aw_log w) (aw_cache w) (aw_fingerprints w) (aw_turns w) (aw_rest w)).
(** The projection service reads the log. *)
Definition on_projection {A} (m : event_log -> PyM projections A) : PyM world A := fun w =>
  let '(r, cache) := m (aw_log w) (aw_cache w) in
  (r, mkAW (aw_actor w) (aw_log w) cache (aw_fingerprints w) (aw_turns w) (aw_rest w)).
Definition self : PyM world actor := fun w => (Ret (aw_actor w), w).

Definition _utc_now_iso : PyM world string := fun w =>
  let '(now, t) := ap_now ports (aw_rest w) in
  (Ret now, mkAW (aw_actor w) (aw_log w) (aw_cache w) (aw_fingerprints w) (aw_turns w) t).

Definition set_last_projection (p : RunProjection) (a : actor) : actor :=
  mkActor (a_run_id a) (a_session_id a) (a_parent_run_id a) (a_policy_versions a) (a_active_stage_id a) (Some p) (a_last_snapshot a)
    (a_pending_signals a) (a_signal_sequence a) (a_seen_signal_tokens a) (a_history_event_count a).
Definition set_pending (l : list ActorSignal) (a : actor) : actor :=
  mkActor (a_run_id a) (a_session_id a) (a_parent_run_id a) (a_policy_versions a) (a_active_stage_id a) (a_last_projection a)
    (a_last_snapshot a) l (a_signal_sequence a) (a_seen_signal_tokens a) (a_history_event_count a).
Definition set_sequence (n : Z) (a : actor) : actor :=
  mkActor (a_run_id a) (a_session_id a) (a_parent_run_id a) (a_policy_versions a) (a_active_stage_id a) (a_last_projection a)
    (a_last_snapshot a) (a_pending_signals a) n (a_seen_signal_tokens a) (a_history_event_count a).
Definition add_token (t : string) (a : actor) : actor :=
  mkActor (a_run_id a) (a_session_id a) (a_parent_run_id a) (a_policy_versions a) (a_active_stage_id a) (a_last_projection a)
    (a_last_snapshot a) (a_pending_signals a) (a_signal_sequence a)
    (if decide (t ∈ a_seen_signal_tokens a) then a_seen_signal_tokens a else a_seen_signal_tokens a ++ [t]) (a_history_event_count a).
Definition count_history (a : actor) : actor :=
  mkActor (a_run_id a) (a_session_id a) (a_parent_run_id a) (a_policy_versions a) (a_active_stage_id a) (a_last_projection a)
    (a_last_snapshot a) (a_pending_signals a) (a_signal_sequence a) (a_seen_signal_tokens a) (a_history_event_count a + 1).
Definition start_fields (i : RunInput) (a : actor) : actor :=
  mkActor (Some (in_run_id i)) (in_session_id i) (in_parent_run_id i) (in_policy_versions i) (in_initial_stage_id i)
    (a_last_projection a) (a_last_snapshot a) (a_pending_signals a) (a_signal_sequence a) (a_seen_signal_tokens a) (a_history_event_count a).

Definition append_commit (commit : ActionCommit) : PyM world unit :=
  _ ← on_rest (ap_before_append ports commit);
  _ ← on_log (append_action_commit commit);
  mret tt.

Definition _latest_run_offset (run_id : string) : PyM world Z := fun w =>
  (Ret (match map ev_commit_offset (load run_id 0 (aw_log w)) with
        | [] => 0
        | o :: rest => foldl Z.max o rest
        end), w).

(** [_append_recovery_event] *)
Definition plan_payload (d : RecoveryDecision) : odict string pyval := [
  ("planned_mode", PStr (mode_str (rd_mode d)));
  ("reason", PStr (rd_reason d));
  ("compensation_action_id", opt_str_val (rd_compensation_action_id d));
  ("escalation_channel_ref", opt_str_val (rd_escalation_channel_ref d))
].

Definition recovery_events (run_id : string) (offset : Z) (d : RecoveryDecision) (at_plan at_fact : string) : list RuntimeEvent := [
  mkRuntimeEvent run_id ("evt-recovery-plan-" +:+ pretty offset) offset "recovery.plan_selected" ec_derived derived_diagnostic run_id
    projection_only at_plan None None (Some (plan_payload d)) "1";
  mkRuntimeEvent run_id ("evt-recovery-" +:+ pretty offset) (offset + 1) (_recovery_event_type (rd_mode d)) ec_fact authoritative_fact
    run_id wake_actor at_fact None None (Some [("mode", PStr (mode_str (rd_mode d))); ("reason", PStr (rd_reason d))]) "1"
].

Definition _append_recovery_event (run_id : string) (offset : Z) (d : RecoveryDecision) (caused_by : option string) : PyM world unit :=
  let event_type := _recovery_event_type (rd_mode d) in
  _ ← py_lift (_assert_recovery_event_type_allowed event_type);
  created_at ← _utc_now_iso;
  at_plan ← _utc_now_iso;
  at_fact ← _utc_now_iso;
  _ ← append_commit (mkActionCommit run_id ("recovery:" +:+ event_type +:+ ":" +:+ pretty offset)
                       (recovery_events run_id offset d at_plan at_fact) created_at None caused_by);
  match ap_write_outcome ports with
  | None => mret tt
  | Some write_outcome =>
      written_at ← _utc_now_iso;
      on_rest (write_outcome (mkRecoveryOutcome run_id caused_by (rd_mode d) (_recovery_outcome_state (rd_mode d)) written_at
        (rd_escalation_channel_ref d) ["evt-recovery-plan-" +:+ pretty offset; "evt-recovery-" +:+ pretty offset]))
  end.

Definition turn_event (run_id : string) (offset : Z) (r : TurnResult) (created_at : string) : RuntimeEvent :=
  mkRuntimeEvent run_id ("evt-turn-" +:+ outcome_str (tr_outcome_kind r) +:+ "-" +:+ pretty offset) offset
    (_turn_outcome_event_type (tr_outcome_kind r)) ec_fact authoritative_fact run_id wake_actor created_at
    (Some (tr_decision_fingerprint r)) None (Some (_build_turn_outcome_payload r)) "1".

(** Answers the next offset. *)
Definition _append_turn_outcome_commit (run_id : string) (offset : Z) (r : TurnResult) (caused_by : option string) : PyM world Z :=
  at_event ← _utc_now_iso;
  let event := turn_event run_id offset r at_event in
  _ ← match ap_write_intent ports, tr_intent_commit_ref r with
      | Some write_intent, Some intent_commit_ref =>
          written_at ← _utc_now_iso;
          on_rest (write_intent (mkIntentRecord run_id intent_commit_ref (tr_decision_ref r) (tr_decision_fingerprint r)
            (tr_dispatch_dedupe_key r) (tr_host_kind r) (tr_outcome_kind r) written_at))
      | _, _ => mret tt
      end;
  created_at ← _utc_now_iso;
  _ ← append_commit (mkActionCommit run_id ("turn:" +:+ outcome_str (tr_outcome_kind r) +:+ ":" +:+ pretty offset) [event]
                       created_at None caused_by);
  mret (offset + 1).

(** The gate decides between two readings of the log, and its decision is recorded. *)
Definition recover (commit : ActionCommit) (action : Action) (projection : RunProjection) (reason_code : string) (offset : Z) :
    PyM world unit :=
  before ← _latest_run_offset (ac_run_id commit);
  decision ← on_log_rest (ap_decide ports (mkRecoveryInput (ac_run_id commit) reason_code (rp_lifecycle_state projection) projection
               (Some (act_action_id action)) 0 None (Some (effect_str (act_effect_class action)))));
  after ← _latest_run_offset (ac_run_id commit);
  _ ← py_lift (_assert_recovery_gate_is_read_only before after);
  _append_recovery_event (ac_run_id commit) offset decision (Some (act_action_id action)).

Definition run_turn (fingerprint : string) (i : TurnInput) (action : Action) : PyM world TurnResult :=
  _ ← py_modify (fun w => mkAW (aw_actor w) (aw_log w) (aw_cache w) (aw_fingerprints w) (aw_turns w ++ [(fingerprint, i)]) (aw_rest w));
  on_rest (ap_run_turn ports i action).

(** The body of the [try]. *)
Definition turn_and_record (commit : ActionCommit) (fingerprint : string) (last_offset : Z) (action : Action)
    (projection : RunProjection) : PyM world unit :=
  turn_result ← run_turn fingerprint (mkTurnInput (ac_run_id commit) last_offset last_offset trig_signal []) action;
  next_offset ← py_except is_exception
    (_append_turn_outcome_commit (ac_run_id commit) (last_offset + 1) turn_result (Some (act_action_id action)))
    (fun e =>
       _ ← match tr_dispatch_dedupe_key turn_result with
           | Some dedupe_key => py_suppress (on_rest (ap_mark_unknown_effect ports dedupe_key))
           | None => mret tt
           end;
       py_raise e);
  _ ← py_lift (_assert_single_dispatch_attempt_in_turn turn_result);
  _ ← match ap_on_action_success ports with
      | Some on_success =>
          if decide (tr_outcome_kind turn_result = out_dispatched)
          then py_suppress (on_rest (on_success (act_effect_class action))) else mret tt
      | None => mret tt
      end;
  if decide (tr_outcome_kind turn_result = out_recovery_pending) then
    recover commit action projection (from_option fe_failure_code "effect_unknown" (tr_recovery_input turn_result)) next_offset
  else mret tt.

Definition fingerprint_of (commit : ActionCommit) (offset : Z) : string :=
  ac_run_id commit +:+ ":" +:+ ac_commit_id commit +:+ ":" +:+ pretty offset.

Definition process_action_commit (commit : ActionCommit) : PyM world unit :=
  _ ← py_lift (_assert_no_derived_diagnostic_authority_input commit);
  offset ← py_lift (last_offset commit);
  projection ← on_projection (fun l => catch_up config l (ac_run_id commit) offset);
  _ ← on_actor (set_last_projection projection);
  ready ← on_projection (fun l => readiness config l (ac_run_id commit) offset);
  if negb ready then mret tt
  else
    let fingerprint := fingerprint_of commit offset in
    known ← on_fingerprints (InMemoryDecisionDeduper.seen fingerprint);
    if (known : bool) then mret tt
    else
      _ ← on_fingerprints (InMemoryDecisionDeduper.mark fingerprint);
      match ac_action commit with
      | None => mret tt
      | Some action =>
          py_except is_exception (turn_and_record commit fingerprint offset action projection)
            (fun err =>
               _ ← recover commit action projection (lower (exn_type_name err)) (offset + 1);
               py_raise err)
      end.

Definition _is_run_terminal (a : actor) : bool :=
  match a_last_projection a with
  | Some p => bool_decide (rp_lifecycle_state p ∈ [ls_completed; ls_aborted])
  | None => false
  end.

Definition _should_continue_as_new (a : actor) : bool :=
  if negb (ap_in_workflow ports) then false
  else if (a_history_event_count a <? ap_history_event_threshold ports) then false
  else match a_last_projection a with
       | None => false
       | Some p =>
           match a_pending_signals a with
           | [] => bool_decide (rp_lifecycle_state p ∉ [ls_completed; ls_aborted])
           | _ => false
           end
       end.

Definition continued_input (a : actor) (run_id : string) : RunInput :=
  mkRunInput run_id (a_session_id a) (a_parent_run_id a)
    (match map serialize_signal (a_pending_signals a) with [] => None | l => Some l end) None None.

Definition _trigger_continue_as_new : PyM world unit :=
  a ← self;
  match a_run_id a with
  | None => mret tt
  | Some run_id => on_rest (ap_continue_as_new ports (continued_input a run_id))
  end.

(** The check of the sending run at the start of [_handle_signal]. *)
Definition peer_admitted (s : ActorSignal) (a : actor) : bool :=
  match sg_from_peer_run_id s with
  | None => true
  | Some peer =>
      let active_children := from_option rp_active_child_runs [] (a_last_projection a) in
      match a_last_snapshot a with
      | Some snapshot => is_peer_run_authorized peer snapshot active_children
      | None => bool_decide (peer ∈ active_children)
      end
  end.

(** The token of a signal that names its cause. *)
Definition signal_token (s : ActorSignal) : option string :=
  match sg_caused_by s with
  | Some cause => if decide (cause = "") then None else Some (sg_signal_type s +:+ ":" +:+ cause)
  | None => None
  end.

Definition signal_event (run_id : string) (sequence offset : Z) (s : ActorSignal) (created_at : string) : RuntimeEvent :=
  mkRuntimeEvent run_id ("evt-signal-" +:+ pretty sequence) offset (_signal_event_type (sg_signal_type s)) ec_fact authoritative_fact
    run_id wake_actor created_at None None (_normalize_signal_payload (sg_signal_type s) (sg_signal_payload s)) "1".

Definition signal_commit (run_id : string) (sequence offset : Z) (s : ActorSignal) (at_commit at_event : string) : ActionCommit :=
  mkActionCommit run_id
    ("signal:" +:+ sg_signal_type s +:+ ":" +:+
       match sg_caused_by s with
       | Some cause => if decide (cause = "") then "seq-" +:+ pretty sequence else cause
       | None => "seq-" +:+ pretty sequence
       end)
    [signal_event run_id sequence offset s at_event] at_commit None (sg_caused_by s).

Definition _handle_signal (s : ActorSignal) : PyM world unit :=
  a ← self;
  if negb (truthy (a_run_id a)) then py_raise (RuntimeError "RunActorWorkflow.run must be called first.")
  else if negb (peer_admitted s a) then mret tt
  else if match signal_token s with Some t => bool_decide (t ∈ a_seen_signal_tokens a) | None => false end then mret tt
  else
    let run_id := default "" (a_run_id a) in
    let sequence := a_signal_sequence a + 1 in
    _ ← on_actor (set_sequence sequence);
    projection ← on_projection (fun l => Projection.get config l run_id);
    at_commit ← _utc_now_iso;
    at_event ← _utc_now_iso;
    let commit := signal_commit run_id sequence (rp_projected_offset projection + 1) s at_commit at_event in
    _ ← append_commit commit;
    _ ← on_actor (match signal_token s with Some t => add_token t | None => id end);
    _ ← process_action_commit commit;
    _ ← on_actor count_history;
    a' ← self;
    if _should_continue_as_new a' then _trigger_continue_as_new else mret tt.

Definition signal (s : ActorSignal) : PyM world unit :=
  a ← self;
  if negb (truthy (a_run_id a)) then on_actor (set_pending (a_pending_signals a ++ [s]))
  else _handle_signal s.

Fixpoint handle_all (signals : list ActorSignal) : PyM world unit :=
  match signals with
  | [] => mret tt
  | s :: rest => _ ← _handle_signal s; handle_all rest
  end.

Fixpoint restore_all (raws : list (odict string pyval)) : PyM world unit :=
  match raws with
  | [] => mret tt
  | raw :: rest =>
      s ← py_lift (deserialize_signal raw);
      a ← self;
      _ ← on_actor (set_pending (a_pending_signals a ++ [s]));
      restore_all rest
  end.

Definition pinned_commit (run_id : string) (v : RunPolicyVersions) (at_commit at_event : string) : ActionCommit :=
  mkActionCommit run_id ("policy-versions-pinned:" +:+ run_id)
    [mkRuntimeEvent run_id ("evt-policy-pinned-" +:+ run_id) 0 "run.policy_versions_pinned" ec_fact authoritative_fact run_id
       projection_only at_event None None
       (Some [("route_policy_version", opt_str_val (pv_route_policy_version v));
              ("skill_policy_version", opt_str_val (pv_skill_policy_version v));
              ("evaluation_policy_version", opt_str_val (pv_evaluation_policy_version v));
              ("task_view_policy_version", opt_str_val (pv_task_view_policy_version v));
              ("pinned_at", PStr (pv_pinned_at v))]) "1"]
    at_commit None (Some "run.start").

(** [run] up to the point where it waits for the run to be terminal. *)
Definition run_start (i : RunInput) : PyM world unit :=
  _ ← on_actor (start_fields i);
  projection ← on_projection (fun l => Projection.get config l (in_run_id i));
  _ ← on_actor (set_last_projection projection);
  _ ← match in_policy_versions i with
      | None => mret tt
      | Some v =>
          at_commit ← _utc_now_iso;
          at_event ← _utc_now_iso;
          append_commit (pinned_commit (in_run_id i) v at_commit at_event)
      end;
  _ ← restore_all (default [] (in_pending_signals i));
  a ← self;
  _ ← on_actor (set_pending []);
  handle_all (a_pending_signals a).

Definition final_state (s : RunLifecycleState) : string :=
  match s with ls_aborted => "aborted" | ls_failed => "failed" | _ => "completed" end.

Definition _notify_parent_child_completed (parent_run_id : option string) : PyM world unit :=
  a ← self;
  match parent_run_id with
  | None => mret tt
  | Some parent =>
      if bool_decide (parent = "") || negb (truthy (a_run_id a)) || negb (ap_in_workflow ports) then mret tt
      else
        let outcome := from_option (fun p => final_state (rp_lifecycle_state p)) "completed" (a_last_projection a) in
        py_except (fun e => ap_is_temporal_error ports e || match e with RuntimeError _ => true | _ => false end)
          (on_rest (ap_signal_parent ports (_workflow_id_for_parent_run parent (ap_workflow_id_prefix ports)) [
             ("signal_type", PStr "child_run_completed");
             ("signal_payload", PDict [("child_run_id", PStr (default "" (a_run_id a))); ("outcome", PStr outcome); ("task_id", PNone)]);
             ("caused_by", PStr ("child:" +:+ default "" (a_run_id a)))]))
          (fun _ => mret tt)
  end.

(** The rest of [run]: in a workflow, once [_is_run_terminal] holds. *)
Definition run_finish (i : RunInput) : PyM world (string * string) :=
  _ ← (if ap_in_workflow ports then
         projection ← on_projection (fun l => Projection.get config l (in_run_id i));
         on_actor (set_last_projection projection)
       else mret tt);
  a ← self;
  match a_last_projection a with
  | None => py_raise (OtherError "AttributeError" "'NoneType' object has no attribute 'lifecycle_state'")
  | Some p =>
      _ ← _notify_parent_child_completed (in_parent_run_id i);
      mret (in_run_id i, final_state (rp_lifecycle_state p))
  end.

(** [run] outside a workflow: nothing is waited for. *)
Definition run (i : RunInput) : PyM world (string * string) := _ ← run_start i; run_finish i.

Definition query (a : actor) : outcome RunProjection :=
  if negb (truthy (a_run_id a)) then Raise (RuntimeError "RunActorWorkflow.run must be called first.")
  else match a_last_projection a with
       | None => Raise (RuntimeError "RunActorWorkflow projection is not initialized.")
       | Some p => Ret p
       end.
End workflow.
End RunActor.

(** Lemmas *************************************************************************)

Module ActorFacts.
Import RunActor.
Section facts.
Context {T : Type} (config : projection_config) (ports : actor_ports T).
Implicit Types (w : aworld T) (commit : ActionCommit).

(** Only the log and the rest of the world differ. *)
Definition same_core w w' : Prop :=
  aw_actor w' = aw_actor w /\ aw_cache w' = aw_cache w /\ aw_fingerprints w' = aw_fingerprints w /\ aw_turns w' = aw_turns w.

#[local] Instance same_core_preorder : PreOrder same_core.
Proof. split; [done|]. intros w1 w2 w3 (?&?&?&?) (?&?&?&?). unfold same_core. by split_and!; etrans. Qed.

Lemma core_rest {A} (m : PyM T A) : keeps same_core (on_rest m).
Proof. intros w. unfold on_rest, py_zoom. by destruct (m (aw_rest w)). Qed.
Lemma core_log {A} (m : PyM event_log A) : keeps same_core (on_log m).
Proof. intros w. unfold on_log, py_zoom. by destruct (m (aw_log w)). Qed.
Lemma core_log_rest {A} (m : PyM (event_log * T) A) : keeps same_core (on_log_rest m).
Proof. intros w. unfold on_log_rest, py_zoom. by destruct (m (aw_log w, aw_rest w)). Qed.
Lemma core_now : keeps same_core (_utc_now_iso ports).
Proof. intros w. unfold _utc_now_iso. by destruct (ap_now ports (aw_rest w)). Qed.
Lemma core_latest run_id : keeps same_core (_latest_run_offset (T := T) run_id).
Proof. intros w. done. Qed.
Hint Resolve core_rest core_log core_log_rest core_now core_latest : keeps.

Lemma core_append commit : keeps same_core (append_commit ports commit).
Proof. unfold append_commit. keeps. Qed.
Hint Resolve core_append : keeps.

Lemma core_recover commit action p reason offset : keeps same_core (recover ports commit action p reason offset).
Proof. unfold recover, _append_recovery_event. keeps. Qed.

Lemma core_outcome run_id offset r cause : keeps same_core (_append_turn_outcome_commit ports run_id offset r cause).
Proof. unfold _append_turn_outcome_commit. keeps. Qed.
Hint Resolve core_recover core_outcome : keeps.

(** A turn is called exactly once, whatever comes of it. *)
Lemma turn_called commit fingerprint o action p w :
  same_core (mkAW (aw_actor w) (aw_log w) (aw_cache w) (aw_fingerprints w)
               (aw_turns w ++ [(fingerprint, mkTurnInput (ac_run_id commit) o o trig_signal [])]) (aw_rest w))
    (turn_and_record ports commit fingerprint o action p w).2.
Proof.
  set (i := mkTurnInput (ac_run_id commit) o o trig_signal []).
  set (w1 := mkAW (aw_actor w) (aw_log w) (aw_cache w) (aw_fingerprints w) (aw_turns w ++ [(fingerprint, i)]) (aw_rest w)).
  unfold turn_and_record. fold i. unfold mbind at 1, PyM_bind at 1.
  change (run_turn ports fingerprint i action w) with (on_rest (ap_run_turn ports i action) w1).
  pose proof (core_rest (ap_run_turn ports i action) w1) as Hc.
  destruct (on_rest (ap_run_turn ports i action) w1) as [[r|e] w2]; [|done]. simpl in Hc. etrans; [exact Hc|]. clear.
  match goal with |- same_core _ (?m w2).2 => assert (keeps same_core m) as Hk; [keeps|apply Hk] end.
Qed.

(** What a decision leaves: it is marked before its turn is called, and a marked decision
    is never taken again. *)
Definition decided_by (f : string) w w' : Prop :=
  aw_fingerprints w' = aw_fingerprints w /\ aw_turns w' = aw_turns w \/
  f ∉ aw_fingerprints w /\ aw_fingerprints w' = aw_fingerprints w ++ [f] /\
    (aw_turns w' = aw_turns w \/ exists i, aw_turns w' = aw_turns w ++ [(f, i)]).

Definition same_actor w w' : Prop := aw_actor w' = aw_actor w \/ exists p, aw_actor w' = set_last_projection p (aw_actor w).

Lemma on_projection_eq {A} (m : event_log -> PyM projections A) w :
  on_projection m w = ((m (aw_log w) (aw_cache w)).1,
    mkAW (aw_actor w) (aw_log w) (m (aw_log w) (aw_cache w)).2 (aw_fingerprints w) (aw_turns w) (aw_rest w)).
Proof. unfold on_projection. by destruct (m (aw_log w) (aw_cache w)). Qed.

(** The part of a commit's processing that follows the check of readiness. *)
Definition decide_once commit (o : Z) (p : RunProjection) : PyM (aworld T) unit :=
  known ← on_fingerprints (InMemoryDecisionDeduper.seen (fingerprint_of commit o));
  if (known : bool) then mret tt
  else
    _ ← on_fingerprints (InMemoryDecisionDeduper.mark (fingerprint_of commit o));
    match ac_action commit with
    | None => mret tt
    | Some action =>
        py_except is_exception (turn_and_record ports commit (fingerprint_of commit o) o action p)
          (fun err => _ ← recover ports commit action p (lower (exn_type_name err)) (o + 1); py_raise err)
    end.

Lemma decide_once_spec commit o p w :
  let w' := (decide_once commit o p w).2 in
  aw_actor w' = aw_actor w /\ aw_cache w' = aw_cache w /\ decided_by (fingerprint_of commit o) w w'.
Proof.
  set (f := fingerprint_of commit o). unfold decide_once. fold f. cbn zeta.
  unfold on_fingerprints, py_zoom, InMemoryDecisionDeduper.seen, InMemoryDecisionDeduper.mark, py_modify.
  cbv [mbind PyM_bind py_get mret PyM_ret]. destruct (bool_decide (f ∈ aw_fingerprints w)) eqn:Hk.
  { split; [done|]. split; [done|]. by left. }
  apply bool_decide_eq_false in Hk. cbn [aw_fingerprints].
  rewrite (decide_False (P := f ∈ aw_fingerprints w)) by done.
  cbn [aw_actor aw_log aw_cache aw_turns aw_rest].
  set (w1 := mkAW (aw_actor w) (aw_log w) (aw_cache w) (aw_fingerprints w ++ [f]) (aw_turns w) (aw_rest w)).
  destruct (ac_action commit) as [action|]; [|split_and!; [done..|right]; split_and!; [done..|by left]].
  pose proof (turn_called commit f o action p w1) as (Ha & Hc & Hf & Ht).
  unfold py_except. destruct (turn_and_record ports commit f o action p w1) as [[u|e] w2]; simpl in Ha, Hc, Hf, Ht |- *.
  { split_and!; [done..|right]. split_and!; [done..|right]. eauto. }
  destruct (is_exception e); simpl.
  2:{ split_and!; [done..|right]. split_and!; [done..|right]. eauto. }
  pose proof (core_recover commit action p (lower (exn_type_name e)) (o + 1) w2) as (Ha' & Hc' & Hf' & Ht').
  destruct (recover ports commit action p (lower (exn_type_name e)) (o + 1) w2) as [[u|e'] w3]; simpl in *;
    rewrite Ha', Hc', Ha, Hc; (split_and!; [done..|right]); rewrite Hf', Ht', Hf, Ht; (split_and!; [done..|right]); eauto.
Qed.

Lemma process_eq commit w :
  process_action_commit config ports commit w =
  match _assert_no_derived_diagnostic_authority_input commit, last_offset commit with
  | Raise e, _ | _, Raise e => (Raise e, w)
  | Ret _, Ret o =>
      match catch_up config (aw_log w) (ac_run_id commit) o (aw_cache w) with
      | (Raise e, cache) => (Raise e, mkAW (aw_actor w) (aw_log w) cache (aw_fingerprints w) (aw_turns w) (aw_rest w))
      | (Ret p, cache) =>
          let '(r, cache') := readiness config (aw_log w) (ac_run_id commit) o cache in
          let w1 := mkAW (set_last_projection p (aw_actor w)) (aw_log w) cache' (aw_fingerprints w) (aw_turns w) (aw_rest w) in
          match r with
          | Raise e => (Raise e, w1)
          | Ret ready => if ready then decide_once commit o p w1 else (Ret tt, w1)
          end
      end
  end.
Proof.
  unfold process_action_commit, decide_once. unfold mbind at 1, PyM_bind at 1. unfold py_lift at 1.
  destruct (_assert_no_derived_diagnostic_authority_input commit) as [u|e]; [|done].
  unfold mbind at 1, PyM_bind at 1. unfold py_lift at 1. destruct (last_offset commit) as [o|e]; [|done].
  unfold mbind at 1, PyM_bind at 1. rewrite on_projection_eq. destruct (catch_up config (aw_log w) (ac_run_id commit) o (aw_cache w)) as [[p|e] cache]; [|done].
  unfold mbind at 1, PyM_bind at 1. unfold on_actor, py_modify. cbn [fst snd aw_actor aw_log aw_cache aw_fingerprints aw_turns aw_rest].
  unfold mbind at 1, PyM_bind at 1. rewrite on_projection_eq. cbn [fst snd aw_actor aw_log aw_cache aw_fingerprints aw_turns aw_rest].
  destruct (readiness config (aw_log w) (ac_run_id commit) o cache) as [[r|e] cache']; simpl; [|done]. by destruct r.
Qed.

Lemma process_spec commit w :
  let w' := (process_action_commit config ports commit w).2 in
  same_actor w w' /\
  (aw_fingerprints w' = aw_fingerprints w /\ aw_turns w' = aw_turns w \/
   exists o, last_offset commit = Ret o /\ decided_by (fingerprint_of commit o) w w').
Proof.
  cbn zeta. rewrite process_eq. destruct (_assert_no_derived_diagnostic_authority_input commit) as [u|e]; [|by split; left].
  destruct (last_offset commit) as [o|e]; [|by split; left].
  destruct (catch_up config (aw_log w) (ac_run_id commit) o (aw_cache w)) as [[p|e] cache]; [|by split; left].
  destruct (readiness config (aw_log w) (ac_run_id commit) o cache) as [[[]|e] cache'].
  - set (w1 := mkAW _ _ _ _ _ _). destruct (decide_once_spec commit o p w1) as (Ha & _ & Hd). split; [right; by exists p|right; by exists o].
  - split; [right; by exists p|by left].
  - split; [right; by exists p|by left].
Qed.

(** Sequences of calls of a started actor. *)
Inductive actor_op :=
  | OSignal (s : ActorSignal)
  | OProcess (commit : ActionCommit)
  | OFinish (i : RunInput).

Definition run_op (op : actor_op) : PyM (aworld T) unit :=
  match op with
  | OSignal s => signal config ports s
  | OProcess commit => process_action_commit config ports commit
  | OFinish i => _ ← run_finish config ports i; mret tt
  end.

(** Each call works on what the one before left, whether it returned or raised. *)
Fixpoint run_ops (ops : list actor_op) w : aworld T :=
  match ops with
  | [] => w
  | op :: rest => run_ops rest (run_op op w).2
  end.

(** What any call keeps: the identity of the run, the tokens seen, the decisions taken;
    and each turn it calls decides something new. *)
Definition advances w w' : Prop :=
  a_run_id (aw_actor w') = a_run_id (aw_actor w) /\
  a_seen_signal_tokens (aw_actor w) ⊆ a_seen_signal_tokens (aw_actor w') /\
  a_last_snapshot (aw_actor w') = a_last_snapshot (aw_actor w) /\
  exists new turns, aw_fingerprints w' = aw_fingerprints w ++ new /\ aw_turns w' = aw_turns w ++ turns /\
    map fst turns `sublist_of` new /\ NoDup new /\ (forall f, f ∈ new -> f ∉ aw_fingerprints w).

#[local] Instance advances_preorder : PreOrder advances.
Proof.
  split.
  - intros w. split_and!; [done..|]. exists [], []. rewrite !app_nil_r. split_and!; [done|done|done|constructor|set_solver].
  - intros w1 w2 w3 (R1 & T1 & S1 & n1 & t1 & F1 & C1 & B1 & N1 & D1) (R2 & T2 & S2 & n2 & t2 & F2 & C2 & B2 & N2 & D2).
    split_and!; [congruence|set_solver|congruence|]. exists (n1 ++ n2), (t1 ++ t2).
    rewrite F2, F1, C2, C1, !app_assoc, map_app. split_and!; [done|done|by apply sublist_app| |].
    + apply NoDup_app. split_and!; [done| |done]. intros f Hf Hf2. apply (D2 f Hf2). rewrite F1. set_solver.
    + intros f [Hf|Hf]%elem_of_app; [by apply D1|]. apply D2 in Hf. rewrite F1 in Hf. set_solver.
Qed.

Lemma advances_actor w w' : aw_fingerprints w' = aw_fingerprints w -> aw_turns w' = aw_turns w ->
  a_run_id (aw_actor w') = a_run_id (aw_actor w) -> a_seen_signal_tokens (aw_actor w) ⊆ a_seen_signal_tokens (aw_actor w') ->
  a_last_snapshot (aw_actor w') = a_last_snapshot (aw_actor w) -> advances w w'.
Proof.
  intros Hf Ht Hr Hs Hp. split_and!; [done..|]. exists [], []. rewrite !app_nil_r. split_and!; [done|done|done|constructor|set_solver].
Qed.

Lemma core_advances w w' : same_core w w' -> advances w w'.
Proof. intros (Ha & _ & Hf & Ht). by apply advances_actor; rewrite ?Ha. Qed.

Lemma keeps_core_advances {A} (m : PyM (aworld T) A) : keeps same_core m -> keeps advances m.
Proof. intros Hm w. apply core_advances, Hm. Qed.

Lemma adv_actor f : (forall a, a_run_id (f a) = a_run_id a /\ a_seen_signal_tokens a ⊆ a_seen_signal_tokens (f a) /\ a_last_snapshot (f a) = a_last_snapshot a) ->
  keeps advances (on_actor (T := T) f).
Proof. intros Hf w. destruct (Hf (aw_actor w)) as (? & ? & ?). by apply advances_actor. Qed.

Lemma adv_projection {A} (m : event_log -> PyM projections A) : keeps advances (on_projection (T := T) m).
Proof. intros w. rewrite on_projection_eq. by apply advances_actor. Qed.

Lemma adv_rest {A} (m : PyM T A) : keeps advances (on_rest m).
Proof. apply keeps_core_advances, core_rest. Qed.
Lemma adv_now : keeps advances (_utc_now_iso ports).
Proof. apply keeps_core_advances, core_now. Qed.
Lemma adv_append commit : keeps advances (append_commit ports commit).
Proof. apply keeps_core_advances, core_append. Qed.
Lemma adv_self : keeps advances (self (T := T)).
Proof. intros w. reflexivity. Qed.

Lemma adv_process commit : keeps advances (process_action_commit config ports commit).
Proof.
  intros w. destruct (process_spec commit w) as [Ha Hd]. cbn zeta in Ha, Hd.
  set (w' := (process_action_commit config ports commit w).2) in *.
  assert (a_run_id (aw_actor w') = a_run_id (aw_actor w) /\ a_seen_signal_tokens (aw_actor w') = a_seen_signal_tokens (aw_actor w) /\
    a_last_snapshot (aw_actor w') = a_last_snapshot (aw_actor w)) as (Hr & Ht & Hp) by (by destruct Ha as [->|[p ->]]).
  assert (aw_fingerprints w' = aw_fingerprints w -> aw_turns w' = aw_turns w -> advances w w') as Hsame.
  { intros Hf Hu. apply advances_actor; [done..| |done]. by rewrite Ht. }
  destruct Hd as [[Hf Hu]|(o & _ & [[Hf Hu]|(Hn & Hf & Hu)])]; [auto..|].
  split_and!; [done|by rewrite Ht|done|]. exists [fingerprint_of commit o].
  destruct Hu as [Hu|[i Hu]]; [exists []|exists [(fingerprint_of commit o, i)]]; rewrite ?app_nil_r;
    (split_and!; [done|done| |apply NoDup_singleton|by intros f ->%list_elem_of_singleton]); [apply sublist_nil_l|done].
Qed.
Hint Resolve adv_projection adv_rest adv_now adv_append adv_self adv_process : keeps.

Ltac adv_set := apply adv_actor; intros ?; split_and!; [done|try done|done].

Lemma adv_set_sequence n : keeps advances (on_actor (T := T) (set_sequence n)).
Proof. adv_set. Qed.
Lemma adv_set_pending l : keeps advances (on_actor (T := T) (set_pending l)).
Proof. adv_set. Qed.
Lemma adv_set_last p : keeps advances (on_actor (T := T) (set_last_projection p)).
Proof. adv_set. Qed.
Lemma adv_count : keeps advances (on_actor (T := T) count_history).
Proof. adv_set. Qed.
Lemma adv_token s : keeps advances (on_actor (T := T) (match signal_token s with Some t => add_token t | None => id end)).
Proof. destruct (signal_token s) as [t|]; adv_set. simpl. case_decide; set_solver. Qed.
Hint Resolve adv_set_sequence adv_set_pending adv_set_last adv_count adv_token : keeps.

Lemma adv_handle s : keeps advances (_handle_signal config ports s).
Proof. unfold _handle_signal, _trigger_continue_as_new. keeps. Qed.
Hint Resolve adv_handle : keeps.

Lemma adv_run_op op : keeps advances (run_op op).
Proof.
  destruct op as [s|commit|i]; simpl; [unfold signal; keeps|apply adv_process|].
  unfold run_finish, _notify_parent_child_completed. keeps.
Qed.

Lemma adv_run_ops ops w : advances w (run_ops ops w).
Proof. revert w. induction ops as [|op ops IH]; intros w; [reflexivity|]. simpl. etrans; [apply adv_run_op|apply IH]. Qed.
End facts.
End ActorFacts.
