(* ===== verification/MinimalRuntime.v ===== *)
(** * Services of the minimal runtime ([agent_kernel/kernel/minimal_runtime.py])

    [StaticDispatchAdmissionService], the two executor services, the recovery gate of a
    fixed policy and the store of recovery outcomes: what a kernel runs with when nothing
    else is configured.  What [float] makes of a text and of an integer is a parameter,
    as are the handler and the activity gateway the executors call. *)

From stdpp Require Import base tactics option list sets strings.
From Stdlib Require Import ZArith.
From S2P Require Import Prelude PyStr PyDict PyVal Contracts Snapshot DispatchPolicy Recovery RunActor.
#[local] Arguments String.append : simpl nomatch.
#[local] Open Scope Z_scope.

(** Admission ***********************************************************************)

Module StaticDispatchAdmissionService.
Import DispatchPolicy.Admission.
Section costs.
(** Finite floats with their order; [py_float] answers nothing for a text that is no
    number or not finite, [int_float] raises where an integer is too large. *)
Context {F : Type} (py_float : string -> option F) (int_float : Z -> outcome F) (exceeds : F -> F -> bool).

Definition _parse_finite_float (raw_value : string) : option F := py_float raw_value.

Definition _coerce_finite_number (value : pyval) : outcome (option F) :=
  match value with
  | PInt z => f ← int_float z; mret (Some f)
  | PFloat r => Ret (py_float r)
  | _ => Ret None
  end.

Fixpoint _extract_max_cost_from_policy_tags (policy_tags : list string) : option F :=
  match policy_tags with
  | [] => None
  | tag :: rest =>
      if startswith tag "max_cost:" then
        match _parse_finite_float (strip (removeprefix tag "max_cost:")) with
        | Some v => Some v
        | None => _extract_max_cost_from_policy_tags rest
        end
      else _extract_max_cost_from_policy_tags rest
  end.

Definition _extract_estimated_cost (input_json : option (odict string pyval)) : outcome (option F) :=
  match input_json with
  | None => Ret None
  | Some d => _coerce_finite_number (pd_get d "estimated_cost")
  end.

Definition denied (reason_code : ReasonCode) : AdmissionResult := mkAdmissionResult false reason_code None None None None None.

Definition over_budget (a : Action) : outcome bool :=
  estimated_cost ← _extract_estimated_cost (act_input_json a);
  mret match _extract_max_cost_from_policy_tags (act_policy_tags a), estimated_cost with
       | Some max_cost, Some cost => exceeds cost max_cost
       | _, _ => false
       end.

Definition too_slow (a : Action) : bool :=
  match act_timeout_ms a with Some t => (0 <? t) && (300000 <? t) | None => false end.

Definition _evaluate_action_policy_denies (a : Action) : outcome (option AdmissionResult) :=
  if bool_decide ("requires_human_review" ∈ act_policy_tags a) then Ret (Some (denied rc_policy_denied))
  else if too_slow a then Ret (Some (denied rc_policy_denied))
  else
    over ← over_budget a;
    mret (if (over : bool) then Some (denied rc_quota_exceeded)
          else if _requires_remote_idempotency_contract_block a then Some (denied rc_idempotency_contract_insufficient)
          else None).

Definition _build_admitted_result (a : Action) : AdmissionResult :=
  let host_kind := _resolve_sandbox_host_kind a in
  let grant_ref := "grant:" +:+ act_action_id a in
  mkAdmissionResult true rc_ok None (Some grant_ref) None
    (Some (mkSandboxGrant grant_ref host_kind (Some ("sandbox:" +:+ host_str host_kind +:+ ":default")) ["workspace:/"] []
             (if decide (host_kind = remote_service) then allow_list else deny_all) []))
    (Some [("dispatch_idempotency_key", PStr ("dispatch:" +:+ act_run_id a +:+ ":" +:+ act_action_id a));
           ("operation_fingerprint", PStr (act_run_id a +:+ ":" +:+ act_action_id a));
           ("attempt_seq", PInt 1);
           ("effect_scope", PStr (effect_str (act_effect_class a)));
           ("host_kind", PStr (host_str host_kind))]).

(** [admit]; the snapshot is not looked at. *)
Definition admit_static (a : Action) (snapshot : CapabilitySnapshot) : outcome AdmissionResult :=
  denied_result ← _evaluate_action_policy_denies a;
  mret (default (_build_admitted_result a) denied_result).

Definition dispatch_ready (p : RunProjection) : bool :=
  bool_decide (rp_lifecycle_state p ∈ [ls_ready; ls_dispatching]) && rp_ready_for_dispatch p && negb (rp_waiting_external p).

Definition check_static (a : Action) (p : RunProjection) : outcome AdmissionResult :=
  denied_result ← _evaluate_action_policy_denies a;
  mret (match denied_result with
        | Some r => r
        | None => if dispatch_ready p then _build_admitted_result a else denied rc_dependency_not_ready
        end).
End costs.
End StaticDispatchAdmissionService.

(** Executors ***********************************************************************)

Module AsyncExecutorService.
Section handler.
Context {W : Type}.

Definition execute (handler : option (Action -> option string -> PyM W pyval)) (a : Action) (grant_ref : option string) : PyM W pyval :=
  match handler with
  | None => mret (PDict [("action_id", PStr (act_action_id a)); ("grant_ref", opt_str_val grant_ref);
                         ("effect_observed", PBool true); ("acknowledged", PBool true)])
  | Some h => h a grant_ref
  end.
End handler.
End AsyncExecutorService.

Inductive ActivityExecutionRoute := route_tool | route_mcp.

Record ToolActivityInput := mkToolInput {
  ta_run_id : string;
  ta_action_id : string;
  ta_tool_name : string;
  ta_arguments : odict string pyval
}.

Record MCPActivityInput := mkMcpInput {
  ma_run_id : string;
  ma_action_id : string;
  ma_server_name : string;
  ma_operation : string;
  ma_arguments : odict string pyval
}.

Module ActivityBackedExecutorService.

Definition _first_non_empty_string (values : list pyval) : option string :=
  first_some (fun v => match as_str v with Some s => if decide (s = "") then None else Some s | None => None end) values.

Definition _resolve_activity_execution_route (a : Action) : ActivityExecutionRoute :=
  let payload := or_empty (act_input_json a) in
  match as_dict (pd_get payload "mcp") with
  | Some _ => route_mcp
  | None => if bool_decide (act_action_type a = "mcp") || startswith (act_action_type a) "mcp." then route_mcp else route_tool
  end.

Definition _build_tool_activity_input (a : Action) : ToolActivityInput :=
  let payload := or_empty (act_input_json a) in
  let tool_name := default (act_action_type a) (_first_non_empty_string [pd_get payload "tool_name"; pd_get payload "name"]) in
  mkToolInput (act_run_id a) (act_action_id a) tool_name (default payload (as_dict (pd_get payload "arguments"))).

Definition _build_mcp_activity_input (a : Action) : MCPActivityInput :=
  let payload := or_empty (act_input_json a) in
  let mcp_dict := or_empty (as_dict (pd_get payload "mcp")) in
  let server_name := default "default_mcp_server" (_first_non_empty_string
    [pd_get mcp_dict "server_name"; pd_get mcp_dict "server_id"; pd_get payload "server_name"; pd_get payload "server_id"]) in
  let operation := default (act_action_type a) (_first_non_empty_string
    [pd_get mcp_dict "operation"; pd_get mcp_dict "capability_id"; pd_get mcp_dict "name"; pd_get payload "operation"; pd_get payload "capability_id"]) in
  let arguments := match as_dict (pd_get mcp_dict "arguments") with
                   | Some d => d
                   | None => or_empty (as_dict (pd_get payload "arguments"))
                   end in
  mkMcpInput (act_run_id a) (act_action_id a) server_name operation arguments.

Section gateway.
Context {W : Type} (execute_tool : ToolActivityInput -> PyM W pyval) (execute_mcp : MCPActivityInput -> PyM W pyval).

Definition execute (a : Action) (grant_ref : option string) : PyM W pyval :=
  match _resolve_activity_execution_route a with
  | route_mcp => execute_mcp (_build_mcp_activity_input a)
  | route_tool => execute_tool (_build_tool_activity_input a)
  end.
End gateway.
End ActivityBackedExecutorService.

(** Recovery ************************************************************************)

Record StaticRecoveryPolicy := mkStaticPolicy { sp_mode : RecoveryMode; sp_reason_prefix : string }.

Definition default_recovery_policy : StaticRecoveryPolicy := mkStaticPolicy abort "recovery".

(** [StaticRecoveryGateService.decide] *)
Definition decide_static (policy : StaticRecoveryPolicy) (recovery_input : RecoveryInput) : RecoveryDecision :=
  mkRecoveryDecision (ri_run_id recovery_input) (sp_mode policy) (sp_reason_prefix policy +:+ ":" +:+ ri_reason_code recovery_input)
    None None None None 0.

Module InMemoryRecoveryOutcomeStore.
Definition store : Type := odict string (list RecoveryOutcome).

Definition write_outcome (outcome : RecoveryOutcome) : PyM store unit :=
  py_modify (fun d => od_set (ro_run_id outcome) (default [] (od_get (ro_run_id outcome) d) ++ [outcome]) d).

Definition latest_for_run (run_id : string) (d : store) : option RecoveryOutcome := last (default [] (od_get run_id d)).
End InMemoryRecoveryOutcomeStore.

(** Lemmas *************************************************************************)

Import StaticDispatchAdmissionService.

Section admission.
Context {F : Type} (py_float : string -> option F) (int_float : Z -> outcome F) (exceeds : F -> F -> bool).
Implicit Types (a : Action) (s : CapabilitySnapshot) (p : RunProjection).

(** No rule speaks against an action. *)
Definition unobjectionable a : Prop :=
  "requires_human_review" ∉ act_policy_tags a /\ too_slow a = false /\ over_budget py_float int_float exceeds a = Ret false /\
  Admission._requires_remote_idempotency_contract_block a = false.

Lemma denies_nothing a : _evaluate_action_policy_denies py_float int_float exceeds a = Ret None <-> unobjectionable a.
Proof.
  unfold _evaluate_action_policy_denies, unobjectionable. case_bool_decide as Hr; [split; [done|by intros [? _]]|].
  destruct (too_slow a); [split; [done|by intros (_ & ? & _)]|].
  destruct (over_budget py_float int_float exceeds a) as [[]|e]; simpl; [split; [done|by intros (_ & _ & ? & _)]| |split; [done|by intros (_ & _ & ? & _)]].
  destruct (Admission._requires_remote_idempotency_contract_block a); split; try done. by intros (_ & _ & _ & ?).
Qed.

(** A denial names its rule and grants nothing. *)
Lemma denies_denied a r : _evaluate_action_policy_denies py_float int_float exceeds a = Ret (Some r) ->
  exists reason, r = denied reason /\ reason ∈ [rc_policy_denied; rc_quota_exceeded; rc_idempotency_contract_insufficient].
Proof.
  unfold _evaluate_action_policy_denies. case_bool_decide; [intros [= <-]; eexists; split; [done|set_solver]|].
  destruct (too_slow a); [intros [= <-]; eexists; split; [done|set_solver]|].
  destruct (over_budget py_float int_float exceeds a) as [[]|e]; simpl; [intros [= <-]; eexists; split; [done|set_solver]| |done].
  destruct (Admission._requires_remote_idempotency_contract_block a); [intros [= <-]; eexists; split; [done|set_solver]|done].
Qed.

(** An action is admitted exactly when no rule speaks against it, and on the other path
    when the run is ready as well. *)
Lemma static_admission_exact a s p :
  (admit_static py_float int_float exceeds a s = Ret (_build_admitted_result a) <-> unobjectionable a) /\
  (check_static py_float int_float exceeds a p = Ret (_build_admitted_result a) <-> unobjectionable a /\ dispatch_ready p = true) /\
  (forall r, admit_static py_float int_float exceeds a s = Ret r -> ar_admitted r = false -> ar_sandbox_grant r = None /\ ar_idempotency_envelope r = None).
Proof.
  rewrite <-denies_nothing. unfold admit_static, check_static. destruct (_evaluate_action_policy_denies py_float int_float exceeds a) as [[r|]|e] eqn:Hd; simpl.
  - destruct (denies_denied a r Hd) as (reason & -> & _). split_and!; [split; [by intros [=]|done]|split; [by intros [=]|by intros [? _]]|].
    by intros r' [= <-].
  - split_and!; [done| |by intros r [= <-]]. destruct (dispatch_ready p); split; [done|done|by intros [=]|by intros [_ ?]].
  - split_and!; [by split|split; [done|by intros [? _]]|done].
Qed.

Lemma first_some_None {A B} (f : A -> option B) l x : first_some f l = None -> x ∈ l -> f x = None.
Proof.
  induction l as [|y l IH]; simpl; [by intros _ ?%elem_of_nil|]. destruct (f y) eqn:Hy; [done|].
  intros Hl [->|Hin]%elem_of_cons; [done|by apply IH].
Qed.

(** Without a hint in tags or payload the sandbox is the one of the dispatch host. *)
Lemma sandbox_follows_dispatch a : Admission._resolve_explicit_host_kind a = None ->
  Admission._resolve_sandbox_host_kind a = Admission._resolve_dispatch_host_kind a.
Proof.
  intros Hx. unfold Admission._resolve_dispatch_host_kind, dispatch_host_kind. unfold Admission._resolve_explicit_host_kind in Hx. rewrite Hx.
  unfold explicit_host_kind in Hx. destruct (host_kind_from_tags Admission.accepted_host (act_policy_tags a)) eqn:Ht; [done|].
  assert (forall c k, (c, k) ∈ [("host:local_process", local_process); ("host:local_cli", local_cli); ("host:remote_service", remote_service);
      ("host_kind:local_process", local_process); ("host_kind:local_cli", local_cli); ("host_kind:remote_service", remote_service)] ->
    c ∉ map (fun tag => lower (strip tag)) (act_policy_tags a)) as Hno.
  { intros c k Hc (tag & Heq & Hin)%list_elem_of_fmap. pose proof (first_some_None _ _ tag Ht Hin) as Htag. unfold host_kind_of_tag in Htag. rewrite <-Heq in Htag.
    repeat (apply elem_of_cons in Hc as [[= -> ->]|Hc]; [by vm_compute in Htag|]). by apply elem_of_nil in Hc. }
  unfold Admission._resolve_sandbox_host_kind. cbn [first_some].
  repeat (rewrite decide_False by (eapply Hno; rewrite !elem_of_cons; eauto 10)). by rewrite andb_comm.
Qed.
End admission.

(** An action dispatched to a remote service because its payload says so is granted a
    local sandbox without network. *)
Example sandbox_ignores_payload :
  let a := mkAction "act-1" "run-1" "tool_call" READ_ONLY None None None (Some [("host_kind", PStr "remote_service")]) [] None None in
  Admission._resolve_dispatch_host_kind a = remote_service /\ Admission._resolve_sandbox_host_kind a = local_cli.
Proof. by vm_compute. Qed.

(** The latest outcome is the one written last, and runs do not share them. *)
Lemma latest_written o d run : InMemoryRecoveryOutcomeStore.latest_for_run run (InMemoryRecoveryOutcomeStore.write_outcome o d).2 =
  if decide (run = ro_run_id o) then Some o else InMemoryRecoveryOutcomeStore.latest_for_run run d.
Proof.
  unfold InMemoryRecoveryOutcomeStore.latest_for_run, InMemoryRecoveryOutcomeStore.write_outcome, py_modify. cbn [snd]. case_decide as Hd.
  - subst run. rewrite od_get_set_eq. simpl. by rewrite last_snoc.
  - by rewrite od_get_set_ne.
Qed.
