(* ===== verification/RunActorProps.v ===== *)
(** * Properties of the run actor

    Decisions are taken once, signals are recorded once, what a turn did is recorded in
    the log, and signals that arrive before the workflow has started are handled as if
    they had arrived after.  The theorems about what is recorded are for the kernel's
    log and projection service, whatever was appended and read before. *)

From stdpp Require Import base tactics option list sets strings pretty.
From Stdlib Require Import ZArith.
From S2P Require Import Prelude PyStr PyDict PyVal Contracts EventLog SchemaMigration Projection Snapshot DispatchPolicy.
From S2P Require Import DedupeStore TurnEngine Compensation Recovery RunActor MinimalRuntime.
#[local] Arguments String.append : simpl nomatch.
#[local] Open Scope Z_scope.
Import RunActor.RunActor RunActor.ActorFacts.

Section exact.
Context {T : Type} (config : projection_config) (ports : actor_ports T) (Hconfig : no_migration config).
Implicit Types (w : aworld T) (l : event_log) (run : string).

(** What the projection service answers once it has caught up. *)
Definition current l run : RunProjection := full_replay config run (run_events l run).

Definition synced w : Prop := cache_ok config (aw_log w) (aw_cache w).

(** The last event of the run counts for the projection. *)
Definition tidy l run : Prop := rp_projected_offset (current l run) = Z.of_nat (length (run_events l run)).

(** A commit to the run evicts no other run. *)
Definition has_room l run : Prop := run ∈ od_keys (events_by_run l) \/ Z.of_nat (length (events_by_run l)) < _MAX_RETAINED_RUNS.

Lemma synced_wf w : synced w -> log_wf (aw_log w).
Proof. intros [Hl _]. by apply reachable_wf. Qed.

Lemma get_current run w : synced w ->
  exists cache, on_projection (fun l => Projection.get config l run) w =
    (Ret (current (aw_log w) run), mkAW (aw_actor w) (aw_log w) cache (aw_fingerprints w) (aw_turns w) (aw_rest w)) /\
    cache_ok config (aw_log w) cache.
Proof.
  intros Hs. destruct (cache_ok_project config (aw_log w) (aw_cache w) None run Hconfig Hs) as (k & cache & Hk & Heq & Hok).
  exists cache. rewrite on_projection_eq. unfold Projection.get. rewrite Heq. split; [|done]. unfold current. by rewrite take_ge by lia.
Qed.

(** The answers [catch_up] and [readiness] give for an offset that is in the log. *)
Lemma catch_up_current run o l cache : cache_ok config l cache -> Z.of_nat (length (run_events l run)) <= o ->
  exists cache', catch_up config l run o cache = (Ret (current l run), cache') /\ cache_ok config l cache'.
Proof.
  intros Hs Ho. destruct (cache_ok_project config l cache (Some o) run Hconfig Hs) as (k & cache' & Hk & Heq & Hok).
  exists cache'. unfold catch_up. rewrite Heq. split; [|done]. unfold current. by rewrite take_ge by lia.
Qed.

Lemma readiness_current run o l cache : cache_ok config l cache ->
  exists cache', readiness config l run o cache = (Ret (o <=? rp_projected_offset (current l run)), cache') /\ cache_ok config l cache'.
Proof.
  intros Hs. destruct (cache_ok_project config l cache None run Hconfig Hs) as (k & cache' & Hk & Heq & Hok).
  exists cache'. split; [|done]. unfold readiness, Projection.get, mbind, PyM_bind. rewrite Heq. unfold current. by rewrite take_ge by lia.
Qed.

(** A commit of one fact, numbered as the log will number it. *)
Definition fact_next (e : RuntimeEvent) (n : nat) : Prop :=
  ev_commit_offset e = Z.of_nat n + 1 /\ ev_schema_version e = "1" /\ ev_event_authority e = authoritative_fact.

Lemma stored_same e n : fact_next e n -> stored_event (Z.of_nat n + 1) e = e.
Proof. intros (Ho & Hv & _). unfold stored_event. rewrite <-Ho. destruct e; simpl in *. by rewrite Hv. Qed.

Lemma accepted e : ev_event_authority e = authoritative_fact -> _validate_projection_authority_input (pc_reject_derived_diagnostic config) e = true.
Proof. intros He. unfold _validate_projection_authority_input. rewrite He. by rewrite andb_false_r. Qed.

Lemma current_app l l' run evs : run_events l' run = run_events l run ++ evs ->
  current l' run = foldl (replay_step config) (current l run) evs.
Proof. intros He. unfold current. by rewrite He, full_replay_app. Qed.

Lemma current_fact l l' run e : run_events l' run = run_events l run ++ [e] -> fact_next e (length (run_events l run)) ->
  current l' run = _apply_projection_event (current l run) e /\ tidy l' run.
Proof.
  intros He (Ho & _ & Ha). pose proof (current_app l l' run [e] He) as Hc. simpl in Hc. unfold replay_step in Hc. rewrite (accepted e Ha) in Hc.
  split; [done|]. unfold tidy. rewrite Hc, apply_offset, He, length_app, Ho. simpl. lia.
Qed.

(** An append, when nothing prevents it. *)
Lemma append_ok commit w t : synced w -> has_room (aw_log w) (ac_run_id commit) -> ac_events commit <> [] ->
  ap_before_append ports commit (aw_rest w) = (Ret tt, t) ->
  exists l, append_commit ports commit w = (Ret tt, mkAW (aw_actor w) l (aw_cache w) (aw_fingerprints w) (aw_turns w) t) /\
    cache_ok config l (aw_cache w) /\ has_room l (ac_run_id commit) /\
    run_events l (ac_run_id commit) = run_events (aw_log w) (ac_run_id commit) ++
      (stamp (Z.of_nat (length (run_events (aw_log w) (ac_run_id commit))) + 1) (ac_events commit)).1.
Proof.
  intros Hs Hroom Hne Hb. exists (append_action_commit commit (aw_log w)).2. split_and!.
  - unfold append_commit, on_rest, on_log, py_zoom. cbv [mbind PyM_bind mret PyM_ret]. rewrite Hb. cbn [aw_log aw_actor aw_cache aw_fingerprints aw_turns aw_rest].
    rewrite append_eq by done. done.
  - by apply cache_ok_append.
  - left. rewrite append_eq by done. cbn [snd]. pose proof (append_run_events commit (aw_log w) (synced_wf w Hs) Hne) as He.
    rewrite append_eq in He by done. cbn [snd] in He.
    apply od_get_is_Some. destruct (od_get (ac_run_id commit) (events_by_run (evict (put_run commit (aw_log w))))) eqn:Hg; [done|exfalso].
    simpl in He. symmetry in He. apply app_eq_nil in He as [_ He].
    pose proof (stamp_spec (Z.of_nat (length (run_events (aw_log w) (ac_run_id commit))) + 1) (ac_events commit)) as (_ & Hlen & _).
    rewrite He in Hlen. by destruct (ac_events commit).
  - by apply append_run_events; [apply synced_wf|].
Qed.

Lemma bind_step {W A B} (m : PyM W A) (k : A -> PyM W B) (w : W) (a : A) (w' : W) : m w = (Ret a, w') -> (a ← m; k a) w = k a w'.
Proof. intros Hm. unfold mbind, PyM_bind. by rewrite Hm. Qed.

(** An append is never refused. *)
Definition never_refused : Prop := forall commit t, exists t', ap_before_append ports commit t = (Ret tt, t').

Lemma now_step w : exists now t, _utc_now_iso ports w =
  (Ret now, mkAW (aw_actor w) (aw_log w) (aw_cache w) (aw_fingerprints w) (aw_turns w) t).
Proof. unfold _utc_now_iso. destruct (ap_now ports (aw_rest w)) as [now t]. eauto. Qed.

(** The processing of a commit that is the last fact of the log, up to the decision. *)
Lemma process_current commit o run w : ac_run_id commit = run -> _assert_no_derived_diagnostic_authority_input commit = Ret tt ->
  last_offset commit = Ret o -> synced w -> tidy (aw_log w) run -> o = Z.of_nat (length (run_events (aw_log w) run)) ->
  exists cache, process_action_commit config ports commit w = decide_once ports commit o (current (aw_log w) run)
      (mkAW (set_last_projection (current (aw_log w) run) (aw_actor w)) (aw_log w) cache (aw_fingerprints w) (aw_turns w) (aw_rest w)) /\
    cache_ok config (aw_log w) cache.
Proof.
  intros Hrun Hd Ho Hs Htidy Hlen. rewrite process_eq, Hd, Ho, Hrun.
  destruct (catch_up_current run o (aw_log w) (aw_cache w) Hs ltac:(lia)) as (cache & -> & Hok).
  destruct (readiness_current run o (aw_log w) cache Hok) as (cache' & -> & Hok').
  unfold tidy in Htidy. rewrite Htidy, Hlen, Z.leb_refl. exists cache'. by split.
Qed.

Lemma decide_no_action commit o p w : ac_action commit = None ->
  exists f, decide_once ports commit o p w = (Ret tt, mkAW (aw_actor w) (aw_log w) (aw_cache w) f (aw_turns w) (aw_rest w)).
Proof.
  intros Ha. unfold decide_once, on_fingerprints, py_zoom, InMemoryDecisionDeduper.seen, InMemoryDecisionDeduper.mark, py_modify.
  cbv [mbind PyM_bind py_get mret PyM_ret]. rewrite Ha. destruct (bool_decide _); [exists (aw_fingerprints w); by destruct w|].
  by eexists.
Qed.

(** The signal is one the actor takes up: it has a run, the sender may signal, and the
    cause is new. *)
Record takes_up (s : ActorSignal) (run : string) (a : actor) : Prop := {
  tu_run : a_run_id a = Some run;
  tu_named : run <> "";
  tu_peer : peer_admitted s a = true;
  tu_new : forall t, signal_token s = Some t -> t ∉ a_seen_signal_tokens a
}.

(** No reset of the workflow's history is due. *)
Definition no_reset (a : actor) : Prop := ap_in_workflow ports = false \/ a_history_event_count a + 1 < ap_history_event_threshold ports.

Definition tokens_after (s : ActorSignal) (tokens : list string) : list string :=
  match signal_token s with Some t => tokens ++ [t] | None => tokens end.

(** The actor after a signal was recorded. *)
Definition after_signal (s : ActorSignal) (p : RunProjection) (a : actor) : actor :=
  mkActor (a_run_id a) (a_session_id a) (a_parent_run_id a) (a_policy_versions a) (a_active_stage_id a) (Some p) (a_last_snapshot a)
    (a_pending_signals a) (a_signal_sequence a + 1) (tokens_after s (a_seen_signal_tokens a)) (a_history_event_count a + 1).

Lemma no_continue a p s : no_reset a -> _should_continue_as_new ports (after_signal s p a) = false.
Proof.
  unfold no_reset, _should_continue_as_new. intros [->|Hh]; [done|]. simpl. destruct (ap_in_workflow ports); [|done].
  simpl. by destruct (Z.ltb_spec (a_history_event_count a + 1) (ap_history_event_threshold ports)); [|lia].
Qed.

Lemma truthy_some x : x <> "" -> truthy (Some x) = true.
Proof. intros Hx. unfold truthy. by rewrite bool_decide_eq_false_2. Qed.

Lemma handle_recorded s run w : never_refused -> takes_up s run (aw_actor w) -> no_reset (aw_actor w) -> synced w ->
  tidy (aw_log w) run -> has_room (aw_log w) run ->
  exists w' at_event,
    let e := signal_event run (a_signal_sequence (aw_actor w) + 1) (Z.of_nat (length (run_events (aw_log w) run)) + 1) s at_event in
    _handle_signal config ports s w = (Ret tt, w') /\
    run_events (aw_log w') run = run_events (aw_log w) run ++ [e] /\
    current (aw_log w') run = _apply_projection_event (current (aw_log w) run) e /\
    aw_actor w' = after_signal s (current (aw_log w') run) (aw_actor w) /\
    aw_turns w' = aw_turns w /\ synced w' /\ tidy (aw_log w') run /\ has_room (aw_log w') run.
Proof.
  intros Hfree [Hrun Hne Hpeer Hnew] Hreset Hs Ht Hroom.
  unfold _handle_signal. erewrite bind_step by reflexivity. cbv beta. rewrite Hrun, (truthy_some run Hne), Hpeer. cbn [negb].
  assert (match signal_token s with Some t => bool_decide (t ∈ a_seen_signal_tokens (aw_actor w)) | None => false end = false) as ->.
  { destruct (signal_token s) as [t|]; [|done]. apply bool_decide_eq_false. by apply Hnew. }
  cbn zeta. change (default "" (Some run)) with run.
  set (n := a_signal_sequence (aw_actor w) + 1).
  erewrite bind_step by reflexivity.
  set (w1 := mkAW (set_sequence n (aw_actor w)) (aw_log w) (aw_cache w) (aw_fingerprints w) (aw_turns w) (aw_rest w)).
  destruct (get_current run w1 Hs) as (cache & Hget & Hok). erewrite bind_step by exact Hget. cbn [aw_log w1] in *.
  set (w2 := mkAW (aw_actor w1) (aw_log w) cache (aw_fingerprints w1) (aw_turns w1) (aw_rest w1)).
  destruct (now_step w2) as (at_commit & t2 & Hnow2). erewrite bind_step by exact Hnow2. clear Hnow2.
  match goal with |- context [mbind _ (_utc_now_iso ports) ?w3] => destruct (now_step w3) as (at_event & t3 & Hnow3) end.
  erewrite bind_step by exact Hnow3. clear Hnow3. cbn [aw_actor aw_log aw_cache aw_fingerprints aw_turns aw_rest] in *.
  unfold tidy in Ht. rewrite Ht.
  set (e := signal_event run n (Z.of_nat (length (run_events (aw_log w) run)) + 1) s at_event).
  set (commit := signal_commit run n (Z.of_nat (length (run_events (aw_log w) run)) + 1) s at_commit at_event).
  match goal with |- context [mbind _ (append_commit ports commit) ?w4] => set (w4' := w4) end.
  destruct (Hfree commit t3) as [t4 Hb].
  destruct (append_ok commit w4' t4) as (l & Happ & Hok' & Hroom' & Hev); [exact Hok|exact Hroom|done|exact Hb|].
  erewrite bind_step by exact Happ. clear Happ. cbn [aw_actor aw_log aw_cache aw_fingerprints aw_turns aw_rest w4' w2 w1] in *.
  assert (fact_next e (length (run_events (aw_log w) run))) as Hfact by done.
  cbn [commit signal_commit ac_events ac_run_id stamp] in Hev. fold e in Hev. rewrite (stored_same e _ Hfact) in Hev. simpl fst in Hev.
  destruct (current_fact (aw_log w) l run e Hev Hfact) as [Hcur Htidy].
  erewrite bind_step by reflexivity. cbn [aw_actor aw_log aw_cache aw_fingerprints aw_turns aw_rest].
  match goal with |- context [mbind _ (process_action_commit config ports commit) ?w5] =>
    destruct (process_current commit (Z.of_nat (length (run_events (aw_log w) run)) + 1) run w5) as (cache' & Hproc & Hok'')
  end; [done|done|done|exact Hok'|exact Htidy|cbn [aw_log]; rewrite Hev, length_app; simpl; lia|].
  cbn [aw_actor aw_log aw_cache aw_fingerprints aw_turns aw_rest] in *.
  match type of Hproc with _ = decide_once _ _ _ _ ?w6 => destruct (decide_no_action commit (Z.of_nat (length (run_events (aw_log w) run)) + 1)
    (current l run) w6) as [f Hdec]; [done|] end.
  rewrite Hdec in Hproc. erewrite bind_step by exact Hproc. cbn [aw_actor aw_log aw_cache aw_fingerprints aw_turns aw_rest].
  erewrite bind_step by reflexivity. erewrite bind_step by reflexivity. cbn [aw_actor aw_log aw_cache aw_fingerprints aw_turns aw_rest].
  assert (count_history (set_last_projection (current l run)
     ((match signal_token s with Some t => add_token t | None => id end) (set_sequence n (aw_actor w)))) =
     after_signal s (current l run) (aw_actor w)) as Hact.
  { unfold after_signal, tokens_after. destruct (signal_token s) as [t|]; [|done]. unfold add_token. simpl.
    rewrite decide_False by (by apply Hnew). done. }
  rewrite Hact, no_continue by done. eexists _, at_event. split; [reflexivity|]. split; [exact Hev|]. split; [exact Hcur|].
  split; [reflexivity|]. split; [reflexivity|]. split; [exact Hok''|]. by split.
Qed.

(** The services do what is asked of them: nothing refuses a write, the gate decides
    without touching the log, and a turn dispatches at most once. *)
Record services_answer : Prop := {
  sa_append : never_refused;
  sa_gate : forall i l t, exists d t', ap_decide ports i (l, t) = (Ret d, (l, t'));
  sa_intent : forall write, ap_write_intent ports = Some write -> forall x t, exists t', write x t = (Ret tt, t');
  sa_outcome : forall write, ap_write_outcome ports = Some write -> forall x t, exists t', write x t = (Ret tt, t');
  sa_success : forall notify, ap_on_action_success ports = Some notify -> forall x t, exists t', notify x t = (Ret tt, t');
  sa_single : forall i action t r, (ap_run_turn ports i action t).1 = Ret r -> _assert_single_dispatch_attempt_in_turn r = Ret tt
}.

(** A step that answers and leaves all but the log and the rest of the world, the log
    having grown by [evs]. *)
Definition grows run (evs : list RuntimeEvent) w w' : Prop :=
  same_core w w' /\ synced w' /\ has_room (aw_log w') run /\ run_events (aw_log w') run = run_events (aw_log w) run ++ evs.

Lemma grows_trans run evs evs' w w1 w2 : grows run evs w w1 -> grows run evs' w1 w2 -> grows run (evs ++ evs') w w2.
Proof.
  intros ((?&?&?&?) & _ & _ & E1) ((?&?&?&?) & S2 & R2 & E2). split_and!; [|done|done|by rewrite E2, E1, app_assoc].
  unfold same_core. split_and!; by etrans.
Qed.

Lemma grows_rest run w t : synced w -> has_room (aw_log w) run ->
  grows run [] w (mkAW (aw_actor w) (aw_log w) (aw_cache w) (aw_fingerprints w) (aw_turns w) t).
Proof. intros Hs Hr. split_and!; [done|done|done|by rewrite app_nil_r]. Qed.

Lemma grows_refl run w : synced w -> has_room (aw_log w) run -> grows run [] w w.
Proof. intros Hs Hr. split_and!; [done|done|done|by rewrite app_nil_r]. Qed.

Lemma on_rest_step {A} (m : PyM T A) w a t : m (aw_rest w) = (Ret a, t) ->
  on_rest m w = (Ret a, mkAW (aw_actor w) (aw_log w) (aw_cache w) (aw_fingerprints w) (aw_turns w) t).
Proof. intros Hm. unfold on_rest, py_zoom. by rewrite Hm. Qed.

Lemma now_grows run w : synced w -> has_room (aw_log w) run -> exists now w', _utc_now_iso ports w = (Ret now, w') /\ grows run [] w w'.
Proof. intros Hs Hr. destruct (now_step w) as (now & t & ->). eexists _, _. split; [done|by apply grows_rest]. Qed.

Lemma append_grows commit w : services_answer -> synced w -> has_room (aw_log w) (ac_run_id commit) -> ac_events commit <> [] ->
  exists w', append_commit ports commit w = (Ret tt, w') /\
    grows (ac_run_id commit) (stamp (Z.of_nat (length (run_events (aw_log w) (ac_run_id commit))) + 1) (ac_events commit)).1 w w'.
Proof.
  intros Hsa Hs Hr Hne. destruct (sa_append Hsa commit (aw_rest w)) as [t Ht].
  destruct (append_ok commit w t Hs Hr Hne Ht) as (l & Ha & Hok & Hroom & He). eexists. split; [exact Ha|].
  split; [done|]. split; [exact Hok|]. split; [exact Hroom|exact He].
Qed.

Ltac next_now := match goal with |- context [mbind _ (_utc_now_iso ports) ?w0] =>
  let stamp := fresh "tm" in let w' := fresh "w" in let Hn := fresh "Hn" in let Hg := fresh "Hg" in
  match goal with Hs : synced w0, Hr : has_room (aw_log w0) ?run |- _ =>
    destruct (now_grows run w0 Hs Hr) as (stamp & w' & Hn & Hg); pose proof (proj1 (proj2 Hg)); pose proof (proj1 (proj2 (proj2 Hg)));
    erewrite bind_step by exact Hn; clear Hn end end.

Lemma grows_events run evs w w' : grows run evs w w' -> run_events (aw_log w') run = run_events (aw_log w) run ++ evs.
Proof. by intros (_ & _ & _ & ?). Qed.

Lemma latest_eq run w : synced w -> _latest_run_offset run w = (Ret (Z.of_nat (length (run_events (aw_log w) run))), w).
Proof.
  intros Hs. unfold _latest_run_offset. rewrite load_all by (by apply synced_wf). f_equal. f_equal.
  destruct (run_events_run_ok (aw_log w) run (synced_wf w Hs)) as [next (Ho & _ & _)]. rewrite Ho.
  destruct (length (run_events (aw_log w) run)) as [|n]; [done|].
  rewrite (seqZ_cons 1) by lia. replace (Z.succ 1) with (1 + 1) by lia. replace (Z.pred (Z.of_nat (S n))) with (Z.of_nat n) by lia.
  rewrite foldl_max_seqZ. lia.
Qed.

(** Recovery: the gate is asked, and its decision is recorded as a diagnostic and a fact. *)
Lemma recover_grows commit action p reason offset w : services_answer -> synced w -> has_room (aw_log w) (ac_run_id commit) ->
  offset = Z.of_nat (length (run_events (aw_log w) (ac_run_id commit))) + 1 ->
  exists d a b w' i x x', recover ports commit action p reason offset w = (Ret tt, w') /\
    ap_decide ports i x = (Ret d, x') /\
    grows (ac_run_id commit) (recovery_events (ac_run_id commit) offset d a b) w w'.
Proof.
  intros Hsa Hs Hr Ho. unfold recover. erewrite bind_step by (by apply latest_eq).
  match goal with |- context [ap_decide ports ?i] => destruct (sa_gate Hsa i (aw_log w) (aw_rest w)) as (d & t & Hd); set (input := i) in * end.
  assert (on_log_rest (ap_decide ports input) w = (Ret d, mkAW (aw_actor w) (aw_log w) (aw_cache w) (aw_fingerprints w) (aw_turns w) t)) as Hstep.
  { unfold on_log_rest, py_zoom. by rewrite Hd. }
  erewrite bind_step by exact Hstep. clear Hstep.
  set (w1 := mkAW (aw_actor w) (aw_log w) (aw_cache w) (aw_fingerprints w) (aw_turns w) t).
  assert (synced w1) as Hs1 by exact Hs. assert (has_room (aw_log w1) (ac_run_id commit)) as Hr1 by exact Hr.
  assert (grows (ac_run_id commit) [] w w1) as Hg1 by (by apply grows_rest).
  erewrite bind_step by (by apply latest_eq). cbn [aw_log w1]. fold w1. unfold _assert_recovery_gate_is_read_only. rewrite decide_True by done.
  erewrite bind_step by reflexivity. unfold _append_recovery_event. cbn zeta.
  assert (_assert_recovery_event_type_allowed (_recovery_event_type (rd_mode d)) = Ret tt) as ->.
  { by destruct (rd_mode d). }
  erewrite bind_step by reflexivity. next_now. next_now. next_now.
  match goal with |- context [append_commit ports ?c] => set (record := c) end.
  match goal with |- context [mbind _ (append_commit ports record) ?w0] =>
    destruct (append_grows record w0) as (w5 & Happ & Hg5); [done|done|done|done|] end.
  erewrite bind_step by exact Happ. clear Happ.
  assert (grows (ac_run_id commit) (recovery_events (ac_run_id commit) offset d tm0 tm1) w w5) as Hgr.
  { pose proof (grows_trans _ _ _ _ _ _ (grows_trans _ _ _ _ _ _ (grows_trans _ _ _ _ _ _ Hg1 Hg) Hg0) Hg2) as Hpre.
    apply (grows_trans _ [] _ _ _ _ Hpre) in Hg5. rewrite app_nil_l in Hg5. cbn [record ac_run_id ac_events] in Hg5.
    rewrite (grows_events _ _ _ _ Hpre), app_nil_r, <-Ho in Hg5. exact Hg5. }
  exists d, tm0, tm1. destruct Hgr as (Hc & Hs5 & Hr5 & He5).
  destruct (ap_write_outcome ports) as [write|] eqn:Hw.
  2:{ exists w5, input, (aw_log w, aw_rest w), (aw_log w, t). split; [done|]. split; [done|]. by split_and!. }
  destruct (now_grows (ac_run_id commit) w5 Hs5 Hr5) as (written & w6 & Hn6 & Hg6). erewrite bind_step by exact Hn6.
  match goal with |- context [write ?x] => destruct (sa_outcome Hsa write Hw x (aw_rest w6)) as [t6 Ht6] end.
  rewrite (on_rest_step _ _ _ _ Ht6). eexists _, input, (aw_log w, aw_rest w), (aw_log w, t). split; [reflexivity|]. split; [done|].
  assert (grows (ac_run_id commit) (recovery_events (ac_run_id commit) offset d tm0 tm1) w w5) as Hgr by (by split_and!).
  pose proof (grows_trans _ _ _ _ _ _ Hgr Hg6) as Hg7. rewrite app_nil_r in Hg7.
  pose proof (grows_rest (ac_run_id commit) w6 t6 (proj1 (proj2 Hg6)) (proj1 (proj2 (proj2 Hg6)))) as Hg8.
  pose proof (grows_trans _ _ _ _ _ _ Hg7 Hg8) as Hg9. by rewrite app_nil_r in Hg9.
Qed.

(** Recording the outcome of a turn. *)
Lemma outcome_grows run offset r cause w : services_answer -> synced w -> has_room (aw_log w) run ->
  offset = Z.of_nat (length (run_events (aw_log w) run)) + 1 ->
  exists at_event w', _append_turn_outcome_commit ports run offset r cause w = (Ret (offset + 1), w') /\
    grows run [turn_event run offset r at_event] w w'.
Proof.
  intros Hsa Hs Hr Ho. unfold _append_turn_outcome_commit. next_now. cbn zeta.
  match goal with |- context [mbind _ ?m w0] => match m with match ap_write_intent _ with _ => _ end => set (intent := m) end end.
  assert (exists w1, intent w0 = (Ret tt, w1) /\ grows run [] w0 w1) as (w1 & Hi & Hg1).
  { unfold intent. destruct (ap_write_intent ports) as [write|] eqn:Hw; [|eexists; split; [reflexivity|]; by apply grows_refl].
    destruct (tr_intent_commit_ref r) as [ref|]; [|eexists; split; [reflexivity|]; by apply grows_refl].
    next_now. match goal with |- context [write ?x] => destruct (sa_intent Hsa write Hw x (aw_rest w1)) as [t Ht] end.
    rewrite (on_rest_step _ _ _ _ Ht). eexists. split; [reflexivity|].
    pose proof (grows_trans _ _ _ _ _ _ Hg0 (grows_rest run w1 t ltac:(done) ltac:(done))) as Hg2. by rewrite app_nil_r in Hg2. }
  erewrite bind_step by exact Hi. clear Hi intent. pose proof (proj1 (proj2 Hg1)). pose proof (proj1 (proj2 (proj2 Hg1))).
  next_now. match goal with |- context [append_commit ports ?c] => set (record := c) end.
  match goal with |- context [mbind _ (append_commit ports record) ?w0] =>
    destruct (append_grows record w0) as (w5 & Happ & Hg5); [done|done|done|done|] end.
  erewrite bind_step by exact Happ. clear Happ. exists tm, w5. split; [done|].
  pose proof (grows_trans _ _ _ _ _ _ (grows_trans _ _ _ _ _ _ Hg Hg1) Hg0) as Hpre.
  apply (grows_trans _ [] _ _ _ _ Hpre) in Hg5. rewrite app_nil_l in Hg5. cbn [record ac_run_id ac_events] in Hg5.
  rewrite (grows_events _ _ _ _ Hpre), app_nil_r, <-Ho in Hg5. exact Hg5.
Qed.

Definition turn_input run (o : Z) : TurnInput := mkTurnInput run o o trig_signal [].

(** What a commit's decision adds to the log, by how its turn ends. *)
Definition recorded_as run (o : Z) (turn : outcome TurnResult) (res : outcome unit) (evs : list RuntimeEvent) : Prop :=
  match turn with
  | Ret r => res = Ret tt /\ exists at_event,
      if decide (tr_outcome_kind r = out_recovery_pending) then
        exists d a b i x x', evs = turn_event run (o + 1) r at_event :: recovery_events run (o + 2) d a b /\ ap_decide ports i x = (Ret d, x')
      else evs = [turn_event run (o + 1) r at_event]
  | Raise e => res = Raise e /\
      if is_exception e then exists d a b i x x', evs = recovery_events run (o + 1) d a b /\ ap_decide ports i x = (Ret d, x')
      else evs = []
  end.

(** The work on a commit's action, with its handler. *)
Definition attempt commit f o action p : PyM (aworld T) unit :=
  py_except is_exception (turn_and_record ports commit f o action p)
    (fun err => _ ← recover ports commit action p (lower (exn_type_name err)) (o + 1); py_raise err).

Lemma attempt_recorded commit f o action p w : services_answer -> synced w -> has_room (aw_log w) (ac_run_id commit) ->
  o = Z.of_nat (length (run_events (aw_log w) (ac_run_id commit))) ->
  let w0 := mkAW (aw_actor w) (aw_log w) (aw_cache w) (aw_fingerprints w)
              (aw_turns w ++ [(f, turn_input (ac_run_id commit) o)]) (aw_rest w) in
  exists res w' evs, attempt commit f o action p w = (res, w') /\ grows (ac_run_id commit) evs w0 w' /\
    recorded_as (ac_run_id commit) o (ap_run_turn ports (turn_input (ac_run_id commit) o) action (aw_rest w)).1 res evs.
Proof.
  intros Hsa Hs Hr Ho w0. set (run := ac_run_id commit) in *. unfold attempt, py_except, turn_and_record.
  destruct (ap_run_turn ports (turn_input run o) action (aw_rest w)) as [turn t] eqn:Hturn.
  set (w1 := mkAW (aw_actor w) (aw_log w) (aw_cache w) (aw_fingerprints w) (aw_turns w ++ [(f, turn_input run o)]) t).
  assert (run_turn ports f (turn_input run o) action w = (turn, w1)) as Hrun.
  { unfold run_turn, on_rest, py_zoom, py_modify. cbv [mbind PyM_bind]. cbn [aw_rest]. by rewrite Hturn. }
  assert (synced w1) as Hs1 by exact Hs. assert (has_room (aw_log w1) run) as Hr1 by exact Hr.
  assert (grows run [] w0 w1) as Hg1 by exact (grows_rest run w0 t Hs Hr).
  fold run. fold (turn_input run o).
  destruct turn as [r|e].
  2:{ unfold mbind at 1, PyM_bind at 1. rewrite Hrun. cbn [fst]. destruct (is_exception e) eqn:He.
      - destruct (recover_grows commit action p (lower (exn_type_name e)) (o + 1) w1 Hsa Hs1 Hr1) as (d & a & b & w2 & i & x & x' & Hrec & Hd & Hg2).
        { cbn [aw_log w1]. fold run. lia. }
        erewrite bind_step by exact Hrec. eexists _, w2, _. split; [reflexivity|].
        split; [apply (grows_trans _ _ _ _ _ _ Hg1 Hg2)|]. unfold recorded_as. rewrite He. split; [done|].
        exists d, a, b, i, x, x'. by rewrite app_nil_l.
      - eexists _, w1, _. split; [reflexivity|]. split; [exact Hg1|]. unfold recorded_as. by rewrite He. }
  erewrite bind_step by exact Hrun.
  destruct (outcome_grows run (o + 1) r (Some (act_action_id action)) w1 Hsa Hs1 Hr1) as (at_event & w2 & Hout & Hg2).
  { cbn [aw_log w1]. lia. }
  erewrite bind_step by (unfold py_except; rewrite Hout; reflexivity).
  rewrite (sa_single Hsa (turn_input run o) action (aw_rest w) r) by (by rewrite Hturn).
  erewrite bind_step by reflexivity. pose proof (proj1 (proj2 Hg2)) as Hs2. pose proof (proj1 (proj2 (proj2 Hg2))) as Hr2.
  match goal with |- context [mbind _ ?m w2] => match m with match ap_on_action_success _ with _ => _ end => set (notify := m) end end.
  assert (exists w3, notify w2 = (Ret tt, w3) /\ grows run [] w2 w3) as (w3 & Hn & Hg3).
  { unfold notify. destruct (ap_on_action_success ports) as [m|] eqn:Hm; [|eexists; split; [reflexivity|]; by apply grows_refl].
    case_decide; [|eexists; split; [reflexivity|]; by apply grows_refl].
    destruct (sa_success Hsa m Hm (act_effect_class action) (aw_rest w2)) as [t' Ht']. unfold py_suppress, py_except.
    rewrite (on_rest_step _ _ _ _ Ht'). eexists. split; [reflexivity|]. by apply grows_rest. }
  erewrite bind_step by exact Hn. clear Hn notify.
  pose proof (grows_trans _ _ _ _ _ _ (grows_trans _ _ _ _ _ _ Hg1 Hg2) Hg3) as Hg. rewrite app_nil_l, app_nil_r in Hg.
  destruct (decide (tr_outcome_kind r = out_recovery_pending)) as [Hk|Hk].
  - pose proof (proj1 (proj2 Hg3)) as Hs3. pose proof (proj1 (proj2 (proj2 Hg3))) as Hr3.
    destruct (recover_grows commit action p (from_option fe_failure_code "effect_unknown" (tr_recovery_input r)) (o + 1 + 1) w3 Hsa Hs3 Hr3)
      as (d & a & b & w4 & i & x & x' & Hrec & Hd & Hg4).
    { fold run. rewrite (grows_events _ _ _ _ Hg), length_app. cbn [aw_log w0 length]. lia. }
    rewrite Hrec. eexists _, w4, _. split; [reflexivity|]. split; [apply (grows_trans _ _ _ _ _ _ Hg Hg4)|].
    split; [done|]. exists at_event. rewrite decide_True by done. exists d, a, b, i, x, x'. split; [|done]. fold run.
    replace (o + 2) with (o + 1 + 1) by lia. done.
  - eexists _, w3, _. split; [reflexivity|]. split; [exact Hg|]. split; [done|]. exists at_event. by rewrite decide_False.
Qed.

(** The log after a decision is tidy: its last event is a fact with the number it was given. *)
Lemma grown_tidy l l' run evs e n : run_events l' run = run_events l run ++ evs ++ [e] -> n = length (run_events l run ++ evs) ->
  fact_next e n -> tidy l' run.
Proof.
  intros He -> (Ho & _ & Ha). unfold tidy. rewrite (current_app l l' run (evs ++ [e])) by (by rewrite He).
  rewrite foldl_snoc. unfold replay_step at 1. rewrite (accepted e Ha), apply_offset, He, Ho, app_assoc, !length_app. simpl. lia.
Qed.

Lemma recorded_tidy l l' run o turn res evs : tidy l run -> o = Z.of_nat (length (run_events l run)) ->
  recorded_as run o turn res evs -> run_events l' run = run_events l run ++ evs -> tidy l' run.
Proof.
  intros Ht Ho Hrec He. unfold recorded_as in Hrec. destruct turn as [r|e].
  - destruct Hrec as (_ & at_event & Hevs). destruct (decide (tr_outcome_kind r = out_recovery_pending)).
    + destruct Hevs as (d & a & b & i & x & x' & -> & _).
      eapply (grown_tidy l l' run [_; _]); [rewrite He; reflexivity|reflexivity|]. split_and!; [|done|done].
      rewrite length_app. simpl. lia.
    + subst evs. eapply (grown_tidy l l' run []); [rewrite He; reflexivity|reflexivity|]. split_and!; [|done|done].
      rewrite app_nil_r. simpl. lia.
  - destruct Hrec as (_ & Hevs). destruct (is_exception e).
    + destruct Hevs as (d & a & b & i & x & x' & -> & _).
      eapply (grown_tidy l l' run [_]); [rewrite He; reflexivity|reflexivity|]. split_and!; [|done|done].
      rewrite length_app. simpl. lia.
    + subst evs. rewrite app_nil_r in He. unfold tidy, current in *. by rewrite He.
Qed.

(** A commit that is the last fact of its run, with an action nobody has decided yet. *)
Record undecided commit (action : Action) run w : Prop := {
  ud_run : ac_run_id commit = run;
  ud_action : ac_action commit = Some action;
  ud_facts : _assert_no_derived_diagnostic_authority_input commit = Ret tt;
  ud_last : last_offset commit = Ret (Z.of_nat (length (run_events (aw_log w) run)));
  ud_new : fingerprint_of commit (Z.of_nat (length (run_events (aw_log w) run))) ∉ aw_fingerprints w;
  ud_synced : synced w;
  ud_tidy : tidy (aw_log w) run;
  ud_room : has_room (aw_log w) run
}.

Lemma process_recorded commit action run w : services_answer -> undecided commit action run w ->
  let o := Z.of_nat (length (run_events (aw_log w) run)) in
  exists res w' evs, process_action_commit config ports commit w = (res, w') /\
    run_events (aw_log w') run = run_events (aw_log w) run ++ evs /\
    recorded_as run o (ap_run_turn ports (turn_input run o) action (aw_rest w)).1 res evs /\
    aw_actor w' = set_last_projection (current (aw_log w) run) (aw_actor w) /\
    aw_fingerprints w' = aw_fingerprints w ++ [fingerprint_of commit o] /\
    aw_turns w' = aw_turns w ++ [(fingerprint_of commit o, turn_input run o)] /\
    synced w' /\ tidy (aw_log w') run /\ has_room (aw_log w') run.
Proof.
  intros Hsa [Hrun Ha Hd Hl Hn Hs Ht Hr] o.
  destruct (process_current commit o run w Hrun Hd Hl Hs Ht eq_refl) as (cache & Hp & Hok). rewrite Hp. unfold decide_once.
  set (f := fingerprint_of commit o) in *. fold (attempt commit f o). rewrite Ha.
  set (w1 := mkAW (set_last_projection (current (aw_log w) run) (aw_actor w)) (aw_log w) cache (aw_fingerprints w ++ [f]) (aw_turns w) (aw_rest w)).
  assert (forall w0 : aworld T, aw_fingerprints w0 = aw_fingerprints w ->
    on_fingerprints (InMemoryDecisionDeduper.seen f) w0 = (Ret false, w0) /\
    on_fingerprints (InMemoryDecisionDeduper.mark f) w0 =
      (Ret tt, mkAW (aw_actor w0) (aw_log w0) (aw_cache w0) (aw_fingerprints w ++ [f]) (aw_turns w0) (aw_rest w0))) as Hfp.
  { intros w0 Hw0. unfold on_fingerprints, py_zoom, InMemoryDecisionDeduper.seen, InMemoryDecisionDeduper.mark, py_modify.
    cbv [mbind PyM_bind py_get mret PyM_ret]. rewrite Hw0. rewrite bool_decide_eq_false_2, decide_False by exact Hn.
    split; [|done]. f_equal. rewrite <-Hw0. by destruct w0. }
  match goal with |- context [mbind _ _ ?w0] => destruct (Hfp w0 eq_refl) as [Hseen Hmark] end.
  erewrite bind_step by exact Hseen. cbv beta iota. erewrite bind_step by exact Hmark. cbn [aw_actor aw_log aw_cache aw_turns aw_rest]. fold w1.
  destruct (attempt_recorded commit f o action (current (aw_log w) run) w1 Hsa) as (res & w' & evs & Hatt & Hg & Hrec);
    [exact Hok|by rewrite Hrun|by rewrite Hrun|].
  unfold attempt in Hatt. rewrite Hatt. rewrite Hrun in *. exists res, w', evs. destruct Hg as ((Hac & _ & Hf & Htu) & Hs' & Hr' & He).
  split_and!; [done|exact He|exact Hrec|exact Hac|exact Hf|exact Htu|done| |done].
  by eapply (recorded_tidy (aw_log w)); [| |exact Hrec|exact He].
Qed.

Lemma bind_inv {W A B} (m : PyM W A) (k : A -> PyM W B) (w : W) (b : B) (w' : W) : (a ← m; k a) w = (Ret b, w') ->
  exists (a : A) (w1 : W), m w = (Ret a, w1) /\ k a w1 = (Ret b, w').
Proof. unfold mbind, PyM_bind. destruct (m w) as [[a|e] w1]; [|done]. eauto. Qed.

#[local] Existing Instance advances_preorder.
#[local] Hint Resolve adv_projection adv_rest adv_now adv_append adv_self adv_process adv_set_sequence adv_set_pending adv_set_last adv_count
  adv_token adv_handle : keeps.

(** A signal that was taken up is among those seen. *)
Lemma handle_seen s t w w' : signal_token s = Some t -> peer_admitted s (aw_actor w) = true ->
  _handle_signal config ports s w = (Ret tt, w') -> t ∈ a_seen_signal_tokens (aw_actor w').
Proof.
  intros Ht Hp Hh. unfold _handle_signal in Hh. apply bind_inv in Hh as (a & w1 & Hself & Hh). injection Hself as <- <-.
  destruct (truthy (a_run_id (aw_actor w))); [|done]. cbn [negb] in Hh. rewrite Hp, Ht in Hh. cbn [negb] in Hh.
  destruct (bool_decide (t ∈ a_seen_signal_tokens (aw_actor w))) eqn:Hseen.
  { injection Hh as <-. by apply bool_decide_eq_true in Hseen. }
  cbv zeta in Hh. do 5 (apply bind_inv in Hh as (? & ? & _ & Hh)). apply bind_inv in Hh as ([] & w2 & Htok & Hh).
  assert (t ∈ a_seen_signal_tokens (aw_actor w2)) as Hin.
  { injection Htok as <-. simpl. destruct (decide (t ∈ _)); [done|]. apply elem_of_app. right. by apply list_elem_of_singleton. }
  match type of Hh with ?m w2 = _ => assert (keeps advances m) as Hk end.
  { unfold _trigger_continue_as_new. keeps. }
  pose proof (Hk w2) as Hadv. rewrite Hh in Hadv. destruct Hadv as (_ & Hsub & _). by apply Hsub.
Qed.

Lemma handle_known s t w : signal_token s = Some t -> t ∈ a_seen_signal_tokens (aw_actor w) -> truthy (a_run_id (aw_actor w)) = true ->
  _handle_signal config ports s w = (Ret tt, w).
Proof.
  intros Ht Hin Hr. unfold _handle_signal. erewrite bind_step by reflexivity. rewrite Hr, Ht. cbn [negb].
  destruct (peer_admitted s (aw_actor w)); [|done]. cbn [negb]. by rewrite bool_decide_eq_true_2.
Qed.

Lemma signal_started s w : truthy (a_run_id (aw_actor w)) = true -> signal config ports s w = _handle_signal config ports s w.
Proof. intros Hr. unfold signal. erewrite bind_step by reflexivity. by rewrite Hr. Qed.

(** Deliver signals one after the other, as long as none raises. *)
Fixpoint deliver (signals : list ActorSignal) : PyM (aworld T) unit :=
  match signals with
  | [] => mret tt
  | s :: rest => _ ← signal config ports s; deliver rest
  end.

Lemma deliver_started (l : list ActorSignal) w : truthy (a_run_id (aw_actor w)) = true -> deliver l w = handle_all config ports l w.
Proof.
  revert w. induction l as [|s l IH]; intros w Hr; [done|]. cbn [deliver handle_all].
  unfold mbind at 1 2, PyM_bind at 1 2. rewrite signal_started by done.
  pose proof (adv_handle config ports s w) as (Hid & _). destruct (_handle_signal config ports s w) as [[[]|e] w']; [|done].
  apply IH. simpl in Hid. by rewrite Hid.
Qed.

(** The world with other pending signals. *)
Definition with_pending (l : list ActorSignal) w : aworld T :=
  mkAW (set_pending l (aw_actor w)) (aw_log w) (aw_cache w) (aw_fingerprints w) (aw_turns w) (aw_rest w).

Lemma deliver_pending (l : list ActorSignal) : forall (l0 : list ActorSignal) w, truthy (a_run_id (aw_actor w)) = false ->
  deliver l (with_pending l0 w) = (Ret tt, with_pending (l0 ++ l) w).
Proof.
  induction l as [|s l IH]; intros l0 w Hr; [by rewrite app_nil_r|]. cbn [deliver].
  assert (signal config ports s (with_pending l0 w) = (Ret tt, with_pending (l0 ++ [s]) w)) as Hs.
  { unfold signal. erewrite bind_step by reflexivity. cbn [aw_actor with_pending set_pending a_run_id]. by rewrite Hr. }
  erewrite bind_step by exact Hs. rewrite IH by done. by rewrite <-app_assoc.
Qed.

(** The part of [run_start] before the signals. *)
Definition set_up (i : RunInput) : PyM (aworld T) unit :=
  _ ← on_actor (start_fields i);
  projection ← on_projection (fun l => Projection.get config l (in_run_id i));
  _ ← on_actor (set_last_projection projection);
  match in_policy_versions i with
  | None => mret tt
  | Some v => at_commit ← _utc_now_iso ports; at_event ← _utc_now_iso ports; append_commit ports (pinned_commit (in_run_id i) v at_commit at_event)
  end.

Lemma set_up_pending i (l : list ActorSignal) w : set_up i (with_pending l w) = ((set_up i w).1, with_pending l (set_up i w).2).
Proof.
  unfold set_up, on_actor, py_modify, _utc_now_iso, append_commit, on_rest, on_log, py_zoom. cbv [mbind PyM_bind mret PyM_ret].
  rewrite !on_projection_eq. cbn [with_pending aw_actor aw_log aw_cache aw_fingerprints aw_turns aw_rest fst snd].
  destruct (Projection.get config (aw_log w) (in_run_id i) (aw_cache w)) as [[p|e] cache]; [|done]. cbn [fst snd].
  destruct (in_policy_versions i) as [v|]; [|done]. cbn [aw_actor aw_log aw_cache aw_fingerprints aw_turns aw_rest].
  destruct (ap_now ports (aw_rest w)) as [n1 t1]. cbn [aw_rest]. destruct (ap_now ports t1) as [n2 t2]. cbn [aw_rest].
  destruct (ap_before_append ports _ t2) as [[u|e] t3]; [|done]. cbn [aw_log]. by destruct (append_action_commit _ (aw_log w)) as [[u'|e] l'].
Qed.

Lemma set_up_run i w w' : set_up i w = (Ret tt, w') -> a_run_id (aw_actor w') = Some (in_run_id i).
Proof.
  unfold set_up. intros Hu. apply bind_inv in Hu as (u & w1 & H1 & Hu). injection H1 as <- <-.
  match type of Hu with ?m ?w1 = _ => assert (keeps advances m) as Hk by keeps; pose proof (Hk w1) as Hadv end.
  rewrite Hu in Hadv. exact (proj1 Hadv).
Qed.

(** The signals carried over by the previous instance, read back. *)
Definition carried_over (i : RunInput) (l : list ActorSignal) : Prop :=
  Forall2 (fun raw s => deserialize_signal raw = Ret s) (default [] (in_pending_signals i)) l.

(** The input of a start that carries nothing over. *)
Definition without_carried (i : RunInput) : RunInput :=
  mkRunInput (in_run_id i) (in_session_id i) (in_parent_run_id i) None (in_policy_versions i) (in_initial_stage_id i).

Lemma restore_all_pending raws (l : list ActorSignal) : Forall2 (fun raw s => deserialize_signal raw = Ret s) raws l ->
  forall (l0 : list ActorSignal) w, restore_all raws (with_pending l0 w) = (Ret tt, with_pending (l0 ++ l) w).
Proof.
  induction 1 as [|raw s raws l Hs _ IH]; intros l0 w; [by rewrite app_nil_r|]. cbn [restore_all]. rewrite Hs.
  change (restore_all raws (with_pending (l0 ++ [s]) w) = (Ret tt, with_pending (l0 ++ s :: l) w)). by rewrite IH, <-app_assoc.
Qed.

Lemma run_start_eq i (carried : list ActorSignal) w : carried_over i carried ->
  run_start config ports i w =
  match set_up i w with
  | (Ret _, w') => handle_all config ports (a_pending_signals (aw_actor w') ++ carried) (with_pending [] w')
  | (Raise e, w') => (Raise e, w')
  end.
Proof.
  intros Hi. unfold run_start, set_up. cbv [mbind PyM_bind mret PyM_ret].
  assert (forall w', (match restore_all (default [] (in_pending_signals i)) w' with
      | (Ret _, s') => match self s' with
          | (Ret x0, s'0) => match on_actor (set_pending []) s'0 with
              | (Ret _, s'1) => handle_all config ports (a_pending_signals x0) s'1
              | (Raise e, s'1) => (Raise e, s'1) end
          | (Raise e, s'0) => (Raise e, s'0) end
      | (Raise e, s') => (Raise e, s') end) = handle_all config ports (a_pending_signals (aw_actor w') ++ carried) (with_pending [] w')) as Hrest.
  { intros w'. pose proof (restore_all_pending _ _ Hi (a_pending_signals (aw_actor w')) w') as Hra.
    assert (with_pending (a_pending_signals (aw_actor w')) w' = w') as Hw by by destruct w' as [[] ? ? ? ? ?].
    rewrite Hw in Hra. by rewrite Hra. }
  unfold on_actor, py_modify in Hrest |- *. rewrite !on_projection_eq. cbn [aw_actor aw_log aw_cache aw_fingerprints aw_turns aw_rest fst snd].
  destruct (Projection.get config (aw_log w) (in_run_id i) (aw_cache w)) as [[p|e] cache]; [|done].
  destruct (in_policy_versions i) as [v|]; [|exact (Hrest _)]. cbn [fst snd].
  destruct (_utc_now_iso ports _) as [[c|e] w1]; [|done]. destruct (_utc_now_iso ports w1) as [[c'|e] w2]; [|done].
  destruct (append_commit ports _ w2) as [[[]|e] w3]; [exact (Hrest w3)|done].
Qed.

(** Handling signals buffers none. *)
Definition same_pending w w' : Prop := a_pending_signals (aw_actor w') = a_pending_signals (aw_actor w).
#[local] Instance same_pending_preorder : PreOrder same_pending.
Proof. split; [done|]. unfold same_pending. intros ? ? ? ? ?. congruence. Qed.

Lemma pend_core {A} (m : PyM (aworld T) A) : keeps same_core m -> keeps same_pending m.
Proof. intros Hm w. destruct (Hm w) as (Ha & _). unfold same_pending. by rewrite Ha. Qed.
Lemma pend_actor f : (forall a, a_pending_signals (f a) = a_pending_signals a) -> keeps same_pending (on_actor (T := T) f).
Proof. intros Hf w. apply Hf. Qed.
Lemma pend_projection {A} (m : event_log -> PyM projections A) : keeps same_pending (on_projection (T := T) m).
Proof. intros w. by rewrite on_projection_eq. Qed.
Lemma pend_self : keeps same_pending (self (T := T)).
Proof. intros w. reflexivity. Qed.
Lemma pend_process commit : keeps same_pending (process_action_commit config ports commit).
Proof. intros w. destruct (process_spec config ports commit w) as [Ha _]. cbn zeta in Ha. unfold same_pending. by destruct Ha as [->|[p ->]]. Qed.

Lemma pend_handle s : keeps same_pending (_handle_signal config ports s).
Proof.
  assert (forall m : PyM T unit, keeps same_pending (on_rest m)) by (intros m; apply pend_core, core_rest).
  assert (keeps same_pending (_utc_now_iso ports)) by apply pend_core, core_now.
  assert (forall commit, keeps same_pending (append_commit ports commit)) by (intros commit; apply pend_core, core_append).
  pose proof @pend_projection. pose proof pend_self. pose proof pend_process.
  assert (forall n, keeps same_pending (on_actor (T := T) (set_sequence n))) by (intros n; by apply pend_actor).
  assert (keeps same_pending (on_actor (T := T) count_history)) by by apply pend_actor.
  assert (keeps same_pending (on_actor (T := T) (match signal_token s with Some t => add_token t | None => id end))).
  { apply pend_actor. intros a. by destruct (signal_token s). }
  unfold _handle_signal, _trigger_continue_as_new. keeps.
Qed.

Lemma deliver_pend (l : list ActorSignal) w : truthy (a_run_id (aw_actor w)) = true ->
  a_pending_signals (aw_actor (deliver l w).2) = a_pending_signals (aw_actor w) /\ a_run_id (aw_actor (deliver l w).2) = a_run_id (aw_actor w).
Proof.
  revert w. induction l as [|s l IH]; intros w Hr; [done|]. cbn [deliver]. unfold mbind, PyM_bind. rewrite signal_started by done.
  pose proof (adv_handle config ports s w) as (Hid & _). pose proof (pend_handle s w) as Hp. unfold same_pending in Hp.
  destruct (_handle_signal config ports s w) as [[[]|e] w']; cbn [snd] in *; [|done].
  destruct (IH w') as [-> ->]; [by rewrite Hid|done].
Qed.

Lemma deliver_app (l l' : list ActorSignal) w w1 : deliver l w = (Ret tt, w1) -> deliver (l ++ l') w = deliver l' w1.
Proof.
  revert w. induction l as [|s l IH]; intros w; cbn [deliver app]; [by intros [= <-]|].
  unfold mbind, PyM_bind. destruct (signal config ports s w) as [[[]|e] w2]; [apply IH|done].
Qed.

(** Recording a recovery event ends the lifecycle when the decision is to abort. *)
Lemma aborts l l' run o d a b : rp_lifecycle_state (current l run) ∉ [ls_completed; ls_aborted] -> rd_mode d = abort ->
  run_events l' run = run_events l run ++ recovery_events run o d a b -> rp_lifecycle_state (current l' run) = ls_aborted.
Proof.
  intros Hlive Hmode He. rewrite (current_app _ _ _ _ He). cbn [recovery_events foldl]. set (fact := mkRuntimeEvent _ _ (o + 1) _ _ _ _ _ _ _ _ _ _).
  set (plan := mkRuntimeEvent _ _ o _ _ _ _ _ _ _ _ _ _).
  assert (rp_lifecycle_state (replay_step config (current l run) plan) = rp_lifecycle_state (current l run)) as Hp.
  { unfold replay_step. destruct (_validate_projection_authority_input _ _); [|done].
    apply unchanged_lifecycle. destruct (apply_unfold (current l run) plan) as (-> & _ & _). unfold _resolve_projection_transition.
    destruct (_ || _); [done|]. done. }
  set (p := replay_step config (current l run) plan) in *. rewrite not_elem_of_cons, list_elem_of_singleton in Hlive.
  unfold replay_step. rewrite (accepted fact eq_refl).
  change (rp_lifecycle_state (_apply_projection_event p fact)) with ((_projection_unchanged_state (_apply_projection_event p fact)).1.1.1.1).
  destruct (apply_unfold p fact) as (-> & _ & _). unfold _resolve_projection_transition.
  rewrite bool_decide_eq_false_2 by (rewrite Hp; tauto). rewrite (bool_decide_eq_false_2 (rp_lifecycle_state p = ls_aborted)) by (rewrite Hp; tauto).
  assert (_is_lower_priority_operational_conflict p fact = false) as ->.
  { unfold _is_lower_priority_operational_conflict, _projection_operational_priority. rewrite decide_False by (rewrite Hp; tauto).
    unfold fact. cbn [ev_event_type]. rewrite Hmode. by destruct (decide (rp_lifecycle_state p = ls_waiting_external)). }
  unfold fact. cbn [ev_event_type]. rewrite Hmode. done.
Qed.
(** Theorems ************************************************************************)

(** C26: a started run that takes up a signal (of a cause it has not seen, from itself or a
    peer it admits) while appends are not refused and no reset of the history is due
    appends exactly one event, numbered after the
    last, and moves the projection the way the replay of the log moves; the actor counts
    the signal, remembers its cause and calls no turn, and what held before of the log
    (its last event counts for the projection, it has room for the run)
    and the projection service holds again for the next signal. *)
Theorem signal_recorded s run w : never_refused -> takes_up s run (aw_actor w) -> no_reset (aw_actor w) -> synced w ->
  tidy (aw_log w) run -> has_room (aw_log w) run ->
  exists w' at_event,
    let e := signal_event run (a_signal_sequence (aw_actor w) + 1) (Z.of_nat (length (run_events (aw_log w) run)) + 1) s at_event in
    signal config ports s w = (Ret tt, w') /\
    run_events (aw_log w') run = run_events (aw_log w) run ++ [e] /\
    current (aw_log w') run = _apply_projection_event (current (aw_log w) run) e /\
    aw_actor w' = after_signal s (current (aw_log w') run) (aw_actor w) /\
    aw_turns w' = aw_turns w /\ synced w' /\ tidy (aw_log w') run /\ has_room (aw_log w') run.
Proof.
  intros Hfree Htu Hreset Hs Ht Hroom. rewrite signal_started by (rewrite (tu_run _ _ _ Htu); apply truthy_some, (tu_named _ _ _ Htu)).
  by apply handle_recorded.
Qed.

(** a signal is taken up once: after it was handled, a signal of the same type and
    cause changes nothing, whatever the actor did in between and whether that returned or
    raised. *)
Theorem duplicate_signal_ignored s s' t ops w w1 : signal_token s = Some t -> signal_token s' = Some t ->
  truthy (a_run_id (aw_actor w)) = true -> peer_admitted s (aw_actor w) = true -> signal config ports s w = (Ret tt, w1) ->
  signal config ports s' (run_ops config ports ops w1) = (Ret tt, run_ops config ports ops w1).
Proof.
  intros Ht Ht' Hr Hp Hsig. rewrite signal_started in Hsig by done.
  pose proof (handle_seen s t w w1 Ht Hp Hsig) as Hin. pose proof (adv_handle config ports s w) as (Hid & _). rewrite Hsig in Hid. simpl in Hid.
  destruct (adv_run_ops config ports ops w1) as (Hid' & Hsub & _).
  assert (truthy (a_run_id (aw_actor (run_ops config ports ops w1))) = true) as Hr' by (by rewrite Hid', Hid).
  rewrite signal_started by done. apply (handle_known s' t); [done|by apply Hsub|done].
Qed.

Lemma decided_skips commit o w : last_offset commit = Ret o -> fingerprint_of commit o ∈ aw_fingerprints w ->
  let w' := (process_action_commit config ports commit w).2 in
  aw_log w' = aw_log w /\ aw_turns w' = aw_turns w /\ aw_rest w' = aw_rest w /\ aw_fingerprints w' = aw_fingerprints w.
Proof.
  intros Ho Hf. cbn zeta. rewrite process_eq, Ho. destruct (_assert_no_derived_diagnostic_authority_input commit); [|done].
  destruct (catch_up config (aw_log w) (ac_run_id commit) o (aw_cache w)) as [[p|e] cache]; [|done].
  destruct (readiness config (aw_log w) (ac_run_id commit) o cache) as [[[]|e] cache']; [|done..].
  unfold decide_once, on_fingerprints, py_zoom, InMemoryDecisionDeduper.seen. cbv [mbind PyM_bind py_get mret PyM_ret].
  cbn [aw_fingerprints]. by rewrite bool_decide_eq_true_2.
Qed.

(** C24: a decision calls at most one turn: however signals, commits and completions
    follow one another, and whether they return or raise, no fingerprint is in the list
    of turns twice, and a commit whose turn was called, be it a turn that failed, calls
    no other and leaves the log and the other services as they are. *)
Theorem decision_once ops w : aw_turns w = [] ->
  let w1 := run_ops config ports ops w in
  NoDup (map fst (aw_turns w1)) /\
  forall commit o, last_offset commit = Ret o -> fingerprint_of commit o ∈ map fst (aw_turns w1) ->
    let w2 := (process_action_commit config ports commit w1).2 in
    aw_log w2 = aw_log w1 /\ aw_turns w2 = aw_turns w1 /\ aw_rest w2 = aw_rest w1.
Proof.
  intros Hw w1. destruct (adv_run_ops config ports ops w) as (_ & _ & _ & new & turns & Hf & Ht & Hsub & Hnd & Hnew). fold w1 in Hf, Ht.
  rewrite Hw, app_nil_l in Ht. rewrite Ht. split; [by eapply sublist_NoDup|]. intros commit o Ho Hin w2.
  destruct (decided_skips commit o w1 Ho) as (? & Htu & ? & _); [|by rewrite <-Ht].
  rewrite Hf. apply elem_of_app. right. by eapply elem_of_sublist.
Qed.

(** C25: when its services answer, a commit whose action nobody has decided yet calls exactly one turn, under its
    fingerprint, and what the turn did is in the log: its outcome, then the plan and the
    decision of the recovery gate if it asks for recovery or raised an [Exception], in
    that order and numbered on; an exception reaches the caller after its recovery was
    recorded, and an interrupt leaves the log as it was.  The services answer
    ([services_answer]): no append is refused, the gate decides and writes no event, the stores of
    intents and outcomes and the notification of success do not raise, and a turn reports one dispatch; the
    commit is the last fact of a log whose projection is up to date. *)
Theorem turn_recorded commit action run w : services_answer -> undecided commit action run w ->
  let o := Z.of_nat (length (run_events (aw_log w) run)) in
  exists res w' evs, process_action_commit config ports commit w = (res, w') /\
    run_events (aw_log w') run = run_events (aw_log w) run ++ evs /\
    recorded_as run o (ap_run_turn ports (turn_input run o) action (aw_rest w)).1 res evs /\
    aw_actor w' = set_last_projection (current (aw_log w) run) (aw_actor w) /\
    aw_fingerprints w' = aw_fingerprints w ++ [fingerprint_of commit o] /\
    aw_turns w' = aw_turns w ++ [(fingerprint_of commit o, turn_input run o)] /\
    synced w' /\ tidy (aw_log w') run /\ has_room (aw_log w') run.
Proof. apply process_recorded. Qed.

(** The gate always decides to abort. *)
Definition gate_aborts : Prop := forall i x d x', ap_decide ports i x = (Ret d, x') -> rd_mode d = abort.

(** C28: when a turn of a live run raises and the gate aborts the run, the log says so but
    the actor does not learn it: the query answers the projection of before, and the
    condition the workflow waits for does not hold. *)
Theorem aborted_run_waits commit action run e w : services_answer -> gate_aborts -> undecided commit action run w ->
  a_run_id (aw_actor w) = Some run -> run <> "" -> rp_lifecycle_state (current (aw_log w) run) ∉ [ls_completed; ls_aborted] ->
  (ap_run_turn ports (turn_input run (Z.of_nat (length (run_events (aw_log w) run)))) action (aw_rest w)).1 = Raise e -> is_exception e = true ->
  exists w', process_action_commit config ports commit w = (Raise e, w') /\
    rp_lifecycle_state (current (aw_log w') run) = ls_aborted /\
    query (aw_actor w') = Ret (current (aw_log w) run) /\ _is_run_terminal (aw_actor w') = false.
Proof.
  intros Hsa Hgate Hud Hid Hne Hlive Hturn He. destruct (process_recorded commit action run w Hsa Hud) as (res & w' & evs & Hp & Hev & Hrec & Ha & _).
  rewrite Hturn in Hrec. unfold recorded_as in Hrec. rewrite He in Hrec. destruct Hrec as (-> & d & a & b & i & x & x' & -> & Hd).
  exists w'. split; [done|]. split; [by eapply aborts; [exact Hlive|by eapply Hgate|]|]. rewrite Ha. unfold query, _is_run_terminal.
  cbn [set_last_projection a_run_id a_last_projection]. rewrite Hid, truthy_some by done. split; [done|]. by apply bool_decide_eq_false_2.
Qed.

(** C27: signals that arrive before the workflow has started are kept in order and handled
    when it starts, and then those carried over from the instance before it: the start ends in the
    result and the world of one that carries nothing over, followed by the buffered signals
    and then the carried ones, delivered one after the other.  When handling one of them
    raises, that exception is the result of the start, in the world that signal left, and
    the signals after it are lost: the actor has begun and its buffer is empty. *)
Theorem buffered_signals i (buffered carried : list ActorSignal) w w1 :
  a_run_id (aw_actor w) = None -> a_pending_signals (aw_actor w) = [] -> in_run_id i <> "" -> carried_over i carried ->
  run_start config ports (without_carried i) w = (Ret tt, w1) ->
  deliver buffered w = (Ret tt, with_pending buffered w) /\
  run_start config ports i (with_pending buffered w) = deliver (buffered ++ carried) w1 /\
  forall before s after w2 e w3, buffered ++ carried = before ++ s :: after ->
    deliver before w1 = (Ret tt, w2) -> signal config ports s w2 = (Raise e, w3) ->
    run_start config ports i (with_pending buffered w) = (Raise e, w3) /\
    a_run_id (aw_actor w3) = Some (in_run_id i) /\ a_pending_signals (aw_actor w3) = [].
Proof.
  intros Hr Hp Hne Hc Hok. assert (w = with_pending [] w) as Hw by (destruct w as [[] ? ? ? ? ?]; simpl in *; by subst).
  assert (truthy (Some (in_run_id i)) = true) as Hti by by apply truthy_some.
  rewrite (run_start_eq _ []) in Hok by constructor. change (set_up (without_carried i) w) with (set_up i w) in Hok.
  pose proof (set_up_pending i [] w) as Hset. rewrite <-Hw in Hset.
  destruct (set_up i w) as [[[]|e] w0] eqn:Hs; [|done]. cbn [fst snd] in Hset. injection Hset as Hset.
  rewrite Hset in Hok. cbn [with_pending aw_actor set_pending a_pending_signals app handle_all] in Hok. injection Hok as Hw1.
  assert (a_run_id (aw_actor w1) = Some (in_run_id i)) as Hid by (rewrite <-Hw1; exact (set_up_run _ _ _ Hs)).
  assert (a_pending_signals (aw_actor w1) = []) as Hp1 by by rewrite <-Hw1.
  assert (run_start config ports i (with_pending buffered w) = deliver (buffered ++ carried) w1) as Hrun.
  { rewrite (run_start_eq i carried) by done. rewrite set_up_pending, Hs. cbn [fst snd]. rewrite deliver_started by by rewrite Hid.
    rewrite <-Hw1. done. }
  split_and!; [|done|].
  - rewrite Hw at 1. by rewrite deliver_pending by by rewrite Hr.
  - intros before s after w2 e w3 Hl Hb He. pose proof (deliver_pend before w1 ltac:(by rewrite Hid)) as [Hp2 Hid2]. rewrite Hb in Hp2, Hid2. cbn [snd] in *.
    pose proof (deliver_pend [s] w2 ltac:(by rewrite Hid2, Hid)) as Hlast. cbn [deliver] in Hlast. unfold mbind, PyM_bind in Hlast. rewrite He in Hlast.
    cbn [snd] in Hlast. destruct Hlast as [Hp3 Hid3]. split_and!; [|congruence|congruence].
    rewrite Hrun, Hl, (deliver_app before (s :: after) w1 w2 Hb). cbn [deliver]. unfold mbind, PyM_bind. by rewrite He.
Qed.
End exact.

(** Concrete instances ****************************************************************)

(** An engine whose turns raise for actions of type [broken], the gate of the default
    configuration, which aborts, and stores that accept everything; the world counts the readings of the clock. *)
Definition example_ports : actor_ports Z :=
  mkActorPorts Z
    (fun i action t => if decide (act_action_type action = "broken") then (Raise (RuntimeError "boom"), t)
                       else (Ret (mkTurnResult effect_recorded out_dispatched "dec-1" "fp-1" (Some "key-1") (Some "intent-1") None None None None []), t))
    (fun i lt => (Ret (decide_static default_recovery_policy i), lt))
    None (fun _ => mret tt) (Some (fun _ => mret tt)) (Some (fun _ => mret tt)) (fun _ => mret tt)
    (fun t => (pretty t, t + 1)) true (fun _ _ => mret tt) (fun _ => false) (fun _ => mret tt) "agent-kernel" 10000.

Definition example_input : RunInput := mkRunInput "run-1" None None None (Some (mkRunPolicyVersions None None None None None None "now")) None.
Definition fresh_world : aworld Z := mkAW new_actor empty_log [] [] [] 0.
Definition started_world : aworld Z := (run_start example_config example_ports example_input fresh_world).2.
Definition cancel : ActorSignal := mkSignal "cancel_requested" None (Some "user-1") None None.
Definition ping : ActorSignal := mkSignal "ping" None (Some "user-1") None None.

Definition example_action (type : string) : Action := mkAction "act-1" "run-1" type IDEMPOTENT_WRITE None None None None [] None None.

Lemma example_answers : services_answer example_ports.
Proof.
  split.
  - by intros commit t; exists t.
  - intros i l t. by eexists _, t.
  - intros write [= <-] x t. by exists t.
  - intros write [= <-] x t. by exists t.
  - done.
  - intros i action t r. simpl. destruct (decide (act_action_type action = "broken")); simpl; by intros [= <-].
Qed.

Lemma example_synced : synced example_config (mkAW (T := Z) new_actor (aw_log started_world) (aw_cache started_world) [] [] 0).
Proof.
  unfold synced. cbn [aw_log aw_cache].
  change (aw_log started_world) with (append_action_commit (pinned_commit "run-1" (mkRunPolicyVersions None None None None None None "now") "0" "1") empty_log).2.
  apply service_cache_ok; [by left|].
  assert (service_reachable example_config empty_log (aw_cache started_world)) as Hs.
  { change (aw_cache started_world) with (Projection.project example_config empty_log None "run-1" []).2. apply sr_project. constructor. }
  apply sr_append; [exact Hs|by right].
Qed.

Lemma signal_recorded_witness : exists w', signal example_config example_ports cancel started_world = (Ret tt, w') /\
  length (run_events (aw_log w') "run-1") = 2%nat.
Proof.
  destruct (signal_recorded example_config example_ports (or_introl eq_refl) cancel "run-1" started_world) as (w' & at_event & Hs & He & _).
  - by intros commit t; exists t.
  - split; [reflexivity|done|reflexivity|]. intros t _. apply not_elem_of_nil.
  - by right.
  - exact example_synced.
  - by vm_compute.
  - left. by apply list_elem_of_singleton.
  - exists w'. split; [exact Hs|]. rewrite He. reflexivity.
Defined.

Lemma duplicate_signal_ignored_witness :
  let w1 := (signal example_config example_ports cancel started_world).2 in
  let ops := [OSignal ping; OFinish example_input] in
  signal example_config example_ports cancel (run_ops example_config example_ports ops w1) = (Ret tt, run_ops example_config example_ports ops w1) /\
  length (run_events (aw_log (run_ops example_config example_ports ops w1)) "run-1") = 3%nat.
Proof.
  intros w1 ops. split; [|by vm_compute].
  apply (duplicate_signal_ignored example_config example_ports cancel cancel "cancel_requested:user-1" ops started_world w1); by vm_compute.
Defined.

(** The commit that is already the last fact of the log, with an action. *)
Definition example_commit (type : string) : ActionCommit :=
  mkActionCommit "run-1" "commit-1" [mkRuntimeEvent "run-1" "evt-1" 1 "run.ready" ec_fact authoritative_fact "run-1" wake_actor "now" None None None "1"]
    "now" (Some (example_action type)) None.

Lemma decision_once_witness :
  let w1 := run_ops example_config example_ports [OProcess (example_commit "broken"); OProcess (example_commit "tool_call")] started_world in
  NoDup (map fst (aw_turns w1)) /\ map fst (aw_turns w1) = ["run-1:commit-1:1"].
Proof.
  intros w1. split; [|by vm_compute].
  refine (proj1 (decision_once example_config example_ports [OProcess (example_commit "broken"); OProcess (example_commit "tool_call")] started_world _)).
  reflexivity.
Defined.

Lemma example_undecided type : undecided example_config (example_commit type) (example_action type) "run-1" started_world.
Proof.
  split; [done|done|done|reflexivity|by apply not_elem_of_nil|exact example_synced|by vm_compute|].
  left. by apply list_elem_of_singleton.
Qed.

Lemma turn_recorded_witness : exists w', process_action_commit example_config example_ports (example_commit "tool_call") started_world = (Ret tt, w') /\
  length (run_events (aw_log w') "run-1") = 2%nat.
Proof.
  destruct (turn_recorded example_config example_ports (or_introl eq_refl) (example_commit "tool_call") (example_action "tool_call") "run-1" started_world)
    as (res & w' & evs & Hp & He & (-> & at_event & ->) & _).
  - exact example_answers.
  - apply example_undecided.
  - exists w'. split; [exact Hp|]. rewrite He. reflexivity.
Defined.

Lemma aborted_run_waits_witness : exists w', process_action_commit example_config example_ports (example_commit "broken") started_world = (Raise (RuntimeError "boom"), w') /\
  _is_run_terminal (aw_actor w') = false.
Proof.
  destruct (aborted_run_waits example_config example_ports (or_introl eq_refl) (example_commit "broken") (example_action "broken") "run-1" (RuntimeError "boom") started_world)
    as (w' & Hp & _ & _ & Ht).
  - exact example_answers.
  - by intros i x d x' [= <- _].
  - apply example_undecided.
  - reflexivity.
  - done.
  - by apply (bool_decide_unpack _); vm_compute.
  - reflexivity.
  - reflexivity.
  - exists w'. split; [exact Hp|exact Ht].
Defined.

(** The same services, with an append that refuses the fact of one signal. *)
Definition refusing_ports : actor_ports Z :=
  mkActorPorts Z (ap_run_turn example_ports) (ap_decide example_ports) None (fun _ => mret tt) None None
    (fun commit => if decide (ac_commit_id commit = "signal:ping:user-1") then py_raise (RuntimeError "disk full") else mret tt)
    (ap_now example_ports) true (fun _ _ => mret tt) (fun _ => false) (fun _ => mret tt) "agent-kernel" 10000.

(** A ping and a cancellation are buffered, another signal is carried over; the ping fails,
    and the two others are lost. *)
Lemma buffered_signals_witness :
  let carried := mkSignal "resumed" None None None None in
  let i := mkRunInput "run-1" None None (Some [serialize_signal carried]) None None in
  let w3 := (deliver example_config refusing_ports [ping] (run_start example_config refusing_ports (without_carried i) fresh_world).2).2 in
  run_start example_config refusing_ports i (with_pending [ping; cancel] fresh_world) = (Raise (RuntimeError "disk full"), w3) /\
  a_run_id (aw_actor w3) = Some "run-1" /\ a_pending_signals (aw_actor w3) = [].
Proof.
  intros carried i w3.
  destruct (buffered_signals example_config refusing_ports i [ping; cancel] [carried] fresh_world
    (run_start example_config refusing_ports (without_carried i) fresh_world).2) as (_ & _ & H); [reflexivity|reflexivity|done| |by vm_compute|].
  - repeat constructor.
  - eapply (H [] ping [cancel; carried]); [reflexivity|reflexivity|by vm_compute].
Defined.
