(* ===== verification/AgentCore.v ===== *)
(** * Platform adapters ([agent_kernel/adapters/agent_core])

    [context_adapter.py], [checkpoint_adapter.py], [session_adapter.py] and the mapping
    part of [runner_adapter.py]: what stands between the platform and the facade.  The
    facade keeps the first two as optional components.  The file proves that a snapshot
    id resumes the run and the offset it was made of, and that nothing else does. *)

From stdpp Require Import base tactics option list strings pretty.
From Stdlib Require Import ZArith Ascii.
From S2P Require Import Prelude PyStr PyDict PyVal Json Contracts.
#[local] Arguments String.append : simpl nomatch.
#[local] Open Scope Z_scope.

(** Requests of the kernel contracts the adapters build. *)

Record SignalRunRequest := mkSignalRun {
  sr_run_id : string;
  sr_signal_type : string;
  sr_signal_payload : option (odict string pyval);
  sr_caused_by : option string
}.

Record StartRunRequest := mkStartRun {
  st_initiator : string;
  st_run_kind : string;
  st_session_id : option string;
  st_input_ref : option string;
  st_input_json : option (odict string pyval);
  st_context_ref : option string
}.

Record SpawnChildRunRequest := mkSpawnChild {
  sc_parent_run_id : string;
  sc_child_kind : string;
  sc_input_ref : option string;
  sc_input_json : option (odict string pyval);
  sc_context_ref : option string;
  sc_inherit_policy_versions : bool;
  sc_policy_version_overrides : option (odict string string)
}.

(** Context adapter **********************************************************************)

Module Context.

Record AgentCoreContextInput := mkContextInput {
  ci_session_id : option string;
  ci_context_ref : option string;
  ci_context_json : option (odict string pyval)
}.

Record RuntimeContextBinding := mkBinding {
  rb_binding_ref : string;
  rb_hot_context_ref : option string;
  rb_warm_context_ref : option string;
  rb_content_hash : option string;
  rb_workspace_rules_md_ref : option string;
  rb_workspace_summary_md_ref : option string
}.

(** [AgentCoreContextAdapter] *)
Record adapter := mkContextAdapter {
  _binding_by_run : odict string string;
  _context_by_binding : odict string string
}.

Definition empty : adapter := mkContextAdapter [] [].

(** An optional string in an f-string. *)
Definition fmt (o : option string) : string := default "None" o.

Definition _build_context_content_hash (sha256 : string -> string) (input_value : AgentCoreContextInput) : string :=
  sha256 (json_dumps true (PDict [
    ("session_id", opt_val PStr (ci_session_id input_value));
    ("context_ref", opt_val PStr (ci_context_ref input_value));
    ("context_json", PDict (or_empty (ci_context_json input_value)))])).

Definition bind_context (sha256 : string -> string) (input_value : AgentCoreContextInput) : PyM adapter RuntimeContextBinding :=
  let binding_ref := "ctx:" +:+ fmt (ci_session_id input_value) in
  _ ← match ci_context_ref input_value with
      | Some context_ref => py_modify (fun a =>
          mkContextAdapter (_binding_by_run a) (od_set binding_ref context_ref (_context_by_binding a)))
      | None => mret tt
      end;
  mret (mkBinding binding_ref (ci_context_ref input_value) (ci_context_ref input_value)
    (Some (_build_context_content_hash sha256 input_value))
    (Some ("ctx-rules:" +:+ fmt (ci_session_id input_value)))
    (Some ("ctx-summary:" +:+ fmt (ci_session_id input_value)))).

Definition bind_run_context (run_id binding_ref : string) (a : adapter) : adapter :=
  mkContextAdapter (od_set run_id binding_ref (_binding_by_run a)) (_context_by_binding a).

Definition resolve_run_context (run_id : string) (a : adapter) : option string := od_get run_id (_binding_by_run a).

Record AgentCoreContextExport := mkContextExport {
  ce_run_id : string;
  ce_context_ref : string;
  ce_summary_ref : option string
}.

Definition export_context (run_id : string) (a : adapter) : AgentCoreContextExport :=
  let binding_ref := default "" (od_get run_id (_binding_by_run a)) in
  mkContextExport run_id (default ("ctx:" +:+ run_id) (od_get binding_ref (_context_by_binding a)))
    (Some ("ctx-summary:" +:+ run_id)).

(** A run bound to the context of a session exports the reference the session was last bound with. *)
Lemma export_bound sha256 input context_ref run a : ci_context_ref input = Some context_ref ->
  let '(r, a') := bind_context sha256 input a in
  exists b, r = Ret b /\ ce_context_ref (export_context run (bind_run_context run (rb_binding_ref b) a')) = context_ref.
Proof.
  intros H. unfold bind_context. rewrite H. py_simpl. eexists. split; [done|].
  unfold export_context. simpl. rewrite !od_get_set_eq. by cbn [from_option id]; rewrite ?od_get_set_eq.
Qed.

End Context.

(** Checkpoint adapter *******************************************************************)

Module Checkpoint.

Record AgentCoreCheckpointView := mkCheckpointView {
  cv_run_id : string;
  cv_snapshot_id : option string;
  cv_projected_offset : Z;
  cv_lifecycle_state : RunLifecycleState
}.

Record AgentCoreResumeInput := mkResumeInput {
  ri_run_id : string;
  ri_snapshot_id : option string
}.

Record KernelResumeRequest := mkKernelResume {
  kr_run_id : string;
  kr_snapshot_id : option string;
  kr_snapshot_offset : option Z
}.

(** [AgentCoreCheckpointAdapter._projection_by_run] *)
Abbreviation adapter := (odict string RunProjection).

Definition bind_projection (projection : RunProjection) (a : adapter) : adapter :=
  od_set (rp_run_id projection) projection a.

Definition export_checkpoint_view (run_id : string) (a : adapter) : AgentCoreCheckpointView :=
  match od_get run_id a with
  | None => mkCheckpointView run_id None 0 ls_created
  | Some projection =>
      mkCheckpointView run_id (Some ("snapshot:" +:+ run_id +:+ ":" +:+ pretty (rp_projected_offset projection)))
        (rp_projected_offset projection) (rp_lifecycle_state projection)
  end.

Definition export_checkpoint := export_checkpoint_view.

(** [s.rpartition(":")], [None] when there is no colon. *)
Fixpoint rpartition (s : string) : option (string * string) :=
  match s with
  | "" => None
  | String c s' =>
      match rpartition s' with
      | Some (a, b) => Some (String c a, b)
      | None => if decide (c = colon) then Some ("", s') else None
      end
  end.

(** [s.isdigit()] *)
Definition isdigit (s : string) : bool := negb (bool_decide (s = "")) && all_chars is_digit s.

Definition parse_snapshot_id (snapshot_id : string) : outcome (string * Z) :=
  if negb (startswith snapshot_id "snapshot:") then
    Raise (ValueError "Invalid snapshot_id format. Expected 'snapshot:<run_id>:<offset>'.")
  else
    match rpartition (drop_chars (String.length "snapshot:") snapshot_id) with
    | None => Raise (ValueError "Invalid snapshot_id format. Expected 'snapshot:<run_id>:<offset>'.")
    | Some (run_id, offset_value) =>
        if decide (run_id = "") then Raise (ValueError "Invalid snapshot_id: run_id must be non-empty.")
        else if negb (isdigit offset_value) then
          Raise (ValueError "Invalid snapshot_id: offset must be a non-negative integer.")
        else Ret (run_id, Z.of_N (digits_val 0 offset_value))
    end.

Definition import_resume_request (input_value : AgentCoreResumeInput) : outcome KernelResumeRequest :=
  snapshot_offset ←
    match ri_snapshot_id input_value with
    | None => Ret None
    | Some snapshot_id =>
        '(parsed_run_id, parsed_offset) ← parse_snapshot_id snapshot_id;
        if negb (bool_decide (parsed_run_id = ri_run_id input_value)) then
          Raise (ValueError "snapshot_id run_id does not match resume request run_id.")
        else Ret (Some parsed_offset)
    end;
  mret (mkKernelResume (ri_run_id input_value) (ri_snapshot_id input_value) snapshot_offset).

Definition import_resume := import_resume_request.

(** Lemmas *)

Lemma digits_no_colon s : all_chars is_digit s = true -> rpartition s = None.
Proof.
  induction s as [|c s IH]; [done|]. simpl. intros [Hc Hs]%andb_true_iff. rewrite IH by done.
  by rewrite decide_False by (intros ->; vm_compute in Hc; discriminate).
Qed.

(** The last colon separates what is before it from digits. *)
Lemma rpartition_digits run s : all_chars is_digit s = true -> rpartition (run +:+ ":" +:+ s) = Some (run, s).
Proof.
  intros Hs. induction run as [|c run IH].
  - change ("" +:+ ":" +:+ s) with (String colon s). cbn [rpartition]. rewrite digits_no_colon by done.
    by rewrite decide_True.
  - change (String c run +:+ ":" +:+ s) with (String c (run +:+ ":" +:+ s)). cbn [rpartition]. by rewrite IH.
Qed.

Lemma rpartition_inv s a b : rpartition s = Some (a, b) -> s = a +:+ ":" +:+ b.
Proof.
  revert a b. induction s as [|c s IH]; intros a b; simpl; [done|].
  destruct (rpartition s) as [[a' b']|] eqn:E.
  - intros [= <- <-]. simpl. f_equal. by apply IH.
  - case_decide; [|done]. intros [= <- <-]. by subst.
Qed.

Lemma pretty_N_digits (x : N) : isdigit (pretty x) = true.
Proof.
  unfold isdigit. rewrite andb_true_iff. unfold pretty, pretty_N. case_decide as Hx; [done|].
  split; [|by apply pretty_N_go_digits]. apply negb_true_iff, bool_decide_eq_false.
  destruct (pretty_N_go_head x "") as (c & s' & -> & _); [lia|done].
Qed.

Lemma pretty_Z_of_N (x : N) : pretty (Z.of_N x) = pretty x.
Proof. by destruct x. Qed.

(** What the parser accepts: a nonempty run id, a colon and digits. *)
Lemma parse_snapshot_id_Ret text run offset : parse_snapshot_id text = Ret (run, offset) <->
  exists digits, text = "snapshot:" +:+ run +:+ ":" +:+ digits /\ run <> "" /\ isdigit digits = true /\
    offset = Z.of_N (digits_val 0 digits).
Proof.
  unfold parse_snapshot_id. split.
  - destruct (startswith text "snapshot:") eqn:Hs; [|done]. apply startswith_spec in Hs as [t ->].
    rewrite drop_chars_app. simpl negb. cbn iota.
    destruct (rpartition t) as [[a b]|] eqn:E; [|done]. apply rpartition_inv in E as ->.
    case_decide; [done|]. destruct (isdigit b) eqn:Hb; simpl; [|done]. intros [= <- <-]. eauto.
  - intros (digits & -> & Hr & Hd & ->). rewrite startswith_app, drop_chars_app. simpl negb. cbn iota.
    pose proof Hd as Hd'. unfold isdigit in Hd'. apply andb_true_iff in Hd' as [_ ?].
    rewrite rpartition_digits by done. case_decide; [done|]. by rewrite Hd.
Qed.

End Checkpoint.

(** Session adapter **********************************************************************)

Module Session.

Record AgentCoreCallbackInput := mkCallback {
  cb_session_id : string;
  cb_callback_type : string;
  cb_callback_payload : option (odict string pyval);
  cb_run_id : option string;
  cb_caused_by : option string
}.

Record _SessionRunBinding := mkSessionRun { sb_run_id : string; sb_binding_kind : string }.

#[export] Instance binding_eq_dec : EqDecision _SessionRunBinding.
Proof. solve_decision. Defined.

(** [AgentCoreSessionAdapter._session_bindings] *)
Abbreviation adapter := (odict string (list _SessionRunBinding)).

Definition bind_run_to_session (session_id run_id binding_kind : string) (a : adapter) : adapter :=
  let bindings := default [] (od_get session_id a) in
  let candidate := mkSessionRun run_id binding_kind in
  od_set session_id (if decide (candidate ∈ bindings) then bindings else bindings ++ [candidate]) a.

Definition resolve_session_run (session_id : string) (a : adapter) : list string :=
  map sb_run_id (default [] (od_get session_id a)).

Definition resolve_session_run_by_kind (session_id binding_kind : string) (a : adapter) : list string :=
  map sb_run_id (filter (fun b => sb_binding_kind b = binding_kind) (default [] (od_get session_id a))).

Definition translate_callback (input_value : AgentCoreCallbackInput) (a : adapter) : SignalRunRequest :=
  let run_id :=
    match cb_run_id input_value with
    | Some run_id => run_id
    | None =>
        match last (default [] (od_get (cb_session_id input_value) a)) with
        | Some b => sb_run_id b
        | None => cb_session_id input_value
        end
    end in
  mkSignalRun run_id (cb_callback_type input_value) (cb_callback_payload input_value) (cb_caused_by input_value).

(** A session has each binding once. *)
Lemma bind_nodup session run kind a : (forall s bs, od_get s a = Some bs -> NoDup bs) ->
  forall s bs, od_get s (bind_run_to_session session run kind a) = Some bs -> NoDup bs.
Proof.
  intros Hn s bs. unfold bind_run_to_session. destruct (decide (session = s)) as [->|Hne].
  - rewrite od_get_set_eq. intros [= <-].
    assert (NoDup (default [] (od_get s a))) as Hnd.
    { destruct (od_get s a) eqn:E; [by eapply Hn|constructor]. }
    case_decide as Hin; [done|]. apply NoDup_app. split; [done|].
    split; [intros x Hx ->%list_elem_of_singleton; done|apply NoDup_singleton].
  - rewrite od_get_set_ne by done. apply Hn.
Qed.

(** A callback without a run goes to the run last bound to its session. *)
Lemma callback_follows_binding input run kind a : cb_run_id input = None ->
  mkSessionRun run kind ∉ default [] (od_get (cb_session_id input) a) ->
  sr_run_id (translate_callback input (bind_run_to_session (cb_session_id input) run kind a)) = run.
Proof.
  intros Hr Hn. unfold translate_callback, bind_run_to_session. rewrite Hr, od_get_set_eq. cbn [from_option]. unfold id.
  rewrite decide_False by done. by rewrite last_snoc.
Qed.

End Session.

(** Runner adapter ***********************************************************************)

Module Runner.

Record AgentCoreRunnerStartInput := mkRunnerStart {
  rs_runner_kind : string;
  rs_session_id : option string;
  rs_goal_ref : option string;
  rs_goal_json : option (odict string pyval);
  rs_context_ref : option string
}.

Record AgentCoreChildSpawnInput := mkChildSpawn {
  cs_parent_run_id : string;
  cs_runner_kind : string;
  cs_child_goal_ref : option string;
  cs_child_goal_json : option (odict string pyval)
}.

Definition from_runner_start (input_value : AgentCoreRunnerStartInput) : StartRunRequest :=
  mkStartRun "agent_core_runner" (rs_runner_kind input_value) (rs_session_id input_value) (rs_goal_ref input_value)
    (rs_goal_json input_value) (rs_context_ref input_value).

Definition from_runner_child_spawn (input_value : AgentCoreChildSpawnInput) : SpawnChildRunRequest :=
  mkSpawnChild (cs_parent_run_id input_value) (cs_runner_kind input_value) (cs_child_goal_ref input_value)
    (cs_child_goal_json input_value) None true None.

(** What the two identity extractions answer for the parent's session, given. *)
Definition from_openjiuwen_child_run_call (runner_kind : string) (child_inputs : option (odict string pyval))
    (workflow_id session_id : option string) : outcome SpawnChildRunRequest :=
  match py_or workflow_id session_id with
  | Some parent_run_id =>
      if decide (parent_run_id = "") then
        Raise (ValueError "parent_session must provide workflow_id() or session_id().")
      else Ret (from_runner_child_spawn (mkChildSpawn parent_run_id runner_kind None child_inputs))
  | None => Raise (ValueError "parent_session must provide workflow_id() or session_id().")
  end.

End Runner.

(** Properties ********************************************************************)

(** C38: A snapshot id exported for a run resumes exactly that run at exactly the
    offset of the projection last bound, whatever characters its name has; a snapshot
    id is accepted for a run only when it is that run's name with digits behind it,
    and one of another run is refused. *)
Theorem checkpoint_roundtrip (projection : RunProjection) (a : Checkpoint.adapter) (other snapshot : string) :
  rp_run_id projection <> "" -> 0 <= rp_projected_offset projection ->
  let run := rp_run_id projection in
  let view := Checkpoint.export_checkpoint run (Checkpoint.bind_projection projection a) in
  Checkpoint.import_resume (Checkpoint.mkResumeInput run (Checkpoint.cv_snapshot_id view)) =
    Ret (Checkpoint.mkKernelResume run (Checkpoint.cv_snapshot_id view) (Some (rp_projected_offset projection))) /\
  (other <> run -> Checkpoint.import_resume (Checkpoint.mkResumeInput other (Checkpoint.cv_snapshot_id view)) =
    Raise (ValueError "snapshot_id run_id does not match resume request run_id.")) /\
  (forall r, Checkpoint.import_resume (Checkpoint.mkResumeInput run (Some snapshot)) = Ret r <->
    exists digits, snapshot = "snapshot:" +:+ run +:+ ":" +:+ digits /\ Checkpoint.isdigit digits = true /\
      r = Checkpoint.mkKernelResume run (Some snapshot) (Some (Z.of_N (digits_val 0 digits)))).
Proof.
  intros Hrun Hoff run view.
  assert (Checkpoint.cv_snapshot_id view = Some ("snapshot:" +:+ run +:+ ":" +:+ pretty (rp_projected_offset projection))) as Hv.
  { unfold view, Checkpoint.export_checkpoint, Checkpoint.export_checkpoint_view, Checkpoint.bind_projection.
    by rewrite od_get_set_eq. }
  assert (Checkpoint.parse_snapshot_id ("snapshot:" +:+ run +:+ ":" +:+ pretty (rp_projected_offset projection))
    = Ret (run, rp_projected_offset projection)) as Hp.
  { apply Checkpoint.parse_snapshot_id_Ret. rewrite <-(Z2N.id (rp_projected_offset projection)) by done.
    rewrite Checkpoint.pretty_Z_of_N. eexists. split_and!; [done|done|apply Checkpoint.pretty_N_digits|].
    by rewrite digits_val_pretty. }
  assert (forall text digits, text = "snapshot:" +:+ run +:+ ":" +:+ digits -> Checkpoint.isdigit digits = true ->
    Checkpoint.parse_snapshot_id text = Ret (run, Z.of_N (digits_val 0 digits))) as Hparse.
  { intros text digits -> Hd. apply Checkpoint.parse_snapshot_id_Ret. eauto. }
  clearbody view run. rewrite Hv. unfold Checkpoint.import_resume, Checkpoint.import_resume_request.
  cbn [Checkpoint.ri_snapshot_id Checkpoint.ri_run_id]. rewrite Hp.
  split_and!; [cbn; by rewrite bool_decide_true|intros Hne; cbn; by rewrite bool_decide_false|].
  intros r.
  destruct (Checkpoint.parse_snapshot_id snapshot) as [[run' off]|e] eqn:E; cbn.
  - destruct (proj1 (Checkpoint.parse_snapshot_id_Ret _ _ _) E) as (digits & Ht & Hr' & Hd & ->).
    case_bool_decide as Hrr; cbn; split; [subst run'; intros [= <-]; by exists digits| |done|].
    + intros (digits' & Ht' & Hd' & ->). rewrite (Hparse _ _ Ht' Hd') in E. injection E as _ <-. done.
    + intros (digits' & Ht' & Hd' & ->). rewrite (Hparse _ _ Ht' Hd') in E. by injection E as ? _.
  - split; [done|]. intros (digits' & Ht' & Hd' & ->). by rewrite (Hparse _ _ Ht' Hd') in E.
Qed.

Lemma checkpoint_roundtrip_witness :
  Checkpoint.import_resume (Checkpoint.mkResumeInput "a:b" (Some "snapshot:a:b:12")) =
    Ret (Checkpoint.mkKernelResume "a:b" (Some "snapshot:a:b:12") (Some 12)).
Proof.
  exact (proj1 (checkpoint_roundtrip (mkRunProjection "a:b" ls_ready 12 false true None None None [] None None) []
    "x" "y" ltac:(discriminate) ltac:(done))).
Defined.
