(* ===== verification/Facade.v ===== *)
(** * Kernel facade ([agent_kernel/adapters/facade/kernel_facade.py])

    [KernelFacade], the entry point of the platform into the kernel: it starts, signals and
    cancels runs through the workflow gateway, keeps registries of the branches, stages and
    human gates of a run, records what it does to them as [trace.*] events in the event log,
    and brings the registries up to date from the log when they are queried.  The log is the
    one in memory ([EventLog]); the gateway, the clock and the identifiers are ports.  Between
    awaits a method is atomic.  The adapters are those of [AgentCore]; the drain coordinator
    is drain_coordinator.py, the signal proxy workflow_gateway_adapter.py. *)

From stdpp Require Import base tactics option list gmap strings pretty.
From Stdlib Require Import ZArith.
From S2P Require Import Prelude PyStr PyDict PyVal Contracts EventLog AgentCore.
#[local] Arguments String.append : simpl nomatch.
#[local] Open Scope Z_scope.

(** Views and requests *******************************************************************)

Record TraceBranchView := mkBranchView {
  bv_branch_id : string;
  bv_stage_id : string;
  bv_state : string;
  bv_opened_at : string;
  bv_parent_branch_id : option string;
  bv_proposed_by : option string;
  bv_failure_code : option string
}.

Record TraceStageView := mkStageView {
  sv_stage_id : string;
  sv_state : string;
  sv_entered_at : string;
  sv_exited_at : option string;
  sv_branch_id : option string;
  sv_failure_code : option string
}.

Record OpenBranchRequest := mkOpenBranch {
  ob_run_id : string;
  ob_branch_id : string;
  ob_stage_id : string;
  ob_parent_branch_id : option string;
  ob_proposed_by : option string
}.

(** [failure_code] is a member of [TraceFailureCode], given by its value. *)
Record BranchStateUpdateRequest := mkBranchUpdate {
  bu_run_id : string;
  bu_branch_id : string;
  bu_new_state : string;
  bu_failure_code : option string;
  bu_reason : option string
}.

Record spine := mkSpine { sp_tenant_id : string; sp_user_id : string; sp_session_id : string; sp_project_id : string }.

Record HumanGateRequest := mkGateRequest {
  hg_gate_ref : string;
  hg_gate_type : string;
  hg_run_id : string;
  hg_trigger_reason : string;
  hg_trigger_source : string;
  hg_stage_id : option string;
  hg_branch_id : option string;
  hg_artifact_ref : option string;
  hg_caused_by : option string;
  hg_spine : spine
}.

Record ApprovalRequest := mkApproval {
  aq_run_id : string;
  aq_approval_ref : string;
  aq_approved : bool;
  aq_reviewer_id : string;
  aq_reason : option string;
  aq_caused_by : option string
}.

Record CancelRunRequest := mkCancelRun { cq_run_id : string; cq_reason : string; cq_caused_by : option string }.
Record ResumeRunRequest := mkResumeRun { rq_run_id : string; rq_snapshot_id : option string; rq_caused_by : option string }.

Record StartRunResponse := mkStartResponse { so_run_id : string; so_temporal_workflow_id : string; so_lifecycle_state : string }.
Record SpawnChildRunResponse := mkSpawnResponse { co_child_run_id : string; co_lifecycle_state : RunLifecycleState }.

Record QueryRunResponse := mkQueryResponse {
  qr_run_id : string;
  qr_lifecycle_state : RunLifecycleState;
  qr_projected_offset : Z;
  qr_waiting_external : bool;
  qr_current_action_id : option string;
  qr_recovery_mode : option RecoveryMode;
  qr_recovery_reason : option string;
  qr_active_child_runs : list string;
  qr_policy_versions : option RunPolicyVersions;
  qr_active_stage_id : option string
}.

Record QueryRunDashboardResponse := mkDashboard {
  qd_run_id : string;
  qd_lifecycle_state : RunLifecycleState;
  qd_projected_offset : Z;
  qd_waiting_external : bool;
  qd_recovery_mode : option RecoveryMode;
  qd_recovery_reason : option string;
  qd_active_child_runs_count : nat;
  qd_correlation_hint : string
}.

Record TraceRuntimeView := mkTraceRuntime {
  tr_run_id : string;
  tr_run_state : string;
  tr_wait_state : string;
  tr_review_state : string;
  tr_active_stage_id : option string;
  tr_branches : list TraceBranchView;
  tr_policy_versions : option RunPolicyVersions;
  tr_stages : list TraceStageView
}.

Record HumanGateResolution := mkResolution {
  hr_gate_ref : string;
  hr_gate_type : string;
  hr_resolution : string;
  hr_spine : spine
}.

(** A clock reading: its text and its microseconds ([fromisoformat] undoes [isoformat]). *)
Record stamp := mkStamp { at_text : string; at_us : Z }.

(** The duration in microseconds; the source rounds it to milliseconds.  [task_id] and
    [run_kind] are constants, since the response has no such attribute. *)
Record RunPostmortemView := mkPostmortem {
  pm_run_id : string;
  pm_outcome : string;
  pm_stages : list TraceStageView;
  pm_branches : list TraceBranchView;
  pm_total_action_count : Z;
  pm_failure_codes : list string;
  pm_duration_us : Z;
  pm_human_gate_resolutions : list HumanGateResolution;
  pm_policy_versions : option RunPolicyVersions;
  pm_event_count : Z;
  pm_created_at : option string;
  pm_completed_at : option string
}.

Record ChildRunSummary := mkChildSummary {
  cr_child_run_id : string;
  cr_child_kind : string;
  cr_lifecycle_state : RunLifecycleState;
  cr_outcome : option RunLifecycleState;
  cr_created_at : option string;
  cr_completed_at : option string;
  cr_query_error : option string
}.

(** State ********************************************************************************)

(** The fields of [KernelFacade] that change. *)
Record kernel_facade := mkFacade {
  _draining : bool;
  _branch_registry : gmap string (odict string TraceBranchView);
  _stage_registry : gmap string (odict string TraceStageView);
  _submitted_approvals : gset (string * string);
  _open_human_gates : gmap string (gset string);
  _resolved_human_gates : gmap string (gset string);
  _gate_types : gmap string (gmap string string);
  _gate_resolutions : gmap string (gmap string string);
  _gate_spines : gmap string (gmap string spine);
  _rebuild_offsets : gmap string Z;
  _tracked_run_order : list string;
  _tracked_run_set : gset string;
  _run_created_at : gmap string stamp;
  _run_completed_at : gmap string stamp;
  _child_kind : gmap string string;
  _all_child_runs : gmap string (list string)
}.

Definition new_facade : kernel_facade := mkFacade false ∅ ∅ ∅ ∅ ∅ ∅ ∅ ∅ ∅ [] ∅ ∅ ∅ ∅ ∅.

Definition set_draining (draining : bool) (f : kernel_facade) : kernel_facade :=
  mkFacade draining (_branch_registry f) (_stage_registry f) (_submitted_approvals f) (_open_human_gates f)
    (_resolved_human_gates f) (_gate_types f) (_gate_resolutions f) (_gate_spines f) (_rebuild_offsets f)
    (_tracked_run_order f) (_tracked_run_set f) (_run_created_at f) (_run_completed_at f) (_child_kind f) (_all_child_runs f).
Definition set_branches r (f : kernel_facade) : kernel_facade :=
  mkFacade (_draining f) r (_stage_registry f) (_submitted_approvals f) (_open_human_gates f)
    (_resolved_human_gates f) (_gate_types f) (_gate_resolutions f) (_gate_spines f) (_rebuild_offsets f)
    (_tracked_run_order f) (_tracked_run_set f) (_run_created_at f) (_run_completed_at f) (_child_kind f) (_all_child_runs f).
Definition set_stages r (f : kernel_facade) : kernel_facade :=
  mkFacade (_draining f) (_branch_registry f) r (_submitted_approvals f) (_open_human_gates f)
    (_resolved_human_gates f) (_gate_types f) (_gate_resolutions f) (_gate_spines f) (_rebuild_offsets f)
    (_tracked_run_order f) (_tracked_run_set f) (_run_created_at f) (_run_completed_at f) (_child_kind f) (_all_child_runs f).
Definition set_approvals a (f : kernel_facade) : kernel_facade :=
  mkFacade (_draining f) (_branch_registry f) (_stage_registry f) a (_open_human_gates f)
    (_resolved_human_gates f) (_gate_types f) (_gate_resolutions f) (_gate_spines f) (_rebuild_offsets f)
    (_tracked_run_order f) (_tracked_run_set f) (_run_created_at f) (_run_completed_at f) (_child_kind f) (_all_child_runs f).
Definition set_gates o r t s p (f : kernel_facade) : kernel_facade :=
  mkFacade (_draining f) (_branch_registry f) (_stage_registry f) (_submitted_approvals f) o r t s p (_rebuild_offsets f)
    (_tracked_run_order f) (_tracked_run_set f) (_run_created_at f) (_run_completed_at f) (_child_kind f) (_all_child_runs f).
Definition set_offsets o (f : kernel_facade) : kernel_facade :=
  mkFacade (_draining f) (_branch_registry f) (_stage_registry f) (_submitted_approvals f) (_open_human_gates f)
    (_resolved_human_gates f) (_gate_types f) (_gate_resolutions f) (_gate_spines f) o
    (_tracked_run_order f) (_tracked_run_set f) (_run_created_at f) (_run_completed_at f) (_child_kind f) (_all_child_runs f).
Definition set_tracked o s (f : kernel_facade) : kernel_facade :=
  mkFacade (_draining f) (_branch_registry f) (_stage_registry f) (_submitted_approvals f) (_open_human_gates f)
    (_resolved_human_gates f) (_gate_types f) (_gate_resolutions f) (_gate_spines f) (_rebuild_offsets f) o s
    (_run_created_at f) (_run_completed_at f) (_child_kind f) (_all_child_runs f).
Definition set_lifecycle c d k a (f : kernel_facade) : kernel_facade :=
  mkFacade (_draining f) (_branch_registry f) (_stage_registry f) (_submitted_approvals f) (_open_human_gates f)
    (_resolved_human_gates f) (_gate_types f) (_gate_resolutions f) (_gate_spines f) (_rebuild_offsets f)
    (_tracked_run_order f) (_tracked_run_set f) c d k a.

(** The collaborators.  [A] is what [execute_turn] of the gateway answers. *)
Record facade_ports (T A : Type) := mkPorts {
  fp_signal_workflow : string -> SignalRunRequest -> PyM (option event_log * T) unit;
  fp_start_workflow : StartRunRequest -> PyM (option event_log * T) (odict string string);
  fp_start_child_workflow : string -> SpawnChildRunRequest -> PyM (option event_log * T) (odict string string);
  fp_cancel_workflow : string -> string -> PyM (option event_log * T) unit;
  fp_query_projection : string -> PyM (option event_log * T) RunProjection;
  fp_execute_turn : string -> Action -> string -> PyM (option event_log * T) A;
  fp_count_by_run : option (string -> PyM T Z);
  fp_has_drain_coordinator : bool;
  fp_max_tracked_runs : Z;
  fp_sha256 : string -> string;
  fp_now : T -> stamp * T;
  fp_uuid4 : T -> string * T
}.
Arguments fp_signal_workflow {T A}. Arguments fp_start_workflow {T A}. Arguments fp_start_child_workflow {T A}.
Arguments fp_cancel_workflow {T A}. Arguments fp_query_projection {T A}. Arguments fp_execute_turn {T A}.
Arguments fp_count_by_run {T A}. Arguments fp_has_drain_coordinator {T A}. Arguments fp_max_tracked_runs {T A}.
Arguments fp_sha256 {T A}. Arguments fp_now {T A}. Arguments fp_uuid4 {T A}.

(** A facade beside its collaborators; [fw_signals] records the calls of [signal_workflow]. *)
Record fworld (T : Type) := mkFW {
  fw_facade : kernel_facade;
  fw_context : option Context.adapter;
  fw_checkpoint : option Checkpoint.adapter;
  fw_in_flight : Z;
  fw_log : option event_log;
  fw_signals : list (string * SignalRunRequest);
  fw_rest : T
}.
Arguments mkFW {T}. Arguments fw_facade {T}. Arguments fw_context {T}. Arguments fw_checkpoint {T}. Arguments fw_in_flight {T}.
Arguments fw_log {T}. Arguments fw_signals {T}. Arguments fw_rest {T}.

(** Registries of one run ****************************************************************)

(** [d.get(run_id, {})] of a registry of dictionaries. *)
Definition of_run {V} `{!Empty V} (run_id : string) (r : gmap string V) : V := default ∅ (r !! run_id).
#[export] Instance odict_empty {K V} : Empty (odict K V) := [].

(** [_purge_run_state] *)
Definition _purge_run_state (run_id : string) (f : kernel_facade) : kernel_facade :=
  mkFacade (_draining f) (base.delete run_id (_branch_registry f)) (base.delete run_id (_stage_registry f))
    (filter (fun k => k.1 <> run_id) (_submitted_approvals f))
    (base.delete run_id (_open_human_gates f)) (base.delete run_id (_resolved_human_gates f))
    (base.delete run_id (_gate_types f)) (base.delete run_id (_gate_resolutions f)) (base.delete run_id (_gate_spines f))
    (base.delete run_id (_rebuild_offsets f)) (_tracked_run_order f) (_tracked_run_set f)
    (_run_created_at f) (_run_completed_at f) (_child_kind f) (_all_child_runs f).

Definition _evict_oldest_run (f : kernel_facade) : kernel_facade :=
  match _tracked_run_order f with
  | [] => f
  | oldest :: order => _purge_run_state oldest (set_tracked order (_tracked_run_set f ∖ {[oldest]}) f)
  end.

(** The [while] of [_touch_run]; each round takes a run off the order, so its length bounds the rounds. *)
Fixpoint evict_while (fuel : nat) (max_tracked_runs : Z) (f : kernel_facade) : kernel_facade :=
  match fuel with
  | O => f
  | S fuel' =>
      if bool_decide (max_tracked_runs < Z.of_nat (size (_tracked_run_set f)))
      then evict_while fuel' max_tracked_runs (_evict_oldest_run f) else f
  end.

Definition _touch_run (max_tracked_runs : Z) (run_id : string) (f : kernel_facade) : kernel_facade :=
  if decide (run_id ∈ _tracked_run_set f) then f
  else
    let f := set_tracked (_tracked_run_order f ++ [run_id]) ({[run_id]} ∪ _tracked_run_set f) f in
    evict_while (length (_tracked_run_order f)) max_tracked_runs f.

(** [list.remove] of the first occurrence, nothing when there is none. *)
Fixpoint remove_first (x : string) (l : list string) : list string :=
  match l with
  | [] => []
  | y :: l' => if decide (x = y) then l' else y :: remove_first x l'
  end.

Definition cleanup_completed_run (run_id : string) (f : kernel_facade) : kernel_facade :=
  _purge_run_state run_id (set_tracked (remove_first run_id (_tracked_run_order f)) (_tracked_run_set f ∖ {[run_id]}) f).

(** Rebuilding from events ***************************************************************)

(** [p[name]], a string. *)
Definition p_item (p : odict string pyval) (name : string) : outcome string :=
  match od_get name p with
  | None => Raise (KeyError name)
  | Some (PStr s) => Ret s
  | Some _ => Raise (OutsideModel name)
  end.

(** [p.get(name, dflt)], a string. *)
Definition p_get_default (p : odict string pyval) (name dflt : string) : outcome string :=
  match od_get name p with
  | None => Ret dflt
  | Some (PStr s) => Ret s
  | Some _ => Raise (OutsideModel name)
  end.

(** [p.get(name)], a string or [None]. *)
Definition p_get (p : odict string pyval) (name : string) : outcome (option string) :=
  match od_get name p with
  | None | Some PNone => Ret None
  | Some (PStr s) => Ret (Some s)
  | Some _ => Raise (OutsideModel name)
  end.

Definition branch_of_event (ev : RuntimeEvent) (p : odict string pyval) : outcome TraceBranchView :=
  branch_id ← p_item p "branch_id";
  stage_id ← p_item p "stage_id";
  state ← p_get_default p "state" "active";
  opened_at ← p_get_default p "opened_at" (ev_created_at ev);
  parent_branch_id ← p_get p "parent_branch_id";
  proposed_by ← p_get p "proposed_by";
  mret (mkBranchView branch_id stage_id state opened_at parent_branch_id proposed_by None).

Definition stage_of_event (ev : RuntimeEvent) (p : odict string pyval) : outcome TraceStageView :=
  stage_id ← p_item p "stage_id";
  state ← p_get_default p "state" "active";
  entered_at ← p_get_default p "entered_at" (ev_created_at ev);
  branch_id ← p_get p "branch_id";
  mret (mkStageView stage_id state entered_at None branch_id None).

(** The body of the loop over the trace events. *)
Definition rebuild_event (run_id : string) (ev : RuntimeEvent) (f : kernel_facade) : outcome kernel_facade :=
  let p := or_empty (ev_payload_json ev) in
  let type := ev_event_type ev in
  if decide (type = "trace.branch_opened") then
    view ← branch_of_event ev p;
    let run_branches := of_run run_id (_branch_registry f) in
    mret (set_branches (<[run_id := if od_mem (bv_branch_id view) run_branches then run_branches
                                    else od_set (bv_branch_id view) view run_branches]> (_branch_registry f)) f)
  else if decide (type = "trace.branch_state_changed") then
    branch_id ← p_item p "branch_id";
    let run_branches := of_run run_id (_branch_registry f) in
    match od_get branch_id run_branches with
    | None => mret f
    | Some existing =>
        new_state ← p_item p "new_state";
        failure_code ← p_get p "failure_code";
        let updated := mkBranchView (bv_branch_id existing) (bv_stage_id existing) new_state (bv_opened_at existing)
          (bv_parent_branch_id existing) (bv_proposed_by existing) (py_or failure_code (bv_failure_code existing)) in
        mret (set_branches (<[run_id := od_set branch_id updated run_branches]> (_branch_registry f)) f)
    end
  else if decide (type = "trace.stage_opened") then
    view ← stage_of_event ev p;
    let run_stages := of_run run_id (_stage_registry f) in
    mret (set_stages (<[run_id := if od_mem (sv_stage_id view) run_stages then run_stages
                                  else od_set (sv_stage_id view) view run_stages]> (_stage_registry f)) f)
  else if decide (type = "trace.stage_state_changed") then
    stage_id ← p_item p "stage_id";
    let run_stages := of_run run_id (_stage_registry f) in
    match od_get stage_id run_stages with
    | None => mret f
    | Some existing =>
        new_state ← p_item p "new_state";
        exited_at ← p_get p "exited_at";
        failure_code ← p_get p "failure_code";
        let updated := mkStageView (sv_stage_id existing) new_state (sv_entered_at existing)
          (py_or exited_at (sv_exited_at existing)) (sv_branch_id existing) (py_or failure_code (sv_failure_code existing)) in
        mret (set_stages (<[run_id := od_set stage_id updated run_stages]> (_stage_registry f)) f)
    end
  else if decide (type = "trace.human_gate_opened") then
    gate_ref ← p_item p "gate_ref";
    mret (set_gates (<[run_id := {[gate_ref]} ∪ of_run run_id (_open_human_gates f)]> (_open_human_gates f))
      (_resolved_human_gates f) (_gate_types f) (_gate_resolutions f) (_gate_spines f) f)
  else if decide (type = "trace.human_gate_resolved") then
    gate_ref ← p_item p "gate_ref";
    mret (set_gates (<[run_id := {[gate_ref]} ∪ of_run run_id (_open_human_gates f)]> (_open_human_gates f))
      (<[run_id := {[gate_ref]} ∪ of_run run_id (_resolved_human_gates f)]> (_resolved_human_gates f))
      (_gate_types f) (_gate_resolutions f) (_gate_spines f) f)
  else mret f.

Fixpoint rebuild_events (run_id : string) (evs : list RuntimeEvent) : PyM kernel_facade unit :=
  match evs with
  | [] => mret tt
  | ev :: rest =>
      f ← py_get;
      f' ← py_lift (rebuild_event run_id ev f);
      _ ← py_put f';
      rebuild_events run_id rest
  end.

Definition is_trace (ev : RuntimeEvent) : bool := startswith (ev_event_type ev) "trace.".

(** [_rebuild_trace_state_from_events] on the events [load] answers. *)
Definition rebuild_from (run_id : string) (load : Z -> list RuntimeEvent) : PyM kernel_facade unit :=
  f ← py_get;
  let after := default 0 (_rebuild_offsets f !! run_id) in
  let trace_events := filter is_trace (load after) in
  let max_offset := foldl (fun m ev => if bool_decide (m < ev_commit_offset ev) then ev_commit_offset ev else m) after trace_events in
  _ ← rebuild_events run_id trace_events;
  py_modify (fun f => set_offsets (<[run_id := max_offset]> (_rebuild_offsets f)) f).

(** The draining guard and signals *******************************************************)

Section facade.
Context {T A : Type} (P : facade_ports T A).
Implicit Types w : fworld T.

Definition on_facade {B} (m : PyM kernel_facade B) : PyM (fworld T) B :=
  py_zoom fw_facade (fun f w => mkFW f (fw_context w) (fw_checkpoint w) (fw_in_flight w) (fw_log w) (fw_signals w) (fw_rest w)) m.
Definition on_gateway {B} (m : PyM (option event_log * T) B) : PyM (fworld T) B :=
  py_zoom (fun w => (fw_log w, fw_rest w))
    (fun lt w => mkFW (fw_facade w) (fw_context w) (fw_checkpoint w) (fw_in_flight w) lt.1 (fw_signals w) lt.2) m.
Definition on_rest {B} (m : PyM T B) : PyM (fworld T) B :=
  py_zoom fw_rest (fun t w => mkFW (fw_facade w) (fw_context w) (fw_checkpoint w) (fw_in_flight w) (fw_log w) (fw_signals w) t) m.
Definition set_in_flight (n : Z) w : fworld T :=
  mkFW (fw_facade w) (fw_context w) (fw_checkpoint w) n (fw_log w) (fw_signals w) (fw_rest w).

Definition now : PyM (fworld T) stamp := on_rest (fun t => let '(s, t') := fp_now P t in (Ret s, t')).
Definition uuid4 : PyM (fworld T) string := on_rest (fun t => let '(s, t') := fp_uuid4 P t in (Ret s, t')).

(** [self._workflow_gateway.signal_workflow(run_id, request)] *)
Definition signal_workflow (run_id : string) (request : SignalRunRequest) : PyM (fworld T) unit :=
  _ ← py_modify (fun w => mkFW (fw_facade w) (fw_context w) (fw_checkpoint w) (fw_in_flight w) (fw_log w)
        (fw_signals w ++ [(run_id, request)]) (fw_rest w));
  on_gateway (fp_signal_workflow P run_id request).

(** [DrainCoordinator.enter] and [exit]; [wait] waits for the count to be zero. *)
Definition drain_enter : PyM (fworld T) unit := py_modify (fun w => set_in_flight (fw_in_flight w + 1) w).
Definition drain_exit : PyM (fworld T) unit := py_modify (fun w => set_in_flight (Z.max (fw_in_flight w - 1) 0) w).

(** [try: m finally: h] *)
Definition py_finally {S B} (m : PyM S B) (h : PyM S unit) : PyM S B := fun s =>
  let '(r, s') := m s in
  match h s' with
  | (Ret _, s'') => (r, s'')
  | (Raise e, s'') => (Raise e, s'')
  end.

(** [async with self._guard_write_operation(operation): m] *)
Definition _guard_write_operation {B} (operation : string) (m : PyM (fworld T) B) : PyM (fworld T) B :=
  w ← py_get;
  if _draining (fw_facade w) then
    py_raise (RuntimeError ("Kernel is draining; '" +:+ operation +:+ "' is temporarily unavailable."))
  else
    _ ← (if fp_has_drain_coordinator P then drain_enter else mret tt);
    py_finally m (if fp_has_drain_coordinator P then drain_exit else mret tt).

Definition touch (run_id : string) : PyM (fworld T) unit :=
  on_facade (py_modify (_touch_run (fp_max_tracked_runs P) run_id)).

Definition _build_signal_observability (operation run_id : string) (caused_by : option string) : odict string pyval := [
  ("correlation_id", PStr (default (operation +:+ ":" +:+ run_id) (py_or caused_by None)));
  ("event_ref", PStr ("facade:" +:+ operation +:+ ":" +:+ run_id))].

(** [_append_trace_event] *)
Definition trace_commit (run_id event_type now event_id commit_id : string) (payload : odict string pyval) : ActionCommit :=
  mkActionCommit run_id commit_id
    [mkRuntimeEvent run_id event_id 0 event_type ec_derived derived_replayable now projection_only now None None (Some payload) "1"]
    now None (Some ("kernel_facade." +:+ event_type)).

Definition _append_trace_event (run_id event_type : string) (payload : odict string pyval) : PyM (fworld T) unit :=
  w ← py_get;
  match fw_log w with
  | None => mret tt
  | Some _ =>
      now ← now;
      event_id ← uuid4;
      commit_id ← uuid4;
      on_gateway (fun lt =>
        match lt.1 with
        | Some l =>
            let '(r, l') := append_action_commit (trace_commit run_id event_type (at_text now) event_id commit_id payload) l in
            ((_ ← r; Ret tt), (Some l', lt.2))
        | None => (Ret tt, lt)
        end)
  end.

Definition _rebuild_trace_state_from_events (run_id : string) : PyM (fworld T) unit :=
  w ← py_get;
  match fw_log w with
  | None => mret tt
  | Some l => on_facade (rebuild_from run_id (fun after => load run_id after l))
  end.

(** Stages, branches and gates ***********************************************************)

Definition open_stage (stage_id run_id : string) (branch_id : option string) : PyM (fworld T) unit :=
  _ ← touch run_id;
  entered ← now;
  let view := mkStageView stage_id "active" (at_text entered) None branch_id None in
  _ ← on_facade (py_modify (fun f =>
        set_stages (<[run_id := od_set stage_id view (of_run run_id (_stage_registry f))]> (_stage_registry f)) f));
  _ ← signal_workflow run_id (mkSignalRun run_id "stage_opened"
        (Some [("stage_id", PStr stage_id); ("branch_id", opt_val PStr branch_id)]) (Some "kernel_facade.open_stage"));
  _append_trace_event run_id "trace.stage_opened"
    [("stage_id", PStr stage_id); ("state", PStr "active"); ("entered_at", PStr (sv_entered_at view));
     ("branch_id", opt_val PStr branch_id)].

Definition mark_stage_state (run_id stage_id new_state : string) (failure_code : option string) : PyM (fworld T) unit :=
  _ ← touch run_id;
  w ← py_get;
  match od_get stage_id (of_run run_id (_stage_registry (fw_facade w))) with
  | None => py_raise (KeyError ("Stage " +:+ py_repr_str stage_id +:+ " not found for run " +:+ py_repr_str run_id +:+ "."))
  | Some existing =>
      exited_at ← (if bool_decide (new_state = "completed" \/ new_state = "failed")
                   then t ← now; mret (Some (at_text t)) else mret None);
      let updated := mkStageView (sv_stage_id existing) new_state (sv_entered_at existing)
        (py_or exited_at (sv_exited_at existing)) (sv_branch_id existing)
        (match failure_code with Some c => Some c | None => sv_failure_code existing end) in
      _ ← on_facade (py_modify (fun f =>
            set_stages (<[run_id := od_set stage_id updated (of_run run_id (_stage_registry f))]> (_stage_registry f)) f));
      _ ← signal_workflow run_id (mkSignalRun run_id "stage_state_updated"
            (Some [("stage_id", PStr stage_id); ("new_state", PStr new_state); ("failure_code", opt_val PStr failure_code)])
            (Some "kernel_facade.mark_stage_state"));
      _append_trace_event run_id "trace.stage_state_changed"
        [("stage_id", PStr stage_id); ("new_state", PStr new_state); ("exited_at", opt_val PStr exited_at);
         ("failure_code", opt_val PStr failure_code)]
  end.

Definition open_branch (request : OpenBranchRequest) : PyM (fworld T) unit :=
  let run_id := ob_run_id request in
  _ ← touch run_id;
  opened ← now;
  let view := mkBranchView (ob_branch_id request) (ob_stage_id request) "active" (at_text opened)
    (ob_parent_branch_id request) (ob_proposed_by request) None in
  _ ← on_facade (py_modify (fun f =>
        set_branches (<[run_id := od_set (ob_branch_id request) view (of_run run_id (_branch_registry f))]> (_branch_registry f)) f));
  _ ← signal_workflow run_id (mkSignalRun run_id "branch_opened"
        (Some [("branch_id", PStr (ob_branch_id request)); ("stage_id", PStr (ob_stage_id request));
               ("parent_branch_id", opt_val PStr (ob_parent_branch_id request));
               ("proposed_by", opt_val PStr (ob_proposed_by request))]) (Some "kernel_facade.open_branch"));
  _append_trace_event run_id "trace.branch_opened"
    [("branch_id", PStr (ob_branch_id request)); ("stage_id", PStr (ob_stage_id request)); ("state", PStr "active");
     ("opened_at", PStr (bv_opened_at view)); ("parent_branch_id", opt_val PStr (ob_parent_branch_id request));
     ("proposed_by", opt_val PStr (ob_proposed_by request))].

Definition mark_branch_state (request : BranchStateUpdateRequest) : PyM (fworld T) unit :=
  let run_id := bu_run_id request in
  _ ← touch run_id;
  w ← py_get;
  match od_get (bu_branch_id request) (of_run run_id (_branch_registry (fw_facade w))) with
  | None => py_raise (KeyError ("Branch " +:+ py_repr_str (bu_branch_id request) +:+ " not found for run " +:+ py_repr_str run_id +:+ "."))
  | Some existing =>
      let failure_code := py_or (bu_failure_code request) None in
      let updated := mkBranchView (bv_branch_id existing) (bv_stage_id existing) (bu_new_state request)
        (bv_opened_at existing) (bv_parent_branch_id existing) (bv_proposed_by existing)
        (py_or failure_code (bv_failure_code existing)) in
      _ ← on_facade (py_modify (fun f =>
            set_branches (<[run_id := od_set (bu_branch_id request) updated (of_run run_id (_branch_registry f))]> (_branch_registry f)) f));
      _ ← signal_workflow run_id (mkSignalRun run_id "branch_state_updated"
            (Some [("branch_id", PStr (bu_branch_id request)); ("new_state", PStr (bu_new_state request));
                   ("failure_code", opt_val PStr failure_code); ("reason", opt_val PStr (bu_reason request))])
            (Some "kernel_facade.mark_branch_state"));
      _append_trace_event run_id "trace.branch_state_changed"
        [("branch_id", PStr (bu_branch_id request)); ("new_state", PStr (bu_new_state request));
         ("failure_code", opt_val PStr failure_code)]
  end.

Definition open_human_gate (request : HumanGateRequest) : PyM (fworld T) unit :=
  let run_id := hg_run_id request in
  let gate_ref := hg_gate_ref request in
  _ ← touch run_id;
  _ ← on_facade (py_modify (fun f => set_gates
        (<[run_id := {[gate_ref]} ∪ of_run run_id (_open_human_gates f)]> (_open_human_gates f))
        (_resolved_human_gates f)
        (<[run_id := <[gate_ref := hg_gate_type request]> (of_run run_id (_gate_types f))]> (_gate_types f))
        (_gate_resolutions f)
        (<[run_id := <[gate_ref := hg_spine request]> (of_run run_id (_gate_spines f))]> (_gate_spines f)) f));
  _ ← signal_workflow run_id (mkSignalRun run_id "human_gate_opened"
        (Some [("gate_ref", PStr gate_ref); ("gate_type", PStr (hg_gate_type request));
               ("trigger_reason", PStr (hg_trigger_reason request)); ("trigger_source", PStr (hg_trigger_source request));
               ("stage_id", opt_val PStr (hg_stage_id request)); ("branch_id", opt_val PStr (hg_branch_id request));
               ("artifact_ref", opt_val PStr (hg_artifact_ref request)); ("caused_by", opt_val PStr (hg_caused_by request))])
        (Some "kernel_facade.open_human_gate"));
  _append_trace_event run_id "trace.human_gate_opened" [("gate_ref", PStr gate_ref); ("gate_type", PStr (hg_gate_type request))].

Definition submit_approval (request : ApprovalRequest) : PyM (fworld T) unit :=
  _guard_write_operation "submit_approval" (
    let run_id := aq_run_id request in
    let dedup_key := (run_id, aq_approval_ref request) in
    _ ← touch run_id;
    w ← py_get;
    if decide (dedup_key ∈ _submitted_approvals (fw_facade w)) then mret tt
    else
      _ ← on_facade (py_modify (fun f => set_approvals ({[dedup_key]} ∪ _submitted_approvals f) f));
      _ ← on_facade (py_modify (fun f => set_gates (_open_human_gates f)
            (<[run_id := {[aq_approval_ref request]} ∪ of_run run_id (_resolved_human_gates f)]> (_resolved_human_gates f))
            (_gate_types f)
            (<[run_id := <[aq_approval_ref request := (if aq_approved request then "approved" else "rejected")]>
                           (of_run run_id (_gate_resolutions f))]> (_gate_resolutions f))
            (_gate_spines f) f));
      _ ← signal_workflow run_id (mkSignalRun run_id "approval_submitted"
            (Some ([("approval_ref", PStr (aq_approval_ref request)); ("approved", PBool (aq_approved request));
                    ("reviewer_id", PStr (aq_reviewer_id request)); ("reason", opt_val PStr (aq_reason request))] ++
                   _build_signal_observability "submit_approval" run_id (aq_caused_by request)))
            (Some (default ("approval:" +:+ aq_approval_ref request) (py_or (aq_caused_by request) None))));
      _append_trace_event run_id "trace.human_gate_resolved"
        [("gate_ref", PStr (aq_approval_ref request)); ("approved", PBool (aq_approved request))]).

Definition resolve_escalation (run_id : string) (resolution_notes caused_by : option string) : PyM (fworld T) unit :=
  _ ← touch run_id;
  let payload := if truthy resolution_notes then [("resolution_notes", opt_val PStr resolution_notes)] else [] in
  _ ← signal_workflow run_id (mkSignalRun run_id "recovery_succeeded"
        (match payload with [] => None | _ => Some payload end)
        (Some (default ("resolve_escalation:" +:+ run_id) (py_or caused_by None))));
  _append_trace_event run_id "trace.escalation_resolved" [("resolution_notes", opt_val PStr resolution_notes)].

(** Runs *********************************************************************************)

Definition start_run (request : StartRunRequest) : PyM (fworld T) StartRunResponse :=
  w ← py_get;
  '(request_for_gateway, binding_ref) ←
    match fw_context w with
    | None => mret (request, None)
    | Some a =>
        let '(r, a') := Context.bind_context (fp_sha256 P)
          (Context.mkContextInput (st_session_id request) (st_context_ref request) None) a in
        _ ← py_put (mkFW (fw_facade w) (Some a') (fw_checkpoint w) (fw_in_flight w) (fw_log w) (fw_signals w) (fw_rest w));
        context_binding ← py_lift r;
        let binding_ref := Context.rb_binding_ref context_binding in
        mret (mkStartRun (st_initiator request) (st_run_kind request) (st_session_id request) (st_input_ref request)
                (st_input_json request) (Some binding_ref), Some binding_ref)
    end;
  workflow ← on_gateway (fp_start_workflow P request_for_gateway);
  let workflow_id := default "" (od_get "workflow_id" workflow) in
  let run_id := default workflow_id (py_or (od_get "run_id" workflow) None) in
  created ← now;
  _ ← on_facade (py_modify (fun f => set_lifecycle (<[run_id := created]> (_run_created_at f)) (_run_completed_at f)
        (_child_kind f) (_all_child_runs f) f));
  _ ← match binding_ref with
      | Some binding_ref => py_modify (fun w => mkFW (fw_facade w) (Context.bind_run_context run_id binding_ref <$> fw_context w)
          (fw_checkpoint w) (fw_in_flight w) (fw_log w) (fw_signals w) (fw_rest w))
      | None => mret tt
      end;
  mret (mkStartResponse run_id workflow_id "created").

Definition signal_run (request : SignalRunRequest) : PyM (fworld T) unit := signal_workflow (sr_run_id request) request.

Definition _is_stream_event_exposed (event : RuntimeEvent) (include_derived_diagnostic : bool) : bool :=
  bool_decide (ev_event_authority event = authoritative_fact) ||
  (include_derived_diagnostic && bool_decide (ev_event_authority event = derived_diagnostic)).

(** The events yielded, in the order the substrate gives them. *)
Definition stream_run_events (events : list RuntimeEvent) (include_derived_diagnostic : bool) : list RuntimeEvent :=
  filter (fun e => _is_stream_event_exposed e include_derived_diagnostic) events.

Definition _is_expected_cancel_race_error (error : exn) : bool :=
  let message := lower (exn_text error) in
  existsb (contains message) ["not found"; "already completed"; "not running"; "closed"].

Definition cancel_run (request : CancelRunRequest) : PyM (fworld T) unit :=
  let run_id := cq_run_id request in
  _ ← signal_workflow run_id (mkSignalRun run_id "cancel_requested"
        (Some (("reason", PStr (cq_reason request)) :: _build_signal_observability "cancel" run_id (cq_caused_by request)))
        (cq_caused_by request));
  py_except is_exception (on_gateway (fp_cancel_workflow P run_id (cq_reason request)))
    (fun error => if negb (_is_expected_cancel_race_error error) then py_raise error else mret tt).

Definition resume_run (request : ResumeRunRequest) : PyM (fworld T) unit :=
  w ← py_get;
  match fw_checkpoint w with
  | None => py_raise (RuntimeError "checkpoint_adapter is required for resume_run.")
  | Some _ =>
      kernel_resume_request ← py_lift (Checkpoint.import_resume_request
        (Checkpoint.mkResumeInput (rq_run_id request) (rq_snapshot_id request)));
      let run_id := Checkpoint.kr_run_id kernel_resume_request in
      let signal_payload := ("snapshot_id", opt_val PStr (Checkpoint.kr_snapshot_id kernel_resume_request)) ::
        _build_signal_observability "resume" run_id (rq_caused_by request) ++
        match Checkpoint.kr_snapshot_offset kernel_resume_request with
        | Some snapshot_offset => [("snapshot_offset", PInt snapshot_offset)]
        | None => []
        end in
      signal_workflow run_id (mkSignalRun run_id "resume_from_snapshot" (Some signal_payload) (rq_caused_by request))
  end.

Definition escalate_recovery (run_id reason : string) (caused_by : option string) : PyM (fworld T) unit :=
  signal_workflow run_id (mkSignalRun run_id "recovery_escalation"
    (Some (("reason", PStr reason) :: _build_signal_observability "recovery_escalation" run_id caused_by)) caused_by).

Definition query_run (run_id : string) : PyM (fworld T) QueryRunResponse :=
  projection ← on_gateway (fp_query_projection P run_id);
  _ ← py_modify (fun w => mkFW (fw_facade w) (fw_context w) (Checkpoint.bind_projection projection <$> fw_checkpoint w)
        (fw_in_flight w) (fw_log w) (fw_signals w) (fw_rest w));
  mret (mkQueryResponse (rp_run_id projection) (rp_lifecycle_state projection) (rp_projected_offset projection)
    (rp_waiting_external projection) (rp_current_action_id projection) (rp_recovery_mode projection)
    (rp_recovery_reason projection) (rp_active_child_runs projection) (rp_policy_versions projection) None).

Definition lifecycle_str (s : RunLifecycleState) : string :=
  match s with
  | ls_created => "created" | ls_ready => "ready" | ls_dispatching => "dispatching" | ls_waiting_result => "waiting_result"
  | ls_waiting_external => "waiting_external" | ls_recovering => "recovering" | ls_completed => "completed"
  | ls_failed => "failed" | ls_aborted => "aborted"
  end.

Definition _build_dashboard_correlation_hint (response : QueryRunResponse) : string :=
  match py_or (qr_current_action_id response) None with
  | Some action => "action:" +:+ action
  | None =>
      match py_or (qr_recovery_reason response) None with
      | Some reason => "recovery:" +:+ reason
      | None =>
          if qr_waiting_external response
          then "external_wait:" +:+ qr_run_id response +:+ ":" +:+ pretty (qr_projected_offset response)
          else "state:" +:+ lifecycle_str (qr_lifecycle_state response) +:+ ":" +:+ qr_run_id response
      end
  end.

Definition query_run_dashboard (run_id : string) : PyM (fworld T) QueryRunDashboardResponse :=
  r ← query_run run_id;
  mret (mkDashboard (qr_run_id r) (qr_lifecycle_state r) (qr_projected_offset r) (qr_waiting_external r) (qr_recovery_mode r)
    (qr_recovery_reason r) (length (qr_active_child_runs r)) (_build_dashboard_correlation_hint r)).

(** The versions of a run as the dictionary put into the child's input. *)
Definition versions_dict (p : RunPolicyVersions) : odict string (option string) := [
  ("route_policy_version", pv_route_policy_version p);
  ("acceptance_policy_version", pv_acceptance_policy_version p);
  ("memory_policy_version", pv_memory_policy_version p);
  ("skill_policy_version", pv_skill_policy_version p);
  ("evaluation_policy_version", pv_evaluation_policy_version p);
  ("task_view_policy_version", pv_task_view_policy_version p)].

Definition VERSION_FIELDS : list string :=
  ["route_policy_version"; "acceptance_policy_version"; "memory_policy_version"; "skill_policy_version";
   "evaluation_policy_version"; "task_view_policy_version"; "pinned_at"].

(** [RunPolicyVersions( **inherited )] *)
Definition versions_of (d : odict string string) : outcome RunPolicyVersions :=
  if forallb (fun k => bool_decide (k ∈ VERSION_FIELDS)) (od_keys d) then
    Ret (mkRunPolicyVersions (od_get "route_policy_version" d) (od_get "acceptance_policy_version" d)
      (od_get "memory_policy_version" d) (od_get "skill_policy_version" d) (od_get "evaluation_policy_version" d)
      (od_get "task_view_policy_version" d) (default "" (od_get "pinned_at" d)))
  else Raise (TypeError "RunPolicyVersions.__init__() got an unexpected keyword argument").

(** [d.update(other)] *)
Definition od_update (d other : odict string string) : odict string string := foldl (fun d kv => od_set kv.1 kv.2 d) d other.

(** The versions of the child: the parent's, with the overrides over them. *)
Definition child_versions (parent_pvs : RunPolicyVersions) (overrides : option (odict string string)) : outcome RunPolicyVersions :=
  match overrides with
  | Some (_ :: _ as o) =>
      versions_of (od_update (omap (fun kv => match kv.2 with Some v => Some (kv.1, v) | None => None end) (versions_dict parent_pvs)) o)
  | _ => Ret parent_pvs
  end.

Definition with_context_ref (request : SpawnChildRunRequest) (context_ref : option string) : SpawnChildRunRequest :=
  mkSpawnChild (sc_parent_run_id request) (sc_child_kind request) (sc_input_ref request) (sc_input_json request) context_ref
    (sc_inherit_policy_versions request) (sc_policy_version_overrides request).
Definition with_input (request : SpawnChildRunRequest) (input_json : odict string pyval) : SpawnChildRunRequest :=
  mkSpawnChild (sc_parent_run_id request) (sc_child_kind request) (sc_input_ref request) (Some input_json) (sc_context_ref request)
    (sc_inherit_policy_versions request) (sc_policy_version_overrides request).

(** The body of the [try] in [spawn_child_run]. *)
Definition inherit_versions (request request_for_gateway : SpawnChildRunRequest) : PyM (fworld T) SpawnChildRunRequest :=
  parent_resp ← query_run (sc_parent_run_id request);
  match qr_policy_versions parent_resp with
  | None => mret request_for_gateway
  | Some parent_pvs =>
      child_pvs ← py_lift (child_versions parent_pvs (sc_policy_version_overrides request));
      mret (with_input request_for_gateway
        (od_set "_inherited_policy_versions"
          (PDict (map (fun kv => (kv.1, opt_val PStr kv.2)) (versions_dict child_pvs)))
          (or_empty (sc_input_json request_for_gateway))))
  end.

Definition _resolve_child_lifecycle_state (child_run_id : string) : PyM (fworld T) RunLifecycleState :=
  py_except is_exception
    (projection ← on_gateway (fp_query_projection P child_run_id); mret (rp_lifecycle_state projection))
    (fun _ => mret ls_created).

Definition spawn_child_run (request : SpawnChildRunRequest) : PyM (fworld T) SpawnChildRunResponse :=
  w ← py_get;
  let parent := sc_parent_run_id request in
  let request_for_gateway :=
    match fw_context w, sc_context_ref request with
    | Some a, None =>
        match Context.resolve_run_context parent a with
        | Some parent_binding => with_context_ref request (Some parent_binding)
        | None => request
        end
    | _, _ => request
    end in
  request_for_gateway ←
    (if sc_inherit_policy_versions request
     then py_except is_exception (inherit_versions request request_for_gateway) (fun _ => mret request_for_gateway)
     else mret request_for_gateway);
  workflow ← on_gateway (fp_start_child_workflow P parent request_for_gateway);
  let child_run_id := default (default "" (od_get "workflow_id" workflow)) (py_or (od_get "run_id" workflow) None) in
  created ← now;
  _ ← on_facade (py_modify (fun f =>
        let registry := default [] (_all_child_runs f !! parent) in
        set_lifecycle (<[child_run_id := created]> (_run_created_at f)) (_run_completed_at f)
          (<[child_run_id := sc_child_kind request]> (_child_kind f))
          (<[parent := if decide (child_run_id ∈ registry) then registry else registry ++ [child_run_id]]> (_all_child_runs f)) f));
  _ ← signal_workflow parent (mkSignalRun parent "child_spawned"
        (Some (("child_run_id", PStr child_run_id) :: _build_signal_observability "spawn_child" parent None))
        (Some "kernel_facade.spawn_child_run"));
  lifecycle_state ← _resolve_child_lifecycle_state child_run_id;
  mret (mkSpawnResponse child_run_id lifecycle_state).

Definition execute_turn (run_id : string) (action : Action) (idempotency_key : string) : PyM (fworld T) A :=
  _guard_write_operation "execute_turn" (on_gateway (fp_execute_turn P run_id action idempotency_key)).

(** Queries ******************************************************************************)

Definition _lifecycle_to_trace (s : RunLifecycleState) : string :=
  match s with
  | ls_created => "created"
  | ls_ready | ls_dispatching | ls_waiting_result | ls_recovering => "active"
  | ls_waiting_external => "waiting"
  | ls_completed => "completed"
  | ls_failed => "failed"
  | ls_aborted => "aborted"
  end.

Definition review_state (run_id : string) (f : kernel_facade) : string :=
  let open_gates := of_run run_id (_open_human_gates f) in
  let resolved_gates := of_run run_id (_resolved_human_gates f) in
  let run_gate_resolutions := of_run run_id (_gate_resolutions f) in
  if decide (open_gates = ∅) then "not_required"
  else if decide (open_gates ∖ resolved_gates = ∅) then
    if existsb (fun g => bool_decide (run_gate_resolutions !! g = Some "rejected")) (elements resolved_gates)
    then "rejected" else "approved"
  else "requested".

Definition query_trace_runtime (run_id : string) : PyM (fworld T) TraceRuntimeView :=
  _ ← _rebuild_trace_state_from_events run_id;
  response ← query_run run_id;
  w ← py_get;
  let f := fw_facade w in
  mret (mkTraceRuntime run_id (_lifecycle_to_trace (qr_lifecycle_state response))
    (if qr_waiting_external response then "external_callback" else "none")
    (review_state run_id f) (qr_active_stage_id response)
    (of_run run_id (_branch_registry f)).*2 (qr_policy_versions response) (of_run run_id (_stage_registry f)).*2).

(** The entry of [_run_completed_at], written on the first call. *)
Definition completed_at_of (run_id : string) : PyM (fworld T) stamp :=
  w ← py_get;
  match _run_completed_at (fw_facade w) !! run_id with
  | Some t => mret t
  | None =>
      t ← now;
      _ ← on_facade (py_modify (fun f => set_lifecycle (_run_created_at f) (<[run_id := t]> (_run_completed_at f))
            (_child_kind f) (_all_child_runs f) f));
      mret t
  end.

(** [if view.failure_code: failure_codes.append(view.failure_code)] *)
Definition failure_codes_of (codes : list (option string)) : list string := omap (fun c => py_or c None) codes.

Definition gate_resolutions_of (run_id : string) (f : kernel_facade) : list HumanGateResolution :=
  map (fun gate_ref =>
    mkResolution gate_ref (default "final_approval" (of_run run_id (_gate_types f) !! gate_ref))
      (default "approved" (of_run run_id (_gate_resolutions f) !! gate_ref))
      (default (mkSpine "" "" "" "") (of_run run_id (_gate_spines f) !! gate_ref)))
    (elements (of_run run_id (_resolved_human_gates f))).

Definition query_run_postmortem (run_id : string) : PyM (fworld T) RunPostmortemView :=
  response ← query_run run_id;
  trace ← query_trace_runtime run_id;
  let failure_codes := failure_codes_of (map sv_failure_code (tr_stages trace)) ++
                       failure_codes_of (map bv_failure_code (tr_branches trace)) in
  w ← py_get;
  let gate_resolutions := gate_resolutions_of run_id (fw_facade w) in
  total_action_count ←
    match fp_count_by_run P with
    | None => mret 0
    | Some count_by_run =>
        py_except (fun e => bool_decide (exn_type_name e = "NotImplementedError")) (on_rest (count_by_run run_id)) (fun _ => mret 0)
    end;
  w ← py_get;
  let created_at := _run_created_at (fw_facade w) !! run_id in
  completed_at ←
    (if bool_decide (tr_run_state trace ∈ ["completed"; "failed"; "aborted"])
     then t ← completed_at_of run_id; mret (Some t) else mret None);
  let duration_us :=
    match created_at, completed_at with Some c, Some d => Z.max 0 (at_us d - at_us c) | _, _ => 0 end in
  mret (mkPostmortem run_id (tr_run_state trace) (tr_stages trace) (tr_branches trace) total_action_count failure_codes
    duration_us gate_resolutions (tr_policy_versions trace) (qr_projected_offset response)
    (at_text <$> created_at) (at_text <$> completed_at)).

(** The active children, then the other ones ever spawned. *)
Definition merge_children (active all_spawned : list string) : list string :=
  foldl (fun acc cid => if decide (cid ∈ acc) then acc else acc ++ [cid]) active all_spawned.

Definition is_terminal (s : RunLifecycleState) : bool :=
  match s with ls_completed | ls_failed | ls_aborted => true | _ => false end.

Definition child_summary (child_id : string) : PyM (fworld T) ChildRunSummary :=
  py_except is_exception
    (child_resp ← query_run child_id;
     let outcome := if is_terminal (qr_lifecycle_state child_resp) then Some (qr_lifecycle_state child_resp) else None in
     child_completed ← match outcome with Some _ => t ← completed_at_of child_id; mret (Some t) | None => mret None end;
     w ← py_get;
     mret (mkChildSummary child_id (default "child" (_child_kind (fw_facade w) !! child_id)) (qr_lifecycle_state child_resp)
       outcome (at_text <$> _run_created_at (fw_facade w) !! child_id) (at_text <$> child_completed) None))
    (fun exc =>
     w ← py_get;
     mret (mkChildSummary child_id (default "child" (_child_kind (fw_facade w) !! child_id)) ls_created None
       (at_text <$> _run_created_at (fw_facade w) !! child_id) None (Some (exn_text exc)))).

Fixpoint child_summaries (ids : list string) : PyM (fworld T) (list ChildRunSummary) :=
  match ids with
  | [] => mret []
  | child_id :: rest => s ← child_summary child_id; more ← child_summaries rest; mret (s :: more)
  end.

Definition query_child_runs (parent_run_id : string) : PyM (fworld T) (list ChildRunSummary) :=
  response ← query_run parent_run_id;
  w ← py_get;
  child_summaries (merge_children (qr_active_child_runs response)
    (default [] (_all_child_runs (fw_facade w) !! parent_run_id))).

End facade.

(** [WorkflowGatewaySignalAdapter] *******************************************************)

(** What the wrapped gateway has: each method, if callable, with whether its result is awaitable.
    A method that is no coroutine has done its work when it returns. *)
Definition adapter_signal_workflow {S} (signal_workflow : option (bool * (string -> SignalRunRequest -> PyM S unit)))
    (signal_run : option (SignalRunRequest -> PyM S unit)) (run_id : string) (request : SignalRunRequest) : PyM S unit :=
  sent ← (match signal_workflow with
          | Some (awaitable, m) => _ ← m run_id request; mret awaitable
          | None => mret false
          end : PyM S bool);
  if (sent : bool) then mret tt
  else
    match signal_run with
    | Some m => m request
    | None => py_raise (RuntimeError "workflow_gateway must provide signal_workflow(run_id, request) or signal_run(request).")
    end.
