(* ===== verification/FacadeRebuild.v ===== *)
(** * What the kernel facade rebuilds from the event log

    The registries of branches and stages as replays of opening and changing events over
    any kind of view ([Module Cells]), the trace events as actions on the facade, and what
    replaying a log twice, in parts, or over the state that wrote it amounts to. *)

From stdpp Require Import base tactics option list gmap strings.
From Stdlib Require Import ZArith.
From S2P Require Import Prelude PyStr PyDict PyVal Contracts EventLog AgentCore Facade.
#[local] Arguments String.append : simpl nomatch.
#[local] Open Scope Z_scope.

(** Registries of views that are opened and changed ****************************************)

Module Cells.
Section cells.
Context {V C : Type} (upd : V -> C -> V).

Inductive event := Opened (k : string) (v : V) | Changed (k : string) (c : C).
Implicit Types (d : odict string V) (evs : list event).

(** Opening is for new keys, changing for present ones. *)
Definition act d (e : event) : odict string V :=
  match e with
  | Opened k v => if od_mem k d then d else od_set k v d
  | Changed k c => match od_get k d with Some x => od_set k (upd x c) d | None => d end
  end.

Definition acts d evs : odict string V := foldl act d evs.

(** The changes of one key. *)
Definition changes (k : string) evs : list C :=
  omap (fun e => match e with Changed k' c => if decide (k = k') then Some c else None | Opened _ _ => None end) evs.

(** Histories in which every key is opened once and only then changed. *)
Inductive history : list event -> Prop :=
  | h_nil : history []
  | h_open evs k v : history evs -> od_get k (acts [] evs) = None -> history (evs ++ [Opened k v])
  | h_change evs k c : history evs -> od_get k (acts [] evs) <> None -> history (evs ++ [Changed k c]).

Lemma acts_app d evs evs' : acts d (evs ++ evs') = acts (acts d evs) evs'.
Proof. apply foldl_app. Qed.

Lemma changes_app k evs evs' : changes k (evs ++ evs') = changes k evs ++ changes k evs'.
Proof. apply omap_app. Qed.

Lemma act_wf d e : od_wf d -> od_wf (act d e).
Proof. intros Hd. destruct e as [k v|k c]; simpl; [destruct (od_mem k d)|destruct (od_get k d)]; eauto with kernel. Qed.

Lemma acts_wf d evs : od_wf d -> od_wf (acts d evs).
Proof. revert d. induction evs as [|e evs IH]; intros d Hd; [done|]. apply IH, act_wf, Hd. Qed.

Lemma act_present k x d e : od_get k d = Some x ->
  od_get k (act d e) = Some (foldl upd x (changes k [e])).
Proof.
  intros Hk. destruct e as [k' v|k' c]; simpl.
  - destruct (od_mem k' d) eqn:Hm; [done|]. rewrite od_get_set_ne; [done|]. intros ->. unfold od_mem in Hm. by rewrite Hk in Hm.
  - case_decide as Hkk; simpl; [subst k'; rewrite Hk; by rewrite od_get_set_eq|].
    destruct (od_get k' d); [|done]. by rewrite od_get_set_ne.
Qed.

(** A present key follows its changes. *)
Lemma acts_present k x d evs : od_get k d = Some x -> od_get k (acts d evs) = Some (foldl upd x (changes k evs)).
Proof.
  revert d x. induction evs as [|e evs IH]; intros d x Hk; [done|].
  change (e :: evs) with ([e] ++ evs). rewrite changes_app, foldl_app.
  apply (IH (act d e)). by apply act_present.
Qed.

Lemma acts_keys_sub k d evs : k ∈ od_keys d -> k ∈ od_keys (acts d evs).
Proof. rewrite <-!od_get_is_Some. intros [x Hx]. rewrite (acts_present k x) by done. by eexists. Qed.

(** Replaying events of present keys adds none. *)
Lemma acts_keys d evs : (forall k v, Opened k v ∈ evs -> k ∈ od_keys d) -> od_keys (acts d evs) = od_keys d.
Proof.
  revert d. induction evs as [|e evs IH]; intros d Hop; [done|]. simpl.
  assert (od_keys (act d e) = od_keys d) as He.
  { destruct e as [k v|k c]; simpl.
    - rewrite (proj2 (od_mem_true k d)); [done|]. apply (Hop k v). by left.
    - destruct (od_get k d) eqn:E; [|done]. rewrite od_keys_set, decide_True; [done|]. apply od_get_is_Some. by eexists. }
  rewrite IH; [done|]. intros k v Hin. rewrite He. apply (Hop k v). by right.
Qed.

Lemma opened_present k v evs d : Opened k v ∈ evs -> k ∈ od_keys (acts d evs).
Proof.
  intros (pre & suf & ->)%list_elem_of_split. rewrite acts_app.
  change (k ∈ od_keys (acts (act (acts d pre) (Opened k v)) suf)). apply acts_keys_sub. simpl.
  destruct (od_mem k (acts d pre)) eqn:Hm; [by apply od_mem_true|]. apply elem_of_keys_set. by left.
Qed.

Lemma history_absent k evs : history evs -> od_get k (acts [] evs) = None -> changes k evs = [].
Proof.
  induction 1 as [|evs k' v Hh IH Hn|evs k' c Hh IH Hn]; [done|..]; rewrite acts_app, changes_app; simpl.
  - rewrite app_nil_r. intros Hk. apply IH. destruct (od_mem k' (acts [] evs)); [done|].
    destruct (decide (k' = k)) as [->|]; [by rewrite od_get_set_eq in Hk|by rewrite od_get_set_ne in Hk].
  - destruct (od_get k' (acts [] evs)) as [x|] eqn:Hk'; [|done]. intros Hk.
    case_decide as Hkk; [subst k'; by rewrite od_get_set_eq in Hk|].
    rewrite od_get_set_ne in Hk by done. rewrite app_nil_r. by apply IH.
Qed.

(** A key's value is what it was opened with, changed by all changes of the key. *)
Lemma history_value k x evs : history evs -> od_get k (acts [] evs) = Some x -> exists v, x = foldl upd v (changes k evs).
Proof.
  intros Hh. revert x. induction Hh as [|evs k' v Hh IH Hn|evs k' c Hh IH Hn]; intros x; [done|..];
    rewrite acts_app, changes_app; simpl.
  - rewrite app_nil_r. unfold od_mem. rewrite Hn. destruct (decide (k' = k)) as [->|].
    + rewrite od_get_set_eq. intros [= <-]. exists v. by rewrite history_absent.
    + rewrite od_get_set_ne by done. apply IH.
  - destruct (od_get k' (acts [] evs)) as [y|] eqn:Hk'; [|done]. case_decide as Hkk.
    + subst k'. rewrite od_get_set_eq. intros [= <-]. destruct (IH y Hk') as [v ->]. exists v. by rewrite foldl_app.
    + rewrite od_get_set_ne, app_nil_r by done. apply IH.
Qed.

Context (upd_idem : forall x cs, foldl upd (foldl upd x cs) cs = foldl upd x cs).

(** Replaying the end of a history over its outcome changes nothing. *)
Lemma replay_noop pre suf : history (pre ++ suf) -> acts (acts [] (pre ++ suf)) suf = acts [] (pre ++ suf).
Proof.
  intros Hh. assert (od_keys (acts (acts [] (pre ++ suf)) suf) = od_keys (acts [] (pre ++ suf))) as Hk.
  { apply acts_keys. intros k v Hin. apply (opened_present k v). apply elem_of_app. by right. }
  apply od_ext; [apply acts_wf, acts_wf, od_wf_nil|done|]. intros k.
  destruct (od_get k (acts [] (pre ++ suf))) as [x|] eqn:Hx.
  - rewrite (acts_present k x) by done. f_equal. destruct (history_value k x _ Hh Hx) as [v ->].
    rewrite changes_app, foldl_app. apply upd_idem.
  - apply od_get_None. rewrite Hk. by apply od_get_None.
Qed.
End cells.
Arguments event : clear implicits.
End Cells.

(** Branches and stages as cells *********************************************************)

Definition branch_change : Type := string * option string.
Definition stage_change : Type := string * option string * option string.

Definition upd_branch (v : TraceBranchView) (c : branch_change) : TraceBranchView :=
  mkBranchView (bv_branch_id v) (bv_stage_id v) c.1 (bv_opened_at v) (bv_parent_branch_id v) (bv_proposed_by v)
    (py_or c.2 (bv_failure_code v)).

Definition upd_stage (v : TraceStageView) (c : stage_change) : TraceStageView :=
  mkStageView (sv_stage_id v) c.1.1 (sv_entered_at v) (py_or c.1.2 (sv_exited_at v)) (sv_branch_id v)
    (py_or c.2 (sv_failure_code v)).

(** The last text that is not empty. *)
Definition last_text (a : option string) (cs : list (option string)) : option string := foldl (fun a c => py_or c a) a cs.

Lemma last_text_None a cs : last_text a cs = match last_text None cs with Some s => Some s | None => a end.
Proof.
  unfold last_text. revert a. induction cs as [|c cs IH]; intros a; [done|]. simpl.
  rewrite (IH (py_or c a)), (IH (py_or c None)). destruct (foldl _ None cs); [done|].
  destruct c as [s|]; simpl; [|done]. by case_decide.
Qed.

Lemma last_text_idem a cs : last_text (last_text a cs) cs = last_text a cs.
Proof. rewrite (last_text_None (last_text a cs)), (last_text_None a cs). by destruct (last_text None cs). Qed.

Lemma last_state_idem {B} (a : B) (cs : list B) : foldl (fun _ c => c) (foldl (fun _ c => c) a cs) cs = foldl (fun _ c => c) a cs.
Proof. destruct cs as [|c cs] using rev_ind; [done|]. by rewrite !foldl_app. Qed.

Lemma foldl_upd_branch v cs : foldl upd_branch v cs =
  mkBranchView (bv_branch_id v) (bv_stage_id v) (foldl (fun _ c => c) (bv_state v) cs.*1) (bv_opened_at v)
    (bv_parent_branch_id v) (bv_proposed_by v) (last_text (bv_failure_code v) cs.*2).
Proof. revert v. induction cs as [|c cs IH]; intros v; [by destruct v|]. simpl. by rewrite IH. Qed.

Lemma foldl_upd_stage v cs : foldl upd_stage v cs =
  mkStageView (sv_stage_id v) (foldl (fun _ c => c) (sv_state v) cs.*1.*1) (sv_entered_at v)
    (last_text (sv_exited_at v) cs.*1.*2) (sv_branch_id v) (last_text (sv_failure_code v) cs.*2).
Proof. revert v. induction cs as [|c cs IH]; intros v; [by destruct v|]. simpl. by rewrite IH. Qed.

Lemma upd_branch_idem v cs : foldl upd_branch (foldl upd_branch v cs) cs = foldl upd_branch v cs.
Proof. rewrite (foldl_upd_branch v), foldl_upd_branch. simpl. by rewrite last_state_idem, last_text_idem. Qed.

Lemma upd_stage_idem v cs : foldl upd_stage (foldl upd_stage v cs) cs = foldl upd_stage v cs.
Proof. rewrite (foldl_upd_stage v), foldl_upd_stage. simpl. by rewrite last_state_idem, !last_text_idem. Qed.

(** Trace events as actions ***************************************************************)

Inductive trace_action :=
  | on_branch (e : Cells.event TraceBranchView branch_change)
  | on_stage (e : Cells.event TraceStageView stage_change)
  | gate_opened (gate_ref : string)
  | gate_resolved (gate_ref : string)
  | no_action.

(** The action of an event whose payload has all it needs. *)
Definition parse_event (ev : RuntimeEvent) : outcome trace_action :=
  let p := or_empty (ev_payload_json ev) in
  let type := ev_event_type ev in
  if decide (type = "trace.branch_opened") then
    view ← branch_of_event ev p; mret (on_branch (Cells.Opened (bv_branch_id view) view))
  else if decide (type = "trace.branch_state_changed") then
    branch_id ← p_item p "branch_id"; new_state ← p_item p "new_state"; failure_code ← p_get p "failure_code";
    mret (on_branch (Cells.Changed branch_id (new_state, failure_code)))
  else if decide (type = "trace.stage_opened") then
    view ← stage_of_event ev p; mret (on_stage (Cells.Opened (sv_stage_id view) view))
  else if decide (type = "trace.stage_state_changed") then
    stage_id ← p_item p "stage_id"; new_state ← p_item p "new_state"; exited_at ← p_get p "exited_at";
    failure_code ← p_get p "failure_code";
    mret (on_stage (Cells.Changed stage_id (new_state, exited_at, failure_code)))
  else if decide (type = "trace.human_gate_opened") then
    gate_ref ← p_item p "gate_ref"; mret (gate_opened gate_ref)
  else if decide (type = "trace.human_gate_resolved") then
    gate_ref ← p_item p "gate_ref"; mret (gate_resolved gate_ref)
  else mret no_action.

(** What an action does to the registries of its run. *)
Record run_view := mkRunView {
  rv_branches : odict string TraceBranchView;
  rv_stages : odict string TraceStageView;
  rv_open : gset string;
  rv_resolved : gset string
}.

Definition empty_view : run_view := mkRunView [] [] ∅ ∅.

Definition view_of (run_id : string) (f : kernel_facade) : run_view :=
  mkRunView (of_run run_id (_branch_registry f)) (of_run run_id (_stage_registry f))
    (of_run run_id (_open_human_gates f)) (of_run run_id (_resolved_human_gates f)).

Definition act_view (v : run_view) (a : trace_action) : run_view :=
  match a with
  | on_branch e => mkRunView (Cells.act upd_branch (rv_branches v) e) (rv_stages v) (rv_open v) (rv_resolved v)
  | on_stage e => mkRunView (rv_branches v) (Cells.act upd_stage (rv_stages v) e) (rv_open v) (rv_resolved v)
  | gate_opened g => mkRunView (rv_branches v) (rv_stages v) ({[g]} ∪ rv_open v) (rv_resolved v)
  | gate_resolved g => mkRunView (rv_branches v) (rv_stages v) ({[g]} ∪ rv_open v) ({[g]} ∪ rv_resolved v)
  | no_action => v
  end.

Lemma of_run_insert {V} `{!Empty V} run x (r : gmap string V) : of_run run (<[run:=x]> r) = x.
Proof. unfold of_run. by rewrite lookup_insert_eq. Qed.

Lemma of_run_insert_ne {V} `{!Empty V} run run' x (r : gmap string V) : run <> run' -> of_run run (<[run':=x]> r) = of_run run r.
Proof. intros Hne. unfold of_run. by rewrite lookup_insert_ne. Qed.

Lemma of_run_delete_ne {V} `{!Empty V} run run' (r : gmap string V) : run <> run' -> of_run run (base.delete run' r) = of_run run r.
Proof. intros Hne. unfold of_run. by rewrite lookup_delete_ne. Qed.

(** Rebuilding acts on the views of the run and touches no other, no offset and no tracking. *)
Definition only_view (run_id : string) (f f' : kernel_facade) : Prop :=
  (forall r, r <> run_id -> view_of r f' = view_of r f) /\ _rebuild_offsets f' = _rebuild_offsets f /\
  _tracked_run_order f' = _tracked_run_order f /\ _tracked_run_set f' = _tracked_run_set f /\
  _gate_resolutions f' = _gate_resolutions f /\ _submitted_approvals f' = _submitted_approvals f.

#[export] Instance only_view_preorder run : PreOrder (only_view run).
Proof.
  split; [done|]. intros f1 f2 f3 (Hv & Ho & Ht & Hs & Hg & Ha) (Hv' & Ho' & Ht' & Hs' & Hg' & Ha').
  unfold only_view. split_and!; try congruence. intros r Hr. by rewrite Hv', Hv.
Qed.

Ltac only_view_tac :=
  unfold only_view; split_and!; [intros ? ?; unfold view_of; cbn; by rewrite ?of_run_insert_ne by done|done..].

Lemma rebuild_event_view run ev f f' : rebuild_event run ev f = Ret f' -> only_view run f f'.
Proof.
  unfold rebuild_event. repeat case_decide; unfold mbind, outcome_bind, mret, outcome_ret;
    repeat case_match; intros; simplify_eq; try reflexivity; only_view_tac.
Qed.

Lemma rebuild_events_only run evs f : only_view run f (rebuild_events run evs f).2.
Proof.
  revert f. induction evs as [|ev evs IH]; intros f; [done|]. simpl. unfold mbind, PyM_bind, py_get, py_lift, py_put.
  destruct (rebuild_event run ev f) as [f1|] eqn:E; [|done]. etrans; [by eapply rebuild_event_view|apply IH].
Qed.

Lemma parse_rebuild run ev a f : parse_event ev = Ret a ->
  exists f', rebuild_event run ev f = Ret f' /\ view_of run f' = act_view (view_of run f) a.
Proof.
  unfold parse_event, rebuild_event. repeat case_decide; unfold mbind, outcome_bind, mret, outcome_ret.
  - destruct (branch_of_event ev _) as [v|]; [|done]. intros [= <-]. eexists. split; [done|].
    unfold view_of. cbn. by rewrite of_run_insert.
  - destruct (p_item _ "branch_id") as [b|]; [|done]. destruct (p_item _ "new_state") as [s|]; [|done].
    destruct (p_get _ "failure_code") as [c|]; [|done]. intros [= <-]. unfold view_of. cbn.
    destruct (od_get b (of_run run (_branch_registry f))); eexists; (split; [done|]); [cbn; by rewrite of_run_insert|done].
  - destruct (stage_of_event ev _) as [v|]; [|done]. intros [= <-]. eexists. split; [done|].
    unfold view_of. cbn. by rewrite of_run_insert.
  - destruct (p_item _ "stage_id") as [b|]; [|done]. destruct (p_item _ "new_state") as [s|]; [|done].
    destruct (p_get _ "exited_at") as [x|]; [|done]. destruct (p_get _ "failure_code") as [c|]; [|done].
    intros [= <-]. unfold view_of. cbn.
    destruct (od_get b (of_run run (_stage_registry f))); eexists; (split; [done|]); [cbn; by rewrite of_run_insert|done].
  - destruct (p_item _ "gate_ref") as [g|]; [|done]. intros [= <-]. eexists. split; [done|]. unfold view_of. cbn. by rewrite of_run_insert.
  - destruct (p_item _ "gate_ref") as [g|]; [|done]. intros [= <-]. eexists. split; [done|]. unfold view_of. cbn. by rewrite !of_run_insert.
  - intros [= <-]. by eexists.
Qed.

(** Parsed events rebuild the view by their actions. *)
Lemma rebuild_events_parsed run evs acts f : Forall2 (fun ev a => parse_event ev = Ret a) evs acts ->
  exists f', rebuild_events run evs f = (Ret tt, f') /\ view_of run f' = foldl act_view (view_of run f) acts /\ only_view run f f'.
Proof.
  intros H. revert f. induction H as [|ev a evs acts Hp _ IH]; intros f; [by exists f|].
  destruct (parse_rebuild run ev a f Hp) as (f1 & He & Hv). destruct (IH f1) as (f2 & Hr & Hv2 & Hk).
  exists f2. simpl. unfold mbind, PyM_bind, py_get, py_lift, py_put. rewrite He, Hr. split_and!; [done|by rewrite Hv2, Hv|].
  etrans; [by eapply rebuild_event_view|done].
Qed.

(** The parts of an action list. *)
Definition branch_cells (acts : list trace_action) := omap (fun a => match a with on_branch e => Some e | _ => None end) acts.
Definition stage_cells (acts : list trace_action) := omap (fun a => match a with on_stage e => Some e | _ => None end) acts.
Definition resolved_refs (acts : list trace_action) : gset string :=
  list_to_set (omap (fun a => match a with gate_resolved g => Some g | _ => None end) acts).
Definition gate_refs (acts : list trace_action) : gset string :=
  list_to_set (omap (fun a => match a with gate_opened g | gate_resolved g => Some g | _ => None end) acts).

Lemma foldl_act_view v acts : foldl act_view v acts =
  mkRunView (Cells.acts upd_branch (rv_branches v) (branch_cells acts)) (Cells.acts upd_stage (rv_stages v) (stage_cells acts))
    (rv_open v ∪ gate_refs acts) (rv_resolved v ∪ resolved_refs acts).
Proof.
  revert v. induction acts as [|a acts IH]; intros v.
  - destruct v. unfold gate_refs, resolved_refs. simpl. f_equal; set_solver.
  - simpl. rewrite IH. destruct a; unfold gate_refs, resolved_refs; simpl; f_equal; set_solver.
Qed.

(** Rebuilding twice and in parts ********************************************************)

Lemma rebuild_events_app run evs evs' f :
  rebuild_events run (evs ++ evs') f = (_ ← rebuild_events run evs; rebuild_events run evs') f.
Proof.
  revert f. induction evs as [|ev evs IH]; intros f; [done|]. simpl.
  unfold mbind, PyM_bind, py_get, py_lift, py_put in *. destruct (rebuild_event run ev f); [|done]. apply IH.
Qed.

Lemma rebuild_events_offsets run evs f : _rebuild_offsets (rebuild_events run evs f).2 = _rebuild_offsets f.
Proof.
  revert f. induction evs as [|ev evs IH]; intros f; [done|]. simpl.
  unfold mbind, PyM_bind, py_get, py_lift, py_put in *. destruct (rebuild_event run ev f) eqn:E; [|done].
  rewrite IH. by apply rebuild_event_view in E as (_ & -> & _).
Qed.

Definition max_of (after : Z) (evs : list RuntimeEvent) : Z :=
  foldl (fun m ev => if bool_decide (m < ev_commit_offset ev) then ev_commit_offset ev else m) after evs.

Lemma max_of_ge after evs : after <= max_of after evs.
Proof.
  unfold max_of. revert after. induction evs as [|ev evs IH]; intros after; [done|]. simpl.
  etrans; [|apply IH]. case_bool_decide; lia.
Qed.

Lemma max_of_bound after evs n : after <= n -> (forall ev, ev ∈ evs -> ev_commit_offset ev <= n) -> max_of after evs <= n.
Proof.
  unfold max_of. revert after. induction evs as [|ev evs IH]; intros after Ha He; [done|]. simpl. apply IH.
  - case_bool_decide; [|done]. apply He. by left.
  - intros ev' Hin. apply He. by right.
Qed.

Lemma max_of_le after evs ev : ev ∈ evs -> ev_commit_offset ev <= max_of after evs.
Proof.
  unfold max_of. revert after. induction evs as [|ev' evs IH]; intros after; [by intros ?%elem_of_nil|].
  simpl. intros [->|Hin]%elem_of_cons; [|by apply IH].
  etrans; [|apply max_of_ge]. case_bool_decide; lia.
Qed.

Lemma set_offsets_idem o o' f : set_offsets o (set_offsets o' f) = set_offsets o f.
Proof. done. Qed.

Lemma set_offsets_own f : set_offsets (_rebuild_offsets f) f = f.
Proof. by destruct f. Qed.

Lemma rebuild_event_set_offsets run ev o f : rebuild_event run ev (set_offsets o f) = set_offsets o <$> rebuild_event run ev f.
Proof.
  unfold rebuild_event. repeat case_decide; unfold mbind, outcome_bind, mret, outcome_ret, fmap, outcome_fmap; cbn;
    repeat (case_match; simplify_eq/=; try done); done.
Qed.

Lemma rebuild_events_set_offsets run evs o f :
  rebuild_events run evs (set_offsets o f) = ((rebuild_events run evs f).1, set_offsets o (rebuild_events run evs f).2).
Proof.
  revert f. induction evs as [|ev evs IH]; intros f; [done|]. simpl.
  unfold mbind, PyM_bind, py_get, py_lift, py_put in *. rewrite rebuild_event_set_offsets.
  destruct (rebuild_event run ev f) as [f1|e]; simpl; [apply IH|done].
Qed.

(** A rebuild over a log, the offset of the run given. *)
Lemma rebuild_from_eq run ld f : rebuild_from run ld f =
  let after := default 0 (_rebuild_offsets f !! run) in
  let evs := filter is_trace (ld after) in
  match rebuild_events run evs f with
  | (Ret tt, f') => (Ret tt, set_offsets (<[run := max_of after evs]> (_rebuild_offsets f')) f')
  | (Raise e, f') => (Raise e, f')
  end.
Proof.
  unfold rebuild_from. py_simpl. destruct (rebuild_events run _ f) as [[[]|e] f']; done.
Qed.

Lemma filter_filter_comm {B} (P Q : B -> Prop) `{!forall x, Decision (P x), !forall x, Decision (Q x)} (l : list B) :
  filter P (filter Q l) = filter Q (filter P l).
Proof. rewrite !list_filter_filter. apply list_filter_iff. intros; tauto. Qed.

Lemma run_events_offset run l ev : log_wf l -> ev ∈ load run 0 l ->
  0 < ev_commit_offset ev <= Z.of_nat (length (load run 0 l)).
Proof.
  intros Hwf. rewrite load_all by done. intros Hin. destruct (run_events_ok run l Hwf) as [Ho _].
  apply (list_elem_of_fmap_2 ev_commit_offset) in Hin. change (ev_commit_offset <$> ?x) with (map ev_commit_offset x) in Hin.
  rewrite Ho in Hin. apply elem_of_seqZ in Hin. lia.
Qed.

Lemma load_filter run after l : log_wf l -> load run after l = filter (fun e => after < ev_commit_offset e) (load run 0 l).
Proof. intros Hwf. by rewrite load_all. Qed.

(** What a second rebuild sees: the trace events that came since. *)
Lemma later_events run l l' tail after : log_wf l -> log_wf l' -> load run 0 l' = load run 0 l ++ tail ->
  after <= Z.of_nat (length (load run 0 l)) ->
  filter is_trace (load run after l') = filter is_trace (load run after l) ++ filter is_trace tail /\
  filter is_trace (load run (max_of after (filter is_trace (load run after l))) l') = filter is_trace tail.
Proof.
  intros Hwf Hwf' Hext Hafter.
  assert (forall m, m <= Z.of_nat (length (load run 0 l)) ->
    load run m l' = load run m l ++ tail) as Hsplit.
  { intros m Hm. rewrite (load_filter run m l'), (load_filter run m l), Hext, filter_app by done. f_equal.
    apply filter_all. intros ev [i Hi]%list_elem_of_lookup.
    assert (run_events l' run !! (length (load run 0 l) + i)%nat = Some ev) as Hi'.
    { rewrite <-(load_all run l' Hwf'), Hext, lookup_app_r by lia. rewrite <-Hi. f_equal. lia. }
    destruct (od_get run (events_by_run l')) as [evs|] eqn:E; [|done].
    apply (run_ok_lookup _ _ _ _ (lw_runs l' Hwf' _ _ E)) in Hi'. lia. }
  split; [by rewrite Hsplit, filter_app|]. set (m := max_of _ _).
  assert (m <= Z.of_nat (length (load run 0 l))) as Hm.
  { apply max_of_bound; [done|]. intros ev [_ Hin]%list_elem_of_filter. rewrite load_filter in Hin by done.
    apply list_elem_of_filter in Hin as [_ Hin]. by apply run_events_offset in Hin as [_ ?]. }
  rewrite Hsplit, filter_app by done. rewrite (filter_none _ (load run m l)); [done|].
  intros ev Hin Ht. rewrite load_filter in Hin by done. apply list_elem_of_filter in Hin as [Hgt Hin].
  assert (ev_commit_offset ev <= m); [|lia]. apply max_of_le. apply list_elem_of_filter. split; [done|].
  rewrite load_filter by done. apply list_elem_of_filter. split; [|done].
  pose proof (max_of_ge after (filter is_trace (load run after l))). unfold m in Hgt. lia.
Qed.

(** bringing the registries of a run up to date, and again after the log has grown,
    is the same as doing it once after it has grown: the same views of branches, stages
    and gates, the same offset, and the same exception when an event is malformed. *)
Theorem rebuild_incremental (l l' : event_log) (run : string) (tail : list RuntimeEvent) (f : kernel_facade) :
  log_reachable l -> log_reachable l' -> load run 0 l' = load run 0 l ++ tail ->
  default 0 (_rebuild_offsets f !! run) <= Z.of_nat (length (load run 0 l)) ->
  let twice := (_ ← rebuild_from run (fun after => load run after l); rebuild_from run (fun after => load run after l')) f in
  let once := rebuild_from run (fun after => load run after l') f in
  twice.1 = once.1 /\ (once.1 = Ret tt -> twice.2 = once.2) /\ view_of run twice.2 = view_of run once.2.
Proof.
  intros Hl%reachable_wf Hl'%reachable_wf Hext Hk twice once. unfold twice, once. clear twice once.
  unfold mbind, PyM_bind. rewrite !rebuild_from_eq. cbv zeta.
  set (after := default 0 (_rebuild_offsets f !! run)) in *.
  destruct (later_events run l l' tail after Hl Hl' Hext Hk) as [-> Hlate].
  rewrite rebuild_events_app. unfold mbind, PyM_bind.
  pose proof (rebuild_events_offsets run (filter is_trace (load run after l)) f) as Hoff.
  destruct (rebuild_events run (filter is_trace (load run after l)) f) as [[[]|e] f1]; [|done]. cbn [snd] in Hoff.
  rewrite rebuild_from_eq. cbn [_rebuild_offsets set_offsets]. rewrite lookup_insert_eq. cbn [from_option]. unfold id.
  rewrite Hlate, rebuild_events_set_offsets.
  destruct (rebuild_events run (filter is_trace tail) f1) as [[[]|e] f2] eqn:E; cbn [fst snd]; [|done].
  pose proof (rebuild_events_offsets run (filter is_trace tail) f1) as Hoff2. rewrite E in Hoff2. cbn [snd] in Hoff2.
  unfold max_of. rewrite foldl_app. cbn [_rebuild_offsets set_offsets]. rewrite insert_insert_eq, Hoff2. done.
Qed.
