(* ===== verification/FacadeProps.v ===== *)
(** * Properties of the kernel facade

    Eviction of tracked runs; what a facade and a fresh one rebuilt from the log agree on;
    approvals, draining and cancellation. *)

From stdpp Require Import base tactics option list gmap strings.
From Stdlib Require Import ZArith.
From S2P Require Import Prelude PyStr PyDict PyVal Contracts EventLog AgentCore Facade FacadeRebuild.
#[local] Arguments String.append : simpl nomatch.
#[local] Arguments append_action_commit : simpl never.
#[local] Open Scope Z_scope.

(** Tracked runs ***************************************************************************)

(** The order lists the tracked set, each run once. *)
Definition tracked_ok (f : kernel_facade) : Prop :=
  NoDup (_tracked_run_order f) /\ _tracked_run_set f = list_to_set (_tracked_run_order f).

Lemma tracked_size f : tracked_ok f -> size (_tracked_run_set f) = length (_tracked_run_order f).
Proof. intros [Hn ->]. by apply size_list_to_set. Qed.

Lemma evict_oldest_ok f : tracked_ok f -> tracked_ok (_evict_oldest_run f).
Proof.
  unfold tracked_ok, _evict_oldest_run. intros [Hn Hs]. destruct (_tracked_run_order f) as [|o order] eqn:E; [by rewrite E|].
  cbn. apply NoDup_cons in Hn as [Ho Hn]. split; [done|]. rewrite Hs. set_solver.
Qed.

Lemma evict_while_ok n m f : tracked_ok f -> tracked_ok (evict_while n m f).
Proof. revert f. induction n as [|n IH]; intros f Hf; [done|]. simpl. case_bool_decide; [|done]. by apply IH, evict_oldest_ok. Qed.

Lemma evict_oldest_sub f x : x ∈ _tracked_run_set (_evict_oldest_run f) -> x ∈ _tracked_run_set f.
Proof. unfold _evict_oldest_run. destruct (_tracked_run_order f); [done|]. cbn. set_solver. Qed.

Lemma evict_while_sub n m f x : x ∈ _tracked_run_set (evict_while n m f) -> x ∈ _tracked_run_set f.
Proof.
  revert f. induction n as [|n IH]; intros f; [done|]. simpl. case_bool_decide; [|done].
  intros Hx%IH. by apply evict_oldest_sub.
Qed.

Lemma purge_view run r f : run <> r ->
  view_of run (_purge_run_state r f) = view_of run f /\ _rebuild_offsets (_purge_run_state r f) !! run = _rebuild_offsets f !! run.
Proof. intros Hne. unfold view_of. cbn. by rewrite !of_run_delete_ne, lookup_delete_ne by done. Qed.

(** A run that stays tracked, or was not, keeps its views. *)
Lemma evict_while_view run n m f : tracked_ok f ->
  run ∈ _tracked_run_set (evict_while n m f) \/ run ∉ _tracked_run_set f ->
  view_of run (evict_while n m f) = view_of run f /\ _rebuild_offsets (evict_while n m f) !! run = _rebuild_offsets f !! run.
Proof.
  revert f. induction n as [|n IH]; intros f Hf; [done|]. simpl. case_bool_decide; [|done]. intros Hx.
  destruct (IH (_evict_oldest_run f)) as [-> ->]; [by apply evict_oldest_ok| |].
  { destruct Hx as [Hx|Hx]; [by left|right]. intros ?%evict_oldest_sub. done. }
  unfold _evict_oldest_run in *. destruct (_tracked_run_order f) as [|o order] eqn:E; [done|].
  apply (purge_view run o (set_tracked order (_tracked_run_set f ∖ {[o]}) f)). intros ->.
  destruct Hx as [Hx%evict_while_sub|Hx].
  - cbn in Hx. set_solver.
  - apply Hx. destruct Hf as [_ ->]. rewrite E. set_solver.
Qed.

(** Enough rounds: the bound holds afterwards. *)
Lemma evict_while_bound n m f : tracked_ok f -> 0 <= m -> (length (_tracked_run_order f) <= n)%nat ->
  Z.of_nat (size (_tracked_run_set (evict_while n m f))) <= m.
Proof.
  revert f. induction n as [|n IH]; intros f Hf Hm Hn.
  - rewrite tracked_size by done. simpl. lia.
  - simpl. case_bool_decide as Hsz; [|lia]. apply IH; [by apply evict_oldest_ok|done|].
    rewrite tracked_size in Hsz by done. unfold _evict_oldest_run.
    destruct (_tracked_run_order f); cbn in *; lia.
Qed.

Definition touched_facade (run_id : string) (f : kernel_facade) : kernel_facade :=
  set_tracked (_tracked_run_order f ++ [run_id]) ({[run_id]} ∪ _tracked_run_set f) f.

Lemma touched_ok run f : tracked_ok f -> run ∉ _tracked_run_set f -> tracked_ok (touched_facade run f).
Proof.
  intros [Hn Hs] Hr. split; cbn.
  - apply NoDup_app. split; [done|]. split; [|apply NoDup_singleton].
    intros x Hx ->%list_elem_of_singleton. apply Hr. rewrite Hs. set_solver.
  - rewrite Hs, list_to_set_app_L. set_solver.
Qed.

Lemma touch_ok m run f : tracked_ok f -> tracked_ok (_touch_run m run f).
Proof. intros Hf. unfold _touch_run. case_decide; [done|]. by apply evict_while_ok, touched_ok. Qed.

Lemma touch_bound m run f : tracked_ok f -> 0 <= m -> Z.of_nat (size (_tracked_run_set f)) <= m ->
  Z.of_nat (size (_tracked_run_set (_touch_run m run f))) <= m.
Proof.
  intros Hf Hm Hsz. unfold _touch_run. case_decide; [done|]. apply evict_while_bound; [by apply touched_ok|done|done].
Qed.

Lemma touch_view m run r f : tracked_ok f ->
  run ∈ _tracked_run_set (_touch_run m r f) \/ (run ∉ _tracked_run_set f /\ r <> run) ->
  view_of run (_touch_run m r f) = view_of run f /\ _rebuild_offsets (_touch_run m r f) !! run = _rebuild_offsets f !! run.
Proof.
  intros Hf. unfold _touch_run. case_decide as Hr; [done|]. intros Hx.
  destruct (evict_while_view run (length (_tracked_run_order (touched_facade r f))) m (touched_facade r f)) as [Hv Ho].
  - by apply touched_ok.
  - destruct Hx as [Hx|[Hx Hne]]; [by left|right]. cbn. set_solver.
  - split; [exact Hv|exact Ho].
Qed.

(** Without room for eviction the touched run itself stays. *)
Lemma evict_while_last m run order f n : 1 <= m -> tracked_ok f -> _tracked_run_order f = order ++ [run] ->
  run ∈ _tracked_run_set (evict_while n m f).
Proof.
  intros Hm. revert order f. induction n as [|n IH]; intros order f Hf Ho; simpl.
  - destruct Hf as [_ ->]. rewrite Ho, list_to_set_app_L. set_solver.
  - case_bool_decide as Hsz; [|destruct Hf as [_ ->]; rewrite Ho, list_to_set_app_L; set_solver].
    rewrite tracked_size, Ho, length_app in Hsz by done. destruct order as [|o order]; [simpl in Hsz; lia|].
    apply (IH order); [by apply evict_oldest_ok|]. unfold _evict_oldest_run. by rewrite Ho.
Qed.

Lemma touch_self m run f : 1 <= m -> tracked_ok f -> run ∈ _tracked_run_set (_touch_run m run f).
Proof.
  intros Hm Hf. unfold _touch_run. case_decide as Hr; [done|].
  apply (evict_while_last m run (_tracked_run_order f) (touched_facade run f)); [done|by apply touched_ok|done].
Qed.

(** The registries against the log *********************************************************)

Definition trace_events (run : string) (l : event_log) : list RuntimeEvent := filter is_trace (load run 0 l).

(** Views that agree but for whether a resolved gate is also listed as open. *)
#[export] Instance view_equiv : Equiv run_view := fun v v' =>
  rv_branches v = rv_branches v' /\ rv_stages v = rv_stages v' /\ rv_resolved v = rv_resolved v' /\
  rv_open v ∪ rv_resolved v = rv_open v' ∪ rv_resolved v'.

#[export] Instance view_equivalence : Equivalence (≡@{run_view}).
Proof.
  split; unfold equiv, view_equiv.
  - done.
  - by intros v v' (-> & -> & -> & ->).
  - by intros v1 v2 v3 (-> & -> & -> & ->).
Qed.

#[export] Instance act_view_proper : Proper ((≡) ==> (=) ==> (≡)) act_view.
Proof.
  intros v v' (Hb & Hs & Hr & Ho) a a' <-. unfold equiv, view_equiv.
  destruct a; cbn; rewrite ?Hb, ?Hs, ?Hr; split_and!; try done; set_solver.
Qed.

Lemma foldl_act_proper v v' acts : v ≡ v' -> foldl act_view v acts ≡ foldl act_view v' acts.
Proof. revert v v'. induction acts as [|a acts IH]; intros v v' H; [done|]. apply IH. by rewrite H. Qed.

(** An action the facade may take on a view: what it opens is new and what it changes is there. *)
Definition action_ok (v : run_view) (a : trace_action) : Prop :=
  match a with
  | on_branch (Cells.Opened k _) => od_get k (rv_branches v) = None
  | on_branch (Cells.Changed k _) => od_get k (rv_branches v) <> None
  | on_stage (Cells.Opened k _) => od_get k (rv_stages v) = None
  | on_stage (Cells.Changed k _) => od_get k (rv_stages v) <> None
  | _ => True
  end.

(** The trace events of a run are a history of actions, and its views are their outcome. *)
Record synced (run : string) (f : kernel_facade) (l : event_log) : Prop := {
  sy_wf : log_wf l;
  sy_offset : 0 <= default 0 (_rebuild_offsets f !! run);
  sy_history : exists acts, Forall2 (fun ev a => parse_event ev = Ret a) (trace_events run l) acts /\
    Cells.history upd_branch (branch_cells acts) /\ Cells.history upd_stage (stage_cells acts) /\
    view_of run f ≡ foldl act_view empty_view acts
}.

Lemma synced_frame run f l f' l' : synced run f l -> log_wf l' -> trace_events run l' = trace_events run l ->
  view_of run f' ≡ view_of run f -> _rebuild_offsets f' !! run = _rebuild_offsets f !! run -> synced run f' l'.
Proof.
  intros [Hwf Ho (acts & Hp & Hb & Hs & Hv)] Hwf' He Hv' Ho'. split; [done|by rewrite Ho'|].
  exists acts. rewrite He. split_and!; [done..|]. by rewrite Hv'.
Qed.

(** One more event, one more action. *)
Lemma synced_act run f l f' l' ev a : synced run f l -> log_wf l' -> trace_events run l' = trace_events run l ++ [ev] ->
  parse_event ev = Ret a -> action_ok (view_of run f) a -> view_of run f' ≡ act_view (view_of run f) a ->
  _rebuild_offsets f' !! run = _rebuild_offsets f !! run -> synced run f' l'.
Proof.
  intros [Hwf Ho (acts & Hp & Hb & Hs & Hv)] Hwf' He Ha Hok Hv' Ho'. split; [done|by rewrite Ho'|].
  exists (acts ++ [a]). rewrite He. pose proof Hv as (Hvb & Hvs & _). rewrite foldl_act_view in Hvb, Hvs. simpl in Hvb, Hvs.
  split_and!.
  - apply Forall2_app; [done|]. by repeat constructor.
  - unfold branch_cells. rewrite omap_app. destruct a as [[k v|k c]| | | |]; simpl; rewrite ?app_nil_r; try done;
      constructor; try done; cbn in Hok; by rewrite Hvb in Hok.
  - unfold stage_cells. rewrite omap_app. destruct a as [|[k v|k c]| | |]; simpl; rewrite ?app_nil_r; try done;
      constructor; try done; cbn in Hok; by rewrite Hvs in Hok.
  - rewrite foldl_app. simpl. by rewrite Hv', Hv.
Qed.

(** Bringing a synced run up to date succeeds and changes no view. *)
Lemma synced_rebuild run f l : synced run f l -> exists f',
  rebuild_from run (fun after => load run after l) f = (Ret tt, f') /\ view_of run f' ≡ view_of run f /\
  synced run f' l /\ (forall r, r <> run -> view_of r f' = view_of r f /\ _rebuild_offsets f' !! r = _rebuild_offsets f !! r) /\
  _tracked_run_order f' = _tracked_run_order f /\ _tracked_run_set f' = _tracked_run_set f.
Proof.
  intros Hsy. pose proof Hsy as [Hwf Ho (acts & Hp & Hb & Hs & Hv)]. rewrite rebuild_from_eq. cbv zeta.
  set (after := default 0 _) in *. pose proof (load_drop run l (Z.to_nat after) Hwf) as Hld.
  rewrite Z2Nat.id, <-load_all in Hld by done.
  assert (trace_events run l = filter is_trace (take (Z.to_nat after) (load run 0 l)) ++ filter is_trace (load run after l)) as He.
  { by rewrite Hld, <-filter_app, take_drop. }
  rewrite He in Hp. apply Forall2_app_inv_l in Hp as (a1 & a2 & Hp1 & Hp2 & ->).
  destruct (rebuild_events_parsed run _ a2 f Hp2) as (f1 & Hr & Hv1 & Hk). rewrite Hr.
  assert (foldl act_view (view_of run f) a2 ≡ view_of run f) as Hno.
  { rewrite (foldl_act_proper _ _ a2 Hv), Hv, (foldl_act_view empty_view), foldl_act_view.
    unfold branch_cells, stage_cells in *. rewrite omap_app in Hb. rewrite omap_app in Hs. unfold equiv, view_equiv. simpl.
    rewrite !omap_app, (Cells.replay_noop upd_branch upd_branch_idem _ _ Hb), (Cells.replay_noop upd_stage upd_stage_idem _ _ Hs).
    unfold gate_refs, resolved_refs. rewrite !omap_app, !list_to_set_app_L. split_and!; [done|done|set_solver|set_solver]. }
  destruct Hk as (Hother & Hoff & Hord & Hset & _).
  eexists. split; [done|]. rewrite <-Hv1 in Hno. split; [exact Hno|]. split.
  - split; [done| |].
    + cbn [_rebuild_offsets set_offsets]. rewrite lookup_insert_eq. cbn [from_option]. unfold id.
      etrans; [exact Ho|apply max_of_ge].
    + exists (a1 ++ a2). rewrite He. split_and!; [by apply Forall2_app|done|done|]. by rewrite <-Hv.
  - split; [|done]. intros r Hr'. split; [by apply Hother|]. cbn [_rebuild_offsets set_offsets]. by rewrite lookup_insert_ne, Hoff.
Qed.

(** What the log makes of a trace commit. *)
Lemma append_trace run r type now eid cid payload l : log_wf l -> startswith type "trace." = true ->
  let '(res, l') := append_action_commit (trace_commit r type now eid cid payload) l in
  (exists ref, res = Ret ref) /\ log_wf l' /\
  (r = run -> exists ev, trace_events run l' = trace_events run l ++ [ev] /\ ev_event_type ev = type /\
                         ev_payload_json ev = Some payload) /\
  (r <> run -> trace_events run l' = trace_events run l \/ trace_events run l' = []).
Proof.
  intros Hwf Htr. set (c := trace_commit r type now eid cid payload).
  pose proof (append_wf c l Hwf) as Hwf'. assert (ac_events c <> []) as Hne by done.
  pose proof (append_run_events c l Hwf Hne) as Hev. pose proof (append_eq c l Hne) as Heq.
  destruct (append_action_commit c l) as [res l'] eqn:E. cbn [snd] in *. split_and!.
  - injection Heq as -> _. by eexists.
  - done.
  - intros <-. unfold trace_events. rewrite !load_all by done. change (ac_run_id c) with r in Hev. rewrite Hev, filter_app.
    cbn. rewrite decide_True; [by eexists|]. unfold is_trace. cbn. by rewrite Htr.
  - intros Hr. injection Heq as _ ->. unfold trace_events. rewrite !load_all by done.
    assert (od_wf (events_by_run (put_run c l))) as Hw by apply od_wf_set, Hwf.
    destruct (evict_events run _ Hw) as [->|[-> _]]; [left|by right].
    unfold put_run. cbn [events_by_run]. by rewrite od_get_set_ne.
Qed.

Section calls.
Context {T A : Type} (P : facade_ports T A) (run : string).
Implicit Types w : fworld T.

(** Collaborators that leave the trace events of the run alone. *)
Definition quiet (lt lt' : option event_log * T) : Prop :=
  forall l, lt.1 = Some l -> log_wf l -> exists l', lt'.1 = Some l' /\ log_wf l' /\ trace_events run l' = trace_events run l.

#[export] Instance quiet_preorder : PreOrder quiet.
Proof.
  split; [by intros lt l; eauto|]. intros x y z Hxy Hyz l Hl Hwf.
  destruct (Hxy l Hl Hwf) as (l1 & Hl1 & Hwf1 & He1). destruct (Hyz l1 Hl1 Hwf1) as (l2 & Hl2 & Hwf2 & He2).
  exists l2. split_and!; [done..|]. by rewrite He2.
Qed.

Context (Hsignal : forall r req, keeps quiet (fp_signal_workflow P r req)).
Context (Hquery : forall r, keeps quiet (fp_query_projection P r)).
Context (Hmax : 1 <= fp_max_tracked_runs P).

Lemma now_inv w t w' : now P w = (Ret t, w') -> fw_facade w' = fw_facade w /\ fw_log w' = fw_log w /\ fw_signals w' = fw_signals w.
Proof. unfold now, on_rest, py_zoom. destruct (fp_now P (fw_rest w)). by intros [= <- <-]. Qed.

Lemma touch_inv r w b w' : touch P r w = (Ret b, w') ->
  fw_facade w' = _touch_run (fp_max_tracked_runs P) r (fw_facade w) /\ fw_log w' = fw_log w /\ fw_signals w' = fw_signals w.
Proof. unfold touch, on_facade, py_zoom, py_modify. by intros [= <- <-]. Qed.

(** The end of every operation on a stage, branch or gate. *)
Definition announce (r : string) (g : kernel_facade -> kernel_facade) (req : SignalRunRequest) (type : string)
    (payload : odict string pyval) : PyM (fworld T) unit :=
  _ ← on_facade (py_modify g); _ ← signal_workflow P r req; _append_trace_event P r type payload.

Lemma announce_run r g req type payload w w' l : announce r g req type payload w = (Ret tt, w') ->
  fw_log w = Some l -> log_wf l -> startswith type "trace." = true ->
  fw_facade w' = g (fw_facade w) /\ exists l', fw_log w' = Some l' /\ log_wf l' /\
    (r = run -> exists ev, trace_events run l' = trace_events run l ++ [ev] /\ ev_event_type ev = type /\
                           ev_payload_json ev = Some payload) /\
    (r <> run -> trace_events run l' = trace_events run l \/ trace_events run l' = []).
Proof.
  intros H Hl Hwf Htr. unfold announce in H. bind_inv H u w1 Hg. unfold on_facade, py_zoom, py_modify in Hg.
  injection Hg as <- <-. bind_inv H u w2 Hs. unfold signal_workflow in Hs. bind_inv Hs u' w2' Hrec. injection Hrec as <- <-.
  unfold on_gateway, py_zoom in Hs. cbn in Hs.
  pose proof (Hsignal r req (fw_log w, fw_rest w) l Hl Hwf) as (l1 & Hl1 & Hwf1 & He1).
  destruct (fp_signal_workflow P r req (fw_log w, fw_rest w)) as [o lt]. injection Hs as -> <-. cbn in Hl1.
  unfold _append_trace_event in H. bind_inv H w2 w2' Hget. injection Hget as <- <-. cbn in H. rewrite Hl1 in H.
  bind_inv H n w3 Hn. apply now_inv in Hn as (Hf3 & Hl3 & _).
  bind_inv H e1 w4 He. unfold uuid4, on_rest, py_zoom in He. destruct (fp_uuid4 P (fw_rest w3)) as [i1 t1]. injection He as <- <-.
  bind_inv H e2 w5 He. unfold uuid4, on_rest, py_zoom in He. cbn in He. destruct (fp_uuid4 P t1) as [i2 t2]. injection He as <- <-.
  unfold on_gateway, py_zoom in H. cbn -[append_action_commit] in H; cbn in Hf3, Hl3. rewrite Hl3 in H.
  pose proof (append_trace run r type (at_text n) i1 i2 payload l1 Hwf1 Htr) as Ha.
  destruct (append_action_commit _ l1) as [res l'] eqn:E. cbn in H. destruct Ha as ([ref ->] & Hwf' & Hown & Hoth).
  injection H as <-. cbn. split; [done|]. exists l'. rewrite <-He1. split; [reflexivity|split; [exact Hwf'|split; [exact Hown|exact Hoth]]].
Qed.

(** The calls about stages, branches and gates ***********************************************)

Inductive trace_op :=
  | t_open_stage (stage_id run_id : string) (branch_id : option string)
  | t_mark_stage (run_id stage_id new_state : string) (failure_code : option string)
  | t_open_branch (request : OpenBranchRequest)
  | t_mark_branch (request : BranchStateUpdateRequest)
  | t_open_gate (request : HumanGateRequest)
  | t_approve (request : ApprovalRequest)
  | t_escalation (run_id : string) (resolution_notes caused_by : option string)
  | t_query (run_id : string).

Definition exec_op (op : trace_op) : PyM (fworld T) unit :=
  match op with
  | t_open_stage s r b => open_stage P s r b
  | t_mark_stage r s st c => mark_stage_state P r s st c
  | t_open_branch q => open_branch P q
  | t_mark_branch q => mark_branch_state P q
  | t_open_gate q => open_human_gate P q
  | t_approve q => submit_approval P q
  | t_escalation r n c => resolve_escalation P r n c
  | t_query r => _ ← query_trace_runtime P r; mret tt
  end.

Definition op_touches (op : trace_op) : option string :=
  match op with
  | t_open_stage _ r _ | t_mark_stage r _ _ _ | t_escalation r _ _ => Some r
  | t_open_branch q => Some (ob_run_id q)
  | t_mark_branch q => Some (bu_run_id q)
  | t_open_gate q => Some (hg_run_id q)
  | t_approve q => Some (aq_run_id q)
  | t_query _ => None
  end.

(** Stages and branches of the run are opened once, and failure codes have a text. *)
Definition op_ok (op : trace_op) (f : kernel_facade) : Prop :=
  match op with
  | t_open_stage s r _ => r = run -> od_get s (rv_stages (view_of run f)) = None
  | t_open_branch q => ob_run_id q = run -> od_get (ob_branch_id q) (rv_branches (view_of run f)) = None
  | t_mark_stage r _ _ c => r = run -> c <> Some ""
  | _ => True
  end.

(** A call that evicts the run neither from the facade nor from the log. *)
Definition run_kept w w' : Prop :=
  (run ∈ _tracked_run_set (fw_facade w) -> run ∈ _tracked_run_set (fw_facade w')) /\
  (forall l l', fw_log w = Some l -> fw_log w' = Some l' -> trace_events run l' = [] -> trace_events run l = []).

(** Calls that return, in sequence. *)
Inductive trace_steps : fworld T -> fworld T -> Prop :=
  | ts_refl w : trace_steps w w
  | ts_step w w1 op w2 : trace_steps w w1 -> op_ok op (fw_facade w1) -> exec_op op w1 = (Ret tt, w2) ->
      run_kept w1 w2 -> trace_steps w w2.

Definition in_step w : Prop :=
  tracked_ok (fw_facade w) /\ exists l, fw_log w = Some l /\ synced run (fw_facade w) l.

Lemma announced_step r g req type payload w w' l : announce r g req type payload w = (Ret tt, w') ->
  fw_log w = Some l -> synced run (fw_facade w) l -> tracked_ok (fw_facade w) -> startswith type "trace." = true ->
  (r = run -> forall ev, ev_event_type ev = type -> ev_payload_json ev = Some payload ->
     exists a, parse_event ev = Ret a /\ action_ok (view_of run (fw_facade w)) a /\
               view_of run (g (fw_facade w)) ≡ act_view (view_of run (fw_facade w)) a) ->
  (r <> run -> view_of run (g (fw_facade w)) = view_of run (fw_facade w)) ->
  (_rebuild_offsets (g (fw_facade w)) = _rebuild_offsets (fw_facade w) /\
   _tracked_run_order (g (fw_facade w)) = _tracked_run_order (fw_facade w) /\
   _tracked_run_set (g (fw_facade w)) = _tracked_run_set (fw_facade w)) ->
  (forall l', fw_log w' = Some l' -> trace_events run l' = [] -> trace_events run l = []) -> in_step w'.
Proof.
  intros H Hl Hsy Htk Htr Hown Hoth (Ho & Hord & Hset) Hkept.
  destruct (announce_run _ _ _ _ _ _ _ _ H Hl (sy_wf _ _ _ Hsy) Htr) as (Hf & l' & Hl' & Hwf' & Hev & Hev').
  split; [rewrite Hf; unfold tracked_ok; by rewrite Hord, Hset|]. exists l'. split; [done|]. rewrite Hf.
  destruct (decide (r = run)) as [Hr|Hr].
  - destruct (Hev Hr) as (ev & He & Hty & Hp). destruct (Hown Hr ev Hty Hp) as (a & Ha & Hok & Hv).
    eapply synced_act; [exact Hsy|done|exact He|exact Ha|exact Hok|exact Hv|by rewrite Ho].
  - eapply synced_frame; [exact Hsy|done| |by rewrite Hoth|by rewrite Ho].
    destruct (Hev' Hr) as [?|He]; [done|]. by rewrite He, (Hkept l' Hl' He).
Qed.

(** After the touch that begins an operation. *)
Lemma touch_step r w b w1 w' : touch P r w = (Ret b, w1) -> in_step w -> _tracked_run_set (fw_facade w') = _tracked_run_set (fw_facade w1) ->
  (run ∈ _tracked_run_set (fw_facade w) -> run ∈ _tracked_run_set (fw_facade w')) ->
  in_step w1 /\ fw_log w1 = fw_log w /\ view_of run (fw_facade w1) = view_of run (fw_facade w).
Proof.
  intros (Hf & Hl & _)%touch_inv (Htk & l & Hw & Hsy) Hset Hkept. rewrite Hset, Hf in Hkept.
  destruct (touch_view (fp_max_tracked_runs P) run r (fw_facade w) Htk) as [Hv Ho].
  { destruct (decide (run ∈ _tracked_run_set (fw_facade w))); [left; auto|].
    destruct (decide (r = run)) as [->|]; [left; by apply touch_self|by right]. }
  split; [|split; [done|by rewrite Hf]]. split; [rewrite Hf; by apply touch_ok|]. exists l. split; [congruence|].
  rewrite Hf. eapply synced_frame; [exact Hsy|apply Hsy|done|by rewrite Hv|done].
Qed.

Lemma rebuild_from_only r ld f b f' : rebuild_from r ld f = (b, f') ->
  (forall r', r' <> r -> view_of r' f' = view_of r' f) /\ (forall r', r' <> r -> _rebuild_offsets f' !! r' = _rebuild_offsets f !! r') /\
  _tracked_run_order f' = _tracked_run_order f /\ _tracked_run_set f' = _tracked_run_set f.
Proof.
  rewrite rebuild_from_eq. cbv zeta. pose proof (rebuild_events_only r (filter is_trace (ld (default 0 (_rebuild_offsets f !! r)))) f) as Hk.
  destruct (rebuild_events r _ f) as [[[]|e] f1]; cbn [snd] in Hk; destruct Hk as (Hv & Ho & Hord & Hset & _); intros [= <- <-].
  - split_and!; [exact Hv| |done|done]. intros r' Hr'. cbn. by rewrite lookup_insert_ne, Ho.
  - split_and!; [done| |done|done]. intros r' _. by rewrite Ho.
Qed.

(** Calls of collaborators leave the facade alone. *)
Definition same_facade (w w' : fworld T) : Prop := fw_facade w' = fw_facade w.

#[export] Instance same_facade_preorder : PreOrder same_facade.
Proof. split; [done|]. unfold same_facade. congruence. Qed.

Lemma append_same r type payload : keeps same_facade (_append_trace_event P r type payload).
Proof.
  unfold _append_trace_event, now, uuid4, on_rest, on_gateway. apply keeps_get_bind. intros w. destruct (fw_log w); [|done].
  revert w. match goal with |- forall w, same_facade w (?m w).2 => change (keeps same_facade m) end.
  repeat (apply keeps_bind; [apply _|by apply keeps_zoom|intros ?]). by apply keeps_zoom.
Qed.

Lemma signal_same r req : keeps same_facade (signal_workflow P r req).
Proof. apply keeps_bind; [apply _|by apply keeps_modify|]. intros _. by apply keeps_zoom. Qed.

Lemma announce_facade r g req type payload w w' b : announce r g req type payload w = (Ret b, w') ->
  fw_facade w' = g (fw_facade w).
Proof.
  intros H. unfold announce in H. bind_inv H u w1 Hg. injection Hg as <- <-.
  assert (keeps same_facade (_ ← signal_workflow P r req; _append_trace_event P r type payload)) as Hk.
  { apply keeps_bind; [apply _|apply signal_same|]. intros _. apply append_same. }
  specialize (Hk (mkFW (g (fw_facade w)) (fw_context w) (fw_checkpoint w) (fw_in_flight w) (fw_log w) (fw_signals w) (fw_rest w))).
  unfold on_facade, py_zoom, py_modify in H. rewrite H in Hk. exact Hk.
Qed.

(** An operation on a run: a touch, readings of the clock, and an announcement. *)
Lemma op_step r w b w1 w2 w' g req type payload : in_step w -> touch P r w = (Ret b, w1) ->
  fw_facade w2 = fw_facade w1 -> fw_log w2 = fw_log w1 -> announce r g req type payload w2 = (Ret tt, w') ->
  (run ∈ _tracked_run_set (fw_facade w) -> run ∈ _tracked_run_set (fw_facade w')) ->
  (forall l l', fw_log w = Some l -> fw_log w' = Some l' -> trace_events run l' = [] -> trace_events run l = []) ->
  startswith type "trace." = true ->
  (forall f, _rebuild_offsets (g f) = _rebuild_offsets f /\ _tracked_run_order (g f) = _tracked_run_order f /\
             _tracked_run_set (g f) = _tracked_run_set f) ->
  (r <> run -> forall f, view_of run (g f) = view_of run f) ->
  (r = run -> forall f ev, view_of run f = view_of run (fw_facade w) -> f = fw_facade w2 ->
     ev_event_type ev = type -> ev_payload_json ev = Some payload ->
     exists a, parse_event ev = Ret a /\ action_ok (view_of run f) a /\ view_of run (g f) ≡ act_view (view_of run f) a) ->
  in_step w'.
Proof.
  intros Hin Ht Hf2 Hl2 Ha Hkept Hlog Htr Hg Hoth Hown. pose proof (announce_facade _ _ _ _ _ _ _ _ Ha) as Hf'.
  destruct (touch_step r w b w1 w' Ht Hin) as ((Htk1 & l & Hw1 & Hsy1) & Hl1 & Hv1); [|done|].
  { rewrite Hf', Hf2. apply Hg. }
  eapply announced_step; [exact Ha|by rewrite Hl2|by rewrite Hf2|by rewrite Hf2|done| |intros ?; by apply Hoth|apply Hg|].
  - intros Hr ev Hty Hp. apply (Hown Hr); [by rewrite Hf2|done..].
  - intros l' Hl'. apply (Hlog l l'); [congruence|done].
Qed.

Ltac view_other Hr := intros Hr ?; unfold view_of; cbn; by rewrite ?of_run_insert_ne by done.
Ltac parse_own Hty Hp := unfold parse_event; rewrite Hty, Hp; cbn; reflexivity.

Lemma open_stage_step w w' s r b : in_step w -> op_ok (t_open_stage s r b) (fw_facade w) ->
  open_stage P s r b w = (Ret tt, w') -> run_kept w w' -> in_step w'.
Proof.
  intros Hin Hok H [Hk1 Hk2]. unfold open_stage in H. bind_inv H u w1 Ht. bind_inv H t w2 Hn. apply now_inv in Hn as (Hf & Hl & _).
  eapply op_step; [exact Hin|exact Ht|exact Hf|exact Hl|exact H|exact Hk1|exact Hk2|done|done|view_other Hr|].
  intros Hr f ev Hv _ Hty Hp. exists (on_stage (Cells.Opened s (mkStageView s "active" (at_text t) None b None))). split_and!.
  - destruct b; parse_own Hty Hp.
  - cbn. specialize (Hok Hr). rewrite <-Hv in Hok. exact Hok.
  - subst r. specialize (Hok eq_refl). rewrite <-Hv in Hok. cbn in Hok. unfold view_of. cbn. rewrite of_run_insert.
    unfold od_mem. by rewrite Hok.
Qed.

Lemma mark_stage_step w w' r s st c : in_step w -> op_ok (t_mark_stage r s st c) (fw_facade w) ->
  mark_stage_state P r s st c w = (Ret tt, w') -> run_kept w w' -> in_step w'.
Proof.
  intros Hin Hok H [Hk1 Hk2]. unfold mark_stage_state in H. bind_inv H u w1 Ht. bind_inv H w1' w1'' Hget. injection Hget as <- <-.
  destruct (od_get s (of_run r (_stage_registry (fw_facade w1)))) as [x|] eqn:Hx; [|done].
  bind_inv H xt w2 Hn. assert (fw_facade w2 = fw_facade w1 /\ fw_log w2 = fw_log w1) as [Hf Hl].
  { case_bool_decide; [bind_inv Hn t w2' Hn'; injection Hn as _ <-; by apply now_inv in Hn' as (? & ? & _)|by injection Hn as _ <-]. }
  eapply op_step; [exact Hin|exact Ht|exact Hf|exact Hl|exact H|exact Hk1|exact Hk2|done|done|view_other Hr|].
  intros Hr f ev Hv Hfw Hty Hp. exists (on_stage (Cells.Changed s (st, xt, c))). split_and!.
  - destruct xt, c; parse_own Hty Hp.
  - subst r. cbn. by rewrite Hfw, Hf, Hx.
  - subst r. unfold view_of. cbn. rewrite of_run_insert. specialize (Hok eq_refl).
    assert (od_get s (of_run run (_stage_registry f)) = Some x) as -> by by rewrite Hfw, Hf.
    unfold equiv, view_equiv. cbn. split_and!; try done. f_equal. unfold upd_stage. cbn. f_equal.
    destruct c as [c|]; [|done]. simpl. rewrite decide_False; [done|]. congruence.
Qed.

Lemma open_branch_step w w' q : in_step w -> op_ok (t_open_branch q) (fw_facade w) ->
  open_branch P q w = (Ret tt, w') -> run_kept w w' -> in_step w'.
Proof.
  intros Hin Hok H [Hk1 Hk2]. unfold open_branch in H. bind_inv H u w1 Ht. bind_inv H t w2 Hn. apply now_inv in Hn as (Hf & Hl & _).
  eapply op_step; [exact Hin|exact Ht|exact Hf|exact Hl|exact H|exact Hk1|exact Hk2|done|done|view_other Hr|].
  intros Hr f ev Hv _ Hty Hp. unfold op_ok in Hok. rewrite <-Hv in Hok. specialize (Hok Hr).
  destruct q as [r k s pb by_]. cbn in *. subst r.
  exists (on_branch (Cells.Opened k (mkBranchView k s "active" (at_text t) pb by_ None))). split_and!.
  - destruct pb, by_; parse_own Hty Hp.
  - exact Hok.
  - unfold view_of. cbn. rewrite of_run_insert. unfold od_mem. by rewrite Hok.
Qed.

Lemma mark_branch_step w w' q : in_step w -> mark_branch_state P q w = (Ret tt, w') -> run_kept w w' -> in_step w'.
Proof.
  intros Hin H [Hk1 Hk2]. unfold mark_branch_state in H. bind_inv H u w1 Ht. bind_inv H w1' w1'' Hget. injection Hget as <- <-.
  destruct (od_get (bu_branch_id q) (of_run (bu_run_id q) (_branch_registry (fw_facade w1)))) as [x|] eqn:Hx; [|done].
  eapply op_step; [exact Hin|exact Ht|done|done|exact H|exact Hk1|exact Hk2|done|done|view_other Hr|].
  destruct q as [r k st c rs]. cbn in *.
  intros Hr f ev Hv Hfw Hty Hp. exists (on_branch (Cells.Changed k (st, py_or c None))). split_and!.
  - destruct (py_or c None); parse_own Hty Hp.
  - subst r. cbn. by rewrite Hfw, Hx.
  - subst r. unfold view_of. cbn. rewrite of_run_insert.
    assert (od_get k (of_run run (_branch_registry f)) = Some x) as -> by by rewrite Hfw. done.
Qed.

Lemma open_gate_step w w' q : in_step w -> open_human_gate P q w = (Ret tt, w') -> run_kept w w' -> in_step w'.
Proof.
  intros Hin H [Hk1 Hk2]. unfold open_human_gate in H. bind_inv H u w1 Ht.
  eapply op_step; [exact Hin|exact Ht|done|done|exact H|exact Hk1|exact Hk2|done|done|view_other Hr|].
  intros Hr f ev Hv Hfw Hty Hp. exists (gate_opened (hg_gate_ref q)). split_and!; [parse_own Hty Hp|done|].
  unfold view_of. cbn. by rewrite <-Hr, of_run_insert.
Qed.

Lemma resolve_step w w' r n c : in_step w -> resolve_escalation P r n c w = (Ret tt, w') ->
  run_kept w w' -> in_step w'.
Proof.
  intros Hin H [Hk1 Hk2]. unfold resolve_escalation in H. bind_inv H u w1 Ht.
  eapply (op_step r w u w1 w1 w' (fun f => f)); [exact Hin|exact Ht|done|done| |exact Hk1|exact Hk2| |done|done|].
  - unfold announce. destruct w1. exact H.
  - done.
  - intros Hr f ev Hv Hfw Hty Hp. exists no_action. split_and!; [parse_own Hty Hp|done|done].
Qed.

(** A guarded call that returned: the guard was open, and the body ran between the counts. *)
Lemma guard_inv {B} op (m : PyM (fworld T) B) w b w' : _guard_write_operation P op m w = (Ret b, w') ->
  exists n n' w1, m (set_in_flight n w) = (Ret b, w1) /\ w' = set_in_flight n' w1.
Proof.
  unfold _guard_write_operation. intros H. bind_inv H w0 w0' Hget. injection Hget as <- <-.
  destruct (_draining (fw_facade w)); [done|]. unfold drain_enter, drain_exit in H.
  bind_inv H u w1 He. exists (fw_in_flight w1). unfold py_finally in H.
  assert (w1 = set_in_flight (fw_in_flight w1) w) as <-.
  { destruct (fp_has_drain_coordinator P); injection He as _ <-; by destruct w. }
  destruct (m w1) as [o w2] eqn:E. destruct (fp_has_drain_coordinator P); injection H as -> <-.
  - by eexists _, _.
  - exists (fw_in_flight w2), w2. split; [done|]. by destruct w2.
Qed.

Lemma approve_step w w' q : in_step w -> submit_approval P q w = (Ret tt, w') -> run_kept w w' -> in_step w'.
Proof.
  intros Hin H Hk. apply guard_inv in H as (n & n' & w3 & H & ->).
  change (in_step (set_in_flight n w)) in Hin. change (in_step w3). change (run_kept (set_in_flight n w) w3) in Hk.
  destruct Hk as [Hk1 Hk2]. bind_inv H u w1 Ht. bind_inv H w1' w1'' Hget. injection Hget as <- <-.
  destruct (decide ((aq_run_id q, aq_approval_ref q) ∈ _submitted_approvals (fw_facade w1))) as [_|_].
  { injection H as <-. by destruct (touch_step _ _ _ _ w1 Ht Hin eq_refl Hk1). }
  bind_inv H u' w2 Ha. injection Ha as <- <-.
  set (w2 := mkFW _ _ _ _ _ _ _) in H.
  assert (in_step w2 /\ view_of run (fw_facade w2) = view_of run (fw_facade w1) /\ fw_log w2 = fw_log w1) as (Hin2 & Hv2 & Hl2).
  { split; [|done]. destruct (touch_step _ _ _ _ w3 Ht Hin) as [Hin1 _]; [|done|].
    - by rewrite (announce_facade _ _ _ _ _ _ _ _ H).
    - destruct Hin1 as (Htk & l & Hl & Hsy). split; [done|]. exists l. split; [done|].
      eapply synced_frame; [exact Hsy|apply Hsy|done..]. }
  destruct Hin2 as (Htk2 & l & Hlw & Hsy2).
  eapply announced_step; [exact H|exact Hlw|exact Hsy2|exact Htk2|done| |intros Hr; unfold view_of; cbn; by rewrite of_run_insert_ne|done|].
  - intros Hr ev Hty Hp. exists (gate_resolved (aq_approval_ref q)). split_and!; [parse_own Hty Hp|done|].
    unfold view_of. cbn. rewrite Hr, of_run_insert. unfold equiv, view_equiv. cbn. split_and!; [done|done|done|set_solver].
  - intros l' Hl' He. eapply Hk2; [|exact Hl'|exact He]. apply touch_inv in Ht as (_ & Hl1 & _). congruence.
Qed.

Lemma query_step w w' r : in_step w -> exec_op (t_query r) w = (Ret tt, w') -> run_kept w w' -> in_step w'.
Proof.
  intros (Htk & l & Hl & Hsy) H [_ Hk2]. unfold exec_op, query_trace_runtime in H. bind_inv H v w1 H'. injection H as <-.
  bind_inv H' u w2 Hr. bind_inv H' resp w3 Hq. bind_inv H' w4 w4' Hget. injection Hget as <- <-. injection H' as _ <-.
  assert (fw_log w2 = Some l /\ tracked_ok (fw_facade w2) /\ synced run (fw_facade w2) l) as (Hl2 & Htk2 & Hsy2).
  { unfold _rebuild_trace_state_from_events in Hr. bind_inv Hr w0 w0' Hget. injection Hget as <- <-. rewrite Hl in Hr.
    unfold on_facade, py_zoom in Hr. destruct (decide (r = run)) as [->|Hne].
    - destruct (synced_rebuild run (fw_facade w) l Hsy) as (f' & He & _ & Hsy' & _ & Hord & Hset). rewrite He in Hr.
      injection Hr as _ <-. cbn. split_and!; [done| |done]. unfold tracked_ok. by rewrite Hord, Hset.
    - destruct (rebuild_from r _ (fw_facade w)) as [o f'] eqn:E. injection Hr as -> <-. cbn.
      apply rebuild_from_only in E as (Hother & Hoff & Hord & Hset). split_and!; [done| |].
      + unfold tracked_ok. by rewrite Hord, Hset.
      + eapply synced_frame; [exact Hsy|apply Hsy|done|by rewrite Hother|by apply Hoff]. }
  unfold query_run in Hq. bind_inv Hq pr w5 Hg. bind_inv Hq u' w6 Hm. injection Hm as <- <-. injection Hq as _ <-.
  unfold on_gateway, py_zoom in Hg. pose proof (Hquery r (fw_log w2, fw_rest w2) l Hl2 (sy_wf _ _ _ Hsy2)) as (l' & Hl' & Hwf' & He).
  destruct (fp_query_projection P r (fw_log w2, fw_rest w2)) as [o lt]. injection Hg as -> <-. cbn in *.
  split; [done|]. exists l'. split; [done|]. by eapply synced_frame.
Qed.

(** Every call that returns and disturbs nothing keeps the run in step with its log. *)
Lemma exec_step op w w' : in_step w -> op_ok op (fw_facade w) -> exec_op op w = (Ret tt, w') -> run_kept w w' -> in_step w'.
Proof.
  intros Hin Hok H Hk. destruct op; cbn [exec_op] in H.
  - exact (open_stage_step _ _ _ _ _ Hin Hok H Hk).
  - exact (mark_stage_step _ _ _ _ _ _ Hin Hok H Hk).
  - exact (open_branch_step _ _ _ Hin Hok H Hk).
  - exact (mark_branch_step _ _ _ Hin H Hk).
  - exact (open_gate_step _ _ _ Hin H Hk).
  - exact (approve_step _ _ _ Hin H Hk).
  - exact (resolve_step _ _ _ _ _ Hin H Hk).
  - exact (query_step _ _ _ Hin H Hk).
Qed.

Lemma trace_steps_in_step w w' : trace_steps w w' -> in_step w -> in_step w'.
Proof. induction 1 as [|w w1 op w2 _ IH Hok He Hk]; [done|]. intros Hin. exact (exec_step op w1 w2 (IH Hin) Hok He Hk). Qed.

Lemma fresh_in_step w l : fw_facade w = new_facade -> fw_log w = Some l -> log_reachable l -> trace_events run l = [] -> in_step w.
Proof.
  intros Hf Hl Hr%reachable_wf He. split; [rewrite Hf; split; [constructor|done]|]. exists l. split; [done|]. rewrite Hf.
  split; [done|done|]. exists []. rewrite He. split_and!; [constructor|constructor|constructor|done].
Qed.

Lemma resolved_sub acts : resolved_refs acts ⊆ gate_refs acts.
Proof. unfold resolved_refs, gate_refs. induction acts as [|[] acts IH]; simpl; set_solver. Qed.

(** What a new facade makes of the log a facade wrote. *)
Lemma fresh_rebuild w w' l : fw_facade w = new_facade -> fw_log w = Some l -> log_reachable l -> trace_events run l = [] ->
  trace_steps w w' -> exists l' g', fw_log w' = Some l' /\ synced run (fw_facade w') l' /\
    rebuild_from run (fun after => load run after l') new_facade = (Ret tt, g') /\
    view_of run g' ≡ view_of run (fw_facade w') /\ _gate_resolutions g' = ∅ /\
    rv_resolved (view_of run g') ⊆ rv_open (view_of run g').
Proof.
  intros Hf Hl Hr He Hs. destruct (trace_steps_in_step w w' Hs (fresh_in_step w l Hf Hl Hr He)) as (_ & l' & Hl' & Hsy).
  pose proof Hsy as [Hwf _ (acts & Hp & _ & _ & Hv')].
  destruct (rebuild_events_parsed run _ acts new_facade Hp) as (g1 & Hg & Hvg & _ & _ & _ & _ & Hres & _).
  exists l'. eexists. split_and!; [done|done| | | |].
  - rewrite rebuild_from_eq. cbv zeta. change (default 0 (_rebuild_offsets new_facade !! run)) with 0. unfold trace_events in Hg. by rewrite Hg.
  - change (view_of run (set_offsets ?o ?f)) with (view_of run f). rewrite Hvg. by rewrite Hv'.
  - exact Hres.
  - change (view_of run (set_offsets ?o ?f)) with (view_of run f). rewrite Hvg, foldl_act_view. cbn [rv_resolved rv_open].
    pose proof (resolved_sub acts) as Hsub. revert Hsub. generalize (resolved_refs acts) (gate_refs acts). intros rs gs Hsub.
    change (rv_resolved (view_of run new_facade)) with (∅ : gset string). change (rv_open (view_of run new_facade)) with (∅ : gset string).
    set_solver.
Qed.

(** C4: a facade and a new one that only has its event log agree on the branches of a run
    and their order, its stages, the gates that are resolved and those that are pending
    (open and not resolved), after any sequence of stage, branch, gate, approval,
    escalation and query calls for this and other runs that all returned; and when the
    first facade brings itself up to date from its own log, none of these change.  The calls open each
    branch and each stage of the run once and give no empty failure code, the run is
    evicted neither from the facade nor from the log, and the collaborators append no event of the run.
    What is not the same is the verdict on a resolved gate ([rejection_forgotten]), and a
    branch that is opened again ([reopened_branch_overwritten]). *)
Theorem facade_matches_log w w' l : fw_facade w = new_facade -> fw_log w = Some l -> log_reachable l -> trace_events run l = [] ->
  trace_steps w w' ->
  exists l' f' g', fw_log w' = Some l' /\
    rebuild_from run (fun after => load run after l') new_facade = (Ret tt, g') /\
    rebuild_from run (fun after => load run after l') (fw_facade w') = (Ret tt, f') /\
    view_of run g' ≡ view_of run (fw_facade w') /\ view_of run f' ≡ view_of run (fw_facade w').
Proof.
  intros Hf Hl Hr He Hs. destruct (fresh_rebuild w w' l Hf Hl Hr He Hs) as (l' & g' & Hl' & Hsy & Hg & Hv & _ & _).
  destruct (synced_rebuild run (fw_facade w') l' Hsy) as (f' & Hf' & Hvf & _).
  by exists l', f', g'.
Qed.

End calls.

(** An example: a facade over collaborators that answer at once. *)
Definition example_ports : facade_ports unit unit :=
  mkPorts unit unit (fun _ _ => mret tt) (fun _ => mret [("run_id", "r")]) (fun _ _ => mret [("run_id", "c")]) (fun _ _ => mret tt)
    (fun r => mret (mkRunProjection r ls_ready 3 false true None None None [] None None)) (fun _ _ _ => mret tt)
    None true 10000 (fun s => s) (fun t => (mkStamp "2026-01-01T00:00:00+00:00" 0, t)) (fun t => ("id", t)).

Definition example_world : fworld unit := mkFW new_facade None None 0 (Some empty_log) [] tt.

Definition example_gate (run : string) : HumanGateRequest :=
  mkGateRequest "g" "final_approval" run "submission" "system" None None None None (mkSpine "t" "u" "s" "p").

Definition example_ops : list trace_op := [
  t_open_stage "s1" "r" None;
  t_open_branch (mkOpenBranch "r" "b1" "s1" None (Some "model"));
  t_open_branch (mkOpenBranch "r" "b2" "s1" (Some "b1") None);
  t_mark_branch (mkBranchUpdate "r" "b1" "failed" (Some "no_progress") None);
  t_query "r";
  t_open_gate (example_gate "r");
  t_approve (mkApproval "r" "g" false "ann" None None);
  t_mark_stage "r" "s1" "completed" None
].

Definition run_ops {T A} (P : facade_ports T A) (ops : list trace_op) (w : fworld T) : fworld T :=
  foldl (fun w op => (exec_op P op w).2) w ops.

(** The checks of [trace_steps] as a function, for runs that are not touched by others. *)
Definition op_okb (run : string) (op : trace_op) (f : kernel_facade) : bool :=
  match op with
  | t_open_stage s _ _ => negb (od_mem s (rv_stages (view_of run f)))
  | t_open_branch q => negb (od_mem (ob_branch_id q) (rv_branches (view_of run f)))
  | t_mark_stage _ _ _ c => negb (bool_decide (c = Some ""))
  | _ => true
  end.

Definition keptb {T} (run : string) (w w' : fworld T) : bool :=
  (negb (bool_decide (run ∈ _tracked_run_set (fw_facade w))) || bool_decide (run ∈ _tracked_run_set (fw_facade w'))) &&
  match fw_log w, fw_log w' with
  | Some l, Some l' => match trace_events run l' with [] => match trace_events run l with [] => true | _ => false end | _ => true end
  | _, _ => true
  end.

Fixpoint stepsb {T A} (P : facade_ports T A) (run : string) (ops : list trace_op) (w : fworld T) : bool :=
  match ops with
  | [] => true
  | op :: rest =>
      let w' := (exec_op P op w).2 in
      op_okb run op (fw_facade w) && bool_decide ((exec_op P op w).1 = Ret tt) && keptb run w w' && stepsb P run rest w'
  end.

Lemma od_mem_false {V} k (d : odict string V) : negb (od_mem k d) = true -> od_get k d = None.
Proof. unfold od_mem. by destruct (od_get k d). Qed.

Lemma stepsb_steps {T A} (P : facade_ports T A) run ops w w' : trace_steps P run w w' -> stepsb P run ops w' = true ->
  trace_steps P run w (run_ops P ops w').
Proof.
  revert w'. induction ops as [|op ops IH]; intros w' Hs; [done|]. cbn [stepsb].
  rewrite !andb_true_iff, bool_decide_eq_true. intros [[[Hok Hr] Hk] Hrest]. apply IH; [|done].
  apply (ts_step _ _ _ _ op _ Hs).
  - destruct op; cbn in *; intros; try done; [by apply od_mem_false| |by apply od_mem_false].
    apply negb_true_iff, bool_decide_eq_false in Hok. done.
  - rewrite <-Hr. by destruct (exec_op P op w').
  - unfold keptb in Hk. apply andb_true_iff in Hk as [Hk1 Hk2]. split.
    + intros Hin. rewrite (bool_decide_true _ Hin) in Hk1. by apply bool_decide_eq_true in Hk1.
    + intros l l' Hl Hl' He. rewrite Hl, Hl', He in Hk2. by destruct (trace_events run l).
Qed.

Lemma example_quiet : (forall r req, keeps (quiet "r") (fp_signal_workflow example_ports r req)) /\
  (forall r, keeps (quiet "r") (fp_query_projection example_ports r)).
Proof. split; intros; intros lt; reflexivity. Qed.

Lemma facade_matches_log_witness : exists l' f' g', fw_log (run_ops example_ports example_ops example_world) = Some l' /\
  rebuild_from "r" (fun after => load "r" after l') new_facade = (Ret tt, g') /\
  rebuild_from "r" (fun after => load "r" after l') (fw_facade (run_ops example_ports example_ops example_world)) = (Ret tt, f') /\
  view_of "r" g' ≡ view_of "r" (fw_facade (run_ops example_ports example_ops example_world)) /\
  view_of "r" f' ≡ view_of "r" (fw_facade (run_ops example_ports example_ops example_world)).
Proof.
  apply (facade_matches_log example_ports "r" (proj1 example_quiet) (proj2 example_quiet) ltac:(done) example_world _ empty_log);
    [done|done|constructor|done|].
  apply stepsb_steps; [constructor|vm_compute; reflexivity].
Defined.

