(* ===== verification/FacadeCalls.v ===== *)
(** * Approvals, draining, cancellation and bounds of the kernel facade

    What holds of every call of the facade, however its collaborators answer. *)

From stdpp Require Import base tactics option list gmap strings.
From Stdlib Require Import ZArith.
From S2P Require Import Prelude PyStr PyDict PyVal Contracts EventLog AgentCore Facade FacadeRebuild FacadeProps.
#[local] Arguments String.append : simpl nomatch.
#[local] Arguments append_action_commit : simpl never.
#[local] Open Scope Z_scope.

Section approvals.
Context {T A : Type} (P : facade_ports T A).
Implicit Types w : fworld T.

(** The approvals of a reference the gateway was given for a run. *)
Definition is_approval (run ref : string) (s : string * SignalRunRequest) : bool :=
  bool_decide (s.1 = run) && bool_decide (sr_signal_type s.2 = "approval_submitted") &&
  bool_decide (as_str (pd_get (or_empty (sr_signal_payload s.2)) "approval_ref") = Some ref).

Definition forwarded (run ref : string) w : nat := length (filter (is_approval run ref) (fw_signals w)).

(** Code that neither submits an approval of the reference nor evicts anything. *)
Definition no_approval (run ref : string) w w' : Prop :=
  _submitted_approvals (fw_facade w') = _submitted_approvals (fw_facade w) /\
  _tracked_run_order (fw_facade w') = _tracked_run_order (fw_facade w) /\
  _tracked_run_set (fw_facade w') = _tracked_run_set (fw_facade w) /\
  forwarded run ref w' = forwarded run ref w.

#[export] Instance no_approval_preorder run ref : PreOrder (no_approval run ref).
Proof. split; [done|]. unfold no_approval. intros ??? (? & ? & ? & ?) (? & ? & ? & ?). split_and!; congruence. Qed.

Lemma facade_no_approval run ref g : (forall f, _submitted_approvals (g f) = _submitted_approvals f /\
    _tracked_run_order (g f) = _tracked_run_order f /\ _tracked_run_set (g f) = _tracked_run_set f) ->
  keeps (no_approval run ref) (on_facade (py_modify g) : PyM (fworld T) unit).
Proof. intros Hg w. destruct (Hg (fw_facade w)) as (? & ? & ?). by split_and!. Qed.

Lemma gateway_no_approval {B} run ref (m : PyM _ B) : keeps (no_approval run ref) (on_gateway m : PyM (fworld T) B).
Proof. by apply keeps_zoom. Qed.

Lemma now_no_approval run ref : keeps (no_approval run ref) (now P).
Proof. by apply keeps_zoom. Qed.

Lemma append_no_approval run ref r type payload : keeps (no_approval run ref) (_append_trace_event P r type payload).
Proof.
  unfold _append_trace_event, now, uuid4, on_rest. apply keeps_get_bind. intros w. destruct (fw_log w); [|done].
  revert w. match goal with |- forall w, no_approval _ _ w (?m w).2 => change (keeps (no_approval run ref) m) end.
  repeat (apply keeps_bind; [apply _|by apply keeps_zoom|intros ?]). by apply keeps_zoom.
Qed.

Lemma signal_no_approval run ref r req : is_approval run ref (r, req) = false ->
  keeps (no_approval run ref) (signal_workflow P r req).
Proof.
  intros Hf. apply keeps_bind; [apply _| |intros _; by apply keeps_zoom]. intros w. unfold no_approval, forwarded. cbn.
  split_and!; [done..|]. rewrite filter_app, filter_cons, decide_False by (rewrite Hf; by intros []). by rewrite app_nil_r.
Qed.

Lemma rebuild_no_approval run ref r : keeps (no_approval run ref) (_rebuild_trace_state_from_events r : PyM (fworld T) unit).
Proof.
  unfold _rebuild_trace_state_from_events. apply keeps_get_bind. intros w. destruct (fw_log w) as [l|]; [|done].
  unfold on_facade, py_zoom. rewrite rebuild_from_eq. cbv zeta.
  pose proof (rebuild_events_only r (filter is_trace (load r (default 0 (_rebuild_offsets (fw_facade w) !! r)) l)) (fw_facade w)) as Hk.
  destruct (rebuild_events r _ (fw_facade w)) as [[[]|e] f1]; cbn [snd] in Hk; destruct Hk as (_ & _ & Hord & Hset & _ & Hs); by split_and!.
Qed.

Lemma query_no_approval run ref r : keeps (no_approval run ref) (query_run P r).
Proof.
  unfold query_run. apply keeps_bind; [apply _|apply gateway_no_approval|]. intros p.
  apply keeps_bind; [apply _|by apply keeps_modify|]. intros _. apply keeps_ret, _.
Qed.

(** The rest of an operation, after its touch. *)
Lemma announce_no_approval run ref r g req type payload :
  (forall f, _submitted_approvals (g f) = _submitted_approvals f /\
    _tracked_run_order (g f) = _tracked_run_order f /\ _tracked_run_set (g f) = _tracked_run_set f) ->
  is_approval run ref (r, req) = false -> keeps (no_approval run ref) (announce P r g req type payload).
Proof.
  intros Hg Hr. unfold announce. apply keeps_bind; [apply _|by apply facade_no_approval|]. intros _.
  apply keeps_bind; [apply _|by apply signal_no_approval|]. intros _. apply append_no_approval.
Qed.

(** A call that is not this approval: it touches a run, and does nothing else that matters here. *)
Definition touches_only (run ref : string) (op : trace_op) (m : PyM (fworld T) unit) : Prop := forall w,
  match op_touches op with
  | Some r => no_approval run ref (touch P r w).2 (m w).2
  | None => no_approval run ref w (m w).2
  end.

Lemma touch_then run ref r (k : unit -> PyM (fworld T) unit) : keeps (no_approval run ref) (k tt) ->
  forall w, no_approval run ref (touch P r w).2 ((touch P r ≫= k) w).2.
Proof. intros Hk w. unfold mbind, PyM_bind, touch, on_facade, py_zoom, py_modify. apply Hk. Qed.

Definition is_this_approval (run ref : string) (op : trace_op) : bool :=
  match op with t_approve q => bool_decide (aq_run_id q = run /\ aq_approval_ref q = ref) | _ => false end.

Ltac no_approval_simple := first [apply keeps_ret, _ | apply keeps_raise, _ | apply now_no_approval | apply query_no_approval | apply rebuild_no_approval].

Lemma op_touches_only run ref op : (forall q, op <> t_approve q) -> touches_only run ref op (exec_op P op).
Proof.
  assert (forall r req, sr_signal_type req <> "approval_submitted" -> is_approval run ref (r, req) = false) as Hsig.
  { intros r req Hne. unfold is_approval. cbn. rewrite (bool_decide_false (_ = "approval_submitted")) by done. by rewrite andb_false_r. }
  intros Hna w. destruct op; cbn [op_touches exec_op].
  - apply touch_then. apply keeps_bind; [apply _|apply now_no_approval|]. intros t. by apply announce_no_approval; [|apply Hsig].
  - apply touch_then. apply keeps_get_bind. intros w1. destruct (od_get stage_id _) as [x|]; [|done].
    revert w1. match goal with |- forall w, no_approval _ _ w (?m w).2 => change (keeps (no_approval run ref) m) end.
    apply keeps_bind; [apply _| |intros xt; by apply announce_no_approval; [|apply Hsig]].
    case_bool_decide; [|apply keeps_ret, _]. apply keeps_bind; [apply _|apply now_no_approval|]. intros t. apply keeps_ret, _.
  - apply touch_then. apply keeps_bind; [apply _|apply now_no_approval|]. intros t. by apply announce_no_approval; [|apply Hsig].
  - apply touch_then. apply keeps_get_bind. intros w1. destruct (od_get (bu_branch_id request) _) as [x|]; [|done].
    revert w1. match goal with |- forall w, no_approval _ _ w (?m w).2 => change (keeps (no_approval run ref) m) end.
    by apply announce_no_approval; [|apply Hsig].
  - apply touch_then. by apply announce_no_approval; [|apply Hsig].
  - by destruct (Hna request).
  - apply touch_then. apply keeps_bind; [apply _|by apply signal_no_approval, Hsig|]. intros _. apply append_no_approval.
  - unfold query_trace_runtime.
    match goal with |- no_approval _ _ w (?m w).2 => assert (keeps (no_approval run ref) m) as Hk; [|apply Hk] end.
    apply keeps_bind; [apply _| |intros _; apply keeps_ret, _].
    apply keeps_bind; [apply _|apply rebuild_no_approval|]. intros _.
    apply keeps_bind; [apply _|apply query_no_approval|]. intros resp.
    apply keeps_bind; [apply _|apply keeps_get, _|]. intros w1. apply keeps_ret, _.
Qed.

(** What eviction leaves of the submitted approvals. *)
Lemma evict_while_submitted run (ref : string) n m f : tracked_ok f ->
  run ∈ _tracked_run_set (evict_while n m f) \/ run ∉ _tracked_run_set f ->
  ((run, ref) ∈ _submitted_approvals (evict_while n m f) <-> (run, ref) ∈ _submitted_approvals f).
Proof.
  revert f. induction n as [|n IH]; intros f Hf; [done|]. simpl. case_bool_decide; [|done]. intros Hx.
  rewrite IH; [|by apply evict_oldest_ok|]; last first.
  { destruct Hx as [Hx|Hx]; [by left|right]. intros ?%evict_oldest_sub. done. }
  unfold _evict_oldest_run in *. destruct (_tracked_run_order f) as [|o order] eqn:E; [done|]. cbn.
  rewrite elem_of_filter. cbn. split; [tauto|]. intros Hin. split; [|done]. intros ->.
  destruct Hx as [Hx%evict_while_sub|Hx].
  - cbn in Hx. set_solver.
  - apply Hx. destruct Hf as [_ ->]. rewrite E. set_solver.
Qed.

Lemma touch_submitted m run ref r f : tracked_ok f -> 1 <= m ->
  (run ∈ _tracked_run_set f -> run ∈ _tracked_run_set (_touch_run m r f)) ->
  ((run, ref) ∈ _submitted_approvals (_touch_run m r f) <-> (run, ref) ∈ _submitted_approvals f).
Proof.
  intros Hf Hm Hk. unfold _touch_run in *. case_decide as Hr; [done|].
  rewrite (evict_while_submitted run ref _ _ (touched_facade r f)); [done|by apply touched_ok|].
  destruct (decide (run ∈ _tracked_run_set f)) as [Hin|Hin]; [left; by apply Hk|].
  destruct (decide (r = run)) as [->|Hne]; [left|right; cbn; set_solver].
  pose proof (touch_self m run f Hm Hf) as Hs. unfold _touch_run in Hs. by rewrite decide_False in Hs.
Qed.

(** A guarded call runs its body between the counts, and answers as it does. *)
Lemma guard_effect {B} op (m : PyM (fworld T) B) w : _draining (fw_facade w) = false ->
  exists n n', _guard_write_operation P op m w = ((m (set_in_flight n w)).1, set_in_flight n' (m (set_in_flight n w)).2).
Proof.
  intros Hd. unfold _guard_write_operation, mbind, PyM_bind, py_get. rewrite Hd. unfold py_finally, drain_enter, drain_exit, py_modify.
  destruct (fp_has_drain_coordinator P).
  - exists (fw_in_flight w + 1). destruct (m (set_in_flight (fw_in_flight w + 1) w)) as [o w']. by eexists.
  - exists (fw_in_flight w), (fw_in_flight (m w).2). destruct w. cbn. by destruct (m _) as [o []].
Qed.

Definition approval_request (q : ApprovalRequest) : SignalRunRequest :=
  mkSignalRun (aq_run_id q) "approval_submitted"
    (Some ([("approval_ref", PStr (aq_approval_ref q)); ("approved", PBool (aq_approved q));
            ("reviewer_id", PStr (aq_reviewer_id q)); ("reason", opt_val PStr (aq_reason q))] ++
           _build_signal_observability "submit_approval" (aq_run_id q) (aq_caused_by q)))
    (Some (default ("approval:" +:+ aq_approval_ref q) (py_or (aq_caused_by q) None))).

Lemma is_approval_request run ref q : is_approval run ref (aq_run_id q, approval_request q) =
  bool_decide ((aq_run_id q, aq_approval_ref q) = (run, ref)).
Proof.
  unfold is_approval. cbn. repeat case_bool_decide; try done; naive_solver.
Qed.

(** Handing an approval to the gateway and recording it. *)
Lemma forward_effect q w :
  let w' := ((_ ← signal_workflow P (aq_run_id q) (approval_request q);
              _append_trace_event P (aq_run_id q) "trace.human_gate_resolved"
                [("gate_ref", PStr (aq_approval_ref q)); ("approved", PBool (aq_approved q))]) w).2 in
  fw_facade w' = fw_facade w /\
  forall run ref, forwarded run ref w' = (forwarded run ref w + if decide ((aq_run_id q, aq_approval_ref q) = (run, ref)) then 1 else 0)%nat.
Proof.
  intros w'. split.
  { apply (keeps_bind same_facade); [apply signal_same|]. intros _. apply append_same. }
  intros run ref. set (w1 := mkFW (fw_facade w) (fw_context w) (fw_checkpoint w) (fw_in_flight w) (fw_log w)
    (fw_signals w ++ [(aq_run_id q, approval_request q)]) (fw_rest w)).
  assert (no_approval run ref w1 w') as (_ & _ & _ & ->).
  { assert (keeps (no_approval run ref) (_ ← on_gateway (fp_signal_workflow P (aq_run_id q) (approval_request q));
      _append_trace_event P (aq_run_id q) "trace.human_gate_resolved"
        [("gate_ref", PStr (aq_approval_ref q)); ("approved", PBool (aq_approved q))])) as Hk; [|exact (Hk w1)].
    apply keeps_bind; [apply _|apply gateway_no_approval|]. intros _. apply append_no_approval. }
  unfold forwarded, w1. cbn [fw_signals].
  rewrite filter_app, length_app, filter_cons, filter_nil, is_approval_request. case_bool_decide; cbn; by repeat case_decide.
Qed.

(** The facade with an approval noted. *)
Definition noted (q : ApprovalRequest) (f : kernel_facade) : kernel_facade :=
  set_gates (_open_human_gates f)
    (<[aq_run_id q := {[aq_approval_ref q]} ∪ of_run (aq_run_id q) (_resolved_human_gates f)]> (_resolved_human_gates f))
    (_gate_types f)
    (<[aq_run_id q := <[aq_approval_ref q := (if aq_approved q then "approved" else "rejected")]>
                   (of_run (aq_run_id q) (_gate_resolutions f))]> (_gate_resolutions f))
    (_gate_spines f) (set_approvals ({[(aq_run_id q, aq_approval_ref q)]} ∪ _submitted_approvals f) f).

(** What submitting an approval does, whatever its result. *)
Lemma submit_effect q w : _draining (fw_facade w) = false ->
  let f1 := _touch_run (fp_max_tracked_runs P) (aq_run_id q) (fw_facade w) in
  let w' := (submit_approval P q w).2 in
  if decide ((aq_run_id q, aq_approval_ref q) ∈ _submitted_approvals f1)
  then fw_facade w' = f1 /\ fw_signals w' = fw_signals w /\ (submit_approval P q w).1 = Ret tt
  else fw_facade w' = noted q f1 /\
    forall run ref, forwarded run ref w' = (forwarded run ref w + if decide ((aq_run_id q, aq_approval_ref q) = (run, ref)) then 1 else 0)%nat.
Proof.
  intros Hd f1 w'. unfold w', submit_approval. clear w'.
  match goal with |- context [_guard_write_operation P ?op ?m w] => set (body := m) end.
  destruct (guard_effect "submit_approval" body w Hd) as (n & n' & ->). cbn [fst snd]. set (w0 := set_in_flight n w).
  set (w1 := mkFW f1 (fw_context w) (fw_checkpoint w) n (fw_log w) (fw_signals w) (fw_rest w)).
  set (w3 := mkFW (noted q f1) (fw_context w) (fw_checkpoint w) n (fw_log w) (fw_signals w) (fw_rest w)).
  assert (body w0 = if decide ((aq_run_id q, aq_approval_ref q) ∈ _submitted_approvals f1) then (Ret tt, w1)
    else (_ ← signal_workflow P (aq_run_id q) (approval_request q);
          _append_trace_event P (aq_run_id q) "trace.human_gate_resolved"
            [("gate_ref", PStr (aq_approval_ref q)); ("approved", PBool (aq_approved q))]) w3) as ->.
  { change (body w0) with ((if decide ((aq_run_id q, aq_approval_ref q) ∈ _submitted_approvals f1) then mret tt
      else _ ← on_facade (py_modify (noted q)); _ ← signal_workflow P (aq_run_id q) (approval_request q);
          _append_trace_event P (aq_run_id q) "trace.human_gate_resolved"
            [("gate_ref", PStr (aq_approval_ref q)); ("approved", PBool (aq_approved q))]) w1).
    by destruct (decide _). }
  clear body w0. change (fw_facade (set_in_flight n' ?x)) with (fw_facade x).
  change (fw_signals (set_in_flight n' ?x)) with (fw_signals x). unfold forwarded. change (fw_signals (set_in_flight n' ?x)) with (fw_signals x).
  destruct (decide ((aq_run_id q, aq_approval_ref q) ∈ _submitted_approvals f1)) as [Hin|Hin]; [done|].
  exact (forward_effect q w3).
Qed.

(** Any calls of the facade in sequence, whatever they answer, none of which evicts the run. *)
Inductive calls (run : string) : fworld T -> fworld T -> Prop :=
  | c_refl w : calls run w w
  | c_op w w1 op : calls run w w1 ->
      (run ∈ _tracked_run_set (fw_facade w1) -> run ∈ _tracked_run_set (fw_facade (exec_op P op w1).2)) ->
      calls run w (exec_op P op w1).2
  | c_draining w w1 b : calls run w w1 -> calls run w (on_facade (py_modify (set_draining b)) w1).2.

(** The gate against double submission. *)
Record deduped (run ref : string) w : Prop := {
  dd_tracked : tracked_ok (fw_facade w);
  dd_run : (run, ref) ∈ _submitted_approvals (fw_facade w) -> run ∈ _tracked_run_set (fw_facade w);
  dd_once : (run, ref) ∈ _submitted_approvals (fw_facade w) -> (forwarded run ref w <= 1)%nat;
  dd_none : (run, ref) ∉ _submitted_approvals (fw_facade w) -> forwarded run ref w = 0%nat
}.

Lemma deduped_same run ref w w' : no_approval run ref w w' -> deduped run ref w -> deduped run ref w'.
Proof.
  intros (Hs & Ho & Ht & Hf) [H1 H2 H3 H4]. split; unfold tracked_ok; rewrite ?Hs, ?Ho, ?Ht, ?Hf; done.
Qed.

Lemma touch_in m run r f : 1 <= m -> tracked_ok f -> (run ∈ _tracked_run_set f -> run ∈ _tracked_run_set (_touch_run m r f)) ->
  run ∈ _tracked_run_set f \/ r = run -> run ∈ _tracked_run_set (_touch_run m r f).
Proof. intros Hm Hf Hk [?| ->]; [by apply Hk|by apply touch_self]. Qed.

Context (Hmax : 1 <= fp_max_tracked_runs P).

Lemma deduped_touch run ref r w : deduped run ref w ->
  (run ∈ _tracked_run_set (fw_facade w) -> run ∈ _tracked_run_set (_touch_run (fp_max_tracked_runs P) r (fw_facade w))) ->
  deduped run ref (touch P r w).2.
Proof.
  intros [H1 H2 H3 H4] Hk. pose proof (touch_submitted _ run ref r _ H1 Hmax Hk) as Hs.
  split; unfold touch, on_facade, py_zoom, py_modify; cbn [fst snd fw_facade]; [by apply touch_ok|rewrite Hs; auto..].
Qed.

Lemma deduped_submit run ref q w : deduped run ref w ->
  (run ∈ _tracked_run_set (fw_facade w) -> run ∈ _tracked_run_set (fw_facade (submit_approval P q w).2)) ->
  deduped run ref (submit_approval P q w).2.
Proof.
  intros Hdd Hk. destruct (_draining (fw_facade w)) eqn:Hd.
  { unfold submit_approval, _guard_write_operation, mbind, PyM_bind, py_get. by rewrite Hd. }
  pose proof (submit_effect q w Hd) as He. cbv zeta in He.
  set (f1 := _touch_run (fp_max_tracked_runs P) (aq_run_id q) (fw_facade w)) in *.
  assert (_tracked_run_set (fw_facade (submit_approval P q w).2) = _tracked_run_set f1) as Ht.
  { destruct (decide _); [by destruct He as [-> _]|by destruct He as [-> _]]. }
  rewrite Ht in Hk. pose proof (deduped_touch run ref (aq_run_id q) w Hdd Hk) as [H1 H2 H3 H4].
  change (fw_facade (touch P (aq_run_id q) w).2) with f1 in *. change (forwarded run ref (touch P (aq_run_id q) w).2) with (forwarded run ref w) in *.
  destruct (decide ((aq_run_id q, aq_approval_ref q) ∈ _submitted_approvals f1)) as [Hin|Hin].
  - destruct He as (Hf & Hsig & _). split; unfold forwarded; rewrite ?Hf, ?Hsig; done.
  - destruct He as (Hf & Hfw). specialize (Hfw run ref). split; rewrite Hf; unfold tracked_ok; cbn [noted _tracked_run_order _tracked_run_set _submitted_approvals set_gates set_approvals].
    + exact H1.
    + rewrite elem_of_union, elem_of_singleton. intros [[= -> _]|?]; [|auto]. apply touch_self; [done|apply Hdd].
    + rewrite elem_of_union, elem_of_singleton, Hfw. intros [Heq|Hs].
      * rewrite <-Heq in *. rewrite (H4 Hin). by case_decide.
      * case_decide as Heq; [rewrite Heq in Hin; done|]. specialize (H3 Hs). lia.
    + rewrite not_elem_of_union, not_elem_of_singleton, Hfw. intros [Hne Hs]. rewrite (H4 Hs).
      case_decide as Heq; [by rewrite Heq in Hne|done].
Qed.

Lemma deduped_calls run ref w w' : calls run w w' -> deduped run ref w -> deduped run ref w'.
Proof.
  induction 1 as [|w w1 op _ IH Hk|w w1 b _ IH]; [done| |].
  - intros Hdd%IH. assert ((exists q, op = t_approve q) \/ forall q, op <> t_approve q) as [[q ->]|Hna] by (destruct op; eauto; right; discriminate).
    { by apply deduped_submit. }
    pose proof (op_touches_only run ref op Hna w1) as Ht. unfold touches_only in Ht.
    destruct (op_touches op) as [r|]; [|by eapply deduped_same].
    eapply deduped_same; [exact Ht|]. apply deduped_touch; [done|]. destruct Ht as (_ & _ & Ht & _). rewrite Ht in Hk. exact Hk.
  - intros [H1 H2 H3 H4]%IH. by split.
Qed.

(** A submitted approval of a tracked run is dropped without a signal. *)
Lemma submit_again q w : _draining (fw_facade w) = false -> aq_run_id q ∈ _tracked_run_set (fw_facade w) ->
  (aq_run_id q, aq_approval_ref q) ∈ _submitted_approvals (fw_facade w) ->
  (submit_approval P q w).1 = Ret tt /\ fw_signals (submit_approval P q w).2 = fw_signals w /\
  fw_facade (submit_approval P q w).2 = fw_facade w.
Proof.
  intros Hd Ht Hs. pose proof (submit_effect q w Hd) as He. cbv zeta in He.
  assert (_touch_run (fp_max_tracked_runs P) (aq_run_id q) (fw_facade w) = fw_facade w) as E by (unfold _touch_run; by rewrite decide_True).
  rewrite E, decide_True in He by done. tauto.
Qed.

(** C35: however a facade is called, and however the gateway and the log answer, an approval
    of a run that is not evicted reaches the gateway at most once; and once it was submitted,
    submitting it again returns without sending anything. *)
Theorem approval_forwarded_once run ref w w' : fw_facade w = new_facade -> fw_signals w = [] -> calls run w w' ->
  (forwarded run ref w' <= 1)%nat /\
  forall q, aq_run_id q = run -> aq_approval_ref q = ref -> (run, ref) ∈ _submitted_approvals (fw_facade w') ->
    _draining (fw_facade w') = false ->
    (submit_approval P q w').1 = Ret tt /\ fw_signals (submit_approval P q w').2 = fw_signals w'.
Proof.
  intros Hf Hs Hc. assert (deduped run ref w') as [H1 H2 H3 H4].
  { apply (deduped_calls run ref w w' Hc). split; rewrite Hf.
    - split; [constructor|done].
    - done.
    - done.
    - intros _. unfold forwarded. by rewrite Hs. }
  split; [destruct (decide ((run, ref) ∈ _submitted_approvals (fw_facade w'))) as [Hin|Hin]; [by apply H3|by rewrite H4; [lia|]]|].
  intros q <- <- Hin Hd. destruct (submit_again q w' Hd (H2 Hin) Hin) as (? & ? & _). done.
Qed.

Lemma evict_while_draining n m f : _draining (evict_while n m f) = _draining f.
Proof.
  revert f. induction n as [|n IH]; intros f; [done|]. simpl. case_bool_decide; [|done]. rewrite IH.
  unfold _evict_oldest_run. by destruct (_tracked_run_order f).
Qed.

Lemma touch_draining m r f : _draining (_touch_run m r f) = _draining f.
Proof. unfold _touch_run. case_decide; [done|]. by rewrite evict_while_draining. Qed.

(** an approval whose signal fails is lost: the caller sees the exception, but the
    facade has already noted the approval, so the gate counts as resolved and every retry
    of the approval returns as if it had been submitted, without sending a signal. *)
Theorem failed_approval_lost q q' w w' e : tracked_ok (fw_facade w) -> _draining (fw_facade w) = false ->
  submit_approval P q w = (Raise e, w') -> aq_run_id q' = aq_run_id q -> aq_approval_ref q' = aq_approval_ref q ->
  aq_approval_ref q ∈ rv_resolved (view_of (aq_run_id q) (fw_facade w')) /\
  (submit_approval P q' w').1 = Ret tt /\ fw_signals (submit_approval P q' w').2 = fw_signals w' /\
  fw_facade (submit_approval P q' w').2 = fw_facade w'.
Proof.
  intros Htk Hd Hsub Hrun Href. pose proof (submit_effect q w Hd) as He. cbv zeta in He. rewrite Hsub in He. cbn [fst snd] in He.
  destruct (decide _) as [Hin|Hin]; [by destruct He as (_ & _ & ?)|]. destruct He as (Hf & _). split.
  - rewrite Hf. unfold view_of. cbn. rewrite of_run_insert. set_solver.
  - apply submit_again; rewrite ?Hrun, ?Href, Hf.
    + cbn. by rewrite touch_draining.
    + cbn [noted _tracked_run_set set_gates set_approvals]. by apply touch_self.
    + cbn. set_solver.
Qed.
End approvals.

(** Bounds ***********************************************************************************)

(** The runs the registries hold something of. *)
Definition held (f : kernel_facade) : gset string :=
  dom (_branch_registry f) ∪ dom (_stage_registry f) ∪ dom (_open_human_gates f) ∪ dom (_resolved_human_gates f) ∪
  dom (_gate_types f) ∪ dom (_gate_resolutions f) ∪ dom (_gate_spines f) ∪ dom (_rebuild_offsets f) ∪ set_map fst (_submitted_approvals f).

(** Tracked runs are consistent, and nothing is held of others. *)
Definition bounded (m : Z) (f : kernel_facade) : Prop :=
  tracked_ok f /\ held f ⊆ _tracked_run_set f /\ Z.of_nat (size (_tracked_run_set f)) <= m.

Lemma held_purge r f : held (_purge_run_state r f) ⊆ held f ∖ {[r]}.
Proof.
  unfold held. cbn. rewrite !dom_delete_L. intros x.
  rewrite !elem_of_union, !elem_of_difference, !elem_of_union, !elem_of_map, not_elem_of_singleton.
  intros [[[[[[[[[]|[]]|[]]|[]]|[]]|[]]|[]]|[]]|(k & -> & [Hk Hin]%elem_of_filter)]; (split; [tauto|done]) || (split; [|done]; right; by exists k).
Qed.

Lemma evict_oldest_held f : tracked_ok f -> held f ⊆ _tracked_run_set f -> held (_evict_oldest_run f) ⊆ _tracked_run_set (_evict_oldest_run f).
Proof.
  intros Hok Hh. unfold _evict_oldest_run. destruct (_tracked_run_order f) as [|o order]; [done|].
  pose proof (held_purge o (set_tracked order (_tracked_run_set f ∖ {[o]}) f)) as Hp.
  change (held (set_tracked order (_tracked_run_set f ∖ {[o]}) f)) with (held f) in Hp. cbn [_tracked_run_set _purge_run_state set_tracked]. set_solver.
Qed.

Lemma evict_while_held n m f : tracked_ok f -> held f ⊆ _tracked_run_set f -> held (evict_while n m f) ⊆ _tracked_run_set (evict_while n m f).
Proof.
  revert f. induction n as [|n IH]; intros f Hok Hh; [done|]. simpl. case_bool_decide; [|done].
  apply IH; [by apply evict_oldest_ok|by apply evict_oldest_held].
Qed.

Lemma touch_bounded m r f : 0 <= m -> bounded m f -> bounded m (_touch_run m r f).
Proof.
  intros Hm (Hok & Hh & Hsz). split_and!; [by apply touch_ok| |by apply touch_bound].
  unfold _touch_run. case_decide; [done|]. apply evict_while_held; [by apply touched_ok|].
  change (held f ⊆ {[r]} ∪ _tracked_run_set f). set_solver.
Qed.

Lemma elem_of_remove_first x y l : NoDup l -> (y ∈ remove_first x l <-> y ∈ l /\ y <> x).
Proof.
  induction l as [|z l IH]; intros Hn; simpl; [set_solver|]. apply NoDup_cons in Hn as [Hz Hn].
  case_decide; [subst; rewrite elem_of_cons; naive_solver|]. rewrite !elem_of_cons, IH by done. naive_solver.
Qed.

Lemma NoDup_remove_first x l : NoDup l -> NoDup (remove_first x l).
Proof.
  induction l as [|z l IH]; intros Hn; simpl; [done|]. apply NoDup_cons in Hn as [Hz Hn]. case_decide; [done|].
  apply NoDup_cons. split; [|by apply IH]. rewrite elem_of_remove_first by done. tauto.
Qed.

Lemma cleanup_bounded m r f : bounded m f -> bounded m (cleanup_completed_run r f).
Proof.
  intros ([Hn Hs] & Hh & Hsz). unfold cleanup_completed_run. split_and!.
  - split; cbn; [by apply NoDup_remove_first|]. apply set_eq. intros x.
    rewrite elem_of_difference, elem_of_list_to_set, elem_of_remove_first, Hs, elem_of_list_to_set, not_elem_of_singleton by done. done.
  - pose proof (held_purge r (set_tracked (remove_first r (_tracked_run_order f)) (_tracked_run_set f ∖ {[r]}) f)) as Hp.
    change (held (set_tracked _ _ f)) with (held f) in Hp. cbn [_tracked_run_set _purge_run_state set_tracked]. set_solver.
  - cbn. etrans; [|exact Hsz]. apply inj_le, subseteq_size. set_solver.
Qed.

Section bounds.
Context {T A : Type} (P : facade_ports T A).
Implicit Types w : fworld T.

(** A facade without an event log, on which an operation for a tracked run is at work. *)
Definition at_work (r : string) w w' : Prop :=
  fw_log w = None -> fw_log w' = None /\
  (r ∈ _tracked_run_set (fw_facade w) -> bounded (fp_max_tracked_runs P) (fw_facade w) ->
   r ∈ _tracked_run_set (fw_facade w') /\ bounded (fp_max_tracked_runs P) (fw_facade w')).

#[export] Instance at_work_preorder r : PreOrder (at_work r).
Proof.
  split; [done|]. intros x y z Hxy Hyz Hx. destruct (Hxy Hx) as [Hy Hxy']. destruct (Hyz Hy) as [Hz Hyz'].
  split; [done|]. intros Ht Hb. destruct (Hxy' Ht Hb). by apply Hyz'.
Qed.

(** Collaborators that do not come up with an event log. *)
Definition no_log (lt lt' : option event_log * T) : Prop := lt.1 = None -> lt'.1 = None.

Context (Hsignal : forall r req, keeps no_log (fp_signal_workflow P r req)).
Context (Hquery : forall r, keeps no_log (fp_query_projection P r)).
Context (Hmax : 1 <= fp_max_tracked_runs P).

Lemma gateway_at_work {B} r (m : PyM (option event_log * T) B) : keeps no_log m -> keeps (at_work r) (on_gateway m : PyM (fworld T) B).
Proof.
  intros Hm w Hl. unfold on_gateway, py_zoom. specialize (Hm (fw_log w, fw_rest w) Hl).
  destruct (m (fw_log w, fw_rest w)) as [o lt]. cbn in *. split; [exact Hm|done].
Qed.

Lemma now_at_work r : keeps (at_work r) (now P).
Proof. intros w Hl. unfold now, on_rest, py_zoom. by destruct (fp_now P (fw_rest w)). Qed.

Lemma signal_at_work r r' req : keeps (at_work r) (signal_workflow P r' req).
Proof. apply keeps_bind; [apply _|by apply keeps_modify|]. intros _. apply gateway_at_work, Hsignal. Qed.

Lemma append_at_work r r' type payload : keeps (at_work r) (_append_trace_event P r' type payload).
Proof. intros w Hl. unfold _append_trace_event, mbind, PyM_bind, py_get. by rewrite Hl. Qed.

(** An update of what is held of the run itself. *)
Lemma facade_at_work r g : (forall f, held (g f) ⊆ {[r]} ∪ held f /\ _tracked_run_order (g f) = _tracked_run_order f /\
    _tracked_run_set (g f) = _tracked_run_set f) ->
  keeps (at_work r) (on_facade (py_modify g) : PyM (fworld T) unit).
Proof.
  intros Hg w Hl. destruct (Hg (fw_facade w)) as (Hh & Ho & Hs). split; [done|]. intros Ht ([Hn Hset] & Hhe & Hsz). cbn.
  rewrite Hs. split; [done|]. unfold bounded, tracked_ok. rewrite Ho, Hs. split_and!; [done|done| |done]. etrans; [exact Hh|].
  apply union_subseteq. split; [by apply singleton_subseteq_l|done].
Qed.

Lemma announce_at_work r g req type payload :
  (forall f, held (g f) ⊆ {[r]} ∪ held f /\ _tracked_run_order (g f) = _tracked_run_order f /\ _tracked_run_set (g f) = _tracked_run_set f) ->
  keeps (at_work r) (announce P r g req type payload).
Proof.
  intros Hg. unfold announce. apply keeps_bind; [apply _|by apply facade_at_work|]. intros _.
  apply keeps_bind; [apply _|apply signal_at_work|]. intros _. apply append_at_work.
Qed.

(** The bound between operations. *)
Definition within w : Prop := fw_log w = None /\ bounded (fp_max_tracked_runs P) (fw_facade w).

Lemma touch_then_within r (k : unit -> PyM (fworld T) unit) w : keeps (at_work r) (k tt) -> within w ->
  within ((touch P r ≫= k) w).2.
Proof.
  intros Hk [Hl Hb]. unfold mbind, PyM_bind, touch, on_facade, py_zoom, py_modify.
  set (w1 := mkFW _ _ _ _ _ _ _). destruct (Hk w1 Hl) as [Hl' Hw]. split; [exact Hl'|].
  apply Hw; cbn [w1 fw_facade]; [apply touch_self; [done|apply Hb]|apply touch_bounded; [lia|done]].
Qed.

Ltac held_tac :=
  intros f; split; [|done]; intros y; unfold held;
  cbn [set_branches set_stages set_gates set_approvals _branch_registry _stage_registry _open_human_gates _resolved_human_gates
       _gate_types _gate_resolutions _gate_spines _rebuild_offsets _submitted_approvals];
  rewrite ?dom_insert_L, ?set_map_union_L, ?set_map_singleton_L, !elem_of_union, ?elem_of_singleton; cbn [fst]; tauto.
Ltac at_work_get := intros w1; match goal with |- context [od_get ?k ?d] => destruct (od_get k d) as [x|]; [|done] end;
  revert w1; match goal with |- forall w, at_work ?r w (?m w).2 => change (keeps (at_work r) m) end.

Lemma exec_within op w : within w -> within (exec_op P op w).2.
Proof.
  intros Hw. destruct op; cbn [exec_op].
  - apply touch_then_within; [|done]. apply keeps_bind; [apply _|apply now_at_work|]. intros t. apply announce_at_work. held_tac.
  - apply touch_then_within; [|done]. apply keeps_get_bind. at_work_get.
    apply keeps_bind; [apply _| |intros xt; apply announce_at_work; held_tac].
    case_bool_decide; [|apply keeps_ret, _]. apply keeps_bind; [apply _|apply now_at_work|]. intros t. apply keeps_ret, _.
  - apply touch_then_within; [|done]. apply keeps_bind; [apply _|apply now_at_work|]. intros t. apply announce_at_work. held_tac.
  - apply touch_then_within; [|done]. apply keeps_get_bind. at_work_get. apply announce_at_work. held_tac.
  - apply touch_then_within; [|done]. apply announce_at_work. held_tac.
  - destruct (_draining (fw_facade w)) eqn:Hd.
    { unfold submit_approval, _guard_write_operation, mbind at 1, PyM_bind at 1, py_get. by rewrite Hd. }
    unfold submit_approval. match goal with |- context [_guard_write_operation P ?op ?m w] => destruct (guard_effect P op m w Hd) as (n & n' & ->) end.
    change (within (set_in_flight n' ?x)) with (within x). cbn [snd]. apply touch_then_within; [|exact Hw].
    apply keeps_get_bind. intros w1. destruct (decide _) as [_|_]; [done|]. revert w1.
    match goal with |- forall w, at_work ?r w (?m w).2 => change (keeps (at_work r) m) end.
    apply keeps_bind; [apply _|apply facade_at_work; held_tac|]. intros _. apply announce_at_work. held_tac.
  - apply touch_then_within; [|done]. apply keeps_bind; [apply _|apply signal_at_work|]. intros _. apply append_at_work.
  - unfold query_trace_runtime, mbind, PyM_bind. destruct Hw as [Hl Hb].
    assert (_rebuild_trace_state_from_events run_id w = (Ret tt, w)) as ->.
    { unfold _rebuild_trace_state_from_events, mbind, PyM_bind, py_get. by rewrite Hl. }
    pose proof (Hquery run_id (fw_log w, fw_rest w) Hl) as Hq. unfold query_run, on_gateway, py_zoom, mbind, PyM_bind.
    by destruct (fp_query_projection P run_id (fw_log w, fw_rest w)) as [[p|e] lt].
Qed.

(** Any calls in sequence, the clean-up of finished runs among them. *)
Inductive any_calls : fworld T -> fworld T -> Prop :=
  | ac_refl w : any_calls w w
  | ac_op w w1 op : any_calls w w1 -> any_calls w (exec_op P op w1).2
  | ac_cleanup w w1 r : any_calls w w1 -> any_calls w (on_facade (py_modify (cleanup_completed_run r)) w1).2
  | ac_draining w w1 b : any_calls w w1 -> any_calls w (on_facade (py_modify (set_draining b)) w1).2.

(** C37: a new facade without event log, whatever stage, branch, gate, approval,
    escalation and trace calls it gets, whichever runs are cleaned up, whenever it is
    draining, and however the calls end, tracks at most the configured number of runs,
    each listed once in the order of eviction, and of any other run it holds nothing in any
    of the registries a purge clears: branches, stages, open and resolved gates, their
    types, verdicts and causes, offsets of rebuilding, submitted approvals. The
    collaborators do not come up with an event log, and the limit is at least one. Times of creation and end,
    child kinds and lists of children are not among these ([cleanup_keeps_created]). *)
Theorem facade_bounded w w' : fw_facade w = new_facade -> fw_log w = None -> any_calls w w' ->
  let f := fw_facade w' in
  Z.of_nat (size (_tracked_run_set f)) <= fp_max_tracked_runs P /\
  NoDup (_tracked_run_order f) /\
  (forall r, r ∈ _tracked_run_order f <-> r ∈ _tracked_run_set f) /\
  forall r, r ∉ _tracked_run_set f ->
    _branch_registry f !! r = None /\ _stage_registry f !! r = None /\
    _open_human_gates f !! r = None /\ _resolved_human_gates f !! r = None /\
    _gate_types f !! r = None /\ _gate_resolutions f !! r = None /\ _gate_spines f !! r = None /\
    _rebuild_offsets f !! r = None /\ (forall ref, (r, ref) ∉ _submitted_approvals f).
Proof.
  intros Hf Hl Hc. assert (within w') as [_ ([Hn Hs] & Hh & Hsz)].
  { assert (within w) as Hw.
    { split; [done|]. rewrite Hf. split_and!; [split; [constructor|done]|done|]. change (size (_tracked_run_set new_facade)) with 0%nat. lia. }
    induction Hc as [|w w1 op _ IH|w w1 r _ IH|w w1 b _ IH]; [done|by apply exec_within, IH| |].
    - destruct (IH Hf Hl Hw) as [Hl1 Hb1]. split; [done|]. by apply cleanup_bounded.
    - destruct (IH Hf Hl Hw) as [Hl1 Hb1]. by split. }
  split_and!; [done|done|intros r; rewrite Hs; by rewrite elem_of_list_to_set|].
  intros r Hr. assert (r ∉ held (fw_facade w')) as Hnh by (intros ?; by apply Hr, Hh).
  unfold held in Hnh. rewrite !not_elem_of_union, !not_elem_of_dom in Hnh.
  destruct Hnh as ((((((((H1 & H2) & H3) & H4) & H5) & H6) & H7) & H8) & H9). cbv zeta. split_and!; [done..|].
  intros ref Hin. apply H9, elem_of_map. by exists (r, ref).
Qed.
End bounds.

(** With an event log the bound does not hold: a query fills the registries of a run that
    is not tracked, so nothing evicts it. *)
Example query_untracked :
  let w := (exec_op example_ports (t_query "r")
    (mkFW new_facade None None 0 (fw_log (run_ops example_ports example_ops example_world)) [] tt)).2 in
  _tracked_run_order (fw_facade w) = [] /\ od_keys (rv_branches (view_of "r" (fw_facade w))) = ["b1"; "b2"].
Proof. split; vm_compute; reflexivity. Qed.

Lemma approval_forwarded_once_witness :
  (forwarded "r" "g" (run_ops example_ports [t_open_gate (example_gate "r"); t_approve (mkApproval "r" "g" true "ann" None None);
     t_approve (mkApproval "r" "g" false "bob" None None)] example_world) <= 1)%nat.
Proof.
  apply (approval_forwarded_once example_ports ltac:(done) "r" "g" example_world); [done|done|].
  do 3 (apply c_op; [|intros _; apply (bool_decide_unpack _); vm_compute; exact I]). apply c_refl.
Defined.

(** The same collaborators, with a gateway that fails. *)
Definition failing_ports : facade_ports unit unit :=
  mkPorts unit unit (fun _ _ => py_raise (RuntimeError "unavailable")) (fun _ => mret []) (fun _ _ => mret []) (fun _ _ => mret tt)
    (fp_query_projection example_ports) (fun _ _ _ => mret tt) None true 10000 (fun s => s) (fp_now example_ports) (fp_uuid4 example_ports).

Lemma failed_approval_lost_witness :
  let q := mkApproval "r" "g" true "ann" None None in
  (submit_approval failing_ports q example_world).1 = Raise (RuntimeError "unavailable") /\
  (submit_approval failing_ports q (submit_approval failing_ports q example_world).2).1 = Ret tt.
Proof.
  intros q. split; [reflexivity|].
  apply (failed_approval_lost failing_ports ltac:(done) q q example_world _ (RuntimeError "unavailable"));
    [split; [constructor|reflexivity]|reflexivity| |reflexivity|reflexivity].
  vm_compute. reflexivity.
Defined.

(** The same collaborators for a facade that tracks one run. *)
Definition one_run_ports : facade_ports unit unit :=
  mkPorts unit unit (fp_signal_workflow example_ports) (fun _ => mret []) (fun _ _ => mret []) (fun _ _ => mret tt)
    (fp_query_projection example_ports) (fun _ _ _ => mret tt) None true 1 (fun s => s) (fp_now example_ports) (fp_uuid4 example_ports).

Lemma facade_bounded_witness :
  let w := mkFW new_facade None None 0 None [] tt in
  let f := fw_facade (run_ops one_run_ports [t_open_stage "s" "r" None; t_open_gate (example_gate "r");
    t_approve (mkApproval "r" "g" true "ann" None None); t_open_stage "s" "r'" None] w) in
  _tracked_run_order f = ["r'"] /\ _resolved_human_gates f !! "r" = None /\ _gate_resolutions f !! "r" = None /\
  ("r", "g") ∉ _submitted_approvals f.
Proof.
  intros w f. split; [vm_compute; reflexivity|].
  destruct (facade_bounded one_run_ports (fun _ _ _ H => H) (fun _ _ H => H) ltac:(done) w (run_ops one_run_ports
    [t_open_stage "s" "r" None; t_open_gate (example_gate "r"); t_approve (mkApproval "r" "g" true "ann" None None); t_open_stage "s" "r'" None] w))
    as (_ & _ & _ & H); [reflexivity|reflexivity|unfold run_ops; cbn [foldl]; repeat apply ac_op; apply ac_refl|].
  destruct (H "r") as (_ & _ & _ & H4 & _ & H6 & _ & _ & H9); [by apply (bool_decide_unpack _); vm_compute|].
  by split_and!.
Defined.

(** Runs and their children ******************************************************************)

Lemma merge_children_spec active spawned : NoDup active ->
  NoDup (merge_children active spawned) /\ active `prefix_of` merge_children active spawned /\
  forall c, c ∈ merge_children active spawned <-> c ∈ active \/ c ∈ spawned.
Proof.
  unfold merge_children. revert active. induction spawned as [|c spawned IH]; intros active Hn; simpl.
  - split_and!; [done|done|set_solver].
  - case_decide as Hc.
    + destruct (IH active Hn) as (H1 & H2 & H3). split_and!; [done|done|]. intros x. rewrite H3, elem_of_cons. naive_solver.
    + destruct (IH (active ++ [c])) as (H1 & H2 & H3).
      { apply NoDup_app. split; [done|]. split; [by intros x Hx ->%list_elem_of_singleton|apply NoDup_singleton]. }
      split_and!; [done|etrans; [|exact H2]; by eexists|]. intros x. rewrite H3, elem_of_app, list_elem_of_singleton, elem_of_cons. tauto.
Qed.

Section runs.
Context {T A : Type} (P : facade_ports T A).
Implicit Types w : fworld T.

Lemma child_summary_id c w s w' : child_summary P c w = (Ret s, w') -> cr_child_run_id s = c.
Proof.
  intros H. unfold child_summary, py_except in H. match type of H with match ?m with _ => _ end = _ => destruct m as [[s1|e] w1] eqn:E end.
  - injection H as <- <-. bind_inv E r w2 Hq. bind_inv E o w3 Ho. bind_inv E w4 w5 Hg. by injection E as <- _.
  - destruct (is_exception e); [|done]. unfold mbind, PyM_bind, py_get in H. by injection H as <- _.
Qed.

(** A query for children answers for each child once: the active ones, then the other
    ones that were ever spawned, finished or not. *)
Lemma query_child_runs_ids parent w sums w' : query_child_runs P parent w = (Ret sums, w') ->
  exists response w1, query_run P parent w = (Ret response, w1) /\
    map cr_child_run_id sums = merge_children (qr_active_child_runs response) (default [] (_all_child_runs (fw_facade w1) !! parent)).
Proof.
  unfold query_child_runs. intros H. bind_inv H r w1 Hq. bind_inv H w2 w3 Hg. injection Hg as <- <-.
  exists r, w1. split; [done|]. revert H. generalize (merge_children (qr_active_child_runs r) (default [] (_all_child_runs (fw_facade w1) !! parent))).
  intros ids. clear Hq. revert w1 sums. induction ids as [|c ids IH]; intros w1 sums H; cbn [child_summaries] in H.
  - by injection H as <- _.
  - bind_inv H s w2 Hs. bind_inv H more w3 Hm. injection H as <- <-. cbn.
    rewrite (child_summary_id c w1 s w2 Hs). f_equal. exact (IH w2 more Hm).
Qed.

(** Cancelling signals first; the workflow is cancelled only when that returned, and only
    an error that says the run is over already is swallowed. *)
Lemma cancel_run_cases q w : let '(r1, w1) := signal_workflow P (cq_run_id q) (mkSignalRun (cq_run_id q) "cancel_requested"
      (Some (("reason", PStr (cq_reason q)) :: _build_signal_observability "cancel" (cq_run_id q) (cq_caused_by q))) (cq_caused_by q)) w in
  match r1 with
  | Raise e => cancel_run P q w = (Raise e, w1)
  | Ret _ =>
      let '(r2, w2) := on_gateway (fp_cancel_workflow P (cq_run_id q) (cq_reason q)) w1 in
      cancel_run P q w =
        (match r2 with
         | Ret u => Ret u
         | Raise e => if is_exception e && _is_expected_cancel_race_error e then Ret tt else Raise e
         end, w2)
  end.
Proof.
  unfold cancel_run, mbind, PyM_bind, py_except. destruct (signal_workflow P _ _ w) as [[[]|e] w1]; [|done].
  destruct (on_gateway _ w1) as [[[]|e] w2]; [done|]. destruct (is_exception e); [|done]. simpl.
  by destruct (_is_expected_cancel_race_error e).
Qed.

(** A guarded call refused while draining changes nothing; otherwise it is counted while
    it runs, and no longer afterwards, however it ends. *)
Lemma guard_drains {B} op (m : PyM (fworld T) B) w :
  (forall v, fw_in_flight (m v).2 = fw_in_flight v) -> 0 <= fw_in_flight w ->
  fw_in_flight (_guard_write_operation P op m w).2 = fw_in_flight w /\
  (_draining (fw_facade w) = true -> _guard_write_operation P op m w =
     (Raise (RuntimeError ("Kernel is draining; '" +:+ op +:+ "' is temporarily unavailable.")), w)).
Proof.
  intros Hm Hw. unfold _guard_write_operation, mbind, PyM_bind, py_get. destruct (_draining (fw_facade w)); [done|].
  split; [|done]. unfold drain_enter, drain_exit, py_modify, py_finally. destruct (fp_has_drain_coordinator P).
  - specialize (Hm (set_in_flight (fw_in_flight w + 1) w)). destruct (m _) as [o w1]. cbn in *. rewrite Hm. lia.
  - change ((mret () : PyM (fworld T) ()) w) with (Ret tt : outcome (), w). cbn. specialize (Hm w). by destruct (m w) as [[b|e] w1].
Qed.
End runs.

(** A branch that is opened again is failed again by the next query: the replay of its old
    change overwrites the new view. *)
Example reopened_branch_overwritten :
  let ops := [t_open_branch (mkOpenBranch "r" "b" "s" None None); t_mark_branch (mkBranchUpdate "r" "b" "failed" None None);
              t_open_branch (mkOpenBranch "r" "b" "s" None None)] in
  let state w := bv_state <$> od_get "b" (rv_branches (view_of "r" (fw_facade w))) in
  state (run_ops example_ports ops example_world) = Some "active" /\
  state (run_ops example_ports (ops ++ [t_query "r"]) example_world) = Some "failed".
Proof. split; vm_compute; reflexivity. Qed.

(** Only two calls are refused while draining. *)
Example draining_opens_stage :
  (exec_op example_ports (t_open_stage "s" "r" None) (on_facade (py_modify (set_draining true)) example_world).2).1 = Ret tt.
Proof. vm_compute. reflexivity. Qed.

(** A finished run leaves its time of creation behind. *)
Lemma cleanup_keeps_created r f : _run_created_at (cleanup_completed_run r f) = _run_created_at f /\
  _child_kind (cleanup_completed_run r f) = _child_kind f /\ _all_child_runs (cleanup_completed_run r f) = _all_child_runs f.
Proof. done. Qed.

(** The proxy calls a synchronous gateway and raises after the signal was delivered. *)
Lemma synchronous_gateway_raises {S} (m : string -> SignalRunRequest -> PyM S unit) run req s s' : m run req s = (Ret tt, s') ->
  exists msg, adapter_signal_workflow (Some (false, m)) None run req s = (Raise (RuntimeError msg), s').
Proof. intros H. unfold adapter_signal_workflow, mbind, PyM_bind. rewrite H. by eexists. Qed.
