(* ===== verification/Failover.v ===== *)
(** * Failover of model gateways ([hi_agent/llm/failover.py])

    A pool of credentials with cooldowns, exponential back-off with jitter, and the chain
    that calls a gateway with one credential after the other.  The gateway, the clock, the
    sleep, the random factor and the conversion of a header to a float are ports; what the
    gateway answered is recorded call by call.  Times are in microseconds. *)

From stdpp Require Import base tactics option list strings pretty.
From Stdlib Require Import ZArith Ascii.
From S2P Require Import Prelude PyStr PyVal.
#[local] Arguments String.append : simpl nomatch.
#[local] Open Scope Z_scope.

Inductive FailoverReason :=
  | fr_auth | fr_auth_permanent | fr_billing | fr_rate_limit | fr_overloaded | fr_server_error | fr_timeout
  | fr_context_overflow | fr_model_not_found | fr_unknown.

#[export] Instance FailoverReason_eq_dec : EqDecision FailoverReason.
Proof. solve_decision. Defined.

Definition reason_str (r : FailoverReason) : string :=
  match r with
  | fr_auth => "auth" | fr_auth_permanent => "auth_permanent" | fr_billing => "billing" | fr_rate_limit => "rate_limit"
  | fr_overloaded => "overloaded" | fr_server_error => "server_error" | fr_timeout => "timeout"
  | fr_context_overflow => "context_overflow" | fr_model_not_found => "model_not_found" | fr_unknown => "unknown"
  end.

Record FailoverError := mkFailoverError {
  fe_reason : FailoverReason;
  fe_message : string;
  fe_status_code : option Z;
  fe_provider : option string
}.

Definition _PERMANENT_AUTH_HINTS : list string :=
  ["invalid_api_key"; "invalid api key"; "no such user"; "account deactivated"; "account has been disabled"].
Definition _CONTEXT_OVERFLOW_HINTS : list string :=
  ["context_length_exceeded"; "maximum context length"; "too many tokens"; "context window"].

Definition classify_http_error (status_code : Z) (response_body : string) : FailoverReason :=
  let body_lower := lower response_body in
  if decide (status_code ∈ [401; 403]) then
    if existsb (contains body_lower) _PERMANENT_AUTH_HINTS then fr_auth_permanent else fr_auth
  else if decide (status_code = 402) then fr_billing
  else if decide (status_code = 404) then fr_model_not_found
  else if decide (status_code = 408) then fr_timeout
  else if decide (status_code = 429) then fr_rate_limit
  else if decide (status_code ∈ [500; 502; 504]) then
    if existsb (contains body_lower) _CONTEXT_OVERFLOW_HINTS then fr_context_overflow else fr_server_error
  else if decide (status_code ∈ [503; 529]) then fr_overloaded
  else fr_unknown.

(** Credentials **************************************************************************)

(** A float that is a time or a duration. *)
Inductive ftime := Fin (us : Z) | PosInf | NegInf | NaN.

#[export] Instance ftime_eq_dec : EqDecision ftime.
Proof. solve_decision. Defined.

(** [t < now] *)
Definition before_now (t : ftime) (now : Z) : bool :=
  match t with Fin us => us <? now | NegInf => true | PosInf | NaN => false end.

(** [t >= now] *)
Definition not_before (t : ftime) (now : Z) : bool :=
  match t with Fin us => now <=? us | PosInf => true | NegInf | NaN => false end.

(** [now + t] *)
Definition plus_now (now : Z) (t : ftime) : ftime := match t with Fin us => Fin (now + us) | _ => t end.

Record CredentialEntry := mkEntry {
  ce_api_key : string;
  ce_provider : string;
  ce_cooldown_until : ftime;
  ce_failure_count : Z
}.

Record CredentialPool := mkPool { _entries : list CredentialEntry; _round_robin_index : Z }.

Definition new_pool (entries : list CredentialEntry) : outcome CredentialPool :=
  match entries with
  | [] => Raise (ValueError "CredentialPool requires at least one CredentialEntry.")
  | _ => Ret (mkPool entries (-1))
  end.

Definition eligible (now : Z) (e : CredentialEntry) : bool := before_now (ce_cooldown_until e) now.

(** Is the entry at [(start + offset) % n] eligible? *)
Definition eligible_at (now : Z) (es : list CredentialEntry) (start offset : nat) : bool :=
  match es !! ((start + offset) mod length es)%nat with Some e => eligible now e | None => false end.

Definition next_eligible (now : Z) (p : CredentialPool) : option CredentialEntry * CredentialPool :=
  let es := _entries p in
  let n := length es in
  let start := Z.to_nat ((_round_robin_index p + 1) mod Z.of_nat n) in
  match List.find (eligible_at now es start) (seq 0 n) with
  | Some offset =>
      let idx := ((start + offset) mod n)%nat in
      (es !! idx, mkPool es (Z.of_nat idx))
  | None => (None, mkPool es (Z.of_nat start))
  end.

(** The first entry with the key, changed. *)
Fixpoint update_key (f : CredentialEntry -> CredentialEntry) (api_key : string) (es : list CredentialEntry) : list CredentialEntry :=
  match es with
  | [] => []
  | e :: es' => if decide (ce_api_key e = api_key) then f e :: es' else e :: update_key f api_key es'
  end.

Definition mark_failed (now : Z) (api_key : string) (cooldown : ftime) (p : CredentialPool) : CredentialPool :=
  mkPool (update_key (fun e => mkEntry (ce_api_key e) (ce_provider e) (plus_now now cooldown) (ce_failure_count e + 1))
            api_key (_entries p)) (_round_robin_index p).

Definition mark_success (api_key : string) (p : CredentialPool) : CredentialPool :=
  mkPool (update_key (fun e => mkEntry (ce_api_key e) (ce_provider e) (Fin 0) 0) api_key (_entries p)) (_round_robin_index p).

Definition all_cooling_down (now : Z) (p : CredentialPool) : bool :=
  forallb (fun e => not_before (ce_cooldown_until e) now) (_entries p).

(** Back-off *****************************************************************************)

Record RetryPolicy := mkRetryPolicy { max_retries : Z; base_delay_ms : Z; max_delay_ms : Z; jitter : bool }.

(** The delay in microseconds; the random factor is in millionths. *)
Definition delay_for (p : RetryPolicy) (factor : Z) (attempt : nat) : Z :=
  let raw_ms := base_delay_ms p * 2 ^ Z.of_nat attempt in
  let clamped_ms := Z.min raw_ms (max_delay_ms p) in
  if jitter p then clamped_ms * factor / 1000 else clamped_ms * 1000.

Definition _PERMANENT_REASONS : list FailoverReason := [fr_auth_permanent; fr_billing].
Definition _PERMANENT_COOLDOWN : ftime := PosInf.
Definition _TRANSIENT_COOLDOWN : ftime := Fin 60000000.

Definition is_permanent (r : FailoverReason) : bool := bool_decide (r ∈ _PERMANENT_REASONS).

(** The chain ****************************************************************************)

(** What a call of the gateway ends in. *)
Inductive call_result (R : Type) :=
  | Response (r : R)
  | HTTPStatusError (status_code : Z) (text : string) (retry_after : option string)
  | TimeoutException
  | RequestError (text : string)
  | OtherException (e : exn).
Arguments Response {R}. Arguments HTTPStatusError {R}. Arguments TimeoutException {R}. Arguments RequestError {R}. Arguments OtherException {R}.

Record chain_ports (W Q R D : Type) := mkChainPorts {
  cp_complete : string -> Q -> W -> call_result R * W;
  cp_has_stream : string -> bool;
  cp_stream : string -> Q -> W -> (list D * call_result unit) * W;
  cp_time : W -> Z;
  cp_sleep : ftime -> PyM W unit;
  cp_uniform : W -> Z * W;
  cp_float : string -> option ftime
}.
Arguments cp_complete {W Q R D}. Arguments cp_has_stream {W Q R D}. Arguments cp_stream {W Q R D}. Arguments cp_time {W Q R D}.
Arguments cp_sleep {W Q R D}. Arguments cp_uniform {W Q R D}. Arguments cp_float {W Q R D}.

(** [fo_calls]: the key of each call of the gateway and what it ended in; [fo_yielded]: what
    the caller of [stream] was given. *)
Record chain_world (W R D : Type) := mkChainWorld {
  fo_pool : CredentialPool;
  fo_calls : list (string * call_result unit);
  fo_yielded : list (R + D);
  fo_rest : W
}.
Arguments mkChainWorld {W R D}. Arguments fo_pool {W R D}. Arguments fo_calls {W R D}. Arguments fo_yielded {W R D}. Arguments fo_rest {W R D}.

(** A call without its answer. *)
Definition forget {R} (c : call_result R) : call_result unit :=
  match c with
  | Response _ => Response tt
  | HTTPStatusError s t h => HTTPStatusError s t h
  | TimeoutException => TimeoutException
  | RequestError t => RequestError t
  | OtherException e => OtherException e
  end.

Section chain.
Context {W Q R D : Type} (P : chain_ports W Q R D) (policy : RetryPolicy).
Abbreviation world := (chain_world W R D).
Implicit Types w : world.

Definition on_pool (f : CredentialPool -> CredentialPool) : PyM world unit :=
  py_modify (fun w => mkChainWorld (f (fo_pool w)) (fo_calls w) (fo_yielded w) (fo_rest w)).
Definition on_chain_rest {B} (m : PyM W B) : PyM world B :=
  py_zoom fo_rest (fun t w => mkChainWorld (fo_pool w) (fo_calls w) (fo_yielded w) t) m.

Definition time : PyM world Z := w ← py_get; mret (cp_time P (fo_rest w)).
Definition sleep (delay : ftime) : PyM world unit := on_chain_rest (cp_sleep P delay).
Definition uniform : PyM world Z := on_chain_rest (fun t => let '(u, t') := cp_uniform P t in (Ret u, t')).

Definition pool_next : PyM world (option CredentialEntry) :=
  now ← time;
  w ← py_get;
  let '(e, p) := next_eligible now (fo_pool w) in
  _ ← on_pool (fun _ => p);
  mret e.

(** An infinite cooldown is not added to the clock. *)
Definition pool_failed (api_key : string) (cooldown : ftime) : PyM world unit :=
  now ← time; on_pool (mark_failed now api_key cooldown).
Definition pool_success (api_key : string) : PyM world unit := on_pool (mark_success api_key).
Definition pool_all_cooling : PyM world bool := now ← time; w ← py_get; mret (all_cooling_down now (fo_pool w)).

Definition record_call (key : string) (r : call_result unit) : PyM world unit :=
  py_modify (fun w => mkChainWorld (fo_pool w) (fo_calls w ++ [(key, r)]) (fo_yielded w) (fo_rest w)).

Definition gateway_complete (key : string) (request : Q) : PyM world (call_result R) :=
  r ← on_chain_rest (fun t => let '(r, t') := cp_complete P key request t in (Ret r, t'));
  _ ← record_call key (forget r);
  mret r.

Definition yield_ (xs : list (R + D)) : PyM world unit :=
  py_modify (fun w => mkChainWorld (fo_pool w) (fo_calls w) (fo_yielded w ++ xs) (fo_rest w)).

(** [async for delta in stream_fn(request): yield delta] *)
Definition gateway_stream (key : string) (request : Q) : PyM world (call_result unit) :=
  '(ds, r) ← on_chain_rest (fun t => let '(r, t') := cp_stream P key request t in (Ret r, t'));
  _ ← record_call key r;
  _ ← yield_ (map inr ds);
  mret r.

Definition _parse_retry_after (header : option string) : option ftime :=
  match header with None => None | Some h => cp_float P h end.

Definition backoff (attempt : nat) : PyM world unit :=
  factor ← (if jitter policy then uniform else mret 0);
  sleep (Fin (delay_for policy factor attempt)).

Definition not_last (attempt : nat) : bool := Z.of_nat attempt <? max_retries policy.

(** [last_reason], [last_status] and [last_provider]. *)
Definition last_failure : Type := FailoverReason * option Z * option string.

(** What a round of the loop ends in. *)
Inductive round_result (B : Type) := Done (r : FailoverError + B) | Next (l : last_failure).
#[local] Arguments Done {B}. #[local] Arguments Next {B}.

Definition opt_status (s : option Z) : string := match s with Some z => pretty z | None => "None" end.

(** One round of the loop of [complete]. *)
Definition complete_round (request : Q) (attempt : nat) (l : last_failure) : PyM world (round_result R) :=
  let '(last_reason, last_status, last_provider) := l in
  entry ← pool_next;
  match entry with
  | None => mret (Done (inl (mkFailoverError last_reason
      ("All LLM credentials are in cooldown. Last failure: " +:+ reason_str last_reason +:+ " (HTTP " +:+ opt_status last_status +:+ ")")
      last_status last_provider)))
  | Some entry =>
      let key := ce_api_key entry in
      let provider := Some (ce_provider entry) in
      r ← gateway_complete key request;
      match r with
      | Response response => _ ← pool_success key; mret (Done (inr response))
      | HTTPStatusError status body header =>
          let reason := classify_http_error status body in
          let retry_after := _parse_retry_after header in
          if is_permanent reason then
            _ ← pool_failed key _PERMANENT_COOLDOWN;
            all ← pool_all_cooling;
            if (all : bool) then
              mret (Done (inl (mkFailoverError reason
                ("Permanent failure (" +:+ reason_str reason +:+ ") from provider=" +:+ ce_provider entry +:+ ". No further credentials available.")
                (Some status) provider)))
            else mret (Next (reason, Some status, provider))
          else
            _ ← pool_failed key (default _TRANSIENT_COOLDOWN retry_after);
            _ ← (if not_last attempt
                 then match retry_after with Some d => sleep d | None => backoff attempt end
                 else mret tt);
            mret (Next (reason, Some status, provider))
      | TimeoutException =>
          _ ← pool_failed key _TRANSIENT_COOLDOWN;
          if not_last attempt then _ ← backoff attempt; mret (Next (fr_timeout, last_status, provider))
          else mret (Done (inl (mkFailoverError fr_timeout
            ("LLM request timed out after " +:+ pretty (Z.of_nat attempt + 1) +:+ " attempt(s).") None provider)))
      | RequestError text =>
          _ ← pool_failed key _TRANSIENT_COOLDOWN;
          if not_last attempt then _ ← backoff attempt; mret (Next (fr_unknown, last_status, provider))
          else mret (Done (inl (mkFailoverError fr_unknown ("LLM request failed: " +:+ text) None provider)))
      | OtherException e => py_raise e
      end
  end.

(** One round of the loop of [stream]. *)
Definition stream_round (request : Q) (attempt : nat) (l : last_failure) : PyM world (round_result unit) :=
  let '(last_reason, last_status, last_provider) := l in
  entry ← pool_next;
  match entry with
  | None => mret (Done (inl (mkFailoverError last_reason
      ("All LLM credentials are in cooldown (stream). Last failure: " +:+ reason_str last_reason +:+ " (HTTP " +:+ opt_status last_status +:+ ")")
      last_status last_provider)))
  | Some entry =>
      let key := ce_api_key entry in
      let provider := Some (ce_provider entry) in
      if negb (cp_has_stream P key) then
        r ← gateway_complete key request;
        match r with
        | Response response => _ ← pool_success key; _ ← yield_ [inl response]; mret (Done (inr tt))
        | HTTPStatusError status body _ =>
            let reason := classify_http_error status body in
            _ ← pool_failed key (if is_permanent reason then _PERMANENT_COOLDOWN else _TRANSIENT_COOLDOWN);
            all ← (if is_permanent reason then pool_all_cooling else mret false);
            if (all : bool) then
              mret (Done (inl (mkFailoverError reason ("Permanent stream failure from provider=" +:+ ce_provider entry +:+ ".") (Some status) provider)))
            else
              _ ← (if not_last attempt then backoff attempt else mret tt);
              mret (Next (reason, Some status, provider))
        | TimeoutException => py_raise (OtherError "TimeoutException" "")
        | RequestError text => py_raise (OtherError "RequestError" text)
        | OtherException e => py_raise e
        end
      else
        r ← gateway_stream key request;
        match r with
        | Response _ => _ ← pool_success key; mret (Done (inr tt))
        | HTTPStatusError status body header =>
            let reason := classify_http_error status body in
            let retry_after := _parse_retry_after header in
            _ ← pool_failed key (if is_permanent reason then _PERMANENT_COOLDOWN else default _TRANSIENT_COOLDOWN retry_after);
            all ← (if is_permanent reason then pool_all_cooling else mret false);
            if (all : bool) then
              mret (Done (inl (mkFailoverError reason ("Permanent stream failure from provider=" +:+ ce_provider entry +:+ ".") (Some status) provider)))
            else
              _ ← (if not_last attempt
                   then match retry_after with Some d => sleep d | None => backoff attempt end
                   else mret tt);
              mret (Next (reason, Some status, provider))
        | TimeoutException =>
            _ ← pool_failed key _TRANSIENT_COOLDOWN;
            if not_last attempt then _ ← backoff attempt; mret (Next (fr_timeout, last_status, provider))
            else mret (Done (inl (mkFailoverError fr_timeout
              ("LLM stream request timed out after " +:+ pretty (Z.of_nat attempt + 1) +:+ " attempt(s).") None provider)))
        | RequestError text => py_raise (OtherError "RequestError" text)
        | OtherException e => py_raise e
        end
  end.

(** [for attempt in range(max_retries + 1)], and what follows it. *)
Fixpoint rounds {B} (round : nat -> last_failure -> PyM world (round_result B)) (exhausted : last_failure -> FailoverError)
    (attempts : list nat) (l : last_failure) : PyM world (FailoverError + B) :=
  match attempts with
  | [] => mret (inl (exhausted l))
  | attempt :: rest =>
      r ← round attempt l;
      match r with
      | Done r => mret r
      | Next l' => rounds round exhausted rest l'
      end
  end.

Definition attempts : list nat := seq 0 (Z.to_nat (max_retries policy + 1)).
Definition no_failure : last_failure := (fr_unknown, None, None).

Definition complete (request : Q) : PyM world (FailoverError + R) :=
  rounds (complete_round request)
    (fun '(reason, status, provider) => mkFailoverError reason
       ("LLM failover chain exhausted after " +:+ pretty (max_retries policy + 1) +:+ " attempt(s). Last failure: " +:+
        reason_str reason +:+ " (HTTP " +:+ opt_status status +:+ ")") status provider)
    attempts no_failure.

Definition stream (request : Q) : PyM world (FailoverError + unit) :=
  rounds (stream_round request)
    (fun '(reason, status, provider) => mkFailoverError reason
       ("LLM stream failover chain exhausted after " +:+ pretty (max_retries policy + 1) +:+ " attempt(s).") status provider)
    attempts no_failure.

End chain.
Arguments Done {B}. Arguments Next {B}.

(** [s.split(",")] *)
Fixpoint split_commas (s : string) : list string :=
  match s with
  | "" => [""]
  | String c s' =>
      if decide (c = ","%char) then "" :: split_commas s'
      else match split_commas s' with [] => [String c ""] | h :: t => String c h :: t end
  end.

(** [make_credential_pool_from_env] on the value of the variable. *)
Definition make_credential_pool_from_env (value : option string) (provider : string) : outcome CredentialPool :=
  let raw := strip (default "" value) in
  if decide (raw = "") then Raise (ValueError "Environment variable is not set or is empty. Cannot build CredentialPool.")
  else
    match filter (fun k => k <> "") (map strip (split_commas raw)) with
    | [] => Raise (ValueError "Environment variable contains no valid API keys.")
    | keys => new_pool (map (fun key => mkEntry key provider (Fin 0) 0) keys)
    end.

(** Lemmas *******************************************************************************)

Lemma find_seq_Some (f : nat -> bool) n m i : List.find f (seq n m) = Some i ->
  (n <= i < n + m)%nat /\ f i = true /\ forall j, (n <= j < i)%nat -> f j = false.
Proof.
  revert n. induction m as [|m IH]; intros n; simpl; [done|]. destruct (f n) eqn:Hf.
  - intros [= <-]. split_and!; [lia..|done|intros j Hj; lia].
  - intros (Hi & Hfi & Hj)%IH. split_and!; [lia..|done|]. intros j Hjj. destruct (decide (j = n)) as [->|]; [done|]. apply Hj. lia.
Qed.

Lemma find_seq_None (f : nat -> bool) n m : List.find f (seq n m) = None -> forall j, (n <= j < n + m)%nat -> f j = false.
Proof. intros H j Hj. apply (List.find_none _ _ H). apply in_seq. lia. Qed.

(** Probing from any start sees every entry. *)
Lemma mod_onto (n start i : nat) : (i < n)%nat -> (start < n)%nat -> exists offset, (offset < n)%nat /\ ((start + offset) mod n = i)%nat.
Proof.
  intros Hi Hs. destruct (decide (start <= i)%nat).
  - exists (i - start)%nat. split; [lia|]. rewrite Nat.mod_small; lia.
  - exists (n - start + i)%nat. split; [lia|]. replace (start + (n - start + i))%nat with (i + 1 * n)%nat by lia.
    rewrite Nat.Div0.mod_add, Nat.mod_small; lia.
Qed.

Lemma start_lt p : _entries p <> [] -> (Z.to_nat ((_round_robin_index p + 1) mod Z.of_nat (length (_entries p))) < length (_entries p))%nat.
Proof.
  intros Hne. destruct (_entries p) as [|e es]; [done|].
  pose proof (Z.mod_pos_bound (_round_robin_index p + 1) (Z.of_nat (length (e :: es))) ltac:(simpl; lia)). lia.
Qed.

(** The answer is an eligible entry of the pool; none only when none is eligible. *)
Lemma next_eligible_entry now p e p' : next_eligible now p = (Some e, p') -> e ∈ _entries p /\ eligible now e = true /\ _entries p' = _entries p.
Proof.
  unfold next_eligible. destruct (List.find _ _) as [off|] eqn:Hf; [|done]. intros [= He <-].
  split_and!; [by eapply list_elem_of_lookup_2| |done]. apply find_seq_Some in Hf as (_ & Hel & _). unfold eligible_at in Hel. by rewrite He in Hel.
Qed.

Lemma next_eligible_none now p p' : next_eligible now p = (None, p') ->
  _entries p' = _entries p /\ (_entries p <> [] -> forall e, e ∈ _entries p -> eligible now e = false).
Proof.
  unfold next_eligible. destruct (List.find _ _) as [off|] eqn:Hf.
  - intros [= He _]. exfalso. apply find_seq_Some in Hf as (_ & Hel & _). unfold eligible_at in Hel. by rewrite He in Hel.
  - intros [= <-]. split; [done|]. intros Hne e [i Hi]%list_elem_of_lookup. pose proof (lookup_lt_Some _ _ _ Hi) as Hlt.
    destruct (mod_onto (length (_entries p)) _ i Hlt (start_lt p Hne)) as (off & Ho & Hm).
    pose proof (find_seq_None _ _ _ Hf off ltac:(lia)) as Hel. unfold eligible_at in Hel. by rewrite Hm, Hi in Hel.
Qed.

Lemma eligible_not_cooling now e : eligible now e = true -> not_before (ce_cooldown_until e) now = false.
Proof. unfold eligible, before_now, not_before. destruct (ce_cooldown_until e) as [u| | |]; try done. intros ?%Z.ltb_lt. apply Z.leb_gt. lia. Qed.

(** When all healthy, successive calls go round the pool. *)
Lemma next_eligible_round now p : (forall e, e ∈ _entries p -> eligible now e = true) -> _entries p <> [] ->
  next_eligible now p =
    let i := Z.to_nat ((_round_robin_index p + 1) mod Z.of_nat (length (_entries p))) in (_entries p !! i, mkPool (_entries p) (Z.of_nat i)).
Proof.
  intros Hall Hne. pose proof (start_lt p Hne) as Hlt. unfold next_eligible. cbv zeta. set (start := Z.to_nat _) in *.
  assert (seq 0 (length (_entries p)) = 0%nat :: seq 1 (pred (length (_entries p)))) as -> by (destruct (length (_entries p)); [lia|done]).
  assert (((start + 0) mod length (_entries p) = start)%nat) as Hm by (rewrite Nat.add_0_r, Nat.mod_small; lia).
  cbn [List.find]. unfold eligible_at at 1. rewrite Hm. destruct (lookup_lt_is_Some_2 (_entries p) start) as [e He]; [lia|].
  rewrite He, Hall by by eapply list_elem_of_lookup_2. by rewrite Hm, He.
Qed.

Lemma delay_bounds p factor attempt : 0 <= base_delay_ms p -> 0 <= max_delay_ms p -> 500000 <= factor <= 1500000 ->
  let clamped := Z.min (base_delay_ms p * 2 ^ Z.of_nat attempt) (max_delay_ms p) in
  clamped * 500 <= delay_for p factor attempt <= clamped * 1500.
Proof.
  intros Hb Hm Hf clamped. unfold delay_for. fold clamped.
  assert (0 <= clamped) as Hc. { unfold clamped. apply Z.min_glb; [|done]. apply Z.mul_nonneg_nonneg; [done|]. apply Z.pow_nonneg. lia. }
  destruct (jitter p); [|nia]. split.
  - apply Z.div_le_lower_bound; [lia|]. nia.
  - apply Z.div_le_upper_bound; [lia|]. nia.
Qed.

Lemma elem_of_update_key f key es e : e ∈ update_key f key es -> e ∈ es \/ exists e', e' ∈ es /\ ce_api_key e' = key /\ e = f e'.
Proof.
  induction es as [|x es IH]; simpl; [by left|]. case_decide as Hk; intros [->|He]%elem_of_cons.
  - right. exists x. rewrite elem_of_cons. auto.
  - left. apply elem_of_cons. by right.
  - left. apply elem_of_cons. by left.
  - destruct (IH He) as [?|(e' & ? & ? & ?)]; [left; apply elem_of_cons; by right|]. right. exists e'. rewrite elem_of_cons. auto.
Qed.

Lemma update_key_keys f key es : (forall e, ce_api_key (f e) = ce_api_key e) -> map ce_api_key (update_key f key es) = map ce_api_key es.
Proof. intros Hf. induction es as [|x es IH]; simpl; [done|]. case_decide; simpl; [by rewrite Hf|by rewrite IH]. Qed.

(** With distinct keys, changing a key changes every entry of it. *)
Lemma update_key_all f key es e : NoDup (map ce_api_key es) -> (forall e, ce_api_key (f e) = ce_api_key e) ->
  e ∈ update_key f key es -> ce_api_key e = key -> exists e', e' ∈ es /\ e = f e'.
Proof.
  intros Hn Hf. induction es as [|x es IH]; simpl; [by intros ?%elem_of_nil|]. simpl in Hn. apply NoDup_cons in Hn as [Hx Hn].
  case_decide as Hk; rewrite elem_of_cons.
  - intros [->|He] Hke; [exists x; rewrite elem_of_cons; auto|]. exfalso. apply Hx. rewrite Hk, <-Hke. by apply list_elem_of_fmap_2.
  - intros [->|He] Hke; [done|]. destruct (IH Hn He Hke) as (e' & ? & ?). exists e'. rewrite elem_of_cons. auto.
Qed.

Definition keys (p : CredentialPool) : list string := map ce_api_key (_entries p).

(** Every entry of the key is suspended for ever. *)
Definition suspended (key : string) (p : CredentialPool) : Prop :=
  forall e, e ∈ _entries p -> ce_api_key e = key -> ce_cooldown_until e = PosInf.

(** The call ended in an error that is final for its key. *)
Definition permanent_call {R} (c : call_result R) : bool :=
  match c with HTTPStatusError status body _ => is_permanent (classify_http_error status body) | _ => false end.

Definition answered {R} (c : call_result R) : bool := match c with Response _ => true | _ => false end.

Section facts.
Context {W Q R D : Type} (P : chain_ports W Q R D) (policy : RetryPolicy).
Abbreviation world := (chain_world W R D).
Implicit Types w : world.

(** The pool and the calls are left alone. *)
Definition quiet w w' : Prop := fo_pool w' = fo_pool w /\ fo_calls w' = fo_calls w.

#[local] Instance quiet_preorder : PreOrder quiet.
Proof. split; [done|]. intros ? ? ? [] []. split; congruence. Qed.

Lemma sleep_quiet d : keeps quiet (sleep P d).
Proof. by apply keeps_zoom. Qed.

Lemma backoff_quiet n : keeps quiet (backoff P policy n).
Proof.
  apply keeps_bind; [apply _| |intros; apply sleep_quiet]. destruct (jitter policy); [by apply keeps_zoom|apply keeps_ret, _].
Qed.

Lemma then_quiet {B} (m : PyM world unit) (b : B) w : keeps quiet m ->
  exists o w', (_ ← m; mret b) w = (o, w') /\ quiet w w' /\ (forall b', o = Ret b' -> b' = b).
Proof.
  intros Hm. specialize (Hm w). unfold mbind, PyM_bind. destruct (m w) as [[u|e] w1]; eexists _, _; (split; [reflexivity|]); (split; [done|]).
  - by intros b' [= <-].
  - done.
Qed.

(** The round called nothing. *)
Definition no_call w w' : Prop := _entries (fo_pool w') = _entries (fo_pool w) /\ fo_calls w' = fo_calls w.

(** The round called with a key that was not in cooldown and marked it. *)
Definition one_call w (c : call_result unit) w' : Prop :=
  exists e f, e ∈ _entries (fo_pool w) /\ eligible (cp_time P (fo_rest w)) e = true /\
    fo_calls w' = fo_calls w ++ [(ce_api_key e, c)] /\
    (forall x, ce_api_key (f x) = ce_api_key x) /\
    (permanent_call c = true -> forall x, ce_cooldown_until (f x) = PosInf) /\
    _entries (fo_pool w') = update_key f (ce_api_key e) (_entries (fo_pool w)).

Lemma update_key_id key es : update_key id key es = es.
Proof. induction es as [|x es IH]; simpl; [done|]. case_decide; [done|]. by rewrite IH. Qed.

Lemma pool_next_spec w o w' : pool_next P w = (o, w') -> fo_rest w' = fo_rest w /\ fo_calls w' = fo_calls w /\
  _entries (fo_pool w') = _entries (fo_pool w) /\
  ((o = Ret None /\ (_entries (fo_pool w) <> [] -> forall e, e ∈ _entries (fo_pool w) -> eligible (cp_time P (fo_rest w)) e = false)) \/
   exists e, o = Ret (Some e) /\ e ∈ _entries (fo_pool w) /\ eligible (cp_time P (fo_rest w)) e = true).
Proof.
  unfold pool_next, time, on_pool, mbind, PyM_bind, py_get, py_modify. cbn. destruct (next_eligible _ _) as [[e|] p] eqn:Hn; intros [= <- <-]; cbn.
  - apply next_eligible_entry in Hn as (? & ? & ?). eauto 10.
  - apply next_eligible_none in Hn as (? & ?). eauto 10.
Qed.

Lemma gateway_complete_spec key request w : exists c w',
  gateway_complete P key request w = (Ret c, w') /\ fo_pool w' = fo_pool w /\ fo_calls w' = fo_calls w ++ [(key, forget c)].
Proof.
  unfold gateway_complete, on_chain_rest, py_zoom, mbind, PyM_bind, record_call, py_modify. destruct (cp_complete P key request _) as [c t]. cbn. eauto.
Qed.

Lemma gateway_stream_spec key request w : exists c w',
  gateway_stream P key request w = (Ret c, w') /\ fo_pool w' = fo_pool w /\ fo_calls w' = fo_calls w ++ [(key, c)].
Proof.
  unfold gateway_stream, on_chain_rest, py_zoom, mbind, PyM_bind, record_call, yield_, py_modify. destruct (cp_stream P key request _) as [[ds c] t]. cbn. eauto.
Qed.

(** Code that leaves pool and calls alone and does not end the loop with an answer. *)
Definition failing {B} (m : PyM world (round_result B)) : Prop :=
  forall s, quiet s (m s).2 /\ forall r, (m s).1 <> Ret (Done (inr r)).

Lemma failing_bind {A B} (m : PyM world A) (k : A -> PyM world (round_result B)) :
  keeps quiet m -> (forall a, failing (k a)) -> failing (m ≫= k).
Proof.
  intros Hm Hk s. specialize (Hm s). unfold mbind, PyM_bind. destruct (m s) as [[a|e] s1]; [|done].
  destruct (Hk a s1) as [Hq Hr]. split; [by etransitivity|done].
Qed.

Lemma failing_next {B} l : failing (mret (Next l) : PyM world (round_result B)).
Proof. done. Qed.

Lemma failing_error {B} err : failing (mret (Done (inl err)) : PyM world (round_result B)).
Proof. done. Qed.

Lemma failing_raise {B} e : failing (py_raise e : PyM world (round_result B)).
Proof. done. Qed.

Lemma all_cooling_quiet : keeps quiet (pool_all_cooling P).
Proof. done. Qed.

Lemma pause_quiet attempt retry_after : keeps quiet (if not_last policy attempt
  then match retry_after with Some d => sleep P d | None => backoff P policy attempt end else mret tt).
Proof. destruct (not_last _ _); [|apply keeps_ret, _]. destruct retry_after; [apply sleep_quiet|apply backoff_quiet]. Qed.

(** What a round does: nothing, or a call with one eligible key, which it marks; it ends
    the loop with an answer exactly when the call was answered. *)
Definition round_spec {B} w (o : outcome (round_result B)) w' : Prop :=
  (no_call w w' /\ forall r, o <> Ret (Done (inr r))) \/
  exists c, one_call w c w' /\ (answered c = true <-> exists r, o = Ret (Done (inr r))).

Lemma failed_call {B} w e c cd w2 (m : PyM world (round_result B)) o w' :
  (_ ← pool_failed P (ce_api_key e) cd; m) w2 = (o, w') -> e ∈ _entries (fo_pool w) -> eligible (cp_time P (fo_rest w)) e = true ->
  _entries (fo_pool w2) = _entries (fo_pool w) -> fo_calls w2 = fo_calls w ++ [(ce_api_key e, c)] ->
  answered c = false -> (permanent_call c = true -> cd = _PERMANENT_COOLDOWN) -> failing m -> round_spec w o w'.
Proof.
  intros H He Hel Hp Hc Ha Hcd Hm. revert H. unfold pool_failed, time, on_pool, mbind, PyM_bind, py_get, py_modify. cbn.
  match goal with |- m ?s = _ -> _ => destruct (Hm s) as [[Hq1 Hq2] Hr] end. intros H. rewrite H in Hq1, Hq2, Hr. cbn in *.
  right. exists c. split.
  - eexists e, _. split_and!; [done..|by rewrite Hq2, Hc| | |rewrite Hq1; cbn; by rewrite Hp]; [done|]. cbn. by intros ->%Hcd.
  - rewrite Ha. split; [done|]. intros [r ->]. by destruct (Hr r).
Qed.

Lemma answered_call {B} w e c w2 (m : PyM world unit) (b : B) o w' :
  e ∈ _entries (fo_pool w) -> eligible (cp_time P (fo_rest w)) e = true ->
  _entries (fo_pool w2) = _entries (fo_pool w) -> fo_calls w2 = fo_calls w ++ [(ce_api_key e, c)] ->
  answered c = true -> (forall s, m s = (Ret tt, (m s).2) /\ quiet s (m s).2) ->
  (_ ← pool_success (ce_api_key e); _ ← m; mret (Done (inr b))) w2 = (o, w') -> round_spec w o w'.
Proof.
  intros He Hel Hp Hc Ha Hm. unfold pool_success, on_pool, mbind, PyM_bind, py_modify. cbn.
  match goal with |- context [m ?s] => destruct (Hm s) as [-> [Hq1 Hq2]] end. intros [= <- <-]. cbn in *.
  right. exists c. split; [|rewrite Ha; split; eauto].
  exists e, (fun e => mkEntry (ce_api_key e) (ce_provider e) (Fin 0) 0).
  split_and!; [done|done|by rewrite Hq2, Hc|done|by destruct c|]. rewrite Hq1. cbn. by rewrite Hp.
Qed.

Lemma raised_call {B} w e c w2 x (o : outcome (round_result B)) w' :
  e ∈ _entries (fo_pool w) -> eligible (cp_time P (fo_rest w)) e = true ->
  _entries (fo_pool w2) = _entries (fo_pool w) -> fo_calls w2 = fo_calls w ++ [(ce_api_key e, c)] ->
  answered c = false -> permanent_call c = false -> (py_raise x : PyM world (round_result B)) w2 = (o, w') -> round_spec w o w'.
Proof.
  intros He Hel Hp Hc Ha Hn [= <- <-]. right. exists c. split; [|rewrite Ha; split; [done|by intros [? ?]]].
  exists e, id. rewrite update_key_id, Hn. done.
Qed.

Ltac quiet := first [apply pause_quiet | apply backoff_quiet | apply all_cooling_quiet | apply keeps_ret, _ 
                    | match goal with |- keeps _ (match ?x with _ => _ end) => destruct x end; quiet].
Ltac failing := repeat first
  [ apply failing_next | apply failing_error | apply failing_raise | apply failing_bind; [solve [quiet]|intros ?]
  | match goal with |- failing (match ?x with _ => _ end) => destruct x end ].

Lemma complete_round_spec request attempt l w o w' : complete_round P policy request attempt l w = (o, w') -> round_spec w o w'.
Proof.
  destruct l as [[lr ls] lp]. unfold complete_round. intros H. unfold mbind at 1, PyM_bind at 1 in H.
  destruct (pool_next P w) as [o1 w1] eqn:Hn. apply pool_next_spec in Hn as (_ & Hc1 & Hp1 & [[-> _]|(e & -> & He & Hel)]).
  { left. injection H as <- <-. by split. }
  cbv zeta in H. unfold mbind at 1, PyM_bind at 1 in H.
  destruct (gateway_complete_spec (ce_api_key e) request w1) as (c & w2 & Hg & Hp2 & Hc2). rewrite Hg in H.
  rewrite Hc1 in Hc2. rewrite <-Hp2 in Hp1.
  destruct c as [response|status body header| |text|x].
  - apply (answered_call w e (Response tt) w2 (mret tt) response); done.
  - destruct (is_permanent _) eqn:Hperm; (eapply failed_call; [exact H|done|done|done|done|done| |]); [done|failing|cbn; by rewrite Hperm|failing].
  - eapply failed_call; [exact H|done|done|done|done|done|done|]. failing.
  - eapply failed_call; [exact H|done|done|done|done|done|done|]. failing.
  - by eapply raised_call.
Qed.

Lemma stream_round_spec request attempt l w o w' : stream_round P policy request attempt l w = (o, w') -> round_spec w o w'.
Proof.
  destruct l as [[lr ls] lp]. unfold stream_round. intros H. unfold mbind at 1, PyM_bind at 1 in H.
  destruct (pool_next P w) as [o1 w1] eqn:Hn. apply pool_next_spec in Hn as (_ & Hc1 & Hp1 & [[-> _]|(e & -> & He & Hel)]).
  { left. injection H as <- <-. by split. }
  cbv zeta in H. destruct (negb _); unfold mbind at 1, PyM_bind at 1 in H.
  - destruct (gateway_complete_spec (ce_api_key e) request w1) as (c & w2 & Hg & Hp2 & Hc2). rewrite Hg in H.
    rewrite Hc1 in Hc2. rewrite <-Hp2 in Hp1. destruct c as [response|status body header| |text|x]; [| |by eapply raised_call..].
    + by apply (answered_call w e (Response tt) w2 (yield_ [inl response]) tt).
    + eapply failed_call; [exact H|done|done|done|done|done|cbn; by intros ->|]. failing.
  - destruct (gateway_stream_spec (ce_api_key e) request w1) as (c & w2 & Hg & Hp2 & Hc2). rewrite Hg in H.
    rewrite Hc1 in Hc2. rewrite <-Hp2 in Hp1. destruct c as [response|status body header| |text|x]; [| | |by eapply raised_call..].
    + apply (answered_call w e (Response response) w2 (mret tt) tt); done.
    + eapply failed_call; [exact H|done|done|done|done|done|cbn; by intros ->|]. failing.
    + eapply failed_call; [exact H|done|done|done|done|done|done|]. failing.
Qed.

(** The calls of a run of the chain end with the first answer. *)
Definition ended {B} (calls : list (string * call_result unit)) (o : outcome (FailoverError + B)) : Prop :=
  match o with
  | Ret (inr _) => exists pre key c, calls = pre ++ [(key, c)] /\ answered c = true /\ Forall (fun k => answered k.2 = false) pre
  | _ => Forall (fun k => answered k.2 = false) calls
  end.

Lemma ended_cons {B} key c calls (o : outcome (FailoverError + B)) : answered c = false -> ended calls o -> ended ((key, c) :: calls) o.
Proof.
  intros Hc. destruct o as [[err|b]|e]; [by constructor| |by constructor].
  intros (pre & k & d & -> & Hd & Hpre). exists ((key, c) :: pre), k, d. split_and!; [done..|]. by constructor.
Qed.

Lemma rounds_calls {B} (round : nat -> last_failure -> PyM world (round_result B)) ex ns :
  (forall n l w o w', round n l w = (o, w') -> round_spec w o w') ->
  forall l w o w', rounds round ex ns l w = (o, w') ->
  exists new, fo_calls w' = fo_calls w ++ new /\ (length new <= length ns)%nat /\ ended new o.
Proof.
  intros Hr. induction ns as [|n ns IH]; intros l w o w'.
  - intros [= <- <-]. exists []. rewrite app_nil_r. split_and!; [done..|]. constructor.
  - cbn [rounds]. unfold mbind at 1, PyM_bind at 1. destruct (round n l w) as [o1 w1] eqn:Ho.
    destruct (Hr _ _ _ _ _ Ho) as [[[_ Hc] Hno]|(c & (e & f & _ & _ & Hc & _) & Ha)].
    + destruct o1 as [[[err|b]|l']|e1]; [| | intros (new & Hn & Hl & He)%IH |].
      * intros [= <- <-]. exists []. rewrite app_nil_r. split_and!; [done|simpl; lia|constructor].
      * by destruct (Hno b).
      * exists new. rewrite Hn, Hc. split_and!; [done|simpl; lia|done].
      * intros [= <- <-]. exists []. rewrite app_nil_r. split_and!; [done|simpl; lia|constructor].
    + assert (answered c = false \/ exists b, o1 = Ret (Done (inr b))) as [Hf|[b ->]] by (destruct (answered c); [right; by apply Ha|by left]).
      * destruct o1 as [[[err|b]|l']|e1]; [| | intros (new & Hn & Hl & He)%IH |].
        -- intros [= <- <-]. exists [(ce_api_key e, c)]. split_and!; [done|simpl; lia|by repeat constructor].
        -- exfalso. assert (answered c = true) by (apply Ha; eauto). congruence.
        -- exists ((ce_api_key e, c) :: new). rewrite Hn, Hc, <-app_assoc. split_and!; [done|simpl; lia|by apply ended_cons].
        -- intros [= <- <-]. exists [(ce_api_key e, c)]. split_and!; [done|simpl; lia|by repeat constructor].
      * intros [= <- <-]. exists [(ce_api_key e, c)]. split_and!; [done|simpl; lia|].
        exists [], (ce_api_key e), c. split_and!; [done|apply Ha; eauto|constructor].
Qed.

(** What never happens to a key that is suspended for ever: it is not called again, and it
    stays suspended. *)
Definition honours w w' : Prop :=
  NoDup (keys (fo_pool w)) ->
  keys (fo_pool w') = keys (fo_pool w) /\
  (forall key, suspended key (fo_pool w) -> suspended key (fo_pool w')) /\
  exists new, fo_calls w' = fo_calls w ++ new /\
    (forall key, suspended key (fo_pool w) -> key ∉ new.*1) /\
    forall pre key c post, new = pre ++ (key, c) :: post -> permanent_call c = true -> key ∉ post.*1 /\ suspended key (fo_pool w').

#[local] Instance honours_preorder : PreOrder honours.
Proof.
  split.
  - intros w _. split_and!; [done..|]. exists []. rewrite app_nil_r. split_and!; [done|intros; apply not_elem_of_nil|]. by intros [].
  - intros w1 w2 w3 H12 H23 Hn. destruct (H12 Hn) as (Hk1 & Hs1 & n1 & Hc1 & Hd1 & Hp1). rewrite <-Hk1 in Hn.
    destruct (H23 Hn) as (Hk2 & Hs2 & n2 & Hc2 & Hd2 & Hp2). split_and!; [congruence|auto|].
    exists (n1 ++ n2). split_and!; [by rewrite Hc2, Hc1, app_assoc| |].
    + intros key Hs. rewrite fmap_app, elem_of_app. intros [?|?]; [by apply (Hd1 key Hs)|by apply (Hd2 key (Hs1 _ Hs))].
    + intros pre key c post [(k & -> & Hk)|(k & -> & ->)]%app_eq_inv Hp; [|by eapply Hp2].
      destruct k as [|y k]; simplify_eq/=; [by apply (Hp2 [] key c post)|].
      destruct (Hp1 _ _ _ _ eq_refl Hp) as [Hpost Hsus]. rewrite fmap_app, elem_of_app. split; [|by apply Hs2].
      intros [?|?]; [done|by apply (Hd2 key)].
Qed.

Lemma eligible_not_suspended key e p now : e ∈ _entries p -> eligible now e = true -> suspended key p -> ce_api_key e <> key.
Proof. intros He Hel Hs Hk. unfold eligible in Hel. by rewrite (Hs e He Hk) in Hel. Qed.

Lemma round_honours {B} w (o : outcome (round_result B)) w' : round_spec w o w' -> honours w w'.
Proof.
  intros [[[Hp Hc] _]|(c & (e & f & He & Hel & Hc & Hf & Hperm & Hp) & _)] Hn.
  - unfold keys, suspended. rewrite Hp. split_and!; [done..|]. exists []. rewrite app_nil_r.
    split_and!; [done|intros; apply not_elem_of_nil|]. by intros [].
  - split_and!.
    + unfold keys. by rewrite Hp, update_key_keys.
    + intros key Hs x Hx Hk. rewrite Hp in Hx. apply elem_of_update_key in Hx as [Hx|(x' & Hx & Hk' & ->)]; [by apply Hs|].
      exfalso. apply (eligible_not_suspended key e _ _ He Hel Hs). by rewrite <-Hk, Hf.
    + exists [(ce_api_key e, c)]. split_and!; [done| |].
      * intros key Hs Hin%list_elem_of_singleton. by apply (eligible_not_suspended key e _ _ He Hel Hs).
      * intros pre key d post Hpre Hd. destruct pre as [|? []]; simplify_eq/=. split; [apply not_elem_of_nil|].
        intros x Hx Hk. rewrite Hp in Hx. destruct (update_key_all f _ _ x Hn Hf Hx Hk) as (x' & _ & ->). by apply Hperm.
Qed.

Lemma rounds_honours {B} (round : nat -> last_failure -> PyM world (round_result B)) ex ns :
  (forall n l w o w', round n l w = (o, w') -> round_spec w o w') -> forall l, keeps honours (rounds round ex ns l).
Proof.
  intros Hr. induction ns as [|n ns IH]; intros l; [apply keeps_ret, _|]. apply keeps_bind; [apply _| |].
  - intros w. destruct (round n l w) as [o w'] eqn:Ho. by eapply round_honours, Hr.
  - intros [r|l']; [apply keeps_ret, _|apply IH].
Qed.

(** A credential whose call failed for good - an invalid key, a disabled account, an
    unpaid bill - is never called again: not by the rest of the same request, whole or
    streamed, and, as it stays suspended for ever, not by a later one either. *)
Theorem permanent_never_reused request w w' : NoDup (keys (fo_pool w)) ->
  w' = (complete P policy request w).2 \/ w' = (stream P policy request w).2 ->
  exists new, fo_calls w' = fo_calls w ++ new /\
    (forall key, suspended key (fo_pool w) -> key ∉ new.*1 /\ suspended key (fo_pool w')) /\
    forall pre key c post, new = pre ++ (key, c) :: post -> permanent_call c = true -> key ∉ post.*1 /\ suspended key (fo_pool w').
Proof.
  intros Hn Hw. assert (honours w w') as (_ & Hs & new & Hc & Hd & Hp); [|done|exists new; split_and!; auto].
  destruct Hw as [-> | ->]; apply rounds_honours; [apply complete_round_spec|apply stream_round_spec].
Qed.

(** A request makes at most [max_retries + 1] calls, stops at the first answer, and
    returns an answer exactly when the last call was answered. *)
Theorem complete_attempts request w o w' : complete P policy request w = (o, w') ->
  exists new, fo_calls w' = fo_calls w ++ new /\ Z.of_nat (length new) <= Z.max 0 (max_retries policy + 1) /\ ended new o.
Proof.
  intros H. destruct (rounds_calls _ _ _ (complete_round_spec request) _ _ _ _ H) as (new & Hc & Hl & He).
  exists new. split_and!; [done| |done]. unfold attempts in Hl. rewrite length_seq in Hl. lia.
Qed.

Theorem stream_attempts request w o w' : stream P policy request w = (o, w') ->
  exists new, fo_calls w' = fo_calls w ++ new /\ Z.of_nat (length new) <= Z.max 0 (max_retries policy + 1) /\ ended new o.
Proof.
  intros H. destruct (rounds_calls _ _ _ (stream_round_spec request) _ _ _ _ H) as (new & Hc & Hl & He).
  exists new. split_and!; [done| |done]. unfold attempts in Hl. rewrite length_seq in Hl. lia.
Qed.
End facts.

(** A single credential ******************************************************************)

(** A failure that leaves the credential usable after its cooldown. *)
Definition transient_call {W Q R D} (P : chain_ports W Q R D) (c : call_result R) : bool :=
  match c with
  | Response _ | OtherException _ => false
  | HTTPStatusError status body header =>
      negb (is_permanent (classify_http_error status body)) && bool_decide (_parse_retry_after P header = None)
  | TimeoutException | RequestError _ => true
  end.

Section single.
Context {W Q R D : Type} (P : chain_ports W Q R D) (policy : RetryPolicy).
Abbreviation world := (chain_world W R D).
Implicit Types w : world.
Hypothesis factor_bounds : forall t, 500000 <= (cp_uniform P t).1 <= 1500000.
Hypothesis uniform_time : forall t, cp_time P (cp_uniform P t).2 = cp_time P t.
Hypothesis sleep_time : forall d t, exists t', cp_sleep P (Fin d) t = (Ret tt, t') /\ cp_time P t' <= cp_time P t + d.
Hypothesis delays : 0 <= base_delay_ms policy /\ 0 <= max_delay_ms policy <= 39999.

Lemma backoff_time attempt w : exists w', backoff P policy attempt w = (Ret tt, w') /\ quiet w w' /\
  cp_time P (fo_rest w') < cp_time P (fo_rest w) + 60000000.
Proof using factor_bounds uniform_time sleep_time delays.
  assert (forall factor, 500000 <= factor <= 1500000 \/ jitter policy = false -> delay_for policy factor attempt < 60000000) as Hd.
  { intros f Hf. assert (0 <= base_delay_ms policy * 2 ^ Z.of_nat attempt) by (apply Z.mul_nonneg_nonneg; [lia|apply Z.pow_nonneg; lia]).
    destruct Hf as [Hf|Hj]; [pose proof (delay_bounds policy f attempt ltac:(lia) ltac:(lia) Hf) as Hb; cbv zeta in Hb; lia|].
    unfold delay_for. rewrite Hj. lia. }
  unfold backoff, uniform, sleep, on_chain_rest, py_zoom, mbind, PyM_bind. destruct (jitter policy) eqn:Hj.
  - pose proof (factor_bounds (fo_rest w)) as Hf. pose proof (uniform_time (fo_rest w)) as Ht.
    destruct (cp_uniform P (fo_rest w)) as [u t]. cbn in *.
    destruct (sleep_time (delay_for policy u attempt) t) as (t' & -> & Ht'). cbn. eexists. split_and!; [done|done|]. cbn.
    specialize (Hd u ltac:(auto)). lia.
  - cbn. destruct (sleep_time (delay_for policy 0 attempt) (fo_rest w)) as (t' & -> & Ht'). cbn. eexists. split_and!; [done|done|]. cbn.
    specialize (Hd 0 ltac:(auto)). lia.
Qed.

Lemma transient_round request attempt l w e : _entries (fo_pool w) = [e] -> eligible (cp_time P (fo_rest w)) e = true ->
  not_last policy attempt = true -> transient_call P (cp_complete P (ce_api_key e) request (fo_rest w)).1 = true ->
  exists l' e' w', complete_round P policy request attempt l w = (Ret (Next l'), w') /\ _entries (fo_pool w') = [e'] /\
    eligible (cp_time P (fo_rest w')) e' = false /\
    fo_calls w' = fo_calls w ++ [(ce_api_key e, forget (cp_complete P (ce_api_key e) request (fo_rest w)).1)].
Proof using factor_bounds uniform_time sleep_time delays.
  intros He Hel Hnl Ht. destruct l as [[lr ls] lp]. unfold complete_round. unfold mbind at 1, PyM_bind at 1.
  destruct (pool_next P w) as [o1 w1] eqn:Hn. apply pool_next_spec in Hn as (Hr1 & Hc1 & Hp1 & Ho).
  destruct Ho as [[-> Hno]|(x & -> & Hx & _)].
  { exfalso. rewrite He in Hno. specialize (Hno ltac:(done) e (list_elem_of_here _ _)). congruence. }
  rewrite He in Hx. apply list_elem_of_singleton in Hx as ->. cbv zeta. unfold mbind at 1, PyM_bind at 1.
  unfold gateway_complete, on_chain_rest, py_zoom, record_call, mbind at 1 2, PyM_bind at 1 2, py_modify. rewrite Hr1.
  destruct (cp_complete P (ce_api_key e) request (fo_rest w)) as [c t2] eqn:Hg. cbn [fst] in *. cbn [mret PyM_ret fo_calls fo_pool fo_rest fo_yielded fst snd].
  assert (forall l' : last_failure, exists e' w', (_ ← pool_failed P (ce_api_key e) _TRANSIENT_COOLDOWN; _ ← backoff P policy attempt; mret (Next l' : round_result R))
      (mkChainWorld (fo_pool w1) (fo_calls w1 ++ [(ce_api_key e, forget c)]) (fo_yielded w1) t2) = (Ret (Next l'), w') /\
      _entries (fo_pool w') = [e'] /\ eligible (cp_time P (fo_rest w')) e' = false /\ fo_calls w' = fo_calls w ++ [(ce_api_key e, forget c)]) as Hgo.
  { intros l'. unfold pool_failed, time, on_pool, py_get, py_modify. unfold mbind, PyM_bind. cbn.
    match goal with |- context [backoff P policy attempt ?s] => destruct (backoff_time attempt s) as (w3 & -> & [Hq1 Hq2] & Hlt) end.
    cbn in Hq1, Hq2, Hlt. eexists _, w3. split_and!; [done|rewrite Hq1; cbn; rewrite Hp1, He; cbn; by rewrite decide_True by done| |by rewrite Hq2, Hc1].
    unfold eligible. cbn. apply Z.ltb_ge. lia. }
  destruct c as [r|status body header| |text|x]; cbn in Ht; [done| | | |done].
  - apply andb_prop in Ht as [Hperm Hra%bool_decide_eq_true]. rewrite (proj1 (negb_true_iff _) Hperm), Hra, Hnl. cbn [from_option]. unfold id. eauto.
  - rewrite Hnl. eauto.
  - rewrite Hnl. eauto.
Qed.

(** The chain does not retry with a single credential: after a time-out, a refused
    connection, a rate limit or a server error without a usable Retry-After the credential
    is in cooldown for a minute, longer than any back-off, so that the chain sleeps, finds
    no credential and gives up after one call, whatever [max_retries] says. *)
Theorem single_credential_not_retried request w e : 1 <= max_retries policy -> _entries (fo_pool w) = [e] ->
  eligible (cp_time P (fo_rest w)) e = true -> transient_call P (cp_complete P (ce_api_key e) request (fo_rest w)).1 = true ->
  exists err w', complete P policy request w = (Ret (inl err), w') /\
    String.prefix "All LLM credentials are in cooldown." (fe_message err) = true /\
    fo_calls w' = fo_calls w ++ [(ce_api_key e, forget (cp_complete P (ce_api_key e) request (fo_rest w)).1)].
Proof using factor_bounds uniform_time sleep_time delays.
  intros Hm He Hel Ht. unfold complete, attempts. destruct (Z.to_nat (max_retries policy + 1)) as [|[|n]] eqn:Hn; [lia|lia|].
  cbn [seq rounds]. unfold mbind at 1, PyM_bind at 1.
  destruct (transient_round request 0 no_failure w e He Hel ltac:(apply Z.ltb_lt; lia) Ht) as ([[lr ls] lp] & e' & w1 & -> & He1 & Hel1 & Hc1).
  unfold mbind at 1, PyM_bind at 1. unfold complete_round at 1. unfold mbind at 1, PyM_bind at 1.
  destruct (pool_next P w1) as [o2 w2] eqn:Hp. apply pool_next_spec in Hp as (_ & Hc2 & _ & [[-> _]|(x & _ & Hx & Hxe)]).
  - cbn. eexists _, w2. split_and!; [done|done|by rewrite Hc2].
  - exfalso. rewrite He1 in Hx. apply list_elem_of_singleton in Hx as ->. congruence.
Qed.
End single.

(** Examples *****************************************************************************)

(** The clock and the answers the calls will get; a call takes a tenth of a second, the
    random factor is 1. *)
Definition script : Type := Z * list (list string * call_result string).

Definition script_complete (t : script) : call_result string * script :=
  match t with
  | (now, (_, c) :: cs) => (c, (now + 100000, cs))
  | (now, []) => (Response "ok", (now + 100000, []))
  end.
Definition script_stream (t : script) : (list string * call_result unit) * script :=
  match t with
  | (now, (ds, c) :: cs) => ((ds, forget c), (now + 100000, cs))
  | (now, []) => ((["ok"], Response tt), (now + 100000, []))
  end.
Definition script_sleep (d : ftime) (t : script) : outcome unit * script :=
  match d with
  | Fin us => (Ret tt, (t.1 + us, t.2))
  | _ => (Raise (ValueError "Invalid delay"), t)
  end.
Definition script_float (h : string) : option ftime :=
  if decide (h = "nan") then Some NaN else if decide (h = "0") then Some (Fin 0) else None.

Definition example_ports : chain_ports script string string string :=
  mkChainPorts _ _ _ _ (fun _ _ => script_complete) (fun _ => true) (fun _ _ => script_stream) fst script_sleep
    (fun t => (1000000, t)) script_float.
Definition default_policy : RetryPolicy := mkRetryPolicy 3 500 30000 true.
Definition fresh (keys : list string) : CredentialPool := mkPool (map (fun k => mkEntry k "anthropic" (Fin 0) 0) keys) (-1).
Definition example_world (keys : list string) (answers : list (list string * call_result string)) : chain_world script string string :=
  mkChainWorld (fresh keys) [] [] (1000, answers).

Definition outcome_and_calls {B} (r : outcome B * chain_world script string string) : outcome B * list string :=
  (r.1, (fo_calls r.2).*1).

(** Over after an invalid key and a rate limit: the third key answers. *)
Example three_keys : outcome_and_calls (complete example_ports default_policy "q" (example_world ["a"; "b"; "c"]
    [([], HTTPStatusError 401 "Invalid_API_Key" None); ([], HTTPStatusError 429 "" None); ([], Response "hello")])) =
  (Ret (inr "hello"), ["a"; "b"; "c"]).
Proof. vm_compute. reflexivity. Qed.

Lemma permanent_never_reused_witness :
  let w := example_world ["a"; "b"] [([], HTTPStatusError 402 "" None); ([], HTTPStatusError 429 "" (Some "0")); ([], Response "x")] in
  let w' := (complete example_ports default_policy "q" w).2 in
  fo_calls w' <> [] /\
  exists new, fo_calls w' = fo_calls w ++ new /\
    (forall key, suspended key (fo_pool w) -> key ∉ new.*1 /\ suspended key (fo_pool w')) /\
    forall pre key c post, new = pre ++ (key, c) :: post -> permanent_call c = true -> key ∉ post.*1 /\ suspended key (fo_pool w').
Proof.
  split; [vm_compute; discriminate|].
  eapply (permanent_never_reused example_ports default_policy "q"); [|by left].
  vm_compute. repeat constructor; rewrite ?elem_of_cons, ?elem_of_nil; intuition discriminate.
Defined.

(** A key given twice is called again after it was found invalid. *)
Example duplicate_key_reused : outcome_and_calls (complete example_ports default_policy "q" (example_world ["a"; "a"]
    [([], HTTPStatusError 401 "invalid_api_key" None); ([], Response "x")])) = (Ret (inr "x"), ["a"; "a"]).
Proof. vm_compute. reflexivity. Qed.

(** A call that was in flight when the same key was found invalid lifts the suspension,
    whether it succeeds or fails. *)
Lemma suspension_lifted now key p e : e ∈ _entries p -> ce_api_key e = key ->
  (exists x, x ∈ _entries (mark_success key p) /\ ce_api_key x = key /\ ce_cooldown_until x = Fin 0) /\
  (exists x, x ∈ _entries (mark_failed now key _TRANSIENT_COOLDOWN p) /\ ce_api_key x = key /\ ce_cooldown_until x = Fin (now + 60000000)).
Proof.
  intros He Hk. assert (forall f, (forall x, ce_api_key (f x) = ce_api_key x) ->
      exists x, f x ∈ update_key f key (_entries p) /\ ce_api_key (f x) = key) as Hup.
  { intros f Hf. induction (_entries p) as [|y es IH]; [by apply elem_of_nil in He|]. cbn. case_decide as Hy.
    - exists y. rewrite Hf. split; [apply elem_of_cons; by left|done].
    - apply elem_of_cons in He as [->|He]; [done|]. destruct (IH He) as (x & ? & ?). exists x. split; [apply elem_of_cons; by right|done]. }
  split; [destruct (Hup (fun e => mkEntry (ce_api_key e) (ce_provider e) (Fin 0) 0)) as (x & ? & ?)
         |destruct (Hup (fun e => mkEntry (ce_api_key e) (ce_provider e) (plus_now now _TRANSIENT_COOLDOWN) (ce_failure_count e + 1))) as (x & ? & ?)];
    try done; eexists; (split; [eassumption|done]).
Qed.

Lemma single_credential_not_retried_witness :
  let w := example_world ["a"] [([], HTTPStatusError 503 "busy" None); ([], Response "x")] in
  let e := mkEntry "a" "anthropic" (Fin 0) 0 in
  transient_call example_ports (cp_complete example_ports "a" "q" (fo_rest w)).1 = true /\
  exists err w', complete example_ports default_policy "q" w = (Ret (inl err), w') /\
    String.prefix "All LLM credentials are in cooldown." (fe_message err) = true /\
    fo_calls w' = fo_calls w ++ [(ce_api_key e, forget (cp_complete example_ports (ce_api_key e) "q" (fo_rest w)).1)].
Proof.
  split; [reflexivity|].
  apply (single_credential_not_retried example_ports default_policy); try done.
  - intros d t. exists (t.1 + d, t.2). split; [done|]. cbn. lia.
Defined.

(** The answer that was waiting is never asked for. *)
Example retries_ignored : outcome_and_calls (complete example_ports default_policy "q" (example_world ["a"] [([], TimeoutException); ([], Response "x")])) =
  (Ret (inl (mkFailoverError fr_timeout "All LLM credentials are in cooldown. Last failure: timeout (HTTP None)" None (Some "anthropic"))), ["a"]).
Proof. vm_compute. reflexivity. Qed.

(** A stream that times out in the middle is begun again: the caller gets its beginning
    twice. *)
Example stream_begun_again :
  let r := stream example_ports default_policy "q" (example_world ["a"; "b"] [(["He"; "llo"], TimeoutException); (["He"; "llo"; "!"], Response "")]) in
  r.1 = Ret (inr tt) /\ fo_yielded r.2 = [inr "He"; inr "llo"; inr "He"; inr "llo"; inr "!"].
Proof. split; vm_compute; reflexivity. Qed.

(** A refused connection fails over in [complete] and not in [stream]. *)
Example refused_connection :
  let w := example_world ["a"; "b"] [([], RequestError "refused"); ([], Response "x")] in
  outcome_and_calls (complete example_ports default_policy "q" w) = (Ret (inr "x"), ["a"; "b"]) /\
  outcome_and_calls (stream example_ports default_policy "q" w) = (Raise (OtherError "RequestError" "refused"), ["a"]).
Proof. split; vm_compute; reflexivity. Qed.

(** A Retry-After of [nan] suspends a credential for ever, although the pool says that not
    all are cooling down. *)
Lemma nan_cooldown now later key p : NoDup (keys p) -> _entries p <> [] -> keys p = [key] ->
  let p' := mark_failed now key NaN p in
  (next_eligible later p').1 = None /\ all_cooling_down later p' = false.
Proof.
  destruct p as [[|e [|]] rr]; cbn; try done. intros _ _ [= <-]. unfold mark_failed. cbn. rewrite decide_True by done.
  split; [|done]. destruct (next_eligible later _) as [[x|] p'] eqn:Hn; [|done].
  apply next_eligible_entry in Hn as (Hx & Hel & _). apply list_elem_of_singleton in Hx as ->. done.
Qed.

Example keys_from_env : make_credential_pool_from_env (Some " a, b,,a ") "anthropic" =
  Ret (fresh ["a"; "b"; "a"]).
Proof. vm_compute. reflexivity. Qed.
