(* ===== verification/Permission.v ===== *)
(** * Permission rules of tools ([hi_agent/runtime/harness/permission_rules.py])

    Ordered rules with glob patterns on an input field, the counter of consecutive denials
    of a run, and the gate that joins them.  Globs are [fnmatch] on a POSIX system; a
    pattern with a character set in brackets is outside the model. *)

From stdpp Require Import base tactics option list strings pretty gmap.
From Stdlib Require Import ZArith Ascii.
From S2P Require Import Prelude PyStr PyDict PyVal.
#[local] Arguments String.append : simpl nomatch.
#[local] Open Scope Z_scope.

Inductive PermissionAction := ALLOW | DENY | ASK.

#[export] Instance PermissionAction_eq_dec : EqDecision PermissionAction.
Proof. solve_decision. Defined.

(** [PermissionAction(s)], when there is such a member. *)
Definition permission_action (s : string) : option PermissionAction :=
  if decide (s = "allow") then Some ALLOW else if decide (s = "deny") then Some DENY else if decide (s = "ask") then Some ASK else None.

Record PermissionDecision := mkDecision {
  pd_action : PermissionAction;
  pd_rule_name : option string;
  pd_reason : string;
  pd_tool_name : string;
  pd_matched_input_field : option string;
  pd_matched_pattern : option string
}.

Record ToolPermissionRule := mkRule {
  pr_name : string;
  pr_tool_name : option string;
  pr_input_field : option string;
  pr_glob_pattern : option string;
  pr_action : PermissionAction;
  pr_reason : string
}.

(** Some suffix of [s], [s] itself included, satisfies [p]. *)
Fixpoint some_suffix (p : string -> bool) (s : string) : bool :=
  p s || match s with "" => false | String _ s' => some_suffix p s' end.

(** [fnmatch] without character sets: a star stands for any text, a question mark for any
    character. *)
Fixpoint glob (pat : string) (name : string) : bool :=
  match pat with
  | "" => bool_decide (name = "")
  | String c pat' =>
      if decide (c = "*"%char) then some_suffix (glob pat') name
      else match name with
           | "" => false
           | String d name' => (bool_decide (c = "?"%char) || bool_decide (c = d)) && glob pat' name'
           end
  end.

Definition fnmatch (name pat : string) : outcome bool :=
  if contains pat "[" then Raise (OutsideModel "a character set in a glob") else Ret (glob pat name).

Definition matches_tool (r : ToolPermissionRule) (tool_name : string) : bool :=
  match pr_tool_name r with None => true | Some t => bool_decide (lower t = lower tool_name) end.

Definition matches_input (r : ToolPermissionRule) (tool_input : odict string pyval) : outcome bool :=
  match pr_input_field r with
  | None => Ret true
  | Some f =>
      match pd_get tool_input f with
      | PNone => Ret false
      | v => match pr_glob_pattern r with None => Ret true | Some pat => fnmatch (py_str v) pat end
      end
  end.

(** The rules, in order. *)
Abbreviation ToolPermissionRules := (list ToolPermissionRule).

Definition matched (r : ToolPermissionRule) (tool_name : string) : PermissionDecision :=
  mkDecision (pr_action r) (Some (pr_name r))
    (if decide (pr_reason r = "") then "Matched rule '" +:+ pr_name r +:+ "'" else pr_reason r) tool_name (pr_input_field r) (pr_glob_pattern r).

Definition unmatched (tool_name : string) : PermissionDecision :=
  mkDecision ASK None "No permission rule matched; defaulting to human review." tool_name None None.

Fixpoint evaluate (rules : ToolPermissionRules) (tool_name : string) (tool_input : odict string pyval) : outcome PermissionDecision :=
  match rules with
  | [] => Ret (unmatched tool_name)
  | r :: rules' =>
      if matches_tool r tool_name then
        m ← matches_input r tool_input;
        if (m : bool) then Ret (matched r tool_name) else evaluate rules' tool_name tool_input
      else evaluate rules' tool_name tool_input
  end.

Definition add_rule (r : ToolPermissionRule) (rules : ToolPermissionRules) : ToolPermissionRules := rules ++ [r].

Fixpoint remove_rule (name : string) (rules : ToolPermissionRules) : bool * ToolPermissionRules :=
  match rules with
  | [] => (false, [])
  | r :: rules' =>
      if decide (pr_name r = name) then (true, rules')
      else let '(b, rest) := remove_rule name rules' in (b, r :: rest)
  end.

(** A value of a configuration entry that should be text or absent. *)
Definition config_text (v : pyval) : outcome (option string) :=
  match v with PNone => Ret None | PStr s => Ret (Some s) | _ => Raise (OutsideModel "a rule field that is not text") end.

Definition rule_from (idx : nat) (cfg : odict string pyval) : outcome ToolPermissionRule :=
  action_str ← config_text (default (PStr "ask") (od_get "action" cfg));
  name ← config_text (pd_get cfg "name");
  tool ← config_text (pd_get cfg "tool");
  field ← config_text (pd_get cfg "field");
  pattern ← config_text (pd_get cfg "pattern");
  reason ← config_text (default (PStr "") (od_get "reason" cfg));
  Ret (mkRule (default ("rule-" +:+ pretty (Z.of_nat idx)) (py_or name None)) tool field pattern
         (default ASK (a ← action_str; permission_action a)) (default "" reason)).

Fixpoint from_config_at (idx : nat) (config_list : list (odict string pyval)) : outcome ToolPermissionRules :=
  match config_list with
  | [] => Ret []
  | cfg :: rest =>
      r ← rule_from idx cfg;
      rules ← from_config_at (S idx) rest;
      Ret (r :: rules)
  end.
Definition from_config : list (odict string pyval) -> outcome ToolPermissionRules := from_config_at 0.

Definition default_safe_rules : ToolPermissionRules := [
  mkRule "deny-bash-rm-rf" (Some "bash") (Some "command") (Some "rm -rf *") DENY "Recursive force-delete commands are not permitted.";
  mkRule "deny-bash-rm-rf-slash" (Some "bash") (Some "command") (Some "rm -rf /*") DENY "Recursive force-delete of root path is blocked.";
  mkRule "deny-bash-rm-r" (Some "bash") (Some "command") (Some "rm -r *") DENY "Recursive delete commands require human approval.";
  mkRule "deny-file-write-etc" (Some "file_write") (Some "path") (Some "/etc/*") DENY "Writing to /etc/ is not permitted.";
  mkRule "deny-file-write-boot" (Some "file_write") (Some "path") (Some "/boot/*") DENY "Writing to /boot/ is not permitted.";
  mkRule "deny-file-write-sys" (Some "file_write") (Some "path") (Some "/sys/*") DENY "Writing to /sys/ is not permitted.";
  mkRule "deny-file-write-proc" (Some "file_write") (Some "path") (Some "/proc/*") DENY "Writing to /proc/ is not permitted.";
  mkRule "deny-file-write-ssh" (Some "file_write") (Some "path") (Some "*/.ssh/*") DENY "Writing to SSH configuration directories is not permitted."
].

(** Denials ******************************************************************************)

Record DenialRecord := mkDenial { dn_tool_name : string; dn_decision : PermissionDecision; dn_denied_at : string; dn_run_id : string }.

Record DenialCounter := mkCounter {
  _escalation_threshold : Z;
  _window_size : Z;
  _denials : gmap string (list DenialRecord);
  _consecutive : gmap string Z
}.

Definition new_counter (threshold window : Z) : DenialCounter := mkCounter threshold window ∅ ∅.

(** [l[k:]] *)
Definition slice_from {A} (k : Z) (l : list A) : list A :=
  if decide (k < 0) then drop (Z.to_nat (Z.of_nat (length l) + k)) l else drop (Z.to_nat k) l.

Definition get_denial_count (run_id : string) (c : DenialCounter) : Z := default 0 (_consecutive c !! run_id).
Definition should_escalate (run_id : string) (c : DenialCounter) : bool := _escalation_threshold c <=? get_denial_count run_id c.

Definition record_denial (now : string) (run_id tool_name : string) (decision : PermissionDecision) (c : DenialCounter) : DenialCounter :=
  let history := default [] (_denials c !! run_id) ++ [mkDenial tool_name decision now run_id] in
  mkCounter (_escalation_threshold c) (_window_size c)
    (<[run_id := if _window_size c <? Z.of_nat (length history) then slice_from (- _window_size c) history else history]> (_denials c))
    (<[run_id := get_denial_count run_id c + 1]> (_consecutive c)).

Definition record_approval (run_id : string) (c : DenialCounter) : DenialCounter :=
  mkCounter (_escalation_threshold c) (_window_size c) (_denials c) (<[run_id := 0]> (_consecutive c)).

Definition reset (run_id : string) (c : DenialCounter) : DenialCounter :=
  mkCounter (_escalation_threshold c) (_window_size c) (base.delete run_id (_denials c)) (base.delete run_id (_consecutive c)).

Definition get_recent_denials (run_id : string) (n : Z) (c : DenialCounter) : list DenialRecord :=
  slice_from (- n) (default [] (_denials c !! run_id)).

(** The gate *****************************************************************************)

Record PermissionGateDecision := mkGateDecision {
  gd_escalated : bool;
  gd_permission_decision : PermissionDecision;
  gd_denial_count : Z;
  gd_escalation_reason : option string
}.

(** [now]: the clock as ISO text. *)
Definition check (rules : ToolPermissionRules) (now : string) (run_id tool_name : string) (tool_input : odict string pyval) :
    PyM DenialCounter PermissionGateDecision :=
  decision ← py_lift (evaluate rules tool_name tool_input);
  if decide (pd_action decision = DENY) then
    _ ← py_modify (record_denial now run_id tool_name decision);
    c ← py_get;
    let escalated := should_escalate run_id c in
    let denial_count := get_denial_count run_id c in
    mret (mkGateDecision escalated decision denial_count
      (if escalated then Some ("Consecutive denial count (" +:+ pretty denial_count +:+ ") reached escalation threshold; routing to Gate D (final_approval).")
       else None))
  else
    _ ← py_modify (record_approval run_id);
    c ← py_get;
    mret (mkGateDecision false decision (get_denial_count run_id c) None).

(** Globs ********************************************************************************)

Lemma some_suffix_spec p s : some_suffix p s = true <-> exists a b, s = a +:+ b /\ p b = true.
Proof.
  split.
  - induction s as [|c s IH]; simpl; rewrite orb_true_iff; intros [H|H].
    + by exists "", "".
    + done.
    + by exists "", (String c s).
    + destruct (IH H) as (a & b & -> & Hb). by exists (String c a), b.
  - intros (a & b & -> & Hb). induction a as [|c a IH]; simpl.
    + destruct b; simpl; by rewrite Hb.
    + by rewrite IH, orb_true_r.
Qed.

Definition literal_char (c : ascii) : bool := negb (bool_decide (c = "*"%char) || bool_decide (c = "?"%char)).
Definition literal (s : string) : bool := all_chars literal_char s.

(** A star at the end of literal text asks for a prefix. *)
Lemma glob_prefix p pat name : literal p = true -> glob (p +:+ pat) name = true <-> exists rest, name = p +:+ rest /\ glob pat rest = true.
Proof.
  revert name. induction p as [|c p IH]; intros name Hp; simpl; [naive_solver|].
  cbn in Hp. apply andb_prop in Hp as [Hc Hp]. unfold literal_char in Hc.
  rewrite negb_true_iff, orb_false_iff, !bool_decide_eq_false in Hc. destruct Hc as [Hs Hq].
  rewrite decide_False by done. rewrite (bool_decide_eq_false_2 (c = "?"%char)) by done. simpl.
  destruct name as [|d name]; [split; [done|by intros (r & ? & _)]|]. rewrite andb_true_iff, bool_decide_eq_true, (IH _ Hp).
  split; [intros [-> (r & -> & Hr)]; eauto|intros (r & [= -> ->] & Hr); eauto].
Qed.

Lemma glob_star name : glob "*" name = true.
Proof. apply some_suffix_spec. exists name, "". split; [|done]. by induction name as [|c s IH]; simpl; [|rewrite <-IH]. Qed.

Lemma glob_literal_star p name : literal p = true -> glob (p +:+ "*") name = true <-> exists rest, name = p +:+ rest.
Proof. intros Hp. rewrite glob_prefix by done. split; [naive_solver|]. intros [r ->]. exists r. split; [done|apply glob_star]. Qed.

(** The default rules refuse every command that begins with a recursive removal and every
    write below the protected directories. *)
Theorem safe_rules_refuse tool field p rest : (tool, field, p) ∈
    [("bash", "command", "rm -rf "); ("bash", "command", "rm -r "); ("file_write", "path", "/etc/"); ("file_write", "path", "/boot/");
     ("file_write", "path", "/sys/"); ("file_write", "path", "/proc/")] ->
  exists d, evaluate default_safe_rules tool [(field, PStr (p +:+ rest))] = Ret d /\ pd_action d = DENY.
Proof.
  pose proof (glob_star rest) as Hs. vm_compute in Hs. rewrite !elem_of_cons, elem_of_nil.
  intros [[= -> -> ->]|[[= -> -> ->]|[[= -> -> ->]|[[= -> -> ->]|[[= -> -> ->]|[[= -> -> ->]|[]]]]]]]; vm_compute; rewrite Hs; eauto.
Qed.

(** What the second rule matches, the first one matched before. *)
Lemma second_rule_unreachable command : glob "rm -rf /*" command = true -> glob "rm -rf *" command = true.
Proof.
  intros [r ->]%(glob_literal_star "rm -rf /"); [|done]. apply (glob_literal_star "rm -rf "); [done|]. by exists ("/" +:+ r).
Qed.

(** Two blanks, or a command in front, are not matched by any rule. *)
Example not_refused : evaluate default_safe_rules "bash" [("command", PStr "rm  -rf /")] = Ret (unmatched "bash") /\
  evaluate default_safe_rules "bash" [("command", PStr "cd / && rm -rf x")] = Ret (unmatched "bash").
Proof. split; vm_compute; reflexivity. Qed.

Lemma evaluate_first rules tool input d : evaluate rules tool input = Ret d ->
  (exists before r after, rules = before ++ r :: after /\ d = matched r tool /\ matches_tool r tool = true /\ matches_input r input = Ret true /\
     Forall (fun r' => matches_tool r' tool = true -> matches_input r' input = Ret false) before) \/
  (d = unmatched tool /\ Forall (fun r' => matches_tool r' tool = true -> matches_input r' input = Ret false) rules).
Proof.
  induction rules as [|r rules IH]; cbn; [intros [= <-]; right; split; [done|constructor]|].
  destruct (matches_tool r tool) eqn:Ht; cbn.
  - destruct (matches_input r input) as [[]|e] eqn:Hi; cbn; [|intros H|done].
    + intros [= <-]. left. exists [], r, rules. split_and!; [done..|constructor].
    + destruct (IH H) as [(b & x & a & -> & ? & ? & ? & Hb)|[? Hb]]; [left; exists (r :: b), x, a|right]; split_and!; try done; by constructor.
  - intros H. destruct (IH H) as [(b & x & a & -> & ? & ? & ? & Hb)|[? Hb]]; [left; exists (r :: b), x, a|right]; split_and!; try done;
      (constructor; [intros; congruence|done]).
Qed.

(** Histories ****************************************************************************)

Inductive gate_op :=
  | Check (now run_id tool_name : string) (tool_input : odict string pyval)
  | Reset (run_id : string).

Definition op_run (o : gate_op) : string := match o with Check _ r _ _ | Reset r => r end.

Definition gate_step (rules : ToolPermissionRules) (c : DenialCounter) (o : gate_op) : DenialCounter :=
  match o with
  | Check now r t i => (check rules now r t i c).2
  | Reset r => reset r c
  end.

Section history.
Context (rules : ToolPermissionRules).

(** How a call was decided, when it was. *)
Definition verdict (o : gate_op) : option PermissionDecision :=
  match o with Check _ _ t i => match evaluate rules t i with Ret d => Some d | Raise _ => None end | Reset _ => None end.

(** The refusals of a run in a row, counted over the calls themselves. *)
Definition streak_step (run_id : string) (n : Z) (o : gate_op) : Z :=
  if decide (op_run o = run_id) then
    match o, verdict o with
    | Reset _, _ => 0
    | _, Some d => if decide (pd_action d = DENY) then n + 1 else 0
    | _, None => n
    end
  else n.
Definition streak (run_id : string) (ops : list gate_op) : Z := foldl (streak_step run_id) 0 ops.

(** The refusals of a run since it was reset. *)
Definition denied_step (run_id : string) (l : list DenialRecord) (o : gate_op) : list DenialRecord :=
  if decide (op_run o = run_id) then
    match o, verdict o with
    | Reset _, _ => []
    | Check now r t _, Some d => if decide (pd_action d = DENY) then l ++ [mkDenial t d now r] else l
    | _, None => l
    end
  else l.
Definition denied (run_id : string) (ops : list gate_op) : list DenialRecord := foldl (denied_step run_id) [] ops.

Definition lastn {A} (n : nat) (l : list A) : list A := drop (length l - n) l.

#[local] Arguments lastn : simpl never.

Lemma slice_last {A} (w : Z) (l : list A) : 0 < w -> slice_from (- w) l = lastn (Z.to_nat w) l.
Proof. intros Hw. unfold slice_from, lastn. rewrite decide_True by lia. f_equal. lia. Qed.

Lemma lastn_short {A} n (l : list A) : (length l <= n)%nat -> lastn n l = l.
Proof. intros Hl. unfold lastn. by replace (length l - n)%nat with 0%nat by lia. Qed.

Lemma lastn_lastn_snoc {A} n (l : list A) x : (0 < n)%nat -> lastn n (lastn n l ++ [x]) = lastn n (l ++ [x]).
Proof.
  intros Hn. unfold lastn. rewrite !length_app, length_drop. cbn [length].
  destruct (decide (length l < n)%nat).
  - replace (length l - n)%nat with 0%nat by lia. cbn. f_equal. lia.
  - replace (length l - (length l - n) + 1 - n)%nat with 1%nat by lia. rewrite <-(drop_app_le l [x]) by lia.
    rewrite drop_drop. f_equal. lia.
Qed.

Definition after (threshold window : Z) (ops : list gate_op) : DenialCounter := foldl (gate_step rules) (new_counter threshold window) ops.

(** What a call does to the counter. *)
Lemma check_run now r t i c : check rules now r t i c =
  match evaluate rules t i with
  | Raise e => (Raise e, c)
  | Ret d =>
      let c' := if decide (pd_action d = DENY) then record_denial now r t d c else record_approval r c in
      (Ret (mkGateDecision (bool_decide (pd_action d = DENY) && should_escalate r c') d (get_denial_count r c')
         (if bool_decide (pd_action d = DENY) && should_escalate r c'
          then Some ("Consecutive denial count (" +:+ pretty (get_denial_count r c') +:+ ") reached escalation threshold; routing to Gate D (final_approval).")
          else None)), c')
  end.
Proof.
  unfold check, py_lift, py_modify, py_get, mbind, PyM_bind. destruct (evaluate rules t i) as [d|e]; [|done].
  cbv zeta. case_decide as Hd; [rewrite bool_decide_eq_true_2 by done|rewrite bool_decide_eq_false_2 by done]; cbn; [|done].
  by destruct (should_escalate _ _).
Qed.

Lemma after_params threshold window ops : _escalation_threshold (after threshold window ops) = threshold /\ _window_size (after threshold window ops) = window.
Proof.
  unfold after. induction ops as [|o ops [IH1 IH2]] using rev_ind; [done|]. rewrite foldl_app. cbn. destruct o as [now r t i|r]; [|done].
  cbn. rewrite check_run. destruct (evaluate rules t i); [|done]. cbn. by case_decide.
Qed.

Lemma after_count threshold window ops r : get_denial_count r (after threshold window ops) = streak r ops.
Proof.
  unfold after, streak. induction ops as [|o ops IH] using rev_ind; [done|]. rewrite !foldl_app. cbn.
  revert IH. generalize (foldl (gate_step rules) (new_counter threshold window) ops) as c. generalize (foldl (streak_step r) 0 ops) as n. intros n c <-.
  unfold streak_step, get_denial_count. destruct o as [now x t i|x]; cbn.
  - rewrite check_run. destruct (evaluate rules t i) as [d|e]; cbn; [|by case_decide]. unfold record_denial, record_approval, get_denial_count.
    destruct (decide (x = r)) as [->|Hx]; case_decide; cbn; rewrite ?lookup_insert_eq, ?lookup_insert_ne by done; done.
  - destruct (decide (x = r)) as [->|Hx]; [by rewrite lookup_delete_eq|by rewrite lookup_delete_ne].
Qed.

Lemma after_denials threshold window ops r : 0 < window ->
  default [] (_denials (after threshold window ops) !! r) = lastn (Z.to_nat window) (denied r ops).
Proof.
  intros Hw. unfold denied. induction ops as [|o ops IH] using rev_ind; [done|].
  pose proof (proj2 (after_params threshold window ops)) as Hp. revert IH Hp. unfold after. rewrite !foldl_app. cbn.
  generalize (foldl (gate_step rules) (new_counter threshold window) ops) as c. generalize (foldl (denied_step r) [] ops) as l. intros l c IH Hp.
  unfold denied_step. destruct o as [now x t i|x]; cbn.
  - rewrite check_run. destruct (evaluate rules t i) as [d|e]; cbn; [|by case_decide]. unfold record_denial, record_approval.
    destruct (decide (x = r)) as [->|Hx]; case_decide; cbn; rewrite ?lookup_insert_eq, ?lookup_insert_ne by done; try done.
    rewrite Hp, IH. cbn. destruct (Z.ltb_spec window (Z.of_nat (length (lastn (Z.to_nat window) l ++ [mkDenial t d now r])))) as [Hl|Hl].
    + rewrite slice_last by done. apply lastn_lastn_snoc. lia.
    + rewrite <-lastn_lastn_snoc by lia. symmetry. apply lastn_short. lia.
  - destruct (decide (x = r)) as [->|Hx]; [by rewrite lookup_delete_eq|by rewrite lookup_delete_ne].
Qed.

(** Whatever calls came before, of whatever runs, a call is escalated exactly when it
    is refused and, with it, the run was refused as many times in a row as the threshold
    says; the count reported is that number, and what is remembered of a run is its last
    refusals, as many as the window holds. *)
Theorem gate_escalates threshold window ops now r t i d : 0 < window -> evaluate rules t i = Ret d ->
  exists g, (check rules now r t i (after threshold window ops)).1 = Ret g /\ gd_permission_decision g = d /\
    gd_denial_count g = streak r (ops ++ [Check now r t i]) /\
    (gd_escalated g = true <-> pd_action d = DENY /\ threshold <= streak r (ops ++ [Check now r t i])) /\
    forall n, 0 < n -> get_recent_denials r n (after threshold window ops) = lastn (Z.to_nat (Z.min n window)) (denied r ops).
Proof.
  intros Hw He. pose proof (after_count threshold window (ops ++ [Check now r t i]) r) as Hc. unfold after in Hc. rewrite foldl_app in Hc.
  fold (after threshold window ops) in Hc. cbn [foldl gate_step] in Hc. rewrite check_run, He in Hc |- *. cbn [fst snd] in *. cbv zeta in *.
  eexists. split_and!; [done|done|exact Hc| |].
  - cbn [gd_escalated]. rewrite andb_true_iff, bool_decide_eq_true. unfold should_escalate. rewrite Hc, Z.leb_le.
    assert (_escalation_threshold (if decide (pd_action d = DENY) then record_denial now r t d (after threshold window ops)
      else record_approval r (after threshold window ops)) = threshold) as -> by (case_decide; apply (after_params threshold window ops)). done.
  - intros n Hn. unfold get_recent_denials. rewrite after_denials, slice_last by done. unfold lastn. rewrite length_drop, drop_drop. f_equal. lia.
Qed.
End history.

(** A window of zero keeps everything, and no denials asked for are all of them. *)
Lemma zero_window_keeps now r t d c : _window_size c = 0 ->
  get_recent_denials r 0 (record_denial now r t d c) = default [] (_denials c !! r) ++ [mkDenial t d now r].
Proof.
  intros Hw. unfold get_recent_denials, record_denial. cbn. rewrite lookup_insert_eq. cbn. rewrite Hw.
  case_match; done.
Qed.

Definition example_calls : list gate_op :=
  [Check "t1" "r" "bash" [("command", PStr "rm -rf /")]; Check "t2" "q" "bash" [("command", PStr "ls")];
   Check "t3" "r" "bash" [("command", PStr "rm -r x")]].

Definition deny_etc : PermissionDecision :=
  matched (mkRule "deny-file-write-etc" (Some "file_write") (Some "path") (Some "/etc/*") DENY "Writing to /etc/ is not permitted.") "file_write".

(** The third refusal of run [r] in a row is escalated; the call of run [q] does not count. *)
Lemma gate_escalates_witness : exists g,
  (check default_safe_rules "t4" "r" "file_write" [("path", PStr "/etc/passwd")] (after default_safe_rules 3 10 example_calls)).1 = Ret g /\
  gd_permission_decision g = deny_etc /\ gd_denial_count g = 3 /\ gd_escalated g = true.
Proof.
  destruct (gate_escalates default_safe_rules 3 10 example_calls "t4" "r" "file_write" [("path", PStr "/etc/passwd")] deny_etc)
    as (g & Hg & Hd & Hc & He & _); [done|by vm_compute|].
  exists g. split_and!; [done|done|rewrite Hc; by vm_compute|]. apply He. split; [done|]. by apply (bool_decide_unpack _); vm_compute.
Defined.

Example third_refusal_escalates : match (check default_safe_rules "t4" "r" "file_write" [("path", PStr "/etc/passwd")] (after default_safe_rules 3 10 example_calls)).1 with
  | Ret g => gd_escalated g = true /\ gd_denial_count g = 3 | Raise _ => False end.
Proof. vm_compute. split; reflexivity. Qed.
